(* ===== verification/_CoqProject ===== *)
-Q . S2P
Prelude.v
GoText.v
Prog.v
GoIo.v
I18n.v
Json.v
JsonSpec.v
Encodings.v
Geth.v
Schema.v
Codec.v
Validators.v
Snapshot.v
Records.v
Sorting.v
Plan.v
Manifest.v
Batching.v
Acceptance.v
Wellformed.v
Distinct.v
PlanSpec.v
Sample.v
Coordinator.v
ManifestSpec.v
CoordinatorSpec.v
ManifestProps.v
PlanProps.v
SnapshotProps.v
Replicationd.v
ReplicationdSpec.v
ReplicationdProps.v
ReplicationClient.v
ReplicationClientProps.v
ChainTypes.v
Remote.v
RemoteSpec.v
RefTable.v
GitWorld.v
CloneProps.v
RemoteProps.v
RemoteDemo.v
Ipfs.v
EvmAddress.v
EvmAddressSpec.v
EvmAddressProps.v
EvmRpc.v
EvmTx.v
EvmTxProps.v
SuiteValues.v
SuiteAbi.v
SuiteErrors.v
SuiteDirectory.v
SuiteTypes.v
SuiteTrust.v
SuiteTrustProps.v
SuiteRegistry.v
SuiteModules.v
SuiteSafety.v
SuiteListing.v
SuiteNode.v
Paths.v
FileSystem.v
FileProtection.v
FileTexts.v
FileProtectionProps.v
Config.v
ConfigSpec.v
ConfigLoad.v
ConfigProps.v
ConfigEffective.v
Journal.v
JournalProps.v
Keystore.v
KeystoreProps.v
DeployArtifact.v
Deploy.v
DeployProps.v
