(* ===== verification/Prelude.v ===== *)
(** * Verification of the igit command-line tool

    igit keeps git repositories on chain: refs live in the contract
    RepositoryCore, packs on IPFS.  The Go program under [src/cli] migrates the
    state of the old contract ([internal/suitemigration]), talks to git as a
    remote helper ([internal/remote]), uploads packs and has them pinned by a
    replication service ([internal/replication], [cmd/igit-replicationd],
    [internal/ipfs]) and writes to the chain ([internal/chain]).  The library
    translates these parts to executable definitions and proves what they
    promise, alone and together.

    ** Foundations

    - [Prelude] (this file): Go errors and results, loops that may fail, maps
      traversed in any order ([MapOrder]), 64-bit integers, shared lemmas.
      [GoText]: [strings], [strconv], hexadecimal, error texts.  [GoIo]: requests
      and responses over a network parameter [Transport], and [bufio.Scanner].
      [Prog]: programs over a state with errors, invariants ([keeps]) and
      postconditions ([ensures]).  [I18n]: [internal/i18n].  [Json], [JsonSpec]:
      [encoding/json], with the proof that printing and reading are inverse.
      [Encodings]: hashes, HMAC and base64.  [Geth]: the functions of
      go-ethereum as a class with laws and one sample instance.

    ** Migration: snapshot, plan, manifest ([internal/suitemigration])

    - [Schema], [Codec], [Validators]: [schema.go], [codec.go] and the leaf
      checks of [plan.go].  [Snapshot]: [validateSnapshot]; [Records]:
      [snapshotModuleRecords]; [Plan]: [appendRecordBatches], [BuildPlan],
      [ValidatePlan]; [Manifest]: [manifest.go]; [Coordinator]: the contract
      that the manifest calls.
    - [Sorting], [Batching], [Acceptance], [Wellformed], [Distinct], [PlanSpec],
      [ManifestSpec], [CoordinatorSpec] hold the lemmas; [Sample] a concrete
      snapshot.
    - [PlanProps]: a plan exists for every accepted snapshot, carries every
      record once and in an order that does not depend on the input, parents
      before forks, and commits to its payloads.  [SnapshotProps]: the
      moderation state machine, badge indexes, revenue splits, locators.
      [ManifestProps]: the manifest makes the intended calls, and executing them
      on a fresh coordinator activates the suite (a refinement of the plan by
      the contract's state machine).

    ** Replication

    - [Replicationd]: the service; its state is the used tickets and the rate
      windows, its steps are requests and restarts.  [ReplicationdSpec],
      [ReplicationdProps]: a ticket authorizes its binding and nothing else, is
      used once, survives a restart; a 201 means verified content; the rate
      windows hold.  Two counterexamples: a failed verification removes another
      ticket's pin, and a field with a line break forges a state line.
    - [ReplicationClient], [ReplicationClientProps]: the client, and client and
      service over a network that loses messages.

    ** The remote helper

    - [ChainTypes]: the domain types and the interface of the registry.
      [Remote]: [url.go] and [helper.go] over the interfaces of the source.
      [RemoteSpec], [RemoteProps]: the conversation ends, every ref is reported,
      every update is backed by a confirmed pack; [ParseURL].
    - [RefTable]: the refs of RepositoryCore; [GitWorld]: contract, store, git
      and replication service in one world with failures; its packs are thin, as
      [gitio.go] asks for them, and indexing fails without their bases.
      [CloneProps]: pushes keep every object in a listed pack, a push of the last
      ref keeps the order in which packs can be indexed, and a clone of packs in
      such an order obtains the history.  [RemoteDemo]: concrete sessions, and
      three in which refs that share history get stranded or block a clone.
    - [Ipfs]: uploads, downloads with fallback, gateway selection.

    ** The EVM client ([internal/chain])

    - [EvmAddress]: [evm_address.go], [evm_codec.go]; [EvmAddressSpec],
      [EvmAddressProps]: bech32 decoding and encoding are inverse, one wrong
      character is always found, and text outside ASCII is misread.
    - [EvmRpc]: [evm_rpc.go]; [EvmTx]: [evm_gas.go], [evm_nonce.go],
      [evm_transactor.go]; [EvmTxProps]: exact gas limits, consecutive nonces
      under any interleaving, how a transaction ends; a node, and the session in
      which a lost reply sends a call twice.

    ** The contract suite ([internal/chain])

    - [SuiteValues]: [evm_suite_values.go], [moderation_values.go].  [SuiteAbi]: [suite_abi.go], the
      functions of the embedded ABIs that the client calls, dynamically typed
      results and the structs made of them.  [SuiteErrors]: the custom errors of
      the ABIs and [evm_errors.go].  [SuiteDirectory]: [suite_directory.go].
      [SuiteRegistry], [SuiteModules]: [evm_suite_registry.go].
    - [SuiteTypes]: the dynamic types of what the ABI decodes, and that every such
      tuple converts to its struct.  [SuiteTrust]: an archive of the chain's answers at a block
      ([Archive], [Reliable]) and the relation [decides] between a program and
      the answers.  [SuiteTrustProps]: verification is sound and exact.
      [SuiteSafety]: what every session of the registry keeps.  [SuiteListing]:
      a listing is the contract's list at one block.
    - [SuiteNode]: a node that answers the texts of requests for a sample suite
      with one repository; the theorems applied to it.

    ** Files

    - [Paths]: [path/filepath].  [FileSystem]: the calls of [os] on a disk.  Its
      state is a table of names and inodes, the contents of the files, and the
      faults that the next calls run into: a call works, fails or ends the
      process, and a write may be cut off at any byte.  The disk remembers its
      earlier tables and which bytes were synced; [FileProtection.after] relates a
      disk to what a loss of power may leave of it: any earlier table, and
      anything in place of bytes that were not synced.
    - [FileProtection], [FileProtectionProps]: [internal/fileprotection]:
      [WriteFile] is atomic.
    - [Config]: [internal/config]; [ConfigSpec], [ConfigLoad], [ConfigProps]: an
      interrupted [Save] leaves a configuration that loads, a finished one loads
      as it was saved, and the network of a loaded configuration is one;
      [ConfigEffective]: gateways, profiles, concrete files and four surprises.
    - [FileTexts]: what calls keep of the text of one file, now and after a loss
      of power ([kept]).  [Journal]: [journal.go] and [manifest.go] of
      [cmd/igit-suite-operator]; [JournalProps]: acknowledged
      entries survive and signatures cover the operation; a session in which a
      torn line spoils the journal.
    - [Keystore]: [internal/chain/evm_keystore.go] on a machine, a disk with a
      terminal; [KeystoreProps]: keys are not lost, their files
      are inside the directory, a created key signs, and what is signed is
      signed by the reported account.

    ** Deployment ([internal/suitedeploy])

    - [DeployArtifact]: [artifact.go] and the comparison of deployed code with
      its template.  [Deploy]: [types.go], [deploy.go], [verify.go]: the manifest
      and its text, the evidence file, the sequence of seventeen transactions and
      the verification of the result.
    - [DeployProps]: the comparison accepts exactly the code of the template with
      immutable values; every transaction is in the evidence file before it is
      sent, whatever fails, and an existing file is never written over; a
      deployment that succeeds is bound as the options ask, for a node that tells
      the truth about blocks ([FinalBlocks]).  [Launch] deploys a small suite.

    ** How the code is translated

    Go maps are [gmap]s, and a loop over a map goes through an arbitrary
    [map_order]; a struct is a record, an error a [goerror] with its format,
    arguments and cause; [uint64] arithmetic is written with [u64].  Methods
    that change state are [prog]s.  A mutex makes a critical section one step.
    Ghost logs ([h_calls] of the helper, [ev_sent] of the transport, [dp_sent] of
    a deployment) record calls for the theorems; no operation reads them.

    ** Fuel

    The JSON parser gets two units for each byte, which suffices for every text
    ([JsonSpec.parse_reads]); the helper's loop one unit for each byte of input
    ([RemoteProps.run_terminates]); [visitFork] and [forkDepth] the number of
    repositories ([Sorting]); the batch search the length of the group
    ([Batching]); the wait for a receipt as many units as its context allows
    waits ([EvmTxProps.transact_settles]).  The page loops of the registry need no
    fuel: the cursor grows below 2^64.  A write of the registry whose wait
    outlasts its fuel ends in the error [OutOfFuel].

    ** Parameters

    go-ethereum ([Geth], [GethLaws]), the JSON text of a plan ([PlanJSON]), the
    modules' import ([ModuleImport]), identity signatures, the Kubo daemon, the
    network ([Transport]), waiting and deadlines ([Waiting], [Deadline]), the
    answers of the chain at a block ([Archive]), revert reasons ([RevertReasons]),
    times and signatures of the journal ([Times], [Signing]), key files and
    signatures of go-ethereum ([Keys], [KeysLaws]), the working directory
    ([WorkingDirectory]), parsing an ABI ([AbiFiles]), the node and transactor of
    a deployment ([Services], [FinalBlocks]), [net/url] ([Urls]), what the terminal answers ([prompt]), the clock, the
    process environment, the Unicode case tables ([UnicodeCase]), git
    ([GitModel], [GitModelLaws]) and the interfaces of the helper.  Each theorem
    with such a law has a witness with a concrete instance.

    ** Not modelled

    The command-line front ends, the demo tools, process management, downloads
    and the Windows access lists ([internal/bootstrap], [environment],
    [tunnel], [protection_windows.go]) are effects around the packages.
    The web front end, the Rust archive contract and the other Solidity modules
    are other programs. *)
From Stdlib Require Import ZArith Lia.
From stdpp Require Import base list gmap strings option sorting.

(** ** Go errors and results *)

Declare Scope go_scope.
Delimit Scope go_scope with go.

(** An argument of a formatted error. *)
Inductive garg : Type :=
| GStr (s : string)
| GInt (z : Z).

(** A Go [error]: [errors.New]/[fmt.Errorf] with its format and arguments kept
    apart, or a wrapped cause ([%w]); [Typed] is an error of a named Go type
    with its text and, under [Wrapf], the error it unwraps to; [Joined] is one
    that unwraps to two errors, printed one after the other. *)
Inductive goerror : Type :=
| Errorf (format : string) (args : list garg)
| Wrapf (format : string) (args : list garg) (cause : goerror)
| Typed (type : string) (e : goerror)
| Joined (type : string) (first second : goerror).

(** A Go function returning [(A, error)]. *)
Inductive result (A : Type) : Type :=
| Ok (a : A)
| Err (e : goerror).
Arguments Ok {A} a.
Arguments Err {A} e.

Definition errf {A} (format : string) (args : list garg) : result A :=
  Err (Errorf format args).

(** [if err != nil { return fmt.Errorf(format, args..., err) }] *)
Definition wrapf {A} (format : string) (args : list garg) (r : result A) : result A :=
  match r with
  | Ok a => Ok a
  | Err e => Err (Wrapf format args e)
  end.

(** [_, err := f()] used as a boolean: [err == nil]. *)
Definition is_ok {A} (r : result A) : bool :=
  match r with Ok _ => true | Err _ => false end.

(** [value, _ := f()]: the error is dropped and the zero value used. *)
Definition or_zero {A} (zero : A) (r : result A) : A :=
  match r with Ok a => a | Err _ => zero end.

Notation "'let?' p ':=' c 'in' k" :=
  (match c with Ok p => k | Err e => Err e end)
  (at level 10, p pattern at level 0, c at level 99, k at level 200) : go_scope.
Notation "'check?' c ';;' k" :=
  (match c with Ok _ => k | Err e => Err e end)
  (at level 10, c at level 99, k at level 200) : go_scope.
Notation "'fail_if' b 'as' e ';;' k" :=
  (if b then Err e else k)
  (at level 10, b at level 99, e at level 99, k at level 200) : go_scope.

Open Scope go_scope.

(** ** Loops that may fail *)

(** [for _, x := range xs { if err := f(&state, x) ... }] *)
Fixpoint foldM {S A} (f : S -> A -> result S) (xs : list A) (s : S) : result S :=
  match xs with
  | [] => Ok s
  | x :: xs' => let? s' := f s x in foldM f xs' s'
  end.

(** The same loop with the index of the element. *)
Fixpoint foldMi {S A} (f : Z -> S -> A -> result S) (i : Z) (xs : list A) (s : S)
  : result S :=
  match xs with
  | [] => Ok s
  | x :: xs' => let? s' := f i s x in foldMi f (i + 1)%Z xs' s'
  end.

(** A loop that only checks. *)
Fixpoint forM {A} (f : A -> result unit) (xs : list A) : result unit :=
  match xs with
  | [] => Ok tt
  | x :: xs' => check? f x ;; forM f xs'
  end.

(** Go iterates over a map in an unspecified order: [map_order] is the order
    the runtime happens to choose, and nothing but [map_order_perm] is known
    about it. *)
Class MapOrder := {
  map_order : forall {A : Type}, list A -> list A;
  map_order_perm : forall {A : Type} (l : list A), map_order l ≡ₚ l;
}.

#[export] Program Instance literal_order : MapOrder | 100 := {
  map_order A l := l;
}.
Next Obligation. done. Qed.

(** ** Machine integers *)

Definition MaxUint64 : Z := 2 ^ 64 - 1.
Definition u64 (z : Z) : Z := z mod 2 ^ 64.
Definition i64 (z : Z) : Z := (z + 2 ^ 63) mod 2 ^ 64 - 2 ^ 63.

(** [len] of a string and of a slice. *)
Definition slen (s : string) : Z := Z.of_nat (String.length s).
Definition llen {A} (l : list A) : Z := Z.of_nat (length l).

(** ** Tactics *)

Lemma Ok_eq {A} (a b : A) : Ok a = Ok b -> a = b.
Proof. congruence. Qed.

(** Inversion of a chain of guards and calls known to have succeeded. *)
Ltac go_step H :=
  match type of H with
  | (if ?b then Err _ else _) = Ok _ =>
      let E := fresh "Hg" in destruct b eqn:E; [discriminate H|]
  | (match ?c with Ok _ => _ | Err _ => Err _ end) = Ok _ =>
      let E := fresh "Hc" in destruct c eqn:E; [|discriminate H]
  | errf _ _ = Ok _ => discriminate H
  | Err _ = Ok _ => discriminate H
  | Ok _ = Ok _ => apply Ok_eq in H
  end.
Ltac go_inv H := repeat (progress (cbn beta iota in H) || go_step H).

(** Turning boolean guards into propositions. *)
Ltac bool_prop :=
  repeat match goal with
  | H : (_ || _) = false |- _ => apply orb_false_iff in H as [? ?]
  | H : (_ && _) = true |- _ => apply andb_true_iff in H as [? ?]
  | H : negb _ = false |- _ => apply negb_false_iff in H
  | H : negb _ = true |- _ => apply negb_true_iff in H
  | H : bool_decide _ = true |- _ => apply bool_decide_eq_true in H
  | H : bool_decide _ = false |- _ => apply bool_decide_eq_false in H
  | H : Z.eqb _ _ = true |- _ => apply Z.eqb_eq in H
  | H : Z.eqb _ _ = false |- _ => apply Z.eqb_neq in H
  | H : Z.ltb _ _ = true |- _ => apply Z.ltb_lt in H
  | H : Z.ltb _ _ = false |- _ => apply Z.ltb_ge in H
  | H : Z.leb _ _ = true |- _ => apply Z.leb_le in H
  | H : Z.leb _ _ = false |- _ => apply Z.leb_gt in H
  end.

(** ** Lemmas on results and loops *)

Lemma wrapf_ok {A} f args (r : result A) a : wrapf f args r = Ok a <-> r = Ok a.
Proof. destruct r; simpl; split; congruence. Qed.

Lemma is_ok_spec {A} (r : result A) : is_ok r = true <-> exists a, r = Ok a.
Proof. destruct r; simpl; split; [eauto|done|done|intros [? [=]]]. Qed.

Lemma guard_ok {A} (b : bool) e (k : result A) a :
  (if b then Err e else k) = Ok a <-> b = false /\ k = Ok a.
Proof. destruct b; split; intros; destruct_and?; (split || idtac); congruence. Qed.

Lemma bind_ok {A B} (c : result A) (k : A -> result B) b :
  (match c with Ok a => k a | Err e => Err e end) = Ok b <->
  exists a, c = Ok a /\ k a = Ok b.
Proof.
  destruct c; split; intros H; [eauto| | congruence |].
  - destruct H as (? & [= ->] & ?); done.
  - destruct H as (? & [=] & _).
Qed.

Lemma foldM_app {S A} (f : S -> A -> result S) xs ys s :
  foldM f (xs ++ ys) s = let? s' := foldM f xs s in foldM f ys s'.
Proof.
  revert s; induction xs as [|x xs IH]; intros s; simpl; [done|].
  destruct (f s x); [apply IH|done].
Qed.

(** Rule of invariants for [foldM]: the invariant speaks of the processed prefix. *)
Lemma foldM_ind {S A} (f : S -> A -> result S) (P : list A -> S -> Prop) xs s0 s :
  P [] s0 ->
  (forall pre x st st', P pre st -> f st x = Ok st' -> P (pre ++ [x]) st') ->
  foldM f xs s0 = Ok s -> P xs s.
Proof.
  intros H0 Hstep. change xs with ([] ++ xs) at 2. revert H0.
  generalize (@nil A) as pre. revert s0.
  induction xs as [|x xs IH]; intros s0 pre H0 Hf; simpl in Hf.
  - injection Hf as <-. by rewrite app_nil_r.
  - apply bind_ok in Hf as (s1 & Hx & Hf).
    rewrite (cons_middle x pre xs), app_assoc. eauto.
Qed.

Lemma foldMi_ind {S A} (f : Z -> S -> A -> result S) (P : list A -> S -> Prop) xs s0 s :
  P [] s0 ->
  (forall pre x st st',
     P pre st -> f (llen pre) st x = Ok st' -> P (pre ++ [x]) st') ->
  foldMi f 0 xs s0 = Ok s -> P xs s.
Proof.
  intros H0 Hstep. change 0%Z with (llen (@nil A)). change xs with ([] ++ xs) at 2.
  revert H0. generalize (@nil A) as pre. revert s0.
  induction xs as [|x xs IH]; intros s0 pre H0 Hf; simpl in Hf.
  - injection Hf as <-. by rewrite app_nil_r.
  - apply bind_ok in Hf as (s1 & Hx & Hf).
    rewrite (cons_middle x pre xs), app_assoc. apply (IH s1); [by eauto|].
    replace (llen (pre ++ [x])) with (llen pre + 1)%Z; [done|].
    unfold llen. rewrite length_app. simpl. lia.
Qed.

(** What every step checks of its element holds of all of them. *)
Lemma foldM_Forall {S A} (f : S -> A -> result S) (P : A -> Prop) xs s0 s :
  (forall st x st', f st x = Ok st' -> P x) -> foldM f xs s0 = Ok s -> Forall P xs.
Proof.
  intros Hstep. apply (foldM_ind f (fun pre _ => Forall P pre)); [constructor|].
  intros pre x st st' Hpre Hf. apply Forall_app. eauto.
Qed.

Lemma foldMi_Forall {S A} (f : Z -> S -> A -> result S) (P : A -> Prop) xs s0 s :
  (forall i st x st', f i st x = Ok st' -> P x) -> foldMi f 0 xs s0 = Ok s -> Forall P xs.
Proof.
  intros Hstep. apply (foldMi_ind f (fun pre _ => Forall P pre)); [constructor|].
  intros pre x st st' Hpre Hf. apply Forall_app. eauto.
Qed.

(** A loop that refuses keys it has seen accepts lists of distinct, new keys
    only, and has seen them all at the end. *)
Lemma foldMi_seen {S A K} (f : Z -> S -> A -> result S) (key : A -> K)
    (seen : S -> K -> Prop) xs s0 s :
  (forall i st x st', f i st x = Ok st' ->
     ~ seen st (key x) /\ seen st' (key x) /\ forall k, seen st k -> seen st' k) ->
  foldMi f 0 xs s0 = Ok s ->
  NoDup (map key xs) /\ (forall x, x ∈ xs -> seen s (key x)) /\
  (forall k, seen s0 k -> seen s k /\ k ∉ map key xs).
Proof.
  intros Hstep. apply (foldMi_ind f (fun pre st => NoDup (map key pre) /\
    (forall x, x ∈ pre -> seen st (key x)) /\
    (forall k, seen s0 k -> seen st k /\ k ∉ map key pre))).
  { split_and!; [constructor|intros x Hx; inversion Hx|].
    intros k Hk. split; [done|]. intros Hin; inversion Hin. }
  intros pre x st st' (Hnd & Hseen & Hold) Hf.
  destruct (Hstep _ _ _ _ Hf) as (Hnew & Hnow & Hmono). rewrite map_app. split_and!.
  - apply NoDup_app. split_and!; [done| |apply NoDup_singleton].
    intros k (y & -> & Hy)%list_elem_of_fmap Hk. simpl in Hk.
    apply list_elem_of_singleton in Hk. apply Hnew. rewrite <- Hk. by apply Hseen.
  - intros y [Hy| ->%list_elem_of_singleton]%elem_of_app; [|done]. by apply Hmono, Hseen.
  - intros k [Hk Hni]%Hold. split; [by apply Hmono|].
    intros [?|E]%elem_of_app; [done|]. simpl in E. apply list_elem_of_singleton in E. congruence.
Qed.

Lemma foldMi_distinct {S A K} (f : Z -> S -> A -> result S) (key : A -> K)
    (seen : S -> K -> Prop) xs s0 s :
  (forall i st x st', f i st x = Ok st' ->
     ~ seen st (key x) /\ seen st' (key x) /\ forall k, seen st k -> seen st' k) ->
  foldMi f 0 xs s0 = Ok s -> NoDup (map key xs).
Proof. intros Hstep Hf. by apply (foldMi_seen f key seen) in Hf as [? _]. Qed.

Lemma foldM_foldMi {S A} (f : S -> A -> result S) i xs s :
  foldM f xs s = foldMi (fun _ => f) i xs s.
Proof.
  revert i s. induction xs as [|x xs IH]; intros i s; simpl; [done|].
  destruct (f s x); [apply IH|done].
Qed.

Lemma foldM_distinct {S A K} (f : S -> A -> result S) (key : A -> K)
    (seen : S -> K -> Prop) xs s0 s :
  (forall st x st', f st x = Ok st' ->
     ~ seen st (key x) /\ seen st' (key x) /\ forall k, seen st k -> seen st' k) ->
  foldM f xs s0 = Ok s -> NoDup (map key xs).
Proof. intros Hstep. rewrite (foldM_foldMi f 0). by apply (foldMi_distinct _ key seen). Qed.

Lemma foldMi_app {St A} (f : Z -> St -> A -> result St) i xs ys s :
  foldMi f i (xs ++ ys) s = let? s' := foldMi f i xs s in foldMi f (i + Z.of_nat (length xs))%Z ys s'.
Proof.
  revert i s; induction xs as [|x xs IH]; intros i s; simpl; [f_equal; lia|].
  destruct (f i s x); [|done]. rewrite IH.
  by replace (i + 1 + Z.of_nat (length xs))%Z with (i + Z.of_nat (S (length xs)))%Z by lia.
Qed.

(** Every iteration of a loop that ended well ended well. *)
Lemma foldMi_lookup {S A} (f : Z -> S -> A -> result S) i xs s s' k x :
  foldMi f i xs s = Ok s' -> xs !! k = Some x ->
  exists s1 s2, f (i + Z.of_nat k)%Z s1 x = Ok s2.
Proof.
  revert i s k. induction xs as [|y xs IH]; intros i s k Hf Hk; [done|].
  cbn [foldMi] in Hf. apply bind_ok in Hf as (s1 & Hy & Hf). destruct k as [|k].
  - injection Hk as ->. exists s, s1. by rewrite Z.add_0_r.
  - destruct (IH _ _ _ Hf Hk) as (s2 & s3 & Hx). exists s2, s3.
    by replace (i + Z.of_nat (Datatypes.S k))%Z with (i + 1 + Z.of_nat k)%Z by lia.
Qed.

Lemma foldMi_ext {St A} (f g : Z -> St -> A -> result St) i xs s :
  (forall j st x, f j st x = g j st x) -> foldMi f i xs s = foldMi g i xs s.
Proof.
  intros Hfg. revert i s. induction xs as [|x xs IH]; intros i s; simpl; [done|].
  rewrite Hfg. destruct (g i s x); [apply IH|done].
Qed.

(** A checking loop with an index: the verdict is elementwise when the check
    itself does not depend on the index. *)
Lemma foldMi_check {A} (f : Z -> unit -> A -> result unit) (P : A -> Prop) i xs :
  (forall j x, f j tt x = Ok tt <-> P x) ->
  foldMi f i xs tt = Ok tt <-> Forall P xs.
Proof.
  intros Hf. revert i; induction xs as [|x xs IH]; intros i; simpl; [by split|].
  rewrite Forall_cons, <- (Hf i x), <- (IH (i + 1)%Z).
  destruct (f i tt x) as [[]|]; split; [done|by intros [_ ?]|done|by intros [[=] _]].
Qed.

Lemma forM_ok {A} (f : A -> result unit) xs :
  forM f xs = Ok tt <-> Forall (fun x => f x = Ok tt) xs.
Proof.
  induction xs as [|x xs IH]; simpl; [by split|].
  rewrite Forall_cons, <- IH. destruct (f x) as [[]|]; split; [done|by intros [_ ?]|done|by intros [[=] _]].
Qed.

(** The order in which a map is visited does not change the verdict. *)
Lemma forM_perm {A} (f : A -> result unit) xs ys :
  xs ≡ₚ ys -> forM f xs = Ok tt <-> forM f ys = Ok tt.
Proof. intros Hp. rewrite !forM_ok. by rewrite Hp. Qed.

Lemma forM_map_order `{MapOrder} {A} (f : A -> result unit) xs :
  forM f (map_order xs) = Ok tt <-> Forall (fun x => f x = Ok tt) xs.
Proof. rewrite <- forM_ok. apply forM_perm, map_order_perm. Qed.

Lemma result_unit_ok (r : result unit) : is_ok r = true <-> r = Ok tt.
Proof. destruct r as [[]|]; simpl; split; congruence. Qed.

(** ** Lemmas on machine integers and lengths *)

Lemma u64_small z : (0 <= z < 2 ^ 64)%Z -> u64 z = z.
Proof. apply Z.mod_small. Qed.

Lemma u64_range z : (0 <= u64 z < 2 ^ 64)%Z.
Proof. apply Z.mod_pos_bound. lia. Qed.

Lemma u64_add a b : u64 (u64 a + u64 b) = u64 (a + b).
Proof. unfold u64. by rewrite <- Zplus_mod. Qed.

Lemma u64_add_l a b : u64 (u64 a + b) = u64 (a + b).
Proof. unfold u64. by rewrite Zplus_mod_idemp_l. Qed.

Lemma i64_small z : (- 2 ^ 63 <= z < 2 ^ 63)%Z -> i64 z = z.
Proof. intros. unfold i64. rewrite Z.mod_small; lia. Qed.

Lemma llen_nonneg {A} (l : list A) : (0 <= llen l)%Z.
Proof. unfold llen. lia. Qed.

Lemma llen_app {A} (l k : list A) : llen (l ++ k) = (llen l + llen k)%Z.
Proof. unfold llen. rewrite length_app. lia. Qed.

Lemma llen_cons {A} (x : A) l : llen (x :: l) = (1 + llen l)%Z.
Proof. unfold llen. simpl. lia. Qed.

Lemma llen_zero {A} (l : list A) : llen l = 0%Z <-> l = [].
Proof. unfold llen. destruct l; simpl; split; intros; try done; lia. Qed.

Create HintDb go.
Create Rewrite HintDb go.
#[export] Hint Rewrite @llen_app @llen_cons : go.
#[export] Hint Resolve llen_nonneg u64_range : go.

(** A decidable fact about the first [k] numbers, by evaluation. *)
Lemma N_below (p : N -> bool) (k : nat) n :
  forallb (fun i => p (N.of_nat i)) (seq 0 k) = true -> (n < N.of_nat k)%N -> p n = true.
Proof.
  rewrite forallb_forall. intros H Hn. rewrite <- (N2Nat.id n). apply H, in_seq. lia.
Qed.
