(* ===== verification/GoText.v ===== *)
(** * Go strings, byte slices and their codecs

    The functions of Go's [strings], [encoding/hex], [strconv] and [math/big]
    packages that the modelled code calls, on Stdlib strings (a Go string is a
    sequence of bytes) and on lists of bytes (a Go [[]byte]).  [ToLower] is the
    ASCII mapping: every caller in the modelled code either rejects bytes
    outside ASCII afterwards (hexadecimal digests and addresses) or only
    compares its result with another lowered ASCII constant. *)
From Stdlib Require Import ZArith Lia Ascii String.
From Stdlib Require Strings.Byte.
From stdpp Require Import base list gmap strings option pretty.
From S2P Require Import Prelude.

Local Open Scope Z_scope.

Abbreviation byte := Byte.byte.
Abbreviation bytes := (list Byte.byte).

#[export] Instance byte_eq_dec : EqDecision byte := Byte.byte_eq_dec.

(** ** Characters *)

Definition code (c : ascii) : Z := Z.of_N (N_of_ascii c).

Definition between (lo hi : Z) (c : ascii) : bool := (lo <=? code c) && (code c <=? hi).

Definition is_lower (c : ascii) : bool := between 97 122 c.
Definition is_upper (c : ascii) : bool := between 65 90 c.
Definition is_digit (c : ascii) : bool := between 48 57 c.
Definition is_char (x : ascii) (c : ascii) : bool := code c =? code x.

Definition str1 (c : ascii) : string := String c "".

(** [for _, c := range []byte(value) { if !p(c) { return false } }] *)
Fixpoint all_chars (p : ascii -> bool) (s : string) : bool :=
  match s with
  | EmptyString => true
  | String c s' => p c && all_chars p s'
  end.

Fixpoint some_char (p : ascii -> bool) (s : string) : bool :=
  match s with
  | EmptyString => false
  | String c s' => p c || some_char p s'
  end.

Fixpoint map_chars (f : ascii -> ascii) (s : string) : string :=
  match s with
  | EmptyString => EmptyString
  | String c s' => String (f c) (map_chars f s')
  end.

Definition lower_char (c : ascii) : ascii :=
  if is_upper c then ascii_of_N (N_of_ascii c + 32) else c.

(** [strings.ToLower] *)
Definition ToLower (s : string) : string := map_chars lower_char s.

(** [strings.EqualFold] on ASCII *)
Definition EqualFold (a b : string) : bool := bool_decide (ToLower a = ToLower b).

(** ** Prefixes, suffixes, searching *)

Fixpoint cut_prefix (p s : string) : option string :=
  match p, s with
  | EmptyString, _ => Some s
  | String a p', String b s' => if decide (a = b) then cut_prefix p' s' else None
  | _, _ => None
  end.

(** [strings.HasPrefix], [strings.TrimPrefix] *)
Definition HasPrefix (s p : string) : bool :=
  match cut_prefix p s with Some _ => true | None => false end.
Definition TrimPrefix (s p : string) : string :=
  match cut_prefix p s with Some r => r | None => s end.

Definition cut_suffix (p s : string) : option string :=
  String.rev <$> cut_prefix (String.rev p) (String.rev s).

(** [strings.HasSuffix], [strings.TrimSuffix] *)
Definition HasSuffix (s p : string) : bool :=
  match cut_suffix p s with Some _ => true | None => false end.
Definition TrimSuffix (s p : string) : string :=
  match cut_suffix p s with Some r => r | None => s end.

(** [strings.Contains] *)
Fixpoint Contains (s sub : string) : bool :=
  HasPrefix s sub ||
  match s with
  | EmptyString => false
  | String _ s' => Contains s' sub
  end.

(** [strings.Repeat] of one character *)
Fixpoint repeat_char (c : ascii) (n : nat) : string :=
  match n with O => "" | S n' => String c (repeat_char c n') end.

(** [strings.ReplaceAll(s, old, new)] for single characters *)
Definition replace_char (old new : ascii) (s : string) : string :=
  map_chars (fun c => if decide (c = old) then new else c) s.

(** ** White space *)

(** The Unicode white space runes, by the length of their UTF-8 encoding. *)
Definition space1 (c : ascii) : bool := between 9 13 c || (code c =? 32).
Definition space2 (a b : ascii) : bool :=
  (code a =? 0xC2) && ((code b =? 0x85) || (code b =? 0xA0)).
Definition space3 (a b c : ascii) : bool :=
  ((code a =? 0xE1) && (code b =? 0x9A) && (code c =? 0x80)) ||
  ((code a =? 0xE2) && (code b =? 0x80) &&
     (between 0x80 0x8A c || (code c =? 0xA8) || (code c =? 0xA9) || (code c =? 0xAF))) ||
  ((code a =? 0xE2) && (code b =? 0x81) && (code c =? 0x9F)) ||
  ((code a =? 0xE3) && (code b =? 0x80) && (code c =? 0x80)).

Section Trim.
Context (sp1 : ascii -> bool) (sp2 : ascii -> ascii -> bool)
        (sp3 : ascii -> ascii -> ascii -> bool).

Fixpoint trim_head (l : list ascii) : list ascii :=
  match l with
  | a :: l1 =>
      if sp1 a then trim_head l1
      else match l1 with
           | b :: l2 =>
               if sp2 a b then trim_head l2
               else match l2 with
                    | c :: l3 => if sp3 a b c then trim_head l3 else l
                    | [] => l
                    end
           | [] => l
           end
  | [] => []
  end.
End Trim.

Definition trim_left : list ascii -> list ascii := trim_head space1 space2 space3.
Definition trim_right (l : list ascii) : list ascii :=
  reverse (trim_head space1 (fun b a => space2 a b) (fun c b a => space3 a b c) (reverse l)).

(** [strings.TrimSpace] *)
Definition TrimSpace (s : string) : string :=
  string_of_list_ascii (trim_right (trim_left (list_ascii_of_string s))).

(** [strings.Fields]: [cur] is the field being read, reversed. *)
Definition flush_field (cur : list ascii) : list string :=
  match cur with [] => [] | _ => [string_of_list_ascii (reverse cur)] end.

Fixpoint fields_go (cur : list ascii) (l : list ascii) : list string :=
  match l with
  | [] => flush_field cur
  | a :: l1 =>
      if space1 a then flush_field cur ++ fields_go [] l1
      else match l1 with
           | b :: l2 =>
               if space2 a b then flush_field cur ++ fields_go [] l2
               else match l2 with
                    | c :: l3 =>
                        if space3 a b c then flush_field cur ++ fields_go [] l3
                        else fields_go (a :: cur) l1
                    | [] => fields_go (a :: cur) l1
                    end
           | [] => fields_go (a :: cur) l1
           end
  end.
Definition Fields (s : string) : list string := fields_go [] (list_ascii_of_string s).

(** ** Splitting *)

(** [strings.Split] at a one-character separator. *)
Fixpoint Split (s : string) (sep : ascii) : list string :=
  match s with
  | EmptyString => [""%string]
  | String c s' =>
      if decide (c = sep) then ""%string :: Split s' sep
      else match Split s' sep with
           | hd :: tl => String c hd :: tl
           | [] => [String c ""]
           end
  end.

(** [strings.Cut] at a one-character separator: before, after, found. *)
Fixpoint Cut (s : string) (sep : ascii) : string * string * bool :=
  match s with
  | EmptyString => ("", "", false)%string
  | String c s' =>
      if decide (c = sep) then (""%string, s', true)
      else let '(before, after, found) := Cut s' sep in (String c before, after, found)
  end.

Fixpoint trim_char_left (c : ascii) (s : string) : string :=
  match s with
  | String a s' => if decide (a = c) then trim_char_left c s' else s
  | EmptyString => EmptyString
  end.
Definition trim_char_right (c : ascii) (s : string) : string :=
  String.rev (trim_char_left c (String.rev s)).
(** [strings.Trim] and [strings.TrimRight] with a one-character cutset. *)
Definition Trim (s : string) (c : ascii) : string := trim_char_right c (trim_char_left c s).
Definition TrimRight (s : string) (c : ascii) : string := trim_char_right c s.

(** ** Hexadecimal *)

Definition hex_digit (n : N) : ascii :=
  if (n <? 10)%N then ascii_of_N (48 + n) else ascii_of_N (87 + n).

Definition hex_value (c : ascii) : option N :=
  if is_digit c then Some (N_of_ascii c - 48)%N
  else if between 97 102 c then Some (N_of_ascii c - 87)%N
  else if between 65 70 c then Some (N_of_ascii c - 55)%N
  else None.

(** [hex.EncodeToString] *)
Fixpoint hex_encode (b : bytes) : string :=
  match b with
  | [] => ""
  | x :: b' =>
      let n := Byte.to_N x in
      String (hex_digit (n / 16)) (String (hex_digit (n mod 16)) (hex_encode b'))
  end.

(** [hex.DecodeString] *)
Fixpoint hex_decode (s : string) : option bytes :=
  match s with
  | EmptyString => Some []
  | String a (String b s') =>
      match hex_value a, hex_value b, hex_decode s' with
      | Some h, Some l, Some r =>
          match Byte.of_N (16 * h + l) with Some x => Some (x :: r) | None => None end
      | _, _, _ => None
      end
  | String _ EmptyString => None
  end.

(** [url.QueryEscape] *)
Definition upper_hex (n : N) : ascii :=
  if (n <? 10)%N then ascii_of_N (48 + n) else ascii_of_N (55 + n).

Definition unreserved (c : ascii) : bool :=
  is_lower c || is_upper c || is_digit c || is_char "-" c || is_char "_" c ||
  is_char "." c || is_char "~" c.

Fixpoint QueryEscape (s : string) : string :=
  match s with
  | EmptyString => ""
  | String c s' =>
      if unreserved c then String c (QueryEscape s')
      else if is_char " " c then String "+" (QueryEscape s')
      else String "%" (String (upper_hex (N_of_ascii c / 16))
             (String (upper_hex (N_of_ascii c mod 16)) (QueryEscape s')))
  end.

(** [url.PathEscape] *)
Definition path_char (c : ascii) : bool :=
  unreserved c || is_char "$" c || is_char "&" c || is_char "+" c || is_char ":" c ||
  is_char "=" c || is_char "@" c.

Fixpoint PathEscape (s : string) : string :=
  match s with
  | EmptyString => ""
  | String c s' =>
      if path_char c then String c (PathEscape s')
      else String "%" (String (upper_hex (N_of_ascii c / 16))
             (String (upper_hex (N_of_ascii c mod 16)) (PathEscape s')))
  end.

(** [strings.Join] *)
Fixpoint Join (parts : list string) (sep : string) : string :=
  match parts with
  | [] => ""
  | [p] => p
  | p :: ps => p +:+ sep +:+ Join ps sep
  end.

(** ** Decimal numbers *)

(** [strconv.FormatUint(n, 10)] *)
Definition FormatUint (n : Z) : string := pretty (Z.to_N n).

Fixpoint digits_value (acc : Z) (s : string) : option Z :=
  match s with
  | EmptyString => Some acc
  | String c s' => if is_digit c then digits_value (10 * acc + (code c - 48)) s' else None
  end.

Definition decimal_digits (s : string) : option Z :=
  match s with EmptyString => None | _ => digits_value 0 s end.

(** [new(big.Int).SetString(s, 10)] *)
Definition big_SetString (s : string) : option Z :=
  match s with
  | String c s' =>
      if decide (c = "-"%char) then Z.opp <$> decimal_digits s'
      else if decide (c = "+"%char) then decimal_digits s'
      else decimal_digits s
  | EmptyString => None
  end.

(** [strconv.FormatInt(z, 10)] *)
Definition FormatInt (z : Z) : string :=
  if z <? 0 then String "-" (FormatUint (- z)) else FormatUint z.

(** [strconv.ParseInt(s, 10, 64)], [None] for its error. *)
Definition ParseInt (s : string) : option Z :=
  match big_SetString s with
  | Some z => if (- 2 ^ 63 <=? z) && (z <? 2 ^ 63) then Some z else None
  | None => None
  end.

(** [strconv.ParseUint(s, 10, 64)]: no sign. *)
Definition ParseUint (s : string) : option Z :=
  match decimal_digits s with
  | Some z => if z <? 2 ^ 64 then Some z else None
  | None => None
  end.

(** ** Error texts *)

Definition garg_text (a : garg) : string :=
  match a with GStr t => t | GInt z => FormatInt z end.

(** [fmt.Sprintf] with the verbs [%s], [%d] and [%v] for the arguments in turn
    and [%w] for the wrapped error. *)
Fixpoint sprintf (cause : string) (format : string) (args : list string) : string :=
  match format with
  | EmptyString => ""
  | String c f =>
      if is_char "%" c then
        match f with
        | String v f' =>
            if is_char "w" v then cause +:+ sprintf cause f' args
            else match args with
                 | a :: args' => a +:+ sprintf cause f' args'
                 | [] => sprintf cause f' []
                 end
        | EmptyString => str1 c
        end
      else String c (sprintf cause f args)
  end.

(** [err.Error()] *)
Fixpoint Error (e : goerror) : string :=
  match e with
  | Errorf format args => sprintf "" format (map garg_text args)
  | Wrapf format args cause => sprintf (Error cause) format (map garg_text args)
  | Typed _ e => Error e
  | Joined _ first second => Error first +:+ ": " +:+ Error second
  end.

(** [errors.As(err, &target)] for a pointer type: the fields of the first error
    of that type in the chain. *)
Definition error_args (e : goerror) : list garg :=
  match e with Errorf _ args | Wrapf _ args _ => args | _ => [] end.
Fixpoint errors_As (type : string) (e : goerror) : option (list garg) :=
  match e with
  | Errorf _ _ => None
  | Wrapf _ _ cause => errors_As type cause
  | Typed t e => if decide (t = type) then Some (error_args e) else errors_As type e
  | Joined t first second =>
      if decide (t = type) then Some []
      else match errors_As type first with
           | Some args => Some args
           | None => errors_As type second
           end
  end.

(** [BitLen] of a [big.Int] *)
Definition bit_len (z : Z) : Z := if z =? 0 then 0 else Z.log2 (Z.abs z) + 1.

(** ** Bytes *)

Definition string_bytes (s : string) : bytes := list_byte_of_string s.
Definition bytes_string (b : bytes) : string := string_of_list_byte b.

(** [binary.BigEndian.Uint32] and friends: the unsigned value of big-endian bytes. *)
Definition be_value (b : bytes) : Z :=
  fold_left (fun acc x => 256 * acc + Z.of_N (Byte.to_N x)) b 0.

Definition byte_of_Z (z : Z) : byte :=
  match Byte.of_N (Z.to_N (z mod 256)) with Some b => b | None => Byte.x00 end.

(** The [n] low bytes of [z], most significant first. *)
Fixpoint be_bytes (n : nat) (z : Z) : bytes :=
  match n with
  | O => []
  | S n' => be_bytes n' (z / 256) ++ [byte_of_Z z]
  end.

Definition zero_bytes (n : nat) : bytes := repeat Byte.x00 n.

(** ** Lemmas: lengths and case *)

Lemma str_nil_app r : ("" +:+ r = r)%string.
Proof. done. Qed.
Lemma str_cons_app a p r : (String a p +:+ r = String a (p +:+ r))%string.
Proof. done. Qed.
Ltac str_simpl := repeat progress (simpl; rewrite ?str_nil_app, ?str_cons_app in * ).
#[export] Hint Rewrite str_nil_app str_cons_app : go.

Lemma str_app_assoc (a b c : string) : ((a +:+ b) +:+ c = a +:+ (b +:+ c))%string.
Proof. induction a as [|x a IH]; [done|]. by rewrite !str_cons_app, IH. Qed.

Lemma str_app_nil (a : string) : (a +:+ "" = a)%string.
Proof. induction a as [|x a IH]; [done|]. by rewrite str_cons_app, IH. Qed.

Lemma length_app_string (a b : string) :
  String.length (a +:+ b) = (String.length a + String.length b)%nat.
Proof. induction a as [|c a IH]; str_simpl; [done|by rewrite IH]. Qed.

Lemma slen_app (a b : string) : slen (a +:+ b) = slen a + slen b.
Proof. unfold slen. rewrite length_app_string. lia. Qed.

Lemma slen_nonneg s : 0 <= slen s.
Proof. unfold slen. lia. Qed.

Lemma slen_zero s : slen s = 0 <-> s = ""%string.
Proof. unfold slen. destruct s; simpl; split; intros; (done || lia). Qed.

Lemma ascii_cases (P : ascii -> Prop) :
  (forall b0 b1 b2 b3 b4 b5 b6 b7, P (Ascii b0 b1 b2 b3 b4 b5 b6 b7)) ->
  forall c, P c.
Proof. intros H []; apply H. Qed.

(** Checking a decidable fact on every character by evaluation. *)
Ltac all_ascii :=
  intros c; pattern c; apply ascii_cases;
  repeat (let b := fresh "b" in intros b; destruct b); vm_compute; try done.

Lemma lower_char_idem : forall c, lower_char (lower_char c) = lower_char c.
Proof. all_ascii. Qed.

Lemma lower_char_noop : forall c, is_upper c = false -> lower_char c = c.
Proof. intros c H. unfold lower_char. by rewrite H. Qed.

Lemma ToLower_app a b : ToLower (a +:+ b) = (ToLower a +:+ ToLower b)%string.
Proof. unfold ToLower. induction a as [|c a IH]; str_simpl; [done|by rewrite IH]. Qed.

Lemma ToLower_idem s : ToLower (ToLower s) = ToLower s.
Proof.
  induction s as [|c s IH]; [done|]. cbn. rewrite lower_char_idem. f_equal. exact IH.
Qed.

Lemma slen_ToLower s : slen (ToLower s) = slen s.
Proof.
  unfold slen. f_equal. induction s as [|c s IH]; [done|]. cbn. f_equal. exact IH.
Qed.

Lemma ToLower_noop s : all_chars (fun c => negb (is_upper c)) s = true -> ToLower s = s.
Proof.
  induction s as [|c s IH]; cbn; [done|]. intros [Hc Hs]%andb_true_iff.
  apply negb_true_iff in Hc. rewrite lower_char_noop by done. f_equal. by apply IH.
Qed.

Lemma all_chars_impl (p q : ascii -> bool) s :
  (forall c, p c = true -> q c = true) -> all_chars p s = true -> all_chars q s = true.
Proof.
  intros Hpq. induction s as [|c s IH]; simpl; [done|].
  intros [? ?]%andb_true_iff. apply andb_true_iff. auto.
Qed.

Lemma all_chars_app p a b : all_chars p (a +:+ b) = all_chars p a && all_chars p b.
Proof. induction a as [|c a IH]; str_simpl; [done|by rewrite IH, andb_assoc]. Qed.

Lemma some_char_app p a b : some_char p (a +:+ b) = some_char p a || some_char p b.
Proof. induction a as [|c a IH]; str_simpl; [done|by rewrite IH, orb_assoc]. Qed.

(** ** Lemmas: prefixes *)

Lemma is_char_spec x c : is_char x c = true <-> c = x.
Proof.
  unfold is_char, code. rewrite Z.eqb_eq. split; [|by intros ->].
  intros E%N2Z.inj. apply (f_equal ascii_of_N) in E. by rewrite !ascii_N_embedding in E.
Qed.

Lemma is_char_false x c : is_char x c = false <-> c <> x.
Proof. by rewrite <- not_true_iff_false, is_char_spec. Qed.

Lemma cut_prefix_spec p s r : cut_prefix p s = Some r <-> s = (p +:+ r)%string.
Proof.
  revert s; induction p as [|a p IH]; intros s; str_simpl.
  - split; congruence.
  - destruct s as [|b s]; [done|]. destruct (decide (a = b)) as [->|Hne].
    + rewrite IH. split; [intros ->; done|by intros [= ->]].
    + split; [done|]. intros [= Hb _]. congruence.
Qed.

Lemma HasPrefix_spec s p : HasPrefix s p = true <-> exists r, s = (p +:+ r)%string.
Proof.
  unfold HasPrefix. destruct (cut_prefix p s) as [r|] eqn:E.
  - apply cut_prefix_spec in E. split; eauto.
  - split; [done|]. intros [r Hr]. apply cut_prefix_spec in Hr. congruence.
Qed.

Lemma HasPrefix_app p r : HasPrefix (p +:+ r) p = true.
Proof. apply HasPrefix_spec. by exists r. Qed.

Lemma TrimPrefix_app p r : TrimPrefix (p +:+ r) p = r.
Proof. unfold TrimPrefix. by rewrite (proj2 (cut_prefix_spec p _ r)). Qed.

Lemma rev_app_append s t : String.rev_app s t = (String.rev s +:+ t)%string.
Proof.
  unfold String.rev. revert t. induction s as [|c s IH]; intros t; [done|]. cbn [String.rev_app].
  by rewrite (IH (String c t)), (IH (String c "")), str_app_assoc.
Qed.

Lemma rev_cons c s : String.rev (String c s) = (String.rev s +:+ String c "")%string.
Proof. exact (rev_app_append s (String c "")). Qed.

Lemma rev_append a b : String.rev (a +:+ b) = (String.rev b +:+ String.rev a)%string.
Proof.
  induction a as [|c a IH].
  - by rewrite str_nil_app, str_app_nil.
  - by rewrite str_cons_app, !rev_cons, IH, str_app_assoc.
Qed.

Lemma rev_involutive s : String.rev (String.rev s) = s.
Proof. induction s as [|c s IH]; [done|]. by rewrite rev_cons, rev_append, IH. Qed.

Lemma cut_suffix_spec p s r : cut_suffix p s = Some r <-> s = (r +:+ p)%string.
Proof.
  unfold cut_suffix. rewrite fmap_Some. setoid_rewrite cut_prefix_spec. split.
  - intros (x & Hx & ->). apply (f_equal String.rev) in Hx.
    by rewrite rev_append, !rev_involutive in Hx.
  - intros ->. exists (String.rev r). by rewrite rev_append, rev_involutive.
Qed.

Lemma HasSuffix_spec s p : HasSuffix s p = true <-> exists r, s = (r +:+ p)%string.
Proof.
  unfold HasSuffix. setoid_rewrite <- cut_suffix_spec.
  destruct (cut_suffix p s) as [r|]; split; [by exists r|done|done|by intros [? [=]]].
Qed.

(** ** Lemmas: hexadecimal *)

Lemma hex_digit_value n : (n < 16)%N -> hex_value (hex_digit n) = Some n.
Proof.
  intros Hn. apply (bool_decide_eq_true (hex_value (hex_digit n) = Some n)).
  exact (N_below (fun n => bool_decide (hex_value (hex_digit n) = Some n)) 16 n eq_refl Hn).
Qed.

Lemma hex_value_facts : forall c,
  match hex_value c with
  | Some h => (h <? 16)%N && Ascii.eqb (hex_digit h) (lower_char c) = true
  | None => True
  end.
Proof. all_ascii. Qed.

Lemma hex_value_bound c h : hex_value c = Some h -> (h < 16)%N.
Proof.
  intros E. pose proof (hex_value_facts c) as H. rewrite E in H.
  apply andb_true_iff in H as [?%N.ltb_lt _]. done.
Qed.

Lemma hex_value_digit c h : hex_value c = Some h -> hex_digit h = lower_char c.
Proof.
  intros E. pose proof (hex_value_facts c) as H. rewrite E in H.
  apply andb_true_iff in H as [_ ?%Ascii.eqb_eq]. done.
Qed.

Lemma lower_char_not_upper : forall c, is_upper (lower_char c) = false.
Proof. all_ascii. Qed.

Lemma hex_digit_not_upper n : (n < 16)%N -> is_upper (hex_digit n) = false.
Proof.
  intros Hn. rewrite (hex_value_digit _ _ (hex_digit_value n Hn)).
  apply lower_char_not_upper.
Qed.

Lemma byte_nibbles (x : byte) :
  (Byte.to_N x / 16 < 16)%N /\ (Byte.to_N x mod 16 < 16)%N /\
  Byte.of_N (16 * (Byte.to_N x / 16) + Byte.to_N x mod 16) = Some x.
Proof.
  pose proof (Byte.to_N_bounded x). split_and!.
  - apply N.Div0.div_lt_upper_bound. lia.
  - apply N.mod_lt. lia.
  - rewrite <- N.div_mod' . apply Byte.of_to_N.
Qed.

(** Encoding and decoding hexadecimal digits is a round trip. *)
Lemma hex_decode_encode b : hex_decode (hex_encode b) = Some b.
Proof.
  induction b as [|x b IH]; [done|]. cbn -[N.div N.modulo N.mul].
  destruct (byte_nibbles x) as (H1 & H2 & H3).
  rewrite !hex_digit_value, IH by done. by rewrite H3.
Qed.

#[export] Instance hex_encode_inj : Inj (=) (=) hex_encode.
Proof.
  intros a b H. apply (f_equal hex_decode) in H. rewrite !hex_decode_encode in H.
  congruence.
Qed.

Lemma hex_encode_lower b : ToLower (hex_encode b) = hex_encode b.
Proof.
  apply ToLower_noop. induction b as [|x b IH]; [done|]. cbn -[N.div N.modulo].
  destruct (byte_nibbles x) as (H1 & H2 & _).
  rewrite !hex_digit_not_upper by done. exact IH.
Qed.

Lemma slen_hex_encode b : slen (hex_encode b) = 2 * llen b.
Proof.
  unfold slen, llen. induction b as [|x b IH]; [done|].
  cbn -[N.div N.modulo Z.mul Z.of_nat]. lia.
Qed.

Lemma string_pair_ind (P : string -> Prop) :
  P ""%string -> (forall a, P (String a "")) ->
  (forall a b s, P s -> P (String a (String b s))) -> forall s, P s.
Proof.
  intros H0 H1 H2 s. enough (P s /\ forall a, P (String a s)) as [? _] by done.
  induction s as [|c s [IH1 IH2]]; split; auto.
Qed.

Lemma hex_decode_lower s b : hex_decode s = Some b -> hex_encode b = ToLower s.
Proof.
  revert b. induction s as [|a|a c s IH] using string_pair_ind; intros b H; cbn in H.
  - by injection H as <-.
  - done.
  - destruct (hex_value a) as [h|] eqn:Ea; [|done].
    destruct (hex_value c) as [l|] eqn:Ec; [|done].
    destruct (hex_decode s) as [r|] eqn:Er; [|done].
    destruct (Byte.of_N _) as [x|] eqn:Ex; [|done]. injection H as <-.
    pose proof (hex_value_bound _ _ Ea). pose proof (hex_value_bound _ _ Ec).
    apply Byte.to_of_N_iff in Ex. cbn -[N.div N.modulo N.mul].
    assert (Byte.to_N x / 16 = h)%N as -> by (symmetry; apply (N.div_unique _ 16 _ l); lia).
    assert (Byte.to_N x mod 16 = l)%N as -> by (symmetry; apply (N.mod_unique _ 16 h); lia).
    rewrite (IH r eq_refl). by rewrite (hex_value_digit _ _ Ea), (hex_value_digit _ _ Ec).
Qed.

Lemma slen_hex_decode s b : hex_decode s = Some b -> slen s = 2 * llen b.
Proof.
  intros H%hex_decode_lower. rewrite <- slen_ToLower, <- H. apply slen_hex_encode.
Qed.

(** ** Lemmas: white space *)

(** Printable ASCII other than the space. *)
Definition visible (c : ascii) : bool := between 33 126 c.

Section TrimLemmas.
Context (sp1 : ascii -> bool) (sp2 : ascii -> ascii -> bool)
        (sp3 : ascii -> ascii -> ascii -> bool).
Hypothesis H1 : forall a, sp1 a = true -> visible a = false.
Hypothesis H2 : forall a b, sp2 a b = true -> visible a = false /\ visible b = false.
Hypothesis H3 : forall a b c, sp3 a b c = true ->
  visible a = false /\ visible b = false /\ visible c = false.

Lemma trim_head_visible n l :
  (length l <= n)%nat -> existsb visible l = true ->
  existsb visible (trim_head sp1 sp2 sp3 l) = true.
Proof.
  revert l. induction n as [|n IH]; intros [|a l1] Hn Hv; simpl in Hn; try done; [lia|].
  simpl. destruct (sp1 a) eqn:E1.
  { apply IH; [lia|]. simpl in Hv. by rewrite (H1 _ E1) in Hv. }
  destruct l1 as [|b l2]; [done|]. destruct (sp2 a b) eqn:E2.
  { apply IH; [simpl in Hn; lia|]. simpl in Hv.
    by destruct (H2 _ _ E2) as [Ha Hb]; rewrite Ha, Hb in Hv. }
  destruct l2 as [|c l3]; [done|]. destruct (sp3 a b c) eqn:E3; [|done].
  apply IH; [simpl in Hn; lia|]. simpl in Hv.
  by destruct (H3 _ _ _ E3) as (Ha & Hb & Hc); rewrite Ha, Hb, Hc in Hv.
Qed.

Lemma trim_head_stop a l : visible a = true -> trim_head sp1 sp2 sp3 (a :: l) = a :: l.
Proof.
  intros Hv. simpl. destruct (sp1 a) eqn:E1; [by rewrite (H1 _ E1) in Hv|].
  destruct l as [|b l]; [done|]. destruct (sp2 a b) eqn:E2; [by rewrite (proj1 (H2 _ _ E2)) in Hv|].
  destruct l as [|c l]; [done|]. destruct (sp3 a b c) eqn:E3; [|done].
  by rewrite (proj1 (H3 _ _ _ E3)) in Hv.
Qed.
End TrimLemmas.

Lemma existsb_reverse {A} (p : A -> bool) l : existsb p (reverse l) = existsb p l.
Proof.
  induction l as [|a l IH]; [done|]. rewrite reverse_cons, existsb_app, IH. simpl.
  by rewrite orb_false_r, orb_comm.
Qed.

Lemma some_char_list p s : some_char p s = existsb p (list_ascii_of_string s).
Proof. induction s as [|c s IH]; simpl; [done|by rewrite IH]. Qed.

Ltac space_facts := unfold visible, space1, space2, space3, between in *; intros;
  rewrite ?orb_true_iff, ?andb_true_iff, ?andb_false_iff,
          ?Z.leb_le, ?Z.leb_gt, ?Z.eqb_eq in *; lia.

(** A string with a printable character is not blank. *)
Lemma TrimSpace_visible s : some_char visible s = true -> TrimSpace s <> ""%string.
Proof.
  rewrite some_char_list. intros Hv Hs. unfold TrimSpace in Hs.
  enough (existsb visible (trim_right (trim_left (list_ascii_of_string s))) = true) as He.
  { destruct (trim_right _); [done|discriminate Hs]. }
  unfold trim_right. rewrite existsb_reverse.
  eapply trim_head_visible; [..|reflexivity|]; [space_facts..|].
  rewrite existsb_reverse. eapply trim_head_visible; [..|reflexivity|exact Hv]; space_facts.
Qed.

Lemma all_visible_blank s :
  all_chars visible s = true -> s <> ""%string -> TrimSpace s <> ""%string.
Proof.
  intros Ha Hs. apply TrimSpace_visible. destruct s as [|c s]; [done|]. simpl in *.
  by apply andb_true_iff in Ha as [-> _].
Qed.

Lemma all_chars_list p s : all_chars p s = forallb p (list_ascii_of_string s).
Proof. induction s as [|c s IH]; simpl; [done|by rewrite IH]. Qed.

(** [TrimSpace] leaves a string of printable characters alone. *)
Lemma TrimSpace_all_visible s : all_chars visible s = true -> TrimSpace s = s.
Proof.
  rewrite all_chars_list, forallb_forall. intros Hv. unfold TrimSpace.
  rewrite <- (string_of_list_ascii_of_string s) at 2. f_equal.
  set (l := list_ascii_of_string s) in *.
  assert (trim_left l = l) as ->.
  { destruct l as [|a l']; [done|]. apply trim_head_stop; [space_facts..|]. apply Hv. by left. }
  unfold trim_right. destruct (reverse l) as [|a l'] eqn:E.
  - simpl. rewrite <- (reverse_involutive l), E. done.
  - rewrite trim_head_stop; [|space_facts..|].
    + by rewrite <- E, reverse_involutive.
    + apply Hv. apply list_elem_of_In. rewrite <- elem_of_reverse, E. left.
Qed.

(** ** Lemmas: decimal numbers *)

Lemma FormatUint_inj a b : 0 <= a -> 0 <= b -> FormatUint a = FormatUint b -> a = b.
Proof. unfold FormatUint. intros ?? H%(inj pretty). lia. Qed.

Lemma pretty_N_char_digit n : (n < 10)%N -> is_digit (pretty_N_char n) = true.
Proof.
  exact (N_below (fun n => is_digit (pretty_N_char n)) 10 n eq_refl).
Qed.

Lemma pretty_N_go_digits x acc :
  all_chars is_digit acc = true -> (x <> 0%N \/ acc <> ""%string) ->
  all_chars is_digit (pretty_N_go x acc) = true /\ pretty_N_go x acc <> ""%string.
Proof.
  revert acc. induction (N.lt_wf_0 x) as [x _ IH]. intros acc Hacc Hne.
  destruct (decide (0 < x)%N) as [Hx|Hx].
  - rewrite pretty_N_go_step by done. apply IH; [apply N.div_lt; lia| |by right].
    simpl. rewrite pretty_N_char_digit, Hacc; [done|]. apply N.mod_lt. lia.
  - assert (x = 0%N) as -> by lia. rewrite pretty_N_go_0.
    destruct Hne; [lia|done].
Qed.

Lemma FormatUint_digits n :
  all_chars is_digit (FormatUint n) = true /\ FormatUint n <> ""%string.
Proof.
  unfold FormatUint, pretty, pretty_N. case_decide; [done|].
  apply pretty_N_go_digits; [done|by left].
Qed.

Lemma digits_visible c : is_digit c = true -> visible c = true.
Proof. unfold is_digit, visible, between. rewrite !andb_true_iff, !Z.leb_le. lia. Qed.

Lemma pretty_N_char_code n : (n < 10)%N -> code (pretty_N_char n) = 48 + Z.of_N n.
Proof.
  intros Hn. apply Z.eqb_eq.
  exact (N_below (fun n => code (pretty_N_char n) =? 48 + Z.of_N n) 10 n eq_refl Hn).
Qed.

Lemma digits_value_pretty_go x acc :
  digits_value 0 (pretty_N_go x acc) = digits_value (Z.of_N x) acc.
Proof.
  revert acc. induction (N.lt_wf_0 x) as [x _ IH]. intros acc.
  destruct (decide (0 < x)%N) as [Hx|Hx].
  - rewrite pretty_N_go_step by done. rewrite IH by (apply N.div_lt; lia).
    assert (x mod 10 < 10)%N as Hm by (apply N.mod_lt; lia).
    cbn [digits_value]. rewrite pretty_N_char_digit, pretty_N_char_code by done.
    f_equal. pose proof (N.div_mod' x 10) as Hq.
    apply (f_equal Z.of_N) in Hq. rewrite N2Z.inj_add, N2Z.inj_mul in Hq.
    rewrite Hq. change (Z.of_N 10) with 10. ring.
  - assert (x = 0%N) as -> by lia. by rewrite pretty_N_go_0.
Qed.

Lemma decimal_digits_FormatUint n : 0 <= n -> decimal_digits (FormatUint n) = Some n.
Proof.
  intros Hn. destruct (FormatUint_digits n) as [_ Hne]. unfold decimal_digits.
  transitivity (digits_value 0 (FormatUint n)); [by destruct (FormatUint n)|].
  unfold FormatUint, pretty, pretty_N. case_decide as E; [assert (n = 0) as -> by lia; reflexivity|].
  rewrite digits_value_pretty_go. cbn [digits_value]. f_equal. lia.
Qed.

(** A number is printed without leading zeros. *)
Lemma pretty_N_go_first x acc :
  (0 < x)%N -> exists c s, pretty_N_go x acc = String c s /\ is_digit c = true /\ c <> "0"%char.
Proof.
  revert acc. induction (N.lt_wf_0 x) as [x _ IH]. intros acc Hx.
  rewrite pretty_N_go_step by done. destruct (decide (0 < x / 10)%N) as [Hq|Hq].
  - apply IH; [apply N.div_lt; lia|done].
  - assert (x / 10 = 0)%N as Hz by (apply N.le_0_r, N.nlt_ge, Hq). rewrite Hz, pretty_N_go_0.
    assert (x mod 10 < 10)%N as Hm by (apply N.mod_lt; lia).
    exists (pretty_N_char (x mod 10)), acc. split_and!; [done|by apply pretty_N_char_digit|].
    intros E. apply (f_equal code) in E. rewrite pretty_N_char_code in E by done.
    change (code "0") with 48 in E. pose proof (N.div_mod' x 10) as Hx'. rewrite Hz in Hx'. lia.
Qed.

Lemma FormatUint_first n :
  FormatUint n = "0"%string \/
  exists c s, FormatUint n = String c s /\ is_digit c = true /\ c <> "0"%char.
Proof.
  unfold FormatUint, pretty, pretty_N. case_decide as E; [by left|right].
  apply pretty_N_go_first. lia.
Qed.

Lemma ParseInt_FormatInt z : - 2 ^ 63 <= z < 2 ^ 63 -> ParseInt (FormatInt z) = Some z.
Proof.
  intros Hz. assert (big_SetString (FormatInt z) = Some z) as H.
  { unfold FormatInt. destruct (z <? 0) eqn:E.
    - apply Z.ltb_lt in E. cbn [big_SetString]. rewrite decide_True by done.
      rewrite decimal_digits_FormatUint by lia. simpl. f_equal. lia.
    - apply Z.ltb_ge in E. destruct (FormatUint_first z) as [H0|(c & s & Hs & Hd & _)].
      + rewrite H0. unfold FormatUint in H0. change "0"%string with (pretty 0%N) in H0.
        apply (inj pretty) in H0. assert (z = 0) as -> by lia. reflexivity.
      + pose proof (decimal_digits_FormatUint z E) as H. rewrite Hs in *. cbn [big_SetString].
        rewrite !decide_False; [done|intros ->; done..]. }
  unfold ParseInt. rewrite H. assert ((- 2 ^ 63 <=? z) && (z <? 2 ^ 63) = true) as ->; [|done].
  apply andb_true_iff. rewrite Z.leb_le, Z.ltb_lt. lia.
Qed.

Lemma ParseUint_FormatUint z : 0 <= z < 2 ^ 64 -> ParseUint (FormatUint z) = Some z.
Proof.
  intros Hz. unfold ParseUint. rewrite decimal_digits_FormatUint by lia.
  by rewrite (proj2 (Z.ltb_lt z (2 ^ 64))) by lia.
Qed.

Lemma digits_value_nonneg s acc z : digits_value acc s = Some z -> 0 <= acc -> 0 <= z.
Proof.
  revert acc. induction s as [|c s IH]; intros acc H Ha; [by injection H as <-|]. cbn [digits_value] in H.
  destruct (is_digit c) eqn:E; [|done]. apply IH in H; [done|].
  unfold is_digit, between in E. bool_prop. lia.
Qed.

Lemma ParseUint_range s z : ParseUint s = Some z -> 0 <= z < 2 ^ 64.
Proof.
  unfold ParseUint. destruct (decimal_digits s) as [n|] eqn:E; [|done].
  destruct (Z.ltb_spec n (2 ^ 64)); intros [= <-]. split; [|done].
  unfold decimal_digits in E. destruct s; [done|]. by eapply digits_value_nonneg.
Qed.

Lemma slen_prefix n s :
  0 <= n <= slen s -> slen (String.substring 0 (Z.to_nat n) s) = n.
Proof.
  unfold slen. intros Hn. rewrite <- (Z2Nat.id n) at 2 by lia. f_equal.
  assert (Z.to_nat n <= String.length s)%nat as Hle by lia. revert Hle. generalize (Z.to_nat n).
  clear. induction s as [|c s IH]; intros [|m] Hm; simpl in *; try done; [lia|].
  f_equal. apply IH. lia.
Qed.

(** ** Strings without a separator *)

Definition without (sep : ascii) (s : string) : bool := all_chars (fun c => negb (is_char sep c)) s.

Lemma Split_without a sep : without sep a = true -> Split a sep = [a].
Proof.
  unfold without. induction a as [|c a IH]; [done|]. cbn [all_chars Split].
  intros [Hc Ha]%andb_true_iff. rewrite IH by done. rewrite decide_False; [done|].
  intros ->. unfold is_char in Hc. by rewrite Z.eqb_refl in Hc.
Qed.

Lemma Split_app a b sep :
  without sep a = true -> Split (a +:+ String sep b) sep = a :: Split b sep.
Proof.
  unfold without. induction a as [|c a IH]; str_simpl.
  - intros _. by rewrite decide_True.
  - intros [Hc Ha]%andb_true_iff. rewrite IH by done. rewrite decide_False; [done|].
    intros ->. unfold is_char in Hc. by rewrite Z.eqb_refl in Hc.
Qed.

Lemma without_app sep a b : without sep (a +:+ b) = without sep a && without sep b.
Proof. apply all_chars_app. Qed.

Lemma without_cons sep c a : without sep (String c a) = negb (is_char sep c) && without sep a.
Proof. done. Qed.

Lemma without_rev sep a : without sep (String.rev a) = without sep a.
Proof.
  induction a as [|c a IH]; [done|]. rewrite rev_cons, without_app, without_cons, IH.
  unfold without at 2. cbn [all_chars]. by rewrite andb_true_r, andb_comm.
Qed.

Lemma Split_parts_without s sep : Forall (fun p => without sep p = true) (Split s sep).
Proof.
  induction s as [|c s IH]; cbn [Split]; [by repeat constructor|]. case_decide as Hc.
  - by constructor.
  - destruct (Split s sep) as [|p ps]; [repeat constructor|].
    + rewrite without_cons. by rewrite (proj2 (is_char_false sep c)).
    + inversion IH; subst. constructor; [|done]. rewrite without_cons.
      by rewrite (proj2 (is_char_false sep c)).
Qed.

Lemma hex_encode_visible b : all_chars visible (hex_encode b) = true.
Proof.
  induction b as [|x b IH]; [done|]. cbn -[N.div N.modulo].
  destruct (byte_nibbles x) as (H1 & H2 & _). rewrite IH.
  assert (forall n, (n < 16)%N -> visible (hex_digit n) = true) as Hd
    by (intros n; exact (N_below (fun n => visible (hex_digit n)) 16 n eq_refl)).
  by rewrite !Hd.
Qed.

Lemma string_bytes_inj s t : string_bytes s = string_bytes t -> s = t.
Proof.
  unfold string_bytes. intros E. rewrite <- (string_of_list_byte_of_string s), E.
  apply string_of_list_byte_of_string.
Qed.
