(* ===== verification/Prog.v ===== *)
(** * Programs: state and errors

    A method that changes a state [S] and may fail.  An error keeps the state
    reached so far, as in Go.  [keeps P c] says that [c] preserves [P] whether
    or not it fails; the hint database [keeps] composes such facts. *)
From Stdlib Require Import ZArith Lia.
From stdpp Require Import base list strings option.
From S2P Require Import Prelude.

Definition prog (S A : Type) : Type := S -> S * result A.

#[export] Instance prog_ret {S} : MRet (prog S) := fun A a s => (s, Ok a).
#[export] Instance prog_bind {S} : MBind (prog S) := fun A B f c s =>
  match c s with
  | (s', Ok a) => f a s'
  | (s', Err e) => (s', Err e)
  end.

Section Combinators.
Context {S : Type}.

Definition fail {A} (e : goerror) : prog S A := fun s => (s, Err e).
Definition gets {A} (f : S -> A) : prog S A := fun s => (s, Ok (f s)).
Definition modify (f : S -> S) : prog S unit := fun s => (f s, Ok tt).
(** [v, err := c()] with the error looked at. *)
Definition attempt {A} (c : prog S A) : prog S (result A) :=
  fun s => let '(s', r) := c s in (s', Ok r).
(** [return v, err] *)
Definition of_result {A} (r : result A) : prog S A := fun s => (s, r).
(** [if err != nil { return fmt.Errorf(format, args..., err) }] *)
Definition wrap_error {A} (format : string) (args : list garg) (c : prog S A) : prog S A :=
  fun s => let '(s', r) := c s in (s', wrapf format args r).

(** [for _, x := range xs { if err := f(x); err != nil { return err } }] *)
Fixpoint for_each {A} (f : A -> prog S unit) (xs : list A) : prog S unit :=
  match xs with
  | [] => mret tt
  | x :: xs' => f x ;; for_each f xs'
  end.

(** The same with the index of the element. *)
Fixpoint for_each_i {A} (f : Z -> A -> prog S unit) (i : Z) (xs : list A) : prog S unit :=
  match xs with
  | [] => mret tt
  | x :: xs' => f i x ;; for_each_i f (i + 1)%Z xs'
  end.

(** A loop that threads a value of its own. *)
Fixpoint foldP {A T} (f : A -> T -> prog S A) (xs : list T) (acc : A) : prog S A :=
  match xs with
  | [] => mret acc
  | x :: xs' => acc ← f acc x; foldP f xs' acc
  end.

End Combinators.

(** ** Running *)

Section Laws.
Context {S : Type}.

Lemma bind_run {A B} (c : prog S A) (f : A -> prog S B) s :
  (c ≫= f) s = match c s with (s', Ok a) => f a s' | (s', Err e) => (s', Err e) end.
Proof. done. Qed.

Lemma bind_run_ok {A B} (c : prog S A) (f : A -> prog S B) s s' b :
  (c ≫= f) s = (s', Ok b) <-> exists s1 a, c s = (s1, Ok a) /\ f a s1 = (s', Ok b).
Proof.
  rewrite bind_run. destruct (c s) as [s1 [a|e]]; split; intros H; [by eauto| |done|].
  - by destruct H as (? & ? & [= -> ->] & ?).
  - by destruct H as (? & ? & [=] & ?).
Qed.

Lemma wrap_error_run {A} f args (c : prog S A) s :
  wrap_error f args c s = ((c s).1, wrapf f args (c s).2).
Proof. unfold wrap_error. by destruct (c s). Qed.

Lemma wrap_error_ok {A} f args (c : prog S A) s s' a :
  wrap_error f args c s = (s', Ok a) -> c s = (s', Ok a).
Proof. rewrite wrap_error_run. destruct (c s) as [s1 [|]]; by intros [= <- <-]. Qed.

Lemma bind_assoc {A B C} (c : prog S A) (f : A -> prog S B) (g : B -> prog S C) s :
  ((c ≫= f) ≫= g) s = (c ≫= fun a => f a ≫= g) s.
Proof. rewrite !bind_run. by destruct (c s) as [? []]. Qed.

(** ** Invariants *)

Definition keeps (P : S -> Prop) {A} (c : prog S A) : Prop := forall s, P s -> P (c s).1.

Variable P : S -> Prop.

Lemma keeps_ret {A} (a : A) : keeps P (mret a).
Proof. by intros s. Qed.
Lemma keeps_fail {A} e : keeps P (fail (A:=A) e).
Proof. by intros s. Qed.
Lemma keeps_gets {A} (f : S -> A) : keeps P (gets f).
Proof. by intros s. Qed.
Lemma keeps_of_result {A} (r : result A) : keeps P (of_result r).
Proof. by intros s. Qed.

Lemma keeps_bind {A B} (c : prog S A) (f : A -> prog S B) :
  keeps P c -> (forall a, keeps P (f a)) -> keeps P (c ≫= f).
Proof.
  intros Hc Hf s Hs. rewrite bind_run. specialize (Hc s Hs).
  destruct (c s) as [s' [a|e]]; [by apply Hf|done].
Qed.

Lemma keeps_attempt {A} (c : prog S A) : keeps P c -> keeps P (attempt c).
Proof. intros Hc s Hs. unfold attempt. specialize (Hc s Hs). by destruct (c s). Qed.

Lemma keeps_wrap_error {A} f args (c : prog S A) : keeps P c -> keeps P (wrap_error f args c).
Proof. intros Hc s Hs. unfold wrap_error. specialize (Hc s Hs). by destruct (c s). Qed.

Lemma keeps_for_each {A} (f : A -> prog S unit) xs :
  (forall x, keeps P (f x)) -> keeps P (for_each f xs).
Proof.
  intros Hf. induction xs as [|x xs IH]; [apply keeps_ret|].
  apply keeps_bind; [apply Hf|by intros _].
Qed.

Lemma keeps_for_each_i {A} (f : Z -> A -> prog S unit) xs i :
  (forall i x, keeps P (f i x)) -> keeps P (for_each_i f i xs).
Proof.
  intros Hf. revert i. induction xs as [|x xs IH]; intros i; [apply keeps_ret|].
  apply keeps_bind; [apply Hf|by intros _].
Qed.

Lemma keeps_foldP {A T} (f : A -> T -> prog S A) xs acc :
  (forall acc x, keeps P (f acc x)) -> keeps P (foldP f xs acc).
Proof.
  intros Hf. revert acc. induction xs as [|x xs IH]; intros acc; [apply keeps_ret|].
  apply keeps_bind; [apply Hf|apply IH].
Qed.

(** A program whose success establishes [Q] first. *)
Lemma keeps_bind_ok {A B} (Q : A -> S -> Prop) (c : prog S A) (f : A -> prog S B) :
  keeps P c -> (forall s s' a, P s -> c s = (s', Ok a) -> Q a s') ->
  (forall a s, P s -> Q a s -> P (f a s).1) -> keeps P (c ≫= f).
Proof.
  intros Hc HQ Hf s Hs. rewrite bind_run. specialize (Hc s Hs).
  destruct (c s) as [s' [a|e]] eqn:E; [|done]. apply Hf; [done|]. by eapply HQ.
Qed.

Lemma keeps_impl (R : S -> Prop) {A} (c : prog S A) :
  (forall s, P s -> R s) -> (forall s0, P s0 -> R (c s0).1 -> P (c s0).1) ->
  keeps R c -> keeps P c.
Proof. intros HPR HRP Hc s Hs. apply HRP; [done|]. by apply Hc, HPR. Qed.

(** ** Results *)

(** From a state with [P], if [c] succeeds with [a], then [Q a]. *)
Definition ensures (R : S -> Prop) {A} (c : prog S A) (Q : A -> S -> Prop) : Prop :=
  forall s s' a, R s -> c s = (s', Ok a) -> Q a s'.

Lemma ensures_bind {A B} (R : S -> Prop) (M : A -> S -> Prop) (Q : B -> S -> Prop)
    (c : prog S A) (f : A -> prog S B) :
  ensures R c M -> (forall a, ensures (M a) (f a) Q) -> ensures R (c ≫= f) Q.
Proof. intros Hc Hf s s' b Hs (s1 & a & H1 & H2)%bind_run_ok. eapply Hf; [|done]. by eapply Hc. Qed.

Lemma ensures_keeps {A} (R : S -> Prop) (c : prog S A) : keeps R c -> ensures R c (fun _ => R).
Proof. intros Hc s s' a Hs E. specialize (Hc s Hs). by rewrite E in Hc. Qed.

(** A step after which the state has all that it had. *)
Lemma ensures_skip {A B} (R : S -> Prop) (Q : B -> S -> Prop) (c : prog S A) (f : A -> prog S B) :
  keeps R c -> (forall a, ensures R (f a) Q) -> ensures R (c ≫= f) Q.
Proof. intros Hc. by apply ensures_bind, ensures_keeps. Qed.

Lemma ensures_wrap_error {A} (R : S -> Prop) (Q : A -> S -> Prop) f args (c : prog S A) :
  ensures R c Q -> ensures R (wrap_error f args c) Q.
Proof.
  intros H s s' a Hs E. unfold wrap_error in E. destruct (c s) as [s1 r] eqn:Ec.
  injection E as <- Hr. apply wrapf_ok in Hr as ->. by eapply H.
Qed.

Lemma ensures_ret {A} (R : S -> Prop) (a : A) (Q : A -> S -> Prop) :
  (forall s, R s -> Q a s) -> ensures R (mret a) Q.
Proof. intros H s s' a' Hs [= <- <-]. by apply H. Qed.

Lemma ensures_fail {A} (R : S -> Prop) e (Q : A -> S -> Prop) : ensures R (fail e) Q.
Proof. by intros s s' a Hs [=]. Qed.

Lemma ensures_gets {A} (R : S -> Prop) (f : S -> A) :
  ensures R (gets f) (fun a s => R s /\ f s = a).
Proof. by intros s s' a Hs [= <- <-]. Qed.

Lemma ensures_facts {A} (R : S -> Prop) (F : Prop) (c : prog S A) (Q : A -> S -> Prop) :
  (F -> ensures R c Q) -> ensures (fun s => R s /\ F) c Q.
Proof. intros H s s' a [Hs Hf] E. by eapply H. Qed.

Lemma ensures_impl {A} (R R' : S -> Prop) (c : prog S A) (Q Q' : A -> S -> Prop) :
  ensures R c Q -> (forall s, R' s -> R s) -> (forall a s, Q a s -> Q' a s) -> ensures R' c Q'.
Proof. intros H HR HQ s s' a Hs E. eapply HQ, H; [by apply HR|done]. Qed.

End Laws.

(** Decomposing a run that succeeded. *)
Ltac run_ok H :=
  repeat match type of H with
  | (_ ≫= _) _ = (_, Ok _) =>
      let s := fresh "s" in let a := fresh "a" in let Hc := fresh "Hc" in
      apply bind_run_ok in H as (s & a & Hc & H)
  end.

Create HintDb keeps.
#[export] Hint Resolve keeps_ret keeps_fail keeps_gets keeps_of_result keeps_bind keeps_attempt
  keeps_wrap_error keeps_for_each keeps_for_each_i keeps_foldP : keeps.

(** Case analysis on what a program branches on. *)
Ltac keeps_cases :=
  repeat (cbv zeta; intros; first
    [ solve [eauto with keeps]
    | match goal with
      | |- keeps _ (match ?x with _ => _ end) => destruct x
      end
    | apply keeps_bind | apply keeps_attempt | apply keeps_wrap_error
    | apply keeps_for_each | apply keeps_for_each_i | apply keeps_foldP ]).
