(* ===== verification/GoIo.v ===== *)
(** * GoIo: HTTP as the clients use it, and reading lines

    What Go's [net/http] client sends and returns, and the network behind it as
    the class [Transport]; and [bufio.Scanner]. *)
From Stdlib Require Import ZArith Lia Ascii String.
From stdpp Require Import base list strings option.
From S2P Require Import Prelude GoText.

Local Open Scope Z_scope.

(** A request on the wire; the other headers do not matter to the code. *)
Record message := mk_message {
  msg_method : string;
  msg_url : string;
  msg_authorization : string;
  msg_body : string;
}.

(** What [http.Client.Do] returned: the status, the bytes that the body
    delivers and whether it ends in an error instead of the end of the file. *)
Record response := mk_response { re_status : Z; re_body : string; re_broken : bool }.

(** [http.NewRequest] may refuse an URL; [http.Client.Do] changes the world and
    may fail. *)
Class Transport := {
  net : Type;
  new_request : string -> result unit;
  http_do : message -> net -> net * result response;
}.

Definition success_status (status : Z) : bool := (200 <=? status) && (status <? 300).

(** [io.Copy(h, io.LimitReader(body, limit))] and [io.ReadAll] of the same: what
    is read of a body, unless it breaks off before the limit. *)
Definition read_limited (limit : Z) (resp : response) : result string :=
  if limit <=? slen (re_body resp)
  then Ok (String.substring 0 (Z.to_nat limit) (re_body resp))
  else fail_if re_broken resp as Errorf "unexpected EOF" [] ;; Ok (re_body resp).

(** [msg, _ := io.ReadAll(io.LimitReader(resp.Body, limit))]: a broken body
    gives what was read of it. *)
Definition read_some (limit : nat) (resp : response) : string :=
  String.substring 0 limit (re_body resp).

(** * Reading lines: bufio.Scanner

    A [bufio.Scanner] over an input that ends or breaks off, with the split
    function [bufio.ScanLines] and a maximal buffer size.  A line that does not
    fit makes [Scan] return false; the next call to [Scan] then delivers what
    the buffer holds, as the Go implementation does. *)

Definition newline_char : ascii := ascii_of_N 10.
Definition cr : ascii := ascii_of_N 13.

(** How the input ends. *)
Inductive input_end : Type :=
| EndOfFile
| ReadError (e : goerror).

(** [sc_stopped]: the reader has returned its end, or the line was too long. *)
Record scanner := mk_scanner {
  sc_rest : string;
  sc_end : input_end;
  sc_max : nat;
  sc_stopped : option (option goerror);
}.

(** The text before the first line feed, and what follows it. *)
Fixpoint cut_line (s : string) : option (string * string) :=
  match s with
  | EmptyString => None
  | String c s' =>
      if decide (c = newline_char) then Some (""%string, s')
      else match cut_line s' with
           | Some (line, rest) => Some (String c line, rest)
           | None => None
           end
  end.

(** [dropCR] *)
Definition drop_cr (line : string) : string :=
  match cut_suffix (str1 cr) line with Some l => l | None => line end.

(** The token that [ScanLines] finds at the end of the data. *)
Definition last_token (s : string) : option (string * string) :=
  match cut_line s with
  | Some (line, rest) => Some (drop_cr line, rest)
  | None => if decide (s = ""%string) then None else Some (drop_cr s, ""%string)
  end.

Definition end_error (e : input_end) : option goerror :=
  match e with EndOfFile => None | ReadError e => Some e end.

(** [Scan] followed by [Text] *)
Definition Scan (sc : scanner) : scanner * option string :=
  let deliver stopped data :=
    match last_token data with
    | Some (line, rest) => (mk_scanner rest (sc_end sc) (sc_max sc) stopped, Some line)
    | None => (mk_scanner "" (sc_end sc) (sc_max sc) stopped, None)
    end in
  match sc_stopped sc with
  | Some err => deliver (Some err) (sc_rest sc)
  | None =>
      let buffer := String.substring 0 (sc_max sc) (sc_rest sc) in
      match cut_line buffer with
      | Some (line, _) =>
          let rest := match cut_line (sc_rest sc) with Some (_, r) => r | None => ""%string end in
          (mk_scanner rest (sc_end sc) (sc_max sc) None, Some (drop_cr line))
      | None =>
          if (sc_max sc <=? String.length (sc_rest sc))%nat
          then (mk_scanner buffer (sc_end sc) (sc_max sc)
                  (Some (Some (Errorf "bufio.Scanner: token too long" []))), None)
          else deliver (Some (end_error (sc_end sc))) (sc_rest sc)
      end
  end.

(** [Err] *)
Definition scanner_Err (sc : scanner) : option goerror :=
  match sc_stopped sc with Some err => err | None => None end.

Definition NewScanner (input : string) (e : input_end) (max : nat) : scanner :=
  mk_scanner input e max None.

(** ** Well-formed input *)

Definition no_newline (s : string) : bool := negb (some_char (is_char newline_char) s).
Definition clean_line (s : string) : bool :=
  all_chars (fun c => negb (is_char newline_char c) && negb (is_char cr c)) s.

(** Lines, each ended by a line feed. *)
Fixpoint unlines (lines : list string) : string :=
  match lines with
  | [] => ""
  | l :: ls => l +:+ String newline_char (unlines ls)
  end.

Lemma unlines_app a b : unlines (a ++ b) = (unlines a +:+ unlines b)%string.
Proof.
  induction a as [|l a IH]; [done|]. cbn [app unlines]. by rewrite IH, str_app_assoc, str_cons_app.
Qed.

(** ** What a scanner delivers *)

Lemma cut_line_spec s line rest :
  cut_line s = Some (line, rest) -> s = (line +:+ String newline_char rest)%string /\
  no_newline line = true.
Proof.
  revert line rest. induction s as [|c s IH]; intros line rest H; simpl in H; [done|].
  case_decide as Hc; [by injection H as <- <-; subst|].
  destruct (cut_line s) as [[l r]|]; [|done]. injection H as <- <-.
  destruct (IH l r eq_refl) as [-> Hl]. split; [done|].
  unfold no_newline in *. cbn [some_char].
  by rewrite (proj2 (is_char_false newline_char c)).
Qed.

Lemma cut_line_none s : cut_line s = None -> no_newline s = true.
Proof.
  unfold no_newline. induction s as [|c s IH]; intros H; simpl in *; [done|].
  case_decide as Hc; [done|]. destruct (cut_line s) as [[]|]; [done|].
  rewrite (proj2 (is_char_false newline_char c)) by done. by apply IH.
Qed.

Lemma no_newline_app a b : no_newline (a +:+ b) = no_newline a && no_newline b.
Proof. unfold no_newline. by rewrite some_char_app, negb_orb. Qed.

Lemma drop_cr_prefix line : exists t, line = (drop_cr line +:+ t)%string.
Proof.
  unfold drop_cr. destruct (cut_suffix _ _) as [l|] eqn:E.
  - apply cut_suffix_spec in E. by eexists.
  - exists ""%string. by rewrite str_app_nil.
Qed.

Lemma last_token_spec s line rest :
  last_token s = Some (line, rest) ->
  no_newline line = true /\ (String.length rest < String.length s)%nat.
Proof.
  unfold last_token. destruct (cut_line s) as [[l r]|] eqn:E.
  - intros [= <- <-]. apply cut_line_spec in E as [-> Hl].
    destruct (drop_cr_prefix l) as [t Ht]. rewrite Ht, no_newline_app in Hl. bool_prop.
    split; [done|]. rewrite length_app_string. simpl. lia.
  - case_decide as Hs; [done|]. intros [= <- <-]. apply cut_line_none in E.
    destruct (drop_cr_prefix s) as [t Ht]. rewrite Ht, no_newline_app in E. bool_prop.
    split; [done|]. destruct s; [done|simpl; lia].
Qed.

Lemma substring_prefix n s :
  exists t, s = (String.substring 0 n s +:+ t)%string /\
  (String.length (String.substring 0 n s) <= n)%nat.
Proof.
  revert n. induction s as [|c s IH]; intros [|n]; simpl.
  1,2: exists ""%string; split; [done|simpl; lia].
  - exists (String c s). split; [done|simpl; lia].
  - destruct (IH n) as (t & Ht & Hn). exists t. rewrite str_cons_app, <- Ht. split; [done|simpl; lia].
Qed.

Lemma cut_line_app s t line rest :
  cut_line s = Some (line, rest) -> cut_line (s +:+ t) = Some (line, (rest +:+ t)%string).
Proof.
  revert line rest. induction s as [|c s IH]; intros line rest H; [done|].
  rewrite str_cons_app. cbn [cut_line] in *. case_decide; [by injection H as <- <-|].
  destruct (cut_line s) as [[l r]|]; [|done]. injection H as <- <-. by rewrite (IH l r).
Qed.

(** A delivered line has no line feed and was taken off the input. *)
Lemma Scan_spec sc sc' line :
  Scan sc = (sc', line) ->
  (String.length (sc_rest sc') <= String.length (sc_rest sc))%nat /\
  forall l, line = Some l ->
    no_newline l = true /\ (String.length (sc_rest sc') < String.length (sc_rest sc))%nat.
Proof.
  assert (forall stopped data, (String.length data <= String.length (sc_rest sc))%nat ->
    match last_token data with
    | Some (l, rest) => (mk_scanner rest (sc_end sc) (sc_max sc) stopped, Some l)
    | None => (mk_scanner "" (sc_end sc) (sc_max sc) stopped, None)
    end = (sc', line) ->
    (String.length (sc_rest sc') <= String.length (sc_rest sc))%nat /\
    forall l, line = Some l ->
      no_newline l = true /\ (String.length (sc_rest sc') < String.length (sc_rest sc))%nat) as Hd.
  { intros stopped data Hl. destruct (last_token data) as [[l rest]|] eqn:E; intros [= <- <-].
    - apply last_token_spec in E as [Hn Hr]. simpl. split; [lia|]. intros l' [= ->]. split; [done|lia].
    - simpl. split; [lia|done]. }
  unfold Scan. destruct (sc_stopped sc) as [err|]; [by apply Hd|].
  destruct (substring_prefix (sc_max sc) (sc_rest sc)) as (t & Ht & _).
  destruct (cut_line (String.substring 0 (sc_max sc) (sc_rest sc))) as [[l r]|] eqn:E.
  - pose proof (cut_line_app _ t _ _ E) as E'. rewrite <- Ht in E'. rewrite E'.
    intros [= <- <-]. apply cut_line_spec in E as [_ Hl]. apply cut_line_spec in E' as [Hs _].
    destruct (drop_cr_prefix l) as [u Hu]. rewrite Hu, no_newline_app in Hl. bool_prop.
    assert (String.length (r +:+ t) < String.length (sc_rest sc))%nat.
    { rewrite Hs, (length_app_string l). simpl. lia. }
    cbn [sc_rest]. split; [lia|]. intros l' [= <-]. done.
  - case_match; [|by apply Hd]. intros [= <- <-]. cbn [sc_rest]. split; [|done].
    apply (f_equal String.length) in Ht. rewrite length_app_string in Ht. lia.
Qed.

Lemma no_newline_cut line rest :
  no_newline line = true -> cut_line (line +:+ String newline_char rest) = Some (line, rest).
Proof.
  unfold no_newline. induction line as [|c s IH]; cbn [some_char]; intros H.
  - done.
  - rewrite negb_orb in H. bool_prop. rewrite str_cons_app. cbn [cut_line].
    rewrite decide_False; [|by apply is_char_false]. rewrite IH; [done|]. by apply negb_true_iff.
Qed.

(** A line that fits is delivered, one that does not stops the scanner. *)
Lemma Scan_line line rest e max :
  no_newline line = true ->
  Scan (mk_scanner (line +:+ String newline_char rest) e max None) =
    if (String.length line <? max)%nat then (mk_scanner rest e max None, Some (drop_cr line))
    else (mk_scanner (String.substring 0 max (line +:+ String newline_char rest)) e max
            (Some (Some (Errorf "bufio.Scanner: token too long" []))), None).
Proof.
  intros Hl. unfold Scan. cbn [sc_stopped sc_max sc_rest sc_end].
  destruct (Nat.ltb_spec (String.length line) max) as [Hm|Hm].
  - assert (exists r, String.substring 0 max (line +:+ String newline_char rest) =
      line +:+ String newline_char r)%string as [r ->].
    { clear Hl. revert max Hm. induction line as [|c s IH]; intros [|m] Hm; cbn in Hm; try lia.
      - exists (String.substring 0 m rest). done.
      - destruct (IH m) as [r Hr]; [lia|]. exists r. rewrite !str_cons_app. cbn [String.substring].
        by rewrite Hr. }
    by rewrite !no_newline_cut.
  - assert (cut_line (String.substring 0 max (line +:+ String newline_char rest)) = None) as ->.
    { revert max Hm. induction line as [|c s IH]; intros [|m] Hm; cbn in Hm; try lia; [done..|].
      unfold no_newline in Hl. cbn [some_char] in Hl. rewrite negb_orb in Hl. bool_prop.
      rewrite str_cons_app. cbn [String.substring cut_line].
      rewrite decide_False by by apply is_char_false. rewrite IH; [done|by apply negb_true_iff|lia]. }
    rewrite (proj2 (Nat.leb_le _ _)); [done|]. rewrite length_app_string. lia.
Qed.
