(* ===== verification/I18n.v ===== *)
(** * Localised messages

    [internal/i18n/i18n.go] and the POSIX detection of [locale_unix.go].  The
    process environment is the class [Environment]. *)
From Stdlib Require Import ZArith Lia Ascii String.
From stdpp Require Import base list strings option.
From S2P Require Import Prelude GoText.

Local Open Scope Z_scope.

(** [os.Getenv]: the empty string for an unset variable. *)
Class Environment := { Getenv : string -> string }.

(** ** Locales *)

Definition lowerASCII (s : string) : string := map_chars lower_char s.

(** [if i := strings.IndexAny(s, chars); i >= 0 { s = s[:i] }] *)
Fixpoint before_any (p : ascii -> bool) (s : string) : string :=
  match s with
  | EmptyString => ""
  | String c s' => if p c then "" else String c (before_any p s')
  end.

Definition normalizeLocale (locale : string) : string :=
  let locale := before_any (is_char ":") locale in
  let locale := before_any (fun c => is_char "." c || is_char "@" c) locale in
  let locale := replace_char "_" "-" locale in
  let locale := lowerASCII locale in
  match cut_prefix "zh" locale with
  | Some (String c rest) => if is_char "-" c then "zh-" +:+ rest else "zh"
  | Some EmptyString => "zh"
  | None => lowerASCII locale
  end.

Definition chinese_regions : list string := ["cn"; "hk"; "mo"; "tw"]%string.

Definition IsChineseLocale (locale : string) : bool :=
  let locale := normalizeLocale locale in
  if bool_decide (locale = "zh"%string) || negb (HasPrefix locale "zh-") then false
  else existsb (fun part => bool_decide (part ∈ chinese_regions))
         (Split (String.substring 3 (String.length locale - 3) locale) "-").

Definition isGenericLocale (locale : string) : bool :=
  let locale := normalizeLocale locale in
  bool_decide (locale = "c"%string) || bool_decide (locale = "posix"%string).

Section Localised.
Context {EN : Environment}.

(** [IsChinese]: the first variable that is set and not generic decides. *)
Fixpoint first_locale (keys : list string) : bool :=
  match keys with
  | [] => false
  | key :: keys' =>
      let locale := Getenv key in
      if decide (locale = ""%string) then first_locale keys'
      else if isGenericLocale locale then first_locale keys'
      else IsChineseLocale locale
  end.
Definition IsChinese : bool := first_locale ["LC_ALL"; "LC_MESSAGES"; "LANG"; "LANGUAGE"].

Definition Text (english chinese : string) : string := if IsChinese then chinese else english.

(** [i18n.Errorf] without and with a wrapped error. *)
Definition i18n_Errorf (english chinese : string) (args : list garg) : goerror :=
  Errorf (Text english chinese) args.
Definition i18n_Wrapf (english chinese : string) (args : list garg) (cause : goerror) : goerror :=
  Wrapf (Text english chinese) args cause.

(** [CodedError], [ErrorfCode] and [HasCode]: the code is the type under which
    the error is found in a chain. *)
Definition coded (code : string) : string := "CodedError:" +:+ code.
Definition ErrorfCode (code english chinese : string) (args : list garg) : goerror :=
  Typed (coded code) (Errorf (Text english chinese) args).
End Localised.

Definition HasCode (err : goerror) (code : string) : bool :=
  match errors_As (coded code) err with Some _ => true | None => false end.
