(* ===== verification/Json.v ===== *)
(** * JSON texts

    Go's [encoding/json] as the modelled code uses it: the tree of a JSON text,
    the scanner and parser behind [Unmarshal] and [Decoder.Decode] (grammar,
    string unquoting, nesting limit), the printers behind [Marshal] and
    [MarshalIndent] (HTML escapes, replacement of invalid UTF-8), and the
    decoding of an object into a struct field by field.  Strings are byte
    strings that hold UTF-8. *)
From Stdlib Require Import ZArith Lia Ascii String.
From Stdlib Require Strings.Byte.
From stdpp Require Import base list strings option pretty.
From S2P Require Import Prelude GoText.

Local Open Scope Z_scope.

Inductive json : Type :=
| JNull
| JBool (b : bool)
| JNumber (literal : string)
| JString (s : string)
| JArray (items : list json)
| JObject (members : list (string * json)).

(** ** Characters *)

Definition dquote : ascii := ascii_of_N 34.
Definition backslash : ascii := ascii_of_N 92.
Definition newline : ascii := ascii_of_N 10.

(** ** UTF-8 *)

Definition cont (c : ascii) : bool := between 0x80 0xBF c.
Definition lead3 (c d : ascii) : bool :=
  (code c =? 0xE0) && between 0xA0 0xBF d ||
  (between 0xE1 0xEC c || between 0xEE 0xEF c) && cont d ||
  (code c =? 0xED) && between 0x80 0x9F d.
Definition lead4 (c d : ascii) : bool :=
  (code c =? 0xF0) && between 0x90 0xBF d ||
  between 0xF1 0xF3 c && cont d ||
  (code c =? 0xF4) && between 0x80 0x8F d.

(** The number of continuation bytes of the rune that starts with [c] and goes
    on in [s]; [None] where [utf8.DecodeRune] reports [RuneError]. *)
Definition rune_tail (c : ascii) (s : string) : option nat :=
  if code c <? 0x80 then Some 0%nat
  else match s with
       | String d s1 =>
           if between 0xC2 0xDF c && cont d then Some 1%nat
           else match s1 with
                | String e s2 =>
                    if lead3 c d && cont e then Some 2%nat
                    else match s2 with
                         | String f _ =>
                             if lead4 c d && cont e && cont f then Some 3%nat else None
                         | EmptyString => None
                         end
                | EmptyString => None
                end
       | EmptyString => None
       end.

(** [utf8.ValidString]; [k] continuation bytes are still to come. *)
Fixpoint valid_utf8_go (k : nat) (s : string) : bool :=
  match s with
  | EmptyString => bool_decide (k = 0%nat)
  | String c s' =>
      match k with
      | S k' => valid_utf8_go k' s'
      | O => match rune_tail c s' with
             | Some n => valid_utf8_go n s'
             | None => false
             end
      end
  end.
Definition valid_utf8 (s : string) : bool := valid_utf8_go 0 s.

Definition chr (z : Z) : ascii := ascii_of_N (Z.to_N z).

(** [utf8.AppendRune] of a rune outside the surrogates. *)
Definition encode_rune (r : Z) : string :=
  if r <? 0x80 then str1 (chr r)
  else if r <? 0x800 then String (chr (0xC0 + r / 64)) (str1 (chr (0x80 + r mod 64)))
  else if r <? 0x10000 then
    String (chr (0xE0 + r / 4096))
      (String (chr (0x80 + r / 64 mod 64)) (str1 (chr (0x80 + r mod 64))))
  else
    String (chr (0xF0 + r / 262144)) (String (chr (0x80 + r / 4096 mod 64))
      (String (chr (0x80 + r / 64 mod 64)) (str1 (chr (0x80 + r mod 64))))).

Definition replacement : string := encode_rune 0xFFFD.

(** ** Printing strings *)

(** The escape of an ASCII byte outside [htmlSafeSet]. *)
Definition escape (c : ascii) : option string :=
  let short (x : ascii) := Some (String backslash (str1 x)) in
  if is_char dquote c || is_char backslash c then short c
  else if code c =? 8 then short "b"%char
  else if code c =? 12 then short "f"%char
  else if code c =? 10 then short "n"%char
  else if code c =? 13 then short "r"%char
  else if code c =? 9 then short "t"%char
  else if (code c <? 32) || is_char "<" c || is_char ">" c || is_char "&" c then
    Some (String backslash ("u00" +:+
      String (hex_digit (N_of_ascii c / 16)) (str1 (hex_digit (N_of_ascii c mod 16)))))
  else None.

(** U+2028 and U+2029, by the last two of their three bytes. *)
Definition line_separator (c d e : ascii) : bool :=
  (code c =? 0xE2) && (code d =? 0x80) && ((code e =? 0xA8) || (code e =? 0xA9)).

(** [appendString] without the quotes; [k] bytes of the current rune remain. *)
Fixpoint quote_go (k : nat) (s : string) : string :=
  match s with
  | EmptyString => ""
  | String c s' =>
      match k with
      | S k' => String c (quote_go k' s')
      | O =>
          if code c <? 0x80 then
            match escape c with
            | Some e => e +:+ quote_go 0 s'
            | None => String c (quote_go 0 s')
            end
          else match rune_tail c s' with
               | None => String backslash ("ufffd" +:+ quote_go 0 s')
               | Some n =>
                   match s' with
                   | String d (String e s3) =>
                       if line_separator c d e
                       then String backslash ("u202" +:+
                              String (hex_digit (N_of_ascii e mod 16)) (quote_go 0 s3))
                       else String c (quote_go n s')
                   | _ => String c (quote_go n s')
                   end
               end
      end
  end.

Definition quote (s : string) : string := String dquote (quote_go 0 s +:+ str1 dquote).

(** ** Printing values *)

Definition concat_map {A} (f : A -> string) (l : list A) : string :=
  fold_right (fun x r => f x +:+ r)%string ""%string l.

(** The items of a list, each preceded by [sep] but for the first. *)
Definition separated (sep : string) (l : list string) : string :=
  match l with
  | [] => ""
  | x :: l' => x +:+ concat_map (fun y => sep +:+ y)%string l'
  end.

(** The text of a value: [nl d] is the white space of a line break before a
    line at depth [d] and [colon] what stands between a key and its value. *)
Fixpoint render (nl : nat -> string) (colon : string) (depth : nat) (v : json) : string :=
  match v with
  | JNull => "null"
  | JBool true => "true"
  | JBool false => "false"
  | JNumber literal => literal
  | JString s => quote s
  | JArray [] => "[]"
  | JArray items =>
      "[" +:+ nl (S depth)
          +:+ separated ("," +:+ nl (S depth)) (map (render nl colon (S depth)) items)
          +:+ nl depth +:+ "]"
  | JObject [] => "{}"
  | JObject members =>
      "{" +:+ nl (S depth)
          +:+ separated ("," +:+ nl (S depth))
                (map (fun '(k, x) => quote k +:+ colon +:+ render nl colon (S depth) x)%string
                   members)
          +:+ nl depth +:+ "}"
  end.

(** [json.Marshal] *)
Definition Marshal (v : json) : string := render (fun _ => ""%string) ":" 0 v.

Fixpoint indentation (depth : nat) : string :=
  match depth with O => "" | S d => "  " +:+ indentation d end.

(** [json.MarshalIndent] with an empty prefix and two spaces per level. *)
Definition MarshalIndent (v : json) : string :=
  render (fun depth => String newline (indentation depth)) ": " 0 v.

(** ** Reading strings *)

Definition hex4 (a b c d : ascii) : option Z :=
  match hex_value a, hex_value b, hex_value c, hex_value d with
  | Some w, Some x, Some y, Some z => Some (Z.of_N (4096 * w + 256 * x + 16 * y + z))
  | _, _, _, _ => None
  end.

Definition is_surrogate (r : Z) : bool := (0xD800 <=? r) && (r <? 0xE000).

(** [utf16.DecodeRune], with [None] for the replacement rune. *)
Definition decode_pair (r1 r2 : Z) : option Z :=
  if (0xD800 <=? r1) && (r1 <? 0xDC00) && (0xDC00 <=? r2) && (r2 <? 0xE000)
  then Some ((r1 - 0xD800) * 1024 + (r2 - 0xDC00) + 0x10000) else None.

Definition unescape (c : ascii) : option ascii :=
  if is_char dquote c || is_char backslash c || is_char "/" c then Some c
  else if is_char "b" c then Some (ascii_of_N 8)
  else if is_char "f" c then Some (ascii_of_N 12)
  else if is_char "n" c then Some (ascii_of_N 10)
  else if is_char "r" c then Some (ascii_of_N 13)
  else if is_char "t" c then Some (ascii_of_N 9)
  else None.

Definition push (t : string) (r : option (string * string)) : option (string * string) :=
  match r with Some (s, rest) => Some (t +:+ s, rest)%string | None => None end.

(** The scanner's strings and [unquote], from after the opening quote: the
    value and the text after the closing quote. *)
Fixpoint unquote_go (k : nat) (s : string) : option (string * string) :=
  match s with
  | EmptyString => None
  | String c s' =>
      match k with
      | S k' => push (str1 c) (unquote_go k' s')
      | O =>
          if is_char dquote c then Some (""%string, s')
          else if is_char backslash c then
            match s' with
            | String e s1 =>
                if is_char "u" e then
                  match s1 with
                  | String h1 (String h2 (String h3 (String h4 s5))) =>
                      match hex4 h1 h2 h3 h4 with
                      | None => None
                      | Some r =>
                          if is_surrogate r then
                            match s5 with
                            | String b (String u (String i1 (String i2 (String i3 (String i4 s11))))) =>
                                if is_char backslash b && is_char "u" u then
                                  match hex4 i1 i2 i3 i4 ≫= decode_pair r with
                                  | Some r' => push (encode_rune r') (unquote_go 0 s11)
                                  | None => push replacement (unquote_go 0 s5)
                                  end
                                else push replacement (unquote_go 0 s5)
                            | _ => push replacement (unquote_go 0 s5)
                            end
                          else push (encode_rune r) (unquote_go 0 s5)
                      end
                  | _ => None
                  end
                else match unescape e with
                     | Some x => push (str1 x) (unquote_go 0 s1)
                     | None => None
                     end
            | EmptyString => None
            end
          else if code c <? 32 then None
          else match rune_tail c s' with
               | Some n => push (str1 c) (unquote_go n s')
               | None => push replacement (unquote_go 0 s')
               end
      end
  end.

(** ** Reading numbers and white space *)

Definition json_space (c : ascii) : bool :=
  (code c =? 32) || (code c =? 9) || (code c =? 10) || (code c =? 13).

Fixpoint skip_space (s : string) : string :=
  match s with
  | String c s' => if json_space c then skip_space s' else s
  | EmptyString => ""
  end.

Fixpoint take_digits (s : string) : string * string :=
  match s with
  | String c s' =>
      if is_digit c then let '(d, r) := take_digits s' in (String c d, r) else (""%string, s)
  | EmptyString => ("", "")%string
  end.

(** At least one digit. *)
Definition some_digits (s : string) : option (string * string) :=
  match take_digits s with
  | (EmptyString, _) => None
  | dr => Some dr
  end.

Definition lex_int (s : string) : option (string * string) :=
  match s with
  | String c s' => if is_char "0" c then Some (str1 c, s') else some_digits s
  | EmptyString => None
  end.

Definition lex_frac (s : string) : option (string * string) :=
  match s with
  | String c s' =>
      if is_char "." c then push (str1 c) (some_digits s') else Some (""%string, s)
  | EmptyString => Some ("", "")%string
  end.

Definition lex_exp (s : string) : option (string * string) :=
  match s with
  | String c s' =>
      if is_char "e" c || is_char "E" c then
        match s' with
        | String g s'' =>
            if is_char "+" g || is_char "-" g
            then push (str1 c +:+ str1 g) (some_digits s'')
            else push (str1 c) (some_digits s')
        | EmptyString => None
        end
      else Some (""%string, s)
  | EmptyString => Some ("", "")%string
  end.

Definition lex_sign (s : string) : string * string :=
  match s with
  | String c s' => if is_char "-" c then (str1 c, s') else (""%string, s)
  | EmptyString => ("", "")%string
  end.

(** The scanner's number states: the literal and the text after it. *)
Definition lex_number (s : string) : option (string * string) :=
  let '(sign, s0) := lex_sign s in
  match lex_int s0 with
  | None => None
  | Some (i, s1) =>
      match lex_frac s1 with
      | None => None
      | Some (f, s2) =>
          match lex_exp s2 with
          | None => None
          | Some (e, s3) => Some (sign +:+ i +:+ f +:+ e, s3)%string
          end
      end
  end.

(** ** Reading values *)

(** [maxNestingDepth] *)
Definition max_depth : nat := Z.to_nat 10000.

(** The scanner's rule that a value may start after [depth] open brackets. *)
Definition nested (depth : nat) : option nat :=
  if (depth <? max_depth)%nat then Some (S depth) else None.

Definition member (k : string) (v : json) (r : option (list (string * json) * string))
  : option (list (string * json) * string) :=
  match r with Some (l, s) => Some ((k, v) :: l, s) | None => None end.

Definition item (v : json) (r : option (list json * string)) : option (list json * string) :=
  match r with Some (l, s) => Some (v :: l, s) | None => None end.

(** [Decode]: the next value of the text and what follows it.  The text of a
    value is read with two units of fuel per byte. *)
Fixpoint parse_value (fuel depth : nat) (s : string) : option (json * string) :=
  match fuel with
  | O => None
  | S f =>
      match skip_space s with
      | EmptyString => None
      | String c s1 as s0 =>
          if is_char "{" c then
            match nested depth with
            | None => None
            | Some d =>
                match skip_space s1 with
                | String e s2 as s' =>
                    if is_char "}" e then Some (JObject [], s2)
                    else match parse_members f d s' with
                         | Some (l, r) => Some (JObject l, r)
                         | None => None
                         end
                | EmptyString => None
                end
            end
          else if is_char "[" c then
            match nested depth with
            | None => None
            | Some d =>
                match skip_space s1 with
                | String e s2 as s' =>
                    if is_char "]" e then Some (JArray [], s2)
                    else match parse_items f d s' with
                         | Some (l, r) => Some (JArray l, r)
                         | None => None
                         end
                | EmptyString => None
                end
            end
          else if is_char dquote c then
            match unquote_go 0 s1 with
            | Some (x, r) => Some (JString x, r)
            | None => None
            end
          else if is_char "t" c then
            match cut_prefix "true" s0 with Some r => Some (JBool true, r) | None => None end
          else if is_char "f" c then
            match cut_prefix "false" s0 with Some r => Some (JBool false, r) | None => None end
          else if is_char "n" c then
            match cut_prefix "null" s0 with Some r => Some (JNull, r) | None => None end
          else match lex_number s0 with
               | Some (literal, r) => Some (JNumber literal, r)
               | None => None
               end
      end
  end
with parse_items (fuel depth : nat) (s : string) : option (list json * string) :=
  match fuel with
  | O => None
  | S f =>
      match parse_value f depth s with
      | None => None
      | Some (v, r) =>
          match skip_space r with
          | EmptyString => None
          | String c r' =>
              if is_char "," c then item v (parse_items f depth r')
              else if is_char "]" c then Some ([v], r')
              else None
          end
      end
  end
with parse_members (fuel depth : nat) (s : string) : option (list (string * json) * string) :=
  match fuel with
  | O => None
  | S f =>
      match skip_space s with
      | EmptyString => None
      | String q s1 =>
          if is_char dquote q then
            match unquote_go 0 s1 with
            | None => None
            | Some (k, r1) =>
                match skip_space r1 with
                | EmptyString => None
                | String e r2 =>
                    if is_char ":" e then
                      match parse_value f depth r2 with
                      | None => None
                      | Some (v, r3) =>
                          match skip_space r3 with
                          | EmptyString => None
                          | String c r4 =>
                              if is_char "," c then member k v (parse_members f depth r4)
                              else if is_char "}" c then Some ([(k, v)], r4)
                              else None
                          end
                      end
                    else None
                end
            end
          else None
      end
  end.

Definition fuel_of (s : string) : nat := 2 * String.length s + 2.

Definition syntax_error {A} : result A := errf "invalid JSON" [].

(** [json.NewDecoder(r).Decode]: the first value of the stream and the rest. *)
Definition Decode (s : string) : result (json * string) :=
  match parse_value (fuel_of s) 0 s with
  | Some vr => Ok vr
  | None => syntax_error
  end.

(** The tree that [json.Unmarshal] reads: one value and nothing but white space
    after it. *)
Definition Unmarshal (s : string) : result json :=
  let? (v, rest) := Decode s in
  fail_if negb (bool_decide (skip_space rest = ""%string)) as Errorf "invalid JSON" [] ;;
  Ok v.

(** ** Structs *)

(** [foldName]: ASCII case, and the two runes outside ASCII that fold into it. *)
Fixpoint fold_name (s : string) : string :=
  match s with
  | EmptyString => ""
  | String a s1 =>
      match s1 with
      | String b s2 =>
          if (code a =? 0xC5) && (code b =? 0xBF) then String "s" (fold_name s2)
          else match s2 with
               | String c s3 =>
                   if (code a =? 0xE2) && (code b =? 0x84) && (code c =? 0xAA)
                   then String "k" (fold_name s3)
                   else String (lower_char a) (fold_name s1)
               | EmptyString => String (lower_char a) (fold_name s1)
               end
      | EmptyString => String (lower_char a) (fold_name s1)
      end
  end.

(** The members of an object that a field takes its value from.  No struct of
    the modelled code has two field names with the same folding. *)
Definition key_matches (name key : string) : bool :=
  bool_decide (fold_name key = fold_name name).

Definition type_error {A} : result A := errf "json: cannot unmarshal" [].

(** The value of a field: every matching member in turn is decoded into it. *)
Definition field {T} (decode : json -> T -> result T) (name : string) (zero : T)
    (members : list (string * json)) : result T :=
  foldM (fun acc '(k, x) => if key_matches name k then decode x acc else Ok acc) members zero.

Definition decode_string (v : json) (old : string) : result string :=
  match v with JString s => Ok s | JNull => Ok old | _ => type_error end.

Definition decode_bool (v : json) (old : bool) : result bool :=
  match v with JBool b => Ok b | JNull => Ok old | _ => type_error end.

Definition decode_int64 (v : json) (old : Z) : result Z :=
  match v with
  | JNumber literal => match ParseInt literal with Some z => Ok z | None => type_error end
  | JNull => Ok old
  | _ => type_error
  end.

Definition decode_uint64 (v : json) (old : Z) : result Z :=
  match v with
  | JNumber literal => match ParseUint literal with Some z => Ok z | None => type_error end
  | JNull => Ok old
  | _ => type_error
  end.

(** The members that a struct is decoded from; [null] leaves it alone. *)
Definition struct_members (v : json) : result (list (string * json)) :=
  match v with JObject members => Ok members | JNull => Ok [] | _ => type_error end.

(** A slice that may be [nil]. *)
Notation slice T := (option (list T)).

(** An array is decoded into the memory of the slice that is there: an element
    starts from what its place held before.  [None] is the [nil] slice, and a
    slice is its length and its memory. *)
Fixpoint decode_items {T} (decode : json -> T -> result T) (zero : T) (items : list json)
    (memory : list T) : result (list T) :=
  match items with
  | [] => Ok memory
  | x :: items' =>
      let? element := decode x (hd zero memory) in
      let? memory' := decode_items decode zero items' (tl memory) in
      Ok (element :: memory')
  end.

Definition decode_reusing {T} (decode : json -> T -> result T) (zero : T) (v : json)
    (old : option (nat * list T)) : result (option (nat * list T)) :=
  match v with
  | JNull => Ok None
  | JArray [] => Ok (Some (0%nat, []))
  | JArray items =>
      let? memory := decode_items decode zero items (default [] (snd <$> old)) in
      Ok (Some (length items, memory))
  | _ => type_error
  end.

Definition slice_field {T} (decode : json -> T -> result T) (zero : T) (name : string)
    (old : slice T) (ms : list (string * json)) : result (slice T) :=
  let? s := field (decode_reusing decode zero) name ((fun l => (length l, l)) <$> old) ms in
  Ok ((fun '(n, memory) => take n memory) <$> s).

Definition string_field := field decode_string.
Definition bool_field := field decode_bool.
Definition int64_field := field decode_int64.
Definition uint64_field := field decode_uint64.

Definition JInt (z : Z) : json := JNumber (FormatInt z).

(** Members of a printed struct; the last one is dropped when empty
    ([omitempty]). *)
Definition text_member (k v : string) : string * json := (k, JString v).
Definition int_member (k : string) (z : Z) : string * json := (k, JInt z).
Definition bool_member (k : string) (b : bool) : string * json := (k, JBool b).
Definition text_unless_empty (k v : string) : list (string * json) :=
  if decide (v = ""%string) then [] else [text_member k v].

(** [json.Marshal] of a map writes its keys in order. *)
Fixpoint insert_member (m : string * json) (ms : list (string * json)) : list (string * json) :=
  match ms with
  | [] => [m]
  | m' :: ms' => if String.leb (fst m) (fst m') then m :: ms else m' :: insert_member m ms'
  end.
Definition sorted_members (ms : list (string * json)) : list (string * json) :=
  fold_right insert_member [] ms.
