(* ===== verification/JsonSpec.v ===== *)
(** * JsonSpec: parsing what was printed

    The parser reads back what the printers write, whatever the layout, and its
    fuel is enough for every text. *)
From Stdlib Require Import ZArith Lia Ascii String.
From stdpp Require Import base list strings option pretty.
From S2P Require Import Prelude GoText Json.

Local Open Scope Z_scope.

(** ** Well-formed trees *)

Definition number_literal (s : string) : bool :=
  bool_decide (lex_number s = Some (s, ""%string)).

(** Number literals follow the grammar and strings hold UTF-8. *)
Fixpoint json_ok (v : json) : bool :=
  match v with
  | JNumber literal => number_literal literal
  | JString s => valid_utf8 s
  | JArray items => forallb json_ok items
  | JObject members => forallb (fun '(k, x) => valid_utf8 k && json_ok x) members
  | _ => true
  end.

Definition max_of (l : list nat) : nat := fold_right Nat.max 0%nat l.

(** The number of brackets open at the deepest point of a value. *)
Fixpoint nesting (v : json) : nat :=
  match v with
  | JArray items => S (max_of (map nesting items))
  | JObject members => S (max_of (map (fun '(_, x) => nesting x) members))
  | _ => 0
  end.

(** Induction on a tree through the lists of its children. *)
Lemma json_tree_ind (P : json -> Prop) :
  P JNull -> (forall b, P (JBool b)) -> (forall l, P (JNumber l)) -> (forall s, P (JString s)) ->
  (forall items, Forall P items -> P (JArray items)) ->
  (forall members, Forall (fun kv => P kv.2) members -> P (JObject members)) ->
  forall v, P v.
Proof.
  intros H0 H1 H2 H3 H4 H5. fix IH 1. intros [| | | |items|members]; [auto..| |].
  - apply H4. induction items as [|x items IHl]; constructor; [apply IH|exact IHl].
  - apply H5. induction members as [|[k x] members IHl]; constructor; [apply IH|exact IHl].
Qed.

(** ** Strings *)

(** What the escape of one byte reads back as. *)
Lemma unquote_escape : forall c e rest,
  (code c <? 0x80) = true -> escape c = Some e ->
  unquote_go 0 (e +:+ rest) = push (str1 c) (unquote_go 0 rest).
Proof.
  intros c. pattern c. apply ascii_cases.
  intros [] [] [] [] [] [] [] [] e rest Hc He; vm_compute in Hc, He; try discriminate;
    injection He as <-; reflexivity.
Qed.

Lemma unquote_plain c rest :
  (code c <? 0x80) = true -> escape c = None ->
  unquote_go 0 (String c rest) = push (str1 c) (unquote_go 0 rest).
Proof.
  intros Hc He. unfold escape in He. cbn [unquote_go].
  destruct (is_char dquote c) eqn:E1; [done|]. destruct (is_char backslash c) eqn:E2; [done|].
  simpl in He. repeat (case_match; [done|]). unfold rune_tail. rewrite Hc.
  match goal with H : _ || _ = false |- _ => rewrite !orb_false_iff in H end.
  destruct (code c <? 32); [naive_solver|done].
Qed.

(** The bytes that [rune_tail] has seen determine it. *)
Lemma rune_tail_app c s t n : rune_tail c s = Some n -> rune_tail c (s +:+ t) = Some n.
Proof.
  unfold rune_tail. destruct (code c <? 0x80); [done|].
  destruct s as [|d [|e [|f s]]]; str_simpl; repeat case_match; naive_solver.
Qed.

(** Printing leaves the bytes of a rune as they are. *)
Lemma rune_tail_quote c s n t :
  rune_tail c s = Some n -> rune_tail c (quote_go n s +:+ t) = Some n.
Proof.
  unfold rune_tail. destruct (code c <? 0x80); [done|]. intros H.
  destruct s as [|d [|e [|f s]]];
    repeat match type of H with context [if ?b then _ else _] => destruct b eqn:? end;
    simplify_eq H; intros <-; cbn [quote_go]; str_simpl;
    repeat match goal with H : _ = _ |- _ => rewrite H; clear H end; reflexivity.
Qed.

Lemma separator_bytes c d e :
  line_separator c d e = true ->
  c = ascii_of_N 0xE2 /\ d = ascii_of_N 0x80 /\ (e = ascii_of_N 0xA8 \/ e = ascii_of_N 0xA9).
Proof.
  unfold line_separator, code. rewrite !andb_true_iff, orb_true_iff, !Z.eqb_eq.
  intros [[Hc Hd] He]. rewrite <- (ascii_N_embedding c), <- (ascii_N_embedding d),
    <- (ascii_N_embedding e). split_and!; [f_equal; lia..|].
  destruct He; [left|right]; f_equal; lia.
Qed.

Lemma high_byte c :
  (code c <? 0x80) = false ->
  is_char dquote c = false /\ is_char backslash c = false /\ (code c <? 32) = false.
Proof.
  unfold is_char. intros H%Z.ltb_ge. split_and!; [apply Z.eqb_neq|apply Z.eqb_neq|apply Z.ltb_ge];
    [change (code dquote) with 34|change (code backslash) with 92|]; lia.
Qed.

Lemma unquote_separator c d e X :
  line_separator c d e = true ->
  unquote_go 0 (String backslash ("u202" +:+ String (hex_digit (N_of_ascii e mod 16)) X)) =
  push (String c (String d (str1 e))) (unquote_go 0 X).
Proof. intros H. apply separator_bytes in H as (-> & -> & [-> | ->]); reflexivity. Qed.

(** Reading a printed string gives the string back. *)
Lemma unquote_quote k s rest :
  valid_utf8_go k s = true ->
  unquote_go k (quote_go k s +:+ String dquote rest) = Some (s, rest).
Proof.
  enough (forall n s, (String.length s <= n)%nat -> forall k, valid_utf8_go k s = true ->
    unquote_go k (quote_go k s +:+ String dquote rest) = Some (s, rest)) as H by eauto.
  clear. intros n. induction n as [|n IH]; intros [|c s] Hn k Hv; simpl in Hn; try lia.
  1,2: cbn in Hv; bool_prop; by subst.
  destruct k as [|k]; cbn [quote_go valid_utf8_go] in *.
  2: { str_simpl. by rewrite IH by (done || lia). }
  destruct (rune_tail c s) as [m|] eqn:Er; [|done].
  destruct (code c <? 0x80) eqn:Ec.
  - assert (m = 0%nat) as -> by (unfold rune_tail in Er; rewrite Ec in Er; congruence).
    destruct (escape c) as [e|] eqn:Ee.
    + rewrite str_app_assoc, (unquote_escape c e) by done. by rewrite IH by (done || lia).
    + rewrite str_cons_app, unquote_plain by done. by rewrite IH by (done || lia).
  - assert (unquote_go 0 (String c (quote_go m s +:+ String dquote rest)) = Some (String c s, rest))
      as Hraw.
    { cbn [unquote_go]. pose proof (high_byte c Ec) as (-> & -> & ->).
      rewrite rune_tail_quote by done. by rewrite IH by (done || lia). }
    destruct s as [|d [|e s3]]; [exact Hraw..|].
    destruct (line_separator c d e) eqn:El; [|exact Hraw].
    assert (m = 2%nat) as ->.
    { apply separator_bytes in El as (-> & -> & [-> | ->]); vm_compute in Er; congruence. }
    cbn [valid_utf8_go] in Hv. simpl in Hn.
    pose proof (IH s3 ltac:(lia) 0%nat Hv) as Hs3.
    etransitivity; [exact (unquote_separator c d e (quote_go 0 s3 +:+ String dquote rest) El)|]. by rewrite Hs3.
Qed.

(** ** Numbers *)

(** The text after a number does not go on with it. *)
Definition number_ends (s : string) : bool :=
  match s with
  | EmptyString => true
  | String c _ => negb (is_digit c || is_char "." c || is_char "e" c || is_char "E" c)
  end.

Ltac number_end H := unfold number_ends in H; rewrite ?negb_true_iff, ?orb_false_iff in H;
  destruct_and? H; simpl; repeat match goal with E : _ = false |- _ => rewrite E; clear E end.

Lemma take_digits_app s rest :
  number_ends rest = true ->
  take_digits (s +:+ rest) = let '(d, r) := take_digits s in (d, r +:+ rest)%string.
Proof.
  intros He. induction s as [|c s IH]; str_simpl.
  - destruct rest as [|x rest]; [done|]. by number_end He.
  - destruct (is_digit c); [|done]. rewrite IH. by destruct (take_digits s).
Qed.

Lemma some_digits_app s rest d r :
  number_ends rest = true -> some_digits s = Some (d, r) ->
  some_digits (s +:+ rest) = Some (d, r +:+ rest)%string.
Proof.
  intros He. unfold some_digits. rewrite take_digits_app by done.
  destruct (take_digits s) as [[|c d'] r']; by intros [= <- <-].
Qed.

Lemma lex_int_app s rest i r :
  number_ends rest = true -> lex_int s = Some (i, r) ->
  lex_int (s +:+ rest) = Some (i, r +:+ rest)%string.
Proof.
  intros He. unfold lex_int. destruct s as [|c s]; [done|]. str_simpl.
  destruct (is_char "0" c); [by intros [= <- <-]|]. by apply (some_digits_app (String c s)).
Qed.

Lemma push_some t o s r : push t o = Some (s, r) -> exists s', o = Some (s', r) /\ s = (t +:+ s')%string.
Proof. destruct o as [[s' r']|]; [|done]. intros [= <- <-]. eauto. Qed.

Lemma lex_frac_app s rest f r :
  number_ends rest = true -> lex_frac s = Some (f, r) ->
  lex_frac (s +:+ rest) = Some (f, r +:+ rest)%string.
Proof.
  intros He. unfold lex_frac. destruct s as [|c s]; str_simpl.
  - intros [= <- <-]. destruct rest as [|x rest]; [done|]. by number_end He.
  - destruct (is_char "." c); [|by intros [= <- <-]].
    intros (d & Hd & ->)%push_some. by rewrite (some_digits_app _ _ _ _ He Hd).
Qed.

Lemma lex_exp_app s rest f r :
  number_ends rest = true -> lex_exp s = Some (f, r) ->
  lex_exp (s +:+ rest) = Some (f, r +:+ rest)%string.
Proof.
  intros He. unfold lex_exp. destruct s as [|c s]; str_simpl.
  - intros [= <- <-]. destruct rest as [|x rest]; [done|]. by number_end He.
  - destruct (_ || _); [|by intros [= <- <-]]. destruct s as [|g s]; [done|]. str_simpl.
    destruct (_ || _); intros (d & Hd & ->)%push_some;
      [by rewrite (some_digits_app _ _ _ _ He Hd)|].
    by rewrite <- (str_cons_app g s rest), (some_digits_app _ _ _ _ He Hd).
Qed.

(** Unsigned literals, sign apart. *)
Lemma lex_number_parts s s' rest :
  lex_number s = Some (s', rest) <->
  exists i s1 f s2 e, lex_int (lex_sign s).2 = Some (i, s1) /\ lex_frac s1 = Some (f, s2) /\
    lex_exp s2 = Some (e, rest) /\ s' = ((lex_sign s).1 +:+ i +:+ f +:+ e)%string.
Proof.
  unfold lex_number. destruct (lex_sign s) as [sign s0]. simpl. split.
  - intros H. repeat case_match; simplify_eq. naive_solver.
  - intros (i & s1 & f & s2 & e & -> & -> & -> & ->). done.
Qed.

Lemma lex_number_app s rest :
  number_ends rest = true -> number_literal s = true -> lex_number (s +:+ rest) = Some (s, rest).
Proof.
  intros He Hl. unfold number_literal in Hl. bool_prop. apply lex_number_parts in Hl.
  destruct Hl as (i & s1 & f & s2 & e & Hi & Hf & Hx & Hs). apply lex_number_parts.
  exists i, (s1 +:+ rest)%string, f, (s2 +:+ rest)%string, e.
  rewrite (lex_frac_app _ _ _ _ He Hf), (lex_exp_app _ _ _ _ He Hx).
  destruct s as [|c s]; [done|]. unfold lex_sign in *. str_simpl.
  destruct (is_char "-" c); simpl in *; split_and!; try done.
  - by apply lex_int_app.
  - by apply (lex_int_app (String c s)).
Qed.

(** ** Fuel *)

(** [r] is what remains of [s] after at least one byte, and [n] bytes are gone. *)
Definition consumed (s r : string) (n : nat) : Prop :=
  String.length s = (n + String.length r)%nat /\ (0 < n)%nat.

Lemma skip_space_length s : (String.length (skip_space s) <= String.length s)%nat.
Proof. induction s as [|c s IH]; simpl; [lia|]. case_match; simpl; lia. Qed.

Lemma take_digits_length s : (String.length (take_digits s).2 <= String.length s)%nat.
Proof.
  induction s as [|c s IH]; simpl; [lia|]. case_match; simpl; [|lia].
  destruct (take_digits s) as [d r]. simpl in *. lia.
Qed.

Lemma some_digits_length s d r :
  some_digits s = Some (d, r) -> (String.length r < String.length s)%nat.
Proof.
  unfold some_digits. destruct s as [|c s]; [done|]. simpl.
  pose proof (take_digits_length s). destruct (is_digit c); [|done].
  destruct (take_digits s) as [d' r']. intros [= <- <-]. simpl in *. lia.
Qed.

Lemma lex_number_length s l r :
  lex_number s = Some (l, r) -> (String.length r < String.length s)%nat.
Proof.
  intros (i & s1 & f & s2 & e & Hi & Hf & Hx & _)%lex_number_parts.
  assert (String.length r <= String.length s2)%nat as Hr.
  { unfold lex_exp in Hx. destruct s2 as [|x [|y s2]]; [by injection Hx as _ <-|..];
      repeat case_match; simplify_eq; simpl; try lia;
      apply push_some in Hx as (d & Hd & _); apply some_digits_length in Hd; simpl in *; lia. }
  assert (String.length s2 <= String.length s1)%nat.
  { unfold lex_frac in Hf. destruct s1 as [|x s1]; [by injection Hf as _ <-|].
    case_match; simplify_eq; [|lia].
    apply push_some in Hf as (d & Hd & _). apply some_digits_length in Hd. simpl in *. lia. }
  assert (String.length s1 < String.length (lex_sign s).2)%nat.
  { unfold lex_int in Hi. destruct (lex_sign s).2 as [|x s0]; [done|].
    case_match; simplify_eq; [simpl; lia|]. by apply some_digits_length in Hi. }
  assert (String.length (lex_sign s).2 <= String.length s)%nat.
  { unfold lex_sign. destruct s as [|x s]; [done|]. case_match; simpl; lia. }
  lia.
Qed.

Lemma unquote_go_length k s x r :
  unquote_go k s = Some (x, r) -> (String.length r < String.length s)%nat.
Proof.
  enough (forall n s, (String.length s <= n)%nat -> forall k x r, unquote_go k s = Some (x, r) ->
    (String.length r < String.length s)%nat) as H by eauto.
  clear. intros n. induction n as [|n IH]; intros [|c s] Hn k x r H; simpl in Hn; try lia; try done.
  destruct k as [|k]; cbn [unquote_go] in H.
  2: { apply push_some in H as (y & H & _). apply IH in H; simpl; lia. }
  repeat case_match; simplify_eq; cbn [String.length] in *; try lia;
    apply push_some in H as (y & H & _); apply IH in H; cbn [String.length] in *; lia.
Qed.

Lemma cut_prefix_length p s r :
  cut_prefix p s = Some r -> String.length s = (String.length p + String.length r)%nat.
Proof. intros ->%cut_prefix_spec. apply length_app_string. Qed.

(** A reader that has succeeded consumes text and succeeds with any fuel of at
    least twice the number of bytes it has read. *)
Definition reads {A} (p : nat -> nat -> string -> option (A * string)) (f : nat) : Prop :=
  forall depth s v r, p f depth s = Some (v, r) ->
    exists n, consumed s r n /\ forall f', (2 * n <= f')%nat -> p f' depth s = Some (v, r).

Lemma value_reads f : reads parse_items f -> reads parse_members f -> reads parse_value (S f).
Proof.
  intros IHi IHm.
  intros depth s v r H. cbn [parse_value] in H.
  pose proof (skip_space_length s) as Hs. destruct (skip_space s) as [|c s1] eqn:Es; [done|].
  cbn [String.length] in Hs.
  exists (String.length s - String.length r)%nat.
  destruct (is_char "{" c) eqn:E1.
  { destruct (nested depth) as [d|] eqn:Ed; [|done].
    pose proof (skip_space_length s1) as Hs1.
    destruct (skip_space s1) as [|e s2] eqn:Es1; [done|]. cbn [String.length] in Hs1.
    destruct (is_char "}" e) eqn:E2.
    - simplify_eq. split; [unfold consumed; lia|]. intros [|f'] Hf; [lia|].
      cbn [parse_value]. by rewrite Es, E1, Ed, Es1, E2.
    - destruct (parse_members f d _) as [[l r']|] eqn:Em; [|done]. simplify_eq.
      apply IHm in Em as (n & [Hn Hpos] & Hf'). cbn [String.length] in Hn.
      split; [unfold consumed; lia|]. intros [|f'] Hf; [lia|].
      cbn [parse_value]. rewrite Es, E1, Ed, Es1, E2, Hf'; [done|lia]. }
  destruct (is_char "[" c) eqn:E3.
  { destruct (nested depth) as [d|] eqn:Ed; [|done].
    pose proof (skip_space_length s1) as Hs1.
    destruct (skip_space s1) as [|e s2] eqn:Es1; [done|]. cbn [String.length] in Hs1.
    destruct (is_char "]" e) eqn:E2.
    - simplify_eq. split; [unfold consumed; lia|]. intros [|f'] Hf; [lia|].
      cbn [parse_value]. by rewrite Es, E1, E3, Ed, Es1, E2.
    - destruct (parse_items f d _) as [[l r']|] eqn:Em; [|done]. simplify_eq.
      apply IHi in Em as (n & [Hn Hpos] & Hf'). cbn [String.length] in Hn.
      split; [unfold consumed; lia|]. intros [|f'] Hf; [lia|].
      cbn [parse_value]. rewrite Es, E1, E3, Ed, Es1, E2, Hf'; [done|lia]. }
  assert (String.length r < String.length s)%nat as Hlt.
  { repeat case_match; simplify_eq;
      repeat match goal with
      | E : unquote_go _ _ = Some _ |- _ => apply unquote_go_length in E
      | E : cut_prefix _ _ = Some _ |- _ => apply cut_prefix_length in E
      | E : lex_number _ = Some _ |- _ => apply lex_number_length in E
      end; cbn [String.length] in *; lia. }
  split; [unfold consumed; lia|]. intros [|f'] Hf; [lia|].
  cbn [parse_value]. by rewrite Es, E1, E3.
Qed.

Lemma items_reads f : reads parse_value f -> reads parse_items f -> reads parse_items (S f).
Proof.
  intros IHv IHi.
  intros depth s v r H. cbn [parse_items] in H.
  destruct (parse_value f depth s) as [[x r1]|] eqn:Ev; [|done].
  apply IHv in Ev as (n & [Hn Hpos] & Hf').
  pose proof (skip_space_length r1) as Hs. destruct (skip_space r1) as [|c r'] eqn:Es; [done|].
  cbn [String.length] in Hs.
  exists (String.length s - String.length r)%nat. destruct (is_char "," c) eqn:E1.
  + unfold item in H. destruct (parse_items f depth r') as [[l r2]|] eqn:Ei; [|done]. simplify_eq.
    apply IHi in Ei as (m & [Hm Hmpos] & Hf''). split; [unfold consumed; lia|].
    intros [|f'] Hf; [lia|]. cbn [parse_items]. rewrite Hf', Es, E1, Hf'' by lia. done.
  + destruct (is_char "]" c) eqn:E2; [|done]. simplify_eq. split; [unfold consumed; lia|].
    intros [|f'] Hf; [lia|]. cbn [parse_items]. by rewrite Hf', Es, E1, E2 by lia.
Qed.

Lemma members_reads f : reads parse_value f -> reads parse_members f -> reads parse_members (S f).
Proof.
  intros IHv IHm.
  intros depth s v r H. cbn [parse_members] in H.
  pose proof (skip_space_length s) as Hs. destruct (skip_space s) as [|q s1] eqn:Es; [done|].
  destruct (is_char dquote q) eqn:Eq; [|done].
  destruct (unquote_go 0 s1) as [[k r1]|] eqn:Eu; [|done].
  pose proof (unquote_go_length _ _ _ _ Eu) as Hu.
  pose proof (skip_space_length r1) as Hr1.
  destruct (skip_space r1) as [|e r2] eqn:Er1; [done|].
  destruct (is_char ":" e) eqn:Ee; [|done].
  destruct (parse_value f depth r2) as [[x r3]|] eqn:Ev; [|done].
  apply IHv in Ev as (n & [Hn Hpos] & Hf').
  pose proof (skip_space_length r3) as Hr3.
  destruct (skip_space r3) as [|c r4] eqn:Er3; [done|]. cbn [String.length] in *.
  exists (String.length s - String.length r)%nat. destruct (is_char "," c) eqn:E1.
  + unfold member in H. destruct (parse_members f depth r4) as [[l r5]|] eqn:Ei; [|done].
    simplify_eq. apply IHm in Ei as (m & [Hm Hmpos] & Hf''). split; [unfold consumed; lia|].
    intros [|f'] Hf; [lia|]. cbn [parse_members].
    rewrite Es, Eq, Eu, Er1, Ee, Hf', Er3, E1, Hf'' by lia. done.
  + destruct (is_char "}" c) eqn:E2; [|done]. simplify_eq. split; [unfold consumed; lia|].
    intros [|f'] Hf; [lia|]. cbn [parse_members].
    by rewrite Es, Eq, Eu, Er1, Ee, Hf', Er3, E1, E2 by lia.
Qed.

Lemma parse_reads f :
  reads parse_value f /\ reads parse_items f /\ reads parse_members f.
Proof.
  induction f as [|f (IHv & IHi & IHm)]; [by split_and!; intros ?????|].
  split_and!; [by apply value_reads|by apply items_reads|by apply members_reads].
Qed.

Lemma Decode_fuel f s v r : parse_value f 0 s = Some (v, r) -> Decode s = Ok (v, r).
Proof.
  intros H. apply (proj1 (parse_reads f)) in H as (n & [Hn _] & Hf).
  unfold Decode, fuel_of. rewrite Hf; [done|lia].
Qed.

(** ** Reading what was printed *)

Lemma nested_ok depth : (depth < max_depth)%nat -> nested depth = Some (S depth).
Proof. unfold nested. intros H%Nat.ltb_lt. by rewrite H. Qed.

(** White space only. *)
Fixpoint blank (s : string) : bool :=
  match s with EmptyString => true | String c s' => json_space c && blank s' end.

Lemma skip_blank s t : blank s = true -> skip_space (s +:+ t) = skip_space t.
Proof.
  induction s as [|c s IH]; str_simpl; [done|]. intros [-> ?]%andb_true_iff. auto.
Qed.

(** The first byte of a value. *)
Definition value_start (c : ascii) : bool :=
  negb (json_space c || is_char "]" c || is_char "}" c || is_char "," c || is_char ":" c).

Lemma number_start s : number_literal s = true ->
  exists c s', s = String c s' /\ (is_char "-" c || is_digit c) = true.
Proof.
  unfold number_literal. rewrite bool_decide_eq_true.
  intros (i & s1 & f & s2 & e & Hi & _ & _ & Hs)%lex_number_parts.
  destruct s as [|c s]; [done|]. exists c, s. split; [done|]. unfold lex_sign in Hi.
  destruct (is_char "-" c) eqn:E; [done|]. simpl in *. unfold lex_int in Hi.
  destruct (is_char "0" c) eqn:E0.
  - unfold is_char in E0. apply Z.eqb_eq in E0. unfold is_digit, between. by rewrite E0.
  - unfold some_digits in Hi. simpl in Hi. by destruct (is_digit c).
Qed.

Lemma number_chars : forall c, (is_char "-" c || is_digit c) = true ->
  json_space c = false /\ is_char "{" c = false /\ is_char "[" c = false /\
  is_char dquote c = false /\ is_char "t" c = false /\ is_char "f" c = false /\
  is_char "n" c = false.
Proof.
  intros c. pattern c. apply ascii_cases.
  intros [] [] [] [] [] [] [] []; vm_compute; intros; split_and!; congruence.
Qed.

Lemma parse_number f depth literal rest :
  number_ends rest = true -> number_literal literal = true ->
  parse_value (S f) depth (literal +:+ rest) = Some (JNumber literal, rest).
Proof.
  intros He Hl. destruct (number_start _ Hl) as (c & s & -> & Hc).
  pose proof (lex_number_app _ _ He Hl) as Hx.
  apply number_chars in Hc as (H1 & H2 & H3 & H4 & H5 & H6 & H7).
  cbn [parse_value]. rewrite str_cons_app in *. cbn [skip_space].
  by rewrite H1, H2, H3, H4, H5, H6, H7, Hx.
Qed.

Lemma parse_value_blank f depth w s :
  blank w = true -> parse_value f depth (w +:+ s) = parse_value f depth s.
Proof. intros Hw. destruct f as [|f]; [done|]. cbn [parse_value]. by rewrite skip_blank. Qed.

Lemma parse_items_blank f depth w s :
  blank w = true -> parse_items f depth (w +:+ s) = parse_items f depth s.
Proof.
  intros Hw. destruct f as [|f]; [done|]. cbn [parse_items]. by rewrite parse_value_blank.
Qed.

Lemma parse_members_blank f depth w s :
  blank w = true -> parse_members f depth (w +:+ s) = parse_members f depth s.
Proof. intros Hw. destruct f as [|f]; [done|]. cbn [parse_members]. by rewrite skip_blank. Qed.

Lemma blank_ends : forall c, json_space c = true ->
  (is_digit c || is_char "." c || is_char "e" c || is_char "E" c) = false.
Proof.
  intros c. pattern c. apply ascii_cases.
  intros [] [] [] [] [] [] [] []; vm_compute; congruence.
Qed.

Lemma number_ends_blank w c t :
  blank w = true -> number_ends (String c t) = true -> number_ends (w +:+ String c t) = true.
Proof.
  destruct w as [|b w]; [done|]. intros [Hb _]%andb_true_iff _. rewrite str_cons_app.
  unfold number_ends. by rewrite (blank_ends b Hb).
Qed.

Lemma separated_cons sep x y l :
  separated sep (x :: y :: l) = (x +:+ sep +:+ separated sep (y :: l))%string.
Proof. cbn [separated concat_map fold_right]. by rewrite !str_app_assoc. Qed.

(** A reader succeeds with all sufficiently large fuel. *)
Definition succeeds {A} (p : nat -> option A) (a : A) : Prop :=
  exists f0, forall f, (f0 <= f)%nat -> p f = Some a.

Lemma succeeds_at {A} (p : nat -> option A) a f :
  (forall g, (f <= g)%nat -> p g = Some a) -> succeeds p a.
Proof. by exists f. Qed.

(** ** Brackets *)

Lemma skip_space_idem s : skip_space (skip_space s) = skip_space s.
Proof.
  induction s as [|c s IH]; [done|]. simpl. destruct (json_space c) eqn:E; [done|].
  simpl. by rewrite E.
Qed.

Lemma parse_items_start f depth s x :
  parse_items f depth s = Some x ->
  exists e s', skip_space s = String e s' /\ is_char "]" e = false.
Proof.
  destruct f as [|[|f]]; [done..|]. cbn [parse_items parse_value].
  destruct (skip_space s) as [|e s']; [done|]. intros H. exists e, s'. split; [done|].
  destruct (is_char "]" e) eqn:E; [|done]. by apply is_char_spec in E as ->.
Qed.

Lemma parse_members_start f depth s x :
  parse_members f depth s = Some x ->
  exists e s', skip_space s = String e s' /\ is_char "}" e = false.
Proof.
  destruct f as [|f]; [done|]. cbn [parse_members].
  destruct (skip_space s) as [|e s']; [done|]. destruct (is_char dquote e) eqn:E; [|done].
  intros _. exists e, s'. by apply is_char_spec in E as ->.
Qed.

Lemma parse_array f depth s l r :
  (depth < max_depth)%nat -> parse_items f (S depth) s = Some (l, r) ->
  parse_value (S f) depth (String "[" s) = Some (JArray l, r).
Proof.
  intros Hd H. destruct (parse_items_start _ _ _ _ H) as (e & s' & Hs & He).
  cbn [parse_value]. change (skip_space (String "[" ?s)) with (String "[" s). cbn iota.
  change (is_char "{" "[") with false. change (is_char "[" "[") with true. cbn iota.
  rewrite nested_ok, Hs, He by done.
  assert (parse_items f (S depth) (String e s') = Some (l, r)) as ->; [|done].
  rewrite <- Hs. destruct f as [|[|f]]; [done..|]. cbn [parse_items parse_value] in *.
  by rewrite skip_space_idem.
Qed.

Lemma parse_object f depth s l r :
  (depth < max_depth)%nat -> parse_members f (S depth) s = Some (l, r) ->
  parse_value (S f) depth (String "{" s) = Some (JObject l, r).
Proof.
  intros Hd H. destruct (parse_members_start _ _ _ _ H) as (e & s' & Hs & He).
  cbn [parse_value]. change (skip_space (String "{" ?s)) with (String "{" s). cbn iota.
  change (is_char "{" "{") with true. cbn iota. rewrite nested_ok, Hs, He by done.
  assert (parse_members f (S depth) (String e s') = Some (l, r)) as ->; [|done].
  rewrite <- Hs. destruct f as [|f]; [done|]. cbn [parse_members] in *. by rewrite skip_space_idem.
Qed.

Section Render.
Context (nl : nat -> string) (gap : string).
Hypothesis Hnl : forall d, blank (nl d) = true.
Hypothesis Hgap : blank gap = true.

Definition colon : string := ":" +:+ gap.

(** What it means that the text of [v] is read back. *)
Definition read_back (v : json) : Prop :=
  forall depth d rest, json_ok v = true -> (depth + nesting v <= max_depth)%nat ->
    number_ends rest = true ->
    succeeds (fun f => parse_value f depth (render nl colon d v +:+ rest)) (v, rest).

Definition render_member (d : nat) (kv : string * json) : string :=
  let '(k, x) := kv in quote k +:+ colon +:+ render nl colon d x.

Lemma items_read_back depth d d' rest x items :
  Forall read_back (x :: items) -> forallb json_ok (x :: items) = true ->
  (depth + max_of (map nesting (x :: items)) <= max_depth)%nat ->
  succeeds (fun f => parse_items f depth
    (separated ("," +:+ nl d) (map (render nl colon d) (x :: items)) +:+ nl d' +:+
     String "]" rest)) (x :: items, rest).
Proof.
  revert x. induction items as [|y items IH]; intros x Hr Hok Hd; cbn [map] in *.
  - rewrite Forall_singleton in Hr. cbn in Hok, Hd. rewrite andb_true_r in Hok.
    destruct (Hr depth d (nl d' +:+ String "]" rest)%string Hok ltac:(lia)) as [f0 Hf0];
      [by apply number_ends_blank|].
    exists (S f0). intros [|f] Hf; [lia|]. cbn [parse_items separated concat_map fold_right].
    rewrite str_app_assoc, str_nil_app, Hf0 by lia. rewrite skip_blank by done. done.
  - apply Forall_cons in Hr as [Hx Hr]. cbn [forallb] in Hok. apply andb_true_iff in Hok as [Hxok Hok].
    cbn [max_of fold_right] in Hd.
    destruct (IH y Hr Hok ltac:(unfold max_of; cbn [map fold_right]; lia)) as [f1 Hf1].
    set (tail := (separated ("," +:+ nl d) (map (render nl colon d) (y :: items)) +:+ nl d' +:+
      String "]" rest)%string) in *.
    destruct (Hx depth d (String "," (nl d +:+ tail)) Hxok ltac:(lia) eq_refl) as [f0 Hf0].
    exists (S (S (f0 + f1))). intros [|f] Hf; [lia|]. cbn [parse_items].
    rewrite separated_cons, !str_app_assoc. cbn [map] in tail. fold tail.
    rewrite str_cons_app, str_nil_app, Hf0 by lia. cbn [skip_space json_space].
    change (json_space ",") with false. cbn iota. change (is_char "," ",") with true. cbn iota.
    destruct f as [|f]; [lia|]. rewrite parse_items_blank by done. by rewrite Hf1 by lia.
Qed.

Lemma parse_quoted k rest :
  valid_utf8 k = true -> unquote_go 0 (quote_go 0 k +:+ str1 dquote +:+ rest) = Some (k, rest).
Proof. intros Hk. by apply unquote_quote. Qed.

Lemma parse_member f depth k s :
  valid_utf8 k = true ->
  parse_members (S f) depth (quote k +:+ colon +:+ s) =
  match parse_value f depth s with
  | None => None
  | Some (v, r) =>
      match skip_space r with
      | EmptyString => None
      | String c r' =>
          if is_char "," c then member k v (parse_members f depth r')
          else if is_char "}" c then Some ([(k, v)], r')
          else None
      end
  end.
Proof.
  intros Hk. unfold quote, colon. rewrite !str_app_assoc, !str_cons_app.
  cbn [parse_members]. change (skip_space (String dquote ?s)) with (String dquote s). cbn iota.
  change (is_char dquote dquote) with true. cbn iota.
  rewrite str_app_assoc, parse_quoted by done. rewrite str_nil_app.
  change (skip_space (String ":" ?s)) with (String ":" s). cbn iota.
  change (is_char ":" ":") with true. cbn iota. by rewrite parse_value_blank.
Qed.

Lemma members_read_back depth d d' rest x members :
  Forall (fun kv => read_back kv.2) (x :: members) ->
  json_ok (JObject (x :: members)) = true ->
  (depth + max_of (map (fun '(_, v) => nesting v) (x :: members)) <= max_depth)%nat ->
  succeeds (fun f => parse_members f depth
    (separated ("," +:+ nl d) (map (render_member d) (x :: members)) +:+ nl d' +:+
     String "}" rest)) (x :: members, rest).
Proof.
  revert x. induction members as [|y members IH]; intros [k v] Hr Hok Hd; cbn [map] in *;
    apply Forall_cons in Hr as [Hv Hr]; cbn [json_ok forallb] in Hok;
    apply andb_true_iff in Hok as [[Hk Hvok]%andb_true_iff Hok]; cbn [max_of fold_right snd] in *.
  - destruct (Hv depth d (nl d' +:+ String "}" rest)%string Hvok ltac:(lia)) as [f0 Hf0];
      [by apply number_ends_blank|].
    exists (S f0). intros [|f] Hf; [lia|]. cbn [separated concat_map fold_right render_member].
    rewrite !str_app_assoc, str_nil_app, parse_member, Hf0 by (done || lia).
    by rewrite skip_blank.
  - destruct (IH y Hr Hok ltac:(unfold max_of; cbn [map fold_right]; lia)) as [f1 Hf1].
    set (tail := (separated ("," +:+ nl d) (map (render_member d) (y :: members)) +:+ nl d' +:+
      String "}" rest)%string) in *.
    destruct (Hv depth d (String "," (nl d +:+ tail)) Hvok ltac:(lia) eq_refl) as [f0 Hf0].
    exists (S (S (f0 + f1))). intros [|f] Hf; [lia|].
    rewrite separated_cons. cbn [render_member]. rewrite !str_app_assoc.
    cbn [map] in tail. fold tail.
    rewrite str_cons_app, str_nil_app, parse_member, Hf0 by (done || lia). cbn [skip_space].
    change (json_space ",") with false. cbn iota. change (is_char "," ",") with true. cbn iota.
    destruct f as [|f]; [lia|]. rewrite parse_members_blank by done. by rewrite Hf1 by lia.
Qed.

(** Printing and then reading a value, in any layout, gives the value. *)
Lemma render_read_back v : read_back v.
Proof.
  induction v as [|b|l|s|items IH|members IH] using json_tree_ind;
    intros depth d rest Hok Hd He; cbn [json_ok nesting] in *.
  - exists 1%nat. intros [|f] Hf; [lia|]. done.
  - exists 1%nat. intros [|f] Hf; [lia|]. by destruct b.
  - exists 1%nat. intros [|f] Hf; [lia|]. by apply parse_number.
  - exists 1%nat. intros [|f] Hf; [lia|]. cbn [render]. unfold quote.
    rewrite str_cons_app, str_app_assoc. cbn [parse_value].
    change (skip_space (String dquote ?s)) with (String dquote s). cbn iota.
    change (is_char "{" dquote) with false. change (is_char "[" dquote) with false.
    change (is_char dquote dquote) with true. cbn iota. by rewrite parse_quoted.
  - destruct items as [|x items].
    { exists 1%nat. intros [|f] Hf; [lia|]. cbn. by rewrite nested_ok by lia. }
    destruct (items_read_back (S depth) (S d) d rest x items IH Hok ltac:(lia)) as [f0 Hf0].
    exists (S f0). intros [|f] Hf; [lia|].
    change (render nl colon d (JArray (x :: items))) with ("[" +:+ nl (S d) +:+
      separated ("," +:+ nl (S d)) (map (render nl colon (S d)) (x :: items)) +:+
      nl d +:+ "]")%string.
    rewrite !str_app_assoc, str_cons_app, str_nil_app. apply parse_array; [lia|].
    rewrite parse_items_blank by done. apply Hf0. lia.
  - destruct members as [|x members].
    { exists 1%nat. intros [|f] Hf; [lia|]. cbn. by rewrite nested_ok by lia. }
    destruct (members_read_back (S depth) (S d) d rest x members IH Hok ltac:(lia)) as [f0 Hf0].
    exists (S f0). intros [|f] Hf; [lia|].
    change (render nl colon d (JObject (x :: members))) with ("{" +:+ nl (S d) +:+
      separated ("," +:+ nl (S d)) (map (render_member (S d)) (x :: members)) +:+
      nl d +:+ "}")%string.
    rewrite !str_app_assoc, str_cons_app, str_nil_app. apply parse_object; [lia|].
    rewrite parse_members_blank by done. apply Hf0. lia.
Qed.

Lemma Decode_render v d rest :
  json_ok v = true -> (nesting v <= max_depth)%nat -> number_ends rest = true ->
  Decode (render nl colon d v +:+ rest) = Ok (v, rest).
Proof.
  intros Hok Hd He. destruct (render_read_back v 0%nat d rest Hok Hd He) as [f Hf].
  apply (Decode_fuel f). by apply Hf.
Qed.

End Render.

Lemma indentation_blank d : blank (String newline (indentation d)) = true.
Proof. simpl. induction d as [|d IH]; [done|]. exact IH. Qed.

Lemma Unmarshal_render nl gap v d :
  (forall i, blank (nl i) = true) -> blank gap = true ->
  json_ok v = true -> (nesting v <= max_depth)%nat ->
  Unmarshal (render nl (colon gap) d v) = Ok v.
Proof.
  intros Hnl Hgap Hok Hd. unfold Unmarshal.
  rewrite <- (str_app_nil (render _ _ _ _)), Decode_render by done. done.
Qed.

(** [Unmarshal] reads back what [Marshal] and [MarshalIndent] write. *)
Lemma Unmarshal_Marshal v :
  json_ok v = true -> (nesting v <= max_depth)%nat -> Unmarshal (Marshal v) = Ok v.
Proof. intros Hok Hd. by apply (Unmarshal_render (fun _ => ""%string) ""). Qed.

Lemma Unmarshal_MarshalIndent v :
  json_ok v = true -> (nesting v <= max_depth)%nat -> Unmarshal (MarshalIndent v) = Ok v.
Proof.
  intros Hok Hd. apply (Unmarshal_render (fun d => String newline (indentation d)) " "); try done.
  apply indentation_blank.
Qed.

(** ** Integers *)

Lemma take_all_digits s : all_chars is_digit s = true -> take_digits s = (s, ""%string).
Proof.
  induction s as [|c s IH]; [done|]. cbn [all_chars take_digits].
  intros [-> Hs]%andb_true_iff. by rewrite IH.
Qed.

Lemma digits_no_minus : forall c, is_digit c = true -> is_char "-" c = false.
Proof.
  intros c. pattern c. apply ascii_cases.
  intros [] [] [] [] [] [] [] []; vm_compute; congruence.
Qed.

Lemma number_literal_int z : number_literal (FormatInt z) = true.
Proof.
  assert (forall n, lex_int (FormatUint n) = Some (FormatUint n, ""%string)) as Hint.
  { intros n. destruct (FormatUint_digits n) as [Hd Hne].
    destruct (FormatUint_first n) as [->|(c & s & Hs & Hc & H0)]; [done|]. rewrite Hs in *.
    unfold lex_int. destruct (is_char "0" c) eqn:E; [by apply is_char_spec in E|].
    unfold some_digits. by rewrite take_all_digits. }
  unfold number_literal. apply bool_decide_eq_true_2, lex_number_parts. unfold FormatInt.
  destruct (z <? 0) eqn:E.
  - exists (FormatUint (- z)), ""%string, ""%string, ""%string, ""%string.
    split_and!; [apply Hint|done..|]. by rewrite !str_app_nil.
  - exists (FormatUint z), ""%string, ""%string, ""%string, ""%string.
    assert (lex_sign (FormatUint z) = (""%string, FormatUint z)) as ->.
    { destruct (FormatUint_digits z) as [Hd Hne]. destruct (FormatUint z) as [|c s]; [done|].
      cbn [all_chars] in Hd. apply andb_true_iff in Hd as [Hc _]. unfold lex_sign.
      by rewrite digits_no_minus. }
    split_and!; [apply Hint|done..|]. cbn [fst]. by rewrite !str_app_nil.
Qed.

Lemma decode_int64_JInt z old : - 2 ^ 63 <= z < 2 ^ 63 -> decode_int64 (JInt z) old = Ok z.
Proof. intros Hz. simpl. by rewrite ParseInt_FormatInt. Qed.

Lemma json_ok_JInt z : json_ok (JInt z) = true.
Proof. apply number_literal_int. Qed.

(** ** What is read is valid UTF-8 *)

Lemma code_chr z : 0 <= z < 256 -> code (chr z) = z.
Proof. intros Hz. unfold code, chr. rewrite N_ascii_embedding; lia. Qed.

Lemma rune_tail_0 c s : code c < 0x80 -> rune_tail c s = Some 0%nat.
Proof. intros H%Z.ltb_lt. unfold rune_tail. by rewrite H. Qed.

Lemma between_true lo hi c : lo <= code c <= hi -> between lo hi c = true.
Proof. intros H. unfold between. apply andb_true_iff. rewrite !Z.leb_le. lia. Qed.

Lemma between_false lo hi c : code c < lo \/ hi < code c -> between lo hi c = false.
Proof. intros H. unfold between. apply andb_false_iff. rewrite !Z.leb_gt. lia. Qed.

Lemma cont_chr r : cont (chr (0x80 + r mod 64)) = true.
Proof. pose proof (Z.mod_pos_bound r 64). apply between_true. rewrite code_chr; lia. Qed.

Lemma valid_cont c k s : valid_utf8_go (S k) (String c s) = valid_utf8_go k s.
Proof. done. Qed.

Ltac bytes_lia := unfold lead3, lead4, cont, between;
  rewrite ?orb_true_iff, ?andb_true_iff, ?Z.leb_le, ?Z.eqb_eq, ?code_chr by lia; lia.

Lemma valid_2 a b s :
  2 <= a < 32 -> 0 <= b < 64 ->
  valid_utf8_go 0 (String (chr (0xC0 + a)) (String (chr (0x80 + b)) s)) = valid_utf8_go 0 s.
Proof.
  intros Ha Hb. cbn [valid_utf8_go]. unfold rune_tail.
  rewrite code_chr, (proj2 (Z.ltb_ge _ _)) by lia.
  assert (between 0xC2 0xDF (chr (0xC0 + a)) && cont (chr (0x80 + b)) = true) as -> by bytes_lia.
  done.
Qed.

Lemma valid_3 a b c s :
  0 <= a < 16 -> 0 <= b < 64 -> 0 <= c < 64 -> (a = 0 -> 32 <= b) -> (a = 13 -> b < 32) ->
  valid_utf8_go 0 (String (chr (0xE0 + a)) (String (chr (0x80 + b)) (String (chr (0x80 + c)) s)))
  = valid_utf8_go 0 s.
Proof.
  intros Ha Hb Hc H0 H13. cbn [valid_utf8_go]. unfold rune_tail.
  rewrite code_chr, (proj2 (Z.ltb_ge _ _)), between_false by (rewrite ?code_chr by lia; lia). simpl andb.
  assert (lead3 (chr (0xE0 + a)) (chr (0x80 + b)) && cont (chr (0x80 + c)) = true) as -> by bytes_lia.
  done.
Qed.

Lemma valid_4 a b c d s :
  0 <= a < 5 -> 0 <= b < 64 -> 0 <= c < 64 -> 0 <= d < 64 -> (a = 0 -> 16 <= b) ->
  (a = 4 -> b < 16) ->
  valid_utf8_go 0 (String (chr (0xF0 + a)) (String (chr (0x80 + b)) (String (chr (0x80 + c))
    (String (chr (0x80 + d)) s)))) = valid_utf8_go 0 s.
Proof.
  intros Ha Hb Hc Hd H0 H4. cbn [valid_utf8_go]. unfold rune_tail.
  rewrite code_chr, (proj2 (Z.ltb_ge _ _)), between_false by (rewrite ?code_chr by lia; lia). simpl andb.
  assert (lead3 (chr (0xF0 + a)) (chr (0x80 + b)) = false) as ->.
  { unfold lead3. rewrite (between_false 0xE1 0xEC), (between_false 0xEE 0xEF)
      by (rewrite code_chr by lia; lia). rewrite !(code_chr (0xF0 + a)) by lia.
    rewrite !(proj2 (Z.eqb_neq _ _)) by lia. done. }
  simpl andb.
  assert (lead4 (chr (0xF0 + a)) (chr (0x80 + b)) && cont (chr (0x80 + c)) &&
    cont (chr (0x80 + d)) = true) as -> by bytes_lia.
  done.
Qed.

Lemma encode_rune_valid r s :
  0 <= r < 0x110000 -> is_surrogate r = false ->
  valid_utf8_go 0 (encode_rune r +:+ s) = valid_utf8_go 0 s.
Proof.
  unfold is_surrogate. rewrite andb_false_iff, Z.leb_gt, Z.ltb_ge. intros Hr Hs.
  pose proof (Z.mod_pos_bound r 64 eq_refl). pose proof (Z.mod_pos_bound (r / 64) 64 eq_refl).
  pose proof (Z.mod_pos_bound (r / 64 / 64) 64 eq_refl).
  pose proof (Z.div_mod r 64 ltac:(done)) as D1. pose proof (Z.div_mod (r / 64) 64 ltac:(done)) as D2.
  pose proof (Z.div_mod (r / 64 / 64) 64 ltac:(done)) as D3.
  assert (r / 4096 = r / 64 / 64) as E4 by (by rewrite Z.div_div).
  assert (r / 262144 = r / 64 / 64 / 64) as E5 by (by rewrite !Z.div_div).
  unfold encode_rune. rewrite E4, E5. clear E4 E5. revert D1 D2 D3 H H0 H1.
  generalize (r mod 64) (r / 64 mod 64) (r / 64 / 64 mod 64) (r / 64 / 64 / 64).
  generalize (r / 64 / 64) (r / 64). intros q2 q1 c b a q3 D1 D2 D3 Hc Hb Ha.
  destruct (r <? 0x80) eqn:E1; [apply Z.ltb_lt in E1|apply Z.ltb_ge in E1].
  { unfold str1. str_simpl. cbn [valid_utf8_go]. rewrite rune_tail_0; [done|]. rewrite code_chr; lia. }
  destruct (r <? 0x800) eqn:E2; [apply Z.ltb_lt in E2|apply Z.ltb_ge in E2].
  { unfold str1. rewrite !str_cons_app, str_nil_app. apply valid_2; lia. }
  destruct (r <? 0x10000) eqn:E3; [apply Z.ltb_lt in E3|apply Z.ltb_ge in E3].
  { unfold str1. rewrite !str_cons_app, str_nil_app. apply valid_3; lia. }
  unfold str1. rewrite !str_cons_app, str_nil_app. apply valid_4; lia.
Qed.

Lemma hex4_range a b c d r : hex4 a b c d = Some r -> 0 <= r < 0x10000.
Proof.
  unfold hex4. intros H.
  destruct (hex_value a) eqn:Ea, (hex_value b) eqn:Eb, (hex_value c) eqn:Ec, (hex_value d) eqn:Ed;
    try done.
  apply hex_value_bound in Ea, Eb, Ec, Ed. injection H as <-. lia.
Qed.

Lemma decode_pair_range r1 r2 r :
  decode_pair r1 r2 = Some r -> 0 <= r < 0x110000 /\ is_surrogate r = false.
Proof.
  unfold decode_pair, is_surrogate. intros H. case_match eqn:E; [|done]. injection H as <-.
  rewrite !andb_true_iff, !Z.leb_le, !Z.ltb_lt in E.
  rewrite andb_false_iff, Z.leb_gt, Z.ltb_ge. lia.
Qed.

Lemma unescape_facts : forall c,
  match unescape c with Some x => code x <? 0x80 | None => true end = true.
Proof. all_ascii. Qed.

Lemma unescape_ascii c x : unescape c = Some x -> code x < 0x80.
Proof. intros E. pose proof (unescape_facts c) as H. rewrite E in H. by apply Z.ltb_lt. Qed.

(** Reading a string leaves the bytes of a rune as they are. *)
Lemma rune_tail_unquote c s n x r :
  rune_tail c s = Some n -> unquote_go n s = Some (x, r) -> rune_tail c x = Some n.
Proof.
  unfold rune_tail. destruct (code c <? 0x80); [done|]. intros H Hu.
  destruct s as [|d [|e [|f s]]];
    repeat match type of H with context [if ?b then _ else _] => destruct b eqn:? end;
    simplify_eq H; intros <-; cbn [unquote_go] in Hu;
    repeat match goal with
    | Hp : push _ _ = Some _ |- _ => apply push_some in Hp as (? & Hp & ->)
    end; unfold str1; rewrite ?str_cons_app, ?str_nil_app;
    repeat match goal with E : _ = _ |- _ => rewrite E; clear E end; done.
Qed.

(** Every string that the parser returns is valid UTF-8. *)
Lemma unquote_valid k s x r : unquote_go k s = Some (x, r) -> valid_utf8_go k x = true.
Proof.
  enough (forall n s, (String.length s <= n)%nat -> forall k x r, unquote_go k s = Some (x, r) ->
    valid_utf8_go k x = true) as H by eauto.
  clear. intros n. induction n as [|n IH]; intros [|c s] Hn k x r H; simpl in Hn; try lia; try done.
  destruct k as [|k]; cbn [unquote_go] in H.
  2: { apply push_some in H as (y & H & ->). apply IH in H; [|lia]. exact H. }
  assert (valid_utf8_go 0 replacement = true) as Hrep by reflexivity.
  destruct (is_char dquote c); [by injection H as <- <-|].
  assert (forall q r0 t, push (encode_rune q) (unquote_go 0 t) = Some (x, r0) ->
    (String.length t <= n)%nat -> 0 <= q < 0x110000 -> is_surrogate q = false ->
    valid_utf8_go 0 x = true) as Hrune.
  { intros q r0 t (y & Hy & ->)%push_some Ht Hq Hs. rewrite encode_rune_valid by done.
    by eapply IH. }
  assert (is_surrogate 0xFFFD = false) as Hfffd by reflexivity.
  unfold replacement in *.
  destruct (is_char backslash c).
  - destruct s as [|e s1]; [done|]. cbn [String.length] in *. destruct (is_char "u" e).
    + destruct s1 as [|h1 [|h2 [|h3 [|h4 s5]]]]; try done. cbn [String.length] in *.
      destruct (hex4 h1 h2 h3 h4) as [q|] eqn:Eq; [|done]. apply hex4_range in Eq.
      destruct (is_surrogate q) eqn:Es; [|eapply Hrune; [exact H|lia|lia|done]].
      destruct s5 as [|b [|u [|i1 [|i2 [|i3 [|i4 s11]]]]]];
        try (eapply Hrune; [exact H|cbn [String.length] in *; lia|lia|done]).
      destruct (_ && _); [|eapply Hrune; [exact H|cbn [String.length] in *; lia|lia|done]].
      destruct (hex4 i1 i2 i3 i4 ≫= decode_pair q) as [q'|] eqn:Ep.
      * apply bind_Some in Ep as (q2 & _ & Hp). apply decode_pair_range in Hp as [Hr' Hs'].
        eapply Hrune; [exact H|cbn [String.length] in *; lia|done|done].
      * eapply Hrune; [exact H|cbn [String.length] in *; lia|lia|done].
    + destruct (unescape e) as [y|] eqn:Ey; [|done]. apply unescape_ascii in Ey.
      apply push_some in H as (z & H & ->). apply IH in H; [|lia].
      unfold str1. rewrite str_cons_app, str_nil_app. cbn [valid_utf8_go]. by rewrite rune_tail_0.
  - destruct (code c <? 32); [done|]. destruct (rune_tail c s) as [m|] eqn:Em.
    + apply push_some in H as (z & H & ->). unfold str1. rewrite str_cons_app, str_nil_app.
      cbn [valid_utf8_go]. rewrite (rune_tail_unquote _ _ _ _ _ Em H). apply IH in H; [done|lia].
    + eapply Hrune; [exact H|lia|lia|done].
Qed.

(** Every string and key of the tree is valid UTF-8. *)
Fixpoint strings_ok (v : json) : bool :=
  match v with
  | JString s => valid_utf8 s
  | JArray items => forallb strings_ok items
  | JObject members => forallb (fun '(k, x) => valid_utf8 k && strings_ok x) members
  | _ => true
  end.

Lemma parse_strings_ok f :
  (forall depth s v r, parse_value f depth s = Some (v, r) -> strings_ok v = true) /\
  (forall depth s l r, parse_items f depth s = Some (l, r) -> forallb strings_ok l = true) /\
  (forall depth s l r, parse_members f depth s = Some (l, r) ->
    strings_ok (JObject l) = true).
Proof.
  induction f as [|f (IHv & IHi & IHm)]; [done|]. split_and!; intros depth s v r H.
  - cbn [parse_value] in H. destruct (skip_space s) as [|c s1]; [done|].
    destruct (is_char "{" c).
    { destruct (nested depth); [|done]. destruct (skip_space s1); [done|].
      destruct (is_char "}" _); [by simplify_eq|].
      destruct (parse_members f _ _) as [[l r']|] eqn:E; [|done]. simplify_eq. by eapply IHm. }
    destruct (is_char "[" c).
    { destruct (nested depth); [|done]. destruct (skip_space s1); [done|].
      destruct (is_char "]" _); [by simplify_eq|].
      destruct (parse_items f _ _) as [[l r']|] eqn:E; [|done]. simplify_eq. by eapply IHi. }
    repeat case_match; simplify_eq; try done. by eapply unquote_valid.
  - cbn [parse_items] in H. destruct (parse_value f depth s) as [[x r1]|] eqn:Ev; [|done].
    apply IHv in Ev. destruct (skip_space r1); [done|]. destruct (is_char "," _).
    + destruct (parse_items f depth _) as [[l r2]|] eqn:Ei; [|done]. simpl in H. simplify_eq.
      apply IHi in Ei. simpl. by rewrite Ev.
    + destruct (is_char "]" _); [|done]. simplify_eq. simpl. by rewrite Ev.
  - cbn [parse_members] in H. destruct (skip_space s) as [|q s1]; [done|].
    destruct (is_char dquote q); [|done].
    destruct (unquote_go 0 s1) as [[k r1]|] eqn:Eu; [|done]. apply unquote_valid in Eu.
    destruct (skip_space r1) as [|e r2]; [done|]. destruct (is_char ":" e); [|done].
    destruct (parse_value f depth r2) as [[x r3]|] eqn:Ev; [|done]. apply IHv in Ev.
    destruct (skip_space r3) as [|c r4]; [done|]. destruct (is_char "," c).
    + destruct (parse_members f depth r4) as [[l r5]|] eqn:Ei; [|done]. simpl in H. simplify_eq.
      apply IHm in Ei. cbn [strings_ok forallb] in *. unfold valid_utf8. by rewrite Eu, Ev.
    + destruct (is_char "}" c); [|done]. simplify_eq. cbn [strings_ok forallb].
      unfold valid_utf8. by rewrite Eu, Ev.
Qed.

Lemma Decode_strings_ok s v r : Decode s = Ok (v, r) -> strings_ok v = true.
Proof.
  unfold Decode. destruct (parse_value _ _ s) as [[v' r']|] eqn:E; [|done]. intros [= -> ->].
  by eapply (proj1 (parse_strings_ok _)).
Qed.

Lemma Unmarshal_strings_ok s v : Unmarshal s = Ok v -> strings_ok v = true.
Proof.
  unfold Unmarshal. intros ([v' rest] & Hd & H)%bind_ok. apply guard_ok in H as [_ H].
  injection H as <-. by eapply Decode_strings_ok.
Qed.

Lemma string_field_valid name ms t :
  strings_ok (JObject ms) = true -> string_field name "" ms = Ok t -> valid_utf8 t = true.
Proof.
  unfold string_field, field. generalize (eq_refl (valid_utf8 "")).
  change (valid_utf8 "") with true at 2. generalize ""%string. induction ms as [|[k x] ms IH];
    intros z Hz Hok H; cbn [foldM] in H; [by injection H as <-|].
  cbn [strings_ok forallb] in Hok. apply andb_true_iff in Hok as [[_ Hx]%andb_true_iff Hok].
  destruct (key_matches name k); [|by eapply IH].
  destruct x; cbn [decode_string] in H; try done; eapply IH; eauto.
Qed.

Lemma int64_field_range name ms z :
  int64_field name 0 ms = Ok z -> - 2 ^ 63 <= z < 2 ^ 63.
Proof.
  enough (forall y, - 2 ^ 63 <= y < 2 ^ 63 -> int64_field name y ms = Ok z ->
    - 2 ^ 63 <= z < 2 ^ 63) as H by (by apply H).
  unfold int64_field, field. induction ms as [|[k x] ms IH]; intros y Hy H; cbn [foldM] in H.
  { by injection H as <-. }
  destruct (key_matches name k); [|by eapply IH].
  destruct x; cbn [decode_int64] in H; try done; [by eapply IH|].
  destruct (ParseInt _) as [i|] eqn:E; [|done]. eapply IH; [|exact H].
  unfold ParseInt in E. destruct (big_SetString _); [|done]. case_match eqn:Er; [|done].
  injection E as <-. rewrite andb_true_iff, Z.leb_le, Z.ltb_lt in Er. lia.
Qed.

(** ** Reading printed structs *)

Section Fields.
Context {T : Type} (decode : json -> T -> result T).

Lemma field_nil name zero : field decode name zero [] = Ok zero.
Proof. done. Qed.

Lemma field_skip name zero k x ms :
  key_matches name k = false -> field decode name zero ((k, x) :: ms) = field decode name zero ms.
Proof. intros E. unfold field. cbn [foldM]. by rewrite E. Qed.

Lemma field_take name zero k x ms :
  key_matches name k = true ->
  field decode name zero ((k, x) :: ms) = (let? v := decode x zero in field decode name v ms).
Proof. intros E. unfold field. cbn [foldM]. by rewrite E. Qed.
End Fields.

(** Evaluates the fields of a printed struct. *)
Ltac read_fields :=
  unfold string_field, bool_field, int64_field, uint64_field,
    text_member, int_member, bool_member;
  repeat first
    [ rewrite field_nil
    | rewrite field_skip by reflexivity
    | rewrite field_take by reflexivity; cbn [decode_string decode_bool]
    | rewrite decode_int64_JInt by lia ].

Lemma decode_uint64_JInt z old : 0 <= z < 2 ^ 64 -> decode_uint64 (JInt z) old = Ok z.
Proof.
  intros Hz. unfold JInt, FormatInt. cbn [decode_uint64].
  rewrite (proj2 (Z.ltb_ge z 0)) by lia. by rewrite ParseUint_FormatUint.
Qed.

(** ** Structs with omitted members *)

Definition members_of (l : list (string * option json)) : list (string * json) :=
  omap (fun '(k, o) => pair k <$> o) l.

Definition unless_empty (v : string) : option json :=
  if decide (v = ""%string) then None else Some (JString v).

Lemma members_of_app l l' : members_of (l ++ l') = members_of l ++ members_of l'.
Proof. apply omap_app. Qed.

Lemma members_of_text k v : text_unless_empty k v = members_of [(k, unless_empty v)].
Proof. unfold text_unless_empty, unless_empty. by case_decide. Qed.

Lemma members_of_some k x ms l : ms = members_of l -> (k, x) :: ms = members_of ((k, Some x) :: l).
Proof. by intros ->. Qed.

Definition unique_key (name : string) (keys : list string) : bool :=
  bool_decide (filter (fun k => key_matches name k = true) keys = [name]).

Section Members.
Context {T : Type} (decode : json -> T -> result T).

Lemma field_members_none name zero l :
  filter (fun k => key_matches name k = true) (map fst l) = [] ->
  field decode name zero (members_of l) = Ok zero.
Proof.
  induction l as [|[k [x|]] l IH]; [done|..]; cbn [map fst filter].
  - rewrite filter_cons. destruct (decide _) as [|E]; [done|]. intros H.
    change (members_of ((k, Some x) :: l)) with ((k, x) :: members_of l).
    apply not_true_iff_false in E. rewrite field_skip by done. by apply IH.
  - rewrite filter_cons. destruct (decide _); [done|]. apply IH.
Qed.

(** The only member that a field can come from. *)
Lemma field_members name zero l o :
  unique_key name (map fst l) = true -> (name, o) ∈ l ->
  field decode name zero (members_of l) =
    match o with Some x => decode x zero | None => Ok zero end.
Proof.
  unfold unique_key. rewrite bool_decide_eq_true. revert zero.
  assert (key_matches name name = true) as Hn by (by apply bool_decide_eq_true_2).
  induction l as [|[k v] l IH]; intros zero Hu Hin; [by apply elem_of_nil in Hin|].
  cbn [map fst] in Hu. rewrite filter_cons in Hu. destruct (decide _) as [E|E].
  - injection Hu as -> Hu. apply elem_of_cons in Hin as [Hin|Hin].
    + injection Hin as <-. destruct o as [x|].
      * change (members_of ((name, Some x) :: l)) with ((name, x) :: members_of l).
        rewrite field_take by done. destruct (decode x zero); [|done]. by apply field_members_none.
      * exact (field_members_none name zero l Hu).
    + exfalso. assert (name ∈ filter (fun k => key_matches name k = true) (map fst l)) as H;
        [|rewrite Hu in H; by apply elem_of_nil in H].
      apply list_elem_of_filter. split; [done|]. apply list_elem_of_fmap. by exists (name, o).
  - apply elem_of_cons in Hin as [Hin|Hin]; [by injection Hin as <- ->|].
    apply not_true_iff_false in E. rewrite <- (IH zero) by done. destruct v as [x|]; [|done].
    change (members_of ((k, Some x) :: l)) with ((k, x) :: members_of l). by rewrite field_skip.
Qed.
End Members.

(** ** Printed texts have no control characters *)

Definition graphic (c : ascii) : bool := negb (code c <? 32).

Fixpoint graphic_head (k : nat) (s : string) : bool :=
  match k, s with
  | S k', String c s' => graphic c && graphic_head k' s'
  | _, _ => true
  end.

Lemma between_graphic lo hi c : 32 <= lo -> between lo hi c = true -> graphic c = true.
Proof. unfold between, graphic. intros. bool_prop. apply negb_true_iff, Z.ltb_ge. lia. Qed.

Lemma rune_tail_graphic c s n : rune_tail c s = Some n -> graphic_head n s = true.
Proof.
  assert (forall d, cont d = true -> graphic d = true) as Hc by (intros d; by apply between_graphic).
  assert (forall d, lead3 c d = true -> graphic d = true) as H3.
  { intros d. unfold lead3. rewrite !orb_true_iff, !andb_true_iff.
    intros [[[_ H]|[_ H]]|[_ H]]; [|by apply Hc|]; (eapply between_graphic; [|exact H]); lia. }
  assert (forall d, lead4 c d = true -> graphic d = true) as H4.
  { intros d. unfold lead4. rewrite !orb_true_iff, !andb_true_iff.
    intros [[[_ H]|[_ H]]|[_ H]]; [|by apply Hc|]; (eapply between_graphic; [|exact H]); lia. }
  unfold rune_tail. intros H.
  repeat case_match; simplify_eq; bool_prop; cbn [graphic_head]; rewrite ?andb_true_r, ?andb_true_iff; auto.
Qed.

Lemma escape_graphic : forall c e, escape c = Some e -> all_chars graphic e = true.
Proof.
  intros c. pattern c. apply ascii_cases.
  intros [] [] [] [] [] [] [] [] e He; vm_compute in He; try discriminate;
    injection He as <-; reflexivity.
Qed.
Lemma unescaped_graphic : forall c, escape c = None -> graphic c = true.
Proof.
  intros c. pattern c. apply ascii_cases.
  intros [] [] [] [] [] [] [] [] He; vm_compute in He; try discriminate; reflexivity.
Qed.

Lemma graphic_high c : (code c <? 0x80) = false -> graphic c = true.
Proof. unfold graphic. intros H%Z.ltb_ge. apply negb_true_iff, Z.ltb_ge. lia. Qed.

Lemma hex_digit_graphic : forall e : ascii, graphic (hex_digit (N_of_ascii e mod 16)) = true.
Proof. all_ascii. Qed.

Lemma quote_go_graphic k s :
  graphic_head k s = true -> all_chars graphic (quote_go k s) = true.
Proof.
  enough (forall n s, (String.length s <= n)%nat -> forall k, graphic_head k s = true ->
    all_chars graphic (quote_go k s) = true) as H by eauto.
  clear. intros n. induction n as [|n IH]; intros [|c s] Hn k Hg; simpl in Hn; try lia; try done.
  destruct k as [|k]; cbn [quote_go graphic_head] in *.
  2: { bool_prop. cbn [all_chars]. rewrite andb_true_iff. split; [done|]. apply IH; [lia|done]. }
  assert (all_chars graphic (quote_go 0 s) = true) as H0 by (apply IH; [lia|by destruct s]).
  destruct (code c <? 0x80) eqn:Ec.
  - destruct (escape c) as [e|] eqn:Ee.
    + rewrite all_chars_app, andb_true_iff. split; [by eapply escape_graphic|done].
    + cbn [all_chars]. rewrite andb_true_iff. split; [by apply unescaped_graphic|done].
  - destruct (rune_tail c s) as [m|] eqn:Er; [|done].
    assert (all_chars graphic (String c (quote_go m s)) = true) as Hraw.
    { cbn [all_chars]. rewrite andb_true_iff. split; [by apply graphic_high|].
      apply IH; [lia|]. by eapply rune_tail_graphic. }
    destruct s as [|d [|e s3]]; [exact Hraw..|].
    destruct (line_separator c d e); [|exact Hraw].
    change (all_chars graphic ("\u202" +:+
      String (hex_digit (N_of_ascii e mod 16)) (quote_go 0 s3)) = true).
    rewrite all_chars_app. change (all_chars graphic "\u202") with true. cbn [andb all_chars].
    rewrite hex_digit_graphic. apply IH; [cbn in Hn; lia|by destruct s3].
Qed.

Lemma quote_graphic s : all_chars graphic (quote s) = true.
Proof.
  unfold quote. cbn [all_chars]. rewrite all_chars_app, quote_go_graphic by by destruct s. done.
Qed.

Lemma digit_graphic : forall c, is_digit c = true -> graphic c = true.
Proof. all_ascii. Qed.

Lemma take_digits_graphic s : all_chars graphic (take_digits s).1 = true.
Proof.
  induction s as [|c s IH]; [done|]. cbn [take_digits]. destruct (is_digit c) eqn:E; [|done].
  destruct (take_digits s) as [d r]. cbn in *. by rewrite (digit_graphic _ E).
Qed.

Lemma some_digits_graphic s d r : some_digits s = Some (d, r) -> all_chars graphic d = true.
Proof.
  unfold some_digits. pose proof (take_digits_graphic s) as H.
  destruct (take_digits s) as [[|] ]; [done|]. by intros [= <- _].
Qed.

Lemma is_char_graphic x c : is_char x c = true -> graphic x = true -> graphic c = true.
Proof. unfold is_char, graphic. by intros ->%Z.eqb_eq. Qed.

Lemma push_graphic t o s r :
  push t o = Some (s, r) -> all_chars graphic t = true ->
  (forall d r', o = Some (d, r') -> all_chars graphic d = true) -> all_chars graphic s = true.
Proof.
  intros (s' & -> & ->)%push_some Ht Ho. rewrite all_chars_app, Ht. by eapply Ho.
Qed.

Lemma lex_number_graphic s l r : lex_number s = Some (l, r) -> all_chars graphic l = true.
Proof.
  unfold lex_number. destruct (lex_sign s) as [sign s0] eqn:E0.
  destruct (lex_int s0) as [[i s1]|] eqn:E1; [|done].
  destruct (lex_frac s1) as [[f s2]|] eqn:E2; [|done].
  destruct (lex_exp s2) as [[e s3]|] eqn:E3; [|done]. intros [= <- _].
  rewrite !all_chars_app, !andb_true_iff. split_and!.
  - unfold lex_sign in E0. destruct s as [|c s']; [by injection E0 as <- _|].
    destruct (is_char "-" c) eqn:Ec; injection E0 as <- _; [|done].
    cbn. by rewrite (is_char_graphic _ _ Ec).
  - unfold lex_int in E1. destruct s0 as [|c s']; [done|].
    destruct (is_char "0" c) eqn:Ec; [|by eapply some_digits_graphic].
    injection E1 as <- _. cbn. by rewrite (is_char_graphic _ _ Ec).
  - unfold lex_frac in E2. destruct s1 as [|c s']; [by injection E2 as <- _|].
    destruct (is_char "." c) eqn:Ec; [|by injection E2 as <- _].
    eapply push_graphic; [done| |apply some_digits_graphic]. cbn. by rewrite (is_char_graphic _ _ Ec).
  - unfold lex_exp in E3. destruct s2 as [|c s']; [by injection E3 as <- _|].
    destruct (is_char "e" c || is_char "E" c) eqn:Ec; [|by injection E3 as <- _].
    assert (graphic c = true) as Hc
      by (apply orb_true_iff in Ec as [Ec|Ec]; by rewrite (is_char_graphic _ _ Ec)).
    destruct s' as [|g s'']; [done|]. destruct (is_char "+" g || is_char "-" g) eqn:Eg.
    + eapply push_graphic; [done| |apply some_digits_graphic].
      rewrite all_chars_app. cbn. rewrite Hc. cbn.
      apply orb_true_iff in Eg as [Eg|Eg]; by rewrite (is_char_graphic _ _ Eg).
    + eapply push_graphic; [done| |apply some_digits_graphic]. cbn. by rewrite Hc.
Qed.

Lemma separated_graphic sep l :
  all_chars graphic sep = true -> Forall (fun s => all_chars graphic s = true) l ->
  all_chars graphic (separated sep l) = true.
Proof.
  intros Hs Hl. destruct Hl as [|x l Hx Hl]; [done|]. cbn [separated].
  rewrite all_chars_app, Hx. cbn [andb].
  induction Hl as [|y l Hy Hl IH]; [done|]. unfold concat_map in *. cbn [fold_right].
  rewrite !all_chars_app, Hs, Hy. done.
Qed.

Lemma Forall_impl_in {A} (P Q : A -> Prop) l :
  Forall P l -> (forall x, x ∈ l -> P x -> Q x) -> Forall Q l.
Proof. rewrite !list.Forall_forall. naive_solver. Qed.

(** [Marshal] prints one line. *)
Lemma Marshal_graphic v : json_ok v = true -> all_chars graphic (Marshal v) = true.
Proof.
  unfold Marshal. generalize 0%nat as d. induction v as [|[]|l|s|items IH|members IH] using json_tree_ind;
    intros d Hok; try done.
  - cbn in *. unfold number_literal in Hok. bool_prop. by eapply lex_number_graphic.
  - apply quote_graphic.
  - cbn [json_ok] in Hok. destruct items as [|x items]; [done|].
    set (l := x :: items) in *. change (render _ _ _ _) with
      ("[" +:+ "" +:+ separated ("," +:+ "") (map (render (fun _ => ""%string) ":" (S d)) l) +:+ "" +:+ "]")%string.
    rewrite !all_chars_app, separated_graphic; [done..|].
    apply List.Forall_map. rewrite forallb_forall in Hok.
    eapply Forall_impl_in; [exact IH|]. intros y Hy Hyd. apply Hyd, Hok. by apply list_elem_of_In.
  - cbn [json_ok] in Hok. destruct members as [|x members]; [done|].
    set (l := x :: members) in *. change (render _ _ _ _) with
      ("{" +:+ "" +:+ separated ("," +:+ "") (map (fun '(k, x) => quote k +:+ ":" +:+
          render (fun _ => ""%string) ":" (S d) x) l) +:+ "" +:+ "}")%string.
    rewrite !all_chars_app, separated_graphic; [done..|].
    apply List.Forall_map. rewrite forallb_forall in Hok.
    eapply Forall_impl_in; [exact IH|]. intros [k y] Hy Hyd. cbn.
    rewrite !all_chars_app, quote_graphic. cbn. apply Hyd.
    apply list_elem_of_In in Hy. specialize (Hok _ Hy). cbn in Hok. by bool_prop.
Qed.

Lemma ascii_valid t : all_chars (fun c => code c <? 0x80) t = true -> valid_utf8 t = true.
Proof.
  unfold valid_utf8. induction t as [|c t IH]; [done|]. cbn [all_chars valid_utf8_go].
  intros [Hc%Z.ltb_lt Ht]%andb_true_iff. rewrite rune_tail_0 by done. by apply IH.
Qed.

Lemma visible_valid s : all_chars visible s = true -> valid_utf8 s = true.
Proof.
  intros H. apply ascii_valid. eapply all_chars_impl, H. intros c. revert c.
  assert (forall c, negb (visible c) || (code c <? 0x80) = true) as Hv by all_ascii.
  intros c Hc. specialize (Hv c). by rewrite Hc in Hv.
Qed.

Lemma hex_text_valid b : valid_utf8 ("0x" +:+ hex_encode b) = true.
Proof.
  apply visible_valid. rewrite all_chars_app. apply andb_true_iff.
  split; [reflexivity|apply hex_encode_visible].
Qed.

(** A printed struct is well formed when the values of its members are. *)
Definition member_ok (n : nat) (m : string * option json) : Prop :=
  valid_utf8 m.1 = true /\
  match m.2 with Some x => json_ok x = true /\ (nesting x <= n)%nat | None => True end.

Lemma members_ok n l :
  Forall (member_ok n) l ->
  json_ok (JObject (members_of l)) = true /\ (nesting (JObject (members_of l)) <= S n)%nat.
Proof.
  intros H. cbn [json_ok nesting].
  induction H as [|[k [x|]] l [Hk Hx] Hl [IH1 IH2]]; [split; [done|cbn; lia]|..].
  - change (members_of ((k, Some x) :: l)) with ((k, x) :: members_of l).
    cbn [fst snd forallb map] in *. destruct Hx as [Hx Hn]. rewrite Hk, Hx. split; [done|].
    unfold max_of in *. cbn [fold_right]. lia.
  - change (members_of ((k, None) :: l)) with (members_of l). by split.
Qed.

Lemma unless_empty_ok n k v : valid_utf8 k = true -> valid_utf8 v = true -> member_ok n (k, unless_empty v).
Proof. intros Hk Hv. split; [done|]. unfold unless_empty. case_decide; [done|]. split; [done|cbn; lia]. Qed.

(** What a printed struct says of a member. *)
Lemma elem_of_members k x l : (k, x) ∈ members_of l <-> (k, Some x) ∈ l.
Proof.
  unfold members_of. rewrite list_elem_of_omap. split.
  - intros ([k' [x'|]] & Hin & [= -> ->]); done.
  - intros H. by exists (k, Some x).
Qed.

Lemma unique_member {T} (k : string) (o o' : T) l :
  NoDup (map fst l) -> (k, o) ∈ l -> (k, o') ∈ l -> o = o'.
Proof.
  induction l as [|[k1 o1] l IH]; cbn [map fst]; [by intros _ H%elem_of_nil|].
  intros [Hk Hl]%NoDup_cons. rewrite !elem_of_cons. intros [[= -> ->]|H] [[= ->]|H']; try done.
  - destruct Hk. apply list_elem_of_fmap. by exists (k1, o').
  - subst. destruct Hk. apply list_elem_of_fmap. by exists (k1, o).
  - by apply IH.
Qed.

Lemma same_members k o1 o2 l1 l2 :
  NoDup (map fst l1) -> NoDup (map fst l2) ->
  (forall m, m ∈ members_of l1 <-> m ∈ members_of l2) ->
  (k, o1) ∈ l1 -> (k, o2) ∈ l2 -> o1 = o2.
Proof.
  intros Hd1 Hd2 Hs H1 H2. destruct o1 as [x|].
  - apply elem_of_members, Hs, elem_of_members in H1. by eapply unique_member.
  - destruct o2 as [x|]; [|done]. apply elem_of_members, Hs, elem_of_members in H2.
    by eapply (unique_member k) in H2.
Qed.

Lemma JInt_inj a b : - 2 ^ 63 <= a < 2 ^ 63 -> - 2 ^ 63 <= b < 2 ^ 63 -> JInt a = JInt b -> a = b.
Proof.
  intros Ha Hb E. pose proof (decode_int64_JInt a 0 Ha) as Da. rewrite E, decode_int64_JInt in Da by done.
  by injection Da.
Qed.

Lemma JInt_inj_unsigned a b : 0 <= a < 2 ^ 64 -> 0 <= b < 2 ^ 64 -> JInt a = JInt b -> a = b.
Proof.
  intros Ha Hb E. pose proof (decode_uint64_JInt a 0 Ha) as Da. rewrite E, decode_uint64_JInt in Da by done.
  by injection Da.
Qed.

(** ** Maps *)

Lemma elem_of_insert_member m m' ms : m ∈ insert_member m' ms <-> m = m' \/ m ∈ ms.
Proof.
  induction ms as [|m1 ms IH]; cbn [insert_member]; [by rewrite elem_of_cons|].
  destruct (String.leb _ _); rewrite !elem_of_cons; [done|]. rewrite IH. naive_solver.
Qed.

Lemma elem_of_sorted_members m ms : m ∈ sorted_members ms <-> m ∈ ms.
Proof.
  induction ms as [|m1 ms IH]; [done|]. change (sorted_members (m1 :: ms)) with (insert_member m1 (sorted_members ms)).
  by rewrite elem_of_insert_member, IH, elem_of_cons.
Qed.

Lemma json_ok_object ms :
  json_ok (JObject ms) = true <-> forall k x, (k, x) ∈ ms -> valid_utf8 k = true /\ json_ok x = true.
Proof.
  cbn [json_ok]. rewrite forallb_forall. split.
  - intros H k x Hin. specialize (H (k, x)). cbn in H. rewrite andb_true_iff in H. apply H.
    by apply list_elem_of_In.
  - intros H [k x] Hin. apply andb_true_iff, H. by apply list_elem_of_In.
Qed.

Lemma flat_object ms :
  (forall k x, (k, x) ∈ ms -> nesting x = 0%nat) -> (nesting (JObject ms) <= 1)%nat.
Proof.
  intros H. cbn [nesting]. enough (max_of (map (fun '(_, x) => nesting x) ms) = 0%nat) as -> by done.
  induction ms as [|[k x] ms IH]; [done|]. unfold max_of in *. cbn [map fold_right].
  rewrite (H k x) by by left. rewrite IH; [done|]. intros k' x' Hin. apply (H k'). by right.
Qed.
