(* ===== verification/Encodings.v ===== *)
(** * Encodings: SHA-256, HMAC-SHA-256 and base64

    Executable models of Go's [crypto/sha256] and [crypto/hmac], which the
    snapshot plan, the push pipeline and the replication tickets compute with.
    The constants are generated from their definition (fractional parts of the
    cube and square roots of the first primes) rather than tabulated. *)
From Stdlib Require Import ZArith Lia Ascii String.
From stdpp Require Import base list strings option.
From S2P Require Import Prelude GoText.

From Stdlib Require Strings.Byte.

Local Open Scope Z_scope.

Definition w32 (z : Z) : Z := Z.land z 0xFFFFFFFF.
Definition rotr (n x : Z) : Z := Z.lor (Z.shiftr x n) (w32 (Z.shiftl x (32 - n))).

(** ** Constants *)

Fixpoint has_divisor (p d : Z) (fuel : nat) : bool :=
  match fuel with
  | O => false
  | S f => if d * d >? p then false
           else (p mod d =? 0) || has_divisor p (d + 1) f
  end.

Fixpoint primes_from (p : Z) (want fuel : nat) : list Z :=
  match want, fuel with
  | S w, S f => if has_divisor p 2 40 then primes_from (p + 1) want f
                else p :: primes_from (p + 1) w f
  | _, _ => []
  end.

(** Integer cube root by bisection of [lo, hi). *)
Fixpoint cube_root (n lo hi : Z) (fuel : nat) : Z :=
  match fuel with
  | O => lo
  | S f => if hi - lo <=? 1 then lo
           else let m := (lo + hi) / 2 in
                if m * m * m <=? n then cube_root n m hi f else cube_root n lo m f
  end.

Definition round_constants : list Z :=
  Eval vm_compute in
    map (fun p => w32 (cube_root (p * 2 ^ 96) 0 (2 ^ 40) 50)) (primes_from 2 64 400).
Definition initial_hash : list Z :=
  Eval vm_compute in map (fun p => w32 (Z.sqrt (p * 2 ^ 64))) (primes_from 2 8 40).

(** ** Compression *)

Fixpoint schedule (n : nat) (window : list Z) : list Z :=
  match n with
  | O => []
  | S n' =>
      match window with
      | w0 :: rest =>
          let w1 := nth 0 rest 0 in
          let w9 := nth 8 rest 0 in
          let w14 := nth 13 rest 0 in
          let s0 := Z.lxor (Z.lxor (rotr 7 w1) (rotr 18 w1)) (Z.shiftr w1 3) in
          let s1 := Z.lxor (Z.lxor (rotr 17 w14) (rotr 19 w14)) (Z.shiftr w14 10) in
          w0 :: schedule n' (rest ++ [w32 (w0 + s0 + w9 + s1)])
      | [] => []
      end
  end.

Record hstate := HState { ha : Z; hb : Z; hc : Z; hd : Z; he : Z; hf : Z; hg : Z; hh : Z }.

Definition sha_round (s : hstate) (kw : Z * Z) : hstate :=
  let big1 := Z.lxor (Z.lxor (rotr 6 (he s)) (rotr 11 (he s))) (rotr 25 (he s)) in
  let choice := Z.lxor (Z.land (he s) (hf s)) (Z.land (Z.lxor (he s) 0xFFFFFFFF) (hg s)) in
  let t1 := hh s + big1 + choice + fst kw + snd kw in
  let big0 := Z.lxor (Z.lxor (rotr 2 (ha s)) (rotr 13 (ha s))) (rotr 22 (ha s)) in
  let major := Z.lxor (Z.lxor (Z.land (ha s) (hb s)) (Z.land (ha s) (hc s)))
                      (Z.land (hb s) (hc s)) in
  HState (w32 (t1 + big0 + major)) (ha s) (hb s) (hc s)
         (w32 (hd s + t1)) (he s) (hf s) (hg s).

Definition hadd (s t : hstate) : hstate :=
  HState (w32 (ha s + ha t)) (w32 (hb s + hb t)) (w32 (hc s + hc t)) (w32 (hd s + hd t))
         (w32 (he s + he t)) (w32 (hf s + hf t)) (w32 (hg s + hg t)) (w32 (hh s + hh t)).

Definition compress (s : hstate) (block : list Z) : hstate :=
  hadd s (fold_left sha_round (zip round_constants (schedule 64 block)) s).

(** ** Padding and digest *)

Definition pad (m : bytes) : bytes :=
  let zeros := Z.to_nat ((55 - llen m) mod 64) in
  m ++ [Byte.x80] ++ zero_bytes zeros ++ be_bytes 8 (8 * llen m).

Fixpoint words (m : bytes) : list Z :=
  match m with
  | a :: b :: c :: d :: m' => be_value [a; b; c; d] :: words m'
  | _ => []
  end.

Fixpoint blocks (fuel : nat) (ws : list Z) : list (list Z) :=
  match fuel, ws with
  | S f, _ :: _ => take 16 ws :: blocks f (drop 16 ws)
  | _, _ => []
  end.

Definition initial_state : hstate :=
  match initial_hash with
  | [a; b; c; d; e; f; g; h] => HState a b c d e f g h
  | _ => HState 0 0 0 0 0 0 0 0
  end.

Definition digest (s : hstate) : bytes :=
  be_bytes 4 (ha s) ++ be_bytes 4 (hb s) ++ be_bytes 4 (hc s) ++ be_bytes 4 (hd s) ++
  be_bytes 4 (he s) ++ be_bytes 4 (hf s) ++ be_bytes 4 (hg s) ++ be_bytes 4 (hh s).

(** [sha256.Sum256] *)
Definition sha256 (m : bytes) : bytes :=
  let ws := words (pad m) in
  digest (fold_left compress (blocks (length ws) ws) initial_state).

(** [hmac.New(sha256.New, key)] applied to one message. *)
Definition hmac_sha256 (key m : bytes) : bytes :=
  let k0 := if 64 <? llen key then sha256 key else key in
  let k := k0 ++ zero_bytes (64 - length k0) in
  let xor_with (c : Z) := map (fun b => byte_of_Z (Z.lxor (Z.of_N (Byte.to_N b)) c)) k in
  sha256 (xor_with 0x5c ++ sha256 (xor_with 0x36 ++ m)).

(** [fmt.Sprintf("%x", sha256.Sum256(m))] *)
Definition sha256_hex (m : bytes) : string := hex_encode (sha256 m).

(** ** Test vectors (FIPS 180-4, RFC 4231) and length *)

Example sha256_abc :
  sha256_hex (string_bytes "abc") =
  "ba7816bf8f01cfea414140de5dae2223b00361a396177a9cb410ff61f20015ad"%string.
Proof. vm_compute. reflexivity. Qed.

Example sha256_empty :
  sha256_hex [] = "e3b0c44298fc1c149afbf4c8996fb92427ae41e4649b934ca495991b7852b855"%string.
Proof. vm_compute. reflexivity. Qed.

Example hmac_jefe :
  hex_encode (hmac_sha256 (string_bytes "Jefe") (string_bytes "what do ya want for nothing?"))
  = "5bdcc146bf60754e6a042426089575c75a003f089d2739839dec58b964ec3843"%string.
Proof. vm_compute. reflexivity. Qed.

Lemma length_be_bytes n z : length (be_bytes n z) = n.
Proof. revert z. induction n as [|n IH]; intros z; simpl; [done|]. rewrite length_app, IH. simpl. lia. Qed.

Lemma length_sha256 m : length (sha256 m) = 32%nat.
Proof. unfold sha256, digest. by rewrite !length_app, !length_be_bytes. Qed.

Lemma slen_sha256_hex m : slen (sha256_hex m) = 64.
Proof. unfold sha256_hex. rewrite slen_hex_encode. unfold llen. by rewrite length_sha256. Qed.

(** * Base64

    [base64.RawURLEncoding] of Go's standard library: the URL alphabet, no
    padding, line breaks skipped and unused low bits ignored when decoding. *)

From Stdlib Require Strings.Byte.


(** ** The alphabet *)

Definition b64_char (n : N) : ascii :=
  ascii_of_N (if n <? 26 then 65 + n
              else if n <? 52 then 71 + n
              else if n <? 62 then n - 4
              else if n =? 62 then 45 else 95)%N.

Definition b64_value (c : ascii) : option N :=
  if is_upper c then Some (N_of_ascii c - 65)%N
  else if is_lower c then Some (N_of_ascii c - 71)%N
  else if is_digit c then Some (N_of_ascii c + 4)%N
  else if is_char "-" c then Some 62%N
  else if is_char "_" c then Some 63%N
  else None.

(** ** Encoding *)

Definition byte_N (n : N) : byte :=
  match Byte.of_N (n mod 256) with Some b => b | None => Byte.x00 end.

(** The sextets of a byte slice, first byte first. *)
Fixpoint sextets (b : bytes) : list N :=
  match b with
  | x :: y :: z :: b' =>
      let n := (65536 * Byte.to_N x + 256 * Byte.to_N y + Byte.to_N z)%N in
      (n / 262144)%N :: (n / 4096 mod 64)%N :: (n / 64 mod 64)%N :: (n mod 64)%N :: sextets b'
  | [x; y] =>
      let n := (1024 * Byte.to_N x + 4 * Byte.to_N y)%N in
      [n / 4096; n / 64 mod 64; n mod 64]%N
  | [x] => let n := (16 * Byte.to_N x)%N in [n / 64; n mod 64]%N
  | [] => []
  end.

Fixpoint b64_string (l : list N) : string :=
  match l with [] => "" | n :: l' => String (b64_char n) (b64_string l') end.

(** [base64.RawURLEncoding.EncodeToString] *)
Definition EncodeToString (b : bytes) : string := b64_string (sextets b).

(** ** Decoding *)

Definition line_break (c : ascii) : bool := (code c =? 10) || (code c =? 13).

Fixpoint b64_values (s : string) : option (list N) :=
  match s with
  | EmptyString => Some []
  | String c s' =>
      if line_break c then b64_values s'
      else match b64_value c, b64_values s' with
           | Some n, Some l => Some (n :: l)
           | _, _ => None
           end
  end.

Fixpoint join_sextets (l : list N) : option bytes :=
  match l with
  | a :: b :: c :: d :: l' =>
      let n := (262144 * a + 4096 * b + 64 * c + d)%N in
      match join_sextets l' with
      | Some r => Some (byte_N (n / 65536) :: byte_N (n / 256) :: byte_N n :: r)
      | None => None
      end
  | [a; b; c] =>
      let n := (4096 * a + 64 * b + c)%N in
      Some [byte_N (n / 1024); byte_N (n / 4)]
  | [a; b] => Some [byte_N ((64 * a + b) / 16)]
  | [_] => None
  | [] => Some []
  end.

(** [base64.RawURLEncoding.DecodeString] *)
Definition DecodeString (s : string) : result bytes :=
  match b64_values s ≫= join_sextets with
  | Some b => Ok b
  | None => errf "illegal base64 data" []
  end.

(** ** Round trip *)

Definition b64_digit (c : ascii) : bool :=
  match b64_value c with Some _ => negb (line_break c) | None => false end.

Lemma b64_char_value n : (n < 64)%N ->
  b64_value (b64_char n) = Some n /\ line_break (b64_char n) = false.
Proof.
  intros Hn.
  pose proof (N_below (fun n => bool_decide (b64_value (b64_char n) = Some n) &&
    negb (line_break (b64_char n))) 64 n eq_refl Hn) as H. cbv beta in H. by bool_prop.
Qed.

Lemma byte_N_to_N (x : byte) n : n = Byte.to_N x -> byte_N n = x.
Proof.
  intros ->. unfold byte_N. pose proof (Byte.to_N_bounded x).
  rewrite N.mod_small by lia. by rewrite Byte.of_to_N.
Qed.

Lemma byte_N_mod n : byte_N n = byte_N (n mod 256).
Proof. unfold byte_N. by rewrite N.Div0.mod_mod. Qed.

Lemma bytes_triple_ind (P : bytes -> Prop) :
  P [] -> (forall x, P [x]) -> (forall x y, P [x; y]) ->
  (forall x y z b, P b -> P (x :: y :: z :: b)) -> forall b, P b.
Proof.
  intros H0 H1 H2 H3 b. enough (P b /\ (forall x, P (x :: b)) /\ forall x y, P (x :: y :: b)) by tauto.
  induction b as [|z b (IH1 & IH2 & IH3)]; split_and!; auto.
Qed.

Lemma small_mod n : (n mod 64 < 64)%N.
Proof. by apply N.mod_lt. Qed.

Lemma small_div n k : k <> 0%N -> (n < k * 64)%N -> (n / k < 64)%N.
Proof. intros. by apply N.Div0.div_lt_upper_bound. Qed.

Lemma sextets_small b : Forall (fun n => (n < 64)%N) (sextets b).
Proof.
  induction b as [|x|x y|x y z b IH] using bytes_triple_ind; [by apply Forall_nil|..];
    pose proof (Byte.to_N_bounded x); try pose proof (Byte.to_N_bounded y);
    try pose proof (Byte.to_N_bounded z); cbn [sextets];
    repeat first [apply Forall_nil_2|exact IH|
      constructor; [cbv beta; first [apply small_mod|apply small_div; lia]|]].
Qed.

Lemma b64_values_string l : Forall (fun n => (n < 64)%N) l -> b64_values (b64_string l) = Some l.
Proof.
  induction 1 as [|n l Hn Hl IH]; [done|]. cbn [b64_string b64_values].
  destruct (b64_char_value n Hn) as [-> ->]. by rewrite IH.
Qed.

(** A number in base 64, and the digits of three bytes in base 256. *)
Lemma quartet n :
  (262144 * (n / 262144) + 4096 * (n / 4096 mod 64) + 64 * (n / 64 mod 64) + n mod 64 = n)%N.
Proof.
  replace (n / 4096)%N with (n / 64 / 64)%N by (rewrite N.Div0.div_div; reflexivity).
  replace (n / 262144)%N with (n / 64 / 64 / 64)%N by (rewrite !N.Div0.div_div; reflexivity).
  pose proof (N.div_mod' n 64) as H0. pose proof (N.div_mod' (n / 64) 64) as H1.
  pose proof (N.div_mod' (n / 64 / 64) 64) as H2. revert H0 H1 H2.
  generalize (n mod 64)%N (n / 64 mod 64)%N (n / 64 / 64 mod 64)%N (n / 64 / 64 / 64)%N.
  generalize (n / 64 / 64)%N (n / 64)%N. lia.
Qed.

Lemma three_bytes (x y z : byte) n :
  (n = 65536 * Byte.to_N x + 256 * Byte.to_N y + Byte.to_N z)%N ->
  byte_N (n / 65536) = x /\ byte_N (n / 256) = y /\ byte_N n = z.
Proof.
  intros Hn. pose proof (Byte.to_N_bounded x). pose proof (Byte.to_N_bounded y).
  pose proof (Byte.to_N_bounded z). split_and!.
  - apply byte_N_to_N. symmetry. apply (N.div_unique _ _ _ (256 * Byte.to_N y + Byte.to_N z)); lia.
  - rewrite byte_N_mod. apply byte_N_to_N.
    assert (n / 256 = 256 * Byte.to_N x + Byte.to_N y)%N as ->.
    { symmetry. apply (N.div_unique _ _ _ (Byte.to_N z)); lia. }
    symmetry. apply (N.mod_unique _ _ (Byte.to_N x)); lia.
  - rewrite byte_N_mod. apply byte_N_to_N. symmetry.
    apply (N.mod_unique _ _ (256 * Byte.to_N x + Byte.to_N y)); lia.
Qed.

Lemma join_sextets_spec b : join_sextets (sextets b) = Some b.
Proof.
  induction b as [|x|x y|x y z b IH] using bytes_triple_ind; [done|..]; cbn [sextets join_sextets].
  - pose proof (Byte.to_N_bounded x). do 2 f_equal. apply byte_N_to_N.
    rewrite <- N.div_mod'. symmetry. apply (N.div_unique _ _ _ 0); lia.
  - pose proof (Byte.to_N_bounded x). pose proof (Byte.to_N_bounded y).
    assert (forall n, (4096 * (n / 4096) + 64 * (n / 64 mod 64) + n mod 64 = n)%N) as Hn.
    { intros n. pose proof (N.div_mod' n 64) as Hn1.
      replace (n / 4096)%N with (n / 64 / 64)%N by (rewrite N.Div0.div_div; reflexivity).
      pose proof (N.div_mod' (n / 64) 64) as Hn2. revert Hn1 Hn2.
      generalize (n mod 64)%N (n / 64 mod 64)%N (n / 64 / 64)%N. generalize (n / 64)%N. lia. }
    rewrite Hn. do 2 f_equal; [|f_equal].
    + apply byte_N_to_N. symmetry. apply (N.div_unique _ _ _ (4 * Byte.to_N y)); lia.
    + rewrite byte_N_mod. apply byte_N_to_N.
      assert ((1024 * Byte.to_N x + 4 * Byte.to_N y) / 4 = 256 * Byte.to_N x + Byte.to_N y)%N as ->.
      { symmetry. apply (N.div_unique _ _ _ 0); lia. }
      symmetry. apply (N.mod_unique _ _ (Byte.to_N x)); lia.
  - rewrite IH, quartet. by destruct (three_bytes x y z _ eq_refl) as (-> & -> & ->).
Qed.

(** Decoding what was encoded gives the bytes back. *)
Lemma DecodeString_EncodeToString b : DecodeString (EncodeToString b) = Ok b.
Proof.
  unfold DecodeString, EncodeToString. rewrite b64_values_string by apply sextets_small.
  simpl. by rewrite join_sextets_spec.
Qed.

Lemma EncodeToString_digits b : all_chars b64_digit (EncodeToString b) = true.
Proof.
  unfold EncodeToString. induction (sextets_small b) as [|n l Hn Hl IH]; [done|].
  cbn [b64_string all_chars]. rewrite IH. unfold b64_digit.
  by destruct (b64_char_value n Hn) as [-> ->].
Qed.
