(* ===== verification/Geth.v ===== *)
(** * The go-ethereum functions the program calls

    go-ethereum is not part of the repository, so its functions are the
    operations of a class and what the program relies on are the laws of a
    second class: documented behaviour of [crypto], [common] and
    [accounts/abi].  [SampleGeth] is one concrete implementation of both
    classes, used to evaluate the development on examples; nothing else
    depends on it. *)
From Stdlib Require Import ZArith Lia.
From Stdlib Require Strings.Byte.
From Stdlib Require Import Ascii String.
From stdpp Require Import base list gmap strings.
From S2P Require Import Prelude GoText Encodings.

Local Open Scope Z_scope.

(** ** ABI types and values *)

Inductive abi_type : Type :=
| TUint (bits : Z)
| TAddress
| TBytes32
| TBool
| TString
| TBytes
| TSlice (elem : abi_type)
| TTuple (components : list (string * abi_type)).

Inductive abi_value : Type :=
| VUint (n : Z)
| VAddress (a : bytes)
| VBytes32 (h : bytes)
| VBool (b : bool)
| VString (s : string)
| VBytes (b : bytes)
| VSlice (vs : list abi_value)
| VTuple (vs : list abi_value)
| VNil. (* a nil pointer, which no type accepts *)

(** A Go value that the ABI packer accepts for a type. *)
Fixpoint has_type (t : abi_type) (v : abi_value) {struct t} : bool :=
  match t, v with
  | TUint w, VUint n => (0 <=? n) && (n <? 2 ^ w)
  | TAddress, VAddress a => Nat.eqb (length a) 20
  | TBytes32, VBytes32 h => Nat.eqb (length h) 32
  | TBool, VBool _ => true
  | TString, VString _ => true
  | TBytes, VBytes _ => true
  | TSlice t', VSlice vs => forallb (has_type t') vs
  | TTuple fs, VTuple vs =>
      (fix go (fs : list (string * abi_type)) (vs : list abi_value) : bool :=
         match fs, vs with
         | [], [] => true
         | (_, t') :: fs', v' :: vs' => has_type t' v' && go fs' vs'
         | _, _ => false
         end) fs vs
  | _, _ => false
  end.

Fixpoint have_types (ts : list abi_type) (vs : list abi_value) : bool :=
  match ts, vs with
  | [], [] => true
  | t :: ts', v :: vs' => has_type t v && have_types ts' vs'
  | _, _ => false
  end.

(** ** The operations and their laws *)

Class Geth := {
  keccak256 : bytes -> bytes;                 (* crypto.Keccak256Hash *)
  IsHexAddress : string -> bool;              (* common.IsHexAddress *)
  HexToAddress : string -> bytes;             (* common.HexToAddress *)
  AddressHex : bytes -> string;               (* common.Address.Hex, EIP-55 case *)
  HashHex : bytes -> string;                  (* common.Hash.Hex *)
  BytesToHash : bytes -> bytes;               (* common.BytesToHash *)
  abi_Pack : list abi_type -> list abi_value -> result bytes;    (* Arguments.Pack *)
  abi_Unpack : list abi_type -> bytes -> result (list abi_value) (* Arguments.Unpack *)
}.

Definition is_hex_char (c : ascii) : bool :=
  is_digit c || between 97 102 c || between 65 70 c.

(** An optional [0x]/[0X] prefix and 40 hexadecimal digits. *)
Definition hex_address_shape (s : string) : bool :=
  let digits := match cut_prefix "0x" s with
                | Some r => r
                | None => match cut_prefix "0X" s with Some r => r | None => s end
                end in
  (slen digits =? 40) && all_chars is_hex_char digits.

(** Types whose values have a fixed size; the ABI gives each a word of its own. *)
Definition word_type (t : abi_type) : bool :=
  match t with TUint bits => 0 <? bits | TAddress | TBytes32 | TBool => true | _ => false end.

Class GethLaws `{!Geth} := {
  length_keccak256 m : length (keccak256 m) = 32%nat;
  length_HexToAddress s : length (HexToAddress s) = 20%nat;
  IsHexAddress_spec s : IsHexAddress s = hex_address_shape s;
  HexToAddress_spec r a :
    hex_decode r = Some a -> length a = 20%nat -> HexToAddress ("0x" +:+ r) = a;
  HexToAddress_bare r a :
    hex_decode r = Some a -> length a = 20%nat -> HexToAddress r = a;
  AddressHex_spec a :
    length a = 20%nat -> ToLower (AddressHex a) = ("0x" +:+ hex_encode a)%string;
  HashHex_spec h : length h = 32%nat -> HashHex h = ("0x" +:+ hex_encode h)%string;
  BytesToHash_spec h : length h = 32%nat -> BytesToHash h = h;
  Pack_typed ts vs : have_types ts vs = true -> exists b, abi_Pack ts vs = Ok b;
  Unpack_Pack ts vs b :
    have_types ts vs = true -> abi_Pack ts vs = Ok b -> abi_Unpack ts b = Ok vs;
  Unpack_typed ts vs b : abi_Unpack ts b = Ok vs -> have_types ts vs = true;
  Pack_nonempty ts vs b : ts <> [] -> abi_Pack ts vs = Ok b -> b <> [];
  Pack_longer ts t ts' vs vs' b b' :
    forallb word_type (ts ++ t :: ts') = true ->
    abi_Pack ts vs = Ok b -> abi_Pack (ts ++ t :: ts') vs' = Ok b' -> (length b < length b')%nat
}.

(** ** Consequences of the laws *)

Section Laws.
Context {GE : Geth} {GL : GethLaws}.

Lemma Pack_inj ts vs vs' b :
  have_types ts vs = true -> have_types ts vs' = true ->
  abi_Pack ts vs = Ok b -> abi_Pack ts vs' = Ok b -> vs = vs'.
Proof.
  intros Ht Ht' Hp Hp'. pose proof (Unpack_Pack _ _ _ Ht Hp) as Hu.
  rewrite (Unpack_Pack _ _ _ Ht' Hp') in Hu. by injection Hu.
Qed.

Lemma HashHex_inj h k :
  length h = 32%nat -> length k = 32%nat -> HashHex h = HashHex k -> h = k.
Proof.
  intros Hh Hk. rewrite !HashHex_spec by done.
  intros E%(inj (String.app "0x")). by apply (inj hex_encode).
Qed.
End Laws.

Lemma all_hex_encode b : all_chars is_hex_char (hex_encode b) = true.
Proof.
  induction b as [|x b IH]; [done|]. cbn -[N.div N.modulo is_hex_char].
  destruct (byte_nibbles x) as (H1 & H2 & _). rewrite IH.
  assert (forall n, (n < 16)%N -> is_hex_char (hex_digit n) = true) as Hd.
  { intros n Hn. pose proof (hex_digit_value n Hn) as Hv. unfold is_hex_char.
    unfold hex_value in Hv. destruct (is_digit _), (between 97 102 _), (between 65 70 _);
      done. }
  by rewrite !Hd.
Qed.

(** ** A concrete implementation *)

Module SampleGeth.

(** A type-directed encoding: fixed-width scalars, and a tag byte before every
    item of a sequence. *)
Definition uint_width (bits : Z) : nat := Z.to_nat (bits / 8 + 1).

(** [01 x 01 y ... 00] *)
Definition put_items (items : list bytes) : bytes :=
  fold_right (fun item rest => Byte.x01 :: item ++ rest) [Byte.x00] items.

Definition put_bytes (b : bytes) : bytes := put_items (map (fun x => [x]) b).

Fixpoint put (t : abi_type) (v : abi_value) {struct t} : bytes :=
  match t, v with
  | TUint bits, VUint n => be_bytes (uint_width bits) n
  | TAddress, VAddress a => a
  | TBytes32, VBytes32 h => h
  | TBool, VBool b => [if b then Byte.x01 else Byte.x00]
  | TString, VString s => put_bytes (string_bytes s)
  | TBytes, VBytes b => put_bytes b
  | TSlice t', VSlice vs => put_items (map (put t') vs)
  | TTuple fs, VTuple vs =>
      (fix go (fs : list (string * abi_type)) (vs : list abi_value) : bytes :=
         match fs, vs with
         | (_, t') :: fs', v' :: vs' => put t' v' ++ go fs' vs'
         | _, _ => []
         end) fs vs
  | _, _ => []
  end.

Fixpoint put_all (ts : list abi_type) (vs : list abi_value) : bytes :=
  match ts, vs with
  | t :: ts', v :: vs' => put t v ++ put_all ts' vs'
  | _, _ => []
  end.

Definition get_fixed {A} (n : nat) (k : bytes -> A) (b : bytes) : option (A * bytes) :=
  if Nat.ltb (length b) n then None else Some (k (firstn n b), skipn n b).

Fixpoint get_items {A} (get : bytes -> option (A * bytes)) (fuel : nat) (b : bytes)
  : option (list A * bytes) :=
  match fuel, b with
  | S fuel', Byte.x00 :: r => Some ([], r)
  | S fuel', Byte.x01 :: r =>
      match get r with
      | Some (x, r') =>
          match get_items get fuel' r' with
          | Some (xs, r'') => Some (x :: xs, r'')
          | None => None
          end
      | None => None
      end
  | _, _ => None
  end.

Definition get_byte (b : bytes) : option (byte * bytes) :=
  match b with x :: r => Some (x, r) | [] => None end.

Definition get_map {A B} (f : A -> B) (r : option (A * bytes)) : option (B * bytes) :=
  match r with Some (a, rest) => Some (f a, rest) | None => None end.

Fixpoint get (t : abi_type) (b : bytes) {struct t} : option (abi_value * bytes) :=
  match t with
  | TUint bits => get_fixed (uint_width bits) (fun x => VUint (be_value x)) b
  | TAddress => get_fixed 20 VAddress b
  | TBytes32 => get_fixed 32 VBytes32 b
  | TBool => get_map (fun x => VBool (Byte.eqb x Byte.x01)) (get_byte b)
  | TString => get_map (fun x => VString (bytes_string x)) (get_items get_byte (length b) b)
  | TBytes => get_map VBytes (get_items get_byte (length b) b)
  | TSlice t' => get_map VSlice (get_items (get t') (length b) b)
  | TTuple fs => get_map VTuple
      ((fix go (fs : list (string * abi_type)) (b : bytes) : option (list abi_value * bytes) :=
         match fs with
         | [] => Some ([], b)
         | (_, t') :: fs' =>
             match get t' b with
             | Some (v, b') => get_map (cons v) (go fs' b')
             | None => None
             end
         end) fs b)
  end.

Fixpoint get_all (ts : list abi_type) (b : bytes) : option (list abi_value * bytes) :=
  match ts with
  | [] => Some ([], b)
  | t :: ts' =>
      match get t b with
      | Some (v, b') => get_map (cons v) (get_all ts' b')
      | None => None
      end
  end.

Definition Pack (ts : list abi_type) (vs : list abi_value) : result bytes :=
  if have_types ts vs then Ok (Byte.x00 :: put_all ts vs)
  else errf "abi: cannot use value as type" [].

Definition Unpack (ts : list abi_type) (b : bytes) : result (list abi_value) :=
  match b with
  | _ :: r => match get_all ts r with
              | Some (vs, []) =>
                  if have_types ts vs then Ok vs else errf "abi: improperly encoded value" []
              | _ => errf "abi: cannot unmarshal" []
              end
  | [] => errf "abi: attempting to unmarshal an empty string" []
  end.

#[export] Instance sample_geth : Geth := {
  keccak256 := sha256;
  IsHexAddress := hex_address_shape;
  HexToAddress s :=
    match hex_decode (TrimPrefix s "0x") with
    | Some a => if Nat.eqb (length a) 20 then a else zero_bytes 20
    | None => zero_bytes 20
    end;
  AddressHex a := ("0x" +:+ hex_encode a)%string;
  HashHex h := ("0x" +:+ hex_encode h)%string;
  BytesToHash h := h;
  abi_Pack := Pack;
  abi_Unpack := Unpack
}.

Lemma be_value_app a x : be_value (a ++ [x]) = 256 * be_value a + Z.of_N (Byte.to_N x).
Proof. unfold be_value. by rewrite fold_left_app. Qed.

Lemma byte_of_Z_value z : Z.of_N (Byte.to_N (byte_of_Z z)) = z mod 256.
Proof.
  unfold byte_of_Z. pose proof (Z.mod_pos_bound z 256 ltac:(lia)).
  destruct (Byte.of_N (Z.to_N (z mod 256))) as [b|] eqn:E.
  - apply Byte.to_of_N_iff in E. lia.
  - apply Byte.of_N_None_iff in E. lia.
Qed.

Lemma be_value_bytes n z : 0 <= z < 256 ^ Z.of_nat n -> be_value (be_bytes n z) = z.
Proof.
  revert z. induction n as [|n IH]; intros z Hz; cbn [be_bytes].
  - simpl in Hz. unfold be_value. simpl. lia.
  - rewrite be_value_app, byte_of_Z_value, IH.
    + pose proof (Z.div_mod z 256 ltac:(lia)). lia.
    + split; [apply Z.div_pos; lia|]. apply Z.div_lt_upper_bound; [lia|].
      rewrite Nat2Z.inj_succ, Z.pow_succ_r in Hz by lia. lia.
Qed.

Lemma uint_fits bits n : 0 <= n < 2 ^ bits -> 0 <= n < 256 ^ Z.of_nat (uint_width bits).
Proof.
  intros [Hn Hlt]. destruct (Z.lt_ge_cases bits 0) as [Hneg|Hpos].
  { rewrite Z.pow_neg_r in Hlt by done. lia. }
  split; [done|]. pose proof (Z.div_pos bits 8 Hpos ltac:(lia)). unfold uint_width.
  rewrite Z2Nat.id by lia. change 256 with (2 ^ 8). rewrite <- Z.pow_mul_r by lia.
  apply Z.lt_le_trans with (2 ^ bits); [done|]. apply Z.pow_le_mono_r; [lia|].
  pose proof (Z.div_mod bits 8 ltac:(lia)). pose proof (Z.mod_pos_bound bits 8 ltac:(lia)). lia.
Qed.

Lemma get_fixed_app {A} n (k : bytes -> A) a r :
  length a = n -> get_fixed n k (a ++ r) = Some (k a, r).
Proof.
  intros <-. unfold get_fixed. rewrite length_app.
  rewrite (proj2 (Nat.ltb_ge _ _)) by lia.
  by rewrite firstn_app, Nat.sub_diag, firstn_all, firstn_O, app_nil_r, skipn_app,
    Nat.sub_diag, skipn_all.
Qed.

Lemma get_put_items {A} (get : bytes -> option (A * bytes)) (put : A -> bytes) xs fuel r :
  (forall x rest, x ∈ xs -> get (put x ++ rest) = Some (x, rest)) ->
  (length xs < fuel)%nat ->
  get_items get fuel (put_items (map put xs) ++ r) = Some (xs, r).
Proof.
  revert fuel. induction xs as [|x xs IH]; intros [|fuel] Hg Hf; simpl in *; try lia; [done|].
  rewrite <- app_assoc, Hg by (by left). rewrite IH; [done| |lia].
  intros y rest Hy. apply Hg. by right.
Qed.

Lemma length_put_items items : (length items < length (put_items items))%nat.
Proof. induction items as [|i items IH]; simpl; [lia|]. rewrite length_app. lia. Qed.

Lemma get_put_bytes b r :
  get_items get_byte (length (put_bytes b ++ r)) (put_bytes b ++ r) = Some (b, r).
Proof.
  unfold put_bytes. apply get_put_items; [done|]. rewrite length_app.
  pose proof (length_put_items (map (fun x => [x]) b)). rewrite length_map in *. lia.
Qed.

Fixpoint get_put (t : abi_type) : forall v r,
  has_type t v = true -> get t (put t v ++ r) = Some (v, r).
Proof.
  destruct t as [bits| | | | | |t|fs]; intros v r Hv; destruct v as [n|a|h|b|s|b|vs|vs|];
    try discriminate Hv.
  - cbn -[Z.pow] in *. apply andb_true_iff in Hv as [H1 H2].
    apply Z.leb_le in H1. apply Z.ltb_lt in H2.
    rewrite get_fixed_app by apply length_be_bytes.
    rewrite be_value_bytes; [done|]. by apply uint_fits.
  - apply Nat.eqb_eq in Hv. by apply get_fixed_app.
  - apply Nat.eqb_eq in Hv. by apply get_fixed_app.
  - by destruct b.
  - cbn. rewrite get_put_bytes. cbn. unfold bytes_string, string_bytes. by rewrite string_of_list_byte_of_string.
  - cbn. by rewrite get_put_bytes.
  - cbn [get put]. rewrite (get_put_items (get t) (put t)); [done| |].
    + intros x rest Hx. apply get_put. cbn in Hv.
      rewrite forallb_forall in Hv. by apply Hv, list_elem_of_In.
    + rewrite length_app. pose proof (length_put_items (map (put t) vs)).
      rewrite length_map in *. lia.
  - cbn. cbn in Hv. match goal with |- get_map VTuple ?g = _ => enough (g = Some (vs, r)) as -> by done end.
    revert vs Hv. induction fs as [|[f t'] fs IH]; intros [|v vs] Hv; try discriminate Hv; [done|].
    apply andb_true_iff in Hv as [Hv Hvs]. rewrite <- app_assoc, (get_put t' v) by done.
    by rewrite IH.
Qed.

Lemma get_put_all ts vs : have_types ts vs = true -> get_all ts (put_all ts vs) = Some (vs, []).
Proof.
  revert vs. induction ts as [|t ts IH]; intros [|v vs] Hv; try done.
  cbn in *. apply andb_true_iff in Hv as [Hv Hvs]. rewrite get_put by done. by rewrite IH.
Qed.

Definition word_size (t : abi_type) : nat :=
  match t with TUint bits => uint_width bits | TAddress => 20 | TBytes32 => 32 | _ => 1 end.

Lemma word_size_pos t : word_type t = true -> (0 < word_size t)%nat.
Proof.
  destruct t; try done; cbn; intros H; try lia. apply Z.ltb_lt in H. unfold uint_width.
  pose proof (Z.div_pos bits 8 ltac:(lia) ltac:(lia)). lia.
Qed.

Lemma length_put t v : word_type t = true -> has_type t v = true -> length (put t v) = word_size t.
Proof.
  destruct t, v; intros Hw Hv; try discriminate Hw; try discriminate Hv; cbn in *;
    [apply length_be_bytes|by apply Nat.eqb_eq in Hv..|done].
Qed.

Lemma length_put_all ts vs :
  forallb word_type ts = true -> have_types ts vs = true ->
  length (put_all ts vs) = sum_list (map word_size ts).
Proof.
  revert vs. induction ts as [|t ts IH]; intros [|v vs] Hw Hv; try done.
  cbn [forallb have_types put_all map sum_list] in *.
  apply andb_true_iff in Hw as [Hw Hws], Hv as [Hv Hvs].
  rewrite length_app, length_put, IH by done. reflexivity.
Qed.

#[export] Instance sample_laws : GethLaws.
Proof.
  split; simpl.
  - apply length_sha256.
  - intros s. destruct (hex_decode _) as [a|]; [|done].
    destruct (Nat.eqb_spec (length a) 20); done.
  - done.
  - intros r a Hr Ha. change "0x"%string with ("0x" +:+ "")%string.
    rewrite TrimPrefix_app. simpl. by rewrite Hr, Ha.
  - intros r a Hr Ha. assert (TrimPrefix r "0x" = r) as ->; [|by rewrite Hr, Ha].
    unfold TrimPrefix. destruct (cut_prefix "0x" r) as [t|] eqn:E; [|done].
    apply cut_prefix_spec in E as ->. cbn in Hr. by destruct t.
  - intros a _. by rewrite ToLower_app, hex_encode_lower.
  - done.
  - done.
  - intros ts vs Ht. unfold Pack. rewrite Ht. eauto.
  - intros ts vs b Ht. unfold Pack, Unpack. rewrite Ht. intros [= <-].
    by rewrite get_put_all, Ht.
  - intros ts vs b. unfold Unpack. destruct b as [|x r]; [done|].
    destruct (get_all ts r) as [[vs' [|y r']]|]; [|done..].
    destruct (have_types ts vs') eqn:Ht; [|done]. by intros [= <-].
  - intros ts vs b _. unfold Pack. destruct (have_types ts vs); [|done]. by intros [= <-].
  - intros ts t ts' vs vs' b b' Hw. unfold Pack.
    destruct (have_types ts vs) eqn:Hv; [|done]. destruct (have_types _ vs') eqn:Hv'; [|done].
    intros [= <-] [= <-]. cbn [length]. rewrite (length_put_all _ vs') by done.
    rewrite forallb_app in Hw. cbn [forallb] in Hw.
    apply andb_true_iff in Hw as [Hw [Ht _]%andb_true_iff]. rewrite length_put_all by done.
    pose proof (word_size_pos t Ht). rewrite map_app.
    induction (map word_size ts) as [|n ns IH]; cbn in *; lia.
Qed.

End SampleGeth.
