(* ===== verification/Schema.v ===== *)
(** * The snapshot, plan and manifest schemas

    The types of [cli/internal/suitemigration/schema.go].  Integers of every Go
    width are [Z]; [snapshot_typed] states the ranges that the Go types give to
    a decoded snapshot. *)
From Stdlib Require Import ZArith Lia.
From stdpp Require Import base list gmap strings.
From S2P Require Import Prelude GoText.

Local Open Scope Z_scope.

Definition SnapshotSchema : string := "igit.cosmwasm-v1.suite-snapshot.v1".
Definition PlanSchema : string := "igit.evm-suite.bootstrap-plan.v1".
Definition ManifestSchema : string := "igit.evm-suite.bootstrap-calldata-manifest.v1".

Definition SuiteVersion : Z := 3.
Definition DefaultBatchSize : Z := 64.
Definition MaximumBatchItems : Z := 128.
Definition MaximumPayloadBytes : Z := 96000.
Definition RequiredModuleCount : Z := 7.
Definition MaxRevenueSplitRecipients : Z := 20.
Definition MaxReservedUsernames : Z := 128.

(** ** The snapshot *)

Record SnapshotSource := {
  src_ChainID : string;
  src_Contract : string;
  src_Height : Z;
  src_BlockHash : string;
  src_InventorySHA256 : string;
  src_TxSearchSHA256 : string;
  src_BlockEvidenceSHA256 : string;
  src_EventCommitmentSHA256 : string;
}.

Record ContractPolicy := {
  pol_Admin : string;
  pol_Treasury : string;
  pol_Committee : string;
  pol_ReleaseAuthority : string;
  pol_UsernamePolicyAdmin : string;
  pol_PlatformFeeBPS : Z;
}.

Record SnapshotRepository := {
  repo_ID : string;
  repo_Owner : string;
  repo_Name : string;
  repo_Description : string;
  repo_DefaultBranch : string;
  repo_ForkedFrom : string;
  repo_CreatedAt : Z;
  repo_UpdatedAt : Z;
}.

Record SnapshotAlias := {
  alias_RepoID : string;
  alias_Owner : string;
  alias_Name : string;
}.

Record SnapshotRef := {
  ref_RepoID : string;
  ref_RefName : string;
  ref_CommitSHA : string;
  ref_PackURIs : list string;
  ref_UpdatedAt : Z;
  ref_UpdatedBy : string;
}.

Record SnapshotCollaborator := {
  collab_RepoID : string;
  collab_Account : string;
  collab_Role : string;
}.

Record SnapshotGuardianConfig := {
  guard_RepoID : string;
  guard_ConfiguredBy : string;
  guard_Threshold : Z;
  guard_Guardians : list string;
}.

Record SnapshotFinalStatus := {
  fs_RepoID : string;
  fs_Status : string;
}.

Record SnapshotReportTrail := {
  rt_Action : string;
  rt_Actor : string;
  rt_Status : string;
  rt_ReasonHash : string;
  rt_Timestamp : Z;
}.

Record SnapshotReport := {
  rep_ID : Z;
  rep_RepoID : string;
  rep_Reporter : string;
  rep_Status : string;
  rep_Resolution : string;
  rep_ReasonHash : string;
  rep_CreatedAt : Z;
  rep_UpdatedAt : Z;
  rep_Trail : list SnapshotReportTrail;
}.

Record SnapshotRepositoryStatusLog := {
  sl_Status : string;
  sl_Actor : string;
  sl_ReasonHash : string;
  sl_Timestamp : Z;
  sl_ReportID : Z;
}.

Record SnapshotStatusTrail := {
  st_RepoID : string;
  st_Trail : list SnapshotRepositoryStatusLog;
}.

Record SnapshotModeration := {
  mod_FinalStatuses : list SnapshotFinalStatus;
  mod_Reports : list SnapshotReport;
  mod_StatusTrails : list SnapshotStatusTrail;
}.

Record SnapshotSplit := {
  split_Recipient : string;
  split_BPS : Z;
}.

Record SnapshotRevenueSplits := {
  rs_RepoID : string;
  rs_Splits : list SnapshotSplit;
}.

Record SnapshotSponsorTotal := {
  tot_RepoID : string;
  tot_Denom : string;
  tot_Amount : string;
}.

Record SnapshotEconomic := {
  eco_Splits : list SnapshotRevenueSplits;
  eco_Totals : list SnapshotSponsorTotal;
}.

Record SnapshotOriginalUsername := {
  un_Name : string;
  un_Owner : string;
}.

Record UsernameEscrowRelease := {
  esc_AllReleased : bool;
  esc_Contract : string;
  esc_Height : Z;
  esc_BlockHash : string;
  esc_Denom : string;
  esc_EscrowBalance : string;
  esc_EvidenceSHA256 : string;
}.

Record SnapshotUsername := {
  usr_OriginalOwners : list SnapshotOriginalUsername;
  usr_ReservedNames : list string;
  usr_EscrowRelease : UsernameEscrowRelease;
}.

Record SnapshotBadge := {
  badge_ID : Z;
  badge_RepoID : string;
  badge_Recipient : string;
  badge_AwardedBy : string;
  badge_Reason : string;
  badge_AwardedAt : Z;
}.

Record SnapshotBadgeRecipientIndex := {
  bri_Recipient : string;
  bri_BadgeIDs : list Z;
}.

Record SnapshotBadgeRepositoryIndex := {
  bpi_RepoID : string;
  bpi_BadgeIDs : list Z;
}.

Record SnapshotBadgeIndexes := {
  bi_ByRecipient : list SnapshotBadgeRecipientIndex;
  bi_ByRepository : list SnapshotBadgeRepositoryIndex;
}.

Record SnapshotRelease := {
  rel_Version : string;
  rel_Platform : string;
  rel_SHA256 : string;
  rel_RegisteredBy : string;
  rel_RegisteredAt : Z;
}.

Record SnapshotReleaseVersion := {
  rv_Version : string;
  rv_Platforms : list string;
}.

Record Snapshot := {
  snap_Schema : string;
  snap_Source : SnapshotSource;
  snap_ContractPolicy : ContractPolicy;
  snap_Repositories : list SnapshotRepository;
  snap_Aliases : list SnapshotAlias;
  snap_Refs : list SnapshotRef;
  snap_Collaborators : list SnapshotCollaborator;
  snap_GuardianConfigs : list SnapshotGuardianConfig;
  snap_Moderation : SnapshotModeration;
  snap_Economic : SnapshotEconomic;
  snap_Username : SnapshotUsername;
  snap_Badges : list SnapshotBadge;
  snap_BadgeIndexes : SnapshotBadgeIndexes;
  snap_Releases : list SnapshotRelease;
  snap_ReleaseVersions : list SnapshotReleaseVersion;
}.

(** ** The plan *)

Record BuildOptions := {
  opt_TargetChainID : Z;
  opt_Directory : string;
  opt_Coordinator : string;
  opt_BatchSize : Z;
}.

Record PlanSnapshot := {
  ps_Schema : string;
  ps_SHA256 : string;
  ps_Root : string;
  ps_SourceChainID : string;
  ps_SourceContract : string;
  ps_SourceHeight : Z;
  ps_SourceBlockHash : string;
  ps_InventorySHA256 : string;
  ps_TxSearchSHA256 : string;
  ps_BlockEvidenceSHA256 : string;
  ps_EventCommitmentSHA256 : string;
}.

Record PlanTarget := {
  tgt_ChainID : Z;
  tgt_SuiteVersion : Z;
  tgt_Directory : string;
  tgt_Coordinator : string;
}.

Record PlanLimits := {
  lim_BatchSize : Z;
  lim_MaxBatchItems : Z;
  lim_MaxPayloadBytes : Z;
}.

Record PlanBatch := {
  pb_Sequence : Z;
  pb_Kind : string;
  pb_KindCode : Z;
  pb_Count : Z;
  pb_ItemKeys : list string;
  pb_Payload : string;
  pb_PayloadHash : string;
  pb_RollingRoot : string;
}.

Record ModulePlan := {
  mp_Order : Z;
  mp_Name : string;
  mp_ID : string;
  mp_ExpectedCount : Z;
  mp_ExpectedBatches : Z;
  mp_ExpectedRoot : string;
  mp_Batches : list PlanBatch;
}.

Record PlanSummary := {
  sum_RepositoryCount : Z;
  sum_AliasCount : Z;
  sum_RefCount : Z;
  sum_CollaboratorCount : Z;
  sum_GuardianConfigCount : Z;
  sum_ModerationStatusCount : Z;
  sum_ModerationReportCount : Z;
  sum_ModerationTrailCount : Z;
  sum_EconomicSplitCount : Z;
  sum_EconomicTotalCount : Z;
  sum_UsernameOwnerCount : Z;
  sum_ReservedNameCount : Z;
  sum_BadgeCount : Z;
  sum_ReleaseArtifactCount : Z;
  sum_BatchCount : Z;
  sum_TransactionCount : Z;
}.

Record Plan := {
  plan_Schema : string;
  plan_Executable : bool;
  plan_Snapshot : PlanSnapshot;
  plan_Target : PlanTarget;
  plan_ContractPolicy : ContractPolicy;
  plan_UsernameEscrowRelease : UsernameEscrowRelease;
  plan_UsernameEscrowEvidenceHash : string;
  plan_Limits : PlanLimits;
  plan_Modules : list ModulePlan;
  plan_Summary : PlanSummary;
}.

(** ** The calldata manifest *)

Record ManifestTransaction := {
  tx_Order : Z;
  tx_ModuleOrder : option Z;
  tx_Module : string;
  tx_ModuleID : string;
  tx_Sequence : option Z;
  tx_Phase : string;
  tx_Function : string;
  tx_ExpectedEvent : string;
  tx_ExpectedTopic : string;
  tx_To : string;
  tx_Value : string;
  tx_Data : string;
}.

Record CalldataManifest := {
  man_Schema : string;
  man_CalldataReady : bool;
  man_Signed : bool;
  man_Broadcast : bool;
  man_PlanSHA256 : string;
  man_SnapshotRoot : string;
  man_Target : PlanTarget;
  man_Transactions : list ManifestTransaction;
}.

(** ** Ranges of the Go integer types of a decoded snapshot *)

Definition is_u64 (z : Z) : Prop := 0 <= z < 2 ^ 64.
Definition is_u16 (z : Z) : Prop := 0 <= z < 2 ^ 16.
Definition is_u8 (z : Z) : Prop := 0 <= z < 2 ^ 8.

Definition repository_typed (r : SnapshotRepository) : Prop :=
  is_u64 (repo_CreatedAt r) /\ is_u64 (repo_UpdatedAt r).
Definition report_typed (r : SnapshotReport) : Prop :=
  is_u64 (rep_ID r) /\ is_u64 (rep_CreatedAt r) /\ is_u64 (rep_UpdatedAt r) /\
  Forall (fun e => is_u64 (rt_Timestamp e)) (rep_Trail r).
Definition status_trail_typed (t : SnapshotStatusTrail) : Prop :=
  Forall (fun e => is_u64 (sl_Timestamp e) /\ is_u64 (sl_ReportID e)) (st_Trail t).
Definition badge_typed (b : SnapshotBadge) : Prop :=
  is_u64 (badge_ID b) /\ is_u64 (badge_AwardedAt b).

(** What [encoding/json] guarantees of a decoded [Snapshot]: every integer is
    within its Go type, and the slices together hold fewer than [2^40] records (the raw document is
    an in-memory byte slice). *)
Record snapshot_typed (s : Snapshot) : Prop := {
  ty_height : is_u64 (src_Height (snap_Source s));
  ty_fee : is_u16 (pol_PlatformFeeBPS (snap_ContractPolicy s));
  ty_repositories : Forall repository_typed (snap_Repositories s);
  ty_refs : Forall (fun r => is_u64 (ref_UpdatedAt r)) (snap_Refs s);
  ty_guardians : Forall (fun g => is_u8 (guard_Threshold g)) (snap_GuardianConfigs s);
  ty_reports : Forall report_typed (mod_Reports (snap_Moderation s));
  ty_trails : Forall status_trail_typed (mod_StatusTrails (snap_Moderation s));
  ty_splits : Forall (fun r => Forall (fun e => is_u16 (split_BPS e)) (rs_Splits r))
                (eco_Splits (snap_Economic s));
  ty_escrow : is_u64 (esc_Height (usr_EscrowRelease (snap_Username s)));
  ty_badges : Forall badge_typed (snap_Badges s);
  ty_releases : Forall (fun r => is_u64 (rel_RegisteredAt r)) (snap_Releases s);
  ty_lengths :
    llen (snap_Repositories s) + llen (snap_Aliases s) + llen (snap_Refs s) +
    llen (snap_Collaborators s) + llen (snap_GuardianConfigs s) +
    llen (mod_FinalStatuses (snap_Moderation s)) + llen (mod_Reports (snap_Moderation s)) +
    llen (mod_StatusTrails (snap_Moderation s)) + llen (eco_Splits (snap_Economic s)) +
    llen (eco_Totals (snap_Economic s)) + llen (usr_OriginalOwners (snap_Username s)) +
    llen (usr_ReservedNames (snap_Username s)) + llen (snap_Badges s) +
    llen (snap_Releases s) < 2 ^ 40;
}.

(** ** Decidable equality, for [reflect.DeepEqual] *)

#[export] Instance PlanTarget_eq_dec : EqDecision PlanTarget.
Proof. solve_decision. Defined.
#[export] Instance ManifestTransaction_eq_dec : EqDecision ManifestTransaction.
Proof. solve_decision. Defined.
#[export] Instance CalldataManifest_eq_dec : EqDecision CalldataManifest.
Proof. solve_decision. Defined.
