(* ===== verification/Codec.v ===== *)
(** * Module specifications, ABI records and hash commitments

    [cli/internal/suitemigration/codec.go]: the seven modules and their
    identifiers, the ABI records written to the chain with their argument
    types, the payload codec, the rolling import root and the canonical parsers
    of hashes and addresses. *)
From Stdlib Require Import ZArith Lia.
From stdpp Require Import base list gmap strings.
From S2P Require Import Prelude GoText Geth Schema.

Local Open Scope Z_scope.

Section Codec.
Context {GE : Geth}.

(** ** Modules *)

Record moduleSpec := { spec_name : string; spec_domain : string; spec_id : bytes }.

Definition mk_spec (name domain : string) : moduleSpec :=
  {| spec_name := name; spec_domain := domain; spec_id := keccak256 (string_bytes domain) |}.

Definition requiredModules : list moduleSpec := [
  mk_spec "repository-core" "igit.module.repository-core";
  mk_spec "recovery" "igit.module.recovery";
  mk_spec "moderation" "igit.module.moderation";
  mk_spec "economic" "igit.module.economic";
  mk_spec "username" "igit.module.username";
  mk_spec "badge" "igit.module.badge";
  mk_spec "release" "igit.module.release" ].

(** ** ABI records, and the tuples the packer sees for them *)

Record coreRepositoryABI := mk_coreRepository {
  cr_ID : bytes; cr_Owner : bytes; cr_Name : string; cr_Description : string;
  cr_DefaultBranch : string; cr_ForkedFrom : bytes; cr_CreatedAt : Z; cr_UpdatedAt : Z }.
Definition coreRepository_value (r : coreRepositoryABI) : abi_value := VTuple [
  VBytes32 (cr_ID r); VAddress (cr_Owner r); VString (cr_Name r);
  VString (cr_Description r); VString (cr_DefaultBranch r); VBytes32 (cr_ForkedFrom r);
  VUint (cr_CreatedAt r); VUint (cr_UpdatedAt r)].

Record coreAliasABI := mk_coreAlias { ca_RepoID : bytes; ca_Owner : bytes; ca_Name : string }.
Definition coreAlias_value (r : coreAliasABI) : abi_value := VTuple [
  VBytes32 (ca_RepoID r); VAddress (ca_Owner r); VString (ca_Name r)].

Record coreRefABI := mk_coreRef {
  cf_RepoID : bytes; cf_RefName : string; cf_CommitSHA : string;
  cf_PackURIs : list string; cf_UpdatedAt : Z; cf_UpdatedBy : bytes }.
Definition coreRef_value (r : coreRefABI) : abi_value := VTuple [
  VBytes32 (cf_RepoID r); VString (cf_RefName r); VString (cf_CommitSHA r);
  VSlice (map VString (cf_PackURIs r)); VUint (cf_UpdatedAt r); VAddress (cf_UpdatedBy r)].

Record coreCollaboratorABI := mk_coreCollaborator {
  cc_RepoID : bytes; cc_Account : bytes; cc_Role : Z }.
Definition coreCollaborator_value (r : coreCollaboratorABI) : abi_value := VTuple [
  VBytes32 (cc_RepoID r); VAddress (cc_Account r); VUint (cc_Role r)].

Record guardianConfigABI := mk_guardianConfig {
  gc_RepoID : bytes; gc_ConfiguredBy : bytes; gc_Threshold : Z; gc_Guardians : list bytes }.
Definition guardianConfig_value (r : guardianConfigABI) : abi_value := VTuple [
  VBytes32 (gc_RepoID r); VAddress (gc_ConfiguredBy r); VUint (gc_Threshold r);
  VSlice (map VAddress (gc_Guardians r))].

Record moderationStatusABI := mk_moderationStatus { ms_RepoID : bytes; ms_Status : Z }.
Definition moderationStatus_value (r : moderationStatusABI) : abi_value := VTuple [
  VBytes32 (ms_RepoID r); VUint (ms_Status r)].

Record moderationReportRecordABI := mk_moderationReportRecord {
  mr_ID : Z; mr_RepoID : bytes; mr_Reporter : bytes; mr_Status : Z; mr_Resolution : Z;
  mr_ReasonHash : string; mr_CreatedAt : Z; mr_UpdatedAt : Z; mr_Exists : bool }.
Record moderationReportTrailABI := mk_moderationReportTrail {
  mt_Action : Z; mt_Actor : bytes; mt_Status : Z; mt_ReasonHash : string; mt_Timestamp : Z }.
Record moderationReportABI := mk_moderationReport {
  mrep_Report : moderationReportRecordABI; mrep_Trail : list moderationReportTrailABI }.
Definition moderationReportTrail_value (e : moderationReportTrailABI) : abi_value := VTuple [
  VUint (mt_Action e); VAddress (mt_Actor e); VUint (mt_Status e);
  VString (mt_ReasonHash e); VUint (mt_Timestamp e)].
Definition moderationReport_value (r : moderationReportABI) : abi_value :=
  let p := mrep_Report r in VTuple [
    VTuple [VUint (mr_ID p); VBytes32 (mr_RepoID p); VAddress (mr_Reporter p);
            VUint (mr_Status p); VUint (mr_Resolution p); VString (mr_ReasonHash p);
            VUint (mr_CreatedAt p); VUint (mr_UpdatedAt p); VBool (mr_Exists p)];
    VSlice (map moderationReportTrail_value (mrep_Trail r))].

Record moderationStatusLogABI := mk_moderationStatusLog {
  ml_Status : Z; ml_Actor : bytes; ml_ReasonHash : string; ml_Timestamp : Z; ml_ReportID : Z }.
Record moderationStatusTrailABI := mk_moderationStatusTrail {
  mst_RepoID : bytes; mst_Trail : list moderationStatusLogABI }.
Definition moderationStatusLog_value (e : moderationStatusLogABI) : abi_value := VTuple [
  VUint (ml_Status e); VAddress (ml_Actor e); VString (ml_ReasonHash e);
  VUint (ml_Timestamp e); VUint (ml_ReportID e)].
Definition moderationStatusTrail_value (r : moderationStatusTrailABI) : abi_value := VTuple [
  VBytes32 (mst_RepoID r); VSlice (map moderationStatusLog_value (mst_Trail r))].

Record economicSplitABI := mk_economicSplit { es_Recipient : bytes; es_BPS : Z }.
Record economicSplitsABI := mk_economicSplits {
  ess_RepoID : bytes; ess_Splits : list economicSplitABI }.
Definition economicSplit_value (e : economicSplitABI) : abi_value := VTuple [
  VAddress (es_Recipient e); VUint (es_BPS e)].
Definition economicSplits_value (r : economicSplitsABI) : abi_value := VTuple [
  VBytes32 (ess_RepoID r); VSlice (map economicSplit_value (ess_Splits r))].

Record economicTotalABI := mk_economicTotal {
  et_RepoID : bytes; et_Denom : string; et_Amount : option Z }.
Definition economicTotal_value (r : economicTotalABI) : abi_value := VTuple [
  VBytes32 (et_RepoID r); VString (et_Denom r);
  match et_Amount r with Some n => VUint n | None => VNil end].

Record usernameOwnerABI := mk_usernameOwner { uo_Name : string; uo_Owner : bytes }.
Definition usernameOwner_value (r : usernameOwnerABI) : abi_value := VTuple [
  VString (uo_Name r); VAddress (uo_Owner r)].

Record badgeABI := mk_badge {
  bd_ID : Z; bd_RepoID : bytes; bd_Recipient : bytes; bd_AwardedBy : bytes;
  bd_Reason : string; bd_AwardedAt : Z; bd_Exists : bool }.
Definition badge_value (r : badgeABI) : abi_value := VTuple [
  VUint (bd_ID r); VBytes32 (bd_RepoID r); VAddress (bd_Recipient r);
  VAddress (bd_AwardedBy r); VString (bd_Reason r); VUint (bd_AwardedAt r);
  VBool (bd_Exists r)].

Record releaseABI := mk_release {
  rl_Version : string; rl_Platform : string; rl_SHA256 : bytes; rl_RegisteredBy : bytes;
  rl_RegisteredAt : Z; rl_Exists : bool }.
Definition release_value (r : releaseABI) : abi_value := VTuple [
  VString (rl_Version r); VString (rl_Platform r); VBytes32 (rl_SHA256 r);
  VAddress (rl_RegisteredBy r); VUint (rl_RegisteredAt r); VBool (rl_Exists r)].

(** ** Argument types *)

Definition outerPayloadArguments : list abi_type := [TUint 8; TBytes].
Definition rollingRootArguments : list abi_type :=
  [TBytes32; TBytes32; TUint 256; TUint 256; TBytes32].
Definition rollingSeedArguments : list abi_type := [TBytes32; TBytes32].

Definition tupleArrayArguments (components : list (string * abi_type)) : list abi_type :=
  [TSlice (TTuple components)].

Definition coreRepositoryArguments := tupleArrayArguments [
  ("id", TBytes32); ("owner", TAddress); ("name", TString); ("description", TString);
  ("defaultBranch", TString); ("forkedFrom", TBytes32); ("createdAt", TUint 64);
  ("updatedAt", TUint 64)]%string.
Definition coreAliasArguments := tupleArrayArguments [
  ("repoId", TBytes32); ("owner", TAddress); ("name", TString)]%string.
Definition coreRefArguments := tupleArrayArguments [
  ("repoId", TBytes32); ("refName", TString); ("commitSha", TString);
  ("packUris", TSlice TString); ("updatedAt", TUint 64); ("updatedBy", TAddress)]%string.
Definition coreCollaboratorArguments := tupleArrayArguments [
  ("repoId", TBytes32); ("account", TAddress); ("role", TUint 8)]%string.
Definition guardianArguments := tupleArrayArguments [
  ("repoId", TBytes32); ("configuredBy", TAddress); ("threshold", TUint 8);
  ("guardians", TSlice TAddress)]%string.
Definition moderationStatusArguments := tupleArrayArguments [
  ("repoId", TBytes32); ("status", TUint 8)]%string.
Definition moderationReportArguments := tupleArrayArguments [
  ("report", TTuple [("id", TUint 256); ("repoId", TBytes32); ("reporter", TAddress);
     ("status", TUint 8); ("resolution", TUint 8); ("reasonHash", TString);
     ("createdAt", TUint 64); ("updatedAt", TUint 64); ("exists", TBool)]);
  ("trail", TSlice (TTuple [("action", TUint 8); ("actor", TAddress); ("status", TUint 8);
     ("reasonHash", TString); ("timestamp", TUint 64)]))]%string.
Definition moderationStatusTrailArguments := tupleArrayArguments [
  ("repoId", TBytes32);
  ("trail", TSlice (TTuple [("status", TUint 8); ("actor", TAddress);
     ("reasonHash", TString); ("timestamp", TUint 64); ("reportId", TUint 256)]))]%string.
Definition economicSplitsArguments := tupleArrayArguments [
  ("repoId", TBytes32);
  ("splits", TSlice (TTuple [("recipient", TAddress); ("bps", TUint 16)]))]%string.
Definition economicTotalArguments := tupleArrayArguments [
  ("repoId", TBytes32); ("denom", TString); ("amount", TUint 256)]%string.
Definition usernameOwnerArguments := tupleArrayArguments [
  ("name", TString); ("owner", TAddress)]%string.
Definition usernameReservedArguments : list abi_type := [TSlice TString].
Definition badgeArguments := tupleArrayArguments [
  ("id", TUint 256); ("repoId", TBytes32); ("recipient", TAddress); ("awardedBy", TAddress);
  ("reason", TString); ("awardedAt", TUint 64); ("exists", TBool)]%string.
Definition releaseArguments := tupleArrayArguments [
  ("version", TString); ("platform", TString); ("sha256", TBytes32);
  ("registeredBy", TAddress); ("registeredAt", TUint 64); ("exists", TBool)]%string.

(** ** Payload codec *)

Definition encodeDirectPayload (arguments : list abi_type) (records : abi_value)
  : result bytes := abi_Pack arguments [records].

Definition encodeKindPayload (kind : Z) (arguments : list abi_type) (records : abi_value)
  : result bytes :=
  let? inner := abi_Pack arguments [records] in
  abi_Pack outerPayloadArguments [VUint kind; VBytes inner].

(** The [encode] closure of [kindGroup]. *)
Definition encode_group (wrapped : bool) (kind : Z) (arguments : list abi_type)
    (records : abi_value) : result bytes :=
  if wrapped then encodeKindPayload kind arguments records
  else encodeDirectPayload arguments records.

(** [values[kind]] behind the [int(kind) >= len(values)] guard. *)
Definition kind_arguments (module : string) (kind : Z) (wrapped : bool)
    (values : list (list abi_type)) : result (list abi_type * bool) :=
  match values !! Z.to_nat kind with
  | Some a => Ok (a, wrapped)
  | None => errf "invalid %s kind %d" [GStr module; GInt kind]
  end.

Definition payloadArguments (module : string) (kind : Z) : result (list abi_type * bool) :=
  if decide (module = "repository-core"%string) then
    kind_arguments module kind true
      [coreRepositoryArguments; coreAliasArguments; coreRefArguments; coreCollaboratorArguments]
  else if decide (module = "recovery"%string) then
    fail_if negb (kind =? 0) as Errorf "invalid recovery kind %d" [GInt kind] ;;
    Ok (guardianArguments, false)
  else if decide (module = "moderation"%string) then
    kind_arguments module kind true
      [moderationStatusArguments; moderationReportArguments; moderationStatusTrailArguments]
  else if decide (module = "economic"%string) then
    kind_arguments module kind true [economicSplitsArguments; economicTotalArguments]
  else if decide (module = "username"%string) then
    kind_arguments module kind true [usernameOwnerArguments; usernameReservedArguments]
  else if decide (module = "badge"%string) then
    fail_if negb (kind =? 0) as Errorf "invalid badge kind %d" [GInt kind] ;;
    Ok (badgeArguments, false)
  else if decide (module = "release"%string) then
    fail_if negb (kind =? 0) as Errorf "invalid release kind %d" [GInt kind] ;;
    Ok (releaseArguments, false)
  else errf "unknown module %q" [GStr module].

(** [err != nil || !bytes.Equal(repacked, payload)] *)
Definition canonical_abi (ts : list abi_type) (vs : list abi_value) (payload : bytes) : bool :=
  match abi_Pack ts vs with
  | Ok repacked => bool_decide (repacked = payload)
  | Err _ => false
  end.

(** The kind wrapper: checks it and returns the wrapped bytes. *)
Definition unwrap_kind (kind : Z) (payload : bytes) : result bytes :=
  let? outer := wrapf "decode kind wrapper" [] (abi_Unpack outerPayloadArguments payload) in
  match outer with
  | [VUint k; VBytes inner] =>
      fail_if negb (k =? kind) as Errorf "payload kind wrapper does not match plan" [] ;;
      fail_if negb (canonical_abi outerPayloadArguments outer payload)
        as Errorf "payload kind wrapper is not canonical ABI" [] ;;
      Ok inner
  | _ => errf "payload kind wrapper does not match plan" []
  end.

Definition decodePayloadCount (module : string) (kind : Z) (payload : bytes) : result Z :=
  let? (arguments, wrapped) := payloadArguments module kind in
  let? encoded := (if wrapped : bool then unwrap_kind kind payload else Ok payload) in
  let? values := wrapf "decode records" [] (abi_Unpack arguments encoded) in
  match values with
  | [VSlice records] =>
      fail_if negb (canonical_abi arguments values encoded)
        as Errorf "record payload is not canonical ABI" [] ;;
      Ok (u64 (llen records))
  | _ => errf "payload does not contain exactly one record array" []
  end.

(** ** Rolling import root *)

(** [if err != nil { panic(err) }] *)
Definition must {A} (r : result A) : result A := wrapf "panic" [] r.

Definition rollingSeed (id snapshotRoot : bytes) : result bytes :=
  let? encoded := must (abi_Pack rollingSeedArguments [VBytes32 id; VBytes32 snapshotRoot]) in
  Ok (keccak256 encoded).

Definition rollingStep (previous id : bytes) (sequence count : Z) (payloadHash : bytes)
  : result bytes :=
  let? encoded := must (abi_Pack rollingRootArguments
    [VBytes32 previous; VBytes32 id; VUint sequence; VUint count; VBytes32 payloadHash]) in
  Ok (keccak256 encoded).

(** ** Canonical text *)

Definition hexBytes (value : bytes) : string := "0x" +:+ hex_encode value.

Definition parseHexBytes (label value : string) : result bytes :=
  fail_if negb (HasPrefix value "0x") || negb (bool_decide (value = ToLower value)) ||
          negb (slen value mod 2 =? 0)
    as Errorf "%s must be canonical lowercase 0x-prefixed hex" [GStr label] ;;
  match hex_decode (TrimPrefix value "0x") with
  | Some decoded => Ok decoded
  | None => errf "%s: %w" [GStr label]
  end.

Definition parseHash (label value : string) : result bytes :=
  let? decoded := parseHexBytes label value in
  fail_if negb (llen decoded =? 32) as Errorf "%s must be 32 bytes" [GStr label] ;;
  Ok decoded.

Definition parseRawHash (label value : string) : result bytes := parseHash label value.

Definition zero_address_text : string := "0x0000000000000000000000000000000000000000".

Definition canonicalAddress (label value : string) : result bytes :=
  fail_if negb (bool_decide (value = ToLower value)) || negb (IsHexAddress value) ||
          negb (slen value =? 42) || bool_decide (value = zero_address_text)
    as Errorf "%s must be a nonzero canonical lowercase EVM address" [GStr label] ;;
  Ok (HexToAddress value).

Definition rawSHA256 (label value : string) : result bytes :=
  fail_if negb (slen value =? 64) || negb (bool_decide (value = ToLower value))
    as Errorf "%s must be a lowercase 32-byte hex digest" [GStr label] ;;
  match hex_decode value with
  | None => errf "%s: %w" [GStr label]
  | Some decoded =>
      fail_if bool_decide (decoded = zero_bytes 32)
        as Errorf "%s must not be zero" [GStr label] ;;
      Ok decoded
  end.

End Codec.

(** ** Lemmas: canonical text *)

Section TextLemmas.
Context {GE : Geth}.

Lemma hexBytes_lower b : ToLower (hexBytes b) = hexBytes b.
Proof. unfold hexBytes. by rewrite ToLower_app, hex_encode_lower. Qed.

Lemma slen_hexBytes b : slen (hexBytes b) = 2 + 2 * llen b.
Proof. unfold hexBytes. by rewrite slen_app, slen_hex_encode. Qed.

#[export] Instance hexBytes_inj : Inj (=) (=) hexBytes.
Proof. unfold hexBytes. intros a b H%(inj (String.app "0x")). by apply (inj hex_encode). Qed.

Lemma parseHexBytes_spec label value b :
  parseHexBytes label value = Ok b <-> value = hexBytes b.
Proof.
  unfold parseHexBytes. split.
  - intros H. go_inv H. bool_prop.
    match goal with Hp : HasPrefix _ _ = true |- _ => apply HasPrefix_spec in Hp as [r ->] end.
    rewrite TrimPrefix_app in H.
    destruct (hex_decode r) as [d|] eqn:Ed; [|done]. go_inv H. subst d.
    unfold hexBytes. rewrite (hex_decode_lower _ _ Ed).
    match goal with Hl : _ = ToLower _ |- _ =>
      rewrite ToLower_app in Hl; by apply (inj (String.app "0x")) in Hl as <- end.
  - intros ->. unfold hexBytes at 1. rewrite HasPrefix_app, hexBytes_lower, slen_hexBytes.
    rewrite bool_decide_eq_true_2 by done. simpl.
    replace ((2 + 2 * llen b) mod 2) with 0 by (rewrite Z.mul_comm, Z.mod_add; done). simpl.
    unfold hexBytes. by rewrite TrimPrefix_app, hex_decode_encode.
Qed.

Lemma parseHash_spec label value h :
  parseHash label value = Ok h <-> value = hexBytes h /\ length h = 32%nat.
Proof.
  unfold parseHash. rewrite bind_ok. split.
  - intros (d & Hd & H). go_inv H. subst d. apply parseHexBytes_spec in Hd. bool_prop.
    split; [done|]. unfold llen in *. lia.
  - intros [Hv Hl]. exists h. split; [by apply parseHexBytes_spec|].
    unfold llen. by rewrite Hl.
Qed.

Lemma rawSHA256_spec label value h :
  rawSHA256 label value = Ok h <->
  value = hex_encode h /\ length h = 32%nat /\ h <> zero_bytes 32.
Proof.
  unfold rawSHA256. split.
  - intros H. go_inv H. bool_prop. destruct (hex_decode value) as [d|] eqn:Ed; [|done].
    go_inv H. subst d. bool_prop.
    pose proof (slen_hex_decode _ _ Ed). apply hex_decode_lower in Ed.
    split; [congruence|]. unfold llen in *. split; [lia|done].
  - intros (-> & Hl & Hz). rewrite slen_hex_encode, hex_encode_lower, hex_decode_encode.
    unfold llen. rewrite Hl, bool_decide_eq_true_2, bool_decide_eq_false_2 by done. done.
Qed.

Lemma hex_decode_total s :
  all_chars is_hex_char s = true -> slen s mod 2 = 0 -> exists b, hex_decode s = Some b.
Proof.
  induction s as [|a|a c s IH] using string_pair_ind; intros Hc Hl; [by exists []|done|].
  simpl in Hc. apply andb_true_iff in Hc as [Ha Hc]. apply andb_true_iff in Hc as [Hc Hs].
  destruct IH as [r Hr]; [done| |].
  { unfold slen in *. simpl String.length in Hl.
    rewrite !Nat2Z.inj_succ in Hl. rewrite <- Hl.
    replace (Z.succ (Z.succ (Z.of_nat (String.length s))))
      with (Z.of_nat (String.length s) + 1 * 2) by lia. by rewrite Z.mod_add by lia. }
  assert (forall x, is_hex_char x = true -> exists h, hex_value x = Some h) as Hv.
  { intros x Hx. unfold is_hex_char in Hx. unfold hex_value.
    destruct (is_digit x); [by eexists|]. destruct (between 97 102 x); [by eexists|].
    destruct (between 65 70 x); [by eexists|done]. }
  destruct (Hv a Ha) as [h Eh], (Hv c Hc) as [l El].
  pose proof (hex_value_bound _ _ Eh). pose proof (hex_value_bound _ _ El).
  simpl. rewrite Eh, El, Hr. destruct (Byte.of_N _) as [x|] eqn:Ex; [by eexists|].
  apply Byte.of_N_None_iff in Ex. lia.
Qed.

End TextLemmas.

Section AddressLemmas.
Context {GE : Geth} {GL : GethLaws}.

Definition address_text (a : bytes) : string := hexBytes a.

Lemma canonicalAddress_spec label value a :
  canonicalAddress label value = Ok a <->
  value = hexBytes a /\ length a = 20%nat /\ a <> zero_bytes 20.
Proof.
  unfold canonicalAddress. rewrite IsHexAddress_spec. unfold hex_address_shape. split.
  - intros Ho. go_inv Ho. bool_prop.
    destruct (cut_prefix "0x" value) as [r|] eqn:E.
    + apply cut_prefix_spec in E. subst value. bool_prop.
      destruct (hex_decode_total r) as [d Ed]; [done| |].
      { by replace (slen r) with 40. }
      pose proof (slen_hex_decode _ _ Ed) as Hd. unfold llen in Hd.
      rewrite (HexToAddress_spec r d) in Ho by (done || lia). subst d.
      assert (r = ToLower r) as Hr.
      { match goal with Hl : _ = ToLower _ |- _ => rewrite ToLower_app in Hl;
          by apply (inj (String.app "0x")) in Hl end. }
      rewrite <- (hex_decode_lower _ _ Ed) in Hr. unfold hexBytes. rewrite <- Hr.
      split_and!; [done|lia|]. intros ->. subst r. done.
    + destruct (cut_prefix "0X" value) as [r|] eqn:E'.
      * apply cut_prefix_spec in E'. subst value.
        match goal with Hl : (_ = ToLower _)%string |- _ => rewrite ToLower_app in Hl; discriminate Hl end.
      * bool_prop. lia.
  - intros (-> & Hl & Hz). rewrite hexBytes_lower, slen_hexBytes.
    unfold hexBytes at 2. rewrite (proj2 (cut_prefix_spec "0x" _ _)) by reflexivity.
    rewrite slen_hex_encode, all_hex_encode. unfold llen. rewrite Hl.
    rewrite bool_decide_eq_true_2 by done. simpl.
    rewrite bool_decide_eq_false_2.
    + unfold hexBytes. by rewrite (HexToAddress_spec (hex_encode a) a)
        by (done || apply hex_decode_encode).
    + intros E. apply Hz. apply (inj hexBytes). rewrite E. reflexivity.
Qed.

(** Lowering the checksummed text of a canonical address gives it back. *)
Lemma canonicalAddress_hex label value a :
  canonicalAddress label value = Ok a -> ToLower (AddressHex a) = value.
Proof.
  intros (-> & Hl & _)%canonicalAddress_spec. by rewrite AddressHex_spec.
Qed.

Lemma HexToAddress_canonical label value a :
  canonicalAddress label value = Ok a -> HexToAddress value = a.
Proof.
  intros (-> & Hl & _)%canonicalAddress_spec. unfold hexBytes.
  apply HexToAddress_spec; [apply hex_decode_encode|done].
Qed.
End AddressLemmas.

(** ** Lemmas: payloads and commitments *)

Section PayloadLemmas.
Context {GE : Geth} {GL : GethLaws}.

Lemma canonical_packed ts vs b : abi_Pack ts vs = Ok b -> canonical_abi ts vs b = true.
Proof. intros Hp. unfold canonical_abi. rewrite Hp. by apply bool_decide_eq_true. Qed.

(** Decoding an encoded payload finds the number of records that were encoded. *)
Lemma decode_encode_payload module kind arguments wrapped vs payload :
  payloadArguments module kind = Ok (arguments, wrapped) ->
  0 <= kind < 256 ->
  have_types arguments [VSlice vs] = true ->
  encode_group wrapped kind arguments (VSlice vs) = Ok payload ->
  decodePayloadCount module kind payload = Ok (u64 (llen vs)).
Proof.
  intros Ha Hk Ht He. unfold decodePayloadCount. rewrite Ha.
  assert (forall encoded, abi_Pack arguments [VSlice vs] = Ok encoded ->
    (let? values := wrapf "decode records" [] (abi_Unpack arguments encoded) in
     match values with
     | [VSlice records] =>
         fail_if negb (canonical_abi arguments values encoded)
           as Errorf "record payload is not canonical ABI" [] ;;
         Ok (u64 (llen records))
     | _ => errf "payload does not contain exactly one record array" []
     end) = Ok (u64 (llen vs))) as Hrec.
  { intros encoded Hp. rewrite (Unpack_Pack _ _ _ Ht Hp). simpl.
    by rewrite (canonical_packed _ _ _ Hp). }
  destruct wrapped; simpl in *.
  - apply bind_ok in He as (inner & Hp & Ho). unfold unwrap_kind.
    assert (have_types outerPayloadArguments [VUint kind; VBytes inner] = true) as Hto.
    { simpl. rewrite andb_true_r. apply andb_true_iff. rewrite Z.leb_le, Z.ltb_lt.
      change (2 ^ 8) with 256. lia. }
    rewrite (Unpack_Pack _ _ _ Hto Ho). simpl.
    rewrite Z.eqb_refl. simpl. rewrite (canonical_packed _ _ _ Ho). simpl. by apply Hrec.
  - by apply Hrec.
Qed.

Lemma encode_group_total wrapped kind arguments vs :
  0 <= kind < 256 -> have_types arguments [VSlice vs] = true ->
  exists payload, encode_group wrapped kind arguments (VSlice vs) = Ok payload.
Proof.
  intros Hk Ht. destruct (Pack_typed _ _ Ht) as [inner Hi].
  destruct wrapped; simpl; [|by exists inner]. unfold encodeKindPayload. rewrite Hi.
  apply Pack_typed. simpl. rewrite andb_true_r. apply andb_true_iff.
  rewrite Z.leb_le, Z.ltb_lt. change (2 ^ 8) with 256. lia.
Qed.

Lemma encode_group_nonempty wrapped kind arguments records payload :
  arguments <> [] -> encode_group wrapped kind arguments records = Ok payload -> payload <> [].
Proof.
  intros Ha. destruct wrapped; simpl.
  - intros (inner & _ & Hp)%bind_ok. eapply Pack_nonempty; [|exact Hp]; discriminate.
  - by apply Pack_nonempty.
Qed.

(** Two different messages, one of each kind, with the same Keccak-256 hash. *)
Definition collide (P Q : bytes -> Prop) : Prop :=
  exists x y : bytes, P x /\ Q y /\ x <> y /\ keccak256 x = keccak256 y.

Definition step_values (previous id : bytes) (sequence count : Z) (payloadHash : bytes) :=
  [VBytes32 previous; VBytes32 id; VUint sequence; VUint count; VBytes32 payloadHash].

Lemma step_values_typed previous id sequence count payloadHash :
  length previous = 32%nat -> length id = 32%nat -> length payloadHash = 32%nat ->
  is_u64 sequence -> is_u64 count ->
  have_types rollingRootArguments (step_values previous id sequence count payloadHash) = true.
Proof.
  intros Hp Hi Hh [? Hs] [? Hc]. cbn -[Z.pow]. rewrite Hp, Hi, Hh. cbn -[Z.pow].
  assert (2 ^ 64 < 2 ^ 256) by (apply Z.pow_lt_mono_r; lia).
  repeat (apply andb_true_iff; split); rewrite ?Z.leb_le, ?Z.ltb_lt; (done || lia).
Qed.

Lemma rollingStep_spec previous id sequence count payloadHash :
  length previous = 32%nat -> length id = 32%nat -> length payloadHash = 32%nat ->
  is_u64 sequence -> is_u64 count ->
  exists encoded,
    abi_Pack rollingRootArguments (step_values previous id sequence count payloadHash)
      = Ok encoded /\
    rollingStep previous id sequence count payloadHash = Ok (keccak256 encoded).
Proof.
  intros. destruct (Pack_typed _ _ (step_values_typed previous id sequence count payloadHash
    ltac:(done) ltac:(done) ltac:(done) ltac:(done) ltac:(done))) as [b Hb].
  exists b. split; [done|]. unfold rollingStep. unfold step_values in Hb. by rewrite Hb.
Qed.

Lemma seed_typed id snapshotRoot :
  length id = 32%nat -> length snapshotRoot = 32%nat ->
  have_types rollingSeedArguments [VBytes32 id; VBytes32 snapshotRoot] = true.
Proof. intros Hi Hs. simpl. by rewrite Hi, Hs. Qed.

Lemma rollingSeed_spec id snapshotRoot :
  length id = 32%nat -> length snapshotRoot = 32%nat ->
  exists encoded,
    abi_Pack rollingSeedArguments [VBytes32 id; VBytes32 snapshotRoot] = Ok encoded /\
    rollingSeed id snapshotRoot = Ok (keccak256 encoded).
Proof.
  intros Hi Hs. destruct (Pack_typed _ _ (seed_typed id snapshotRoot Hi Hs)) as [b Hb].
  exists b. split; [done|]. unfold rollingSeed. by rewrite Hb.
Qed.

Lemma length_rollingStep previous id sequence count payloadHash root :
  rollingStep previous id sequence count payloadHash = Ok root -> length root = 32%nat.
Proof. unfold rollingStep. intros Hr. go_inv Hr. subst. apply length_keccak256. Qed.

Lemma length_rollingSeed id snapshotRoot root :
  rollingSeed id snapshotRoot = Ok root -> length root = 32%nat.
Proof. unfold rollingSeed. intros Hr. go_inv Hr. subst. apply length_keccak256. Qed.

Lemma spec_id_length spec : spec ∈ requiredModules -> length (spec_id spec) = 32%nat.
Proof.
  unfold requiredModules. intros Hin.
  repeat (apply elem_of_cons in Hin as [->|Hin]; [apply length_keccak256|]).
  by apply elem_of_nil in Hin.
Qed.

(** What is hashed for a step and for a seed. *)
Definition step_message (previous id : bytes) (sequence count : Z) (payloadHash x : bytes) : Prop :=
  abi_Pack rollingRootArguments (step_values previous id sequence count payloadHash) = Ok x.
Definition seed_message (id snapshotRoot x : bytes) : Prop :=
  abi_Pack rollingSeedArguments [VBytes32 id; VBytes32 snapshotRoot] = Ok x.

(** Equal roots come from equal steps, or their messages collide. *)
Lemma rollingStep_inj p id s c h p' s' c' h' root :
  length p = 32%nat -> length p' = 32%nat -> length id = 32%nat ->
  length h = 32%nat -> length h' = 32%nat ->
  is_u64 s -> is_u64 c -> is_u64 s' -> is_u64 c' ->
  rollingStep p id s c h = Ok root -> rollingStep p' id s' c' h' = Ok root ->
  (p = p' /\ s = s' /\ c = c' /\ h = h') \/
  collide (step_message p id s c h) (step_message p' id s' c' h').
Proof.
  intros Hp Hp' Hi Hh Hh' Hs Hc Hs' Hc' H1 H2.
  destruct (rollingStep_spec p id s c h) as (e & He & E1); [done..|].
  destruct (rollingStep_spec p' id s' c' h') as (e' & He' & E2); [done..|].
  destruct (decide (e = e')) as [->|Hne].
  - left. assert (step_values p id s c h = step_values p' id s' c' h') as Hv.
    { eapply Pack_inj; [apply step_values_typed|apply step_values_typed| |]; done. }
    unfold step_values in Hv. by injection Hv.
  - right. exists e, e'. split_and!; [done..|congruence].
Qed.

(** A step is never what is hashed for a seed. *)
Lemma step_not_seed p id s c h id' snapshotRoot x :
  step_message p id s c h x -> ~ seed_message id' snapshotRoot x.
Proof.
  intros Hx Hs.
  pose proof (Pack_longer rollingSeedArguments (TUint 256) [TUint 256; TBytes32] _ _ x x
    eq_refl Hs Hx). lia.
Qed.

Lemma rollingSeed_inj id snapshotRoot snapshotRoot' seed :
  length id = 32%nat -> length snapshotRoot = 32%nat -> length snapshotRoot' = 32%nat ->
  rollingSeed id snapshotRoot = Ok seed -> rollingSeed id snapshotRoot' = Ok seed ->
  snapshotRoot = snapshotRoot' \/
  collide (seed_message id snapshotRoot) (seed_message id snapshotRoot').
Proof.
  intros Hi Hs Hs' H1 H2.
  destruct (rollingSeed_spec id snapshotRoot) as (e & He & E1); [done..|].
  destruct (rollingSeed_spec id snapshotRoot') as (e' & He' & E2); [done..|].
  destruct (decide (e = e')) as [->|Hne].
  - left. assert ([VBytes32 id; VBytes32 snapshotRoot] = [VBytes32 id; VBytes32 snapshotRoot']) as Hv.
    { eapply Pack_inj; [by apply seed_typed|by apply seed_typed|done|done]. }
    by injection Hv.
  - right. exists e, e'. split_and!; [done..|congruence].
Qed.
End PayloadLemmas.
