(* ===== verification/Validators.v ===== *)
(** * Field validators of the snapshot

    The leaf checks of [cli/internal/suitemigration/plan.go]: enumeration
    codes, decimal amounts, names, ref names and digests, with the contract
    policy and the username escrow release. *)
From Stdlib Require Import ZArith Lia Ascii String.
From stdpp Require Import base list gmap strings.
From S2P Require Import Prelude GoText Geth Schema Codec.

Local Open Scope Z_scope.

(** ** Enumeration codes *)

Definition roleCode (value : string) : result Z :=
  if decide (value = "maintainer"%string) then Ok 1
  else if decide (value = "reader"%string) then Ok 2
  else errf "invalid collaborator role %q" [GStr value].

Definition repoStatusCode (value : string) : result Z :=
  if decide (value = "active"%string) then Ok 0
  else if decide (value = "frozen"%string) then Ok 1
  else if decide (value = "delisted"%string) then Ok 2
  else errf "invalid repository status %q" [GStr value].

Definition reportStatusCode (value : string) : result Z :=
  if decide (value = "open"%string) then Ok 0
  else if decide (value = "resolved"%string) then Ok 1
  else if decide (value = "appealed"%string) then Ok 2
  else if decide (value = "appeal_resolved"%string) then Ok 3
  else errf "invalid report status %q" [GStr value].

Definition trailActionCode (value : string) : result Z :=
  if decide (value = "submitted"%string) then Ok 0
  else if decide (value = "resolved"%string) then Ok 1
  else if decide (value = "appealed"%string) then Ok 2
  else if decide (value = "appeal_resolved"%string) then Ok 3
  else if decide (value = "status_set"%string) then Ok 4
  else errf "invalid moderation trail action %q" [GStr value].

(** ** Amounts *)

Definition positiveDecimal (label value : string) : result Z :=
  fail_if bool_decide (value = ""%string) || HasPrefix value "+" ||
          ((1 <? slen value) && HasPrefix value "0")
    as Errorf "%s must be a canonical positive decimal" [GStr label] ;;
  match big_SetString value with
  | Some number =>
      fail_if (number <=? 0) || (256 <? bit_len number)
        as Errorf "%s must be a positive uint256" [GStr label] ;;
      Ok number
  | None => errf "%s must be a positive uint256" [GStr label]
  end.

Definition zeroDecimal (label value : string) : result unit :=
  fail_if negb (bool_decide (value = "0"%string))
    as Errorf "%s must be exactly 0" [GStr label] ;;
  Ok tt.

(** ** Names *)

Definition repo_name_char (c : ascii) : bool :=
  is_lower c || is_upper c || is_digit c || is_char "-" c || is_char "_" c || is_char "." c.

Definition validRepoName (value : string) : bool :=
  if (slen value =? 0) || (64 <? slen value) then false else all_chars repo_name_char value.

Definition username_char (c : ascii) : bool := is_lower c || is_digit c || is_char "-" c.

Definition validUsername (value : string) : bool :=
  if (slen value <? 3) || (32 <? slen value) || HasPrefix value "-" ||
     HasSuffix value "-" || HasPrefix value "inj1" then false
  else all_chars username_char value.

Definition token_char (c : ascii) : bool :=
  is_lower c || is_upper c || is_digit c || is_char "." c || is_char "-" c || is_char "_" c.

Definition validToken (value : string) (maximum : Z) : bool :=
  if (slen value =? 0) || (maximum <? slen value) then false else all_chars token_char value.

Definition validSHA (value : string) : bool :=
  if negb (slen value =? 40) && negb (slen value =? 64) then false
  else all_chars is_hex_char value.

Definition ref_char (c : ascii) : bool :=
  negb ((code c <? 0x21) || (0x7e <? code c) || is_char "~" c || is_char "^" c ||
        is_char ":" c || is_char "\" c).

Definition validRefName (value : string) : bool :=
  if (slen value <? 5) || (256 <? slen value) || negb (HasPrefix value "refs/") ||
     Contains value ".." then false
  else all_chars ref_char value.

Definition NUL : ascii := ascii_of_N 0.

(** [owner + "\x00" + name] *)
Definition locatorKey (owner name : string) : string := (owner +:+ String NUL name)%string.

Section Validators.
Context {GE : Geth} {MO : MapOrder}.

(** ** Policy and escrow *)

Definition validateContractPolicy (policy : ContractPolicy) : result unit :=
  check? forM (fun '(label, value) => check? canonicalAddress label value ;; Ok tt)
    (map_order [("policy admin", pol_Admin policy); ("treasury", pol_Treasury policy);
       ("committee", pol_Committee policy); ("release authority", pol_ReleaseAuthority policy);
       ("username policy admin", pol_UsernamePolicyAdmin policy)]%string) ;;
  fail_if 500 <? pol_PlatformFeeBPS policy
    as Errorf "platform fee exceeds EconomicModule maximum 500 bps" [] ;;
  Ok tt.

Definition validateEscrowRelease (escrow : UsernameEscrowRelease) (sourceContract : string)
    (sourceHeight : Z) : result unit :=
  fail_if negb (esc_AllReleased escrow)
    as Errorf "username escrow release is not complete" [] ;;
  fail_if negb (bool_decide (esc_Contract escrow = sourceContract))
    as Errorf "username escrow contract does not match source contract" [] ;;
  fail_if esc_Height escrow <? sourceHeight
    as Errorf "username escrow evidence predates cutover snapshot" [] ;;
  check? zeroDecimal "username escrow balance" (esc_EscrowBalance escrow) ;;
  fail_if bool_decide (TrimSpace (esc_Denom escrow) = ""%string)
    as Errorf "username escrow denom is required" [] ;;
  check? rawSHA256 "username escrow block hash" (esc_BlockHash escrow) ;;
  check? rawSHA256 "username escrow evidence SHA-256" (esc_EvidenceSHA256 escrow) ;;
  Ok tt.

(** The one tolerated synthetic source, spelled out twice in the code. *)
Definition demo_source (chainID contract : string) (height : Z) (blockHash : string) : bool :=
  bool_decide (chainID = "injective-evm-testnet-demo"%string) &&
  bool_decide (contract = "synthetic-demo-suite"%string) && (height =? 1) &&
  bool_decide (blockHash = repeat_char "0" 64).

Definition check_source_block (chainID contract : string) (height : Z) (blockHash : string)
  : result unit :=
  match rawSHA256 "source block hash" blockHash with
  | Ok _ => Ok tt
  | Err e => if demo_source chainID contract height blockHash then Ok tt else Err e
  end.

Definition check_evidence (inventory txSearch blockEvidence eventCommitment : string)
  : result unit :=
  forM (fun '(label, value) => check? rawSHA256 label value ;; Ok tt)
    (map_order [("inventory SHA-256", inventory); ("tx_search SHA-256", txSearch);
       ("block evidence SHA-256", blockEvidence);
       ("event commitment SHA-256", eventCommitment)]%string).

End Validators.

(** ** Lemmas *)

Lemma roleCode_range v c : roleCode v = Ok c -> 1 <= c <= 2.
Proof. unfold roleCode. repeat case_decide; intros [= <-]; lia. Qed.

Lemma code_zero_range (f : string -> result Z) v m :
  (forall c, f v = Ok c -> 0 <= c <= m) -> 0 <= m -> 0 <= or_zero 0 (f v) <= m.
Proof. intros Hf Hm. destruct (f v) as [c|]; simpl; [by apply Hf|lia]. Qed.

Lemma repoStatusCode_range v c : repoStatusCode v = Ok c -> 0 <= c <= 2.
Proof. unfold repoStatusCode. repeat case_decide; intros [= <-]; lia. Qed.
Lemma reportStatusCode_range v c : reportStatusCode v = Ok c -> 0 <= c <= 3.
Proof. unfold reportStatusCode. repeat case_decide; intros [= <-]; lia. Qed.
Lemma trailActionCode_range v c : trailActionCode v = Ok c -> 0 <= c <= 4.
Proof. unfold trailActionCode. repeat case_decide; intros [= <-]; lia. Qed.

(** The codes identify the names. *)
Lemma repoStatusCode_inj v w c : repoStatusCode v = Ok c -> repoStatusCode w = Ok c -> v = w.
Proof. unfold repoStatusCode. intros Hv Hw. repeat (case_decide; subst; try done); congruence. Qed.

Lemma bit_len_bound z n : 0 <= n -> 0 < z -> bit_len z <= n -> z < 2 ^ n.
Proof.
  intros Hn Hz. unfold bit_len. rewrite (proj2 (Z.eqb_neq z 0)), Z.abs_eq by lia.
  intros Hb. apply Z.log2_lt_pow2; lia.
Qed.

Lemma positiveDecimal_range label v n :
  positiveDecimal label v = Ok n -> 0 < n < 2 ^ 256 /\ big_SetString v = Some n.
Proof.
  unfold positiveDecimal. intros Hd. go_inv Hd.
  destruct (big_SetString v) as [m|]; [|done]. go_inv Hd. subst m. bool_prop.
  split; [|done]. split; [lia|]. by apply bit_len_bound.
Qed.

Lemma repo_name_visible c : repo_name_char c = true -> visible c = true.
Proof.
  unfold repo_name_char, is_lower, is_upper, is_digit, is_char, visible, between.
  rewrite !orb_true_iff, !andb_true_iff, !Z.leb_le, !Z.eqb_eq.
  change (code "-") with 45. change (code "_") with 95. change (code ".") with 46. lia.
Qed.

Lemma validRepoName_spec v :
  validRepoName v = true ->
  all_chars repo_name_char v = true /\ v <> ""%string /\ slen v <= 64.
Proof.
  unfold validRepoName. intros Hv.
  destruct (slen v =? 0) eqn:E1; [done|]. destruct (64 <? slen v) eqn:E2; [done|].
  bool_prop. split_and!; [done| |done]. rewrite <- slen_zero. done.
Qed.

Lemma validToken_visible v m : validToken v m = true -> some_char visible v = true.
Proof.
  unfold validToken. destruct (slen v =? 0) eqn:E1; [done|].
  destruct (m <? slen v) eqn:E2; [done|]. destruct v as [|c v]; [done|]. simpl.
  intros [Hc _]%andb_true_iff. apply orb_true_iff. left. revert Hc.
  unfold token_char, is_lower, is_upper, is_digit, is_char, visible, between.
  rewrite !orb_true_iff, !andb_true_iff, !Z.leb_le, !Z.eqb_eq.
  change (code "-") with 45. change (code "_") with 95. change (code ".") with 46. lia.
Qed.

Lemma validUsername_visible v : validUsername v = true -> some_char visible v = true.
Proof.
  unfold validUsername. destruct (slen v <? 3) eqn:E1; [done|]. simpl.
  destruct (_ || _); [done|]. destruct v as [|c v]; [done|]. simpl.
  intros [Hc _]%andb_true_iff. apply orb_true_iff. left. revert Hc.
  unfold username_char, is_lower, is_digit, is_char, visible, between.
  rewrite !orb_true_iff, !andb_true_iff, !Z.leb_le, !Z.eqb_eq.
  change (code "-") with 45. lia.
Qed.
