(* ===== verification/Snapshot.v ===== *)
(** * Validation of a snapshot

    [validateSnapshot] of [cli/internal/suitemigration/plan.go], one definition
    per section of the Go function, with the badge and release index checks.
    Go maps are [gmap]s; a loop over a map goes through [map_order]. *)
From Stdlib Require Import ZArith Lia Ascii String.
From stdpp Require Import base list gmap strings sorting.
From S2P Require Import Prelude GoText Geth Schema Codec Validators.

Local Open Scope Z_scope.

Section Snapshot.
Context {GE : Geth} {MO : MapOrder}.

(** ** Source *)

Definition check_source (s : Snapshot) : result unit :=
  let src := snap_Source s in
  fail_if negb (bool_decide (snap_Schema s = SnapshotSchema))
    as Errorf "unsupported schema %q" [GStr (snap_Schema s)] ;;
  fail_if bool_decide (TrimSpace (src_ChainID src) = ""%string) ||
          bool_decide (TrimSpace (src_Contract src) = ""%string) || (src_Height src =? 0)
    as Errorf "source chain_id, contract, and positive height are required" [] ;;
  check? check_source_block (src_ChainID src) (src_Contract src) (src_Height src)
           (src_BlockHash src) ;;
  check? check_evidence (src_InventorySHA256 src) (src_TxSearchSHA256 src)
           (src_BlockEvidenceSHA256 src) (src_EventCommitmentSHA256 src) ;;
  validateContractPolicy (snap_ContractPolicy s).

(** ** Repositories *)

Abbreviation repo_map := (gmap string SnapshotRepository).
Abbreviation locator_map := (gmap string string).

(** [m[key]] of a map of strings: the empty string when absent. *)
Definition at_string (m : gmap string string) (key : string) : string :=
  default ""%string (m !! key).

Definition check_repository (i : Z) (st : repo_map * locator_map) (r : SnapshotRepository)
  : result (repo_map * locator_map) :=
  let '(repos, locators) := st in
  check? wrapf "repository %d: %w" [GInt i] (parseHash "repository ID" (repo_ID r)) ;;
  check? wrapf "repository %s: %w" [GStr (repo_ID r)]
           (canonicalAddress "repository owner" (repo_Owner r)) ;;
  fail_if negb (validRepoName (repo_Name r))
    as Errorf "repository %s has invalid name" [GStr (repo_ID r)] ;;
  fail_if (1024 <? slen (repo_Description r)) || (64 <? slen (repo_DefaultBranch r))
    as Errorf "repository %s metadata exceeds contract limits" [GStr (repo_ID r)] ;;
  fail_if (repo_CreatedAt r =? 0) || (repo_UpdatedAt r <? repo_CreatedAt r)
    as Errorf "repository %s timestamps are invalid" [GStr (repo_ID r)] ;;
  fail_if bool_decide (is_Some (repos !! repo_ID r))
    as Errorf "duplicate repository %s" [GStr (repo_ID r)] ;;
  let key := locatorKey (repo_Owner r) (repo_Name r) in
  fail_if negb (bool_decide (at_string locators key = ""%string))
    as Errorf "duplicate repository locator %s/%s" [GStr (repo_Owner r); GStr (repo_Name r)] ;;
  Ok (<[repo_ID r := r]> repos, <[key := repo_ID r]> locators).

Definition check_fork (repos : repo_map) (r : SnapshotRepository) : result unit :=
  if decide (repo_ForkedFrom r = ""%string) then Ok tt
  else
    fail_if bool_decide (repo_ForkedFrom r = repo_ID r)
      as Errorf "repository %s forks itself" [GStr (repo_ID r)] ;;
    fail_if negb (bool_decide (is_Some (repos !! repo_ForkedFrom r)))
      as Errorf "repository %s has unknown fork parent %s"
           [GStr (repo_ID r); GStr (repo_ForkedFrom r)] ;;
    Ok tt.

(** [repos[id].ForkedFrom], the zero value when [id] is absent. *)
Definition fork_parent (repos : repo_map) (id : string) : string :=
  match repos !! id with Some r => repo_ForkedFrom r | None => "" end.

(** The depth-first walk [visitFork]; [fuel] bounds the recursion, which the
    growing set [visiting] bounds in the code. *)
Fixpoint visitFork (fuel : nat) (repos : repo_map) (id : string)
    (visiting visited : gset string) : result (gset string * gset string) :=
  match fuel with
  | O => errf "visitFork: out of fuel" []
  | S fuel' =>
      fail_if bool_decide (id ∈ visiting)
        as Errorf "repository fork lineage contains a cycle at %s" [GStr id] ;;
      if decide (id ∈ visited) then Ok (visiting, visited)
      else
        let parent := fork_parent repos id in
        let? (visiting', visited') :=
          (if decide (parent = ""%string) then Ok ({[id]} ∪ visiting, visited)
           else visitFork fuel' repos parent ({[id]} ∪ visiting) visited) in
        Ok (visiting' ∖ {[id]}, {[id]} ∪ visited')
  end.

(** [for id := range repos { visitFork(id) }] *)
Definition check_lineage (repos : repo_map) : result (gset string * gset string) :=
  foldM (fun '(visiting, visited) id => visitFork (S (size repos)) repos id visiting visited)
    (map_order (map fst (map_to_list repos))) (∅, ∅).

(** ** Aliases, refs, collaborators, guardians *)

Definition check_alias (repos : repo_map) (i : Z) (locators : locator_map) (a : SnapshotAlias)
  : result locator_map :=
  fail_if negb (bool_decide (is_Some (repos !! alias_RepoID a)))
    as Errorf "alias %d references unknown repository" [GInt i] ;;
  check? canonicalAddress "alias owner" (alias_Owner a) ;;
  fail_if negb (validRepoName (alias_Name a))
    as Errorf "alias %d has invalid name" [GInt i] ;;
  let key := locatorKey (alias_Owner a) (alias_Name a) in
  let existing := at_string locators key in
  fail_if negb (bool_decide (existing = ""%string)) &&
          negb (bool_decide (existing = alias_RepoID a))
    as Errorf "alias locator collides with repository %s" [GStr existing] ;;
  fail_if bool_decide (existing = alias_RepoID a)
    as Errorf "alias %d duplicates an existing canonical/alias locator" [GInt i] ;;
  Ok (<[key := alias_RepoID a]> locators).

Definition check_pack_uri (i : Z) (uri : string) : result unit :=
  fail_if (slen uri <=? 7) || (512 <? slen uri) || negb (HasPrefix uri "ipfs://")
    as Errorf "ref %d has invalid pack URI" [GInt i] ;;
  Ok tt.

(** [counts[key]++] on a [map[string]int]. *)
Definition count_at (counts : gmap string Z) (key : string) : Z := default 0 (counts !! key).
Definition incr_at (counts : gmap string Z) (key : string) : gmap string Z :=
  <[key := count_at counts key + 1]> counts.

Definition check_ref (repos : repo_map) (i : Z) (st : gmap string Z * gset string)
    (r : SnapshotRef) : result (gmap string Z * gset string) :=
  let '(refsPerRepo, refKeys) := st in
  fail_if negb (bool_decide (is_Some (repos !! ref_RepoID r)))
    as Errorf "ref %d references unknown repository" [GInt i] ;;
  fail_if negb (validRefName (ref_RefName r)) || negb (validSHA (ref_CommitSHA r)) ||
          (llen (ref_PackURIs r) =? 0) || (128 <? llen (ref_PackURIs r))
    as Errorf "ref %d violates contract limits" [GInt i] ;;
  check? forM (check_pack_uri i) (ref_PackURIs r) ;;
  fail_if ref_UpdatedAt r =? 0 as Errorf "ref %d timestamp is zero" [GInt i] ;;
  check? canonicalAddress "ref updated_by" (ref_UpdatedBy r) ;;
  let key := locatorKey (ref_RepoID r) (ref_RefName r) in
  fail_if bool_decide (key ∈ refKeys) as Errorf "duplicate ref %s" [GStr key] ;;
  let refsPerRepo' := incr_at refsPerRepo (ref_RepoID r) in
  fail_if 1024 <? count_at refsPerRepo' (ref_RepoID r)
    as Errorf "repository %s exceeds ref limit" [GStr (ref_RepoID r)] ;;
  Ok (refsPerRepo', {[key]} ∪ refKeys).

Definition check_collaborator (repos : repo_map) (i : Z) (st : gmap string Z * gset string)
    (c : SnapshotCollaborator) : result (gmap string Z * gset string) :=
  let '(collabsPerRepo, collabKeys) := st in
  match repos !! collab_RepoID c with
  | None => errf "collaborator %d references unknown repository" [GInt i]
  | Some repo =>
      check? canonicalAddress "collaborator account" (collab_Account c) ;;
      fail_if bool_decide (collab_Account c = repo_Owner repo)
        as Errorf "repository %s owner cannot be a collaborator" [GStr (collab_RepoID c)] ;;
      check? roleCode (collab_Role c) ;;
      let key := locatorKey (collab_RepoID c) (collab_Account c) in
      fail_if bool_decide (key ∈ collabKeys) as Errorf "duplicate collaborator %s" [GStr key] ;;
      let collabsPerRepo' := incr_at collabsPerRepo (collab_RepoID c) in
      fail_if 256 <? count_at collabsPerRepo' (collab_RepoID c)
        as Errorf "repository %s exceeds collaborator limit" [GStr (collab_RepoID c)] ;;
      Ok (collabsPerRepo', {[key]} ∪ collabKeys)
  end.

Definition check_guardian (g : SnapshotGuardianConfig) (repo : SnapshotRepository)
    (seen : gset string) (address : string) : result (gset string) :=
  check? canonicalAddress "guardian" address ;;
  fail_if bool_decide (address = repo_Owner repo)
    as Errorf "guardian config %s contains owner" [GStr (guard_RepoID g)] ;;
  fail_if bool_decide (address ∈ seen)
    as Errorf "guardian config %s has duplicate guardian" [GStr (guard_RepoID g)] ;;
  Ok ({[address]} ∪ seen).

Definition check_guardian_config (repos : repo_map) (guardianRepos : gset string)
    (g : SnapshotGuardianConfig) : result (gset string) :=
  match repos !! guard_RepoID g with
  | None => errf "guardian config references unknown repository %s" [GStr (guard_RepoID g)]
  | Some repo =>
      fail_if bool_decide (guard_RepoID g ∈ guardianRepos)
        as Errorf "duplicate guardian config %s" [GStr (guard_RepoID g)] ;;
      fail_if negb (bool_decide (guard_ConfiguredBy g = repo_Owner repo))
        as Errorf "guardian config %s is stale" [GStr (guard_RepoID g)] ;;
      fail_if (llen (guard_Guardians g) =? 0) || (10 <? llen (guard_Guardians g)) ||
              (guard_Threshold g =? 0) || (llen (guard_Guardians g) <? guard_Threshold g)
        as Errorf "guardian config %s threshold/count invalid" [GStr (guard_RepoID g)] ;;
      check? foldM (check_guardian g repo) (guard_Guardians g) ∅ ;;
      Ok ({[guard_RepoID g]} ∪ guardianRepos)
  end.

(** ** Moderation *)

Definition check_final_status (repos : repo_map) (statuses : gmap string string)
    (status : SnapshotFinalStatus) : result (gmap string string) :=
  fail_if negb (bool_decide (is_Some (repos !! fs_RepoID status)))
    as Errorf "status references unknown repository %s" [GStr (fs_RepoID status)] ;;
  fail_if bool_decide (is_Some (statuses !! fs_RepoID status))
    as Errorf "duplicate final status %s" [GStr (fs_RepoID status)] ;;
  check? repoStatusCode (fs_Status status) ;;
  Ok (<[fs_RepoID status := fs_Status status]> statuses).

Definition expectedActions : list string :=
  ["submitted"; "resolved"; "appealed"; "appeal_resolved"]%string.

Definition check_report_entry (r : SnapshotReport) (index : Z) (previous : Z)
    (entry : SnapshotReportTrail) : result Z :=
  check? trailActionCode (rt_Action entry) ;;
  match expectedActions !! Z.to_nat index with
  | None => errf "panic: index out of range" []
  | Some expected =>
      fail_if negb (bool_decide (rt_Action entry = expected))
        as Errorf "report %d trail entry %d has action %q; want %q"
             [GInt (rep_ID r); GInt index; GStr (rt_Action entry); GStr expected] ;;
      check? canonicalAddress "report trail actor" (rt_Actor entry) ;;
      check? repoStatusCode (rt_Status entry) ;;
      fail_if (slen (rt_ReasonHash entry) =? 0) || (128 <? slen (rt_ReasonHash entry)) ||
              (rt_Timestamp entry =? 0) || (rt_Timestamp entry <? previous)
        as Errorf "report %d trail invalid" [GInt (rep_ID r)] ;;
      fail_if (index =? 0) &&
              (negb (bool_decide (rt_Actor entry = rep_Reporter r)) ||
               negb (bool_decide (rt_Status entry = "active"%string)) ||
               negb (rt_Timestamp entry =? rep_CreatedAt r) ||
               negb (bool_decide (rt_ReasonHash entry = rep_ReasonHash r)))
        as Errorf "report %d trail does not begin with its immutable submission"
             [GInt (rep_ID r)] ;;
      Ok (rt_Timestamp entry)
  end.

(** The trail length a report status requires, and the resolution an open
    report must have. *)
Definition expected_trail_length (r : SnapshotReport) : result Z :=
  if decide (rep_Status r = "open"%string) then
    fail_if negb (bool_decide (rep_Resolution r = "active"%string))
      as Errorf "report %d open report must resolve to active" [GInt (rep_ID r)] ;;
    Ok 1
  else if decide (rep_Status r = "resolved"%string) then Ok 2
  else if decide (rep_Status r = "appealed"%string) then Ok 3
  else if decide (rep_Status r = "appeal_resolved"%string) then Ok 4
  else Ok 0.

(** [r.Trail[i].Status] *)
Definition trail_status (r : SnapshotReport) (i : nat) : result string :=
  match rep_Trail r !! i with
  | Some e => Ok (rt_Status e)
  | None => errf "panic: index out of range" []
  end.

(** The checks on the trail as a whole, after the loop over its entries. *)
Definition check_report_outcome (r : SnapshotReport) : result unit :=
  let? last := trail_status r (length (rep_Trail r) - 1) in
  fail_if negb (bool_decide (last = rep_Resolution r))
    as Errorf "report %d final trail status does not match resolution" [GInt (rep_ID r)] ;;
  check? (if decide (rep_Status r = "appeal_resolved"%string) then
            let? s2 := trail_status r 2 in
            let? s1 := trail_status r 1 in
            fail_if negb (bool_decide (s2 = s1))
              as Errorf "report %d appeal changed the unresolved status" [GInt (rep_ID r)] ;;
            Ok tt
          else Ok tt) ;;
  if decide (rep_Status r <> "open"%string /\ rep_Status r <> "appeal_resolved"%string) then
    let? s1 := trail_status r 1 in
    fail_if negb (bool_decide (s1 = rep_Resolution r))
      as Errorf "report %d resolution trail status does not match resolution"
           [GInt (rep_ID r)] ;;
    Ok tt
  else Ok tt.

Definition check_report (repos : repo_map) (reports : gmap Z SnapshotReport)
    (r : SnapshotReport) : result (gmap Z SnapshotReport) :=
  fail_if (rep_ID r =? 0) || (rep_ID r =? MaxUint64)
    as Errorf "report ID %d is invalid" [GInt (rep_ID r)] ;;
  fail_if bool_decide (is_Some (reports !! rep_ID r))
    as Errorf "duplicate report %d" [GInt (rep_ID r)] ;;
  fail_if negb (bool_decide (is_Some (repos !! rep_RepoID r)))
    as Errorf "report %d references unknown repository" [GInt (rep_ID r)] ;;
  check? canonicalAddress "reporter" (rep_Reporter r) ;;
  check? reportStatusCode (rep_Status r) ;;
  check? repoStatusCode (rep_Resolution r) ;;
  fail_if (slen (rep_ReasonHash r) =? 0) || (128 <? slen (rep_ReasonHash r)) ||
          (rep_CreatedAt r =? 0) || (rep_UpdatedAt r <? rep_CreatedAt r) ||
          (llen (rep_Trail r) =? 0)
    as Errorf "report %d record is invalid" [GInt (rep_ID r)] ;;
  let? expectedTrailLength := expected_trail_length r in
  fail_if negb (llen (rep_Trail r) =? expectedTrailLength)
    as Errorf "report %d has %d trail entries; want %d for %s"
         [GInt (rep_ID r); GInt (llen (rep_Trail r)); GInt expectedTrailLength;
          GStr (rep_Status r)] ;;
  let? previous := foldMi (check_report_entry r) 0 (rep_Trail r) 0 in
  fail_if negb (previous =? rep_UpdatedAt r)
    as Errorf "report %d updated_at must equal the final trail timestamp" [GInt (rep_ID r)] ;;
  check? check_report_outcome r ;;
  Ok (<[rep_ID r := r]> reports).

Definition check_status_entry (reports : gmap Z SnapshotReport) (t : SnapshotStatusTrail)
    (previous : Z) (entry : SnapshotRepositoryStatusLog) : result Z :=
  check? repoStatusCode (sl_Status entry) ;;
  check? canonicalAddress "status trail actor" (sl_Actor entry) ;;
  fail_if (128 <? slen (sl_ReasonHash entry)) || (sl_Timestamp entry =? 0) ||
          (sl_Timestamp entry <? previous)
    as Errorf "status trail %s is invalid" [GStr (st_RepoID t)] ;;
  check? (if sl_ReportID entry =? 0 then Ok tt
          else match reports !! sl_ReportID entry with
               | Some report =>
                   fail_if negb (bool_decide (rep_RepoID report = st_RepoID t))
                     as Errorf "status trail %s references invalid report %d"
                          [GStr (st_RepoID t); GInt (sl_ReportID entry)] ;;
                   Ok tt
               | None => errf "status trail %s references invalid report %d"
                           [GStr (st_RepoID t); GInt (sl_ReportID entry)]
               end) ;;
  Ok (sl_Timestamp entry).

Definition check_status_trail (repos : repo_map) (statuses : gmap string string)
    (reports : gmap Z SnapshotReport) (statusTrails : gset string) (t : SnapshotStatusTrail)
  : result (gset string) :=
  fail_if negb (bool_decide (is_Some (repos !! st_RepoID t)))
    as Errorf "status trail references unknown repository %s" [GStr (st_RepoID t)] ;;
  fail_if bool_decide (st_RepoID t ∈ statusTrails)
    as Errorf "duplicate status trail %s" [GStr (st_RepoID t)] ;;
  fail_if llen (st_Trail t) =? 0
    as Errorf "status trail %s is empty" [GStr (st_RepoID t)] ;;
  check? foldM (check_status_entry reports t) (st_Trail t) 0 ;;
  match last (st_Trail t) with
  | None => errf "panic: index out of range" []
  | Some entry =>
      fail_if negb (bool_decide (sl_Status entry = at_string statuses (st_RepoID t)))
        as Errorf "status trail %s does not end at final status" [GStr (st_RepoID t)] ;;
      Ok ({[st_RepoID t]} ∪ statusTrails)
  end.

(** ** Economics and usernames *)

Definition check_split (r : SnapshotRevenueSplits) (repo : SnapshotRepository)
    (st : gset string * Z) (entry : SnapshotSplit) : result (gset string * Z) :=
  let '(seen, total) := st in
  check? canonicalAddress "split recipient" (split_Recipient entry) ;;
  fail_if bool_decide (split_Recipient entry = repo_Owner repo)
    as Errorf "split %s names the repository owner; owner receives the remainder implicitly"
         [GStr (rs_RepoID r)] ;;
  fail_if split_BPS entry =? 0 as Errorf "split %s has zero bps" [GStr (rs_RepoID r)] ;;
  fail_if bool_decide (split_Recipient entry ∈ seen)
    as Errorf "split %s has duplicate recipient" [GStr (rs_RepoID r)] ;;
  Ok ({[split_Recipient entry]} ∪ seen, total + split_BPS entry).

Definition check_splits (repos : repo_map) (splitRepos : gset string)
    (r : SnapshotRevenueSplits) : result (gset string) :=
  match repos !! rs_RepoID r with
  | None => errf "splits reference unknown repository %s" [GStr (rs_RepoID r)]
  | Some repo =>
      fail_if bool_decide (rs_RepoID r ∈ splitRepos)
        as Errorf "duplicate splits %s" [GStr (rs_RepoID r)] ;;
      fail_if MaxRevenueSplitRecipients <? llen (rs_Splits r)
        as Errorf "splits %s count invalid" [GStr (rs_RepoID r)] ;;
      let? (_, total) := foldM (check_split r repo) (rs_Splits r) (∅, 0) in
      fail_if 10000 <? total as Errorf "split %s exceeds 10000 bps" [GStr (rs_RepoID r)] ;;
      Ok ({[rs_RepoID r]} ∪ splitRepos)
  end.

Definition check_total (repos : repo_map) (totalKeys : gset string) (r : SnapshotSponsorTotal)
  : result (gset string) :=
  fail_if negb (bool_decide (is_Some (repos !! tot_RepoID r)))
    as Errorf "total references unknown repository %s" [GStr (tot_RepoID r)] ;;
  fail_if (slen (tot_Denom r) =? 0) || (128 <? slen (tot_Denom r))
    as Errorf "total denom %q is invalid" [GStr (tot_Denom r)] ;;
  check? positiveDecimal "sponsor total" (tot_Amount r) ;;
  let key := locatorKey (tot_RepoID r) (tot_Denom r) in
  fail_if bool_decide (key ∈ totalKeys) as Errorf "duplicate sponsor total %s" [GStr key] ;;
  Ok ({[key]} ∪ totalKeys).

Definition check_original_owner (st : gmap string string * gmap string string)
    (r : SnapshotOriginalUsername) : result (gmap string string * gmap string string) :=
  let '(usernameNames, usernameOwners) := st in
  fail_if negb (validUsername (un_Name r))
    as Errorf "invalid original username %q" [GStr (un_Name r)] ;;
  check? canonicalAddress "username owner" (un_Owner r) ;;
  fail_if bool_decide (is_Some (usernameNames !! un_Name r))
    as Errorf "duplicate username %s" [GStr (un_Name r)] ;;
  fail_if negb (bool_decide (at_string usernameOwners (un_Owner r) = ""%string))
    as Errorf "username owner %s owns both %s and %s"
         [GStr (un_Owner r); GStr (at_string usernameOwners (un_Owner r)); GStr (un_Name r)] ;;
  Ok (<[un_Name r := un_Owner r]> usernameNames, <[un_Owner r := un_Name r]> usernameOwners).

Definition check_reserved (usernameNames : gmap string string) (reserved : gset string)
    (name : string) : result (gset string) :=
  fail_if negb (validUsername name) as Errorf "invalid reserved username %q" [GStr name] ;;
  fail_if bool_decide (is_Some (usernameNames !! name))
    as Errorf "reserved username %s overlaps original owner claim" [GStr name] ;;
  fail_if bool_decide (name ∈ reserved)
    as Errorf "duplicate reserved username %s" [GStr name] ;;
  Ok ({[name]} ∪ reserved).

(** ** Badges and their indexes *)

Abbreviation id_index := (gmap string (list Z)).

(** [m[key] = append(m[key], v)] *)
Definition append_at {A} (m : gmap string (list A)) (key : string) (v : A)
  : gmap string (list A) := <[key := default [] (m !! key) ++ [v]]> m.

Definition check_badge (repos : repo_map)
    (st : gmap Z SnapshotBadge * id_index * id_index) (b : SnapshotBadge)
  : result (gmap Z SnapshotBadge * id_index * id_index) :=
  let '(badges, byRecipient, byRepo) := st in
  fail_if badge_ID b =? 0 as Errorf "badge ID zero is invalid" [] ;;
  fail_if bool_decide (is_Some (badges !! badge_ID b))
    as Errorf "duplicate badge %d" [GInt (badge_ID b)] ;;
  fail_if negb (bool_decide (is_Some (repos !! badge_RepoID b)))
    as Errorf "badge %d references unknown repository" [GInt (badge_ID b)] ;;
  check? canonicalAddress "badge recipient" (badge_Recipient b) ;;
  check? canonicalAddress "badge awarded_by" (badge_AwardedBy b) ;;
  fail_if bool_decide (badge_Recipient b = badge_AwardedBy b)
    as Errorf "badge %d awards the repository owner; owner self-awards are not supported"
         [GInt (badge_ID b)] ;;
  fail_if (slen (badge_Reason b) =? 0) || (256 <? slen (badge_Reason b)) ||
          (badge_AwardedAt b =? 0)
    as Errorf "badge %d is invalid" [GInt (badge_ID b)] ;;
  Ok (<[badge_ID b := b]> badges, append_at byRecipient (badge_Recipient b) (badge_ID b),
      append_at byRepo (badge_RepoID b) (badge_ID b)).

(** [seenIDs[id]++] *)
Definition seen_incr (seen : gmap Z Z) (id : Z) : gmap Z Z :=
  <[id := default 0 (seen !! id) + 1]> seen.

(** The inner loop over the badge IDs of one index entry: [owns] says that the
    badge belongs to the indexed recipient or repository. *)
Definition check_indexed (kind : string) (badges : gmap Z SnapshotBadge)
    (owns : SnapshotBadge -> bool) (seenIDs : gmap Z Z) (id : Z) : result (gmap Z Z) :=
  match badges !! id with
  | None => errf "%s index contains invalid badge %d" [GStr kind; GInt id]
  | Some badge =>
      fail_if negb (owns badge)
        as Errorf "%s index contains invalid badge %d" [GStr kind; GInt id] ;;
      Ok (seen_incr seenIDs id)
  end.

Definition check_recipient_index (badges : gmap Z SnapshotBadge)
    (st : id_index * gmap Z Z) (g : SnapshotBadgeRecipientIndex)
  : result (id_index * gmap Z Z) :=
  let '(got, seenIDs) := st in
  check? canonicalAddress "badge index recipient" (bri_Recipient g) ;;
  fail_if bool_decide (is_Some (got !! bri_Recipient g))
    as Errorf "duplicate badge recipient index %s" [GStr (bri_Recipient g)] ;;
  let? seenIDs' :=
    foldM (check_indexed "recipient" badges
             (fun b => bool_decide (badge_Recipient b = bri_Recipient g)))
      (bri_BadgeIDs g) seenIDs in
  Ok (<[bri_Recipient g := bri_BadgeIDs g]> got, seenIDs').

Definition check_repository_index (badges : gmap Z SnapshotBadge)
    (st : id_index * gmap Z Z) (g : SnapshotBadgeRepositoryIndex)
  : result (id_index * gmap Z Z) :=
  let '(got, seenIDs) := st in
  fail_if bool_decide (is_Some (got !! bpi_RepoID g))
    as Errorf "duplicate badge repository index %s" [GStr (bpi_RepoID g)] ;;
  let? seenIDs' :=
    foldM (check_indexed "repository" badges
             (fun b => bool_decide (badge_RepoID b = bpi_RepoID g)))
      (bpi_BadgeIDs g) seenIDs in
  Ok (<[bpi_RepoID g := bpi_BadgeIDs g]> got, seenIDs').

(** [for i := range g { if g[i] != w[i] || (i > 0 && g[i] == g[i-1]) ... }] on
    sorted slices of equal length. *)
Fixpoint same_strict {A} `{EqDecision A} (previous : option A) (g w : list A) : bool :=
  match g, w with
  | [], [] => true
  | x :: g', y :: w' =>
      bool_decide (x = y) && negb (bool_decide (previous = Some x)) &&
      same_strict (Some x) g' w'
  | _, _ => false
  end.

Definition sort_ids (l : list Z) : list Z := merge_sort Z.le l.
Definition sort_strings (l : list string) : list string := merge_sort String.le l.

Definition equalIndexMaps (got want : id_index) : bool :=
  if negb (Nat.eqb (size got) (size want)) then false
  else forallb (fun '(key, w) =>
         match got !! key with
         | None => false
         | Some g => same_strict None (sort_ids g) (sort_ids w)
         end) (map_order (map_to_list want)).

Definition validateBadgeIndexes (indexes : SnapshotBadgeIndexes)
    (badges : gmap Z SnapshotBadge) (wantRecipients wantRepos : id_index) : result unit :=
  let? (gotRecipients, seenIDs) :=
    foldM (check_recipient_index badges) (bi_ByRecipient indexes) (∅, ∅) in
  let? (gotRepos, seenIDs') :=
    foldM (check_repository_index badges) (bi_ByRepository indexes) (∅, seenIDs) in
  fail_if negb (equalIndexMaps gotRecipients wantRecipients) ||
          negb (equalIndexMaps gotRepos wantRepos)
    as Errorf "badge bidirectional indexes do not exactly match unique badge records" [] ;;
  forM (fun '(id, _) =>
    fail_if negb (default 0 (seenIDs' !! id) =? 2)
      as Errorf "badge %d is not present exactly once in both indexes" [GInt id] ;;
    Ok tt) (map_order (map_to_list badges)).

(** ** Releases *)

Definition check_release (st : gset string * gmap string (list string)) (r : SnapshotRelease)
  : result (gset string * gmap string (list string)) :=
  let '(releases, platforms) := st in
  fail_if negb (validToken (rel_Version r) 64) || negb (validToken (rel_Platform r) 64)
    as Errorf "invalid release key %s/%s" [GStr (rel_Version r); GStr (rel_Platform r)] ;;
  check? rawSHA256 "release SHA-256" (rel_SHA256 r) ;;
  check? canonicalAddress "release registered_by" (rel_RegisteredBy r) ;;
  fail_if rel_RegisteredAt r =? 0
    as Errorf "release %s/%s timestamp is zero" [GStr (rel_Version r); GStr (rel_Platform r)] ;;
  let key := locatorKey (rel_Version r) (rel_Platform r) in
  fail_if bool_decide (key ∈ releases)
    as Errorf "duplicate release %s/%s" [GStr (rel_Version r); GStr (rel_Platform r)] ;;
  Ok ({[key]} ∪ releases, append_at platforms (rel_Version r) (rel_Platform r)).

Definition check_version_index (got : gmap string (list string)) (g : SnapshotReleaseVersion)
  : result (gmap string (list string)) :=
  fail_if negb (validToken (rv_Version g) 64)
    as Errorf "invalid indexed release version %q" [GStr (rv_Version g)] ;;
  fail_if bool_decide (is_Some (got !! rv_Version g))
    as Errorf "duplicate release version index %s" [GStr (rv_Version g)] ;;
  Ok (<[rv_Version g := rv_Platforms g]> got).

Definition validateReleaseIndexes (indexes : list SnapshotReleaseVersion)
    (want : gmap string (list string)) : result unit :=
  let? got := foldM check_version_index indexes ∅ in
  fail_if negb (Nat.eqb (size got) (size want))
    as Errorf "release version index does not cover all versions" [] ;;
  forM (fun '(version, w) =>
    match got !! version with
    | None => errf "release version index missing %s" [GStr version]
    | Some g =>
        let g := sort_strings g in
        let w := sort_strings w in
        fail_if negb (llen g =? llen w)
          as Errorf "release version %s platform count mismatch" [GStr version] ;;
        fail_if negb (forallb (fun p => validToken p 64) g && same_strict None g w)
          as Errorf "release version %s platform index mismatch" [GStr version] ;;
        Ok tt
    end) (map_order (map_to_list want)).

(** ** The whole validation *)

Definition check_repositories (s : Snapshot) : result (repo_map * locator_map) :=
  let? (repos, locators) := foldMi check_repository 0 (snap_Repositories s) (∅, ∅) in
  check? forM (check_fork repos) (snap_Repositories s) ;;
  check? check_lineage repos ;;
  Ok (repos, locators).

Definition check_moderation (repos : repo_map) (m : SnapshotModeration) : result unit :=
  let? statuses := foldM (check_final_status repos) (mod_FinalStatuses m) ∅ in
  fail_if negb (Nat.eqb (size statuses) (size repos))
    as Errorf "final moderation statuses cover %d of %d repositories"
         [GInt (Z.of_nat (size statuses)); GInt (Z.of_nat (size repos))] ;;
  let? reports := foldM (check_report repos) (mod_Reports m) ∅ in
  check? foldM (check_status_trail repos statuses reports) (mod_StatusTrails m) ∅ ;;
  Ok tt.

Definition check_economic (repos : repo_map) (e : SnapshotEconomic) : result unit :=
  check? foldM (check_splits repos) (eco_Splits e) ∅ ;;
  check? foldM (check_total repos) (eco_Totals e) ∅ ;;
  Ok tt.

Definition check_username (u : SnapshotUsername) (src : SnapshotSource) : result unit :=
  let? (usernameNames, _) := foldM check_original_owner (usr_OriginalOwners u) (∅, ∅) in
  fail_if MaxReservedUsernames <? llen (usr_ReservedNames u)
    as Errorf "reserved usernames exceed maximum of %d" [GInt MaxReservedUsernames] ;;
  check? foldM (check_reserved usernameNames) (usr_ReservedNames u) ∅ ;;
  validateEscrowRelease (usr_EscrowRelease u) (src_Contract src) (src_Height src).

Definition check_badges (repos : repo_map) (s : Snapshot) : result unit :=
  let? (badges, byRecipient, byRepo) :=
    foldM (check_badge repos) (snap_Badges s) (∅, ∅, ∅) in
  validateBadgeIndexes (snap_BadgeIndexes s) badges byRecipient byRepo.

Definition check_releases (s : Snapshot) : result unit :=
  let? (_, platforms) := foldM check_release (snap_Releases s) (∅, ∅) in
  validateReleaseIndexes (snap_ReleaseVersions s) platforms.

Definition validateSnapshot (s : Snapshot) : result unit :=
  check? check_source s ;;
  let? (repos, locators) := check_repositories s in
  check? foldMi (check_alias repos) 0 (snap_Aliases s) locators ;;
  check? foldMi (check_ref repos) 0 (snap_Refs s) (∅, ∅) ;;
  check? foldMi (check_collaborator repos) 0 (snap_Collaborators s) (∅, ∅) ;;
  check? foldM (check_guardian_config repos) (snap_GuardianConfigs s) ∅ ;;
  check? check_moderation repos (snap_Moderation s) ;;
  check? check_economic repos (snap_Economic s) ;;
  check? check_username (snap_Username s) (snap_Source s) ;;
  check? check_badges repos s ;;
  check_releases s.

End Snapshot.
