(* ===== verification/Records.v ===== *)
(** * From a snapshot to ordered record groups

    [snapshotModuleRecords] of [cli/internal/suitemigration/plan.go]: every
    list of the snapshot is sorted by its key, translated to ABI records and
    handed to the module that imports it, forks after their parents. *)
From Stdlib Require Import ZArith Lia Ascii String.
From stdpp Require Import base list gmap strings sorting.
From S2P Require Import Prelude GoText Geth Schema Codec Validators Snapshot.

Local Open Scope Z_scope.

(** ** [sort.Slice]

    Any sorting algorithm will do: the keys of a validated snapshot are
    distinct, so the sorted order is unique. *)
Definition not_after {A} (less : A -> A -> bool) (a b : A) : Prop := less b a = false.

#[export] Instance not_after_dec {A} (less : A -> A -> bool) : RelDecision (not_after less).
Proof. intros a b. unfold not_after. apply _. Defined.

Definition sort_slice {A} (less : A -> A -> bool) (l : list A) : list A :=
  merge_sort (not_after less) l.

(** [if a.k1 != b.k1 { return a.k1 < b.k1 }; return a.k2 < b.k2] *)
Definition less_pair {A} (k1 k2 : A -> string) (a b : A) : bool :=
  if decide (k1 a = k1 b) then String.ltb (k2 a) (k2 b) else String.ltb (k1 a) (k1 b).
Definition less_string {A} (k : A -> string) (a b : A) : bool := String.ltb (k a) (k b).
Definition less_id {A} (k : A -> Z) (a b : A) : bool := k a <? k b.

Section Records.
Context {GE : Geth}.

Record recordGroup := {
  rg_kind : string;
  rg_kindCode : Z;
  rg_values : list abi_value;
  rg_keys : list string;
  rg_encode : list abi_value -> result bytes;
}.

Definition kindGroup (name : string) (code : Z) (values : list abi_value) (keys : list string)
    (arguments : list abi_type) (wrapped : bool) : recordGroup :=
  {| rg_kind := name; rg_kindCode := code; rg_values := values; rg_keys := keys;
     rg_encode := fun records => encode_group wrapped code arguments (VSlice records) |}.

(** ** Repositories, parents first *)

Definition repos_by_id (repositories : list SnapshotRepository) : gmap string SnapshotRepository :=
  fold_left (fun m r => <[repo_ID r := r]> m) repositories ∅.

(** The memoised recursion [forkDepth]; on a cyclic lineage the Go function
    would not return, here the fuel runs out. *)
Fixpoint forkDepth (fuel : nat) (repoByID : gmap string SnapshotRepository)
    (depth : gmap string Z) (id : string) : result (Z * gmap string Z) :=
  match fuel with
  | O => errf "forkDepth: out of fuel" []
  | S fuel' =>
      match depth !! id with
      | Some value => Ok (value, depth)
      | None =>
          let parent := fork_parent repoByID id in
          if decide (parent = ""%string) then Ok (0, <[id := 0]> depth)
          else
            let? (above, depth') := forkDepth fuel' repoByID depth parent in
            Ok (above + 1, <[id := above + 1]> depth')
      end
  end.

Definition fork_depths (repositories : list SnapshotRepository) : result (gmap string Z) :=
  let repoByID := repos_by_id repositories in
  foldM (fun depth r =>
           let? (_, depth') := forkDepth (S (size repoByID)) repoByID depth (repo_ID r) in
           Ok depth') repositories ∅.

Definition depth_at (depth : gmap string Z) (r : SnapshotRepository) : Z :=
  default 0 (depth !! repo_ID r).

Definition less_repository (depth : gmap string Z) (a b : SnapshotRepository) : bool :=
  if negb (depth_at depth a =? depth_at depth b) then depth_at depth a <? depth_at depth b
  else String.ltb (repo_ID a) (repo_ID b).

(** [v, _ := parseRawHash(...)] *)
Definition raw_hash (label value : string) : bytes :=
  or_zero (zero_bytes 32) (parseRawHash label value).

Definition repository_record (record : SnapshotRepository) : coreRepositoryABI :=
  mk_coreRepository (raw_hash "repository ID" (repo_ID record))
    (HexToAddress (repo_Owner record)) (repo_Name record) (repo_Description record)
    (repo_DefaultBranch record)
    (if decide (repo_ForkedFrom record = ""%string) then zero_bytes 32
     else raw_hash "forked_from" (repo_ForkedFrom record))
    (repo_CreatedAt record) (repo_UpdatedAt record).

Definition sorted_repositories (snapshot : Snapshot) : result (list SnapshotRepository) :=
  let? depth := fork_depths (snap_Repositories snapshot) in
  Ok (sort_slice (less_repository depth) (snap_Repositories snapshot)).

Definition repository_group (snapshot : Snapshot) : result recordGroup :=
  let? repositories := sorted_repositories snapshot in
  Ok (kindGroup "repositories" 0
        (map (fun r => coreRepository_value (repository_record r)) repositories)
        (map repo_ID repositories) coreRepositoryArguments true).

(** ** The other groups *)

Definition alias_record (record : SnapshotAlias) : coreAliasABI :=
  mk_coreAlias (raw_hash "alias repo ID" (alias_RepoID record))
    (HexToAddress (alias_Owner record)) (alias_Name record).
Definition alias_key (record : SnapshotAlias) : string :=
  alias_Owner record +:+ "/" +:+ alias_Name record.
Definition alias_group (snapshot : Snapshot) : recordGroup :=
  let aliases := sort_slice (less_pair alias_Owner alias_Name) (snap_Aliases snapshot) in
  kindGroup "aliases" 1 (map (fun r => coreAlias_value (alias_record r)) aliases)
    (map alias_key aliases) coreAliasArguments true.

Definition ref_record (record : SnapshotRef) : coreRefABI :=
  mk_coreRef (raw_hash "ref repo ID" (ref_RepoID record)) (ref_RefName record)
    (ref_CommitSHA record) (ref_PackURIs record) (ref_UpdatedAt record)
    (HexToAddress (ref_UpdatedBy record)).
Definition ref_key (record : SnapshotRef) : string :=
  ref_RepoID record +:+ ":" +:+ ref_RefName record.
Definition ref_group (snapshot : Snapshot) : recordGroup :=
  let refs := sort_slice (less_pair ref_RepoID ref_RefName) (snap_Refs snapshot) in
  kindGroup "refs" 2 (map (fun r => coreRef_value (ref_record r)) refs)
    (map ref_key refs) coreRefArguments true.

Definition collaborator_record (record : SnapshotCollaborator) : coreCollaboratorABI :=
  mk_coreCollaborator (raw_hash "collaborator repo ID" (collab_RepoID record))
    (HexToAddress (collab_Account record)) (or_zero 0 (roleCode (collab_Role record))).
Definition collaborator_key (record : SnapshotCollaborator) : string :=
  collab_RepoID record +:+ ":" +:+ collab_Account record.
Definition collaborator_group (snapshot : Snapshot) : recordGroup :=
  let collaborators :=
    sort_slice (less_pair collab_RepoID collab_Account) (snap_Collaborators snapshot) in
  kindGroup "collaborators" 3
    (map (fun r => coreCollaborator_value (collaborator_record r)) collaborators)
    (map collaborator_key collaborators) coreCollaboratorArguments true.

Definition guardian_record (record : SnapshotGuardianConfig) : guardianConfigABI :=
  mk_guardianConfig (raw_hash "guardian repo ID" (guard_RepoID record))
    (HexToAddress (guard_ConfiguredBy record)) (guard_Threshold record)
    (map HexToAddress (guard_Guardians record)).
Definition guardian_group (snapshot : Snapshot) : recordGroup :=
  let guardians := sort_slice (less_string guard_RepoID) (snap_GuardianConfigs snapshot) in
  kindGroup "guardian-configs" 0
    (map (fun r => guardianConfig_value (guardian_record r)) guardians)
    (map guard_RepoID guardians) guardianArguments false.

Definition status_record (r : SnapshotFinalStatus) : moderationStatusABI :=
  mk_moderationStatus (raw_hash "status repo ID" (fs_RepoID r))
    (or_zero 0 (repoStatusCode (fs_Status r))).
Definition status_group (snapshot : Snapshot) : recordGroup :=
  let statuses :=
    sort_slice (less_string fs_RepoID) (mod_FinalStatuses (snap_Moderation snapshot)) in
  kindGroup "final-statuses" 0
    (map (fun r => moderationStatus_value (status_record r)) statuses)
    (map fs_RepoID statuses) moderationStatusArguments true.

Definition report_trail_record (e : SnapshotReportTrail) : moderationReportTrailABI :=
  mk_moderationReportTrail (or_zero 0 (trailActionCode (rt_Action e)))
    (HexToAddress (rt_Actor e)) (or_zero 0 (repoStatusCode (rt_Status e)))
    (rt_ReasonHash e) (rt_Timestamp e).
Definition report_record (r : SnapshotReport) : moderationReportABI :=
  mk_moderationReport
    (mk_moderationReportRecord (rep_ID r) (raw_hash "report repo ID" (rep_RepoID r))
       (HexToAddress (rep_Reporter r)) (or_zero 0 (reportStatusCode (rep_Status r)))
       (or_zero 0 (repoStatusCode (rep_Resolution r))) (rep_ReasonHash r)
       (rep_CreatedAt r) (rep_UpdatedAt r) true)
    (map report_trail_record (rep_Trail r)).
Definition report_key (r : SnapshotReport) : string := FormatUint (rep_ID r).
Definition report_group (snapshot : Snapshot) : recordGroup :=
  let reports := sort_slice (less_id rep_ID) (mod_Reports (snap_Moderation snapshot)) in
  kindGroup "reports" 1 (map (fun r => moderationReport_value (report_record r)) reports)
    (map report_key reports) moderationReportArguments true.

Definition status_log_record (e : SnapshotRepositoryStatusLog) : moderationStatusLogABI :=
  mk_moderationStatusLog (or_zero 0 (repoStatusCode (sl_Status e)))
    (HexToAddress (sl_Actor e)) (sl_ReasonHash e) (sl_Timestamp e) (sl_ReportID e).
Definition status_trail_record (r : SnapshotStatusTrail) : moderationStatusTrailABI :=
  mk_moderationStatusTrail (raw_hash "trail repo ID" (st_RepoID r))
    (map status_log_record (st_Trail r)).
Definition status_trail_group (snapshot : Snapshot) : recordGroup :=
  let statusTrails :=
    sort_slice (less_string st_RepoID) (mod_StatusTrails (snap_Moderation snapshot)) in
  kindGroup "status-trails" 2
    (map (fun r => moderationStatusTrail_value (status_trail_record r)) statusTrails)
    (map st_RepoID statusTrails) moderationStatusTrailArguments true.

Definition split_record (r : SnapshotRevenueSplits) : economicSplitsABI :=
  mk_economicSplits (raw_hash "split repo ID" (rs_RepoID r))
    (map (fun e => mk_economicSplit (HexToAddress (split_Recipient e)) (split_BPS e))
       (rs_Splits r)).
Definition splits_group (snapshot : Snapshot) : recordGroup :=
  let splits := sort_slice (less_string rs_RepoID) (eco_Splits (snap_Economic snapshot)) in
  kindGroup "splits" 0 (map (fun r => economicSplits_value (split_record r)) splits)
    (map rs_RepoID splits) economicSplitsArguments true.

Definition total_record (r : SnapshotSponsorTotal) : economicTotalABI :=
  mk_economicTotal (raw_hash "total repo ID" (tot_RepoID r)) (tot_Denom r)
    (big_SetString (tot_Amount r)).
Definition total_key (r : SnapshotSponsorTotal) : string :=
  tot_RepoID r +:+ ":" +:+ tot_Denom r.
Definition totals_group (snapshot : Snapshot) : recordGroup :=
  let totals :=
    sort_slice (less_pair tot_RepoID tot_Denom) (eco_Totals (snap_Economic snapshot)) in
  kindGroup "all-denom-totals" 1
    (map (fun r => economicTotal_value (total_record r)) totals)
    (map total_key totals) economicTotalArguments true.

Definition owner_record (r : SnapshotOriginalUsername) : usernameOwnerABI :=
  mk_usernameOwner (un_Name r) (HexToAddress (un_Owner r)).
Definition owners_group (snapshot : Snapshot) : recordGroup :=
  let owners := sort_slice (less_string un_Name) (usr_OriginalOwners (snap_Username snapshot)) in
  kindGroup "original-owners" 0 (map (fun r => usernameOwner_value (owner_record r)) owners)
    (map un_Name owners) usernameOwnerArguments true.

Definition reserved_group (snapshot : Snapshot) : recordGroup :=
  let reserved := sort_strings (usr_ReservedNames (snap_Username snapshot)) in
  kindGroup "reserved-names" 1 (map VString reserved) reserved usernameReservedArguments true.

Definition badge_record (r : SnapshotBadge) : badgeABI :=
  mk_badge (badge_ID r) (raw_hash "badge repo ID" (badge_RepoID r))
    (HexToAddress (badge_Recipient r)) (HexToAddress (badge_AwardedBy r))
    (badge_Reason r) (badge_AwardedAt r) true.
Definition badge_key (r : SnapshotBadge) : string := FormatUint (badge_ID r).
Definition badges_group (snapshot : Snapshot) : recordGroup :=
  let badges := sort_slice (less_id badge_ID) (snap_Badges snapshot) in
  kindGroup "badges" 0 (map (fun r => badge_value (badge_record r)) badges)
    (map badge_key badges) badgeArguments false.

Definition release_record (r : SnapshotRelease) : releaseABI :=
  mk_release (rel_Version r) (rel_Platform r)
    (or_zero (zero_bytes 32) (rawSHA256 "release SHA-256" (rel_SHA256 r)))
    (HexToAddress (rel_RegisteredBy r)) (rel_RegisteredAt r) true.
Definition release_key (r : SnapshotRelease) : string :=
  rel_Version r +:+ ":" +:+ rel_Platform r.
Definition releases_group (snapshot : Snapshot) : recordGroup :=
  let releases := sort_slice (less_pair rel_Version rel_Platform) (snap_Releases snapshot) in
  kindGroup "artifacts" 0 (map (fun r => release_value (release_record r)) releases)
    (map release_key releases) releaseArguments false.

(** ** The groups of every module, and the counts *)

Definition snapshot_summary (snapshot : Snapshot) : PlanSummary := {|
  sum_RepositoryCount := llen (snap_Repositories snapshot);
  sum_AliasCount := llen (snap_Aliases snapshot);
  sum_RefCount := llen (snap_Refs snapshot);
  sum_CollaboratorCount := llen (snap_Collaborators snapshot);
  sum_GuardianConfigCount := llen (snap_GuardianConfigs snapshot);
  sum_ModerationStatusCount := llen (mod_FinalStatuses (snap_Moderation snapshot));
  sum_ModerationReportCount := llen (mod_Reports (snap_Moderation snapshot));
  sum_ModerationTrailCount := llen (mod_StatusTrails (snap_Moderation snapshot));
  sum_EconomicSplitCount := llen (eco_Splits (snap_Economic snapshot));
  sum_EconomicTotalCount := llen (eco_Totals (snap_Economic snapshot));
  sum_UsernameOwnerCount := llen (usr_OriginalOwners (snap_Username snapshot));
  sum_ReservedNameCount := llen (usr_ReservedNames (snap_Username snapshot));
  sum_BadgeCount := llen (snap_Badges snapshot);
  sum_ReleaseArtifactCount := llen (snap_Releases snapshot);
  sum_BatchCount := 0;
  sum_TransactionCount := 0;
|}.

Definition snapshotModuleRecords (snapshot : Snapshot)
  : result (gmap string (list recordGroup) * PlanSummary) :=
  let? repositories := repository_group snapshot in
  Ok (<["repository-core"%string :=
          [repositories; alias_group snapshot; ref_group snapshot; collaborator_group snapshot]]>
      (<["recovery"%string := [guardian_group snapshot]]>
      (<["moderation"%string :=
          [status_group snapshot; report_group snapshot; status_trail_group snapshot]]>
      (<["economic"%string := [splits_group snapshot; totals_group snapshot]]>
      (<["username"%string := [owners_group snapshot; reserved_group snapshot]]>
      (<["badge"%string := [badges_group snapshot]]>
      (<["release"%string := [releases_group snapshot]]> ∅)))))),
      snapshot_summary snapshot).

End Records.
