(* ===== verification/Sorting.v ===== *)
(** * Sorting: fork lineage and the order of the records

    [visitFork] accepts a map of repositories exactly when every fork chain is
    well founded, whatever order the runtime visits the map in, and the fuel of
    the model is enough. *)
From Stdlib Require Import ZArith Lia Ascii String.
From stdpp Require Import base list gmap strings fin_sets sorting.
From S2P Require Import Prelude GoText Geth Schema Codec Validators Snapshot Records.

Section Lineage.
Context (repos : gmap string SnapshotRepository).

(** [p] is the repository that [c] was forked from. *)
Definition parent_of (p c : string) : Prop := p <> ""%string /\ fork_parent repos c = p.

(** The length of the fork chain above a repository. *)
Inductive depth : string -> nat -> Prop :=
| depth_root id : fork_parent repos id = ""%string -> depth id 0
| depth_fork id n :
    fork_parent repos id <> ""%string -> depth (fork_parent repos id) n -> depth id (S n).

Lemma depth_fun id n m : depth id n -> depth id m -> n = m.
Proof.
  intros Hn. revert m. induction Hn as [id Hr|id n Hf Hd IH]; intros m Hm;
    inversion Hm; subst; try congruence. f_equal. by apply IH.
Qed.

Lemma forked_in_dom id : fork_parent repos id <> ""%string -> id ∈ dom repos.
Proof.
  intros Hf. apply elem_of_dom. unfold fork_parent in Hf.
  destruct (repos !! id); [by eexists|congruence].
Qed.

Lemma Acc_depth id : Acc parent_of id <-> exists n, depth id n.
Proof.
  split.
  - induction 1 as [id _ IH]. destruct (decide (fork_parent repos id = ""%string)) as [E|E].
    + exists 0. by constructor.
    + destruct (IH (fork_parent repos id)) as [n Hn]; [by split|]. exists (S n).
      by constructor.
  - intros [n Hd]. induction Hd as [id Hr|id n Hf _ IH]; constructor; intros p [Hp E]; congruence.
Qed.

Lemma visit_sound fuel id vg vd vg' vd' :
  visitFork fuel repos id vg vd = Ok (vg', vd') ->
  (forall x, x ∈ vd -> exists n, depth x n) ->
  vg' = vg /\ vd ⊆ vd' /\ id ∈ vd' /\ (forall x, x ∈ vd' -> exists n, depth x n).
Proof.
  revert id vg vd vg' vd'. induction fuel as [|fuel IH]; intros id vg vd vg' vd' Hv Hd; [done|].
  cbn in Hv. apply guard_ok in Hv as [Hg Hv]. apply bool_decide_eq_false in Hg.
  case_decide as Hin.
  { injection Hv as <- <-. set_solver. }
  apply bind_ok in Hv as ([vg1 vd1] & Hp & [= <- <-]).
  assert (vg1 = {[id]} ∪ vg /\ vd ⊆ vd1 /\ (exists n, depth id n) /\
          (forall x, x ∈ vd1 -> exists n, depth x n)) as (-> & Hsub & [n Hid] & Hall).
  { case_decide as E.
    - injection Hp as <- <-. split_and!; try done. exists 0. by constructor.
    - destruct (IH _ _ _ _ _ Hp Hd) as (-> & ? & Hpar & Hall). split_and!; try done.
      destruct (Hall _ Hpar) as [n Hn]. exists (S n). by constructor. }
  split_and!; [set_solver|set_solver|set_solver|].
  intros x [->%elem_of_singleton|Hx]%elem_of_union; [by exists n|by apply Hall].
Qed.

Lemma visit_complete fuel id n vg vd :
  depth id n ->
  (forall x, x ∈ vg -> exists m, depth x m /\ n < m) ->
  size (dom repos ∖ vg) < fuel ->
  exists r, visitFork fuel repos id vg vd = Ok r.
Proof.
  intros Hd. revert fuel vg vd. induction Hd as [id Hr|id n Hf Hd IH];
    intros [|fuel] vg vd Hvg Hfuel; try lia; cbn.
  - rewrite bool_decide_eq_false_2.
    2:{ intros (m & Hm & Hlt)%Hvg. pose proof (depth_fun _ _ _ Hm (depth_root _ Hr)). lia. }
    case_decide; [by eexists|]. rewrite decide_True by done. by eexists.
  - assert (id ∉ vg) as Hnot.
    { intros (m & Hm & Hlt)%Hvg. pose proof (depth_fun _ _ _ Hm (depth_fork _ _ Hf Hd)). lia. }
    rewrite bool_decide_eq_false_2 by done. case_decide; [by eexists|].
    rewrite decide_False by done.
    destruct (IH fuel ({[id]} ∪ vg) vd) as [[vg1 vd1] ->]; [| |by eexists].
    + intros x [->%elem_of_singleton|Hx]%elem_of_union.
      * exists (S n). split; [by constructor|lia].
      * destruct (Hvg x Hx) as (m & ? & ?). exists m. split; [done|lia].
    + apply Nat.lt_le_trans with (size (dom repos ∖ vg)); [|lia].
      apply subset_size. pose proof (forked_in_dom id Hf). set_solver.
Qed.

End Lineage.

Lemma check_lineage_sound `{MapOrder} repos r :
  check_lineage repos = Ok r -> well_founded (parent_of repos).
Proof.
  intros Hc id. apply Acc_depth.
  assert (forall x, x ∈ dom repos -> exists n, depth repos x n) as Hdom.
  { unfold check_lineage in Hc.
    apply (foldM_ind _ (fun pre st => fst st = ∅ /\ (forall x, x ∈ pre -> x ∈ snd st) /\
             forall x, x ∈ snd st -> exists n, depth repos x n)) in Hc as (_ & Hsub & Hall).
    - intros x Hx. apply Hall, Hsub. rewrite map_order_perm.
      apply elem_of_dom in Hx as [v Hv]. apply list_elem_of_In, in_map_iff.
      exists (x, v). split; [done|]. by apply list_elem_of_In, elem_of_map_to_list.
    - set_solver.
    - intros pre x [vg vd] [vg' vd'] (Hvg & Hsub & Hall) Hv. cbn -[visitFork] in Hvg, Hsub, Hall, Hv |- *. subst vg.
      destruct (visit_sound repos _ _ _ _ _ _ Hv Hall) as (-> & Hle & Hx & Hall').
      split_and!; try done. intros y Hy. apply elem_of_app in Hy as [Hy|Hy].
      + apply Hle, Hsub, Hy.
      + by apply list_elem_of_singleton in Hy as ->. }
  destruct (decide (fork_parent repos id = ""%string)) as [E|E].
  - exists 0%nat. by constructor.
  - by apply Hdom, forked_in_dom.
Qed.

Lemma check_lineage_complete `{MapOrder} repos :
  well_founded (parent_of repos) -> exists r, check_lineage repos = Ok r.
Proof.
  intros Hwf. unfold check_lineage.
  assert (forall ids vd, (forall x, x ∈ vd -> exists n, depth repos x n) ->
    exists r, foldM (fun '(visiting, visited) id =>
      visitFork (S (size repos)) repos id visiting visited) ids (∅, vd) = Ok r) as Hall.
  { induction ids as [|id ids IH]; intros vd Hvd; cbn -[visitFork]; [by eexists|].
    destruct (proj1 (Acc_depth repos id) (Hwf id)) as [n Hn].
    destruct (visit_complete repos (S (size repos)) id n ∅ vd Hn) as [[vg' vd'] Hv].
    - set_solver.
    - rewrite difference_empty_L, size_dom. lia.
    - rewrite Hv. destruct (visit_sound repos _ _ _ _ _ _ Hv Hvd) as (-> & _ & _ & Hd).
      by apply IH. }
  apply Hall. set_solver.
Qed.

(** ** unique orders and parents before forks

    The comparison functions handed to [sort.Slice] are total preorders whose
    ties share a key, so the sorted order of records with distinct keys does
    not depend on the input order; [forkDepth] computes the length of the fork
    chain, so a parent precedes its forks. *)

Local Open Scope Z_scope.

(** ** Comparison functions *)

(** What the code relies on when it hands [less] to [sort.Slice]: [not_after]
    is a total preorder, and elements that tie have the same key. *)
Class SortOrder {A K} (less : A -> A -> bool) (key : A -> K) := {
  #[global] so_total :: Total (not_after less);
  #[global] so_trans :: Transitive (not_after less);
  so_tie : forall a b, not_after less a b -> not_after less b a -> key a = key b;
}.

Lemma ltb_leb a b : String.ltb b a = false <-> String.le a b.
Proof.
  unfold String.le, String.leb, String.ltb. rewrite (String.compare_antisym a b).
  destruct (String.compare b a); simpl; split; done.
Qed.

Lemma not_after_string {A} (k : A -> string) a b :
  not_after (less_string k) a b <-> String.le (k a) (k b).
Proof. apply ltb_leb. Qed.

Lemma not_after_id {A} (k : A -> Z) a b : not_after (less_id k) a b <-> k a <= k b.
Proof. unfold not_after, less_id. rewrite Z.ltb_ge. done. Qed.

Lemma not_after_pair {A} (k1 k2 : A -> string) a b :
  not_after (less_pair k1 k2) a b <->
  (k1 a = k1 b /\ String.le (k2 a) (k2 b)) \/ (k1 a <> k1 b /\ String.le (k1 a) (k1 b)).
Proof.
  unfold not_after, less_pair. case_decide; rewrite ltb_leb; split.
  - auto.
  - intros [[_ ?]|[? _]]; [done|congruence].
  - intros. right. split; [congruence|done].
  - intros [[? _]|[_ ?]]; [congruence|done].
Qed.

Lemma not_after_repository depth a b :
  not_after (less_repository depth) a b <->
  (depth_at depth a = depth_at depth b /\ String.le (repo_ID a) (repo_ID b)) \/
  depth_at depth a < depth_at depth b.
Proof.
  unfold not_after, less_repository.
  destruct (Z.eqb_spec (depth_at depth b) (depth_at depth a)); simpl.
  - rewrite ltb_leb. split; [auto|]. intros [[_ ?]|?]; [done|lia].
  - rewrite Z.ltb_ge. split; [intros; right; lia|]. intros [[? _]|?]; lia.
Qed.

#[export] Instance string_order {A} (k : A -> string) : SortOrder (less_string k) k.
Proof.
  split.
  - intros a b. rewrite !not_after_string. apply (total String.le).
  - intros a b c. rewrite !not_after_string. apply transitivity.
  - intros a b. rewrite !not_after_string. apply (anti_symm String.le).
Qed.

#[export] Instance id_order {A} (k : A -> Z) : SortOrder (less_id k) k.
Proof.
  split; [intros a b|intros a b c|intros a b]; rewrite !not_after_id; lia.
Qed.

#[export] Instance pair_order {A} (k1 k2 : A -> string) :
  SortOrder (less_pair k1 k2) (fun a => (k1 a, k2 a)).
Proof.
  split.
  - intros a b. rewrite !not_after_pair. destruct (decide (k1 a = k1 b)) as [E|E].
    + destruct (total String.le (k2 a) (k2 b)); [left; by left|right; by left].
    + destruct (total String.le (k1 a) (k1 b)); [left; by right|right; right; by split].
  - intros a b c. rewrite !not_after_pair.
    intros [[E1 L1]|[N1 L1]] [[E2 L2]|[N2 L2]].
    + left. split; [congruence|by transitivity (k2 b)].
    + right. rewrite E1. done.
    + right. rewrite <- E2. done.
    + right. split; [|by transitivity (k1 b)]. intros E. apply N1.
      apply (anti_symm String.le); [done|]. by rewrite E.
  - intros a b. rewrite !not_after_pair.
    intros [[E1 L1]|[N1 L1]] [[E2 L2]|[N2 L2]]; try congruence.
    + f_equal; [done|]. by apply (anti_symm String.le).
    + destruct N1. by apply (anti_symm String.le).
Qed.

#[export] Instance repository_order depth : SortOrder (less_repository depth) repo_ID.
Proof.
  split.
  - intros a b. rewrite !not_after_repository.
    destruct (Z.lt_trichotomy (depth_at depth a) (depth_at depth b)) as [?|[E|?]];
      [left; by right| |right; by right].
    destruct (total String.le (repo_ID a) (repo_ID b)); [left|right]; left; split; congruence || done.
  - intros a b c. rewrite !not_after_repository.
    intros [[E1 L1]|L1] [[E2 L2]|L2]; [left|right; lia..].
    split; [congruence|by transitivity (repo_ID b)].
  - intros a b. rewrite !not_after_repository.
    intros [[E1 L1]|L1] [[E2 L2]|L2]; [|lia..]. by apply (anti_symm String.le).
Qed.

Lemma StronglySorted_agree {A} (R R' : A -> A -> Prop) l :
  (forall a b, a ∈ l -> b ∈ l -> R' a b -> R a b) -> StronglySorted R' l -> StronglySorted R l.
Proof.
  intros HR Hs. induction Hs as [|a l Hs IH Hall]; constructor.
  - apply IH. intros x y Hx Hy. apply HR; by right.
  - rewrite Forall_forall in Hall |- *. intros b Hb. apply HR; [by left|by right|by apply Hall].
Qed.

(** Records with distinct keys have one sorted order. *)
Lemma sort_slice_agree {A K} (less less' : A -> A -> bool) (key : A -> K)
    `{!SortOrder less key, !SortOrder less' key} l l' :
  NoDup (map key l) -> l ≡ₚ l' -> (forall a b, a ∈ l -> b ∈ l -> less a b = less' a b) ->
  sort_slice less l = sort_slice less' l'.
Proof.
  intros Hnd Hp Hagree. unfold sort_slice.
  apply (StronglySorted_unique_strong (not_after less)).
  - intros a b Ha Hb H1 H2. pose proof (so_tie a b H1 H2) as Hk.
    rewrite merge_sort_Permutation in Ha. rewrite merge_sort_Permutation, <- Hp in Hb.
    clear -Hnd Ha Hb Hk. induction l as [|x l IH]; [by apply elem_of_nil in Ha|].
    simpl in Hnd. apply NoDup_cons in Hnd as [Hx Hnd].
    apply elem_of_cons in Ha as [->|Ha], Hb as [->|Hb]; try done.
    + destruct Hx. rewrite Hk. by apply list_elem_of_fmap_2.
    + destruct Hx. rewrite <- Hk. by apply list_elem_of_fmap_2.
    + by apply IH.
  - apply StronglySorted_merge_sort; apply _.
  - apply (StronglySorted_agree _ (not_after less')); [|apply StronglySorted_merge_sort; apply _].
    intros a b. rewrite merge_sort_Permutation, <- Hp. intros Ha Hb. unfold not_after.
    by rewrite Hagree.
  - by rewrite !merge_sort_Permutation.
Qed.

Lemma sort_slice_unique {A K} (less : A -> A -> bool) (key : A -> K) `{!SortOrder less key} l l' :
  NoDup (map key l) -> l ≡ₚ l' -> sort_slice less l = sort_slice less l'.
Proof. intros Hnd Hp. by eapply sort_slice_agree. Qed.

Lemma sort_strings_unique l l' : l ≡ₚ l' -> sort_strings l = sort_strings l'.
Proof.
  intros Hp. apply (StronglySorted_unique String.le).
  - apply StronglySorted_merge_sort; apply _.
  - apply StronglySorted_merge_sort; apply _.
  - unfold sort_strings. by rewrite !merge_sort_Permutation.
Qed.

Lemma length_sort_slice {A} (less : A -> A -> bool) l : length (sort_slice less l) = length l.
Proof. unfold sort_slice. by rewrite merge_sort_Permutation. Qed.

Lemma length_sort_strings l : length (sort_strings l) = length l.
Proof. unfold sort_strings. by rewrite merge_sort_Permutation. Qed.

(** ** Fork depths *)

Section Depth.
Context (repos : gmap string SnapshotRepository).

(** The fork chain above a repository is made of distinct repositories. *)
Lemma depth_size id n : depth repos id n -> (n <= size repos)%nat.
Proof.
  intros Hd. enough (exists X : gset string, size X = n /\ X ⊆ dom repos /\
    forall x, x ∈ X -> exists m, depth repos x m /\ (m <= n)%nat) as (X & <- & Hsub & _).
  { rewrite <- size_dom. by apply subseteq_size. }
  induction Hd as [id Hr|id n Hf Hd (X & Hs & Hsub & HX)].
  - exists ∅. split_and!; set_solver.
  - assert (id ∉ X) as Hni.
    { intros (m & Hm & Hle)%HX. pose proof (depth_fun _ _ _ _ Hm (depth_fork _ _ _ Hf Hd)). lia. }
    exists ({[id]} ∪ X). split_and!.
    + rewrite size_union, size_singleton by set_solver. lia.
    + pose proof (forked_in_dom repos id Hf). set_solver.
    + intros x [->%elem_of_singleton|(m & ? & ?)%HX]%elem_of_union.
      * exists (S n). split; [by constructor|lia].
      * exists m. split; [done|lia].
Qed.

(** The memo table holds true depths only. *)
Definition memo_ok (memo : gmap string Z) : Prop :=
  forall id z, memo !! id = Some z -> exists n, depth repos id n /\ z = Z.of_nat n.

Lemma memo_insert memo id n :
  memo_ok memo -> depth repos id n -> memo_ok (<[id := Z.of_nat n]> memo).
Proof.
  intros Hm Hd id' z [[<- <-]|[_ ?]]%lookup_insert_Some; [by exists n|by apply Hm].
Qed.

Lemma forkDepth_spec fuel memo id n :
  memo_ok memo -> depth repos id n -> (n < fuel)%nat ->
  exists memo', forkDepth fuel repos memo id = Ok (Z.of_nat n, memo') /\
    memo_ok memo' /\ memo' !! id = Some (Z.of_nat n) /\ dom memo ⊆ dom memo'.
Proof.
  intros Hm Hd. revert fuel memo Hm. induction Hd as [id Hr|id n Hf Hd IH];
    intros [|fuel] memo Hm Hfuel; try lia; cbn [forkDepth];
    destruct (memo !! id) as [z|] eqn:E.
  - destruct (Hm _ _ E) as (m & Hmd & ->).
    rewrite (depth_fun _ _ _ _ Hmd (depth_root _ _ Hr)) in E |- *. by exists memo.
  - rewrite decide_True by done. eexists. split; [reflexivity|]. split_and!.
    + apply (memo_insert _ _ 0); [done|by constructor].
    + by rewrite lookup_insert_eq.
    + set_solver.
  - destruct (Hm _ _ E) as (m & Hmd & ->).
    rewrite (depth_fun _ _ _ _ Hmd (depth_fork _ _ _ Hf Hd)) in E |- *. by exists memo.
  - rewrite decide_False by done.
    destruct (IH fuel memo Hm) as (memo1 & -> & Hm1 & Hl1 & Hsub); [lia|].
    replace (Z.of_nat n + 1) with (Z.of_nat (S n)) by lia.
    eexists. split; [reflexivity|]. split_and!.
    + apply memo_insert; [done|by constructor].
    + by rewrite lookup_insert_eq.
    + set_solver.
Qed.

End Depth.

(** ** The table built while sorting *)

Lemma repos_by_id_lookup rs id r :
  NoDup (map repo_ID rs) -> repos_by_id rs !! id = Some r <-> r ∈ rs /\ repo_ID r = id.
Proof.
  unfold repos_by_id. induction rs as [|x rs IH] using rev_ind; intros Hnd.
  - simpl. rewrite lookup_empty, elem_of_nil. naive_solver.
  - rewrite fold_left_app. simpl. rewrite map_app in Hnd.
    apply NoDup_app in Hnd as (Hnd & Hx & _).
    rewrite lookup_insert_Some, IH, elem_of_app, list_elem_of_singleton by done. split.
    + intros [[<- <-]|[Hne [Hin Hid]]]; auto.
    + intros [[Hin| ->] Hid]; [|by left]. right. split; [|done]. intros E.
      apply (Hx (repo_ID r)); [by apply list_elem_of_fmap_2|].
      simpl. rewrite list_elem_of_singleton. congruence.
Qed.

Lemma depth_exists repos id : well_founded (parent_of repos) -> exists n, depth repos id n.
Proof. intros Hwf. apply Acc_depth, Hwf. Qed.

(** Every repository's depth is computed, and the computation ends. *)
Lemma fork_depths_spec rs :
  well_founded (parent_of (repos_by_id rs)) ->
  exists d, fork_depths rs = Ok d /\
    forall r, r ∈ rs -> exists n, depth (repos_by_id rs) (repo_ID r) n /\ depth_at d r = Z.of_nat n.
Proof.
  intros Hwf. set (repos := repos_by_id rs) in *. unfold fork_depths. fold repos.
  assert (forall todo memo, memo_ok repos memo -> exists d,
    foldM (fun memo r => let? (_, memo') := forkDepth (S (size repos)) repos memo (repo_ID r) in
                         Ok memo') todo memo = Ok d /\ memo_ok repos d /\ dom memo ⊆ dom d /\
    forall r, r ∈ todo -> repo_ID r ∈ dom d) as Hall.
  { induction todo as [|r todo IH]; intros memo Hm; cbn [foldM].
    - exists memo. set_solver.
    - destruct (depth_exists repos (repo_ID r) Hwf) as [n Hn].
      pose proof (depth_size _ _ _ Hn).
      destruct (forkDepth_spec repos (S (size repos)) memo _ _ Hm Hn) as (m1 & -> & Hm1 & Hl & Hsub);
        [lia|].
      destruct (IH m1 Hm1) as (d & Hd & Hmd & Hsub1 & Htodo). exists d.
      split_and!; [done|done|set_solver|].
      intros r' [->|Hr']%elem_of_cons; [|by apply Htodo].
      apply Hsub1, elem_of_dom. by eexists. }
  destruct (Hall rs ∅) as (d & Hd & Hmd & _ & Hin).
  { intros id z. by rewrite lookup_empty. }
  exists d. split; [exact Hd|]. intros r [z Hz]%Hin%elem_of_dom.
  destruct (Hmd _ _ Hz) as (n & Hn & ->). exists n. split; [done|].
  unfold depth_at. by rewrite Hz.
Qed.

(** In the sorted order every fork comes after its parent. *)
Lemma parents_first rs d pre r post :
  (forall r, r ∈ rs -> exists n, depth (repos_by_id rs) (repo_ID r) n /\ depth_at d r = Z.of_nat n) ->
  NoDup (map repo_ID rs) ->
  sort_slice (less_repository d) rs = pre ++ r :: post ->
  repo_ForkedFrom r <> ""%string ->
  is_Some (repos_by_id rs !! repo_ForkedFrom r) ->
  exists p, p ∈ pre /\ repo_ID p = repo_ForkedFrom r.
Proof.
  intros Hd Hnd Hs Hf [p [Hp Hid]%repos_by_id_lookup]; [|done]. exists p. split; [|done].
  assert (forall x, x ∈ rs <-> x ∈ pre ++ r :: post) as Hin.
  { intros x. rewrite <- Hs. unfold sort_slice. by rewrite merge_sort_Permutation. }
  assert (r ∈ rs) as Hr by (apply Hin; set_solver).
  destruct (Hd r Hr) as (n & Hn & En), (Hd p Hp) as (m & Hm & Em).
  assert (fork_parent (repos_by_id rs) (repo_ID r) = repo_ForkedFrom r) as Hpar.
  { unfold fork_parent. by rewrite (proj2 (repos_by_id_lookup rs (repo_ID r) r Hnd)). }
  inversion Hn as [? Hroot|? n' Hne Hn']; subst; [congruence|].
  rewrite Hpar, <- Hid in Hn'. pose proof (depth_fun _ _ _ _ Hm Hn') as ->.
  assert (depth_at d p < depth_at d r) as Hlt by lia.
  apply Hin, elem_of_app in Hp as [?|Hp]; [done|]. exfalso.
  assert (not_after (less_repository d) r p) as Hna.
  { apply elem_of_cons in Hp as [->|Hp]; [lia|].
    assert (StronglySorted (not_after (less_repository d)) (pre ++ r :: post)) as Hss.
    { rewrite <- Hs. apply StronglySorted_merge_sort; apply _. }
    apply StronglySorted_app_1_r in Hss. inversion Hss as [|? ? _ Hall]; subst.
    rewrite Forall_forall in Hall. by apply Hall. }
  apply not_after_repository in Hna as [[? _]|?]; lia.
Qed.
