(* ===== verification/Plan.v ===== *)
(** * Bootstrap plans

    [appendRecordBatches], [ValidatePlan] and [BuildPlan] of
    [cli/internal/suitemigration/plan.go]. *)
From Stdlib Require Import ZArith Lia Ascii String.
From stdpp Require Import base list gmap strings sorting.
From S2P Require Import Prelude GoText Encodings Geth Schema Codec Validators Snapshot Records.

Local Open Scope Z_scope.

Section Plan.
Context {GE : Geth} {MO : MapOrder}.

(** ** Batching *)

(** [l[start:end]] *)
Definition slice {A} (start stop : nat) (l : list A) : list A := take (stop - start) (drop start l).

(** The inner loop: halve the range until its encoding fits.  [fuel] bounds the
    halvings; [stop - start] of them are enough. *)
Fixpoint shrink_batch (fuel : nat) (group : recordGroup) (start stop : nat)
  : result (bytes * nat) :=
  match fuel with
  | O => errf "shrink_batch: out of fuel" []
  | S fuel' =>
      let? payload := rg_encode group (slice start stop (rg_values group)) in
      if llen payload <=? MaximumPayloadBytes then Ok (payload, stop)
      else if Nat.eqb (stop - start) 1 then
        errf "record %s encodes to %d bytes; maximum is %d"
          [GStr (nth start (rg_keys group) ""%string); GInt (llen payload);
           GInt MaximumPayloadBytes]
      else shrink_batch fuel' group start (start + (stop - start) / 2)%nat
  end.

(** One turn of the outer loop: the batch appended to the module, with the new
    root and the next start. *)
Definition append_batch (group : recordGroup) (batchSize : nat) (moduleID : bytes)
    (start : nat) (module : ModulePlan) (root : bytes) : result (ModulePlan * bytes * nat) :=
  let stop := Nat.min (start + batchSize) (length (rg_values group)) in
  let? (payload, stop) := shrink_batch (S (stop - start)) group start stop in
  let count := u64 (Z.of_nat (stop - start)) in
  let sequence := u64 (llen (mp_Batches module)) in
  let payloadHash := keccak256 payload in
  let? root' := rollingStep root moduleID sequence count payloadHash in
  let batch := {|
    pb_Sequence := sequence; pb_Kind := rg_kind group; pb_KindCode := rg_kindCode group;
    pb_Count := count; pb_ItemKeys := slice start stop (rg_keys group);
    pb_Payload := hexBytes payload; pb_PayloadHash := HashHex payloadHash;
    pb_RollingRoot := HashHex root' |} in
  let module' := {|
    mp_Order := mp_Order module; mp_Name := mp_Name module; mp_ID := mp_ID module;
    mp_ExpectedCount := u64 (mp_ExpectedCount module + count);
    mp_ExpectedBatches := mp_ExpectedBatches module;
    mp_ExpectedRoot := mp_ExpectedRoot module;
    mp_Batches := mp_Batches module ++ [batch] |} in
  Ok (module', root', stop).

Fixpoint append_loop (fuel : nat) (group : recordGroup) (batchSize : nat) (moduleID : bytes)
    (start : nat) (module : ModulePlan) (root : bytes) : result (ModulePlan * bytes) :=
  if (start <? length (rg_values group))%nat then
    match fuel with
    | O => errf "append_loop: out of fuel" []
    | S fuel' =>
        let? (module', root', start') :=
          append_batch group batchSize moduleID start module root in
        append_loop fuel' group batchSize moduleID start' module' root'
    end
  else Ok (module, root).

Definition appendRecordBatches (module : ModulePlan) (group : recordGroup) (batchSize : Z)
    (moduleID root : bytes) : result (ModulePlan * bytes) :=
  fail_if negb (llen (rg_values group) =? llen (rg_keys group))
    as Errorf "internal record/key mismatch" [] ;;
  append_loop (length (rg_values group)) group (Z.to_nat batchSize) moduleID 0 module root.

(** ** Kinds *)

Definition kind_names (module : string) : list string :=
  if decide (module = "repository-core"%string) then
    ["repositories"; "aliases"; "refs"; "collaborators"]%string
  else if decide (module = "recovery"%string) then ["guardian-configs"]%string
  else if decide (module = "moderation"%string) then
    ["final-statuses"; "reports"; "status-trails"]%string
  else if decide (module = "economic"%string) then ["splits"; "all-denom-totals"]%string
  else if decide (module = "username"%string) then ["original-owners"; "reserved-names"]%string
  else if decide (module = "badge"%string) then ["badges"]%string
  else if decide (module = "release"%string) then ["artifacts"]%string
  else [].

(** [(name, ok)]: [None] is [("", false)]. *)
Definition kindName (module : string) (code : Z) : option string :=
  kind_names module !! Z.to_nat code.

(** ** Plan validation *)

Definition check_plan_snapshot (plan : Plan) : result bytes :=
  let snapshot := plan_Snapshot plan in
  fail_if negb (bool_decide (plan_Schema plan = PlanSchema)) || negb (plan_Executable plan)
    as Errorf "unsupported or non-executable suite plan" [] ;;
  fail_if negb (bool_decide (ps_Schema snapshot = SnapshotSchema))
    as Errorf "unsupported snapshot schema %q" [GStr (ps_Schema snapshot)] ;;
  let? snapshotDigest := rawSHA256 "snapshot SHA-256" (ps_SHA256 snapshot) in
  let? snapshotRoot := parseHash "snapshot root" (ps_Root snapshot) in
  fail_if negb (bool_decide (snapshotRoot = BytesToHash snapshotDigest))
    as Errorf "snapshot root must equal the snapshot SHA-256 bound into SuiteDirectory" [] ;;
  fail_if ps_SourceHeight snapshot =? 0
    as Errorf "snapshot source height must be positive" [] ;;
  fail_if bool_decide (TrimSpace (ps_SourceChainID snapshot) = ""%string) ||
          bool_decide (TrimSpace (ps_SourceContract snapshot) = ""%string)
    as Errorf "snapshot source chain ID and contract are required" [] ;;
  check? check_source_block (ps_SourceChainID snapshot) (ps_SourceContract snapshot)
           (ps_SourceHeight snapshot) (ps_SourceBlockHash snapshot) ;;
  check? check_evidence (ps_InventorySHA256 snapshot) (ps_TxSearchSHA256 snapshot)
           (ps_BlockEvidenceSHA256 snapshot) (ps_EventCommitmentSHA256 snapshot) ;;
  Ok snapshotRoot.

Definition check_plan_target (plan : Plan) : result unit :=
  let target := plan_Target plan in
  fail_if (tgt_ChainID target =? 0) || negb (tgt_SuiteVersion target =? SuiteVersion)
    as Errorf "invalid suite target chain or version" [] ;;
  check? canonicalAddress "SuiteDirectory" (tgt_Directory target) ;;
  check? canonicalAddress "BootstrapCoordinator" (tgt_Coordinator target) ;;
  fail_if bool_decide (tgt_Directory target = tgt_Coordinator target)
    as Errorf "directory and coordinator must differ" [] ;;
  check? validateContractPolicy (plan_ContractPolicy plan) ;;
  check? validateEscrowRelease (plan_UsernameEscrowRelease plan)
           (ps_SourceContract (plan_Snapshot plan)) (ps_SourceHeight (plan_Snapshot plan)) ;;
  let limits := plan_Limits plan in
  fail_if (lim_BatchSize limits <? 1) || (MaximumBatchItems <? lim_BatchSize limits) ||
          negb (lim_MaxBatchItems limits =? MaximumBatchItems) ||
          negb (lim_MaxPayloadBytes limits =? MaximumPayloadBytes)
    as Errorf "suite import limits do not match contracts" [] ;;
  check? parseHash "username escrow evidence hash" (plan_UsernameEscrowEvidenceHash plan) ;;
  fail_if negb (bool_decide (plan_UsernameEscrowEvidenceHash plan =
                 "0x" +:+ esc_EvidenceSHA256 (plan_UsernameEscrowRelease plan))%string)
    as Errorf "username escrow evidence hash does not match the reviewed escrow release evidence"
         [] ;;
  fail_if negb (llen (plan_Modules plan) =? RequiredModuleCount)
    as Errorf "suite plan has %d modules; want %d"
         [GInt (llen (plan_Modules plan)); GInt RequiredModuleCount] ;;
  Ok tt.

(** The variables of the loop over the batches of one module. *)
Record batch_state := {
  bs_root : bytes;
  bs_count : Z;
  bs_lastKind : Z;
  bs_seenKinds : gset Z;
  bs_kindCounts : gmap string Z;
}.

(** The loop over the item keys of a batch. *)
Definition check_item_key (where_ : list garg) (itemIndex : Z) (_ : unit) (key : string)
  : result unit :=
  fail_if bool_decide (TrimSpace key = ""%string)
    as Errorf "module %s batch %d item key %d is empty" (where_ ++ [GInt itemIndex]) ;;
  Ok tt.

Definition check_batch (plan : Plan) (spec : moduleSpec) (module : ModulePlan) (index : Z)
    (st : batch_state) (batch : PlanBatch) : result batch_state :=
  let where_ := [GStr (mp_Name module); GInt index] in
  fail_if negb (pb_Sequence batch =? index) || (pb_Count batch =? 0) ||
          (MaximumBatchItems <? pb_Count batch) ||
          (lim_BatchSize (plan_Limits plan) <? pb_Count batch) ||
          negb (llen (pb_ItemKeys batch) =? pb_Count batch)
    as Errorf "module %s batch %d has invalid sequence/count" where_ ;;
  check? foldMi (check_item_key where_) 0 (pb_ItemKeys batch) tt ;;
  let? payload := parseHexBytes "batch payload" (pb_Payload batch) in
  fail_if (llen payload =? 0) || (MaximumPayloadBytes <? llen payload)
    as Errorf "module %s batch %d payload size %d is invalid"
         (where_ ++ [GInt (llen payload)]) ;;
  let? actualCount := wrapf "module %s batch %d: %w" where_
    (decodePayloadCount (mp_Name module) (pb_KindCode batch) payload) in
  fail_if negb (actualCount =? pb_Count batch)
    as Errorf "module %s batch %d decoded count %d does not match %d"
         (where_ ++ [GInt actualCount; GInt (pb_Count batch)]) ;;
  fail_if negb (bool_decide (kindName (mp_Name module) (pb_KindCode batch)
                             = Some (pb_Kind batch)))
    as Errorf "module %s batch %d kind mismatch" where_ ;;
  fail_if negb (index =? 0) && (pb_KindCode batch <? bs_lastKind st)
    as Errorf "module %s batch %d import kind is out of order" where_ ;;
  fail_if bool_decide (pb_KindCode batch ∈ bs_seenKinds st) &&
          negb (pb_KindCode batch =? bs_lastKind st)
    as Errorf "module %s batch %d import kind is not contiguous" where_ ;;
  let payloadHash := keccak256 payload in
  fail_if negb (bool_decide (pb_PayloadHash batch = HashHex payloadHash))
    as Errorf "module %s batch %d payload hash mismatch" where_ ;;
  let? root := rollingStep (bs_root st) (spec_id spec) (pb_Sequence batch) (pb_Count batch)
                 payloadHash in
  fail_if negb (bool_decide (pb_RollingRoot batch = HashHex root))
    as Errorf "module %s batch %d rolling root mismatch" where_ ;;
  let key := (mp_Name module +:+ "/" +:+ pb_Kind batch)%string in
  Ok {| bs_root := root; bs_count := u64 (bs_count st + pb_Count batch);
        bs_lastKind := pb_KindCode batch;
        bs_seenKinds := {[pb_KindCode batch]} ∪ bs_seenKinds st;
        bs_kindCounts := <[key := u64 (count_at (bs_kindCounts st) key + pb_Count batch)]>
                           (bs_kindCounts st) |}.

(** The variables of the loop over the modules. *)
Record module_totals := {
  mt_totalCount : Z;
  mt_batchCount : Z;
  mt_kindCounts : gmap string Z;
}.

Definition check_module (plan : Plan) (snapshotRoot : bytes) (order : Z) (st : module_totals)
    (pair : moduleSpec * ModulePlan) : result module_totals :=
  let '(spec, module) := pair in
  fail_if negb (mp_Order module =? order) || negb (bool_decide (mp_Name module = spec_name spec)) ||
          negb (bool_decide (mp_ID module = ToLower (HashHex (spec_id spec))))
    as Errorf "module %d is not canonical %s" [GInt order; GStr (spec_name spec)] ;;
  let? root := rollingSeed (spec_id spec) snapshotRoot in
  let? final := foldMi (check_batch plan spec module) 0 (mp_Batches module)
    {| bs_root := root; bs_count := 0; bs_lastKind := 0; bs_seenKinds := ∅;
       bs_kindCounts := mt_kindCounts st |} in
  fail_if negb (mp_ExpectedCount module =? bs_count final) ||
          negb (mp_ExpectedBatches module =? u64 (llen (mp_Batches module))) ||
          negb (bool_decide (mp_ExpectedRoot module = HashHex (bs_root final)))
    as Errorf "module %s expected count/batches/root mismatch" [GStr (mp_Name module)] ;;
  Ok {| mt_totalCount := u64 (mt_totalCount st + bs_count final);
        mt_batchCount := i64 (mt_batchCount st + llen (mp_Batches module));
        mt_kindCounts := bs_kindCounts final |}.

Definition expected_items (s : PlanSummary) : Z :=
  i64 (sum_RepositoryCount s + sum_AliasCount s + sum_RefCount s + sum_CollaboratorCount s +
       sum_GuardianConfigCount s + sum_ModerationStatusCount s + sum_ModerationReportCount s +
       sum_ModerationTrailCount s + sum_EconomicSplitCount s + sum_EconomicTotalCount s +
       sum_UsernameOwnerCount s + sum_ReservedNameCount s + sum_BadgeCount s +
       sum_ReleaseArtifactCount s).

Definition expected_kind_counts (s : PlanSummary) : list (string * Z) := [
  ("repository-core/repositories", sum_RepositoryCount s);
  ("repository-core/aliases", sum_AliasCount s);
  ("repository-core/refs", sum_RefCount s);
  ("repository-core/collaborators", sum_CollaboratorCount s);
  ("recovery/guardian-configs", sum_GuardianConfigCount s);
  ("moderation/final-statuses", sum_ModerationStatusCount s);
  ("moderation/reports", sum_ModerationReportCount s);
  ("moderation/status-trails", sum_ModerationTrailCount s);
  ("economic/splits", sum_EconomicSplitCount s);
  ("economic/all-denom-totals", sum_EconomicTotalCount s);
  ("username/original-owners", sum_UsernameOwnerCount s);
  ("username/reserved-names", sum_ReservedNameCount s);
  ("badge/badges", sum_BadgeCount s);
  ("release/artifacts", sum_ReleaseArtifactCount s)]%string.

Definition check_summary (s : PlanSummary) (totals : module_totals) : result unit :=
  fail_if negb (sum_BatchCount s =? mt_batchCount totals) ||
          negb (sum_TransactionCount s =? i64 (2 * RequiredModuleCount + mt_batchCount totals + 2))
    as Errorf "suite plan summary batch/transaction count mismatch" [] ;;
  fail_if negb (mt_totalCount totals =? u64 (expected_items s))
    as Errorf "module item count %d does not match summary %d"
         [GInt (mt_totalCount totals); GInt (expected_items s)] ;;
  forM (fun '(key, expected) =>
    fail_if (expected <? 0) || negb (count_at (mt_kindCounts totals) key =? u64 expected)
      as Errorf "summary %s count %d does not match batches %d"
           [GStr key; GInt expected; GInt (count_at (mt_kindCounts totals) key)] ;;
    Ok tt) (map_order (expected_kind_counts s)).

Definition ValidatePlan (plan : Plan) : result unit :=
  let? snapshotRoot := check_plan_snapshot plan in
  check? check_plan_target plan ;;
  let? totals := foldMi (check_module plan snapshotRoot) 0
                   (zip requiredModules (plan_Modules plan))
                   {| mt_totalCount := 0; mt_batchCount := 0; mt_kindCounts := ∅ |} in
  check_summary (plan_Summary plan) totals.

Definition totalBatches (modules : list ModulePlan) : Z :=
  fold_left (fun total module => i64 (total + llen (mp_Batches module))) modules 0.

(** ** Building a plan *)

Definition build_module (records : gmap string (list recordGroup)) (batchSize : Z)
    (snapshotRoot : bytes) (order : Z) (spec : moduleSpec) : result ModulePlan :=
  let module := {| mp_Order := order; mp_Name := spec_name spec;
    mp_ID := ToLower (HashHex (spec_id spec)); mp_ExpectedCount := 0;
    mp_ExpectedBatches := 0; mp_ExpectedRoot := ""; mp_Batches := [] |} in
  let? seed := rollingSeed (spec_id spec) snapshotRoot in
  let? (module, root) :=
    foldM (fun '(m, r) group =>
      wrapf "build %s/%s batches: %w" [GStr (spec_name spec); GStr (rg_kind group)]
        (appendRecordBatches m group batchSize (spec_id spec) r))
      (default [] (records !! spec_name spec)) (module, seed) in
  Ok {| mp_Order := mp_Order module; mp_Name := mp_Name module; mp_ID := mp_ID module;
        mp_ExpectedCount := mp_ExpectedCount module;
        mp_ExpectedBatches := u64 (llen (mp_Batches module));
        mp_ExpectedRoot := HashHex root; mp_Batches := mp_Batches module |}.

Definition build_modules (records : gmap string (list recordGroup)) (batchSize : Z)
    (snapshotRoot : bytes) : result (list ModulePlan) :=
  foldMi (fun order modules spec =>
    let? module := build_module records batchSize snapshotRoot order spec in
    Ok (modules ++ [module])) 0 requiredModules [].

Definition with_counts (s : PlanSummary) (batchCount transactionCount : Z) : PlanSummary := {|
  sum_RepositoryCount := sum_RepositoryCount s; sum_AliasCount := sum_AliasCount s;
  sum_RefCount := sum_RefCount s; sum_CollaboratorCount := sum_CollaboratorCount s;
  sum_GuardianConfigCount := sum_GuardianConfigCount s;
  sum_ModerationStatusCount := sum_ModerationStatusCount s;
  sum_ModerationReportCount := sum_ModerationReportCount s;
  sum_ModerationTrailCount := sum_ModerationTrailCount s;
  sum_EconomicSplitCount := sum_EconomicSplitCount s;
  sum_EconomicTotalCount := sum_EconomicTotalCount s;
  sum_UsernameOwnerCount := sum_UsernameOwnerCount s;
  sum_ReservedNameCount := sum_ReservedNameCount s; sum_BadgeCount := sum_BadgeCount s;
  sum_ReleaseArtifactCount := sum_ReleaseArtifactCount s;
  sum_BatchCount := batchCount; sum_TransactionCount := transactionCount |}.

(** The checks on the build options: the addresses and the batch size. *)
Definition check_options (options : BuildOptions) : result (bytes * bytes * Z) :=
  fail_if opt_TargetChainID options =? 0
    as Errorf "target chain ID must be positive" [] ;;
  let? directory := canonicalAddress "SuiteDirectory" (opt_Directory options) in
  let? coordinator := canonicalAddress "BootstrapCoordinator" (opt_Coordinator options) in
  fail_if bool_decide (directory = coordinator)
    as Errorf "SuiteDirectory and BootstrapCoordinator must differ" [] ;;
  let batchSize := if opt_BatchSize options =? 0 then DefaultBatchSize
                   else opt_BatchSize options in
  fail_if (batchSize <? 1) || (MaximumBatchItems <? batchSize)
    as Errorf "batch size must be between 1 and %d" [GInt MaximumBatchItems] ;;
  Ok (directory, coordinator, batchSize).

(** The plan literal of [BuildPlan], with its modules and summary. *)
Definition assemble_plan (raw : bytes) (snapshot : Snapshot) (chainID batchSize : Z)
    (directory coordinator : bytes) (modules : list ModulePlan) (summary : PlanSummary) : Plan :=
  let snapshotSHA := sha256 raw in
  let src := snap_Source snapshot in
  let escrow := usr_EscrowRelease (snap_Username snapshot) in
  let batchCount := totalBatches modules in
  {| plan_Schema := PlanSchema; plan_Executable := true;
     plan_Snapshot := {|
       ps_Schema := snap_Schema snapshot; ps_SHA256 := hex_encode snapshotSHA;
       ps_Root := HashHex (BytesToHash snapshotSHA);
       ps_SourceChainID := src_ChainID src; ps_SourceContract := src_Contract src;
       ps_SourceHeight := src_Height src; ps_SourceBlockHash := src_BlockHash src;
       ps_InventorySHA256 := src_InventorySHA256 src; ps_TxSearchSHA256 := src_TxSearchSHA256 src;
       ps_BlockEvidenceSHA256 := src_BlockEvidenceSHA256 src;
       ps_EventCommitmentSHA256 := src_EventCommitmentSHA256 src |};
     plan_Target := {| tgt_ChainID := chainID; tgt_SuiteVersion := SuiteVersion;
       tgt_Directory := ToLower (AddressHex directory);
       tgt_Coordinator := ToLower (AddressHex coordinator) |};
     plan_ContractPolicy := snap_ContractPolicy snapshot;
     plan_UsernameEscrowRelease := escrow;
     plan_UsernameEscrowEvidenceHash := ("0x" +:+ esc_EvidenceSHA256 escrow)%string;
     plan_Limits := {| lim_BatchSize := batchSize; lim_MaxBatchItems := MaximumBatchItems;
       lim_MaxPayloadBytes := MaximumPayloadBytes |};
     plan_Modules := modules;
     plan_Summary := with_counts summary batchCount
       (i64 (2 * RequiredModuleCount + batchCount + 2)) |}.

(** [BuildPlan] from the decoded snapshot on. *)
Definition build_decoded_plan (raw : bytes) (snapshot : Snapshot) (options : BuildOptions)
  : result Plan :=
  check? wrapf "validate suite snapshot: %w" [] (validateSnapshot snapshot) ;;
  let? (directory, coordinator, batchSize) := check_options options in
  let snapshotRoot := BytesToHash (sha256 raw) in
  let? (moduleRecords, summary) := snapshotModuleRecords snapshot in
  let? modules := build_modules moduleRecords batchSize snapshotRoot in
  let plan := assemble_plan raw snapshot (opt_TargetChainID options) batchSize
                directory coordinator modules summary in
  check? wrapf "validate generated suite plan: %w" [] (ValidatePlan plan) ;;
  Ok plan.

End Plan.
