(* ===== verification/Manifest.v ===== *)
(** * The calldata manifest

    [cli/internal/suitemigration/manifest.go]: the bootstrap plan as the
    sequence of coordinator transactions, with their calldata, and the check
    that a manifest is exactly the one of a plan.  The plan's JSON text is an
    operation of the class [PlanJSON]. *)
From Stdlib Require Import ZArith Lia.
From stdpp Require Import base list gmap strings.
From S2P Require Import Prelude GoText Encodings Geth Schema Codec Validators Snapshot Records Plan.

Local Open Scope Z_scope.

(** [json.MarshalIndent(plan, "", "  ")] *)
Class PlanJSON := { MarshalIndent_plan : Plan -> bytes }.

(** ** The coordinator's ABI *)

Record abi_method := mk_method {
  am_name : string;
  am_inputs : list abi_type;
  am_sig : string;
}.

(** The functions of [abi/BootstrapCoordinator.json], in the order of the file. *)
Definition coordinatorMethods : list abi_method := [
  mk_method "activateSuite" [] "activateSuite()";
  mk_method "activated" [] "activated()";
  mk_method "attestUsernameEscrowReleased" [TBytes32] "attestUsernameEscrowReleased(bytes32)";
  mk_method "beginNextModule" [TBytes32; TUint 256; TUint 256; TBytes32]
    "beginNextModule(bytes32,uint256,uint256,bytes32)";
  mk_method "finalizeCurrentModule" [TBytes32] "finalizeCurrentModule(bytes32)";
  mk_method "importBatch" [TBytes32; TUint 256; TUint 256; TBytes32; TBytes]
    "importBatch(bytes32,uint256,uint256,bytes32,bytes)";
  mk_method "moduleProgress" [TBytes32] "moduleProgress(bytes32)";
  mk_method "nextModuleIndex" [] "nextModuleIndex()";
  mk_method "operator" [] "operator()";
  mk_method "readyForActivation" [] "readyForActivation()";
  mk_method "registerModule" [TBytes32; TAddress; TBytes32]
    "registerModule(bytes32,address,bytes32)";
  mk_method "snapshotRoot" [] "snapshotRoot()";
  mk_method "suiteDirectory" [] "suiteDirectory()";
  mk_method "usernameEscrowEvidenceHash" [] "usernameEscrowEvidenceHash()" ]%string.

(** The signatures of its events, by name. *)
Definition coordinatorEvents : list (string * string) := [
  ("ModuleBatchImported", "ModuleBatchImported(bytes32,uint256,uint256,bytes32,bytes32)");
  ("ModuleImportFinalized", "ModuleImportFinalized(bytes32,uint256,uint256,bytes32)");
  ("ModuleImportStarted", "ModuleImportStarted(bytes32,uint256,uint256,bytes32)");
  ("ModuleRegistered", "ModuleRegistered(bytes32,address,bytes32)");
  ("SuiteActivationRequested", "SuiteActivationRequested(bytes32)");
  ("UsernameEscrowReleaseAttested", "UsernameEscrowReleaseAttested(bytes32)") ]%string.

Section Manifest.
Context {GE : Geth} {MO : MapOrder} {PJ : PlanJSON}.

(** [method.ID] *)
Definition selector (m : abi_method) : bytes := take 4 (keccak256 (string_bytes (am_sig m))).

(** [coordinatorABI.Methods[name]] *)
Definition method_named (name : string) : option abi_method :=
  list_find (fun m => am_name m = name) coordinatorMethods ≫= fun p => Some (snd p).

(** [coordinatorABI.Events[name].ID.Hex()] *)
Definition event_topic (name : string) : string :=
  match list_find (fun p => fst p = name) coordinatorEvents with
  | Some (_, (_, sig)) => HashHex (keccak256 (string_bytes sig))
  | None => HashHex (zero_bytes 32)
  end.

(** [coordinatorABI.Pack(name, args...)] *)
Definition coordinator_Pack (name : string) (args : list abi_value) : result bytes :=
  match method_named name with
  | None => errf "method '%s' not found" [GStr name]
  | Some m => let? arguments := abi_Pack (am_inputs m) args in Ok (selector m ++ arguments)
  end.

(** [coordinatorABI.MethodById(id)]: a loop over the map of methods. *)
Definition MethodById (id : bytes) : result abi_method :=
  match list_find (fun m => selector m = id) (map_order coordinatorMethods) with
  | Some (_, m) => Ok m
  | None => errf "no method with id: %#x" []
  end.

Definition calldataMethod (data : string) : result (abi_method * list abi_value) :=
  let? raw := parseHexBytes "transaction calldata" data in
  fail_if llen raw <? 4
    as Errorf "transaction calldata is shorter than a selector" [] ;;
  let? method := MethodById (take 4 raw) in
  let? values := abi_Unpack (am_inputs method) (drop 4 raw) in
  fail_if negb (canonical_abi (am_inputs method) values (drop 4 raw))
    as Errorf "transaction calldata is not canonical ABI" [] ;;
  Ok (method, values).

(** ** The digest of the plan *)

Definition MarshalPlan (plan : Plan) : result bytes :=
  check? ValidatePlan plan ;;
  Ok (MarshalIndent_plan plan).

Definition PlanSHA256 (plan : Plan) : result string :=
  let? raw := MarshalPlan plan in
  Ok (hex_encode (sha256 raw)).

(** ** Building the manifest *)

(** The closure [appendTransaction], with the transactions so far. *)
Definition appendTransaction (plan : Plan) (module : option ModulePlan) (sequence : option Z)
    (phase functionName eventName : string) (arguments : list abi_value)
    (transactions : list ManifestTransaction) : result (list ManifestTransaction) :=
  let? data := wrapf "encode %s: %w" [GStr functionName]
                 (coordinator_Pack functionName arguments) in
  Ok (transactions ++ [{|
    tx_Order := llen transactions;
    tx_ModuleOrder := option_map mp_Order module;
    tx_Module := match module with Some m => mp_Name m | None => "" end;
    tx_ModuleID := match module with Some m => mp_ID m | None => "" end;
    tx_Sequence := sequence; tx_Phase := phase;
    tx_Function := match method_named functionName with Some m => am_sig m | None => "" end;
    tx_ExpectedEvent := eventName; tx_ExpectedTopic := event_topic eventName;
    tx_To := tgt_Coordinator (plan_Target plan); tx_Value := "0x0"; tx_Data := hexBytes data |}]).

Definition append_batch_tx (plan : Plan) (module : ModulePlan) (moduleID : bytes)
    (transactions : list ManifestTransaction) (batch : PlanBatch)
  : result (list ManifestTransaction) :=
  let payload := or_zero [] (parseHexBytes "batch payload" (pb_Payload batch)) in
  let payloadHash := or_zero (zero_bytes 32)
                       (parseHash "batch payload hash" (pb_PayloadHash batch)) in
  appendTransaction plan (Some module) (Some (pb_Sequence batch)) "import_batch" "importBatch"
    "ModuleBatchImported"
    [VBytes32 moduleID; VUint (pb_Sequence batch); VUint (pb_Count batch);
     VBytes32 payloadHash; VBytes payload] transactions.

Definition append_module_txs (plan : Plan) (transactions : list ManifestTransaction)
    (module : ModulePlan) : result (list ManifestTransaction) :=
  let moduleID := or_zero (zero_bytes 32) (parseHash "module ID" (mp_ID module)) in
  let root := or_zero (zero_bytes 32) (parseHash "module root" (mp_ExpectedRoot module)) in
  let? txs := appendTransaction plan (Some module) None "begin_module" "beginNextModule"
    "ModuleImportStarted"
    [VBytes32 moduleID; VUint (mp_ExpectedCount module); VUint (mp_ExpectedBatches module);
     VBytes32 root] transactions in
  let? txs := foldM (append_batch_tx plan module moduleID) (mp_Batches module) txs in
  let? txs :=
    (if decide (mp_Name module = "username"%string) then
       let evidenceHash := or_zero (zero_bytes 32)
         (parseHash "username escrow evidence hash" (plan_UsernameEscrowEvidenceHash plan)) in
       appendTransaction plan (Some module) None "attest_username_escrow"
         "attestUsernameEscrowReleased" "UsernameEscrowReleaseAttested"
         [VBytes32 evidenceHash] txs
     else Ok txs) in
  appendTransaction plan (Some module) None "finalize_module" "finalizeCurrentModule"
    "ModuleImportFinalized" [VBytes32 moduleID] txs.

(** The loop that reads every transaction back. *)
Definition check_transaction (plan : Plan) (index : Z) (_ : unit) (transaction : ManifestTransaction)
  : result unit :=
  let? (method, _) := wrapf "verify transaction %d calldata: %w" [GInt index]
                        (calldataMethod (tx_Data transaction)) in
  fail_if negb (tx_Order transaction =? index) ||
          negb (bool_decide (tx_Function transaction = am_sig method)) ||
          negb (bool_decide (tx_To transaction = tgt_Coordinator (plan_Target plan))) ||
          negb (bool_decide (tx_Value transaction = "0x0"%string))
    as Errorf "transaction %d metadata does not match canonical calldata target" [GInt index] ;;
  Ok tt.

Definition manifest_transactions (plan : Plan) : result (list ManifestTransaction) :=
  let? txs := foldM (append_module_txs plan) (plan_Modules plan) [] in
  appendTransaction plan None None "activate_suite" "activateSuite" "SuiteActivationRequested"
    [] txs.

Definition BuildCalldataManifest (plan : Plan) : result CalldataManifest :=
  check? wrapf "validate suite plan: %w" [] (ValidatePlan plan) ;;
  let? planSHA := PlanSHA256 plan in
  let? transactions := manifest_transactions plan in
  fail_if negb (llen transactions =? sum_TransactionCount (plan_Summary plan))
    as Errorf "generated %d transactions; plan requires %d"
         [GInt (llen transactions); GInt (sum_TransactionCount (plan_Summary plan))] ;;
  check? foldMi (check_transaction plan) 0 transactions tt ;;
  Ok {| man_Schema := ManifestSchema; man_CalldataReady := true; man_Signed := false;
        man_Broadcast := false; man_PlanSHA256 := planSHA;
        man_SnapshotRoot := ps_Root (plan_Snapshot plan); man_Target := plan_Target plan;
        man_Transactions := transactions |}.

(** [manifest] is never nil here: the callers pass the address of a value. *)
Definition ValidateCalldataManifest (plan : Plan) (manifest : CalldataManifest) : result unit :=
  fail_if negb (bool_decide (man_Schema manifest = ManifestSchema)) ||
          negb (man_CalldataReady manifest) || man_Signed manifest || man_Broadcast manifest
    as Errorf "unsupported, signed, broadcast, or non-ready calldata manifest" [] ;;
  let? expected := BuildCalldataManifest plan in
  fail_if negb (bool_decide (manifest = expected))
    as Errorf "calldata manifest does not exactly match the validated suite plan" [] ;;
  Ok tt.

End Manifest.
