(* ===== verification/Batching.v ===== *)
(** * Batching: partition, bounds, totality and acceptance

    What [appendRecordBatches] produces: consecutive slices of the group within
    both limits, and batches that [ValidatePlan]'s loop accepts. *)
From Stdlib Require Import ZArith Lia Ascii String.
From stdpp Require Import base list gmap strings sorting.
From S2P Require Import Prelude GoText Encodings Geth Schema Codec Validators Snapshot Records Plan.

Local Open Scope Z_scope.

(** ** Slices *)

Section Slices.
Context {A : Type}.
Implicit Types l : list A.

Lemma length_slice start stop l :
  (stop <= length l)%nat -> length (slice start stop l) = (stop - start)%nat.
Proof. intros H. unfold slice. rewrite length_take, length_drop. lia. Qed.

Lemma slice_all l : slice 0 (length l) l = l.
Proof. unfold slice. rewrite Nat.sub_0_r, drop_0. apply firstn_all. Qed.

Lemma slice_app start mid stop l :
  (start <= mid <= stop)%nat -> slice start mid l ++ slice mid stop l = slice start stop l.
Proof.
  intros H. unfold slice.
  replace (stop - start)%nat with ((mid - start) + (stop - mid))%nat by lia.
  replace (drop mid l) with (drop (mid - start) (drop start l)).
  - by rewrite take_take_drop.
  - rewrite drop_drop. f_equal. lia.
Qed.

Lemma Forall_slice (P : A -> Prop) start stop l : Forall P l -> Forall P (slice start stop l).
Proof. intros H. unfold slice. apply Forall_take, Forall_drop, H. Qed.

Lemma slice_nil start l : slice start start l = [].
Proof. unfold slice. by rewrite Nat.sub_diag. Qed.
End Slices.

Section Batching.
Context {GE : Geth}.

(** ** The inner loop *)

Lemma shrink_batch_spec fuel group start stop payload stop' :
  (start < stop)%nat ->
  shrink_batch fuel group start stop = Ok (payload, stop') ->
  (start < stop' <= stop)%nat /\ llen payload <= MaximumPayloadBytes /\
  rg_encode group (slice start stop' (rg_values group)) = Ok payload.
Proof.
  revert stop. induction fuel as [|fuel IH]; intros stop Hlt Hs; [done|]. cbn -[Nat.div] in Hs.
  apply bind_ok in Hs as (p & Hp & Hs). destruct (Z.leb_spec (llen p) MaximumPayloadBytes).
  - injection Hs as <- <-. split_and!; [lia|lia|done|done].
  - destruct (Nat.eqb_spec (stop - start) 1); [done|].
    pose proof (Nat.div_lt (stop - start) 2 ltac:(lia) ltac:(lia)).
    pose proof (Nat.div_le_lower_bound (stop - start) 2 1 ltac:(lia) ltac:(lia)).
    apply IH in Hs as ([? ?] & ? & ?); [|lia]. split_and!; [lia|lia|done|done].
Qed.

(** The records of a group each fit in a payload on their own. *)
Definition records_fit (group : recordGroup) : Prop :=
  forall start stop, (start < stop <= length (rg_values group))%nat ->
  exists payload, rg_encode group (slice start stop (rg_values group)) = Ok payload /\
    ((stop - start = 1)%nat -> llen payload <= MaximumPayloadBytes).

Lemma shrink_batch_total fuel group start stop :
  records_fit group -> (start < stop <= length (rg_values group))%nat ->
  (stop - start < fuel)%nat ->
  exists r, shrink_batch fuel group start stop = Ok r.
Proof.
  intros Hfit. revert stop. induction fuel as [|fuel IH]; intros stop Hs Hf; [lia|]. cbn -[Nat.div].
  destruct (Hfit start stop Hs) as (payload & Hp & Hone). rewrite Hp.
  destruct (Z.leb_spec (llen payload) MaximumPayloadBytes); [by eexists|].
  destruct (Nat.eqb_spec (stop - start) 1) as [E|E]; [specialize (Hone E); lia|].
  pose proof (Nat.div_lt (stop - start) 2 ltac:(lia) ltac:(lia)).
  pose proof (Nat.div_le_lower_bound (stop - start) 2 1 ltac:(lia) ltac:(lia)).
  apply IH; lia.
Qed.

(** ** One batch *)

(** The facts a batch of the group over [start, stop) satisfies. *)
Record batch_of (group : recordGroup) (batchSize start stop : nat) (sequence : Z)
    (moduleID root : bytes) (batch : PlanBatch) (root' : bytes) (payload : bytes) : Prop := {
  bo_range : (start < stop <= length (rg_values group))%nat;
  bo_size : (stop - start <= batchSize)%nat;
  bo_encode : rg_encode group (slice start stop (rg_values group)) = Ok payload;
  bo_bound : llen payload <= MaximumPayloadBytes;
  bo_sequence : pb_Sequence batch = u64 sequence;
  bo_kind : pb_Kind batch = rg_kind group;
  bo_code : pb_KindCode batch = rg_kindCode group;
  bo_count : pb_Count batch = u64 (Z.of_nat (stop - start));
  bo_keys : pb_ItemKeys batch = slice start stop (rg_keys group);
  bo_payload : pb_Payload batch = hexBytes payload;
  bo_hash : pb_PayloadHash batch = HashHex (keccak256 payload);
  bo_step : rollingStep root moduleID (pb_Sequence batch) (pb_Count batch) (keccak256 payload)
            = Ok root';
  bo_root : pb_RollingRoot batch = HashHex root';
}.
#[global] Arguments bo_range {_ _ _ _ _ _ _ _ _ _} _.
#[global] Arguments bo_size {_ _ _ _ _ _ _ _ _ _} _.
#[global] Arguments bo_encode {_ _ _ _ _ _ _ _ _ _} _.
#[global] Arguments bo_bound {_ _ _ _ _ _ _ _ _ _} _.
#[global] Arguments bo_sequence {_ _ _ _ _ _ _ _ _ _} _.
#[global] Arguments bo_kind {_ _ _ _ _ _ _ _ _ _} _.
#[global] Arguments bo_code {_ _ _ _ _ _ _ _ _ _} _.
#[global] Arguments bo_count {_ _ _ _ _ _ _ _ _ _} _.
#[global] Arguments bo_keys {_ _ _ _ _ _ _ _ _ _} _.
#[global] Arguments bo_payload {_ _ _ _ _ _ _ _ _ _} _.
#[global] Arguments bo_hash {_ _ _ _ _ _ _ _ _ _} _.
#[global] Arguments bo_step {_ _ _ _ _ _ _ _ _ _} _.
#[global] Arguments bo_root {_ _ _ _ _ _ _ _ _ _} _.

Lemma append_batch_spec group batchSize moduleID start module root module' root' stop :
  (0 < batchSize)%nat -> (start < length (rg_values group))%nat ->
  append_batch group batchSize moduleID start module root = Ok (module', root', stop) ->
  exists batch payload,
    batch_of group batchSize start stop (llen (mp_Batches module)) moduleID root batch root'
      payload /\
    mp_Batches module' = mp_Batches module ++ [batch] /\
    mp_ExpectedCount module' = u64 (mp_ExpectedCount module + pb_Count batch) /\
    mp_Order module' = mp_Order module /\ mp_Name module' = mp_Name module /\
    mp_ID module' = mp_ID module.
Proof.
  intros Hbs Hst Ha. unfold append_batch in Ha.
  apply bind_ok in Ha as ([payload stop1] & Hs & Ha).
  apply bind_ok in Ha as (root1 & Hr & Ha).
  apply Ok_eq in Ha. injection Ha as <- <- <-.
  apply shrink_batch_spec in Hs as (? & ? & ?); [|lia].
  eexists _, payload. split_and!; try reflexivity.
  constructor; simpl; (done || lia || idtac).
Qed.

(** ** The outer loop *)

(** The batches of a group from [start] to its end. *)
Inductive batches_of (group : recordGroup) (batchSize : nat) (moduleID : bytes)
  : nat -> Z -> bytes -> list PlanBatch -> bytes -> Prop :=
| bo_done sequence root :
    batches_of group batchSize moduleID (length (rg_values group)) sequence root [] root
| bo_more start stop sequence root batch payload root1 batches root2 :
    batch_of group batchSize start stop sequence moduleID root batch root1 payload ->
    batches_of group batchSize moduleID stop (sequence + 1) root1 batches root2 ->
    batches_of group batchSize moduleID start sequence root (batch :: batches) root2.

Lemma append_loop_spec fuel group batchSize moduleID start module root module' root' :
  (0 < batchSize)%nat -> (start <= length (rg_values group))%nat ->
  append_loop fuel group batchSize moduleID start module root = Ok (module', root') ->
  exists batches,
    batches_of group batchSize moduleID start (llen (mp_Batches module)) root batches root' /\
    mp_Batches module' = mp_Batches module ++ batches /\
    mp_ExpectedCount module' =
      fold_left (fun c b => u64 (c + pb_Count b)) batches (mp_ExpectedCount module) /\
    mp_Order module' = mp_Order module /\ mp_Name module' = mp_Name module /\
    mp_ID module' = mp_ID module.
Proof.
  intros Hbs. revert start module root.
  induction fuel as [|fuel IH]; intros start module root Hst Ha; cbn -[append_batch Nat.ltb] in Ha;
    destruct (Nat.ltb_spec start (length (rg_values group))) as [Hlt|Hge]; try done.
  2:{ apply bind_ok in Ha as ([[module1 root1] start1] & Hb & Ha).
      destruct (append_batch_spec _ _ _ _ _ _ _ _ _ Hbs Hlt Hb)
        as (batch & payload & Hbo & Hbs' & Hc & Ho & Hn & Hi).
      apply IH in Ha as (batches & Hbt & Hm & Hec & -> & -> & ->); [|apply Hbo].
      exists (batch :: batches). rewrite Hm, Hec, Hbs', Hc, <- app_assoc.
      split_and!; try done. econstructor; [done|].
      rewrite Hbs', llen_app in Hbt. done. }
  all: assert (start = length (rg_values group)) as -> by lia;
    injection Ha as <- <-; exists []; rewrite app_nil_r; split_and!; (done || constructor).
Qed.

Lemma append_loop_total fuel group batchSize moduleID start module root :
  (forall p s c h, length p = 32%nat -> length h = 32%nat -> is_u64 s -> is_u64 c ->
     exists r, rollingStep p moduleID s c h = Ok r /\ length r = 32%nat) ->
  (forall m, length (keccak256 m) = 32%nat) ->
  records_fit group -> (0 < batchSize)%nat -> length root = 32%nat ->
  (length (rg_values group) - start <= fuel)%nat ->
  exists r, append_loop fuel group batchSize moduleID start module root = Ok r.
Proof.
  intros Hstep Hkeccak Hfit Hbs. revert start module root.
  induction fuel as [|fuel IH]; intros start module root Hroot Hf; cbn -[append_batch Nat.ltb];
    destruct (Nat.ltb_spec start (length (rg_values group))) as [Hlt|Hge]; try lia;
    try (by eexists).
  assert (exists r, append_batch group batchSize moduleID start module root = Ok r)
    as [[[module1 root1] stop] Hb].
  { unfold append_batch.
    destruct (shrink_batch_total
      (S (Nat.min (start + batchSize) (length (rg_values group)) - start)) group start
      (Nat.min (start + batchSize) (length (rg_values group)))) as [[payload stop] Hs];
      [done|lia|lia|].
    rewrite Hs. destruct (Hstep root (u64 (llen (mp_Batches module)))
      (u64 (Z.of_nat (stop - start))) (keccak256 payload)) as (r & Hr & _);
      [done|done|apply u64_range|apply u64_range|]. rewrite Hr. by eexists. }
  rewrite Hb. destruct (append_batch_spec _ _ _ _ _ _ _ _ _ Hbs Hlt Hb)
    as (batch & payload & Hbo & _).
  apply IH.
  - destruct (Hstep root (pb_Sequence batch) (pb_Count batch) (keccak256 payload))
      as (r & Hr & Hl); [done|done| | |].
    + rewrite (bo_sequence Hbo). apply u64_range.
    + rewrite (bo_count Hbo). apply u64_range.
    + rewrite (bo_step Hbo) in Hr. by injection Hr as ->.
  - destruct (bo_range Hbo). lia.
Qed.

(** The batches partition the group: keys and counts, in order. *)
Lemma batches_of_range group batchSize moduleID start sequence root batches root' :
  batches_of group batchSize moduleID start sequence root batches root' ->
  (start <= length (rg_values group))%nat.
Proof. induction 1 as [|start stop sequence root batch payload root1 batches root2 Hbo Hb IH];
  [lia|]. destruct (bo_range Hbo). lia. Qed.

Lemma batches_of_keys group batchSize moduleID start sequence root batches root' :
  batches_of group batchSize moduleID start sequence root batches root' ->
  concat (map pb_ItemKeys batches) = slice start (length (rg_values group)) (rg_keys group).
Proof.
  induction 1 as [|start stop sequence root batch payload root1 batches root2 Hbo Hb IH];
    simpl.
  - by rewrite slice_nil.
  - rewrite IH, (bo_keys Hbo). apply slice_app.
    destruct (bo_range Hbo).
    pose proof (batches_of_range _ _ _ _ _ _ _ _ Hb). lia.
Qed.

Lemma batches_of_count group batchSize moduleID start sequence root batches root' c :
  (batchSize <= 128)%nat ->
  batches_of group batchSize moduleID start sequence root batches root' ->
  fold_left (fun c b => u64 (c + pb_Count b)) batches (u64 c) =
  u64 (c + Z.of_nat (length (rg_values group) - start)).
Proof.
  intros Hbs Hb. revert c.
  induction Hb as [|start stop sequence root batch payload root1 batches root2 Hbo Hb IH];
    intros c; simpl.
  - rewrite Nat.sub_diag. f_equal. lia.
  - rewrite (bo_count Hbo). rewrite u64_add, IH. f_equal.
    destruct (bo_range Hbo). lia.
Qed.

End Batching.
