(* ===== verification/Acceptance.v ===== *)
(** * Acceptance: built modules pass the plan validation, and what a validated
    plan commits to

    [check_batch], [check_module] and the summary of [ValidatePlan], run on the
    modules that [build_modules] produces from well-formed record groups. *)
From Stdlib Require Import ZArith Lia Ascii String.
From stdpp Require Import base list gmap strings sorting.
From S2P Require Import Prelude GoText Encodings Geth Schema Codec Validators Snapshot Records Plan Batching.

Local Open Scope Z_scope.

(** A key that [ValidatePlan] does not call empty. *)
Definition nonblank (key : string) : Prop := TrimSpace key <> ""%string.

Section Acceptance.
Context {GE : Geth} {GL : GethLaws} {MO : MapOrder}.

(** ** Well-formed groups *)

(** A group whose records have the ABI type that the module decodes for its kind. *)
Record group_ok (module : string) (group : recordGroup) : Prop := {
  gok_code : 0 <= rg_kindCode group < 256;
  gok_kind : kindName module (rg_kindCode group) = Some (rg_kind group);
  gok_keys : length (rg_keys group) = length (rg_values group);
  gok_nonblank : Forall nonblank (rg_keys group);
  gok_encode : exists t wrapped,
    payloadArguments module (rg_kindCode group) = Ok ([TSlice t], wrapped) /\
    (forall records, rg_encode group records =
       encode_group wrapped (rg_kindCode group) [TSlice t] (VSlice records)) /\
    Forall (fun v => has_type t v = true) (rg_values group);
}.

Lemma have_types_slice t vs :
  have_types [TSlice t] [VSlice vs] = true <-> Forall (fun v => has_type t v = true) vs.
Proof.
  cbn -[has_type]. rewrite andb_true_r. cbn.
  induction vs as [|v vs IH]; cbn; [by split|].
  rewrite andb_true_iff, Forall_cons, IH. done.
Qed.

Lemma decode_slice module group start stop payload :
  group_ok module group ->
  rg_encode group (slice start stop (rg_values group)) = Ok payload ->
  decodePayloadCount module (rg_kindCode group) payload =
    Ok (u64 (llen (slice start stop (rg_values group)))) /\ payload <> [].
Proof.
  intros Hg He. destruct (gok_encode _ _ Hg) as (t & wrapped & Ha & Henc & Ht).
  rewrite Henc in He. split.
  - eapply decode_encode_payload; try done; [apply Hg|].
    by apply have_types_slice, Forall_slice.
  - by eapply encode_group_nonempty; [|exact He].
Qed.

(** ** One batch *)

(** The validation of a batch depends on the name of the module only. *)
Lemma check_batch_name plan spec module module' i st batch :
  mp_Name module = mp_Name module' ->
  check_batch plan spec module i st batch = check_batch plan spec module' i st batch.
Proof. intros Hn. unfold check_batch. by rewrite Hn. Qed.

Lemma item_keys_ok where_ i keys :
  Forall nonblank keys -> foldMi (check_item_key where_) i keys tt = Ok tt.
Proof.
  intros Hk. revert i. induction Hk as [|key keys Hkey Hk IH]; intros i; [done|].
  cbn [foldMi]. unfold check_item_key at 1. rewrite bool_decide_eq_false_2 by done. apply IH.
Qed.

(** The loop state is in range, and the kinds seen are below the last one. *)
Record state_ok (st : batch_state) : Prop := {
  sok_count : is_u64 (bs_count st);
  sok_seen : forall k, k ∈ bs_seenKinds st -> k <= bs_lastKind st;
  sok_counts : forall key, is_u64 (count_at (bs_kindCounts st) key);
}.

(** [n] records of a group were counted, and the root moved to [root']. *)
Record advanced (name : string) (group : recordGroup) (n : Z) (root' : bytes)
    (st st' : batch_state) : Prop := {
  adv_ok : state_ok st';
  adv_root : bs_root st' = root';
  adv_count : bs_count st' = u64 (bs_count st + n);
  adv_last : bs_lastKind st <= bs_lastKind st' <= rg_kindCode group;
  adv_kinds : forall key, count_at (bs_kindCounts st') key =
    u64 (count_at (bs_kindCounts st) key +
         (if decide (key = name +:+ "/" +:+ rg_kind group)%string then n else 0));
}.

Lemma count_at_insert counts key key' n :
  count_at (<[key := n]> counts) key' = if decide (key' = key) then n else count_at counts key'.
Proof.
  unfold count_at. case_decide as E.
  - subst. by rewrite lookup_insert_eq.
  - by rewrite lookup_insert_ne.
Qed.

Lemma is_u64_u64 z : is_u64 (u64 z).
Proof. apply u64_range. Qed.

Lemma check_batch_accepts plan spec module group batchSize start stop sequence root batch
    root' payload st :
  batch_of group batchSize start stop sequence (spec_id spec) root batch root' payload ->
  group_ok (spec_name spec) group ->
  mp_Name module = spec_name spec ->
  Z.of_nat batchSize <= lim_BatchSize (plan_Limits plan) ->
  Z.of_nat batchSize <= MaximumBatchItems ->
  is_u64 sequence -> bs_root st = root -> state_ok st ->
  bs_lastKind st <= rg_kindCode group ->
  exists st', check_batch plan spec module sequence st batch = Ok st' /\
    advanced (spec_name spec) group (Z.of_nat (stop - start)) root' st st'.
Proof.
  intros Hbo Hg Hname Hlim Hmax Hseq Hroot Hst Hlast.
  destruct (bo_range Hbo) as [Hlt Hle]. pose proof (bo_size Hbo) as Hsize.
  assert (u64 (Z.of_nat (stop - start)) = Z.of_nat (stop - start)) as Hcount.
  { apply u64_small. unfold MaximumBatchItems in Hmax. lia. }
  assert (pb_Sequence batch = sequence) as Eseq by (rewrite (bo_sequence Hbo); by apply u64_small).
  pose proof (bo_count Hbo) as Ecount. rewrite Hcount in Ecount.
  assert (llen (pb_ItemKeys batch) = Z.of_nat (stop - start)) as Ekeys.
  { rewrite (bo_keys Hbo). unfold llen. rewrite length_slice; [done|].
    by rewrite (gok_keys _ _ Hg). }
  destruct (decode_slice _ _ _ _ _ Hg (bo_encode Hbo)) as [Hdecode Hne].
  unfold llen in Hdecode. rewrite length_slice, Hcount in Hdecode by done.
  pose proof (bo_bound Hbo) as Hbound. pose proof (llen_nonneg payload).
  assert (llen payload <> 0) by (by rewrite llen_zero).
  unfold check_batch. rewrite Hname, Eseq, Ecount, Ekeys, (bo_code Hbo), (bo_kind Hbo).
  rewrite (gok_kind _ _ Hg), (bo_payload Hbo), (bo_hash Hbo), (bo_root Hbo).
  rewrite (proj2 (parseHexBytes_spec "batch payload" _ payload)) by done.
  rewrite Hdecode, item_keys_ok.
  2:{ rewrite (bo_keys Hbo). apply Forall_slice, Hg. }
  pose proof (bo_step Hbo) as Hstep. rewrite Eseq, Ecount in Hstep.
  rewrite Hroot, Hstep. simpl.
  rewrite !bool_decide_eq_true_2 by done. rewrite !Z.eqb_refl.
  rewrite (proj2 (Z.eqb_neq _ 0)) by lia. rewrite (proj2 (Z.ltb_ge _ _)) by lia.
  rewrite (proj2 (Z.ltb_ge _ _)) by lia. rewrite (proj2 (Z.eqb_neq _ 0)) by lia.
  rewrite (proj2 (Z.ltb_ge MaximumPayloadBytes _)) by lia.
  rewrite (proj2 (Z.ltb_ge (rg_kindCode group) _)) by lia. rewrite andb_false_r. simpl.
  assert (bool_decide (rg_kindCode group ∈ bs_seenKinds st) &&
          negb (rg_kindCode group =? bs_lastKind st) = false) as ->.
  { apply andb_false_iff. destruct (Z.eqb_spec (rg_kindCode group) (bs_lastKind st)); [by right|].
    left. apply bool_decide_eq_false. intros Hin%(sok_seen _ Hst). lia. }
  rewrite (bool_decide_eq_true_2 (HashHex (keccak256 payload) = _)) by done.
  rewrite (bool_decide_eq_true_2 (HashHex root' = _)) by done. cbn [negb].
  eexists. split; [reflexivity|]. constructor; simpl.
  - constructor; simpl; [apply is_u64_u64| |].
    + intros k [->%elem_of_singleton|Hk%(sok_seen _ Hst)]%elem_of_union; lia.
    + intros key. rewrite count_at_insert. case_decide; [apply is_u64_u64|apply Hst].
  - done.
  - done.
  - lia.
  - intros key. rewrite count_at_insert. case_decide; [by subst|].
    rewrite Z.add_0_r. symmetry. apply u64_small, Hst.
Qed.

(** ** The batches of a group *)

Lemma advanced_refl name group st :
  state_ok st -> bs_lastKind st <= rg_kindCode group ->
  advanced name group 0 (bs_root st) st st.
Proof.
  intros Hst Hle. constructor; try done.
  - symmetry. rewrite Z.add_0_r. apply u64_small, Hst.
  - intros key. symmetry.
    case_decide; rewrite Z.add_0_r; apply u64_small, Hst.
Qed.

Lemma advanced_trans name group n m r1 r2 st st1 st2 :
  advanced name group n r1 st st1 -> advanced name group m r2 st1 st2 ->
  advanced name group (n + m) r2 st st2.
Proof.
  intros H1 H2. constructor.
  - apply H2.
  - apply H2.
  - rewrite (adv_count _ _ _ _ _ _ H2), (adv_count _ _ _ _ _ _ H1), u64_add_l. f_equal. lia.
  - pose proof (adv_last _ _ _ _ _ _ H1). pose proof (adv_last _ _ _ _ _ _ H2). lia.
  - intros key. rewrite (adv_kinds _ _ _ _ _ _ H2), (adv_kinds _ _ _ _ _ _ H1), u64_add_l.
    f_equal. case_decide; lia.
Qed.

Lemma batches_accepted plan spec module group batchSize start sequence root batches root' st :
  batches_of group batchSize (spec_id spec) start sequence root batches root' ->
  group_ok (spec_name spec) group ->
  mp_Name module = spec_name spec ->
  Z.of_nat batchSize <= lim_BatchSize (plan_Limits plan) ->
  Z.of_nat batchSize <= MaximumBatchItems ->
  0 <= sequence -> sequence + llen batches < 2 ^ 64 -> bs_root st = root -> state_ok st ->
  bs_lastKind st <= rg_kindCode group ->
  exists st', foldMi (check_batch plan spec module) sequence batches st = Ok st' /\
    advanced (spec_name spec) group (Z.of_nat (length (rg_values group) - start)) root' st st'.
Proof.
  intros Hb Hg Hname Hlim Hmax. revert st.
  induction Hb as [sequence root|start stop sequence root batch payload root1 batches root2 Hbo Hb IH];
    intros st Hseq Hlen Hroot Hst Hlast; cbn -[check_batch].
  - exists st. split; [done|]. rewrite Nat.sub_diag. subst root. by apply advanced_refl.
  - rewrite llen_cons in Hlen. pose proof (llen_nonneg batches).
    destruct (check_batch_accepts plan spec module _ _ _ _ _ _ _ _ _ st Hbo Hg Hname Hlim Hmax)
      as (st1 & Hc & Hadv); [split; lia|done..|].
    rewrite Hc. destruct (IH st1) as (st2 & Hf & Hadv2); [lia|lia|apply Hadv..|].
    exists st2. split; [done|].
    replace (Z.of_nat (length (rg_values group) - start))
      with (Z.of_nat (stop - start) + Z.of_nat (length (rg_values group) - stop)).
    + by eapply advanced_trans.
    + destruct (bo_range Hbo). pose proof (batches_of_range _ _ _ _ _ _ _ _ Hb). lia.
Qed.

(** ** The groups of a module *)

(** The number of records of a list of groups. *)
Definition group_items (groups : list recordGroup) : Z :=
  foldr (fun g n => llen (rg_values g) + n) 0 groups.

(** The records that a module's groups hold under a summary key. *)
Definition key_items (name : string) (groups : list recordGroup) (key : string) : Z :=
  foldr (fun g n => (if decide (key = name +:+ "/" +:+ rg_kind g)%string
                     then llen (rg_values g) else 0) + n) 0 groups.

Lemma group_items_nonneg groups : 0 <= group_items groups.
Proof. induction groups as [|g groups IH]; simpl; [done|]. pose proof (llen_nonneg (rg_values g)). lia. Qed.

Lemma batches_of_length group batchSize moduleID start sequence root batches root' :
  batches_of group batchSize moduleID start sequence root batches root' ->
  llen batches <= Z.of_nat (length (rg_values group) - start).
Proof.
  induction 1 as [|start stop sequence root batch payload root1 batches root2 Hbo Hb IH].
  - unfold llen. simpl. lia.
  - rewrite llen_cons. destruct (bo_range Hbo).
    pose proof (batches_of_range _ _ _ _ _ _ _ _ Hb). lia.
Qed.

Definition append_group (batchSize : Z) (spec : moduleSpec) :=
  fun '(m, r) group =>
    wrapf "build %s/%s batches: %w" [GStr (spec_name spec); GStr (rg_kind group)]
      (appendRecordBatches m group batchSize (spec_id spec) r).

(** What appending groups to a module leaves behind, from the loop state [st]
    of the validation to [st']. *)
Record appended (plan : Plan) (spec : moduleSpec) (items : Z) (kinds : string -> Z)
    (m m' : ModulePlan) (r' : bytes) (st st' : batch_state) (batches : list PlanBatch) : Prop := {
  app_ok : state_ok st';
  app_batches : mp_Batches m' = mp_Batches m ++ batches;
  app_length : llen batches <= items;
  app_check : forall module, mp_Name module = spec_name spec ->
    foldMi (check_batch plan spec module) (llen (mp_Batches m)) batches st = Ok st';
  app_root : bs_root st' = r';
  app_count : mp_ExpectedCount m' = bs_count st';
  app_total : bs_count st' = u64 (bs_count st + items);
  app_kinds : forall key, count_at (bs_kindCounts st') key =
    u64 (count_at (bs_kindCounts st) key + kinds key);
  app_same : mp_Order m' = mp_Order m /\ mp_Name m' = mp_Name m /\ mp_ID m' = mp_ID m;
}.

Lemma expected_count_fold batches c :
  is_u64 c ->
  is_u64 (fold_left (fun c b => u64 (c + pb_Count b)) batches c).
Proof. revert c. induction batches as [|b batches IH]; intros c Hc; simpl; [done|apply IH, is_u64_u64]. Qed.

Lemma group_appended plan spec group batchSize m r m' r' st :
  append_group batchSize spec (m, r) group = Ok (m', r') ->
  group_ok (spec_name spec) group ->
  1 <= batchSize <= MaximumBatchItems -> batchSize <= lim_BatchSize (plan_Limits plan) ->
  llen (mp_Batches m) + llen (rg_values group) < 2 ^ 64 ->
  bs_root st = r -> mp_ExpectedCount m = bs_count st -> state_ok st ->
  bs_lastKind st <= rg_kindCode group ->
  exists st' batches,
    appended plan spec (llen (rg_values group))
      (fun key => if decide (key = spec_name spec +:+ "/" +:+ rg_kind group)%string
                  then llen (rg_values group) else 0) m m' r' st st' batches /\
    bs_lastKind st' <= rg_kindCode group.
Proof.
  intros Ha Hg Hbs Hlim Hlen Hroot Hcount Hst Hlast.
  apply wrapf_ok in Ha. unfold appendRecordBatches in Ha. apply guard_ok in Ha as [_ Ha].
  apply append_loop_spec in Ha as (batches & Hb & Hm & Hec & Ho & Hn & Hi); [|lia|lia].
  pose proof (batches_of_length _ _ _ _ _ _ _ _ Hb) as Hbl.
  pose proof (llen_nonneg (mp_Batches m)). unfold llen in Hlen, Hbl.
  assert (forall module, mp_Name module = spec_name spec -> exists st',
    foldMi (check_batch plan spec module) (llen (mp_Batches m)) batches st = Ok st' /\
    advanced (spec_name spec) group (Z.of_nat (length (rg_values group) - 0)) r' st st') as Hacc.
  { intros module Hmod. eapply batches_accepted; try done; unfold llen; lia. }
  set (named := {| mp_Order := 0; mp_Name := spec_name spec; mp_ID := ""; mp_ExpectedCount := 0;
    mp_ExpectedBatches := 0; mp_ExpectedRoot := ""; mp_Batches := [] |}).
  destruct (Hacc named eq_refl) as (st' & Hf & Hadv). rewrite Nat.sub_0_r in Hadv.
  exists st', batches. split; [|apply Hadv]. constructor; try done.
  - apply Hadv.
  - unfold llen. lia.
  - intros module Hmod. rewrite <- Hf. apply foldMi_ext. intros i s b.
    by apply check_batch_name.
  - apply Hadv.
  - rewrite Hec, (adv_count _ _ _ _ _ _ Hadv).
    assert (mp_ExpectedCount m = u64 (mp_ExpectedCount m)) as ->.
    { rewrite Hcount. symmetry. apply u64_small, Hst. }
    erewrite batches_of_count; [| |exact Hb]; [by rewrite Nat.sub_0_r, Hcount|].
    unfold MaximumBatchItems in Hbs. lia.
  - apply Hadv.
  - apply Hadv.
Qed.

Lemma groups_appended plan spec groups batchSize m r m' r' st :
  foldM (append_group batchSize spec) groups (m, r) = Ok (m', r') ->
  Forall (group_ok (spec_name spec)) groups ->
  StronglySorted (fun a b => rg_kindCode a <= rg_kindCode b) groups ->
  1 <= batchSize <= MaximumBatchItems -> batchSize <= lim_BatchSize (plan_Limits plan) ->
  llen (mp_Batches m) + group_items groups < 2 ^ 64 ->
  bs_root st = r -> mp_ExpectedCount m = bs_count st -> state_ok st ->
  Forall (fun g => bs_lastKind st <= rg_kindCode g) groups ->
  exists st' batches,
    appended plan spec (group_items groups) (key_items (spec_name spec) groups)
      m m' r' st st' batches.
Proof.
  intros Hf Hok Hsort Hbs Hlim. revert m r st Hf.
  induction groups as [|g groups IH]; intros m r st Hf Hlen Hroot Hcount Hst Hlast.
  - injection Hf as <- <-. exists st, []. constructor; try done.
    + by rewrite app_nil_r.
    + simpl. rewrite Z.add_0_r. symmetry. apply u64_small, Hst.
    + intros key. simpl. rewrite Z.add_0_r. symmetry. apply u64_small, Hst.
  - cbn [foldM] in Hf. apply bind_ok in Hf as ([m1 r1] & Ha & Hf).
    inversion Hok as [|? ? Hg Hgs]; subst. inversion Hsort as [|? ? Hsort' Hle]; subst.
    inversion Hlast as [|? ? Hl Hls]; subst. cbn [group_items foldr] in Hlen.
    fold (group_items groups) in Hlen. pose proof (group_items_nonneg groups).
    destruct (group_appended plan spec g batchSize m _ m1 r1 st Ha) as (st1 & b1 & H1 & Hl1);
      try done; try lia.
    destruct (IH Hgs Hsort' m1 r1 st1) as (st2 & b2 & H2); try done; try apply H1.
    + rewrite (app_batches _ _ _ _ _ _ _ _ _ _ H1), llen_app.
      pose proof (app_length _ _ _ _ _ _ _ _ _ _ H1). lia.
    + eapply Forall_impl; [exact Hle|]. simpl. intros. lia.
    + exists st2, (b1 ++ b2). constructor; try apply H2.
      * by rewrite (app_batches _ _ _ _ _ _ _ _ _ _ H2), (app_batches _ _ _ _ _ _ _ _ _ _ H1), app_assoc.
      * rewrite llen_app. pose proof (app_length _ _ _ _ _ _ _ _ _ _ H1).
        pose proof (app_length _ _ _ _ _ _ _ _ _ _ H2). cbn. fold (group_items groups). lia.
      * intros module Hmod. rewrite foldMi_app, (app_check _ _ _ _ _ _ _ _ _ _ H1 _ Hmod).
        rewrite <- (app_check _ _ _ _ _ _ _ _ _ _ H2 _ Hmod).
        by rewrite (app_batches _ _ _ _ _ _ _ _ _ _ H1), llen_app.
      * rewrite (app_total _ _ _ _ _ _ _ _ _ _ H2), (app_total _ _ _ _ _ _ _ _ _ _ H1), u64_add_l.
        cbn. fold (group_items groups). f_equal. lia.
      * intros key. rewrite (app_kinds _ _ _ _ _ _ _ _ _ _ H2), (app_kinds _ _ _ _ _ _ _ _ _ _ H1), u64_add_l.
        cbn. fold (key_items (spec_name spec) groups key). f_equal. lia.
      * destruct (app_same _ _ _ _ _ _ _ _ _ _ H2) as (-> & -> & ->). apply H1.
Qed.

(** ** One module *)

Definition totals_ok (t : module_totals) : Prop :=
  is_u64 (mt_totalCount t) /\ 0 <= mt_batchCount t /\
  (forall key, is_u64 (count_at (mt_kindCounts t) key)).

Lemma check_module_accepts plan spec groups batchSize records snapshotRoot order module t :
  build_module records batchSize snapshotRoot order spec = Ok module ->
  records !! spec_name spec = Some groups ->
  Forall (group_ok (spec_name spec)) groups ->
  StronglySorted (fun a b => rg_kindCode a <= rg_kindCode b) groups ->
  1 <= batchSize <= MaximumBatchItems -> batchSize <= lim_BatchSize (plan_Limits plan) ->
  mt_batchCount t + group_items groups < 2 ^ 63 -> totals_ok t ->
  exists t', check_module plan snapshotRoot order t (spec, module) = Ok t' /\ totals_ok t' /\
    mt_totalCount t' = u64 (mt_totalCount t + group_items groups) /\
    mt_batchCount t' = mt_batchCount t + llen (mp_Batches module) /\
    llen (mp_Batches module) <= group_items groups /\
    (forall key, count_at (mt_kindCounts t') key =
       u64 (count_at (mt_kindCounts t) key + key_items (spec_name spec) groups key)).
Proof.
  intros Hb Hrec Hok Hsort Hbs Hlim Hlen (Ht & Hbc & Hk).
  unfold build_module in Hb. apply bind_ok in Hb as (seed & Hseed & Hb).
  apply bind_ok in Hb as ([m root] & Hf & [= <-]). rewrite Hrec in Hf. cbn [default] in Hf.
  set (st0 := {| bs_root := seed; bs_count := 0; bs_lastKind := 0; bs_seenKinds := ∅;
    bs_kindCounts := mt_kindCounts t |}).
  pose proof (group_items_nonneg groups).
  destruct (groups_appended plan spec groups batchSize _ _ _ _ st0 Hf)
    as (st' & batches & Hap); try done.
  - change (0 + group_items groups < 2 ^ 64). lia.
  - eapply Forall_impl; [exact Hok|]. intros g Hg. apply (gok_code _ _ Hg).
  - destruct (app_same _ _ _ _ _ _ _ _ _ _ Hap) as (Ho & Hn & Hi). simpl in Ho, Hn, Hi.
    pose proof (app_batches _ _ _ _ _ _ _ _ _ _ Hap) as Hbt. simpl in Hbt.
    pose proof (app_length _ _ _ _ _ _ _ _ _ _ Hap).
    pose proof (app_total _ _ _ _ _ _ _ _ _ _ Hap) as Htot. simpl in Htot.
    unfold check_module. cbn [mp_Order mp_Name mp_ID mp_Batches mp_ExpectedCount
      mp_ExpectedBatches mp_ExpectedRoot].
    rewrite Ho, Hn, Hi, Hbt, Hseed, Z.eqb_refl, !(bool_decide_eq_true_2 (_ = _)) by done.
    cbn [negb orb].
    pose proof (app_check _ _ _ _ _ _ _ _ _ _ Hap) as Hck.
    cbn [mp_Batches] in Hck. change (llen []) with 0 in Hck. rewrite Hck by done.
    rewrite (app_count _ _ _ _ _ _ _ _ _ _ Hap), <- (app_root _ _ _ _ _ _ _ _ _ _ Hap).
    rewrite !Z.eqb_refl, (bool_decide_eq_true_2 (HashHex _ = _)) by done. cbn [negb orb].
    eexists. split; [reflexivity|]. cbn [mt_totalCount mt_batchCount mt_kindCounts].
    pose proof (llen_nonneg batches).
    rewrite i64_small by lia.
    split; [|split; [|split; [done|split; [done|apply Hap]]]].
    + unfold totals_ok. cbn [mt_totalCount mt_batchCount mt_kindCounts].
      split; [apply is_u64_u64|split; [lia|apply Hap]].
    + rewrite Htot, Z.add_comm, u64_add_l. f_equal. lia.
Qed.

(** ** All modules *)

Definition groups_of (records : gmap string (list recordGroup)) (spec : moduleSpec)
  : list recordGroup := default [] (records !! spec_name spec).

(** Every module has its groups, well formed and in the order of their kinds. *)
Definition records_ok (records : gmap string (list recordGroup)) (specs : list moduleSpec)
  : Prop :=
  Forall (fun spec => exists groups, records !! spec_name spec = Some groups /\
    Forall (group_ok (spec_name spec)) groups /\
    StronglySorted (fun a b => rg_kindCode a <= rg_kindCode b) groups) specs.

Definition total_items (records : gmap string (list recordGroup)) (specs : list moduleSpec) : Z :=
  foldr (fun spec n => group_items (groups_of records spec) + n) 0 specs.

Definition total_key_items (records : gmap string (list recordGroup))
    (specs : list moduleSpec) (key : string) : Z :=
  foldr (fun spec n => key_items (spec_name spec) (groups_of records spec) key + n) 0 specs.

Definition sum_batches (modules : list ModulePlan) : Z :=
  foldr (fun m n => llen (mp_Batches m) + n) 0 modules.

Lemma sum_batches_nonneg modules : 0 <= sum_batches modules.
Proof.
  induction modules as [|m ms IH]; simpl; [done|]. pose proof (llen_nonneg (mp_Batches m)). lia.
Qed.

Lemma total_items_nonneg records specs : 0 <= total_items records specs.
Proof.
  induction specs as [|spec specs IH]; simpl; [done|].
  pose proof (group_items_nonneg (groups_of records spec)). lia.
Qed.

Lemma totalBatches_sum modules : sum_batches modules < 2 ^ 63 -> totalBatches modules = sum_batches modules.
Proof.
  unfold totalBatches. intros H.
  assert (forall c, 0 <= c -> c + sum_batches modules < 2 ^ 63 ->
    fold_left (fun total module => i64 (total + llen (mp_Batches module))) modules c =
    c + sum_batches modules) as Hc.
  { clear H. induction modules as [|m ms IH]; intros c Hc Hs; simpl in *; [lia|].
    pose proof (llen_nonneg (mp_Batches m)). pose proof (sum_batches_nonneg ms).
    rewrite i64_small, IH; lia. }
  rewrite Hc; lia.
Qed.

Lemma modules_accepted plan records batchSize snapshotRoot specs order acc modules t :
  foldMi (fun order modules spec =>
    let? module := build_module records batchSize snapshotRoot order spec in
    Ok (modules ++ [module])) order specs acc = Ok modules ->
  records_ok records specs ->
  1 <= batchSize <= MaximumBatchItems -> batchSize <= lim_BatchSize (plan_Limits plan) ->
  mt_batchCount t + total_items records specs < 2 ^ 63 -> totals_ok t ->
  exists ms t', modules = acc ++ ms /\ length ms = length specs /\
    foldMi (check_module plan snapshotRoot) order (zip specs ms) t = Ok t' /\ totals_ok t' /\
    mt_totalCount t' = u64 (mt_totalCount t + total_items records specs) /\
    mt_batchCount t' = mt_batchCount t + sum_batches ms /\
    sum_batches ms <= total_items records specs /\
    (forall key, count_at (mt_kindCounts t') key =
       u64 (count_at (mt_kindCounts t) key + total_key_items records specs key)).
Proof.
  intros Hf Hrec Hbs Hlim. revert order acc t Hf.
  induction specs as [|spec specs IH]; intros order acc t Hf Hlen Ht.
  - injection Hf as <-. exists [], t. destruct Ht as (H1 & H2 & H3).
    rewrite app_nil_r. cbn [total_items total_key_items sum_batches foldr].
    rewrite !Z.add_0_r, u64_small by done.
    do 3 (split; [done|]). split; [done|]. do 3 (split; [done|]).
    intros key. rewrite Z.add_0_r, u64_small; [done|apply H3].
  - cbn [foldMi] in Hf. apply bind_ok in Hf as (acc1 & Ha & Hf).
    apply bind_ok in Ha as (module & Hm & [= <-]).
    inversion Hrec as [|? ? (groups & Hg & Hok & Hsort) Hrecs]; subst.
    assert (groups_of records spec = groups) as Eg by (unfold groups_of; by rewrite Hg).
    cbn [total_items foldr] in Hlen. fold (total_items records specs) in Hlen.
    pose proof (total_items_nonneg records specs). rewrite Eg in Hlen.
    destruct (check_module_accepts plan spec groups batchSize records snapshotRoot order module t)
      as (t1 & Hc & Ht1 & Htot & Hbc & Hbl & Hk); try done; try lia.
    destruct (IH Hrecs (order + 1) (acc ++ [module]) t1) as
      (ms & t2 & -> & Hl & Hf2 & Ht2 & Htot2 & Hbc2 & Hbl2 & Hk2); [done|lia|done|].
    exists (module :: ms), t2. cbn [total_items total_key_items sum_batches foldr zip length].
    fold (total_items records specs). fold (sum_batches ms). rewrite Eg.
    rewrite <- app_assoc. split; [done|]. split; [by rewrite Hl|]. split.
    { cbn [zip_with foldMi]. by rewrite Hc. }
    split; [done|]. split; [rewrite Htot2, Htot, u64_add_l; f_equal; lia|].
    split; [lia|]. split; [lia|].
    intros key. rewrite Hk2, Hk, u64_add_l. fold (total_key_items records specs key).
    f_equal. lia.
Qed.

(** ** The summary *)

Lemma expected_items_counts s b t : expected_items (with_counts s b t) = expected_items s.
Proof. unfold expected_items, with_counts. cbn -[i64 Z.add]. reflexivity. Qed.

Lemma expected_kind_counts_counts s b t :
  expected_kind_counts (with_counts s b t) = expected_kind_counts s.
Proof. reflexivity. Qed.

Lemma summary_accepts summary modules records t :
  mt_batchCount t = sum_batches modules ->
  sum_batches modules <= total_items records requiredModules ->
  mt_totalCount t = u64 (total_items records requiredModules) ->
  total_items records requiredModules < 2 ^ 40 ->
  expected_items summary = total_items records requiredModules ->
  (forall key, count_at (mt_kindCounts t) key =
     u64 (total_key_items records requiredModules key)) ->
  Forall (fun '(key, expected) =>
    0 <= expected /\ expected = total_key_items records requiredModules key)
    (expected_kind_counts summary) ->
  check_summary (with_counts summary (totalBatches modules)
    (i64 (2 * RequiredModuleCount + totalBatches modules + 2))) t = Ok tt.
Proof.
  intros Hb Hle Ht Hsmall Hexp Hk Hkinds. unfold check_summary.
  rewrite totalBatches_sum by lia. cbn [with_counts sum_BatchCount sum_TransactionCount].
  rewrite Hb, !Z.eqb_refl. cbn [negb orb].
  rewrite expected_items_counts.
  rewrite Ht, Hexp, Z.eqb_refl. cbn [negb].
  rewrite expected_kind_counts_counts.
  apply forM_map_order. eapply Forall_impl; [exact Hkinds|].
  intros [key expected] [Hnn ->]. rewrite Hk, Z.eqb_refl.
  by rewrite (proj2 (Z.ltb_ge _ _)).
Qed.

Lemma ValidatePlan_accepts plan snapshotRoot batchSize modules summary records :
  plan_Modules plan = modules ->
  lim_BatchSize (plan_Limits plan) = batchSize ->
  plan_Summary plan = with_counts summary (totalBatches modules)
    (i64 (2 * RequiredModuleCount + totalBatches modules + 2)) ->
  check_plan_snapshot plan = Ok snapshotRoot ->
  check_plan_target plan = Ok tt ->
  build_modules records batchSize snapshotRoot = Ok modules ->
  records_ok records requiredModules ->
  1 <= batchSize <= MaximumBatchItems ->
  total_items records requiredModules < 2 ^ 40 ->
  expected_items summary = total_items records requiredModules ->
  Forall (fun '(key, expected) =>
    0 <= expected /\ expected = total_key_items records requiredModules key)
    (expected_kind_counts summary) ->
  ValidatePlan plan = Ok tt.
Proof.
  intros Hm Hl Hsum Hs Ht Hb Hrec Hbs Hsmall Hexp Hkinds. unfold ValidatePlan.
  rewrite Hs, Ht, Hm, Hsum. unfold build_modules in Hb.
  set (t0 := {| mt_totalCount := 0; mt_batchCount := 0; mt_kindCounts := ∅ |}).
  assert (totals_ok t0) as Ht0.
  { split; [done|]. split; [done|]. intros key. unfold count_at, t0.
    cbn [mt_kindCounts]. by rewrite lookup_empty. }
  destruct (modules_accepted plan records batchSize _ _ _ _ _ t0 Hb Hrec)
    as (ms & t & Hms & Hlen & Hf & _ & Htot & Hbc & Hle & Hk); [done|lia| |done|].
  { cbn [t0 mt_batchCount]. lia. }
  cbn [app] in Hms. subst ms. rewrite Hf.
  by eapply summary_accepts.
Qed.

End Acceptance.

(** ** what a validated plan commits to

    Inversion of a successful [ValidatePlan], module by module and batch by
    batch, and the binding of the expected root: two plans with the same
    expected root carry the same payloads for the same snapshot root, or two of
    the messages that are hashed for them collide. *)

Section Commitment.
Context {GE : Geth} {GL : GethLaws} {MO : MapOrder}.

(** ** One accepted batch *)

Record batch_accepted (plan : Plan) (spec : moduleSpec) (module : ModulePlan) (index : Z)
    (batch : PlanBatch) (root root' payload : bytes) : Prop := {
  ba_sequence : pb_Sequence batch = index;
  ba_count : 0 < pb_Count batch <= MaximumBatchItems;
  ba_limit : pb_Count batch <= lim_BatchSize (plan_Limits plan);
  ba_keys : llen (pb_ItemKeys batch) = pb_Count batch;
  ba_payload : pb_Payload batch = hexBytes payload;
  ba_size : 0 < llen payload <= MaximumPayloadBytes;
  ba_decoded : decodePayloadCount (mp_Name module) (pb_KindCode batch) payload
               = Ok (pb_Count batch);
  ba_kind : kindName (mp_Name module) (pb_KindCode batch) = Some (pb_Kind batch);
  ba_hash : pb_PayloadHash batch = HashHex (keccak256 payload);
  ba_step : rollingStep root (spec_id spec) (pb_Sequence batch) (pb_Count batch)
              (keccak256 payload) = Ok root';
  ba_root : pb_RollingRoot batch = HashHex root';
}.

Lemma check_batch_inv plan spec module index st batch st' :
  check_batch plan spec module index st batch = Ok st' ->
  exists payload,
    batch_accepted plan spec module index batch (bs_root st) (bs_root st') payload /\
    bs_count st' = u64 (bs_count st + pb_Count batch) /\
    bs_lastKind st' = pb_KindCode batch /\
    (index <> 0 -> bs_lastKind st <= pb_KindCode batch).
Proof.
  intros H. unfold check_batch in H. go_inv H. subst st'. cbn [bs_root bs_count bs_lastKind].
  bool_prop.
  match goal with Hp : parseHexBytes _ _ = Ok ?p |- _ => apply parseHexBytes_spec in Hp; exists p end.
  match goal with Hd : wrapf _ _ _ = Ok _ |- _ => apply wrapf_ok in Hd end. subst.
  pose proof (llen_nonneg (pb_ItemKeys batch)). split_and!; try done.
  - constructor; try done; try lia; try congruence.
    match goal with |- 0 < llen ?p <= _ => pose proof (llen_nonneg p); lia end.
  - intros Hi.
    match goal with Hk : negb (_ =? 0) && (_ <? _) = false |- _ =>
      apply andb_false_iff in Hk as [Hk|Hk]; bool_prop; [done|lia] end.
Qed.

(** ** The expected root binds the payloads *)

Definition contents (batches : list PlanBatch) : list (string * Z) :=
  map (fun b => (pb_Payload b, pb_Count b)) batches.

(** The messages that are hashed for the batches of a module. *)
Definition step_of (id previous : bytes) (b : PlanBatch) (x : bytes) : Prop :=
  exists payload, pb_Payload b = hexBytes payload /\
    step_message previous id (pb_Sequence b) (pb_Count b) (keccak256 payload) x.

Fixpoint root_after (id seed : bytes) (batches : list PlanBatch) (root : bytes) : Prop :=
  match batches with
  | [] => root = seed
  | b :: batches' => exists x, step_of id seed b x /\ root_after id (keccak256 x) batches' root
  end.

Definition hashed_for (id seed : bytes) (batches : list PlanBatch) (x : bytes) : Prop :=
  exists before b after previous, batches = before ++ b :: after /\ root_after id seed before previous /\
    (pb_Payload b = hexBytes x \/ step_of id previous b x).

Lemma root_after_app id seed batches b root x :
  root_after id seed batches root -> step_of id root b x -> root_after id seed (batches ++ [b]) (keccak256 x).
Proof.
  revert seed. induction batches as [|c batches IH]; intros seed; cbn [root_after app].
  - intros -> Hb. by exists x.
  - intros (y & Hy & Hr) Hb. exists y. split; [done|]. by apply IH.
Qed.

Lemma hashed_for_app id seed batches b x :
  hashed_for id seed batches x -> hashed_for id seed (batches ++ [b]) x.
Proof.
  intros (before & c & rest & previous & -> & H). exists before, c, (rest ++ [b]), previous.
  by rewrite <- app_assoc.
Qed.

Lemma step_run previous id s c h root x :
  step_message previous id s c h x -> rollingStep previous id s c h = Ok root -> root = keccak256 x.
Proof. unfold step_message, rollingStep, step_values. intros ->. cbn. by intros [= <-]. Qed.

Lemma step_message_exists previous id s c h root :
  rollingStep previous id s c h = Ok root -> exists x, step_message previous id s c h x.
Proof.
  unfold step_message, rollingStep, step_values. destruct (abi_Pack _ _) as [x|]; [|done]. by exists x.
Qed.

Lemma check_batches_root plan spec module batches st st' :
  foldMi (check_batch plan spec module) 0 batches st = Ok st' ->
  root_after (spec_id spec) (bs_root st) batches (bs_root st').
Proof.
  revert st'. induction batches as [|b batches IH] using rev_ind; intros st' H; [by injection H as <-|].
  rewrite foldMi_app in H. apply bind_ok in H as (s1 & H & Hb). cbn [foldMi] in Hb.
  apply bind_ok in Hb as (s2 & Hb & [= <-]). apply check_batch_inv in Hb as (payload & Hb & _).
  pose proof (ba_step _ _ _ _ _ _ _ _ Hb) as Hs. destruct (step_message_exists _ _ _ _ _ _ Hs) as [x Hx].
  rewrite (step_run _ _ _ _ _ _ _ Hx Hs). eapply root_after_app; [by apply IH|].
  exists payload. split; [by apply (ba_payload _ _ _ _ _ _ _ _ Hb)|done].
Qed.

Lemma check_batches_length plan spec module batches st st' :
  length (bs_root st) = 32%nat ->
  foldMi (check_batch plan spec module) 0 batches st = Ok st' -> length (bs_root st') = 32%nat.
Proof.
  intros Hl. apply (foldMi_ind _ (fun _ s => length (bs_root s) = 32%nat)); [done|].
  intros pre b s s' _ (payload & Hb & _)%check_batch_inv.
  by apply (length_rollingStep _ _ _ _ _ _ (ba_step _ _ _ _ _ _ _ _ Hb)).
Qed.

Lemma check_batches_count plan spec module batches st st' :
  is_u64 (bs_count st) ->
  foldMi (check_batch plan spec module) 0 batches st = Ok st' -> is_u64 (bs_count st').
Proof.
  intros Hc. apply (foldMi_ind _ (fun _ s => is_u64 (bs_count s))); [done|].
  intros pre b s s' _ (payload & _ & -> & _)%check_batch_inv. apply u64_range.
Qed.

Lemma check_batches_binding plan plan' spec module module' batches batches' st0 st0' st st' :
  length (spec_id spec) = 32%nat ->
  length (bs_root st0) = 32%nat -> length (bs_root st0') = 32%nat ->
  llen batches < 2 ^ 64 -> length batches = length batches' ->
  foldMi (check_batch plan spec module) 0 batches st0 = Ok st ->
  foldMi (check_batch plan' spec module') 0 batches' st0' = Ok st' ->
  bs_root st = bs_root st' ->
  (bs_root st0 = bs_root st0' /\ contents batches = contents batches') \/
  collide (hashed_for (spec_id spec) (bs_root st0) batches) (hashed_for (spec_id spec) (bs_root st0') batches').
Proof.
  intros Hid Hl0 Hl0'. revert batches' st st'.
  induction batches as [|b batches IH] using rev_ind; intros batches' st st' Hlen Hsame Hf Hf' Hroot.
  - destruct batches'; [|done]. injection Hf as <-. injection Hf' as <-. by left.
  - destruct batches' as [|b' batches' _] using rev_ind.
    { rewrite length_app in Hsame. simpl in Hsame. lia. }
    rewrite !length_app in Hsame. simpl in Hsame. rewrite llen_app in Hlen.
    pose proof (llen_nonneg [b]).
    rewrite foldMi_app in Hf, Hf'. apply bind_ok in Hf as (s1 & Hf & Hb).
    apply bind_ok in Hf' as (s1' & Hf' & Hb'). cbn [foldMi] in Hb, Hb'.
    apply bind_ok in Hb as (s2 & Hb & [= ->]). apply bind_ok in Hb' as (s2' & Hb' & [= ->]).
    apply check_batch_inv in Hb as (p & Hb & _), Hb' as (p' & Hb' & _).
    pose proof (ba_step _ _ _ _ _ _ _ _ Hb) as Hs. pose proof (ba_step _ _ _ _ _ _ _ _ Hb') as Hs'.
    rewrite <- Hroot in Hs'. unfold MaximumBatchItems in *. unfold llen in Hlen.
    destruct (ba_count _ _ _ _ _ _ _ _ Hb), (ba_count _ _ _ _ _ _ _ _ Hb').
    unfold MaximumBatchItems in *.
    pose proof (ba_sequence _ _ _ _ _ _ _ _ Hb). pose proof (ba_sequence _ _ _ _ _ _ _ _ Hb').
    assert (is_u64 (llen batches)) by (split; [apply llen_nonneg|unfold llen; lia]).
    replace (0 + Z.of_nat (length batches')) with (llen batches) in * by (unfold llen; lia).
    replace (0 + Z.of_nat (length batches)) with (llen batches) in * by (unfold llen; lia).
    destruct (rollingStep_inj _ _ _ _ _ _ _ _ _ _
      (check_batches_length _ _ _ _ _ _ Hl0 Hf) (check_batches_length _ _ _ _ _ _ Hl0' Hf') Hid
      (length_keccak256 p) (length_keccak256 p')
      (ltac:(congruence) : is_u64 (pb_Sequence b)) (ltac:(split; lia) : is_u64 (pb_Count b))
      (ltac:(congruence) : is_u64 (pb_Sequence b')) (ltac:(split; lia) : is_u64 (pb_Count b'))
      Hs Hs') as [(Hr & _ & Hc & Hh)|(x & y & Hx & Hy & Hne & E)].
    2: { right. exists x, y. split_and!; [| |done..].
      - exists batches, b, [], (bs_root s1). split; [done|]. split; [by eapply check_batches_root|].
        right. exists p. split; [apply (ba_payload _ _ _ _ _ _ _ _ Hb)|done].
      - exists batches', b', [], (bs_root s1'). split; [done|]. split; [by eapply check_batches_root|].
        right. exists p'. split; [apply (ba_payload _ _ _ _ _ _ _ _ Hb')|done]. }
    destruct (decide (p = p')) as [->|Hne].
    2: { right. exists p, p'. split_and!; [| |done..].
      - exists batches, b, [], (bs_root s1). split; [done|]. split; [by eapply check_batches_root|].
        left. apply (ba_payload _ _ _ _ _ _ _ _ Hb).
      - exists batches', b', [], (bs_root s1'). split; [done|]. split; [by eapply check_batches_root|].
        left. apply (ba_payload _ _ _ _ _ _ _ _ Hb'). }
    destruct (IH batches' s1 s1') as [[Hseed Hcs]|(x & y & Hx & Hy & Hne & E)]; try done; [unfold llen; lia|lia| |].
    2: { right. exists x, y. by split_and!; [apply hashed_for_app..| |]. }
    left. split; [done|]. unfold contents in *. rewrite !map_app, Hcs. simpl.
    by rewrite (ba_payload _ _ _ _ _ _ _ _ Hb), (ba_payload _ _ _ _ _ _ _ _ Hb'), Hc.
Qed.

(** The last step of a module. *)
Lemma check_batches_last plan spec module batches st0 st :
  length (bs_root st0) = 32%nat -> batches <> [] ->
  foldMi (check_batch plan spec module) 0 batches st0 = Ok st ->
  exists previous count hash x, hashed_for (spec_id spec) (bs_root st0) batches x /\
    step_message previous (spec_id spec) (llen batches - 1) count hash x /\
    bs_root st = keccak256 x /\
    length previous = 32%nat /\ length hash = 32%nat /\ is_u64 count.
Proof.
  intros Hl Hne Hf. destruct batches as [|b batches _] using rev_ind; [done|].
  rewrite foldMi_app in Hf. apply bind_ok in Hf as (s1 & Hf & Hb). cbn [foldMi] in Hb.
  apply bind_ok in Hb as (s2 & Hb & [= ->]). apply check_batch_inv in Hb as (p & Hb & _).
  pose proof (ba_step _ _ _ _ _ _ _ _ Hb) as Hs. destruct (step_message_exists _ _ _ _ _ _ Hs) as [x Hx].
  exists (bs_root s1), (pb_Count b), (keccak256 p), x. split_and!.
  - exists batches, b, [], (bs_root s1). split; [done|]. split; [by eapply check_batches_root|].
    right. exists p. split; [apply (ba_payload _ _ _ _ _ _ _ _ Hb)|done].
  - rewrite llen_app. change (llen [b]) with 1. rewrite (ba_sequence _ _ _ _ _ _ _ _ Hb) in Hx.
    replace (llen batches + 1 - 1) with (0 + Z.of_nat (length batches)) by (unfold llen; lia). done.
  - by apply (step_run _ _ _ _ _ _ _ Hx Hs).
  - by eapply check_batches_length.
  - apply length_keccak256.
  - destruct (ba_count _ _ _ _ _ _ _ _ Hb). unfold MaximumBatchItems in *. split; lia.
Qed.

(** All that is hashed for a module: its seed, and the payloads and steps. *)
Definition hashed_from (id snapshotRoot : bytes) (batches : list PlanBatch) (x : bytes) : Prop :=
  seed_message id snapshotRoot x \/
  exists y, seed_message id snapshotRoot y /\ hashed_for id (keccak256 y) batches x.

Lemma step_seed_collide plan spec module batches st0 st y snapshotRoot' y' :
  length (bs_root st0) = 32%nat -> batches <> [] ->
  foldMi (check_batch plan spec module) 0 batches st0 = Ok st -> bs_root st0 = keccak256 y ->
  seed_message (spec_id spec) snapshotRoot' y' -> bs_root st = keccak256 y' ->
  exists x, hashed_for (spec_id spec) (keccak256 y) batches x /\ x <> y' /\ keccak256 x = keccak256 y'.
Proof.
  intros Hl Hne Hf Hy Hs Hr.
  destruct (check_batches_last _ _ _ _ _ _ Hl Hne Hf) as (p & c & h & x & Hx & Hm & Hk & _).
  exists x. rewrite <- Hy. split_and!; [done| |congruence]. intros ->. by eapply step_not_seed.
Qed.

(** Modules with different numbers of batches have the same root only if the
    last messages collide. *)
Lemma check_batches_lengths plan plan' spec module module' batches batches' st0 st0' st st'
    root root' y y' :
  length (spec_id spec) = 32%nat ->
  llen batches < 2 ^ 64 -> llen batches' < 2 ^ 64 ->
  seed_message (spec_id spec) root y -> bs_root st0 = keccak256 y ->
  seed_message (spec_id spec) root' y' -> bs_root st0' = keccak256 y' ->
  foldMi (check_batch plan spec module) 0 batches st0 = Ok st ->
  foldMi (check_batch plan' spec module') 0 batches' st0' = Ok st' ->
  bs_root st = bs_root st' -> length batches <> length batches' ->
  collide (hashed_from (spec_id spec) root batches) (hashed_from (spec_id spec) root' batches').
Proof.
  intros Hid Hb Hb' Hy Ey Hy' Ey' Hf Hf' Hroot Hne.
  assert (length (bs_root st0) = 32%nat) as Hl by (rewrite Ey; apply length_keccak256).
  assert (length (bs_root st0') = 32%nat) as Hl' by (rewrite Ey'; apply length_keccak256).
  destruct (decide (batches = [])) as [->|Hn].
  { injection Hf as <-.
    destruct (step_seed_collide plan' spec module' batches' st0' st' y' root y Hl') as (x & Hx & Hxy & E);
      [by intros ->|done|done|done|congruence|].
    exists y, x. split_and!; [by left|right; by exists y'|congruence|done]. }
  destruct (decide (batches' = [])) as [->|Hn'].
  { injection Hf' as <-.
    destruct (step_seed_collide plan spec module batches st0 st y root' y' Hl Hn) as (x & Hx & Hxy & E);
      [done|done|done|congruence|].
    exists x, y'. split_and!; [right; by exists y|by left|done|done]. }
  destruct (check_batches_last _ _ _ _ _ _ Hl Hn Hf) as (p & c & h & x & Hx & Hm & Hk & ? & ? & ?).
  destruct (check_batches_last _ _ _ _ _ _ Hl' Hn' Hf') as (p' & c' & h' & x' & Hx' & Hm' & Hk' & ? & ? & ?).
  exists x, x'. rewrite Ey in Hx. rewrite Ey' in Hx'.
  split_and!; [right; by exists y|right; by exists y'| |congruence].
  intros ->. apply Hne.
  assert (forall A (l : list A), l <> [] -> llen l < 2 ^ 64 -> is_u64 (llen l - 1)) as Hu.
  { intros A [|a l]; [done|]. unfold is_u64, llen. cbn [length]. lia. }
  pose proof (Hu _ _ Hn Hb). pose proof (Hu _ _ Hn' Hb').
  assert (step_values p (spec_id spec) (llen batches - 1) c h =
          step_values p' (spec_id spec) (llen batches' - 1) c' h') as E.
  { eapply Pack_inj; [apply step_values_typed|apply step_values_typed| |]; done. }
  unfold step_values in E. injection E as _ E _ _. unfold llen in E. lia.
Qed.

(** ** One accepted module *)

Lemma check_module_inv plan snapshotRoot order t spec m t' :
  check_module plan snapshotRoot order t (spec, m) = Ok t' ->
  mp_Order m = order /\ mp_Name m = spec_name spec /\
  mp_ID m = ToLower (HashHex (spec_id spec)) /\
  mp_ExpectedBatches m = u64 (llen (mp_Batches m)) /\
  exists seed st0 st, rollingSeed (spec_id spec) snapshotRoot = Ok seed /\
    bs_root st0 = seed /\ bs_count st0 = 0 /\
    foldMi (check_batch plan spec m) 0 (mp_Batches m) st0 = Ok st /\
    mp_ExpectedRoot m = HashHex (bs_root st) /\ mp_ExpectedCount m = bs_count st.
Proof.
  intros H. unfold check_module in H. go_inv H. bool_prop.
  split_and!; try assumption.
  match goal with Hs : rollingSeed _ _ = Ok ?seed, Hf : foldMi _ _ _ ?st0 = Ok ?st |- _ =>
    exists seed, st0, st end.
  split_and!; assumption || reflexivity.
Qed.

Lemma ValidatePlan_modules plan :
  ValidatePlan plan = Ok tt ->
  exists snapshotRoot, parseHash "snapshot root" (ps_Root (plan_Snapshot plan)) = Ok snapshotRoot /\
    length (plan_Modules plan) = 7%nat /\ check_plan_target plan = Ok tt /\
    forall i spec m, requiredModules !! i = Some spec -> plan_Modules plan !! i = Some m ->
      exists t t', check_module plan snapshotRoot (Z.of_nat i) t (spec, m) = Ok t'.
Proof.
  unfold ValidatePlan. intros H. apply bind_ok in H as (root & Hs & H).
  apply bind_ok in H as ([] & Ht & H). apply bind_ok in H as (t & Hf & _).
  exists root. split_and!.
  - unfold check_plan_snapshot in Hs. go_inv Hs. congruence.
  - unfold check_plan_target in Ht. go_inv Ht. bool_prop.
    match goal with Hl : llen (plan_Modules plan) = _ |- _ => unfold llen, RequiredModuleCount in Hl; lia end.
  - done.
  - intros i spec m Hspec Hm.
    destruct (foldMi_lookup _ _ _ _ _ i (spec, m) Hf) as (t1 & t2 & Hc); [|by exists t1, t2].
    by apply lookup_zip_Some.
Qed.

End Commitment.
