(* ===== verification/Wellformed.v ===== *)
(** * Wellformed: what validation says of the records

    Facts extracted from a successful [validateSnapshot], and the groups of
    [snapshotModuleRecords] being well formed: records of the ABI type of their
    kind, nonblank keys, kinds in ascending order. *)
From Stdlib Require Import ZArith Lia Ascii String.
From stdpp Require Import base list gmap strings sorting.
From S2P Require Import Prelude GoText Geth Schema Codec Validators Snapshot Records Sorting Plan Acceptance.

Local Open Scope Z_scope.

(** ** Nonblank keys *)

Lemma nonblank_visible key : some_char visible key = true -> nonblank key.
Proof. apply TrimSpace_visible. Qed.

Section Wellformed.
Context {GE : Geth} {GL : GethLaws} {MO : MapOrder}.

(** ** The repository table *)

Definition hash_text (id : string) : Prop := exists h, length h = 32%nat /\ id = hexBytes h.

Lemma hash_text_visible id : hash_text id -> some_char visible id = true.
Proof. intros (h & _ & ->). unfold hexBytes. by rewrite some_char_app. Qed.

Record repository_fact (r : SnapshotRepository) : Prop := {
  rf_id : hash_text (repo_ID r);
  rf_owner : exists a, canonicalAddress "repository owner" (repo_Owner r) = Ok a;
  rf_name : validRepoName (repo_Name r) = true;
  rf_description : slen (repo_Description r) <= 1024;
  rf_branch : slen (repo_DefaultBranch r) <= 64;
  rf_times : repo_CreatedAt r <> 0 /\ repo_CreatedAt r <= repo_UpdatedAt r;
}.

(** The table maps each accepted repository by its ID, IDs are distinct. *)
Record table_ok (rs : list SnapshotRepository) (repos : gmap string SnapshotRepository) : Prop := {
  tab_lookup : forall id r, repos !! id = Some r <-> r ∈ rs /\ repo_ID r = id;
  tab_nodup : NoDup (map repo_ID rs);
  tab_facts : Forall repository_fact rs;
}.

Lemma check_repository_step i repos locators r repos' locators' :
  check_repository i (repos, locators) r = Ok (repos', locators') ->
  repository_fact r /\ repos !! repo_ID r = None /\ repos' = <[repo_ID r := r]> repos /\
  at_string locators (locatorKey (repo_Owner r) (repo_Name r)) = ""%string /\
  locators' = <[locatorKey (repo_Owner r) (repo_Name r) := repo_ID r]> locators.
Proof.
  intros H. unfold check_repository in H. go_inv H. injection H as <- <-. bool_prop.
  repeat match goal with Hw : wrapf _ _ _ = Ok _ |- _ => apply wrapf_ok in Hw end.
  match goal with Hp : parseHash _ _ = Ok _ |- _ => apply parseHash_spec in Hp as [? ?] end.
  split_and!; try done; [|by apply eq_None_not_Some].
  constructor; try done; [by eexists|by eexists].
Qed.

Lemma check_repositories_table s repos locators :
  check_repositories s = Ok (repos, locators) -> table_ok (snap_Repositories s) repos.
Proof.
  unfold check_repositories. intros H.
  apply bind_ok in H as ([repos1 loc1] & Hf & H). go_inv H. injection H as -> ->.
  apply (foldMi_ind _ (fun pre st => table_ok pre (fst st))) in Hf; [done| |].
  - constructor; simpl; [|constructor|constructor]. intros id r.
    rewrite lookup_empty, elem_of_nil. naive_solver.
  - intros pre r [repos0 loc0] [repos2 loc2] Hpre (Hr & Hnew & -> & _)%check_repository_step.
    simpl in *. constructor.
    + intros id r'. rewrite lookup_insert_Some, (tab_lookup _ _ Hpre), elem_of_app,
        list_elem_of_singleton. split.
      * intros [[<- <-]|[Hne [Hin Hid]]]; auto.
      * intros [[Hin| ->] Hid]; [|by left]. right. split; [|done]. intros E.
        rewrite <- E in Hid. rewrite <- Hid in Hnew.
        enough (repos0 !! repo_ID r' = Some r') by congruence.
        by apply (tab_lookup _ _ Hpre).
    + rewrite map_app, NoDup_app. split_and!; [apply Hpre| |apply NoDup_singleton].
      intros id (r' & -> & Hin)%list_elem_of_fmap. simpl. rewrite list_elem_of_singleton.
      intros E. enough (repos0 !! repo_ID r = Some r') by congruence.
      by apply (tab_lookup _ _ Hpre).
    + apply Forall_app. split; [apply Hpre|by constructor].
Qed.

Lemma table_hash rs repos id :
  table_ok rs repos -> is_Some (repos !! id) -> hash_text id.
Proof.
  intros Ht [r [Hin <-]%(tab_lookup _ _ Ht)].
  pose proof (tab_facts _ _ Ht) as Hall. rewrite Forall_forall in Hall. by apply Hall.
Qed.

Lemma table_nonblank rs repos id :
  table_ok rs repos -> is_Some (repos !! id) -> nonblank id.
Proof. intros Ht Hs. eapply nonblank_visible, hash_text_visible, table_hash; done. Qed.

(** ** Lists of records *)

Lemma Forall_sort {A} (less : A -> A -> bool) (P : A -> Prop) l :
  Forall P l -> Forall P (sort_slice less l).
Proof. unfold sort_slice. by rewrite merge_sort_Permutation. Qed.

Lemma kindGroup_ok {A} module name code (value : A -> abi_value) (key : A -> string)
    t wrapped (l : list A) :
  payloadArguments module code = Ok ([TSlice t], wrapped) ->
  0 <= code < 256 -> kindName module code = Some name ->
  Forall (fun r => has_type t (value r) = true /\ nonblank (key r)) l ->
  group_ok module (kindGroup name code (map value l) (map key l) [TSlice t] wrapped).
Proof.
  intros Ha Hc Hk Hl. constructor; simpl; try done.
  - by rewrite !length_map.
  - apply Forall_map. eapply Forall_impl; [exact Hl|]. by intros r [_ ?].
  - exists t, wrapped. split_and!; try done. apply Forall_map.
    eapply Forall_impl; [exact Hl|]. by intros r [? _].
Qed.

(** ** Fields *)

Lemma length_raw_hash label v : length (raw_hash label v) = 32%nat.
Proof.
  unfold raw_hash, parseRawHash. destruct (parseHash label v) as [h|] eqn:E; [|done].
  by apply parseHash_spec in E as [_ ?].
Qed.

Lemma length_release_hash label v : length (or_zero (zero_bytes 32) (rawSHA256 label v)) = 32%nat.
Proof.
  destruct (rawSHA256 label v) as [h|] eqn:E; [|done]. by apply rawSHA256_spec in E as (_ & ? & _).
Qed.

Lemma uint_typed w n : 0 <= n < 2 ^ w -> has_type (TUint w) (VUint n) = true.
Proof. intros. cbn -[Z.pow]. apply andb_true_iff. rewrite Z.leb_le, Z.ltb_lt. lia. Qed.

Lemma uint_wider w w' n : 0 <= n < 2 ^ w -> 0 <= w <= w' -> 0 <= n < 2 ^ w'.
Proof. intros [? ?] ?. pose proof (Z.pow_le_mono_r 2 w w'). lia. Qed.

Lemma slice_typed t vs : Forall (fun v => has_type t v = true) vs -> has_type (TSlice t) (VSlice vs) = true.
Proof. intros Hv. apply forallb_forall. intros v Hin. by eapply Forall_forall in Hv; [|apply list_elem_of_In]. Qed.

Lemma tuple_nil : has_type (TTuple []) (VTuple []) = true.
Proof. done. Qed.
Lemma tuple_cons f t fs v vs :
  has_type t v = true -> has_type (TTuple fs) (VTuple vs) = true ->
  has_type (TTuple ((f, t) :: fs)) (VTuple (v :: vs)) = true.
Proof. intros Hv Hvs. simpl in *. by rewrite Hv. Qed.

Lemma hash_typed label v : has_type TBytes32 (VBytes32 (raw_hash label v)) = true.
Proof. simpl. by rewrite length_raw_hash. Qed.
Lemma address_typed v : has_type TAddress (VAddress (HexToAddress v)) = true.
Proof. simpl. by rewrite length_HexToAddress. Qed.

Lemma role_typed v : 0 <= or_zero 0 (roleCode v) < 2 ^ 8.
Proof.
  destruct (roleCode v) as [c|] eqn:E; simpl; [|lia]. apply roleCode_range in E. lia.
Qed.
Lemma repo_status_typed v : 0 <= or_zero 0 (repoStatusCode v) < 2 ^ 8.
Proof.
  destruct (repoStatusCode v) as [c|] eqn:E; simpl; [|lia]. apply repoStatusCode_range in E. lia.
Qed.
Lemma report_status_typed v : 0 <= or_zero 0 (reportStatusCode v) < 2 ^ 8.
Proof.
  destruct (reportStatusCode v) as [c|] eqn:E; simpl; [|lia]. apply reportStatusCode_range in E. lia.
Qed.
Lemma action_typed v : 0 <= or_zero 0 (trailActionCode v) < 2 ^ 8.
Proof.
  destruct (trailActionCode v) as [c|] eqn:E; simpl; [|lia]. apply trailActionCode_range in E. lia.
Qed.

Lemma code_typed v : has_type (TUint 8) (VUint (or_zero 0 (repoStatusCode v))) = true.
Proof. apply uint_typed, repo_status_typed. Qed.

(** Typing of a record by its fields. *)
Ltac typed :=
  repeat match goal with
  | |- has_type (TTuple []) _ = true => apply tuple_nil
  | |- has_type (TTuple (_ :: _)) _ = true => apply tuple_cons
  | |- has_type TBytes32 _ = true => apply hash_typed
  | |- has_type TAddress _ = true => apply address_typed
  | |- has_type TString _ = true => reflexivity
  | |- has_type TBool _ = true => reflexivity
  | |- has_type (TSlice _) _ = true => apply slice_typed, Forall_map
  | |- has_type (TUint 8) _ = true => apply uint_typed; first
      [apply role_typed | apply repo_status_typed | apply report_status_typed
      | apply action_typed | assumption]
  | |- has_type (TUint 256) _ = true =>
      apply uint_typed, (uint_wider 64); [assumption|lia]
  | |- has_type (TUint _) _ = true => apply uint_typed; assumption
  end.

Lemma nonblank_between a c b : visible c = true -> nonblank (a +:+ String c "" +:+ b).
Proof.
  intros Hc. apply nonblank_visible. rewrite !some_char_app. cbn. rewrite Hc. cbn.
  by rewrite orb_true_r.
Qed.

Lemma nonblank_FormatUint n : nonblank (FormatUint n).
Proof.
  apply nonblank_visible. destruct (FormatUint_digits n) as [Hd Hne].
  destruct (FormatUint n) as [|c s]; [done|]. simpl in *.
  apply andb_true_iff in Hd as [Hc _]. by rewrite (digits_visible c Hc).
Qed.

(** ** Every group is well formed *)

Section Groups.
Context (s : Snapshot) (repos : gmap string SnapshotRepository).
Context (Htab : table_ok (snap_Repositories s) repos) (Hty : snapshot_typed s).

Let known (id : string) := is_Some (repos !! id).

Lemma repository_group_ok group :
  repository_group s = Ok group -> group_ok "repository-core" group.
Proof.
  unfold repository_group, sorted_repositories.
  intros (l & (depth & _ & <-%Ok_eq)%bind_ok & <-%Ok_eq)%bind_ok.
  apply kindGroup_ok with (t := TTuple [("id", TBytes32); ("owner", TAddress); ("name", TString);
    ("description", TString); ("defaultBranch", TString); ("forkedFrom", TBytes32);
    ("createdAt", TUint 64); ("updatedAt", TUint 64)]%string); [done..|].
  apply Forall_sort.
  pose proof (conj (tab_facts _ _ Htab) (ty_repositories _ Hty)) as Hall.
  rewrite <- Forall_and in Hall. eapply Forall_impl; [exact Hall|].
  intros r [Hf [Hc Hu]]. split; [|by apply nonblank_visible, hash_text_visible, Hf].
  typed. cbn. case_decide; [done|]. by rewrite length_raw_hash.
Qed.

Lemma alias_group_ok : group_ok "repository-core" (alias_group s).
Proof.
  apply kindGroup_ok with (t := TTuple [("repoId", TBytes32); ("owner", TAddress);
    ("name", TString)]%string); [done..|].
  apply Forall_sort, Forall_forall. intros r _. split; [typed|by apply nonblank_between].
Qed.

Lemma ref_group_ok : group_ok "repository-core" (ref_group s).
Proof.
  eapply kindGroup_ok; [done..|]. apply Forall_sort.
  eapply Forall_impl; [apply (ty_refs _ Hty)|].
  intros r Hr. split; [typed|by apply nonblank_between].
  apply Forall_forall. done.
Qed.

Lemma collaborator_group_ok : group_ok "repository-core" (collaborator_group s).
Proof.
  eapply kindGroup_ok; [done..|]. apply Forall_sort, Forall_forall.
  intros r _. split; [typed|by apply nonblank_between].
Qed.

Lemma guardian_group_ok :
  Forall (fun g => known (guard_RepoID g)) (snap_GuardianConfigs s) ->
  group_ok "recovery" (guardian_group s).
Proof.
  intros Hk. eapply kindGroup_ok; [done..|]. apply Forall_sort.
  pose proof (conj (ty_guardians _ Hty) Hk) as Hall.
  rewrite <- Forall_and in Hall. eapply Forall_impl; [exact Hall|].
  intros r [Hr Hkn]. split; [typed|by eapply table_nonblank].
  apply Forall_map, Forall_forall. intros. apply address_typed.
Qed.

Lemma status_group_ok :
  Forall (fun g => known (fs_RepoID g)) (mod_FinalStatuses (snap_Moderation s)) ->
  group_ok "moderation" (status_group s).
Proof.
  intros Hk. eapply kindGroup_ok; [done..|]. apply Forall_sort.
  eapply Forall_impl; [exact Hk|]. intros r Hr. split; [typed|by eapply table_nonblank].
Qed.

Lemma report_group_ok : group_ok "moderation" (report_group s).
Proof.
  eapply kindGroup_ok; [done..|]. apply Forall_sort.
  eapply Forall_impl; [apply (ty_reports _ Hty)|].
  intros r (Hi & Hc & Hu & Ht). split; [|apply nonblank_FormatUint]. typed.
  apply Forall_map. eapply Forall_impl; [exact Ht|]. intros e He. cbn beta in He. typed.
Qed.

Lemma status_trail_group_ok :
  Forall (fun g => known (st_RepoID g)) (mod_StatusTrails (snap_Moderation s)) ->
  group_ok "moderation" (status_trail_group s).
Proof.
  intros Hk. eapply kindGroup_ok; [done..|]. apply Forall_sort.
  pose proof (conj (ty_trails _ Hty) Hk) as Hall. rewrite <- Forall_and in Hall.
  eapply Forall_impl; [exact Hall|].
  intros r [Hr Hkn]. split; [|by eapply table_nonblank]. typed.
  apply Forall_map. eapply Forall_impl; [exact Hr|]. intros e [Ht Hi]. typed.
Qed.

Lemma splits_group_ok :
  Forall (fun g => known (rs_RepoID g)) (eco_Splits (snap_Economic s)) ->
  group_ok "economic" (splits_group s).
Proof.
  intros Hk. eapply kindGroup_ok; [done..|]. apply Forall_sort.
  pose proof (conj (ty_splits _ Hty) Hk) as Hall. rewrite <- Forall_and in Hall.
  eapply Forall_impl; [exact Hall|].
  intros r [Hr Hkn]. split; [|by eapply table_nonblank]. typed.
  apply Forall_map. eapply Forall_impl; [exact Hr|]. intros e He. typed.
Qed.

Lemma totals_group_ok :
  Forall (fun r => is_ok (positiveDecimal "sponsor total" (tot_Amount r)) = true)
    (eco_Totals (snap_Economic s)) ->
  group_ok "economic" (totals_group s).
Proof.
  intros Hk. eapply kindGroup_ok; [done..|]. apply Forall_sort.
  eapply Forall_impl; [exact Hk|]. intros r [n Hn]%is_ok_spec.
  apply positiveDecimal_range in Hn as [Hn Hs]. split; [|by apply nonblank_between].
  apply tuple_cons; [typed|]. apply tuple_cons; [typed|]. apply tuple_cons; [|typed].
  cbn [total_record et_Amount]. rewrite Hs. apply uint_typed. lia.
Qed.

Lemma owners_group_ok :
  Forall (fun r => validUsername (un_Name r) = true) (usr_OriginalOwners (snap_Username s)) ->
  group_ok "username" (owners_group s).
Proof.
  intros Hk. eapply kindGroup_ok; [done..|]. apply Forall_sort.
  eapply Forall_impl; [exact Hk|]. intros r Hr.
  split; [typed|by apply nonblank_visible, validUsername_visible].
Qed.

Lemma reserved_group_ok :
  Forall (fun n => validUsername n = true) (usr_ReservedNames (snap_Username s)) ->
  group_ok "username" (reserved_group s).
Proof.
  intros Hk. unfold reserved_group. rewrite <- (map_id (sort_strings _)) at 2.
  eapply kindGroup_ok; [done..|]. unfold sort_strings. rewrite merge_sort_Permutation.
  eapply Forall_impl; [exact Hk|]. intros r Hr.
  split; [typed|by apply nonblank_visible, validUsername_visible].
Qed.

Lemma badges_group_ok : group_ok "badge" (badges_group s).
Proof.
  eapply kindGroup_ok; [done..|]. apply Forall_sort.
  eapply Forall_impl; [apply (ty_badges _ Hty)|].
  intros r [Hi Ha]. split; [typed|apply nonblank_FormatUint].
Qed.

Lemma releases_group_ok : group_ok "release" (releases_group s).
Proof.
  eapply kindGroup_ok; [done..|]. apply Forall_sort.
  eapply Forall_impl; [apply (ty_releases _ Hty)|].
  intros r Hr. split; [|by apply nonblank_between].
  do 2 (apply tuple_cons; [typed|]). apply tuple_cons; [|typed].
  simpl. by rewrite length_release_hash.
Qed.

End Groups.

(** ** What a validated snapshot satisfies *)

Record snapshot_facts (s : Snapshot) (repos : gmap string SnapshotRepository) : Prop := {
  sf_table : table_ok (snap_Repositories s) repos;
  sf_lineage : well_founded (parent_of repos);
  sf_forks : Forall (fun r => repo_ForkedFrom r <> ""%string -> is_Some (repos !! repo_ForkedFrom r))
               (snap_Repositories s);
  sf_guardians : Forall (fun g => is_Some (repos !! guard_RepoID g)) (snap_GuardianConfigs s);
  sf_statuses :
    Forall (fun g => is_Some (repos !! fs_RepoID g)) (mod_FinalStatuses (snap_Moderation s));
  sf_trails :
    Forall (fun g => is_Some (repos !! st_RepoID g)) (mod_StatusTrails (snap_Moderation s));
  sf_splits : Forall (fun g => is_Some (repos !! rs_RepoID g)) (eco_Splits (snap_Economic s));
  sf_totals : Forall (fun r => is_ok (positiveDecimal "sponsor total" (tot_Amount r)) = true)
                (eco_Totals (snap_Economic s));
  sf_owners : Forall (fun r => validUsername (un_Name r) = true)
                (usr_OriginalOwners (snap_Username s));
  sf_reserved : Forall (fun n => validUsername n = true) (usr_ReservedNames (snap_Username s));
  sf_source : check_source s = Ok tt;
  sf_escrow : validateEscrowRelease (usr_EscrowRelease (snap_Username s))
    (src_Contract (snap_Source s)) (src_Height (snap_Source s)) = Ok tt;
}.

Lemma check_moderation_facts repos m :
  check_moderation repos m = Ok tt ->
  Forall (fun g => is_Some (repos !! fs_RepoID g)) (mod_FinalStatuses m) /\
  Forall (fun g => is_Some (repos !! st_RepoID g)) (mod_StatusTrails m).
Proof.
  unfold check_moderation. intros H. go_inv H. split.
  - eapply foldM_Forall; [|exact Hc]. intros st r st' Hs. unfold check_final_status in Hs.
    go_inv Hs. by bool_prop.
  - eapply foldM_Forall; [|exact Hc1]. intros st r st' Hs. unfold check_status_trail in Hs.
    go_inv Hs. by bool_prop.
Qed.

Lemma check_economic_facts repos e :
  check_economic repos e = Ok tt ->
  Forall (fun g => is_Some (repos !! rs_RepoID g)) (eco_Splits e) /\
  Forall (fun r => is_ok (positiveDecimal "sponsor total" (tot_Amount r)) = true) (eco_Totals e).
Proof.
  unfold check_economic. intros H. go_inv H. split.
  - eapply foldM_Forall; [|exact Hc]. intros st r st' Hs. unfold check_splits in Hs.
    destruct (repos !! rs_RepoID r) eqn:E; [by eexists|done].
  - eapply foldM_Forall; [|exact Hc0]. intros st r st' Hs. unfold check_total in Hs.
    go_inv Hs. by destruct (positiveDecimal _ _).
Qed.

Lemma check_username_facts u src :
  check_username u src = Ok tt ->
  Forall (fun r => validUsername (un_Name r) = true) (usr_OriginalOwners u) /\
  Forall (fun n => validUsername n = true) (usr_ReservedNames u) /\
  llen (usr_ReservedNames u) <= MaxReservedUsernames /\
  validateEscrowRelease (usr_EscrowRelease u) (src_Contract src) (src_Height src) = Ok tt.
Proof.
  unfold check_username. intros H. apply bind_ok in H as ([names ?] & Hn & H).
  go_inv H. bool_prop. split_and!; try done.
  - eapply foldM_Forall; [|exact Hn]. intros [n1 o1] r st' Hs. unfold check_original_owner in Hs.
    go_inv Hs. by bool_prop.
  - eapply foldM_Forall; [|exact Hc]. intros st r st' Hs. unfold check_reserved in Hs.
    go_inv Hs. by bool_prop.
Qed.

(** A fork names a repository of the table. *)
Lemma check_fork_known repos r :
  check_fork repos r = Ok tt -> repo_ForkedFrom r <> ""%string ->
  repo_ForkedFrom r <> repo_ID r /\ is_Some (repos !! repo_ForkedFrom r).
Proof.
  unfold check_fork. intros H Hne. rewrite decide_False in H by done. go_inv H. by bool_prop.
Qed.

Lemma validateSnapshot_facts s :
  validateSnapshot s = Ok tt -> exists repos, snapshot_facts s repos.
Proof.
  unfold validateSnapshot. intros H. apply bind_ok in H as ([] & Hsrc & H).
  apply bind_ok in H as ([repos locators] & Hr & H).
  do 8 (apply bind_ok in H as (? & ?Hs & H)).
  exists repos.
  repeat match goal with u : unit |- _ => destruct u end.
  match goal with Hm : check_moderation _ _ = _ |- _ => apply check_moderation_facts in Hm as [] end.
  match goal with Hm : check_economic _ _ = _ |- _ => apply check_economic_facts in Hm as [] end.
  match goal with Hm : check_username _ _ = _ |- _ =>
    apply check_username_facts in Hm as (? & ? & _ & ?) end.
  constructor; try assumption.
  - by eapply check_repositories_table.
  - unfold check_repositories in Hr. apply bind_ok in Hr as ([repos' ?] & _ & Hr).
    apply bind_ok in Hr as (? & _ & Hr). apply bind_ok in Hr as (? & Hl & [= <- _]).
    by eapply check_lineage_sound.
  - unfold check_repositories in Hr. apply bind_ok in Hr as ([repos' ?] & _ & Hr).
    apply bind_ok in Hr as ([] & Hfk & Hr). apply bind_ok in Hr as (? & _ & [= <- _]).
    apply forM_ok in Hfk. eapply Forall_impl; [exact Hfk|]. intros r Hck Hne.
    by eapply check_fork_known.
  - match goal with Hg : foldM (check_guardian_config _) _ _ = _ |- _ =>
      eapply foldM_Forall; [|exact Hg] end.
    intros st r st' Hs'. unfold check_guardian_config in Hs'.
    destruct (repos !! guard_RepoID r) eqn:E; [by eexists|done].
Qed.

Lemma fork_parent_known s repos r :
  snapshot_facts s repos -> r ∈ snap_Repositories s ->
  repo_ForkedFrom r <> ""%string -> is_Some (repos !! repo_ForkedFrom r).
Proof.
  intros Hf Hin Hne. pose proof (sf_forks _ _ Hf) as Hall.
  rewrite Forall_forall in Hall. by apply Hall.
Qed.

(** ** The groups of the seven modules *)

Lemma snapshotModuleRecords_ok s repos records summary :
  snapshot_facts s repos -> snapshot_typed s ->
  snapshotModuleRecords s = Ok (records, summary) -> records_ok records requiredModules.
Proof.
  intros Hf Hty Hr. unfold snapshotModuleRecords in Hr.
  apply bind_ok in Hr as (group & Hg & [= <- <-]). destruct Hf.
  assert (rg_kindCode group = 0) as Hcode.
  { unfold repository_group in Hg. by apply bind_ok in Hg as (l & _ & <-%Ok_eq). }
  unfold records_ok, requiredModules.
  repeat match goal with
  | |- Forall _ (_ :: _) => apply Forall_cons; split
  | |- Forall _ [] => constructor
  | |- exists groups, _ !! _ = Some groups /\ _ => eexists; split; [reflexivity|split]
  | |- StronglySorted _ _ => repeat constructor; cbn; lia
  end.
  all: eauto using repository_group_ok, alias_group_ok, ref_group_ok, collaborator_group_ok,
    guardian_group_ok, status_group_ok, report_group_ok, status_trail_group_ok,
    splits_group_ok, totals_group_ok, owners_group_ok, reserved_group_ok, badges_group_ok,
    releases_group_ok.
Qed.

End Wellformed.
