(* ===== verification/Distinct.v ===== *)
(** * Distinct: a validated snapshot repeats no key

    Every duplicate check of [validateSnapshot] turned into a [NoDup] fact on
    the keys of the records, and the resulting independence of the plan from
    the order of the input lists. *)
From Stdlib Require Import ZArith Lia Ascii String.
From stdpp Require Import base list gmap strings sorting.
From S2P Require Import Prelude GoText Geth Schema Codec Validators Snapshot Records Sorting Plan Wellformed Acceptance.

Local Open Scope Z_scope.

Section Distinct.
Context {GE : Geth} {GL : GethLaws} {MO : MapOrder}.

(** The keys that the sort and the item keys are made of. *)
Record distinct_facts (s : Snapshot) : Prop := {
  df_repositories : NoDup (map repo_ID (snap_Repositories s));
  df_locators : NoDup (map (fun r => (repo_Owner r, repo_Name r)) (snap_Repositories s) ++
                       map (fun a => (alias_Owner a, alias_Name a)) (snap_Aliases s));
  df_refs : NoDup (map (fun r => (ref_RepoID r, ref_RefName r)) (snap_Refs s));
  df_collaborators :
    NoDup (map (fun c => (collab_RepoID c, collab_Account c)) (snap_Collaborators s));
  df_guardians : NoDup (map guard_RepoID (snap_GuardianConfigs s));
  df_statuses : NoDup (map fs_RepoID (mod_FinalStatuses (snap_Moderation s)));
  df_reports : NoDup (map rep_ID (mod_Reports (snap_Moderation s)));
  df_trails : NoDup (map st_RepoID (mod_StatusTrails (snap_Moderation s)));
  df_splits : NoDup (map rs_RepoID (eco_Splits (snap_Economic s)));
  df_totals : NoDup (map (fun r => (tot_RepoID r, tot_Denom r)) (eco_Totals (snap_Economic s)));
  df_owners : NoDup (map un_Name (usr_OriginalOwners (snap_Username s)));
  df_reserved : NoDup (usr_ReservedNames (snap_Username s));
  df_badges : NoDup (map badge_ID (snap_Badges s));
  df_releases : NoDup (map (fun r => (rel_Version r, rel_Platform r)) (snap_Releases s));
}.

(** Distinct locator keys come from distinct pairs. *)
Lemma NoDup_locator {A} (k1 k2 : A -> string) l :
  NoDup (map (fun a => locatorKey (k1 a) (k2 a)) l) -> NoDup (map (fun a => (k1 a, k2 a)) l).
Proof.
  intros Hnd. apply (NoDup_fmap_1 (fun p : string * string => locatorKey (fst p) (snd p))).
  revert Hnd. rewrite <- list_fmap_compose. done.
Qed.

Ltac distinct key seen :=
  eapply (foldM_distinct _ key seen) || eapply (foldMi_distinct _ key seen).

(** A step that refuses a member of a set and adds it. *)
Ltac set_step H :=
  go_inv H; subst; bool_prop; split; [assumption|split; set_solver].

Lemma refs_distinct repos rs st st' :
  foldMi (check_ref repos) 0 rs st = Ok st' ->
  NoDup (map (fun r => (ref_RepoID r, ref_RefName r)) rs).
Proof.
  intros Hf. apply NoDup_locator. revert Hf.
  apply (foldMi_distinct _ _ (fun (st : gmap string Z * gset string) k => k ∈ snd st)).
  intros i [c1 k1] r st1 H. unfold check_ref in H. cbn [snd]. set_step H.
Qed.

Lemma collaborators_distinct repos cs st st' :
  foldMi (check_collaborator repos) 0 cs st = Ok st' ->
  NoDup (map (fun c => (collab_RepoID c, collab_Account c)) cs).
Proof.
  intros Hf. apply NoDup_locator. revert Hf.
  apply (foldMi_distinct _ _ (fun (st : gmap string Z * gset string) k => k ∈ snd st)).
  intros i [c1 k1] c st1 H. unfold check_collaborator in H.
  destruct (repos !! collab_RepoID c); [|done]. cbn [snd]. set_step H.
Qed.

Lemma guardians_distinct repos gs st st' :
  foldM (check_guardian_config repos) gs st = Ok st' -> NoDup (map guard_RepoID gs).
Proof.
  apply (foldM_distinct _ _ (fun (st : gset string) k => k ∈ st)).
  intros st1 g st2 H. unfold check_guardian_config in H.
  destruct (repos !! guard_RepoID g); [|done]. set_step H.
Qed.

Lemma map_step {K} `{Countable K} {V} (m : gmap K V) key v :
  ~ is_Some (m !! key) ->
  ~ is_Some (m !! key) /\ is_Some (<[key := v]> m !! key) /\
  forall k, is_Some (m !! k) -> is_Some (<[key := v]> m !! k).
Proof.
  intros Hn. split; [done|]. split; [rewrite lookup_insert_eq; by eexists|].
  intros k Hk. apply lookup_insert_is_Some'. by right.
Qed.

Lemma statuses_distinct repos ss st st' :
  foldM (check_final_status repos) ss st = Ok st' -> NoDup (map fs_RepoID ss).
Proof.
  apply (foldM_distinct _ _ (fun (st : gmap string string) k => is_Some (st !! k))).
  intros st1 x st2 H. unfold check_final_status in H. go_inv H. subst. bool_prop.
  by apply map_step.
Qed.

Lemma reports_distinct repos rs st st' :
  foldM (check_report repos) rs st = Ok st' -> NoDup (map rep_ID rs).
Proof.
  apply (foldM_distinct _ _ (fun (st : gmap Z SnapshotReport) k => is_Some (st !! k))).
  intros st1 x st2 H. unfold check_report in H. go_inv H. subst. bool_prop.
  by apply map_step.
Qed.

Lemma trails_distinct repos statuses reports ts st st' :
  foldM (check_status_trail repos statuses reports) ts st = Ok st' -> NoDup (map st_RepoID ts).
Proof.
  apply (foldM_distinct _ _ (fun (st : gset string) k => k ∈ st)).
  intros st1 x st2 H. unfold check_status_trail in H. go_inv H.
  destruct (last (st_Trail x)); [|done]. set_step H.
Qed.

Lemma splits_distinct repos rs st st' :
  foldM (check_splits repos) rs st = Ok st' -> NoDup (map rs_RepoID rs).
Proof.
  apply (foldM_distinct _ _ (fun (st : gset string) k => k ∈ st)).
  intros st1 x st2 H. unfold check_splits in H. destruct (repos !! rs_RepoID x); [|done].
  go_inv H. destruct a. set_step H.
Qed.

Lemma totals_distinct repos rs st st' :
  foldM (check_total repos) rs st = Ok st' ->
  NoDup (map (fun r => (tot_RepoID r, tot_Denom r)) rs).
Proof.
  intros Hf. apply NoDup_locator. revert Hf.
  apply (foldM_distinct _ _ (fun (st : gset string) k => k ∈ st)).
  intros st1 x st2 H. unfold check_total in H. set_step H.
Qed.

Lemma owners_distinct rs st st' :
  foldM check_original_owner rs st = Ok st' -> NoDup (map un_Name rs).
Proof.
  apply (foldM_distinct _ _ (fun (st : gmap string string * gmap string string) k =>
    is_Some (fst st !! k))).
  intros [n1 o1] x st2 H. unfold check_original_owner in H. go_inv H. subst. bool_prop.
  by apply map_step.
Qed.

Lemma reserved_distinct names rs st st' :
  foldM (check_reserved names) rs st = Ok st' -> NoDup rs.
Proof.
  intros Hf. rewrite <- (map_id rs). revert Hf.
  apply (foldM_distinct _ _ (fun (st : gset string) k => k ∈ st)).
  intros st1 x st2 H. unfold check_reserved in H. set_step H.
Qed.

Lemma badges_distinct repos bs st st' :
  foldM (check_badge repos) bs st = Ok st' -> NoDup (map badge_ID bs).
Proof.
  apply (foldM_distinct _ _ (fun (st : gmap Z SnapshotBadge * gmap string (list Z) *
    gmap string (list Z)) k => is_Some (fst (fst st) !! k))).
  intros [[m1 r1] p1] x st2 H. unfold check_badge in H. go_inv H. subst. bool_prop.
  by apply map_step.
Qed.

Lemma releases_distinct rs st st' :
  foldM check_release rs st = Ok st' ->
  NoDup (map (fun r => (rel_Version r, rel_Platform r)) rs).
Proof.
  intros Hf. apply NoDup_locator. revert Hf.
  apply (foldM_distinct _ _ (fun (st : gset string * gmap string (list string)) k => k ∈ fst st)).
  intros [k1 p1] x st2 H. unfold check_release in H. cbn [fst]. set_step H.
Qed.

(** Locators are shared by repositories and aliases. *)
Lemma at_string_insert (m : gmap string string) key v k :
  at_string (<[key := v]> m) k = if decide (k = key) then v else at_string m k.
Proof.
  unfold at_string. case_decide as E.
  - subst. by rewrite lookup_insert_eq.
  - by rewrite lookup_insert_ne.
Qed.

Lemma locator_step (m : gmap string string) key v :
  at_string m key = ""%string -> v <> ""%string ->
  ~ at_string m key <> ""%string /\ at_string (<[key := v]> m) key <> ""%string /\
  forall k, at_string m k <> ""%string -> at_string (<[key := v]> m) k <> ""%string.
Proof.
  intros Hm Hv. rewrite at_string_insert, decide_True by done. split_and!; [naive_solver|done|].
  intros k Hk. rewrite at_string_insert. by case_decide.
Qed.

Lemma hash_text_nonempty id : hash_text id -> id <> ""%string.
Proof. by intros (h & _ & ->). Qed.

Lemma repository_locators s repos locators :
  check_repositories s = Ok (repos, locators) ->
  NoDup (map (fun r => locatorKey (repo_Owner r) (repo_Name r)) (snap_Repositories s)) /\
  forall r, r ∈ snap_Repositories s ->
    at_string locators (locatorKey (repo_Owner r) (repo_Name r)) <> ""%string.
Proof.
  unfold check_repositories. intros H.
  apply bind_ok in H as ([repos1 loc1] & Hf & H). go_inv H. injection H as -> ->.
  apply (foldMi_seen _ (fun r => locatorKey (repo_Owner r) (repo_Name r))
    (fun st k => at_string (snd st) k <> ""%string)) in Hf as (? & ? & _); [done|].
  intros i [m1 l1] r [m2 l2] (Hr & _ & _ & Ha & ->)%check_repository_step. cbn [snd].
  apply locator_step; [done|]. apply hash_text_nonempty, Hr.
Qed.

Lemma alias_locators rs repos aliases locators locators' :
  table_ok rs repos -> foldMi (check_alias repos) 0 aliases locators = Ok locators' ->
  NoDup (map (fun a => locatorKey (alias_Owner a) (alias_Name a)) aliases) /\
  forall k, at_string locators k <> ""%string ->
    k ∉ map (fun a => locatorKey (alias_Owner a) (alias_Name a)) aliases.
Proof.
  intros Ht Hf.
  apply (foldMi_seen _ (fun a => locatorKey (alias_Owner a) (alias_Name a))
    (fun st k => at_string st k <> ""%string)) in Hf as (? & _ & Hold).
  - split; [done|]. intros k Hk. by apply Hold.
  - intros i st a st' H. unfold check_alias in H. go_inv H. subst st'. bool_prop.
    match goal with Hk : is_Some (repos !! _) |- _ => apply (table_hash _ _ _ Ht) in Hk as Hid end.
    apply locator_step; [|by apply hash_text_nonempty].
    match goal with |- ?l = _ => destruct (decide (l = ""%string)) as [|Hne]; [done|] end.
    rewrite (bool_decide_eq_false_2 _ Hne) in *. done.
Qed.

Lemma locators_distinct s repos locators locators' :
  check_repositories s = Ok (repos, locators) ->
  foldMi (check_alias repos) 0 (snap_Aliases s) locators = Ok locators' ->
  NoDup (map (fun r => (repo_Owner r, repo_Name r)) (snap_Repositories s) ++
         map (fun a => (alias_Owner a, alias_Name a)) (snap_Aliases s)).
Proof.
  intros Hr Ha. destruct (repository_locators _ _ _ Hr) as [Hn1 Hs].
  destruct (alias_locators _ _ _ _ _ (check_repositories_table _ _ _ Hr) Ha) as [Hn2 Hnew].
  apply NoDup_app. split_and!; [by apply NoDup_locator| |by apply NoDup_locator].
  intros p (r & -> & Hin)%list_elem_of_fmap (a & [= Eo En] & Hina)%list_elem_of_fmap.
  apply (Hnew _ (Hs r Hin)), list_elem_of_fmap. exists a. by rewrite Eo, En.
Qed.

(** ** All of them *)

Lemma validateSnapshot_distinct s : validateSnapshot s = Ok tt -> distinct_facts s.
Proof.
  unfold validateSnapshot. intros H. apply bind_ok in H as ([] & _ & H).
  apply bind_ok in H as ([repos locators] & Hr & H).
  apply bind_ok in H as (loc' & Ha & H). apply bind_ok in H as (? & Href & H).
  apply bind_ok in H as (? & Hcol & H). apply bind_ok in H as (? & Hgu & H).
  apply bind_ok in H as (? & Hmod & H). apply bind_ok in H as (? & Heco & H).
  apply bind_ok in H as (? & Husr & H). apply bind_ok in H as (? & Hbad & Hrel).
  unfold check_moderation in Hmod. go_inv Hmod. unfold check_economic in Heco. go_inv Heco.
  unfold check_username in Husr. apply bind_ok in Husr as ([? ?] & Hown & Husr). go_inv Husr.
  unfold check_badges in Hbad. apply bind_ok in Hbad as ([[? ?] ?] & Hb & _).
  unfold check_releases in Hrel. apply bind_ok in Hrel as ([? ?] & Hrl & _).
  pose proof (check_repositories_table _ _ _ Hr) as Ht.
  constructor; eauto using tab_nodup, locators_distinct, refs_distinct, collaborators_distinct,
    guardians_distinct, statuses_distinct, reports_distinct, trails_distinct, splits_distinct,
    totals_distinct, owners_distinct, reserved_distinct, badges_distinct, releases_distinct.
Qed.

(** ** Input order *)

(** Two snapshots with the same records, listed in any order. *)
Record same_records (s s' : Snapshot) : Prop := {
  sr_repositories : snap_Repositories s ≡ₚ snap_Repositories s';
  sr_aliases : snap_Aliases s ≡ₚ snap_Aliases s';
  sr_refs : snap_Refs s ≡ₚ snap_Refs s';
  sr_collaborators : snap_Collaborators s ≡ₚ snap_Collaborators s';
  sr_guardians : snap_GuardianConfigs s ≡ₚ snap_GuardianConfigs s';
  sr_statuses :
    mod_FinalStatuses (snap_Moderation s) ≡ₚ mod_FinalStatuses (snap_Moderation s');
  sr_reports : mod_Reports (snap_Moderation s) ≡ₚ mod_Reports (snap_Moderation s');
  sr_trails : mod_StatusTrails (snap_Moderation s) ≡ₚ mod_StatusTrails (snap_Moderation s');
  sr_splits : eco_Splits (snap_Economic s) ≡ₚ eco_Splits (snap_Economic s');
  sr_totals : eco_Totals (snap_Economic s) ≡ₚ eco_Totals (snap_Economic s');
  sr_owners : usr_OriginalOwners (snap_Username s) ≡ₚ usr_OriginalOwners (snap_Username s');
  sr_reserved : usr_ReservedNames (snap_Username s) ≡ₚ usr_ReservedNames (snap_Username s');
  sr_badges : snap_Badges s ≡ₚ snap_Badges s';
  sr_releases : snap_Releases s ≡ₚ snap_Releases s';
}.

Lemma repos_by_id_perm rs rs' :
  NoDup (map repo_ID rs) -> rs ≡ₚ rs' -> repos_by_id rs = repos_by_id rs'.
Proof.
  intros Hnd Hp. assert (NoDup (map repo_ID rs')) as Hnd' by (by rewrite <- Hp).
  apply map_eq. intros id. apply option_eq. intros r.
  rewrite !repos_by_id_lookup by done. by rewrite Hp.
Qed.

Lemma table_repos_by_id rs repos : table_ok rs repos -> repos_by_id rs = repos.
Proof.
  intros Ht. apply map_eq. intros id. apply option_eq. intros r.
  by rewrite repos_by_id_lookup, (tab_lookup _ _ Ht) by apply Ht.
Qed.

(** The records of the modules do not depend on the order of the input. *)
Lemma sorted_repositories_perm s s' repos :
  snapshot_facts s repos -> NoDup (map repo_ID (snap_Repositories s)) -> same_records s s' ->
  sorted_repositories s = sorted_repositories s'.
Proof.
  intros Hf Hnd Hp. pose proof (sr_repositories _ _ Hp) as Hr.
  pose proof (table_repos_by_id _ _ (sf_table _ _ Hf)) as Ht.
  pose proof (repos_by_id_perm _ _ Hnd Hr) as Ht'. pose proof (sf_lineage _ _ Hf) as Hwf.
  rewrite <- Ht in Hwf. destruct (fork_depths_spec _ Hwf) as (d & Hd & Hdd).
  rewrite Ht' in Hwf. destruct (fork_depths_spec _ Hwf) as (d' & Hd' & Hdd').
  unfold sorted_repositories. rewrite Hd, Hd'. f_equal.
  apply (sort_slice_agree _ _ repo_ID); [done|done|].
  assert (forall r, r ∈ snap_Repositories s -> depth_at d r = depth_at d' r) as Hsame.
  { intros r Hin. destruct (Hdd r Hin) as (n & Hn & ->).
    rewrite Hr in Hin. destruct (Hdd' r Hin) as (m & Hm & ->).
    rewrite <- Ht' in Hm. by rewrite (depth_fun _ _ _ _ Hn Hm). }
  intros a b Ha Hb. unfold less_repository. by rewrite !Hsame.
Qed.

Lemma snapshotModuleRecords_perm s s' repos :
  snapshot_facts s repos -> distinct_facts s -> same_records s s' ->
  snapshotModuleRecords s = snapshotModuleRecords s'.
Proof.
  intros Hf Hd Hp. unfold snapshotModuleRecords, repository_group.
  rewrite (sorted_repositories_perm s s' repos Hf (df_repositories _ Hd) Hp).
  assert (snapshot_summary s = snapshot_summary s') as ->.
  { unfold snapshot_summary, llen. destruct Hp.
    f_equal; f_equal; by apply Permutation_length. }
  destruct (sorted_repositories s') as [l|]; [|done]. destruct Hp, Hd.
  unfold alias_group, ref_group, collaborator_group, guardian_group, status_group, report_group,
    status_trail_group, splits_group, totals_group, owners_group, reserved_group, badges_group,
    releases_group.
  rewrite (sort_strings_unique _ _ sr_reserved0).
  erewrite (sort_slice_unique _ _ (snap_Aliases s)); [|by eapply NoDup_app|done].
  erewrite !(sort_slice_unique _ _ (snap_Refs s)), !(sort_slice_unique _ _ (snap_Collaborators s)),
    !(sort_slice_unique _ _ (snap_GuardianConfigs s)),
    !(sort_slice_unique _ _ (mod_FinalStatuses (snap_Moderation s))),
    !(sort_slice_unique _ _ (mod_Reports (snap_Moderation s))),
    !(sort_slice_unique _ _ (mod_StatusTrails (snap_Moderation s))),
    !(sort_slice_unique _ _ (eco_Splits (snap_Economic s))),
    !(sort_slice_unique _ _ (eco_Totals (snap_Economic s))),
    !(sort_slice_unique _ _ (usr_OriginalOwners (snap_Username s))),
    !(sort_slice_unique _ _ (snap_Badges s)), !(sort_slice_unique _ _ (snap_Releases s)) by done.
  done.
Qed.

End Distinct.
