(* ===== verification/PlanSpec.v ===== *)
(** * PlanSpec: what a bootstrap plan guarantees

    The properties of [BuildPlan] and [ValidatePlan]: a validated snapshot has
    a plan, the plan carries every record once and in order within the limits
    of the contracts, it does not depend on the order of the input, and its
    expected roots commit to its payloads. *)
From Stdlib Require Import ZArith Lia Ascii String.
From stdpp Require Import base list gmap strings sorting.
From S2P Require Import Prelude GoText Encodings Geth Schema Codec Validators Snapshot Records Sorting Plan Batching Wellformed Distinct Acceptance.

Local Open Scope Z_scope.

Section PlanSpec.
Context {GE : Geth} {GL : GethLaws} {MO : MapOrder}.

(** ** The counts of the summary *)

Lemma records_lookup s records summary group :
  repository_group s = Ok group -> snapshotModuleRecords s = Ok (records, summary) ->
  map (groups_of records) requiredModules =
    [[group; alias_group s; ref_group s; collaborator_group s]; [guardian_group s];
     [status_group s; report_group s; status_trail_group s]; [splits_group s; totals_group s];
     [owners_group s; reserved_group s]; [badges_group s]; [releases_group s]] /\
  summary = snapshot_summary s.
Proof.
  intros Hg Hr. unfold snapshotModuleRecords in Hr. rewrite Hg in Hr. injection Hr as <- <-.
  split; reflexivity.
Qed.

Lemma repository_group_shape s group :
  repository_group s = Ok group ->
  rg_kind group = "repositories"%string /\ llen (rg_values group) = llen (snap_Repositories s).
Proof.
  unfold repository_group, sorted_repositories.
  intros (l & (d & _ & <-%Ok_eq)%bind_ok & <-%Ok_eq)%bind_ok.
  split; [done|]. unfold llen. simpl. by rewrite length_map, length_sort_slice.
Qed.

Lemma kindGroup_length {A} name code (value : A -> abi_value) keys args wrapped less l :
  llen (rg_values (kindGroup name code (map value (sort_slice less l)) keys args wrapped)) = llen l.
Proof. unfold llen. simpl. by rewrite length_map, length_sort_slice. Qed.

(** The number of records of a snapshot. *)
Definition record_total (s : Snapshot) : Z :=
  llen (snap_Repositories s) + llen (snap_Aliases s) + llen (snap_Refs s) +
  llen (snap_Collaborators s) + llen (snap_GuardianConfigs s) +
  llen (mod_FinalStatuses (snap_Moderation s)) + llen (mod_Reports (snap_Moderation s)) +
  llen (mod_StatusTrails (snap_Moderation s)) + llen (eco_Splits (snap_Economic s)) +
  llen (eco_Totals (snap_Economic s)) + llen (usr_OriginalOwners (snap_Username s)) +
  llen (usr_ReservedNames (snap_Username s)) + llen (snap_Badges s) +
  llen (snap_Releases s).

(** The sizes of the groups of a module, by summary key. *)
Definition sizes (records : gmap string (list recordGroup)) (spec : moduleSpec)
  : list (string * Z) :=
  map (fun g => (spec_name spec +:+ "/" +:+ rg_kind g, llen (rg_values g))%string)
    (groups_of records spec).

Lemma groups_shape s records summary :
  snapshotModuleRecords s = Ok (records, summary) ->
  summary = snapshot_summary s /\
  concat (map (sizes records) requiredModules) = expected_kind_counts (snapshot_summary s).
Proof.
  intros Hr. destruct (repository_group s) as [group|] eqn:Hg.
  2:{ unfold snapshotModuleRecords in Hr. by rewrite Hg in Hr. }
  destruct (records_lookup _ _ _ _ Hg Hr) as [Hmap ->]. split; [done|].
  destruct (repository_group_shape _ _ Hg) as [Hk Hl].
  assert (llen (rg_values (reserved_group s)) = llen (usr_ReservedNames (snap_Username s))) as Hres.
  { unfold llen. simpl. by rewrite length_map, length_sort_strings. }
  injection Hmap as H1 H2 H3 H4 H5 H6 H7. unfold sizes, requiredModules. cbn [map].
  rewrite H1, H2, H3, H4, H5, H6, H7. cbn [map]. rewrite Hk, Hl, Hres.
  unfold alias_group, ref_group, collaborator_group, guardian_group, status_group, report_group,
    status_trail_group, splits_group, totals_group, owners_group, badges_group, releases_group.
  rewrite !kindGroup_length. reflexivity.
Qed.

Definition sum_sizes (l : list (string * Z)) : Z := foldr (fun p n => snd p + n) 0 l.
Definition sum_at (key : string) (l : list (string * Z)) : Z :=
  foldr (fun p n => (if decide (key = fst p) then snd p else 0) + n) 0 l.

Lemma sum_sizes_app l k : sum_sizes (l ++ k) = sum_sizes l + sum_sizes k.
Proof. induction l as [|p l IH]; simpl; [done|]. rewrite IH. lia. Qed.
Lemma sum_at_app key l k : sum_at key (l ++ k) = sum_at key l + sum_at key k.
Proof. induction l as [|p l IH]; simpl; [done|]. rewrite IH. lia. Qed.

Lemma total_items_sizes records specs :
  total_items records specs = sum_sizes (concat (map (sizes records) specs)).
Proof.
  induction specs as [|spec specs IH]; simpl; [done|]. rewrite sum_sizes_app, IH. f_equal.
  unfold sizes, group_items. induction (groups_of records spec) as [|g gs IH']; simpl; [done|].
  by rewrite IH'.
Qed.

Lemma total_key_items_sizes records specs key :
  total_key_items records specs key = sum_at key (concat (map (sizes records) specs)).
Proof.
  induction specs as [|spec specs IH]; simpl; [done|]. rewrite sum_at_app, IH. f_equal.
  unfold sizes, key_items. induction (groups_of records spec) as [|g gs IH']; simpl; [done|].
  by rewrite IH'.
Qed.

Lemma sum_at_absent key l : key ∉ map fst l -> sum_at key l = 0.
Proof.
  induction l as [|p l IH]; simpl; [done|]. rewrite not_elem_of_cons. intros [Hne Hl].
  by rewrite decide_False, IH.
Qed.

Lemma sum_at_lookup key n l : NoDup (map fst l) -> (key, n) ∈ l -> sum_at key l = n.
Proof.
  induction l as [|p l IH]; intros Hnd Hin; [by apply elem_of_nil in Hin|].
  simpl in Hnd. apply NoDup_cons in Hnd as [Hp Hnd].
  apply elem_of_cons in Hin as [<-|Hin]; simpl.
  - rewrite decide_True, sum_at_absent by done. lia.
  - rewrite decide_False, IH by (done || intros ->; destruct Hp; by apply (list_elem_of_fmap_2 fst _ _ Hin)).
    lia.
Qed.

Lemma expected_items_record_total s :
  record_total s < 2 ^ 40 -> expected_items (snapshot_summary s) = record_total s.
Proof.
  intros Hlt. assert (0 <= record_total s) by (unfold record_total, llen; lia).
  rewrite <- (i64_small (record_total s)) by lia.
  unfold expected_items, snapshot_summary, record_total. cbn -[llen Z.add i64]. reflexivity.
Qed.

Lemma summary_counts s records summary :
  snapshotModuleRecords s = Ok (records, summary) -> snapshot_typed s ->
  total_items records requiredModules < 2 ^ 40 /\
  expected_items summary = total_items records requiredModules /\
  Forall (fun '(key, expected) =>
    0 <= expected /\ expected = total_key_items records requiredModules key)
    (expected_kind_counts summary).
Proof.
  intros Hr Hty. destruct (groups_shape _ _ _ Hr) as [-> Hs].
  assert (total_items records requiredModules = record_total s) as Ht.
  { rewrite total_items_sizes, Hs. unfold record_total, sum_sizes. cbn -[llen Z.add]. lia. }
  assert (record_total s < 2 ^ 40) as Hlen by (unfold record_total; apply (ty_lengths _ Hty)).
  rewrite Ht, expected_items_record_total by done. split_and!; [done|done|].
  apply Forall_forall. intros [key n] Hin. split.
  - revert Hin. unfold expected_kind_counts. rewrite !elem_of_cons, elem_of_nil.
    intros Hin. repeat destruct Hin as [[= -> ->]|Hin]; [apply llen_nonneg..|done].
  - rewrite total_key_items_sizes, Hs. symmetry. apply sum_at_lookup; [|done].
    apply (bool_decide_unpack _). reflexivity.
Qed.

(** ** Building never fails on records that fit *)

(** Every record, encoded alone, is within the payload limit. *)
Definition small_records (records : gmap string (list recordGroup)) : Prop :=
  forall spec g i payload, spec ∈ requiredModules -> g ∈ groups_of records spec ->
    rg_encode g (slice i (S i) (rg_values g)) = Ok payload ->
    llen payload <= MaximumPayloadBytes.

Lemma slice_single {A} (l : list A) i j : (i < j)%nat -> (j - i = 1)%nat -> slice i j l = slice i (S i) l.
Proof. intros. by replace j with (S i) by lia. Qed.

Lemma group_fits module g :
  group_ok module g ->
  (forall i payload, rg_encode g (slice i (S i) (rg_values g)) = Ok payload ->
     llen payload <= MaximumPayloadBytes) ->
  records_fit g.
Proof.
  intros Hg Hsmall start stop Hs.
  destruct (gok_encode _ _ Hg) as (t & wrapped & _ & Henc & Ht).
  destruct (encode_group_total wrapped (rg_kindCode g) [TSlice t]
    (slice start stop (rg_values g))) as [payload Hp]; [apply Hg| |].
  { by apply have_types_slice, Forall_slice. }
  exists payload. rewrite Henc. split; [done|]. intros H1.
  apply (Hsmall start). by rewrite <- (slice_single _ start stop), Henc by lia.
Qed.

Lemma rollingStep_total id p n c h :
  length id = 32%nat -> length p = 32%nat -> length h = 32%nat -> is_u64 n -> is_u64 c ->
  exists r, rollingStep p id n c h = Ok r /\ length r = 32%nat.
Proof.
  intros. destruct (rollingStep_spec p id n c h) as (e & _ & Hr); try done.
  eexists. split; [done|apply length_keccak256].
Qed.

Lemma batches_of_root group batchSize moduleID start sequence root batches root' :
  batches_of group batchSize moduleID start sequence root batches root' ->
  length root = 32%nat -> length root' = 32%nat.
Proof.
  induction 1 as [|start stop sequence root batch payload root1 batches root2 Hbo Hb IH]; [done|].
  intros _. apply IH. by apply (length_rollingStep _ _ _ _ _ _ (bo_step Hbo)).
Qed.

Lemma append_group_total spec batchSize m r g :
  spec ∈ requiredModules -> group_ok (spec_name spec) g -> records_fit g ->
  1 <= batchSize -> length r = 32%nat ->
  exists m' r', append_group batchSize spec (m, r) g = Ok (m', r') /\ length r' = 32%nat.
Proof.
  intros Hs Hg Hfit Hbs Hr. unfold append_group, appendRecordBatches.
  unfold llen. rewrite (gok_keys _ _ Hg), Z.eqb_refl. cbn [negb].
  destruct (append_loop_total (length (rg_values g)) g (Z.to_nat batchSize) (spec_id spec) 0 m r)
    as [[m' r'] Ha]; [|apply length_keccak256|done|lia|done|lia|].
  { intros p n c h Hp Hh Hn Hc. apply rollingStep_total; try done. by apply spec_id_length. }
  rewrite Ha. exists m', r'. split; [done|].
  apply append_loop_spec in Ha as (batches & Hb & _); [|lia|lia].
  by eapply batches_of_root.
Qed.

Lemma append_groups_total spec batchSize m r groups :
  spec ∈ requiredModules -> Forall (group_ok (spec_name spec)) groups ->
  Forall records_fit groups -> 1 <= batchSize -> length r = 32%nat ->
  exists m' r', foldM (append_group batchSize spec) groups (m, r) = Ok (m', r').
Proof.
  intros Hs Hok Hfit Hbs. revert m r.
  induction groups as [|g groups IH]; intros m r Hr; [by exists m, r|].
  apply Forall_cons in Hok as [Hg Hgs]. apply Forall_cons in Hfit as [Hfg Hfgs].
  destruct (append_group_total spec batchSize m r g) as (m1 & r1 & Ha & Hr1); try done.
  cbn [foldM]. rewrite Ha. by apply IH.
Qed.

Lemma build_module_total records batchSize snapshotRoot order spec groups :
  spec ∈ requiredModules -> records !! spec_name spec = Some groups ->
  Forall (group_ok (spec_name spec)) groups -> Forall records_fit groups ->
  1 <= batchSize -> length snapshotRoot = 32%nat ->
  exists m, build_module records batchSize snapshotRoot order spec = Ok m.
Proof.
  intros Hs Hrec Hok Hfit Hbs Hroot. unfold build_module. rewrite Hrec. cbn [default].
  destruct (rollingSeed_spec (spec_id spec) snapshotRoot) as (e & _ & Hseed);
    [by apply spec_id_length|done|]. rewrite Hseed.
  match goal with |- context [foldM _ _ (?m, ?r)] =>
    destruct (append_groups_total spec batchSize m r groups) as (m' & r' & Hf); try done end.
  { apply length_keccak256. }
  unfold append_group in Hf. change (id groups) with groups. rewrite Hf. by eexists.
Qed.

Lemma build_modules_total records batchSize snapshotRoot :
  records_ok records requiredModules -> small_records records ->
  1 <= batchSize -> length snapshotRoot = 32%nat ->
  exists modules, build_modules records batchSize snapshotRoot = Ok modules.
Proof.
  intros Hok Hsmall Hbs Hroot. unfold build_modules.
  assert (forall specs order acc, (forall spec, spec ∈ specs -> spec ∈ requiredModules) ->
    records_ok records specs -> exists modules,
    foldMi (fun order modules spec =>
      let? module := build_module records batchSize snapshotRoot order spec in
      Ok (modules ++ [module])) order specs acc = Ok modules) as Hall.
  { induction specs as [|spec specs IH]; intros order acc Hin Hrs; [by eexists|].
    apply Forall_cons in Hrs as [(groups & Hg & Hgok & _) Hrs]. cbn [foldMi].
    destruct (build_module_total records batchSize snapshotRoot order spec groups) as [m ->];
      try done; [apply Hin; by left| |].
    - apply Forall_forall. intros g Hgin. eapply group_fits.
      + rewrite Forall_forall in Hgok. by apply Hgok.
      + intros i payload. apply (Hsmall spec); [apply Hin; by left|].
        unfold groups_of. by rewrite Hg.
    - apply IH; [|done]. intros x Hx. apply Hin. by right. }
  by apply Hall.
Qed.

(** ** The generated plan is valid *)

Lemma check_options_ok options directory coordinator batchSize :
  check_options options = Ok (directory, coordinator, batchSize) ->
  opt_TargetChainID options <> 0 /\ 1 <= batchSize <= MaximumBatchItems /\
  directory <> coordinator /\
  (forall a, a = directory \/ a = coordinator -> length a = 20%nat /\ a <> zero_bytes 20).
Proof.
  unfold check_options. intros H. go_inv H. injection H as -> -> <-. bool_prop.
  match goal with H1 : canonicalAddress _ _ = Ok directory, H2 : canonicalAddress _ _ = Ok coordinator |- _ =>
    apply canonicalAddress_spec in H1 as (_ & ? & ?), H2 as (_ & ? & ?) end.
  split_and!; try done; try lia. intros a [->| ->]; done.
Qed.

Lemma canonicalAddress_text label a :
  length a = 20%nat -> a <> zero_bytes 20 ->
  canonicalAddress label (ToLower (AddressHex a)) = Ok a.
Proof.
  intros Hl Hz. apply canonicalAddress_spec. by rewrite AddressHex_spec.
Qed.

Lemma check_source_ok s :
  check_source s = Ok tt ->
  let src := snap_Source s in
  snap_Schema s = SnapshotSchema /\ TrimSpace (src_ChainID src) <> ""%string /\
  TrimSpace (src_Contract src) <> ""%string /\ src_Height src <> 0 /\
  check_source_block (src_ChainID src) (src_Contract src) (src_Height src) (src_BlockHash src)
    = Ok tt /\
  check_evidence (src_InventorySHA256 src) (src_TxSearchSHA256 src)
    (src_BlockEvidenceSHA256 src) (src_EventCommitmentSHA256 src) = Ok tt /\
  validateContractPolicy (snap_ContractPolicy s) = Ok tt.
Proof.
  unfold check_source. intros H. go_inv H. bool_prop.
  repeat match goal with u : unit |- _ => destruct u end.
  split_and!; assumption || reflexivity.
Qed.

Section Assembled.
Context (raw : bytes) (s : Snapshot) (options : BuildOptions).
Context (directory coordinator : bytes) (batchSize : Z).
Context (modules : list ModulePlan) (summary : PlanSummary).
Context (Hopt : check_options options = Ok (directory, coordinator, batchSize)).
Context (Hraw : sha256 raw <> zero_bytes 32).

Let plan := assemble_plan raw s (opt_TargetChainID options) batchSize directory coordinator
  modules summary.

Lemma assembled_snapshot :
  check_source s = Ok tt -> check_plan_snapshot plan = Ok (BytesToHash (sha256 raw)).
Proof.
  intros Hs. destruct (check_source_ok s Hs) as (E1 & E2 & E3 & E4 & E5 & E6 & _).
  unfold check_plan_snapshot, plan, assemble_plan.
  cbn [plan_Schema plan_Executable plan_Snapshot ps_Schema ps_SHA256 ps_Root ps_SourceHeight
    ps_SourceChainID ps_SourceContract ps_SourceBlockHash ps_InventorySHA256 ps_TxSearchSHA256
    ps_BlockEvidenceSHA256 ps_EventCommitmentSHA256].
  rewrite E1, E5, E6, (bool_decide_eq_true_2 (PlanSchema = _)) by done.
  rewrite (bool_decide_eq_true_2 (SnapshotSchema = _)) by done. cbn [negb orb].
  rewrite (proj2 (rawSHA256_spec "snapshot SHA-256" _ (sha256 raw))).
  2:{ split_and!; [done|apply length_sha256|done]. }
  rewrite BytesToHash_spec by apply length_sha256.
  rewrite (proj2 (parseHash_spec "snapshot root" _ (sha256 raw))).
  2:{ rewrite HashHex_spec by apply length_sha256. split; [done|apply length_sha256]. }
  rewrite bool_decide_eq_true_2, (proj2 (Z.eqb_neq _ 0)), !bool_decide_eq_false_2 by done.
  done.
Qed.

Lemma assembled_target :
  validateContractPolicy (snap_ContractPolicy s) = Ok tt ->
  validateEscrowRelease (usr_EscrowRelease (snap_Username s))
    (src_Contract (snap_Source s)) (src_Height (snap_Source s)) = Ok tt ->
  length modules = 7%nat -> check_plan_target plan = Ok tt.
Proof.
  intros Hpol Hesc Hlen.
  destruct (check_options_ok _ _ _ _ Hopt) as (Hchain & Hbs & Hne & Haddr).
  destruct (Haddr directory) as [Hd Hdz]; [by left|].
  destruct (Haddr coordinator) as [Hc Hcz]; [by right|].
  unfold check_plan_target, plan, assemble_plan.
  cbn [plan_Target plan_ContractPolicy plan_UsernameEscrowRelease plan_Snapshot plan_Limits
    plan_UsernameEscrowEvidenceHash plan_Modules tgt_ChainID tgt_SuiteVersion tgt_Directory
    tgt_Coordinator ps_SourceContract ps_SourceHeight lim_BatchSize lim_MaxBatchItems
    lim_MaxPayloadBytes].
  rewrite (proj2 (Z.eqb_neq _ 0) Hchain), !canonicalAddress_text, Hpol, Hesc by done.
  rewrite (bool_decide_eq_false_2 (ToLower _ = _)).
  2:{ rewrite !AddressHex_spec by done. by intros E%(inj (String.app "0x"))%(inj hex_encode). }
  rewrite !Z.eqb_refl, (proj2 (Z.ltb_ge batchSize 1)), (proj2 (Z.ltb_ge _ batchSize)) by lia.
  cbn [negb orb].
  assert (exists h, rawSHA256 "username escrow evidence SHA-256"
    (esc_EvidenceSHA256 (usr_EscrowRelease (snap_Username s))) = Ok h) as [h Hh].
  { unfold validateEscrowRelease in Hesc. go_inv Hesc. by eexists. }
  apply rawSHA256_spec in Hh as (-> & Hl & _).
  rewrite (proj2 (parseHash_spec _ _ h)) by done.
  rewrite (bool_decide_eq_true_2 (_ = _)) by done.
  unfold llen. by rewrite Hlen.
Qed.

End Assembled.

Lemma build_modules_length records batchSize snapshotRoot modules :
  build_modules records batchSize snapshotRoot = Ok modules -> length modules = 7%nat.
Proof.
  unfold build_modules. change 7%nat with (length requiredModules).
  apply (foldMi_ind _ (fun pre ms => length ms = length pre)); [done|].
  intros pre spec ms ms' Hl (m & _ & <-%Ok_eq)%bind_ok. by rewrite !length_app, Hl.
Qed.

(** Every failure of [build_decoded_plan] is one of the failures before the
    final check: the check of the generated plan never fails. *)
Lemma generated_plan_valid raw s options directory coordinator batchSize records summary modules :
  snapshot_typed s -> validateSnapshot s = Ok tt ->
  check_options options = Ok (directory, coordinator, batchSize) ->
  sha256 raw <> zero_bytes 32 ->
  snapshotModuleRecords s = Ok (records, summary) ->
  build_modules records batchSize (BytesToHash (sha256 raw)) = Ok modules ->
  ValidatePlan (assemble_plan raw s (opt_TargetChainID options) batchSize directory coordinator
    modules summary) = Ok tt.
Proof.
  intros Hty Hv Hopt Hraw Hrec Hb.
  destruct (validateSnapshot_facts s Hv) as [repos Hf].
  destruct (summary_counts _ _ _ Hrec Hty) as (H1 & H2 & H3).
  eapply ValidatePlan_accepts; try eassumption; try reflexivity.
  - apply assembled_snapshot; [done|apply (sf_source _ _ Hf)].
  - eapply assembled_target; [done| |apply (sf_escrow _ _ Hf)|by eapply build_modules_length].
    apply (check_source_ok s), (sf_source _ _ Hf).
  - by eapply snapshotModuleRecords_ok.
  - apply (check_options_ok _ _ _ _ Hopt).
Qed.

Lemma snapshotModuleRecords_total s repos :
  snapshot_facts s repos -> exists r, snapshotModuleRecords s = Ok r.
Proof.
  intros Hf. pose proof (sf_lineage _ _ Hf) as Hwf.
  rewrite <- (table_repos_by_id _ _ (sf_table _ _ Hf)) in Hwf.
  destruct (fork_depths_spec _ Hwf) as (d & Hd & _).
  unfold snapshotModuleRecords, repository_group, sorted_repositories. rewrite Hd. by eexists.
Qed.

Lemma build_total raw s options r :
  snapshot_typed s -> validateSnapshot s = Ok tt -> check_options options = Ok r ->
  sha256 raw <> zero_bytes 32 ->
  (forall records summary, snapshotModuleRecords s = Ok (records, summary) ->
     small_records records) ->
  exists plan, build_decoded_plan raw s options = Ok plan /\ ValidatePlan plan = Ok tt.
Proof.
  intros Hty Hv Hopt Hraw Hsmall. destruct r as [[directory coordinator] batchSize].
  destruct (validateSnapshot_facts s Hv) as [repos Hf].
  destruct (snapshotModuleRecords_total s repos Hf) as [[records summary] Hrec].
  destruct (check_options_ok _ _ _ _ Hopt) as (_ & Hbs & _).
  destruct (build_modules_total records batchSize (BytesToHash (sha256 raw))) as [modules Hm].
  - by eapply snapshotModuleRecords_ok.
  - by eapply Hsmall.
  - lia.
  - rewrite BytesToHash_spec; apply length_sha256.
  - pose proof (generated_plan_valid raw s options directory coordinator batchSize records summary
      modules Hty Hv Hopt Hraw Hrec Hm) as Hval.
    unfold build_decoded_plan. rewrite Hv, Hopt, Hrec, Hm, Hval. by eexists.
Qed.

(** ** The batches of a module *)

(** The batches of the groups of a module, one group after the other. *)
Inductive groups_batches (batchSize : nat) (moduleID : bytes)
  : list recordGroup -> Z -> bytes -> list PlanBatch -> bytes -> Prop :=
| gb_nil sequence root : groups_batches batchSize moduleID [] sequence root [] root
| gb_cons g gs sequence root b1 root1 b2 root2 :
    batches_of g batchSize moduleID 0 sequence root b1 root1 ->
    groups_batches batchSize moduleID gs (sequence + llen b1) root1 b2 root2 ->
    groups_batches batchSize moduleID (g :: gs) sequence root (b1 ++ b2) root2.

Lemma append_groups_batches spec batchSize groups m r m' r' :
  1 <= batchSize -> foldM (append_group batchSize spec) groups (m, r) = Ok (m', r') ->
  exists batches, groups_batches (Z.to_nat batchSize) (spec_id spec) groups
      (llen (mp_Batches m)) r batches r' /\
    mp_Batches m' = mp_Batches m ++ batches /\
    mp_Order m' = mp_Order m /\ mp_Name m' = mp_Name m /\ mp_ID m' = mp_ID m.
Proof.
  intros Hbs. revert m r. induction groups as [|g groups IH]; intros m r Hf.
  - injection Hf as <- <-. exists []. rewrite app_nil_r. split; [constructor|done].
  - cbn [foldM] in Hf. apply bind_ok in Hf as ([m1 r1] & Ha & Hf).
    unfold append_group in Ha. apply wrapf_ok in Ha. unfold appendRecordBatches in Ha.
    apply guard_ok in Ha as [_ Ha].
    apply append_loop_spec in Ha as (b1 & Hb1 & Hm1 & _ & Ho & Hn & Hi); [|lia|lia].
    destruct (IH m1 r1 Hf) as (b2 & Hb2 & Hm2 & -> & -> & ->).
    exists (b1 ++ b2). rewrite Hm2, Hm1, <- app_assoc. split; [|done].
    rewrite Hm1, llen_app in Hb2. by econstructor.
Qed.

(** What [build_module] produces. *)
Definition module_built (records : gmap string (list recordGroup)) (batchSize : Z)
    (snapshotRoot : bytes) (spec : moduleSpec) (m : ModulePlan) : Prop :=
  mp_Name m = spec_name spec /\
  mp_ExpectedBatches m = u64 (llen (mp_Batches m)) /\
  exists seed root, rollingSeed (spec_id spec) snapshotRoot = Ok seed /\
    groups_batches (Z.to_nat batchSize) (spec_id spec) (groups_of records spec) 0 seed
      (mp_Batches m) root /\
    mp_ExpectedRoot m = HashHex root.

Lemma build_module_built records batchSize snapshotRoot order spec m :
  1 <= batchSize -> build_module records batchSize snapshotRoot order spec = Ok m ->
  module_built records batchSize snapshotRoot spec m /\ mp_Order m = order.
Proof.
  intros Hbs Hb. unfold build_module in Hb. apply bind_ok in Hb as (seed & Hseed & Hb).
  apply bind_ok in Hb as ([m1 root] & Hf & [= <-]).
  apply append_groups_batches in Hf as (batches & Hgb & Hm & Ho & Hn & _); [|done].
  cbn in Hgb, Hm, Ho, Hn. split; [|done]. split; [done|]. split; [done|].
  exists seed, root. rewrite Hm. done.
Qed.

Lemma build_modules_built records batchSize snapshotRoot modules :
  1 <= batchSize -> build_modules records batchSize snapshotRoot = Ok modules ->
  Forall2 (module_built records batchSize snapshotRoot) requiredModules modules.
Proof.
  intros Hbs. unfold build_modules.
  apply (foldMi_ind _ (fun pre ms => Forall2 (module_built records batchSize snapshotRoot) pre ms));
    [constructor|].
  intros pre spec ms ms' Hall (m & Hm & <-%Ok_eq)%bind_ok. apply Forall2_app; [done|].
  constructor; [|constructor]. by eapply build_module_built.
Qed.

Lemma build_decoded_plan_built raw s options plan :
  build_decoded_plan raw s options = Ok plan ->
  exists directory coordinator batchSize records summary,
    validateSnapshot s = Ok tt /\
    check_options options = Ok (directory, coordinator, batchSize) /\
    snapshotModuleRecords s = Ok (records, summary) /\
    1 <= batchSize <= MaximumBatchItems /\
    Forall2 (module_built records batchSize (BytesToHash (sha256 raw))) requiredModules
      (plan_Modules plan).
Proof.
  unfold build_decoded_plan. intros H. apply bind_ok in H as ([] & Hv & H).
  apply wrapf_ok in Hv. apply bind_ok in H as ([[directory coordinator] batchSize] & Ho & H).
  apply bind_ok in H as ([records summary] & Hr & H).
  apply bind_ok in H as (modules & Hm & H). apply bind_ok in H as (? & _ & <-%Ok_eq).
  pose proof (check_options_ok _ _ _ _ Ho) as (_ & Hbs & _).
  exists directory, coordinator, batchSize, records, summary. split_and!; try done; try lia.
  apply build_modules_built; [lia|done].
Qed.

(** Facts that hold of every batch of a module. *)
Lemma groups_batches_Forall batchSize moduleID gs sequence root batches root' (P : PlanBatch -> Prop) :
  (forall g start stop sequence root b root' payload, g ∈ gs ->
     batch_of g batchSize start stop sequence moduleID root b root' payload -> P b) ->
  groups_batches batchSize moduleID gs sequence root batches root' -> Forall P batches.
Proof.
  intros HP Hgb. induction Hgb as [|g gs sequence root b1 root1 b2 root2 Hb Hgb IH]; [constructor|].
  apply Forall_app. split.
  - assert (forall start stop sequence root b root' payload,
      batch_of g batchSize start stop sequence moduleID root b root' payload -> P b) as HPg.
    { intros. eapply HP; [by left|done]. }
    clear -HPg Hb. induction Hb; constructor; eauto.
  - apply IH. intros. eapply HP; [by right|done].
Qed.

Lemma groups_batches_keys batchSize moduleID gs sequence root batches root' module :
  groups_batches batchSize moduleID gs sequence root batches root' ->
  Forall (group_ok module) gs ->
  concat (map pb_ItemKeys batches) = concat (map rg_keys gs).
Proof.
  induction 1 as [|g gs sequence root b1 root1 b2 root2 Hb Hgb IH]; intros Hok; [done|].
  apply Forall_cons in Hok as [Hg Hgs]. rewrite map_app, concat_app. cbn [map concat].
  rewrite (IH Hgs), (batches_of_keys _ _ _ _ _ _ _ _ Hb), <- (gok_keys _ _ Hg), slice_all. done.
Qed.

(** ** Decoding the plan again *)

(** What a client of the contracts reads out of a batch: the records of its payload. *)
Definition decoded_records (module : string) (batch : PlanBatch) (records : list abi_value) : Prop :=
  exists payload arguments wrapped encoded,
    parseHexBytes "batch payload" (pb_Payload batch) = Ok payload /\
    payloadArguments module (pb_KindCode batch) = Ok (arguments, wrapped) /\
    (if wrapped : bool then unwrap_kind (pb_KindCode batch) payload = Ok encoded
     else encoded = payload) /\
    abi_Unpack arguments encoded = Ok [VSlice records].

Lemma unwrap_encoded kind arguments vs payload :
  0 <= kind < 256 -> encodeKindPayload kind arguments vs = Ok payload ->
  exists encoded, abi_Pack arguments [vs] = Ok encoded /\ unwrap_kind kind payload = Ok encoded.
Proof.
  intros Hk. unfold encodeKindPayload. intros (inner & Hi & Ho)%bind_ok. exists inner.
  split; [done|]. unfold unwrap_kind.
  assert (have_types outerPayloadArguments [VUint kind; VBytes inner] = true) as Hto.
  { simpl. rewrite andb_true_r. apply andb_true_iff. rewrite Z.leb_le, Z.ltb_lt.
    change (2 ^ 8) with 256. lia. }
  rewrite (Unpack_Pack _ _ _ Hto Ho). simpl.
  by rewrite Z.eqb_refl, (canonical_packed _ _ _ Ho).
Qed.

Lemma batch_decoded module g batchSize start stop sequence moduleID root batch root' payload :
  group_ok module g ->
  batch_of g batchSize start stop sequence moduleID root batch root' payload ->
  decoded_records module batch (slice start stop (rg_values g)).
Proof.
  intros Hg Hbo. destruct (gok_encode _ _ Hg) as (t & wrapped & Ha & Henc & Ht).
  pose proof (bo_encode Hbo) as He. rewrite Henc in He.
  assert (have_types [TSlice t] [VSlice (slice start stop (rg_values g))] = true) as Hty
    by (by apply have_types_slice, Forall_slice).
  assert (exists encoded, abi_Pack [TSlice t] [VSlice (slice start stop (rg_values g))] = Ok encoded /\
    if wrapped then unwrap_kind (rg_kindCode g) payload = Ok encoded else encoded = payload)
    as (encoded & Hp & Hw).
  { destruct wrapped; [|by exists payload]. apply unwrap_encoded; [apply Hg|done]. }
  exists payload, [TSlice t], wrapped, encoded. rewrite (bo_code Hbo), (bo_payload Hbo).
  split_and!; [by apply parseHexBytes_spec|done|done|]. by apply Unpack_Pack.
Qed.

Lemma batches_decoded module g batchSize moduleID start sequence root batches root' :
  group_ok module g ->
  batches_of g batchSize moduleID start sequence root batches root' ->
  exists decoded, Forall2 (decoded_records module) batches decoded /\
    concat decoded = slice start (length (rg_values g)) (rg_values g).
Proof.
  intros Hg. induction 1 as [|start stop sequence root batch payload root1 batches root2 Hbo Hb IH].
  - exists []. split; [constructor|]. by rewrite slice_nil.
  - destruct IH as (ds & Hds & Hc). exists (slice start stop (rg_values g) :: ds).
    split; [constructor; [by eapply batch_decoded|done]|]. cbn [concat]. rewrite Hc.
    destruct (bo_range Hbo). apply slice_app.
    pose proof (batches_of_range _ _ _ _ _ _ _ _ Hb). lia.
Qed.

Lemma groups_decoded module batchSize moduleID gs sequence root batches root' :
  groups_batches batchSize moduleID gs sequence root batches root' ->
  Forall (group_ok module) gs ->
  exists decoded, Forall2 (decoded_records module) batches decoded /\
    concat decoded = concat (map rg_values gs).
Proof.
  induction 1 as [|g gs sequence root b1 root1 b2 root2 Hb Hgb IH]; intros Hok.
  - exists []. split; [constructor|done].
  - apply Forall_cons in Hok as [Hg Hgs]. destruct (IH Hgs) as (d2 & Hd2 & Hc2).
    destruct (batches_decoded _ _ _ _ _ _ _ _ _ Hg Hb) as (d1 & Hd1 & Hc1).
    exists (d1 ++ d2). split; [by apply Forall2_app|].
    by rewrite concat_app, Hc1, Hc2, slice_all.
Qed.

End PlanSpec.
