(* ===== verification/Sample.v ===== *)
(** * Sample: a concrete snapshot

    A small snapshot with a record of every kind, used to evaluate the
    definitions and to show that the hypotheses of the theorems can hold. *)
From Stdlib Require Import ZArith Lia Ascii String.
From stdpp Require Import base list gmap strings.
From S2P Require Import Prelude GoText Encodings Geth Schema Codec Validators Snapshot Records Plan.

Local Open Scope Z_scope.
Local Open Scope string_scope.

Module Sample.
Import SampleGeth.

Definition address (c : ascii) : string := "0x" +:+ repeat_char c 40.
Definition digest (c : ascii) : string := repeat_char c 64.
Definition root_repo : string := "0x" +:+ repeat_char "1" 64.
Definition fork_repo : string := "0x" +:+ repeat_char "2" 64.

Definition source : SnapshotSource := {|
  src_ChainID := "injective-888"; src_Contract := "inj1suite"; src_Height := 100;
  src_BlockHash := digest "a"; src_InventorySHA256 := digest "b";
  src_TxSearchSHA256 := digest "c"; src_BlockEvidenceSHA256 := digest "d";
  src_EventCommitmentSHA256 := digest "e" |}.

Definition policy : ContractPolicy := {|
  pol_Admin := address "a"; pol_Treasury := address "b"; pol_Committee := address "c";
  pol_ReleaseAuthority := address "d"; pol_UsernamePolicyAdmin := address "e";
  pol_PlatformFeeBPS := 250 |}.

Definition repository (id owner name parent : string) : SnapshotRepository := {|
  repo_ID := id; repo_Owner := owner; repo_Name := name; repo_Description := "demo";
  repo_DefaultBranch := "main"; repo_ForkedFrom := parent; repo_CreatedAt := 10;
  repo_UpdatedAt := 20 |}.

Definition sha1_hex : string := repeat_char "f" 40.

Definition git_ref (repo name : string) : SnapshotRef := {|
  ref_RepoID := repo; ref_RefName := name; ref_CommitSHA := sha1_hex;
  ref_PackURIs := ["ipfs://bafkreia"]; ref_UpdatedAt := 30; ref_UpdatedBy := address "1" |}.

Definition report : SnapshotReport := {|
  rep_ID := 7; rep_RepoID := fork_repo; rep_Reporter := address "3"; rep_Status := "resolved";
  rep_Resolution := "frozen"; rep_ReasonHash := "spam"; rep_CreatedAt := 40; rep_UpdatedAt := 50;
  rep_Trail := [
    {| rt_Action := "submitted"; rt_Actor := address "3"; rt_Status := "active";
       rt_ReasonHash := "spam"; rt_Timestamp := 40 |};
    {| rt_Action := "resolved"; rt_Actor := address "c"; rt_Status := "frozen";
       rt_ReasonHash := "agreed"; rt_Timestamp := 50 |} ] |}.

Definition moderation : SnapshotModeration := {|
  mod_FinalStatuses := [
    {| fs_RepoID := root_repo; fs_Status := "active" |};
    {| fs_RepoID := fork_repo; fs_Status := "frozen" |} ];
  mod_Reports := [report];
  mod_StatusTrails := [ {| st_RepoID := fork_repo; st_Trail := [
    {| sl_Status := "frozen"; sl_Actor := address "c"; sl_ReasonHash := "agreed";
       sl_Timestamp := 50; sl_ReportID := 7 |} ] |} ] |}.

Definition splits : SnapshotRevenueSplits := {|
  rs_RepoID := root_repo; rs_Splits := [
    {| split_Recipient := address "4"; split_BPS := 2500 |};
    {| split_Recipient := address "5"; split_BPS := 100 |} ] |}.

Definition economic : SnapshotEconomic := {|
  eco_Splits := [splits];
  eco_Totals := [ {| tot_RepoID := root_repo; tot_Denom := "inj"; tot_Amount := "1000" |} ] |}.

Definition escrow : UsernameEscrowRelease := {|
  esc_AllReleased := true; esc_Contract := "inj1suite"; esc_Height := 120;
  esc_BlockHash := digest "9"; esc_Denom := "inj"; esc_EscrowBalance := "0";
  esc_EvidenceSHA256 := digest "8" |}.

Definition username : SnapshotUsername := {|
  usr_OriginalOwners := [ {| un_Name := "alice"; un_Owner := address "1" |} ];
  usr_ReservedNames := ["admin"; "igit"];
  usr_EscrowRelease := escrow |}.

Definition badge : SnapshotBadge := {|
  badge_ID := 1; badge_RepoID := root_repo; badge_Recipient := address "6";
  badge_AwardedBy := address "1"; badge_Reason := "first fork"; badge_AwardedAt := 60 |}.

Definition release : SnapshotRelease := {|
  rel_Version := "v1.0.0"; rel_Platform := "linux-amd64"; rel_SHA256 := digest "7";
  rel_RegisteredBy := address "d"; rel_RegisteredAt := 70 |}.

Definition snapshot : Snapshot := {|
  snap_Schema := SnapshotSchema; snap_Source := source; snap_ContractPolicy := policy;
  snap_Repositories :=
    [repository fork_repo (address "2") "tool-fork" root_repo;
     repository root_repo (address "1") "tool" ""];
  snap_Aliases :=
    [ {| alias_RepoID := root_repo; alias_Owner := address "1"; alias_Name := "old-tool" |} ];
  snap_Refs := [git_ref root_repo "refs/heads/main"; git_ref fork_repo "refs/heads/main"];
  snap_Collaborators :=
    [ {| collab_RepoID := root_repo; collab_Account := address "2"; collab_Role := "maintainer" |} ];
  snap_GuardianConfigs :=
    [ {| guard_RepoID := root_repo; guard_ConfiguredBy := address "1"; guard_Threshold := 1;
         guard_Guardians := [address "7"; address "8"] |} ];
  snap_Moderation := moderation; snap_Economic := economic; snap_Username := username;
  snap_Badges := [badge];
  snap_BadgeIndexes := {|
    bi_ByRecipient := [ {| bri_Recipient := address "6"; bri_BadgeIDs := [1] |} ];
    bi_ByRepository := [ {| bpi_RepoID := root_repo; bpi_BadgeIDs := [1] |} ] |};
  snap_Releases := [release];
  snap_ReleaseVersions := [ {| rv_Version := "v1.0.0"; rv_Platforms := ["linux-amd64"] |} ] |}.

Definition options : BuildOptions := {|
  opt_TargetChainID := 1439; opt_Directory := address "a"; opt_Coordinator := address "b";
  opt_BatchSize := 0 |}.

(** The snapshot file; only its digest matters. *)
Definition raw : bytes := string_bytes "snapshot".

Lemma snapshot_valid : validateSnapshot snapshot = Ok tt.
Proof. vm_compute. reflexivity. Qed.

Lemma snapshot_is_typed : snapshot_typed snapshot.
Proof.
  constructor; repeat constructor; (vm_compute; (reflexivity || discriminate)) || idtac.
Qed.

Lemma raw_digest : sha256 raw <> zero_bytes 32.
Proof. vm_compute. discriminate. Qed.

(** The same records with the repositories and the refs listed in the other order. *)
Definition reordered : Snapshot := {|
  snap_Schema := SnapshotSchema; snap_Source := source; snap_ContractPolicy := policy;
  snap_Repositories := rev (snap_Repositories snapshot);
  snap_Aliases := snap_Aliases snapshot;
  snap_Refs := rev (snap_Refs snapshot);
  snap_Collaborators := snap_Collaborators snapshot;
  snap_GuardianConfigs := snap_GuardianConfigs snapshot;
  snap_Moderation := moderation; snap_Economic := economic; snap_Username := username;
  snap_Badges := [badge]; snap_BadgeIndexes := snap_BadgeIndexes snapshot;
  snap_Releases := [release]; snap_ReleaseVersions := snap_ReleaseVersions snapshot |}.

Lemma sample_plan : exists p, build_decoded_plan raw snapshot options = Ok p.
Proof. apply is_ok_spec. vm_compute. reflexivity. Qed.

Lemma sample_records : exists r, snapshotModuleRecords snapshot = Ok r.
Proof. apply is_ok_spec. vm_compute. reflexivity. Qed.

(** The first batch of the first module. *)
Definition first_batch : option (Plan * moduleSpec * ModulePlan * PlanBatch) :=
  match build_decoded_plan raw snapshot options with
  | Ok p =>
      match requiredModules !! 0%nat, plan_Modules p !! 0%nat with
      | Some spec, Some m =>
          match mp_Batches m !! 0%nat with
          | Some b => Some (p, spec, m, b)
          | None => None
          end
      | _, _ => None
      end
  | Err _ => None
  end.

Lemma sample_batch :
  exists p spec m b, build_decoded_plan raw snapshot options = Ok p /\
    requiredModules !! 0%nat = Some spec /\ plan_Modules p !! 0%nat = Some m /\
    mp_Batches m !! 0%nat = Some b.
Proof.
  assert (match first_batch with Some _ => true | None => false end = true) as H
    by (vm_compute; reflexivity).
  unfold first_batch in H. destruct (build_decoded_plan raw snapshot options) as [p|]; [|done].
  destruct (requiredModules !! 0%nat) as [spec|]; [|done].
  destruct (plan_Modules p !! 0%nat) as [m|] eqn:Em; [|done].
  destruct (mp_Batches m !! 0%nat) as [b|] eqn:Eb; [|done].
  by exists p, spec, m, b.
Qed.

Lemma sample_plan_valid p :
  build_decoded_plan raw snapshot options = Ok p -> ValidatePlan p = Ok tt.
Proof.
  intros Hp.
  assert (match build_decoded_plan raw snapshot options with
          | Ok p => is_ok (ValidatePlan p) | Err _ => true end = true) as H
    by (vm_compute; reflexivity).
  rewrite Hp in H. by destruct (ValidatePlan p) as [[]|].
Qed.

Lemma sample_batches_small p m :
  build_decoded_plan raw snapshot options = Ok p -> plan_Modules p !! 0%nat = Some m ->
  (llen (mp_Batches m) < 2 ^ 64)%Z.
Proof.
  intros Hp Hm.
  assert (match build_decoded_plan raw snapshot options with
          | Ok p => match plan_Modules p !! 0%nat with
                    | Some m => Z.ltb (llen (mp_Batches m)) (2 ^ 64)%Z | None => true end
          | Err _ => true end = true) as H by (vm_compute; reflexivity).
  rewrite Hp, Hm in H. by apply Z.ltb_lt.
Qed.

End Sample.
