(* ===== verification/Coordinator.v ===== *)
(** * The bootstrap coordinator on chain

    The contracts that the manifest's transactions call:
    [contracts/evm-v2/src/BootstrapCoordinator.sol] with the import half of
    [suite/SuiteModule.sol] and the activation of [SuiteDirectory.sol].  A
    revert is an error; [abi.encode] is the ABI encoding [abi_Pack].  The
    modules' own payload import is an operation of the class [ModuleImport]. *)
From Stdlib Require Import ZArith Lia.
From stdpp Require Import base list gmap strings.
From S2P Require Import Prelude GoText Geth Schema Codec Plan Manifest.

Local Open Scope Z_scope.

(** [_importPayload] of the deployed modules, [None] for a revert, the hook
    [_beforeBootstrapFinalized], and the registration of the modules in the
    directory. *)
Class ModuleImport := {
  importPayload : bytes -> bytes -> option Z;
  beforeFinalized : bytes -> bool;
  configured : bytes -> bool;
}.

Section Coordinator.
Context {GE : Geth} {MI : ModuleImport}.

(** ** State *)

(** [ModuleProgress] of the coordinator; a [SuiteModule] keeps the same fields
    about its own import. *)
Record progress := mk_progress {
  pr_started : bool;
  pr_finalized : bool;
  pr_expectedCount : Z;
  pr_expectedBatches : Z;
  pr_importedCount : Z;
  pr_nextSequence : Z;
  pr_expectedRoot : bytes;
  pr_rollingRoot : bytes;
}.

Definition no_progress : progress :=
  mk_progress false false 0 0 0 0 (zero_bytes 32) (zero_bytes 32).

Record suite := mk_suite {
  su_snapshotRoot : bytes;
  su_operator : bytes;
  su_nextModuleIndex : Z;
  su_evidence : bytes;            (* usernameEscrowEvidenceHash *)
  su_activated : bool;
  su_progress : bytes -> progress; (* moduleProgress, by module ID *)
  su_module : bytes -> progress;   (* the storage of the module with this ID *)
}.

Definition fresh_suite (snapshotRoot operator : bytes) : suite :=
  mk_suite snapshotRoot operator 0 (zero_bytes 32) false (fun _ => no_progress)
    (fun _ => no_progress).

Definition update (f : bytes -> progress) (id : bytes) (p : progress) : bytes -> progress :=
  fun x => if decide (x = id) then p else f x.

Definition set_module (s : suite) (id : bytes) (p m : progress) : suite :=
  mk_suite (su_snapshotRoot s) (su_operator s) (su_nextModuleIndex s) (su_evidence s)
    (su_activated s) (update (su_progress s) id p) (update (su_module s) id m).

(** ** Calls *)

Inductive call : Type :=
| BeginNextModule (id : bytes) (expectedCount expectedBatches : Z) (expectedRoot : bytes)
| ImportBatch (id : bytes) (sequence count : Z) (payloadHash payload : bytes)
| AttestUsernameEscrowReleased (evidenceHash : bytes)
| FinalizeCurrentModule (id : bytes)
| ActivateSuite.

(** Checked addition of [uint256]. *)
Definition checked_add (a b : Z) : result Z :=
  fail_if 2 ^ 256 <=? a + b as Errorf "Panic(0x11)" [] ;;
  Ok (a + b).

(** [SuiteDirectory.requiredModuleAt] *)
Definition requiredModuleAt (index : Z) : result bytes :=
  match requiredModules !! Z.to_nat index with
  | Some spec => Ok (spec_id spec)
  | None => errf "InvalidModuleId" []
  end.

Definition current_module (s : suite) (id : bytes) : result unit :=
  let? expectedId := requiredModuleAt (su_nextModuleIndex s) in
  fail_if negb (bool_decide (id = expectedId)) as Errorf "ModuleOrderMismatch" [] ;;
  Ok tt.

(** [SuiteModule.beginBootstrap] *)
Definition beginBootstrap (id : bytes) (m : progress) (expectedCount expectedBatches : Z)
    (expectedRoot snapshotRoot : bytes) : result progress :=
  fail_if pr_started m as Errorf "BootstrapAlreadyStarted" [] ;;
  fail_if bool_decide (expectedRoot = zero_bytes 32) || bool_decide (snapshotRoot = zero_bytes 32)
    as Errorf "InvalidImportRoot" [] ;;
  let? root := rollingSeed id snapshotRoot in
  Ok (mk_progress true (pr_finalized m) expectedCount expectedBatches (pr_importedCount m)
        (pr_nextSequence m) expectedRoot root).

Definition beginNextModule (s : suite) (id : bytes) (expectedCount expectedBatches : Z)
    (expectedRoot : bytes) : result suite :=
  check? current_module s id ;;
  fail_if negb (configured id) as Errorf "ModuleNotConfigured" [] ;;
  let p := su_progress s id in
  fail_if pr_started p as Errorf "ModuleAlreadyStarted" [] ;;
  let? root := rollingSeed id (su_snapshotRoot s) in
  let? m := beginBootstrap id (su_module s id) expectedCount expectedBatches expectedRoot
              (su_snapshotRoot s) in
  Ok (set_module s id
        (mk_progress true (pr_finalized p) expectedCount expectedBatches (pr_importedCount p)
           (pr_nextSequence p) expectedRoot root) m).

(** [SuiteModule.bootstrapImport]; the counters are [unchecked]. *)
Definition bootstrapImport (id : bytes) (m : progress) (sequence count : Z)
    (payloadHash payload : bytes) : result progress :=
  fail_if negb (pr_started m) as Errorf "BootstrapNotStarted" [] ;;
  fail_if pr_finalized m as Errorf "BootstrapAlreadyFinalized" [] ;;
  fail_if negb (sequence =? pr_nextSequence m) as Errorf "ImportSequenceMismatch" [] ;;
  fail_if (count =? 0) || (128 <? count) as Errorf "ImportBatchTooLarge" [] ;;
  fail_if (llen payload =? 0) || (96000 <? llen payload) as Errorf "ImportPayloadTooLarge" [] ;;
  fail_if negb (bool_decide (keccak256 payload = payloadHash))
    as Errorf "ImportPayloadHashMismatch" [] ;;
  match importPayload id payload with
  | None => errf "revert" []
  | Some actualCount =>
      fail_if negb (actualCount =? count) as Errorf "ImportCountMismatch" [] ;;
      let? root := rollingStep (pr_rollingRoot m) id sequence count payloadHash in
      let importedCount := (pr_importedCount m + count) mod 2 ^ 256 in
      let nextSequence := (sequence + 1) mod 2 ^ 256 in
      fail_if (pr_expectedCount m <? importedCount) || (pr_expectedBatches m <? nextSequence)
        as Errorf "ImportCountMismatch" [] ;;
      Ok (mk_progress (pr_started m) (pr_finalized m) (pr_expectedCount m)
            (pr_expectedBatches m) importedCount nextSequence (pr_expectedRoot m) root)
  end.

Definition importBatch (s : suite) (id : bytes) (sequence count : Z) (payloadHash payload : bytes)
  : result suite :=
  check? current_module s id ;;
  let p := su_progress s id in
  fail_if negb (pr_started p) as Errorf "ModuleNotStarted" [] ;;
  fail_if pr_finalized p as Errorf "ModuleAlreadyFinalized" [] ;;
  fail_if negb (sequence =? pr_nextSequence p) as Errorf "SequenceMismatch" [] ;;
  fail_if negb (bool_decide (keccak256 payload = payloadHash)) as Errorf "RootMismatch" [] ;;
  let? newCount := checked_add (pr_importedCount p) count in
  fail_if pr_expectedCount p <? newCount as Errorf "CountExceeded" [] ;;
  let? newSequence := checked_add sequence 1 in
  fail_if pr_expectedBatches p <? newSequence as Errorf "BatchCountExceeded" [] ;;
  let? m := bootstrapImport id (su_module s id) sequence count payloadHash payload in
  let? root := rollingStep (pr_rollingRoot p) id sequence count payloadHash in
  Ok (set_module s id
        (mk_progress (pr_started p) (pr_finalized p) (pr_expectedCount p) (pr_expectedBatches p)
           newCount newSequence (pr_expectedRoot p) root) m).

Definition attestUsernameEscrowReleased (s : suite) (evidenceHash : bytes) : result suite :=
  fail_if bool_decide (evidenceHash = zero_bytes 32)
    as Errorf "UsernameEscrowEvidenceRequired" [] ;;
  fail_if negb (bool_decide (su_evidence s = zero_bytes 32))
    as Errorf "UsernameEscrowEvidenceAlreadySet" [] ;;
  Ok (mk_suite (su_snapshotRoot s) (su_operator s) (su_nextModuleIndex s) evidenceHash
        (su_activated s) (su_progress s) (su_module s)).

(** [SuiteIds.USERNAME] *)
Definition username_id : bytes := keccak256 (string_bytes "igit.module.username").

(** The three comparisons of [finalizeCurrentModule] and [finalizeBootstrap]. *)
Definition import_complete (p : progress) : result unit :=
  fail_if negb (pr_importedCount p =? pr_expectedCount p) as Errorf "CountMismatch" [] ;;
  fail_if negb (pr_nextSequence p =? pr_expectedBatches p) as Errorf "BatchCountMismatch" [] ;;
  fail_if negb (bool_decide (pr_rollingRoot p = pr_expectedRoot p)) as Errorf "RootMismatch" [] ;;
  Ok tt.

Definition finalized_progress (p : progress) : progress :=
  mk_progress (pr_started p) true (pr_expectedCount p) (pr_expectedBatches p)
    (pr_importedCount p) (pr_nextSequence p) (pr_expectedRoot p) (pr_rollingRoot p).

(** [SuiteModule.finalizeBootstrap] *)
Definition finalizeBootstrap (id : bytes) (m : progress) : result progress :=
  fail_if negb (pr_started m) as Errorf "BootstrapNotStarted" [] ;;
  fail_if pr_finalized m as Errorf "BootstrapAlreadyFinalized" [] ;;
  check? import_complete m ;;
  fail_if negb (beforeFinalized id) as Errorf "revert" [] ;;
  Ok (finalized_progress m).

Definition finalizeCurrentModule (s : suite) (id : bytes) : result suite :=
  check? current_module s id ;;
  let p := su_progress s id in
  fail_if negb (pr_started p) as Errorf "ModuleNotStarted" [] ;;
  fail_if pr_finalized p as Errorf "ModuleAlreadyFinalized" [] ;;
  check? import_complete p ;;
  fail_if bool_decide (id = username_id) && bool_decide (su_evidence s = zero_bytes 32)
    as Errorf "UsernameEscrowEvidenceRequired" [] ;;
  let? m := finalizeBootstrap id (su_module s id) in
  let s' := set_module s id (finalized_progress p) m in
  Ok (mk_suite (su_snapshotRoot s') (su_operator s') (su_nextModuleIndex s + 1) (su_evidence s')
        (su_activated s') (su_progress s') (su_module s')).

Definition readyForActivation (s : suite) : bool :=
  negb (su_activated s) && (su_nextModuleIndex s =? 7) &&
  negb (bool_decide (su_evidence s = zero_bytes 32)).

(** [SuiteDirectory.activate]: every module registered and finalized. *)
Definition directory_activate (s : suite) : result unit :=
  check? forM (fun spec =>
    fail_if negb (configured (spec_id spec)) as Errorf "MissingModule" [] ;;
    fail_if negb (pr_finalized (su_module s (spec_id spec))) as Errorf "CoordinatorNotReady" [] ;;
    Ok tt) requiredModules ;;
  fail_if negb (readyForActivation s) as Errorf "CoordinatorNotReady" [] ;;
  Ok tt.

Definition activateSuite (s : suite) : result suite :=
  fail_if negb (readyForActivation s) as Errorf "ModulesIncomplete" [] ;;
  check? directory_activate s ;;
  Ok (mk_suite (su_snapshotRoot s) (su_operator s) (su_nextModuleIndex s) (su_evidence s) true
        (su_progress s) (su_module s)).

(** A call by [sender], behind the modifier [onlyOperator]. *)
Definition execute (sender : bytes) (s : suite) (c : call) : result suite :=
  fail_if negb (bool_decide (sender = su_operator s)) as Errorf "Unauthorized" [] ;;
  fail_if su_activated s as Errorf "SuiteAlreadyActivated" [] ;;
  match c with
  | BeginNextModule id count batches root => beginNextModule s id count batches root
  | ImportBatch id sequence count payloadHash payload =>
      importBatch s id sequence count payloadHash payload
  | AttestUsernameEscrowReleased evidenceHash => attestUsernameEscrowReleased s evidenceHash
  | FinalizeCurrentModule id => finalizeCurrentModule s id
  | ActivateSuite => activateSuite s
  end.

(** ** From calldata to calls *)

Definition call_of (method : abi_method) (values : list abi_value) : option call :=
  if decide (am_name method = "beginNextModule"%string) then
    match values with
    | [VBytes32 id; VUint count; VUint batches; VBytes32 root] =>
        Some (BeginNextModule id count batches root)
    | _ => None
    end
  else if decide (am_name method = "importBatch"%string) then
    match values with
    | [VBytes32 id; VUint sequence; VUint count; VBytes32 payloadHash; VBytes payload] =>
        Some (ImportBatch id sequence count payloadHash payload)
    | _ => None
    end
  else if decide (am_name method = "attestUsernameEscrowReleased"%string) then
    match values with [VBytes32 h] => Some (AttestUsernameEscrowReleased h) | _ => None end
  else if decide (am_name method = "finalizeCurrentModule"%string) then
    match values with [VBytes32 id] => Some (FinalizeCurrentModule id) | _ => None end
  else if decide (am_name method = "activateSuite"%string) then
    match values with [] => Some ActivateSuite | _ => None end
  else None.

End Coordinator.
