(* ===== verification/ManifestSpec.v ===== *)
(** * ManifestSpec: the calls that a manifest makes

    Building the manifest of a validated plan succeeds, and its calldata decodes
    to the intended coordinator calls, one transaction per call and in order. *)
From Stdlib Require Import ZArith Lia Ascii String.
From stdpp Require Import base list gmap strings.
From S2P Require Import Prelude GoText Encodings Geth Schema Codec Validators Snapshot Records Plan Manifest Acceptance Coordinator.

Local Open Scope Z_scope.

(** ** The intended calls *)

Section Calls.
Context {GE : Geth}.

Definition field_hash (value : string) : bytes := or_zero (zero_bytes 32) (parseHash "" value).

Definition batch_call (id : bytes) (b : PlanBatch) : call :=
  ImportBatch id (pb_Sequence b) (pb_Count b) (field_hash (pb_PayloadHash b))
    (or_zero [] (parseHexBytes "" (pb_Payload b))).

Definition module_calls (plan : Plan) (m : ModulePlan) : list call :=
  let id := field_hash (mp_ID m) in
  [BeginNextModule id (mp_ExpectedCount m) (mp_ExpectedBatches m)
     (field_hash (mp_ExpectedRoot m))] ++
  map (batch_call id) (mp_Batches m) ++
  (if decide (mp_Name m = "username"%string)
   then [AttestUsernameEscrowReleased (field_hash (plan_UsernameEscrowEvidenceHash plan))]
   else []) ++
  [FinalizeCurrentModule id].

Definition plan_calls (plan : Plan) : list call :=
  concat (map (module_calls plan) (plan_Modules plan)) ++ [ActivateSuite].

(** The plan fits in memory. *)
Definition plan_sized (plan : Plan) : Prop :=
  Forall (fun m => llen (mp_Batches m) < 2 ^ 40) (plan_Modules plan).

(** The selectors of a contract are distinct: the Solidity compiler rejects a
    contract for which they are not. *)
Definition selectors_distinct : Prop := NoDup (map selector coordinatorMethods).
End Calls.

Section ManifestSpec.
Context {GE : Geth} {GL : GethLaws} {MO : MapOrder} {PJ : PlanJSON}.

(** ** Calldata *)

Lemma length_selector m : length (selector m) = 4%nat.
Proof. unfold selector. rewrite length_take, length_keccak256. done. Qed.

Lemma MethodById_selector m :
  selectors_distinct -> m ∈ coordinatorMethods -> MethodById (selector m) = Ok m.
Proof.
  intros Hd Hm. unfold MethodById.
  destruct (list_find (fun x => selector x = selector m) (map_order coordinatorMethods))
    as [[i x]|] eqn:E.
  - apply list_find_Some in E as (Hx & Hsel & _). f_equal.
    apply list_elem_of_lookup_2 in Hx. rewrite map_order_perm in Hx.
    unfold selectors_distinct in Hd. revert Hd Hm Hx Hsel. generalize coordinatorMethods. clear.
    intros l Hd Hm Hx Hsel. induction l as [|y l IH]; [by apply elem_of_nil in Hm|].
    simpl in Hd. apply NoDup_cons in Hd as [Hy Hd].
    apply elem_of_cons in Hm as [->|Hm], Hx as [->|Hx]; try done.
    + destruct Hy. rewrite <- Hsel. by apply list_elem_of_fmap_2.
    + destruct Hy. rewrite Hsel. by apply list_elem_of_fmap_2.
    + by apply IH.
  - apply list_find_None in E. rewrite Forall_forall in E. exfalso. apply (E m); [|done].
    by rewrite map_order_perm.
Qed.

(** Calldata packed for a method decodes to the method and the arguments. *)
Lemma calldata_roundtrip m args arguments :
  selectors_distinct -> m ∈ coordinatorMethods -> have_types (am_inputs m) args = true ->
  abi_Pack (am_inputs m) args = Ok arguments ->
  calldataMethod (hexBytes (selector m ++ arguments)) = Ok (m, args).
Proof.
  intros Hd Hm Ht Hp. unfold calldataMethod.
  rewrite (proj2 (parseHexBytes_spec "transaction calldata" _ (selector m ++ arguments))) by done.
  rewrite llen_app. pose proof (length_selector m) as Hl. pose proof (llen_nonneg arguments).
  unfold llen at 1. rewrite Hl, (proj2 (Z.ltb_ge _ _)) by lia.
  rewrite take_app_length', drop_app_length' by done.
  rewrite MethodById_selector, (Unpack_Pack _ _ _ Ht Hp), canonical_packed by done. done.
Qed.

(** ** Transactions *)

(** [tx] is the canonical transaction for the call [c]. *)
Definition emits (plan : Plan) (tx : ManifestTransaction) (c : call) : Prop :=
  exists m args, calldataMethod (tx_Data tx) = Ok (m, args) /\ call_of m args = Some c /\
    tx_Function tx = am_sig m /\ tx_To tx = tgt_Coordinator (plan_Target plan) /\
    tx_Value tx = "0x0"%string.

(** The transactions so far make the calls [calls], numbered from 0. *)
Definition emitted (plan : Plan) (txs : list ManifestTransaction) (calls : list call) : Prop :=
  Forall2 (emits plan) txs calls /\
  forall i tx, txs !! i = Some tx -> tx_Order tx = Z.of_nat i.

Lemma emitted_snoc plan txs calls tx c :
  emitted plan txs calls -> emits plan tx c -> tx_Order tx = llen txs ->
  emitted plan (txs ++ [tx]) (calls ++ [c]).
Proof.
  intros [Hf Ho] He Hord. split; [apply Forall2_app; [done|by constructor]|].
  intros i tx' [Hi|[Hi Hx]]%lookup_app_Some; [by apply Ho|].
  apply list_lookup_singleton_Some in Hx as [Hx <-]. rewrite Hord. unfold llen. lia.
Qed.

Lemma append_emits plan module seq phase name event args m c txs calls :
  selectors_distinct -> emitted plan txs calls ->
  method_named name = Some m -> m ∈ coordinatorMethods ->
  have_types (am_inputs m) args = true -> call_of m args = Some c ->
  exists txs', appendTransaction plan module seq phase name event args txs = Ok txs' /\
    emitted plan txs' (calls ++ [c]).
Proof.
  intros Hd Hem Hname Hin Ht Hc. unfold appendTransaction, coordinator_Pack. rewrite Hname.
  destruct (Pack_typed _ _ Ht) as [arguments Hp]. rewrite Hp. cbn [wrapf].
  eexists. split; [reflexivity|]. apply emitted_snoc; [done| |done].
  exists m, args. split_and!; try done. by apply calldata_roundtrip.
Qed.

(** ** What the plan validation gives each module *)

Record module_facts (plan : Plan) (snapshotRoot : bytes) (i : nat) (spec : moduleSpec)
    (m : ModulePlan) (st0 st : batch_state) : Prop := {
  mf_name : mp_Name m = spec_name spec;
  mf_id : field_hash (mp_ID m) = spec_id spec;
  mf_length : length (spec_id spec) = 32%nat;
  mf_seed : rollingSeed (spec_id spec) snapshotRoot = Ok (bs_root st0);
  mf_start : bs_count st0 = 0;
  mf_check : foldMi (check_batch plan spec m) 0 (mp_Batches m) st0 = Ok st;
  mf_root : field_hash (mp_ExpectedRoot m) = bs_root st;
  mf_root_length : length (bs_root st) = 32%nat;
  mf_count : mp_ExpectedCount m = bs_count st;
  mf_batches : mp_ExpectedBatches m = u64 (llen (mp_Batches m));
}.

Lemma field_hash_text h : length h = 32%nat -> field_hash (hexBytes h) = h.
Proof. intros Hl. unfold field_hash. by rewrite (proj2 (parseHash_spec "" _ h)). Qed.

Lemma field_hash_label label value : or_zero (zero_bytes 32) (parseHash label value) = field_hash value.
Proof.
  unfold field_hash, parseHash. unfold parseHexBytes.
  destruct (_ || _); [done|]. destruct (hex_decode _); [|done]. by destruct (negb _).
Qed.

Lemma payload_label label value :
  or_zero [] (parseHexBytes label value) = or_zero [] (parseHexBytes "" value).
Proof.
  unfold parseHexBytes. destruct (_ || _); [done|]. by destruct (hex_decode _).
Qed.

Lemma validated_module_facts plan :
  ValidatePlan plan = Ok tt ->
  exists snapshotRoot, parseHash "snapshot root" (ps_Root (plan_Snapshot plan)) = Ok snapshotRoot /\
    length (plan_Modules plan) = 7%nat /\
    forall i spec m, requiredModules !! i = Some spec -> plan_Modules plan !! i = Some m ->
      exists st0 st, module_facts plan snapshotRoot i spec m st0 st.
Proof.
  intros Hv. destruct (ValidatePlan_modules plan Hv) as (root & Hp & Hlen & _ & Hall).
  exists root. split; [done|]. split; [done|]. intros i spec m Hs Hm.
  destruct (Hall i spec m Hs Hm) as (t & t' & Hc).
  apply check_module_inv in Hc as (_ & Hn & Hid & Hb & seed & st0 & st & Hsd & H0 & Hc0 & Hf & Hr & Hcnt).
  assert (length (spec_id spec) = 32%nat) as Hl by (by eapply spec_id_length, list_elem_of_lookup_2).
  assert (length (bs_root st) = 32%nat) as Hlr.
  { eapply check_batches_length; [|exact Hf]. rewrite H0. by eapply length_rollingSeed. }
  exists st0, st. constructor; try done.
  - rewrite Hid, HashHex_spec by done. fold (hexBytes (spec_id spec)).
    rewrite hexBytes_lower. by apply field_hash_text.
  - by rewrite H0.
  - rewrite Hr, HashHex_spec by done. by apply field_hash_text.
Qed.

(** ** The transactions of a plan *)

Lemma length_field_hash v : length (field_hash v) = 32%nat.
Proof.
  unfold field_hash. destruct (parseHash "" v) as [h|] eqn:E; [|done].
  by apply parseHash_spec in E as [_ ?].
Qed.

Lemma hash_value v : has_type TBytes32 (VBytes32 (field_hash v)) = true.
Proof. simpl. by rewrite length_field_hash. Qed.

Lemma uint256_value n : is_u64 n -> has_type (TUint 256) (VUint n) = true.
Proof.
  intros [H1 H2]. cbn -[Z.pow]. apply andb_true_iff. rewrite Z.leb_le, Z.ltb_lt.
  assert (2 ^ 64 < 2 ^ 256) by (apply Z.pow_lt_mono_r; lia). lia.
Qed.

Lemma method_in name m : method_named name = Some m -> m ∈ coordinatorMethods.
Proof.
  unfold method_named. destruct (list_find _ _) as [[i x]|] eqn:E; [|done]. intros [= <-].
  apply list_find_Some in E as (Hx & _). by eapply list_elem_of_lookup_2.
Qed.

(** One lemma per method: the transaction is appended and makes the call. *)
Ltac typed_args :=
  cbn [am_inputs have_types];
  repeat match goal with
  | |- context [has_type (TUint 256) (VUint _)] => rewrite uint256_value by assumption
  | |- context [has_type TBytes32 (VBytes32 (field_hash _))] => rewrite hash_value
  end; simpl; rewrite ?length_field_hash.

Lemma emit_begin plan module seq phase event id count batches root txs calls :
  selectors_distinct -> emitted plan txs calls ->
  is_u64 count -> is_u64 batches ->
  exists txs', appendTransaction plan module seq phase "beginNextModule" event
      [VBytes32 (field_hash id); VUint count; VUint batches; VBytes32 (field_hash root)] txs = Ok txs' /\
    emitted plan txs' (calls ++ [BeginNextModule (field_hash id) count batches (field_hash root)]).
Proof.
  intros Hd Hem. intros. destruct (method_named "beginNextModule") as [m|] eqn:Em; [|done].
  eapply (append_emits _ _ _ _ _ _ _ m); try done.
  - by eapply method_in.
  - injection Em as <-. by typed_args.
  - by injection Em as <-.
Qed.

Lemma emit_import plan module seq phase event id s c h payload txs calls :
  selectors_distinct -> emitted plan txs calls ->
  is_u64 s -> is_u64 c ->
  exists txs', appendTransaction plan module seq phase "importBatch" event
      [VBytes32 (field_hash id); VUint s; VUint c; VBytes32 (field_hash h); VBytes payload] txs = Ok txs' /\
    emitted plan txs' (calls ++ [ImportBatch (field_hash id) s c (field_hash h) payload]).
Proof.
  intros Hd Hem. intros. destruct (method_named "importBatch") as [m|] eqn:Em; [|done].
  eapply (append_emits _ _ _ _ _ _ _ m); try done.
  - by eapply method_in.
  - injection Em as <-. by typed_args.
  - by injection Em as <-.
Qed.

Lemma emit_attest plan module seq phase event h txs calls :
  selectors_distinct -> emitted plan txs calls ->
  exists txs', appendTransaction plan module seq phase "attestUsernameEscrowReleased" event
      [VBytes32 (field_hash h)] txs = Ok txs' /\
    emitted plan txs' (calls ++ [AttestUsernameEscrowReleased (field_hash h)]).
Proof.
  intros Hd Hem. intros. destruct (method_named "attestUsernameEscrowReleased") as [m|] eqn:Em; [|done].
  eapply (append_emits _ _ _ _ _ _ _ m); try done.
  - by eapply method_in.
  - injection Em as <-. by typed_args.
  - by injection Em as <-.
Qed.

Lemma emit_finalize plan module seq phase event id txs calls :
  selectors_distinct -> emitted plan txs calls ->
  exists txs', appendTransaction plan module seq phase "finalizeCurrentModule" event
      [VBytes32 (field_hash id)] txs = Ok txs' /\
    emitted plan txs' (calls ++ [FinalizeCurrentModule (field_hash id)]).
Proof.
  intros Hd Hem. intros. destruct (method_named "finalizeCurrentModule") as [m|] eqn:Em; [|done].
  eapply (append_emits _ _ _ _ _ _ _ m); try done.
  - by eapply method_in.
  - injection Em as <-. by typed_args.
  - by injection Em as <-.
Qed.

Lemma emit_activate plan module seq phase event  txs calls :
  selectors_distinct -> emitted plan txs calls ->
  exists txs', appendTransaction plan module seq phase "activateSuite" event
      [] txs = Ok txs' /\
    emitted plan txs' (calls ++ [ActivateSuite]).
Proof.
  intros Hd Hem. intros. destruct (method_named "activateSuite") as [m|] eqn:Em; [|done].
  eapply (append_emits _ _ _ _ _ _ _ m); try done.
  - by eapply method_in.
  - injection Em as <-. by typed_args.
  - by injection Em as <-.
Qed.

Lemma batch_facts plan snapshotRoot i spec m st0 st b :
  module_facts plan snapshotRoot i spec m st0 st -> llen (mp_Batches m) < 2 ^ 40 ->
  b ∈ mp_Batches m -> is_u64 (pb_Sequence b) /\ is_u64 (pb_Count b).
Proof.
  intros Hm Hl [j Hj]%list_elem_of_lookup.
  destruct (foldMi_lookup _ _ _ _ _ j b (mf_check _ _ _ _ _ _ _ Hm) Hj) as (s1 & s2 & Hc).
  apply check_batch_inv in Hc as (p & Hb & _).
  pose proof (ba_count _ _ _ _ _ _ _ _ Hb). pose proof (ba_sequence _ _ _ _ _ _ _ _ Hb).
  apply lookup_lt_Some in Hj. unfold llen, MaximumBatchItems, is_u64 in *. lia.
Qed.

Lemma batch_txs plan m id batches txs calls :
  selectors_distinct -> emitted plan txs calls ->
  Forall (fun b => is_u64 (pb_Sequence b) /\ is_u64 (pb_Count b)) batches ->
  exists txs', foldM (append_batch_tx plan m (field_hash id)) batches txs = Ok txs' /\
    emitted plan txs' (calls ++ map (batch_call (field_hash id)) batches).
Proof.
  intros Hd Hem Hb. revert txs calls Hem.
  induction Hb as [|b batches [Hs Hc] Hb IH]; intros txs calls Hem.
  - exists txs. by rewrite app_nil_r.
  - cbn [foldM map]. unfold append_batch_tx at 1.
    rewrite field_hash_label, payload_label.
    destruct (emit_import plan (Some m) (Some (pb_Sequence b)) "import_batch" "ModuleBatchImported"
      id (pb_Sequence b) (pb_Count b) (pb_PayloadHash b)
      (or_zero [] (parseHexBytes "" (pb_Payload b))) _ _ Hd Hem Hs Hc) as (txs1 & -> & He1).
    destruct (IH _ _ He1) as (txs2 & Hf & He2). exists txs2. split; [done|].
    by rewrite <- app_assoc in He2.
Qed.

(** The attestation that follows the batches of the username module. *)
Definition attest_calls (plan : Plan) (m : ModulePlan) : list call :=
  if decide (mp_Name m = "username"%string)
  then [AttestUsernameEscrowReleased (field_hash (plan_UsernameEscrowEvidenceHash plan))]
  else [].

Lemma attest_tx plan m txs calls :
  selectors_distinct -> emitted plan txs calls ->
  exists txs', (if decide (mp_Name m = "username"%string) then
      appendTransaction plan (Some m) None "attest_username_escrow" "attestUsernameEscrowReleased"
        "UsernameEscrowReleaseAttested"
        [VBytes32 (field_hash (plan_UsernameEscrowEvidenceHash plan))] txs
    else Ok txs) = Ok txs' /\ emitted plan txs' (calls ++ attest_calls plan m).
Proof.
  intros Hd Hem. unfold attest_calls. case_decide.
  - by apply emit_attest.
  - exists txs. by rewrite app_nil_r.
Qed.

Lemma module_txs plan snapshotRoot i spec m st0 st txs calls :
  selectors_distinct -> module_facts plan snapshotRoot i spec m st0 st ->
  llen (mp_Batches m) < 2 ^ 40 -> emitted plan txs calls ->
  exists txs', append_module_txs plan txs m = Ok txs' /\
    emitted plan txs' (calls ++ module_calls plan m).
Proof.
  intros Hd Hm Hl Hem. unfold append_module_txs. rewrite !field_hash_label.
  assert (is_u64 (mp_ExpectedCount m)) as Hcount.
  { rewrite (mf_count _ _ _ _ _ _ _ Hm). eapply check_batches_count; [|apply (mf_check _ _ _ _ _ _ _ Hm)].
    rewrite (mf_start _ _ _ _ _ _ _ Hm). done. }
  assert (is_u64 (mp_ExpectedBatches m)) as Hbatches
    by (rewrite (mf_batches _ _ _ _ _ _ _ Hm); apply u64_range).
  destruct (emit_begin plan (Some m) None "begin_module" "ModuleImportStarted" (mp_ID m) _ _
    (mp_ExpectedRoot m) _ _ Hd Hem Hcount Hbatches) as (txs1 & -> & He1).
  destruct (batch_txs plan m (mp_ID m) (mp_Batches m) _ _ Hd He1) as (txs2 & -> & He2).
  { apply Forall_forall; intros b Hb; by eapply batch_facts. }
  destruct (attest_tx plan m _ _ Hd He2) as (txs3 & -> & He3).
  destruct (emit_finalize plan (Some m) None "finalize_module" "ModuleImportFinalized" (mp_ID m)
    _ _ Hd He3) as (txs4 & -> & He4).
  exists txs4. split; [done|]. unfold module_calls. fold (attest_calls plan m).
  rewrite <- !app_assoc in He4. exact He4.
Qed.

Lemma modules_txs plan ms txs calls :
  selectors_distinct -> emitted plan txs calls ->
  Forall (fun m => exists r i spec st0 st, module_facts plan r i spec m st0 st /\
    llen (mp_Batches m) < 2 ^ 40) ms ->
  exists txs', foldM (append_module_txs plan) ms txs = Ok txs' /\
    emitted plan txs' (calls ++ concat (map (module_calls plan) ms)).
Proof.
  intros Hd Hem Hms. revert txs calls Hem.
  induction Hms as [|m ms (r & i & spec & st0 & st & Hm & Hl) Hms IH]; intros txs calls Hem.
  - exists txs. by rewrite app_nil_r.
  - cbn [foldM map concat]. destruct (module_txs _ _ _ _ _ _ _ _ _ Hd Hm Hl Hem) as (txs1 & -> & He1).
    destruct (IH _ _ He1) as (txs2 & Hf & He2). exists txs2. split; [done|].
    by rewrite <- app_assoc in He2.
Qed.

(** The transactions are built, and make the intended calls. *)
Lemma manifest_transactions_spec plan :
  selectors_distinct -> ValidatePlan plan = Ok tt -> plan_sized plan ->
  exists txs, manifest_transactions plan = Ok txs /\ emitted plan txs (plan_calls plan).
Proof.
  intros Hd Hv Hsz. destruct (validated_module_facts plan Hv) as (root & _ & Hlen & Hall).
  unfold manifest_transactions.
  destruct (modules_txs plan (plan_Modules plan) [] []) as (txs & -> & He); [done|by split; [constructor|]| |].
  { apply Forall_forall. intros m Hm. pose proof Hsz as Hsz'. unfold plan_sized in Hsz'.
    rewrite Forall_forall in Hsz'. apply list_elem_of_lookup in Hm as [i Hi].
    assert (is_Some (requiredModules !! i)) as [spec Hs].
    { apply lookup_lt_is_Some. apply lookup_lt_Some in Hi. simpl. lia. }
    destruct (Hall i spec m Hs Hi) as (st0 & st & Hf). exists root, i, spec, st0, st.
    split; [done|]. apply Hsz'. by eapply list_elem_of_lookup_2. }
  destruct (emit_activate plan None None "activate_suite" "SuiteActivationRequested" _ _ Hd He)
    as (txs' & -> & He'). by exists txs'.
Qed.

Lemma check_transactions plan txs calls :
  emitted plan txs calls -> foldMi (check_transaction plan) 0 txs tt = Ok tt.
Proof.
  intros [Hf Ho].
  enough (forall i, (forall j tx, txs !! j = Some tx -> tx_Order tx = i + Z.of_nat j) ->
    foldMi (check_transaction plan) i txs tt = Ok tt) as H.
  { apply H. intros j tx Hj. rewrite (Ho j tx Hj). lia. }
  clear Ho. induction Hf as [|tx c txs calls (m & args & Hd & _ & Hfn & Hto & Hval) Hf IH];
    intros i Hord; [done|].
  cbn [foldMi]. unfold check_transaction at 1. rewrite Hd. cbn [wrapf].
  rewrite (Hord 0%nat tx eq_refl), Hfn, Hto, Hval, Z.add_0_r, Z.eqb_refl.
  rewrite !(bool_decide_eq_true_2 (_ = _)) by done. cbn [negb orb].
  apply IH. intros j tx' Hj. rewrite (Hord (S j) tx' Hj). lia.
Qed.

(** ** The number of transactions *)

Lemma check_modules_batchCount plan root i specs ms t t' :
  length specs = length ms -> mt_batchCount t + sum_batches ms < 2 ^ 63 -> 0 <= mt_batchCount t ->
  foldMi (check_module plan root) i (zip specs ms) t = Ok t' ->
  mt_batchCount t' = mt_batchCount t + sum_batches ms.
Proof.
  revert i ms t. induction specs as [|spec specs IH]; intros i [|m ms] t Hl Hlt Hnn Hf; try done.
  - injection Hf as <-. simpl. lia.
  - cbn [zip zip_with foldMi] in Hf. apply bind_ok in Hf as (t1 & Hc & Hf).
    cbn [sum_batches foldr] in Hlt. fold (sum_batches ms) in Hlt.
    pose proof (sum_batches_nonneg ms). pose proof (llen_nonneg (mp_Batches m)).
    assert (mt_batchCount t1 = mt_batchCount t + llen (mp_Batches m)) as Ht1.
    { unfold check_module in Hc. go_inv Hc. subst t1. cbn [mt_batchCount]. apply i64_small. lia. }
    apply IH in Hf; [|by injection Hl|lia|lia].
    cbn [sum_batches foldr]. fold (sum_batches ms). lia.
Qed.

Lemma sum_batches_sized plan :
  plan_sized plan -> length (plan_Modules plan) = 7%nat ->
  sum_batches (plan_Modules plan) < 2 ^ 43.
Proof.
  unfold plan_sized. intros Hsz Hlen.
  enough (sum_batches (plan_Modules plan) <= 2 ^ 40 * llen (plan_Modules plan)) as Hle.
  { unfold llen in Hle. rewrite Hlen in Hle. lia. }
  clear Hlen. induction Hsz as [|m ms Hm Hms IH]; [done|]. rewrite llen_cons.
  cbn [sum_batches foldr]. fold (sum_batches ms). lia.
Qed.

Lemma validated_transaction_count plan :
  ValidatePlan plan = Ok tt -> plan_sized plan ->
  sum_TransactionCount (plan_Summary plan) = 16 + sum_batches (plan_Modules plan).
Proof.
  intros Hv Hsz. destruct (ValidatePlan_modules plan Hv) as (_ & _ & Hlen & _).
  pose proof (sum_batches_sized plan Hsz Hlen). pose proof (sum_batches_nonneg (plan_Modules plan)).
  unfold ValidatePlan in Hv. apply bind_ok in Hv as (root & _ & Hv).
  apply bind_ok in Hv as (? & _ & Hv). apply bind_ok in Hv as (t & Hf & Hv).
  apply check_modules_batchCount in Hf; [|by rewrite Hlen|simpl; lia|done].
  cbn [mt_batchCount] in Hf. unfold check_summary in Hv. apply guard_ok in Hv as [Hg _].
  bool_prop. unfold RequiredModuleCount in *.
  match goal with Hs : sum_TransactionCount _ = i64 _ |- _ => rewrite Hs, Hf end.
  rewrite i64_small; lia.
Qed.

Lemma length_module_calls plan m :
  length (module_calls plan m) =
  (2 + length (mp_Batches m) + if decide (mp_Name m = "username"%string) then 1 else 0)%nat.
Proof.
  unfold module_calls. rewrite !length_app, length_map. case_decide; simpl; lia.
Qed.

Lemma length_plan_calls plan :
  length (plan_Modules plan) = 7%nat ->
  (forall i spec m, requiredModules !! i = Some spec -> plan_Modules plan !! i = Some m ->
     mp_Name m = spec_name spec) ->
  llen (plan_calls plan) = 16 + sum_batches (plan_Modules plan).
Proof.
  intros Hlen Hn. unfold plan_calls.
  destruct (plan_Modules plan) as [|m0 [|m1 [|m2 [|m3 [|m4 [|m5 [|m6 [|]]]]]]]]; try done.
  pose proof (Hn 0%nat _ _ eq_refl eq_refl) as N0. pose proof (Hn 1%nat _ _ eq_refl eq_refl) as N1.
  pose proof (Hn 2%nat _ _ eq_refl eq_refl) as N2. pose proof (Hn 3%nat _ _ eq_refl eq_refl) as N3.
  pose proof (Hn 4%nat _ _ eq_refl eq_refl) as N4. pose proof (Hn 5%nat _ _ eq_refl eq_refl) as N5.
  pose proof (Hn 6%nat _ _ eq_refl eq_refl) as N6. cbn [mk_spec spec_name] in *.
  rewrite llen_app. cbn [map concat]. unfold llen. rewrite !length_app, !length_module_calls.
  rewrite N0, N1, N2, N3, N4, N5, N6.
  repeat first [rewrite decide_False by done | rewrite decide_True by done].
  cbn [sum_batches foldr length]. unfold llen. lia.
Qed.

Lemma build_manifest plan :
  selectors_distinct -> ValidatePlan plan = Ok tt -> plan_sized plan ->
  exists manifest, BuildCalldataManifest plan = Ok manifest /\
    emitted plan (man_Transactions manifest) (plan_calls plan).
Proof.
  intros Hd Hv Hsz. destruct (manifest_transactions_spec plan Hd Hv Hsz) as (txs & Ht & He).
  destruct (validated_module_facts plan Hv) as (root & _ & Hlen & Hall).
  unfold BuildCalldataManifest, PlanSHA256, MarshalPlan. rewrite Hv, Ht. cbn [wrapf].
  assert (llen txs = sum_TransactionCount (plan_Summary plan)) as ->.
  { rewrite (validated_transaction_count plan Hv Hsz), <- length_plan_calls; [|done|].
    - destruct He as [Hf _]. unfold llen. by rewrite (Forall2_length _ _ _ Hf).
    - intros i spec m Hs Hm. destruct (Hall i spec m Hs Hm) as (st0 & st & Hf). apply Hf. }
  rewrite Z.eqb_refl, (check_transactions plan txs _ He). cbn [negb].
  by eexists.
Qed.

End ManifestSpec.
