(* ===== verification/CoordinatorSpec.v ===== *)
(** * CoordinatorSpec: replaying a manifest activates the suite

    The calls of a manifest, executed in order on a freshly deployed
    coordinator, all succeed, finalize the seven modules at their expected
    counts and roots and activate the suite. *)
From Stdlib Require Import ZArith Lia Ascii String.
From stdpp Require Import base list gmap strings.
From S2P Require Import Prelude GoText Encodings Geth Schema Codec Validators Snapshot Records Plan Manifest Acceptance Coordinator ManifestSpec.

Local Open Scope Z_scope.

Section CoordinatorSpec.
Context {GE : Geth} {GL : GethLaws} {MO : MapOrder} {PJ : PlanJSON} {MI : ModuleImport}.

Definition sum_counts (batches : list PlanBatch) : Z :=
  foldr (fun b n => pb_Count b + n) 0 batches.

(** What the deployment must provide for the plan: the modules are registered,
    accept the payloads with the counts the plan states and have nothing against
    their finalization, and no expected root is the zero hash. *)
Definition deployment_accepts (plan : Plan) : Prop :=
  forall i spec m, requiredModules !! i = Some spec -> plan_Modules plan !! i = Some m ->
    configured (spec_id spec) = true /\ beforeFinalized (spec_id spec) = true /\
    field_hash (mp_ExpectedRoot m) <> zero_bytes 32 /\
    forall b, b ∈ mp_Batches m ->
      importPayload (spec_id spec) (or_zero [] (parseHexBytes "" (pb_Payload b)))
        = Some (pb_Count b).

(** ** Frames *)

(** [s'] differs from [s] in the entries of [id] only. *)
Record frame (id : bytes) (s s' : suite) : Prop := {
  fr_root : su_snapshotRoot s' = su_snapshotRoot s;
  fr_operator : su_operator s' = su_operator s;
  fr_next : su_nextModuleIndex s' = su_nextModuleIndex s;
  fr_evidence : su_evidence s' = su_evidence s;
  fr_activated : su_activated s' = su_activated s;
  fr_progress : forall x, x <> id -> su_progress s' x = su_progress s x;
  fr_module : forall x, x <> id -> su_module s' x = su_module s x;
}.

Lemma frame_refl id s : frame id s s.
Proof. by constructor. Qed.

Lemma frame_trans id s1 s2 s3 : frame id s1 s2 -> frame id s2 s3 -> frame id s1 s3.
Proof.
  intros H1 H2.
  constructor; [rewrite (fr_root _ _ _ H2); apply H1|rewrite (fr_operator _ _ _ H2); apply H1
    |rewrite (fr_next _ _ _ H2); apply H1|rewrite (fr_evidence _ _ _ H2); apply H1
    |rewrite (fr_activated _ _ _ H2); apply H1|..]; intros x Hx.
  - rewrite (fr_progress _ _ _ H2) by done. by apply H1.
  - rewrite (fr_module _ _ _ H2) by done. by apply H1.
Qed.

Lemma update_eq f id p : update f id p id = p.
Proof. unfold update. by rewrite decide_True. Qed.
Lemma update_ne f id p x : x <> id -> update f id p x = f x.
Proof. intros. unfold update. by rewrite decide_False. Qed.

Lemma frame_set_module id s p m : frame id s (set_module s id p m).
Proof. constructor; try done; intros x Hx; by apply update_ne. Qed.

(** Both the coordinator and the module [id] have imported [count] records in
    [seq] batches, up to [root]. *)
Definition importing (s : suite) (id : bytes) (E B : Z) (R : bytes) (count seq : Z) (root : bytes)
  : Prop :=
  su_progress s id = mk_progress true false E B count seq R root /\
  su_module s id = mk_progress true false E B count seq R root.

(** ** Batches *)

Lemma exec_batch op s id E B R count seq root b root' payload :
  su_operator s = op -> su_activated s = false -> current_module s id = Ok tt ->
  importing s id E B R count seq root ->
  pb_Sequence b = seq -> 0 < pb_Count b <= 128 -> 0 <= count -> 0 <= seq ->
  count + pb_Count b <= E -> seq + 1 <= B -> E < 2 ^ 64 -> B < 2 ^ 64 ->
  or_zero [] (parseHexBytes "" (pb_Payload b)) = payload ->
  0 < llen payload <= 96000 -> field_hash (pb_PayloadHash b) = keccak256 payload ->
  importPayload id payload = Some (pb_Count b) ->
  rollingStep root id seq (pb_Count b) (keccak256 payload) = Ok root' ->
  exists s', execute op s (batch_call id b) = Ok s' /\ frame id s s' /\
    importing s' id E B R (count + pb_Count b) (seq + 1) root'.
Proof.
  intros Hop Hact Hcur [Hp Hm] Hseq Hc Hc0 Hs0 HE HB HE64 HB64 Hpay Hlen Hhash Himp Hstep.
  unfold execute, batch_call. rewrite Hop, Hact, bool_decide_eq_true_2 by done. cbn [negb].
  unfold importBatch. rewrite Hcur, Hp. cbn [pr_started pr_finalized pr_nextSequence
    pr_importedCount pr_expectedCount pr_expectedBatches pr_expectedRoot pr_rollingRoot negb].
  rewrite Hpay, Hhash, Hseq, Z.eqb_refl, bool_decide_eq_true_2 by done. cbn [negb].
  assert (2 ^ 64 < 2 ^ 256) by (apply Z.pow_lt_mono_r; lia).
  unfold checked_add. rewrite !(proj2 (Z.leb_gt _ _)) by lia.
  rewrite !(proj2 (Z.ltb_ge _ _)) by lia.
  unfold bootstrapImport. rewrite Hm. cbn [pr_started pr_finalized pr_nextSequence
    pr_importedCount pr_expectedCount pr_expectedBatches pr_expectedRoot pr_rollingRoot negb].
  rewrite Z.eqb_refl, !(proj2 (Z.eqb_neq _ 0)), !(proj2 (Z.ltb_ge _ _)) by lia.
  rewrite bool_decide_eq_true_2, Himp, Z.eqb_refl, Hstep by done. cbn [negb orb].
  rewrite !Z.mod_small, !(proj2 (Z.ltb_ge _ _)) by lia. cbn [orb].
  eexists. split; [reflexivity|]. split; [apply frame_set_module|].
  split; unfold set_module; cbn [su_progress su_module]; apply update_eq.
Qed.

Lemma current_module_frame id s s' : frame id s s' -> current_module s' id = current_module s id.
Proof. intros H. unfold current_module. by rewrite (fr_next _ _ _ H). Qed.

Lemma check_batches_counts plan spec m seq batches st st' :
  foldMi (check_batch plan spec m) seq batches st = Ok st' -> 0 <= sum_counts batches.
Proof.
  revert seq st. induction batches as [|b batches IH]; intros seq st Hf; [done|].
  cbn [foldMi] in Hf. apply bind_ok in Hf as (st1 & Hc & Hf).
  apply check_batch_inv in Hc as (payload & Hb & _).
  pose proof (ba_count _ _ _ _ _ _ _ _ Hb). apply IH in Hf.
  cbn [sum_counts foldr]. fold (sum_counts batches). lia.
Qed.

Lemma check_batches_max plan spec m seq batches st st' :
  foldMi (check_batch plan spec m) seq batches st = Ok st' ->
  sum_counts batches <= 128 * llen batches.
Proof.
  revert seq st. induction batches as [|b batches IH]; intros seq st Hf; [done|].
  cbn [foldMi] in Hf. apply bind_ok in Hf as (st1 & Hc & Hf).
  apply check_batch_inv in Hc as (payload & Hb & _).
  pose proof (ba_count _ _ _ _ _ _ _ _ Hb). unfold MaximumBatchItems in *. apply IH in Hf.
  rewrite llen_cons. cbn [sum_counts foldr]. fold (sum_counts batches). lia.
Qed.

Lemma check_batches_total plan spec m seq batches st st' :
  foldMi (check_batch plan spec m) seq batches st = Ok st' ->
  0 <= bs_count st -> bs_count st + sum_counts batches < 2 ^ 64 ->
  bs_count st' = bs_count st + sum_counts batches.
Proof.
  revert seq st. induction batches as [|b batches IH]; intros seq st Hf H0 Hlt.
  - injection Hf as <-. simpl. lia.
  - cbn [foldMi] in Hf. apply bind_ok in Hf as (st1 & Hc & Hf).
    apply check_batch_inv in Hc as (payload & Hb & Hc1 & _).
    pose proof (ba_count _ _ _ _ _ _ _ _ Hb). pose proof (check_batches_counts _ _ _ _ _ _ _ Hf).
    cbn [sum_counts foldr] in *. fold (sum_counts batches) in *.
    rewrite u64_small in Hc1 by lia. rewrite (IH _ _ Hf) by lia. lia.
Qed.

Lemma exec_batches op plan spec m batches seq st st' s E B R :
  su_operator s = op -> su_activated s = false -> current_module s (spec_id spec) = Ok tt ->
  importing s (spec_id spec) E B R (bs_count st) seq (bs_root st) ->
  foldMi (check_batch plan spec m) seq batches st = Ok st' ->
  0 <= bs_count st -> 0 <= seq ->
  bs_count st + sum_counts batches <= E -> seq + llen batches <= B -> E < 2 ^ 64 -> B < 2 ^ 64 ->
  (forall b, b ∈ batches -> importPayload (spec_id spec)
     (or_zero [] (parseHexBytes "" (pb_Payload b))) = Some (pb_Count b)) ->
  exists s', foldM (execute op) (map (batch_call (spec_id spec)) batches) s = Ok s' /\
    frame (spec_id spec) s s' /\
    importing s' (spec_id spec) E B R (bs_count st + sum_counts batches) (seq + llen batches)
      (bs_root st') /\ bs_count st' = bs_count st + sum_counts batches.
Proof.
  revert seq st s. induction batches as [|b batches IH];
    intros seq st s Hop Hact Hcur Himp Hf Hc0 Hs0 HE HB HE64 HB64 Hacc.
  - injection Hf as <-. exists s. cbn. rewrite !Z.add_0_r. split_and!; try done.
  - cbn [foldMi] in Hf. apply bind_ok in Hf as (st1 & Hc & Hf).
    apply check_batch_inv in Hc as (payload & Hb & Hc1 & _).
    destruct (ba_count _ _ _ _ _ _ _ _ Hb) as [Hpos Hmax]. unfold MaximumBatchItems in Hmax.
    rewrite llen_cons in *. pose proof (llen_nonneg batches).
    cbn [sum_counts foldr] in *. fold (sum_counts batches) in *.
    assert (0 <= sum_counts batches) as Hsum by (by eapply check_batches_counts).
    rewrite u64_small in Hc1 by lia.
    assert (or_zero [] (parseHexBytes "" (pb_Payload b)) = payload) as Hpay.
    { rewrite (ba_payload _ _ _ _ _ _ _ _ Hb), (proj2 (parseHexBytes_spec "" _ payload)); done. }
    pose proof (ba_size _ _ _ _ _ _ _ _ Hb) as Hsize. unfold MaximumPayloadBytes in Hsize.
    pose proof (ba_step _ _ _ _ _ _ _ _ Hb) as Hstep. rewrite (ba_sequence _ _ _ _ _ _ _ _ Hb) in Hstep.
    destruct (exec_batch op s (spec_id spec) E B R (bs_count st) seq (bs_root st) b (bs_root st1)
      payload) as (s1 & Hx & Hfr & Himp1); try done; try lia.
    { apply (ba_sequence _ _ _ _ _ _ _ _ Hb). }
    { rewrite (ba_hash _ _ _ _ _ _ _ _ Hb), HashHex_spec by apply length_keccak256.
      apply field_hash_text, length_keccak256. }
    { rewrite <- Hpay. apply Hacc. by left. }
    rewrite <- Hc1 in Himp1.
    destruct (IH (seq + 1) st1 s1) as (s2 & Hx2 & Hfr2 & Himp2 & Hc2); try done; try lia.
    { by rewrite (fr_operator _ _ _ Hfr). }
    { by rewrite (fr_activated _ _ _ Hfr). }
    { by rewrite (current_module_frame _ _ _ Hfr). }
    { intros b' Hb'. apply Hacc. by right. }
    exists s2. cbn [map foldM]. rewrite Hx. split; [done|]. split; [by eapply frame_trans|].
    replace (bs_count st + (pb_Count b + sum_counts batches)) with (bs_count st1 + sum_counts batches) by lia.
    replace (seq + (1 + llen batches)) with (seq + 1 + llen batches) by lia. done.
Qed.

(** ** One module *)

Section Replay.
Context (plan : Plan) (op snapshotRoot : bytes).
Context (Hids : NoDup (map spec_id requiredModules)).
Context (Hroot : snapshotRoot <> zero_bytes 32).
Context (Hev : field_hash (plan_UsernameEscrowEvidenceHash plan) <> zero_bytes 32).
Context (Hdep : deployment_accepts plan).

(** The progress of a module that was imported completely. *)
Definition complete (finalized : bool) (m : ModulePlan) : progress :=
  mk_progress true finalized (mp_ExpectedCount m) (mp_ExpectedBatches m) (mp_ExpectedCount m)
    (mp_ExpectedBatches m) (field_hash (mp_ExpectedRoot m)) (field_hash (mp_ExpectedRoot m)).

(** Modules before [i] are finalized, the others untouched. *)
Record ready (s : suite) (i : nat) : Prop := {
  rd_root : su_snapshotRoot s = snapshotRoot;
  rd_operator : su_operator s = op;
  rd_active : su_activated s = false;
  rd_next : su_nextModuleIndex s = Z.of_nat i;
  rd_evidence : if decide (i <= 4)%nat then su_evidence s = zero_bytes 32
                else su_evidence s <> zero_bytes 32;
  rd_fresh : forall j spec, (i <= j)%nat -> requiredModules !! j = Some spec ->
    su_progress s (spec_id spec) = no_progress /\ su_module s (spec_id spec) = no_progress;
  rd_done : forall j spec m, (j < i)%nat -> requiredModules !! j = Some spec ->
    plan_Modules plan !! j = Some m -> su_module s (spec_id spec) = complete true m;
}.

Lemma spec_id_lookup i j a b :
  requiredModules !! i = Some a -> requiredModules !! j = Some b -> spec_id a = spec_id b -> i = j.
Proof.
  intros Ha Hb E. eapply NoDup_lookup; [exact Hids| |].
  - rewrite list_lookup_fmap, Ha. reflexivity.
  - rewrite list_lookup_fmap, Hb. by rewrite E.
Qed.

Lemma ready_current s i spec :
  su_nextModuleIndex s = Z.of_nat i -> requiredModules !! i = Some spec ->
  current_module s (spec_id spec) = Ok tt.
Proof.
  intros Hn Hs. unfold current_module, requiredModuleAt. rewrite Hn, Nat2Z.id, Hs.
  by rewrite bool_decide_eq_true_2.
Qed.

Lemma exec_begin s i spec E B R seed :
  ready s i -> requiredModules !! i = Some spec -> configured (spec_id spec) = true ->
  R <> zero_bytes 32 -> rollingSeed (spec_id spec) snapshotRoot = Ok seed ->
  exists s', execute op s (BeginNextModule (spec_id spec) E B R) = Ok s' /\
    frame (spec_id spec) s s' /\ importing s' (spec_id spec) E B R 0 0 seed.
Proof.
  intros Hr Hs Hconf HR Hseed. destruct (rd_fresh _ _ Hr i spec (Nat.le_refl i) Hs) as [Hp Hm].
  unfold execute. rewrite (rd_operator _ _ Hr), (rd_active _ _ Hr), bool_decide_eq_true_2 by done.
  cbn [negb]. unfold beginNextModule. rewrite (ready_current s i spec (rd_next _ _ Hr) Hs), Hconf, Hp.
  cbn [negb no_progress pr_started pr_finalized pr_importedCount pr_nextSequence].
  rewrite (rd_root _ _ Hr), Hseed. unfold beginBootstrap. rewrite Hm.
  cbn [no_progress pr_started pr_finalized pr_importedCount pr_nextSequence].
  rewrite !bool_decide_eq_false_2, Hseed by done. cbn [orb].
  eexists. split; [reflexivity|]. split; [apply frame_set_module|].
  split; unfold set_module; cbn [su_progress su_module]; apply update_eq.
Qed.

(** The attestation, made by the username module only. *)
Lemma exec_attest s m :
  su_operator s = op -> su_activated s = false ->
  su_evidence s = zero_bytes 32 \/ mp_Name m <> "username"%string ->
  exists s', foldM (execute op) (attest_calls plan m) s = Ok s' /\
    su_snapshotRoot s' = su_snapshotRoot s /\ su_operator s' = op /\ su_activated s' = false /\
    su_nextModuleIndex s' = su_nextModuleIndex s /\ su_progress s' = su_progress s /\
    su_module s' = su_module s /\
    su_evidence s' = if decide (mp_Name m = "username"%string)
                     then field_hash (plan_UsernameEscrowEvidenceHash plan) else su_evidence s.
Proof.
  intros Hop Hact Hor. unfold attest_calls. case_decide as Hn; [|by exists s].
  destruct Hor as [Hz|]; [|done]. cbn [foldM]. unfold execute.
  rewrite Hop, Hact, bool_decide_eq_true_2 by done. cbn [negb].
  unfold attestUsernameEscrowReleased. rewrite bool_decide_eq_false_2 by done.
  rewrite bool_decide_eq_true_2 by done. cbn [negb]. by eexists.
Qed.

Lemma exec_finalize s i spec m :
  su_operator s = op -> su_activated s = false -> su_nextModuleIndex s = Z.of_nat i ->
  requiredModules !! i = Some spec ->
  su_progress s (spec_id spec) = complete false m -> su_module s (spec_id spec) = complete false m ->
  (spec_id spec = username_id -> su_evidence s <> zero_bytes 32) ->
  beforeFinalized (spec_id spec) = true ->
  execute op s (FinalizeCurrentModule (spec_id spec)) =
    Ok (mk_suite (su_snapshotRoot s) (su_operator s) (su_nextModuleIndex s + 1) (su_evidence s)
          (su_activated s) (update (su_progress s) (spec_id spec) (complete true m))
          (update (su_module s) (spec_id spec) (complete true m))).
Proof.
  intros Hop Hact Hn Hs Hp Hm Hevid Hbf. unfold execute.
  rewrite Hop, Hact, bool_decide_eq_true_2 by done. cbn [negb].
  unfold finalizeCurrentModule. rewrite (ready_current s i spec Hn Hs), Hp.
  assert (forall f, import_complete (complete f m) = Ok tt) as Hic.
  { intros f. unfold import_complete, complete.
    cbn [pr_importedCount pr_expectedCount pr_nextSequence pr_expectedBatches pr_rollingRoot
      pr_expectedRoot]. by rewrite !Z.eqb_refl, bool_decide_eq_true_2. }
  rewrite Hic. cbn [complete pr_started pr_finalized negb].
  assert (bool_decide (spec_id spec = username_id) && bool_decide (su_evidence s = zero_bytes 32)
    = false) as ->.
  { apply andb_false_iff. destruct (decide (spec_id spec = username_id)) as [E|E].
    - right. apply bool_decide_eq_false_2. by apply Hevid.
    - left. by apply bool_decide_eq_false_2. }
  unfold finalizeBootstrap. rewrite Hm, Hic, Hbf. cbn [complete pr_started pr_finalized negb].
  cbn [set_module su_snapshotRoot su_operator su_evidence su_activated su_progress su_module].
  by rewrite Hop, Hact.
Qed.

Lemma username_index i spec :
  requiredModules !! i = Some spec -> (spec_id spec = username_id <-> i = 4%nat).
Proof.
  intros Hs. assert (requiredModules !! 4%nat =
    Some (mk_spec "username" "igit.module.username")) as H4 by reflexivity.
  split; [|intros ->; by injection Hs as <-].
  intros E. by apply (spec_id_lookup _ _ _ _ Hs H4).
Qed.

Lemma username_name i spec :
  requiredModules !! i = Some spec -> (spec_name spec = "username"%string <-> i = 4%nat).
Proof.
  do 7 (destruct i as [|i]; [intros [= <-]; split; done|]). done.
Qed.

Lemma exec_module s i spec m st0 st :
  ready s i -> requiredModules !! i = Some spec -> plan_Modules plan !! i = Some m ->
  module_facts plan snapshotRoot i spec m st0 st -> llen (mp_Batches m) < 2 ^ 40 ->
  exists s', foldM (execute op) (module_calls plan m) s = Ok s' /\ ready s' (S i).
Proof.
  intros Hr Hs Hm Hf Hsz.
  destruct (Hdep i spec m Hs Hm) as (Hconf & Hbf & HR & Hacc).
  unfold module_calls. rewrite (mf_id _ _ _ _ _ _ _ Hf). fold (attest_calls plan m).
  destruct (exec_begin s i spec (mp_ExpectedCount m) (mp_ExpectedBatches m) _ _ Hr Hs Hconf HR
    (mf_seed _ _ _ _ _ _ _ Hf)) as (s1 & Hx1 & Hfr1 & Himp1).
  cbn [foldM app]. rewrite Hx1, foldM_app.
  pose proof (llen_nonneg (mp_Batches m)) as Hnn.
  assert (mp_ExpectedBatches m = llen (mp_Batches m)) as HB
    by (rewrite (mf_batches _ _ _ _ _ _ _ Hf); apply u64_small; lia).
  assert (sum_counts (mp_Batches m) <= 128 * llen (mp_Batches m) /\ 0 <= sum_counts (mp_Batches m))
    as [Hsum Hsum0].
  { split; [|by eapply check_batches_counts, (mf_check _ _ _ _ _ _ _ Hf)].
    by eapply check_batches_max, (mf_check _ _ _ _ _ _ _ Hf). }
  assert (mp_ExpectedCount m = sum_counts (mp_Batches m)) as HE.
  { rewrite (mf_count _ _ _ _ _ _ _ Hf).
    rewrite (check_batches_total _ _ _ _ _ _ _ (mf_check _ _ _ _ _ _ _ Hf)), (mf_start _ _ _ _ _ _ _ Hf);
      [done|rewrite (mf_start _ _ _ _ _ _ _ Hf); lia|rewrite (mf_start _ _ _ _ _ _ _ Hf); lia]. }
  destruct (exec_batches op plan spec m (mp_Batches m) 0 st0 st s1 (mp_ExpectedCount m)
    (mp_ExpectedBatches m) (field_hash (mp_ExpectedRoot m))) as (s2 & Hx2 & Hfr2 & Himp2 & Hc2);
    rewrite ?(mf_start _ _ _ _ _ _ _ Hf); try lia; try done.
  { rewrite (fr_operator _ _ _ Hfr1). apply Hr. }
  { rewrite (fr_activated _ _ _ Hfr1). apply Hr. }
  { rewrite (current_module_frame _ _ _ Hfr1). by apply (ready_current s i), Hs; apply Hr. }
  { apply Hf. }
  rewrite Hx2, foldM_app. pose proof (frame_trans _ _ _ _ Hfr1 Hfr2) as Hfr.
  assert (su_progress s2 (spec_id spec) = complete false m /\
          su_module s2 (spec_id spec) = complete false m) as [Hp2 Hm2].
  { unfold importing, complete in *.
    destruct Himp2 as [-> ->]. rewrite (mf_start _ _ _ _ _ _ _ Hf), HE, HB.
    by rewrite !Z.add_0_l, (mf_root _ _ _ _ _ _ _ Hf). }
  assert (mp_Name m = "username"%string <-> i = 4%nat) as Huser
    by (rewrite (mf_name _ _ _ _ _ _ _ Hf); by apply username_name).
  pose proof (rd_evidence _ _ Hr) as Hevid. rewrite <- (fr_evidence _ _ _ Hfr) in Hevid.
  destruct (exec_attest s2 m) as (s3 & -> & Hr3 & Ho3 & Ha3 & Hn3 & Hp3 & Hm3 & He3).
  { rewrite (fr_operator _ _ _ Hfr). apply Hr. }
  { rewrite (fr_activated _ _ _ Hfr). apply Hr. }
  { destruct (decide (i = 4%nat)) as [->|Hne]; [by left|right; tauto]. }
  cbn [foldM].
  rewrite (exec_finalize s3 i spec m); try done; rewrite ?Hp3, ?Hm3; try done.
  2:{ rewrite Hn3, (fr_next _ _ _ Hfr). apply Hr. }
  2:{ intros E%(username_index i spec Hs). rewrite He3, decide_True by tauto. done. }
  eexists. split; [reflexivity|]. constructor; cbn [su_snapshotRoot su_operator su_activated
    su_nextModuleIndex su_evidence su_progress su_module].
  - rewrite Hr3, (fr_root _ _ _ Hfr). apply Hr.
  - done.
  - done.
  - rewrite Hn3, (fr_next _ _ _ Hfr), (rd_next _ _ Hr). lia.
  - rewrite He3. destruct (decide (i = 4%nat)) as [->|Hne].
    + rewrite decide_False by lia. rewrite decide_True by tauto. done.
    + rewrite (decide_False (P := mp_Name m = _)) by tauto.
      repeat case_decide; (done || lia).
  - intros j spec' Hle Hs'. assert (spec_id spec' <> spec_id spec) as Hne.
    { intros E. pose proof (spec_id_lookup _ _ _ _ Hs' Hs E). lia. }
    rewrite !update_ne by done. rewrite (fr_progress _ _ _ Hfr), (fr_module _ _ _ Hfr) by done.
    by apply (rd_fresh _ _ Hr j); [lia|].
  - intros j spec' m' Hlt Hs' Hm'. destruct (decide (j = i)) as [->|Hji].
    + rewrite Hs in Hs'. rewrite Hm in Hm'. injection Hs' as <-. injection Hm' as <-.
      apply update_eq.
    + assert (spec_id spec' <> spec_id spec) as Hne.
      { intros E. by pose proof (spec_id_lookup _ _ _ _ Hs' Hs E). }
      rewrite update_ne by done. rewrite (fr_module _ _ _ Hfr) by done.
      apply (rd_done _ _ Hr j); [lia|done..].
Qed.

Lemma exec_modules s ms i :
  ready s i -> drop i (plan_Modules plan) = ms -> length (plan_Modules plan) = 7%nat ->
  (forall j spec m, requiredModules !! j = Some spec -> plan_Modules plan !! j = Some m ->
     llen (mp_Batches m) < 2 ^ 40 /\ exists st0 st, module_facts plan snapshotRoot j spec m st0 st) ->
  exists s', foldM (execute op) (concat (map (module_calls plan) ms)) s = Ok s' /\
    ready s' (i + length ms).
Proof.
  intros Hr Hms Hlen Hall. revert s i Hr Hms.
  induction ms as [|m ms IH]; intros s i Hr Hms.
  - exists s. by rewrite Nat.add_0_r.
  - cbn [map concat]. rewrite foldM_app.
    assert (plan_Modules plan !! i = Some m) as Hm.
    { rewrite <- (Nat.add_0_r i), <- lookup_drop, Hms. done. }
    assert (is_Some (requiredModules !! i)) as [spec Hs].
    { apply lookup_lt_is_Some. apply lookup_lt_Some in Hm. simpl. lia. }
    destruct (Hall i spec m Hs Hm) as (Hsz & st0 & st & Hf).
    destruct (exec_module s i spec m st0 st Hr Hs Hm Hf Hsz) as (s1 & -> & Hr1).
    destruct (IH s1 (S i) Hr1) as (s2 & Hx & Hr2).
    { by rewrite <- (Nat.add_1_r i), <- drop_drop, Hms. }
    exists s2. split; [done|]. by replace (i + length (m :: ms))%nat with (S i + length ms)%nat by (simpl; lia).
Qed.

Lemma exec_activate s :
  ready s 7 -> length (plan_Modules plan) = 7%nat ->
  exists s', execute op s ActivateSuite = Ok s' /\ su_activated s' = true /\
    su_module s' = su_module s.
Proof.
  intros Hr Hlen. unfold execute.
  rewrite (rd_operator _ _ Hr), (rd_active _ _ Hr), bool_decide_eq_true_2 by done. cbn [negb].
  unfold activateSuite, directory_activate.
  assert (readyForActivation s = true) as Hready.
  { unfold readyForActivation. rewrite (rd_active _ _ Hr), (rd_next _ _ Hr).
    pose proof (rd_evidence _ _ Hr) as He. rewrite decide_False in He by lia.
    by rewrite bool_decide_eq_false_2. }
  rewrite Hready.
  assert (forM (fun spec =>
    fail_if negb (configured (spec_id spec)) as Errorf "MissingModule" [] ;;
    fail_if negb (pr_finalized (su_module s (spec_id spec))) as Errorf "CoordinatorNotReady" [] ;;
    Ok tt) requiredModules = Ok tt) as ->.
  { apply forM_ok, Forall_forall. intros spec [i Hi]%list_elem_of_lookup.
    assert (is_Some (plan_Modules plan !! i)) as [m Hm].
    { apply lookup_lt_is_Some. apply lookup_lt_Some in Hi. simpl in Hi. lia. }
    destruct (Hdep i spec m Hi Hm) as (-> & _).
    rewrite (rd_done _ _ Hr i spec m); [done| |done|done]. apply lookup_lt_Some in Hi. simpl in Hi. lia. }
  by eexists.
Qed.

End Replay.

(** ** The whole plan *)

Lemma evidence_nonzero plan :
  check_plan_target plan = Ok tt ->
  field_hash (plan_UsernameEscrowEvidenceHash plan) <> zero_bytes 32.
Proof.
  unfold check_plan_target. intros H. go_inv H. bool_prop.
  match goal with Hv : validateEscrowRelease _ _ _ = Ok _ |- _ =>
    unfold validateEscrowRelease in Hv; go_inv Hv end.
  match goal with He : rawSHA256 "username escrow evidence SHA-256" _ = Ok ?h |- _ =>
    apply rawSHA256_spec in He as (He & Hl & Hz) end.
  match goal with Hq : plan_UsernameEscrowEvidenceHash plan = _,
    He : esc_EvidenceSHA256 _ = hex_encode ?h |- _ => rewrite Hq, He; fold (hexBytes h) end.
  by rewrite field_hash_text.
Qed.

Lemma snapshot_root_nonzero plan root :
  ValidatePlan plan = Ok tt ->
  parseHash "snapshot root" (ps_Root (plan_Snapshot plan)) = Ok root -> root <> zero_bytes 32.
Proof.
  unfold ValidatePlan. intros (r & Hs & _)%bind_ok Hp. unfold check_plan_snapshot in Hs.
  go_inv Hs. subst. bool_prop.
  match goal with Hr : rawSHA256 _ _ = Ok ?h |- _ => apply rawSHA256_spec in Hr as (_ & Hl & Hz) end.
  match goal with He : _ = BytesToHash _ |- _ => rewrite BytesToHash_spec in He by done end.
  congruence.
Qed.

Lemma replay_calls plan op root :
  NoDup (map spec_id requiredModules) -> ValidatePlan plan = Ok tt -> plan_sized plan ->
  parseHash "snapshot root" (ps_Root (plan_Snapshot plan)) = Ok root ->
  deployment_accepts plan ->
  exists final, foldM (execute op) (plan_calls plan) (fresh_suite root op) = Ok final /\
    su_activated final = true /\
    forall i spec m, requiredModules !! i = Some spec -> plan_Modules plan !! i = Some m ->
      su_module final (spec_id spec) = complete true m.
Proof.
  intros Hids Hv Hsz Hroot Hdep.
  destruct (ValidatePlan_modules plan Hv) as (_ & _ & _ & Htarget & _).
  destruct (validated_module_facts plan Hv) as (root' & Hroot' & Hlen & Hall).
  rewrite Hroot in Hroot'. injection Hroot' as <-.
  pose proof (snapshot_root_nonzero plan root Hv Hroot) as Hz.
  pose proof (evidence_nonzero plan Htarget) as Hev.
  assert (ready plan op root (fresh_suite root op) 0) as Hr0.
  { constructor; try done. intros j spec m Hlt. lia. }
  destruct (exec_modules plan op root Hids Hz Hev Hdep _ (plan_Modules plan) 0 Hr0) as (s & Hx & Hr);
    [done|done| |].
  { intros j spec m Hs Hm. split; [|by apply Hall]. unfold plan_sized in Hsz.
    rewrite Forall_forall in Hsz. apply Hsz. by eapply list_elem_of_lookup_2. }
  rewrite Hlen in Hr. destruct (exec_activate plan op root Hdep s Hr Hlen) as (s' & Ha & Hact & Hmod).
  exists s'. unfold plan_calls. rewrite foldM_app, Hx. cbn [foldM]. rewrite Ha.
  split; [done|]. split; [done|]. intros i spec m Hs Hm. rewrite Hmod.
  apply (rd_done _ _ _ _ _ Hr i); [|done..]. apply lookup_lt_Some in Hs. simpl in Hs. lia.
Qed.

End CoordinatorSpec.
