(* ===== verification/ManifestProps.v ===== *)
(** * ManifestProps: the properties of the calldata manifest

    Building a manifest never fails on a validated plan, the manifest makes the
    intended calls and nothing else passes its validation, and replaying it on a
    fresh coordinator activates the suite. *)
From Stdlib Require Import ZArith Lia Ascii String.
From stdpp Require Import base list gmap strings.
From S2P Require Import Prelude GoText Encodings Geth Schema Codec Validators Snapshot Records Plan Manifest Acceptance Sample Coordinator ManifestSpec CoordinatorSpec.

Local Open Scope Z_scope.

Section ManifestProps.
Context {GE : Geth} {GL : GethLaws} {MO : MapOrder} {PJ : PlanJSON} {MI : ModuleImport}.

(** [ValidateCalldataManifest] accepts exactly the manifest that
    [BuildCalldataManifest] builds from the plan. *)
Lemma manifest_validation_exact plan manifest :
  ValidateCalldataManifest plan manifest = Ok tt <-> BuildCalldataManifest plan = Ok manifest.
Proof.
  unfold ValidateCalldataManifest. split.
  - intros H. apply guard_ok in H as [_ H]. apply bind_ok in H as (expected & Hb & H).
    apply guard_ok in H as [Heq _]. bool_prop. by rewrite Heq.
  - intros Hb. rewrite Hb, (bool_decide_eq_true_2 (manifest = manifest)) by done.
    unfold BuildCalldataManifest in Hb. go_inv Hb. by rewrite <- Hb.
Qed.

(** C8: the manifest of a validated plan is always built and is the only one
    that its validation accepts, so that no field of an accepted manifest can be
    chosen by whoever wrote the file; and its calldata decodes, transaction by
    transaction and in order, to the intended calls of the coordinator. *)
Theorem manifest_makes_intended_calls plan :
  selectors_distinct -> ValidatePlan plan = Ok tt -> plan_sized plan ->
  exists manifest, BuildCalldataManifest plan = Ok manifest /\
    (forall m, ValidateCalldataManifest plan m = Ok tt <-> m = manifest) /\
    Forall2 (emits plan) (man_Transactions manifest) (plan_calls plan).
Proof.
  intros Hd Hv Hsz. destruct (build_manifest plan Hd Hv Hsz) as (manifest & Hb & [He _]).
  exists manifest. split; [done|]. split; [|done].
  intros m. rewrite manifest_validation_exact, Hb. split; [by intros [= ->]|by intros ->].
Qed.

(** C9: replaying a manifest activates the suite.  Let the modules be configured,
    let the import function of each accept every payload of the plan with the
    count that the plan states and let none object to its finalization
    ([deployment_accepts]).  Then, on a freshly deployed coordinator, the calls
    decoded from the transactions, executed in order by the operator, all
    succeed; at the end the suite is active and every module is finalized with
    exactly the count, the number of batches and the root that the plan
    announced. *)
Theorem manifest_replay_activates plan manifest operator snapshotRoot :
  selectors_distinct -> NoDup (map spec_id requiredModules) -> plan_sized plan ->
  BuildCalldataManifest plan = Ok manifest ->
  parseHash "snapshot root" (man_SnapshotRoot manifest) = Ok snapshotRoot ->
  deployment_accepts plan ->
  exists calls final,
    Forall2 (emits plan) (man_Transactions manifest) calls /\
    foldM (execute operator) calls (fresh_suite snapshotRoot operator) = Ok final /\
    su_activated final = true /\
    forall i spec m, requiredModules !! i = Some spec -> plan_Modules plan !! i = Some m ->
      su_module final (spec_id spec) = complete true m.
Proof.
  intros Hd Hids Hsz Hb Hroot Hdep.
  assert (ValidatePlan plan = Ok tt) as Hv.
  { unfold BuildCalldataManifest in Hb. apply bind_ok in Hb as ([] & Hv & _). by apply wrapf_ok in Hv. }
  assert (man_SnapshotRoot manifest = ps_Root (plan_Snapshot plan)) as Hr.
  { unfold BuildCalldataManifest in Hb. go_inv Hb. by rewrite <- Hb. }
  rewrite Hr in Hroot. destruct (build_manifest plan Hd Hv Hsz) as (manifest' & Hb' & [He _]).
  rewrite Hb in Hb'. injection Hb' as <-.
  destruct (replay_calls plan operator snapshotRoot Hids Hv Hsz Hroot Hdep) as (final & Hx & Hact & Hmod).
  exists (plan_calls plan), final. done.
Qed.

(** ** Deciding the hypotheses on a concrete plan *)

Definition deployment_check (plan : Plan) : bool :=
  forallb (fun '(spec, m) =>
    configured (spec_id spec) && beforeFinalized (spec_id spec) &&
    negb (bool_decide (field_hash (mp_ExpectedRoot m) = zero_bytes 32)) &&
    forallb (fun b => bool_decide (importPayload (spec_id spec)
        (or_zero [] (parseHexBytes "" (pb_Payload b))) = Some (pb_Count b))) (mp_Batches m))
    (zip requiredModules (plan_Modules plan)).

Lemma deployment_check_sound plan : deployment_check plan = true -> deployment_accepts plan.
Proof.
  unfold deployment_check. rewrite forallb_forall. intros Hall i spec m Hs Hm.
  specialize (Hall (spec, m)). cbn beta iota in Hall.
  assert (In (spec, m) (zip requiredModules (plan_Modules plan))) as Hin.
  { apply list_elem_of_In, list_elem_of_lookup. exists i. by apply lookup_zip_Some. }
  apply Hall in Hin. rewrite !andb_true_iff, forallb_forall in Hin.
  destruct Hin as [[[Hc Hf] Hz] Hb]. bool_prop. split_and!; try done.
  intros b Hbin. apply (bool_decide_eq_true_1 _), Hb, list_elem_of_In, Hbin.
Qed.

Lemma plan_sized_check plan :
  forallb (fun m => llen (mp_Batches m) <? 2 ^ 40) (plan_Modules plan) = true -> plan_sized plan.
Proof.
  rewrite forallb_forall. intros Hall. apply Forall_forall. intros m Hm.
  by apply Z.ltb_lt, Hall, list_elem_of_In.
Qed.

End ManifestProps.

(** ** Witnesses *)

Section ManifestWitnesses.
Import SampleGeth Sample.

(** Any text identifies the plan for the purposes of the manifest. *)
Instance sample_json : PlanJSON := {
  MarshalIndent_plan p := string_bytes (ps_Root (plan_Snapshot p)) }.

(** Modules that count the records of the first kind that decodes. *)
Instance sample_import : ModuleImport := {
  importPayload id payload :=
    match list_find (fun spec => spec_id spec = id) requiredModules with
    | Some (_, spec) =>
        match omap (fun kind => match decodePayloadCount (spec_name spec) kind payload with
                                | Ok n => Some n | Err _ => None end) [0; 1; 2; 3] with
        | n :: _ => Some n
        | [] => None
        end
    | None => None
    end;
  beforeFinalized _ := true;
  configured _ := true }.

Lemma sample_selectors : selectors_distinct.
Proof. apply (bool_decide_unpack _). vm_compute. reflexivity. Qed.

Lemma sample_ids : NoDup (map spec_id requiredModules).
Proof. apply (bool_decide_unpack _). vm_compute. reflexivity. Qed.

Lemma sample_plan_deployable p :
  build_decoded_plan raw snapshot options = Ok p -> plan_sized p /\ deployment_accepts p.
Proof.
  intros Hp.
  assert (match build_decoded_plan raw snapshot options with
          | Ok p => forallb (fun m => llen (mp_Batches m) <? 2 ^ 40) (plan_Modules p) &&
                    deployment_check p
          | Err _ => true end = true) as H by (vm_compute; reflexivity).
  rewrite Hp in H. apply andb_true_iff in H as [H1 H2].
  split; [by apply plan_sized_check|by apply deployment_check_sound].
Qed.

Lemma manifest_makes_intended_calls_witness :
  exists plan manifest, BuildCalldataManifest plan = Ok manifest /\
    (forall m, ValidateCalldataManifest plan m = Ok tt <-> m = manifest) /\
    Forall2 (emits plan) (man_Transactions manifest) (plan_calls plan).
Proof.
  destruct sample_plan as [plan Hp]. exists plan.
  exact (manifest_makes_intended_calls plan sample_selectors (sample_plan_valid plan Hp)
    (proj1 (sample_plan_deployable plan Hp))).
Defined.

Lemma sample_manifest p :
  build_decoded_plan raw snapshot options = Ok p ->
  exists manifest root, BuildCalldataManifest p = Ok manifest /\
    parseHash "snapshot root" (man_SnapshotRoot manifest) = Ok root.
Proof.
  intros Hp.
  destruct (build_manifest p sample_selectors (sample_plan_valid p Hp)
    (proj1 (sample_plan_deployable p Hp))) as (manifest & Hb & _).
  destruct (validated_module_facts p (sample_plan_valid p Hp)) as (root & Hr & _).
  exists manifest, root. split; [done|].
  unfold BuildCalldataManifest in Hb. go_inv Hb. by rewrite <- Hb.
Qed.

Lemma manifest_replay_activates_witness :
  exists plan manifest root calls final,
    Forall2 (emits plan) (man_Transactions manifest) calls /\
    foldM (execute (zero_bytes 20)) calls (fresh_suite root (zero_bytes 20)) = Ok final /\
    su_activated final = true.
Proof.
  destruct sample_plan as [plan Hp]. destruct (sample_manifest plan Hp) as (manifest & root & Hb & Hr).
  destruct (sample_plan_deployable plan Hp) as [Hsz Hdep].
  destruct (manifest_replay_activates plan manifest (zero_bytes 20) root sample_selectors sample_ids
    Hsz Hb Hr Hdep) as (calls & final & He & Hx & Hact & _).
  exists plan, manifest, root, calls, final. split; [exact He|split; [exact Hx|exact Hact]].
Defined.

End ManifestWitnesses.
