(* ===== verification/PlanProps.v ===== *)
(** * PlanProps: the properties of the bootstrap plan

    Each property is followed by its witness on the snapshot of [Sample]. *)
From Stdlib Require Import ZArith Lia Ascii String.
From stdpp Require Import base list gmap strings sorting.
From S2P Require Import Prelude GoText Encodings Geth Schema Codec Validators Snapshot Records Sorting Plan Batching Wellformed Distinct PlanSpec Acceptance Sample.

Local Open Scope Z_scope.

(** ** Deciding that the records of a group are small *)

Section Small.
Context {GE : Geth}.

Definition small_group (g : recordGroup) : bool :=
  forallb (fun i => match rg_encode g (slice i (S i) (rg_values g)) with
                    | Ok payload => llen payload <=? MaximumPayloadBytes
                    | Err _ => true
                    end) (seq 0 (S (length (rg_values g)))).

Lemma slice_past {A} (l : list A) i : (length l <= i)%nat -> slice i (S i) l = [].
Proof. intros H. unfold slice. rewrite drop_ge by done. apply take_nil. Qed.

Lemma small_group_spec g i payload :
  small_group g = true -> rg_encode g (slice i (S i) (rg_values g)) = Ok payload ->
  llen payload <= MaximumPayloadBytes.
Proof.
  unfold small_group. rewrite forallb_forall. intros Hs He.
  set (j := Nat.min i (length (rg_values g))).
  assert (slice i (S i) (rg_values g) = slice j (S j) (rg_values g)) as Hj.
  { unfold j. destruct (Nat.le_gt_cases (length (rg_values g)) i) as [Hle|Hlt].
    - rewrite Nat.min_r by done. by rewrite !slice_past.
    - by rewrite Nat.min_l by lia. }
  rewrite Hj in He. specialize (Hs j). rewrite He in Hs. apply Z.leb_le, Hs, in_seq. unfold j. lia.
Qed.

Lemma small_records_decide records :
  forallb (fun spec => forallb small_group (groups_of records spec)) requiredModules = true ->
  small_records records.
Proof.
  rewrite forallb_forall. intros Hall spec g i payload Hs Hg He.
  apply list_elem_of_In in Hs. specialize (Hall spec Hs). rewrite forallb_forall in Hall.
  apply list_elem_of_In in Hg. by eapply small_group_spec; [apply Hall|].
Qed.
End Small.

Section PlanProps.
Context {GE : Geth} {GL : GethLaws} {MO : MapOrder}.

(** C1: a snapshot that passes validation has a plan.  Whenever the options are
    accepted, the file does not hash to zero and no single record exceeds the
    payload limit, [BuildPlan] succeeds, and in particular its final
    [ValidatePlan] of the generated plan never fails. *)
Theorem build_plan_total raw s options targets :
  snapshot_typed s -> validateSnapshot s = Ok tt -> check_options options = Ok targets ->
  sha256 raw <> zero_bytes 32 ->
  (forall records summary, snapshotModuleRecords s = Ok (records, summary) ->
     small_records records) ->
  exists plan, build_decoded_plan raw s options = Ok plan /\ ValidatePlan plan = Ok tt.
Proof. apply build_total. Qed.

(** C2: a built plan carries every record of the snapshot exactly once and in
    the sorted order: module by module, decoding the payloads of the batches in
    sequence gives back the records of its groups, under the item keys of the
    groups. *)
Theorem plan_carries_records raw s options plan records summary :
  snapshot_typed s ->
  build_decoded_plan raw s options = Ok plan ->
  snapshotModuleRecords s = Ok (records, summary) ->
  Forall2 (fun spec m =>
    exists decoded, Forall2 (decoded_records (spec_name spec)) (mp_Batches m) decoded /\
      concat decoded = concat (map rg_values (groups_of records spec)) /\
      concat (map pb_ItemKeys (mp_Batches m)) = concat (map rg_keys (groups_of records spec)))
    requiredModules (plan_Modules plan).
Proof.
  intros Hty Hb Hrec.
  destruct (build_decoded_plan_built _ _ _ _ Hb) as (d & c & bs & records' & sum' & Hv & _ & Hr & Hbs & Hm).
  rewrite Hrec in Hr. injection Hr as <- <-.
  destruct (validateSnapshot_facts s Hv) as [repos Hf].
  pose proof (snapshotModuleRecords_ok _ _ _ _ Hf Hty Hrec) as Hok.
  revert Hok Hm. generalize requiredModules, (plan_Modules plan). intros specs ms Hok Hm.
  induction Hm as [|spec m specs ms (_ & _ & seed & root & _ & Hgb & _) Hm IH]; constructor.
  - apply Forall_cons in Hok as [(groups & Hg & Hgok & _) _].
    unfold groups_of in *. rewrite Hg in *. cbn [default] in *.
    destruct (groups_decoded _ _ _ _ _ _ _ _ Hgb Hgok) as (decoded & Hd & Hc).
    exists decoded. split_and!; [done|done|]. by eapply groups_batches_keys.
  - apply IH. by apply Forall_cons in Hok as [_ ?].
Qed.

(** C3: the plan depends on which records the snapshot holds, not on the order
    in which the file lists them: the groups of records handed to the batcher,
    with their item keys and counts, are the same for every reordering. *)
Theorem plan_records_order_independent s s' :
  validateSnapshot s = Ok tt -> same_records s s' ->
  snapshotModuleRecords s = snapshotModuleRecords s'.
Proof.
  intros Hv Hp. destruct (validateSnapshot_facts s Hv) as [repos Hf].
  eapply snapshotModuleRecords_perm; [done|by apply validateSnapshot_distinct|done].
Qed.

(** C4: repositories are imported parents first: [forkDepth] returns for every
    validated snapshot, the import order is a permutation of the repositories,
    and the parent of a fork occurs earlier in it. *)
Theorem forks_imported_after_parents s :
  validateSnapshot s = Ok tt ->
  exists l, sorted_repositories s = Ok l /\ l ≡ₚ snap_Repositories s /\
    forall pre r post, l = pre ++ r :: post -> repo_ForkedFrom r <> ""%string ->
      exists p, p ∈ pre /\ repo_ID p = repo_ForkedFrom r.
Proof.
  intros Hv. destruct (validateSnapshot_facts s Hv) as [repos Hf].
  pose proof (sf_table _ _ Hf) as Ht. pose proof (table_repos_by_id _ _ Ht) as Heq.
  pose proof (sf_lineage _ _ Hf) as Hwf. rewrite <- Heq in Hwf.
  destruct (fork_depths_spec _ Hwf) as (d & Hd & Hdepth).
  unfold sorted_repositories. rewrite Hd. eexists. split; [reflexivity|]. split.
  { apply merge_sort_Permutation. }
  intros pre r post Hl Hfork. eapply parents_first; try done; [apply Ht|].
  rewrite Heq. eapply fork_parent_known; [exact Hf| |done].
  rewrite <- (merge_sort_Permutation (not_after (less_repository d))).
  unfold sort_slice in Hl. rewrite Hl. set_solver.
Qed.


(** What is hashed when the module of a plan is validated. *)
Definition module_message (plan : Plan) (spec : moduleSpec) (m : ModulePlan) (x : bytes) : Prop :=
  exists snapshotRoot, ps_Root (plan_Snapshot plan) = hexBytes snapshotRoot /\
    hashed_from (spec_id spec) snapshotRoot (mp_Batches m) x.

Lemma seed_message_exists id snapshotRoot seed :
  rollingSeed id snapshotRoot = Ok seed -> exists y, seed_message id snapshotRoot y /\ seed = keccak256 y.
Proof.
  unfold rollingSeed, seed_message. destruct (abi_Pack _ _) as [y|]; [|done]. intros [= <-]. by exists y.
Qed.

Lemma collide_weaken (P Q P' Q' : bytes -> Prop) :
  (forall x, P x -> P' x) -> (forall x, Q x -> Q' x) -> collide P Q -> collide P' Q'.
Proof. intros HP HQ (x & y & Hx & Hy & Hne & E). exists x, y. by split_and!; [apply HP|apply HQ| |]. Qed.

(** C6: the expected root of a module binds what is imported: if two accepted
    plans, of fewer than 2^64 batches, give a module the same expected root,
    then they were built for the same snapshot root and the module has the same
    batches in both, with the same payloads and counts, unless two different
    messages that the validation of the two modules hashes (a seed, a payload or
    a step) have the same hash. *)
Theorem expected_root_binds_payloads plan plan' i spec m m' :
  ValidatePlan plan = Ok tt -> ValidatePlan plan' = Ok tt ->
  requiredModules !! i = Some spec ->
  plan_Modules plan !! i = Some m -> plan_Modules plan' !! i = Some m' ->
  mp_ExpectedRoot m = mp_ExpectedRoot m' ->
  llen (mp_Batches m) < 2 ^ 64 -> llen (mp_Batches m') < 2 ^ 64 ->
  (ps_Root (plan_Snapshot plan) = ps_Root (plan_Snapshot plan') /\
   contents (mp_Batches m) = contents (mp_Batches m')) \/
  collide (module_message plan spec m) (module_message plan' spec m').
Proof.
  intros Hv Hv' Hs Hm Hm' Hroot Hsmall Hsmall'.
  destruct (ValidatePlan_modules plan Hv) as (root & Hp & _ & _ & Hall).
  destruct (ValidatePlan_modules plan' Hv') as (root' & Hp' & _ & _ & Hall').
  destruct (Hall _ _ _ Hs Hm) as (t & t1 & Hc). destruct (Hall' _ _ _ Hs Hm') as (t' & t1' & Hc').
  apply check_module_inv in Hc as (_ & _ & _ & _ & seed & st0 & st & Hsd & H0 & _ & Hf & Hr & _).
  apply check_module_inv in Hc' as (_ & _ & _ & _ & seed' & st0' & st' & Hsd' & H0' & _ & Hf' & Hr' & _).
  assert (length (spec_id spec) = 32%nat) as Hid by (by eapply spec_id_length, list_elem_of_lookup_2).
  apply parseHash_spec in Hp as [Ep Hlp], Hp' as [Ep' Hlp'].
  pose proof (length_rollingSeed _ _ _ Hsd) as Hls. pose proof (length_rollingSeed _ _ _ Hsd') as Hls'.
  rewrite <- H0 in Hls. rewrite <- H0' in Hls'.
  pose proof (check_batches_length _ _ _ _ _ _ Hls Hf) as Hl1.
  pose proof (check_batches_length _ _ _ _ _ _ Hls' Hf') as Hl1'.
  rewrite Hr, Hr' in Hroot. apply (HashHex_inj _ _ Hl1 Hl1') in Hroot.
  destruct (seed_message_exists _ _ _ Hsd) as (z & Hz & Ez), (seed_message_exists _ _ _ Hsd') as (z' & Hz' & Ez').
  assert (collide (hashed_from (spec_id spec) root (mp_Batches m))
                  (hashed_from (spec_id spec) root' (mp_Batches m')) ->
          collide (module_message plan spec m) (module_message plan' spec m')) as Hcollide.
  { apply collide_weaken; intros x Hx; [by exists root|by exists root']. }
  destruct (decide (length (mp_Batches m) = length (mp_Batches m'))) as [Hlen|Hlen].
  2: { right. apply Hcollide.
    eapply (check_batches_lengths plan plan'); [done|done|done|exact Hz| |exact Hz'| |done|done|done|done];
      congruence. }
  destruct (check_batches_binding plan plan' spec m m' _ _ _ _ _ _ Hid Hls Hls' Hsmall Hlen Hf Hf' Hroot)
    as [[Hst Hcs]|Hc].
  2: { right. apply Hcollide. rewrite H0, H0', Ez, Ez' in Hc.
    revert Hc. apply collide_weaken; intros x Hx; right; by eexists. }
  rewrite Hst, H0' in H0. rewrite <- H0 in Hsd.
  destruct (rollingSeed_inj _ _ _ _ Hid Hlp Hlp' Hsd Hsd') as [->|Hc].
  2: { right. apply Hcollide. revert Hc. apply collide_weaken; intros x Hx; by left. }
  left. by rewrite Ep, Ep'.
Qed.


End PlanProps.

(** ** Witnesses *)

Section PlanWitnesses.
Import SampleGeth Sample.

Lemma reordered_same : same_records snapshot reordered.
Proof. constructor; try reflexivity; apply Permutation_rev. Qed.

Lemma sample_small records summary :
  snapshotModuleRecords snapshot = Ok (records, summary) -> small_records records.
Proof.
  intros H. apply small_records_decide.
  assert (match snapshotModuleRecords snapshot with
          | Ok (records, _) =>
              forallb (fun spec => forallb small_group (groups_of records spec)) requiredModules
          | Err _ => true
          end = true) as Hs by (vm_compute; reflexivity).
  by rewrite H in Hs.
Qed.

Lemma sample_options : exists targets, check_options options = Ok targets.
Proof. eexists. vm_compute. reflexivity. Qed.

Lemma build_plan_total_witness :
  exists plan, build_decoded_plan raw snapshot options = Ok plan /\ ValidatePlan plan = Ok tt.
Proof.
  destruct sample_options as [targets Ht].
  exact (build_plan_total raw snapshot options targets snapshot_is_typed snapshot_valid Ht
    raw_digest sample_small).
Defined.

Lemma plan_carries_records_witness :
  exists plan records, build_decoded_plan raw snapshot options = Ok plan /\
  Forall2 (fun spec m =>
    exists decoded, Forall2 (decoded_records (spec_name spec)) (mp_Batches m) decoded /\
      concat decoded = concat (map rg_values (groups_of records spec)) /\
      concat (map pb_ItemKeys (mp_Batches m)) = concat (map rg_keys (groups_of records spec)))
    requiredModules (plan_Modules plan).
Proof.
  destruct sample_plan as [plan Hp]. destruct sample_records as [[records summary] Hr].
  exists plan, records. split; [exact Hp|].
  exact (plan_carries_records raw snapshot options plan records summary snapshot_is_typed Hp Hr).
Defined.

Lemma plan_records_order_independent_witness :
  snapshot <> reordered /\ snapshotModuleRecords snapshot = snapshotModuleRecords reordered.
Proof.
  split; [intros E; apply (f_equal (fun s => map repo_ID (snap_Repositories s))) in E; discriminate E|].
  exact (plan_records_order_independent snapshot reordered snapshot_valid reordered_same).
Defined.

Lemma forks_imported_after_parents_witness :
  exists l, sorted_repositories snapshot = Ok l /\ l ≡ₚ snap_Repositories snapshot /\
    forall pre r post, l = pre ++ r :: post -> repo_ForkedFrom r <> ""%string ->
      exists p, p ∈ pre /\ repo_ID p = repo_ForkedFrom r.
Proof. exact (forks_imported_after_parents snapshot snapshot_valid). Defined.


(** Two plans for one snapshot, of which one puts every record in a batch of its
    own: they differ, but the module "recovery" has a single batch in both. *)
Definition fine_options : BuildOptions := {|
  opt_TargetChainID := 1439; opt_Directory := address "a"; opt_Coordinator := address "b";
  opt_BatchSize := 1 |}.

Definition same_recovery (plan plan' : Plan) : bool :=
  is_ok (ValidatePlan plan) && is_ok (ValidatePlan plan') &&
  negb (bool_decide ((length ∘ mp_Batches) <$> plan_Modules plan =
                     (length ∘ mp_Batches) <$> plan_Modules plan')) &&
  match plan_Modules plan !! 1%nat, plan_Modules plan' !! 1%nat with
  | Some m, Some m' =>
      bool_decide (mp_ExpectedRoot m = mp_ExpectedRoot m') &&
      (0 <? llen (mp_Batches m)) && (llen (mp_Batches m) <? 2 ^ 64) &&
      (llen (mp_Batches m') <? 2 ^ 64)
  | _, _ => false
  end.

Lemma two_plans : exists plan plan', same_recovery plan plan' = true.
Proof.
  assert (match build_decoded_plan raw snapshot options, build_decoded_plan raw snapshot fine_options with
          | Ok plan, Ok plan' => same_recovery plan plan' | _, _ => false end = true) as H
    by (vm_compute; reflexivity).
  destruct (build_decoded_plan raw snapshot options) as [plan|]; [|done].
  destruct (build_decoded_plan raw snapshot fine_options) as [plan'|]; [|done].
  by exists plan, plan'.
Qed.

Lemma ok_unit (r : result unit) : is_ok r = true -> r = Ok tt.
Proof. by destruct r as [[]|]. Qed.

Lemma expected_root_binds_payloads_witness :
  exists plan plan' spec m m', plan <> plan' /\ mp_Batches m <> [] /\
    plan_Modules plan !! 1%nat = Some m /\ plan_Modules plan' !! 1%nat = Some m' /\
    ((ps_Root (plan_Snapshot plan) = ps_Root (plan_Snapshot plan') /\
      contents (mp_Batches m) = contents (mp_Batches m')) \/
     collide (module_message plan spec m) (module_message plan' spec m')).
Proof.
  destruct two_plans as (plan & plan' & H). exists plan, plan'. unfold same_recovery in H.
  apply andb_true_iff in H as [[[Hv Hv']%andb_true_iff Hne]%andb_true_iff H].
  destruct (plan_Modules plan !! 1%nat) as [m|] eqn:Hm; [|done].
  destruct (plan_Modules plan' !! 1%nat) as [m'|] eqn:Hm'; [|done].
  apply andb_true_iff in H as [[[Hr%bool_decide_eq_true Hp]%andb_true_iff Hl]%andb_true_iff Hl'].
  destruct (requiredModules !! 1%nat) as [spec|] eqn:Hs; [|by vm_compute in Hs].
  exists spec, m, m'. split; [|split; [|split; [done|split; [done|]]]].
  - intros ->. by rewrite bool_decide_eq_true_2 in Hne.
  - intros E. by rewrite E in Hp.
  - exact (expected_root_binds_payloads plan plan' 1 spec m m' (ok_unit _ Hv) (ok_unit _ Hv') Hs Hm Hm' Hr
      (proj1 (Z.ltb_lt _ _) Hl) (proj1 (Z.ltb_lt _ _) Hl')).
Defined.

End PlanWitnesses.
