(* ===== verification/SnapshotProps.v ===== *)
(** * SnapshotProps: what a validated snapshot guarantees

    Moderation reports as a state machine, badge indexes in both directions,
    revenue splits and unique locators. *)
From Stdlib Require Import ZArith Lia Ascii String.
From stdpp Require Import base list gmap strings sorting fin_sets.
From S2P Require Import Prelude GoText Geth Schema Codec Validators Snapshot Records Sorting Plan Wellformed Distinct Acceptance Sample.

Local Open Scope Z_scope.

(** ** The life of a moderation report *)

(** [moderated r trail status resolution time]: the report [r] went through the
    entries of [trail], which leave it in [status] with the repository status
    [resolution], the last one at [time]. *)
Inductive moderated (r : SnapshotReport)
  : list SnapshotReportTrail -> string -> string -> Z -> Prop :=
| mod_submitted e :
    rt_Action e = "submitted"%string -> rt_Actor e = rep_Reporter r ->
    rt_Status e = "active"%string -> rt_ReasonHash e = rep_ReasonHash r ->
    rt_Timestamp e = rep_CreatedAt r ->
    moderated r [e] "open" "active" (rt_Timestamp e)
| mod_resolved trail resolution t e :
    moderated r trail "open" resolution t ->
    rt_Action e = "resolved"%string -> t <= rt_Timestamp e ->
    moderated r (trail ++ [e]) "resolved" (rt_Status e) (rt_Timestamp e)
| mod_appealed trail resolution t e :
    moderated r trail "resolved" resolution t ->
    rt_Action e = "appealed"%string -> rt_Status e = resolution -> t <= rt_Timestamp e ->
    moderated r (trail ++ [e]) "appealed" resolution (rt_Timestamp e)
| mod_appeal_resolved trail resolution t e :
    moderated r trail "appealed" resolution t ->
    rt_Action e = "appeal_resolved"%string -> t <= rt_Timestamp e ->
    moderated r (trail ++ [e]) "appeal_resolved" (rt_Status e) (rt_Timestamp e).

Section Reports.
Context {GE : Geth} {GL : GethLaws} {MO : MapOrder}.

(** What the loop over the trail has checked. *)
Lemma check_report_entry_inv r i previous e t :
  check_report_entry r i previous e = Ok t ->
  expectedActions !! Z.to_nat i = Some (rt_Action e) /\ t = rt_Timestamp e /\
  previous <= rt_Timestamp e /\
  (i = 0 -> rt_Actor e = rep_Reporter r /\ rt_Status e = "active"%string /\
            rt_Timestamp e = rep_CreatedAt r /\ rt_ReasonHash e = rep_ReasonHash r).
Proof.
  unfold check_report_entry. intros H. apply bind_ok in H as (c & _ & H).
  destruct (expectedActions !! Z.to_nat i) as [a|]; [|done]. go_inv H. bool_prop. subst.
  split_and!; try done. intros ->.
  match goal with Hi : (0 =? 0) && _ = false |- _ => simpl in Hi end. by bool_prop.
Qed.

Lemma trail_cases {A} (l : list A) n :
  llen l = n -> n <= 4 -> n <> 0 ->
  (n = 1 /\ exists a, l = [a]) \/ (n = 2 /\ exists a b, l = [a; b]) \/
  (n = 3 /\ exists a b c, l = [a; b; c]) \/ (n = 4 /\ exists a b c d, l = [a; b; c; d]).
Proof.
  unfold llen. destruct l as [|a [|b [|c [|d [|e l]]]]]; simpl; intros; try lia; naive_solver.
Qed.

Lemma expected_trail_length_cases r n :
  expected_trail_length r = Ok n ->
  (n = 1 /\ rep_Status r = "open"%string /\ rep_Resolution r = "active"%string) \/
  (n = 2 /\ rep_Status r = "resolved"%string) \/ (n = 3 /\ rep_Status r = "appealed"%string) \/
  (n = 4 /\ rep_Status r = "appeal_resolved"%string) \/ n = 0.
Proof.
  unfold expected_trail_length. intros H. repeat case_decide; go_inv H; subst; bool_prop; tauto.
Qed.

(** The entries of an accepted trail, one by one. *)
Ltac entries H :=
  repeat (apply bind_ok in H as (? & ?Hentry & H)); apply Ok_eq in H;
  repeat match goal with He : check_report_entry _ _ _ _ = Ok _ |- _ =>
    apply check_report_entry_inv in He as (?Hact & ?Ht & ?Hle & ?Hfirst); subst end;
  repeat match goal with Ha : expectedActions !! _ = Some _ |- _ =>
    match type of Ha with ?l = Some ?a => let v := eval vm_compute in l in
      change (v = Some a) in Ha; apply (inj Some) in Ha; symmetry in Ha end end.

Lemma report_trail_moderated r n t u :
  expected_trail_length r = Ok n -> llen (rep_Trail r) = n -> llen (rep_Trail r) <> 0 ->
  foldMi (check_report_entry r) 0 (rep_Trail r) 0 = Ok t -> check_report_outcome r = Ok u ->
  moderated r (rep_Trail r) (rep_Status r) (rep_Resolution r) t.
Proof.
  intros Hlen Hll Hnz Hloop Hout.
  pose proof (expected_trail_length_cases r _ Hlen) as Hcases. rewrite Hll in Hnz.
  unfold check_report_outcome, trail_status in Hout.
  destruct (trail_cases (rep_Trail r) n Hll) as [(-> & a & E)|[(-> & a & b & E)|
    [(-> & a & b & c & E)|(-> & a & b & c & d & E)]]]; [lia|done|..];
    rewrite E in *; cbn -[check_report_entry] in Hloop; cbn in Hout; entries Hloop;
    destruct Hcases as [(? & Hst & Hres)|[(? & Hst)|[(? & Hst)|[(? & Hst)|?]]]]; try lia;
    rewrite Hst in *; cbn in Hout; go_inv Hout; bool_prop.
  all: assert (moderated r [a] "open" "active" (rt_Timestamp a)) as Hsub
    by (match goal with Hf : 0 = 0 -> _ |- _ => destruct (Hf eq_refl) as (? & ? & ? & ?) end;
      by apply mod_submitted).
  - by rewrite Hres.
  - match goal with Hs : rt_Status b = _ |- _ => rewrite <- Hs end.
    by apply (mod_resolved r [a] _ _ b Hsub).
  - rewrite decide_True in Hout by done. go_inv Hout. bool_prop.
    assert (moderated r [a; b] "resolved" (rep_Resolution r) (rt_Timestamp b)) as Hres.
    { match goal with Hs : rt_Status b = _ |- _ => rewrite <- Hs end.
      by apply (mod_resolved r [a] _ _ b Hsub). }
    by apply (mod_appealed r [a; b] _ _ c Hres).
  - rewrite decide_True in Hc by done. go_inv Hc. bool_prop.
    assert (moderated r [a; b] "resolved" (rt_Status b) (rt_Timestamp b)) as Hres
      by (by apply (mod_resolved r [a] _ _ b Hsub)).
    assert (moderated r [a; b; c] "appealed" (rt_Status b) (rt_Timestamp c)) as Happ
      by (by apply (mod_appealed r [a; b] _ _ c Hres)).
    match goal with Hs : rt_Status d = _ |- _ => rewrite <- Hs end.
    by apply (mod_appeal_resolved r [a; b; c] _ _ d Happ).
Qed.

(** An accepted moderation report went through the moderation state machine:
    it was submitted by its reporter as active, then resolved, appealed without
    changing the status, and resolved on appeal, in this order and at
    nondecreasing times, and its status, resolution and update time are those of
    the last step. *)
Theorem report_follows_lifecycle repos reports r reports' :
  check_report repos reports r = Ok reports' ->
  moderated r (rep_Trail r) (rep_Status r) (rep_Resolution r) (rep_UpdatedAt r).
Proof.
  intros H. unfold check_report in H. go_inv H. bool_prop.
  match goal with Hu : _ = rep_UpdatedAt r |- _ => rewrite <- Hu end.
  eapply report_trail_moderated; eassumption.
Qed.

End Reports.

(** ** Badge indexes *)

(** The index [entries] lists, under every key of a badge and nowhere else, the
    badges with that key, each once. *)
Record index_exact {E} (entry_key : E -> string) (entry_ids : E -> list Z)
    (badge_key : SnapshotBadge -> string) (entries : list E) (badges : list SnapshotBadge)
  : Prop := {
  ie_distinct : NoDup (map entry_key entries);
  ie_ids : forall g, g ∈ entries ->
    entry_ids g ≡ₚ map badge_ID (filter (fun b => badge_key b = entry_key g) badges) /\
    NoDup (entry_ids g) /\ entry_ids g <> [];
  ie_covers : forall b, b ∈ badges -> exists g, g ∈ entries /\ entry_key g = badge_key b;
}.

Section Badges.
Context {GE : Geth} {GL : GethLaws} {MO : MapOrder}.

(** The index that the loop over the badges collects. *)
Definition collected (key : SnapshotBadge -> string) (badges : list SnapshotBadge)
    (m : gmap string (list Z)) : Prop :=
  forall k, m !! k =
    match filter (fun b => key b = k) badges with
    | [] => None
    | bs => Some (map badge_ID bs)
    end.

Lemma collected_append key badges m b :
  collected key badges m -> collected key (badges ++ [b]) (append_at m (key b) (badge_ID b)).
Proof.
  intros Hm k. unfold append_at. rewrite filter_app.
  destruct (decide (k = key b)) as [->|Hne].
  - rewrite lookup_insert_eq, Hm. rewrite filter_cons_True by done. rewrite filter_nil.
    destruct (filter _ badges); [done|]. simpl. by rewrite map_app.
  - rewrite lookup_insert_ne by done. rewrite filter_cons_False by done.
    by rewrite filter_nil, app_nil_r, Hm.
Qed.

Lemma badges_collected repos bs badges byRecipient byRepo :
  foldM (check_badge repos) bs (∅, ∅, ∅) = Ok (badges, byRecipient, byRepo) ->
  collected badge_Recipient bs byRecipient /\ collected badge_RepoID bs byRepo.
Proof.
  apply (foldM_ind _ (fun pre st => collected badge_Recipient pre (snd (fst st)) /\
    collected badge_RepoID pre (snd st))).
  - split; intros k; simpl; by rewrite lookup_empty.
  - intros pre b [[m1 r1] p1] st' [H1 H2] H. unfold check_badge in H. go_inv H. subst st'. simpl in *.
    split; by apply collected_append.
Qed.

(** The map that the loop over the index entries collects. *)
Definition tabulated {E} (entry_key : E -> string) (entry_ids : E -> list Z)
    (entries : list E) (m : gmap string (list Z)) : Prop :=
  NoDup (map entry_key entries) /\
  forall k ids, m !! k = Some ids <-> exists g, g ∈ entries /\ entry_key g = k /\ entry_ids g = ids.

Lemma tabulated_insert {E} (entry_key : E -> string) entry_ids entries m g :
  tabulated entry_key entry_ids entries m -> m !! entry_key g = None ->
  tabulated entry_key entry_ids (entries ++ [g]) (<[entry_key g := entry_ids g]> m).
Proof.
  intros [Hnd Hm] Hnew. split.
  - rewrite map_app. apply NoDup_app. split_and!; [done| |apply NoDup_singleton].
    intros k (g' & -> & Hg')%list_elem_of_fmap E'%list_elem_of_singleton. simpl in E'.
    rewrite <- E' in Hnew. assert (m !! entry_key g' = Some (entry_ids g')) as Hs by (apply Hm; eauto).
    congruence.
  - intros k ids. rewrite lookup_insert_Some, Hm. split.
    + intros [[<- <-]|(Hne & g' & Hg' & ? & ?)]; [exists g|exists g']; set_solver.
    + intros (g' & [Hg'| ->%list_elem_of_singleton]%elem_of_app & Hk & Hi); [|by left].
      destruct (decide (entry_key g = k)) as [E'|Hne]; [|right; split; [done|by exists g']].
      exfalso. rewrite E' in Hnew. assert (m !! k = Some ids) by (apply Hm; eauto). congruence.
Qed.

Lemma recipient_index_tabulated badges entries seen got seen' :
  foldM (check_recipient_index badges) entries (∅, seen) = Ok (got, seen') ->
  tabulated bri_Recipient bri_BadgeIDs entries got.
Proof.
  apply (foldM_ind _ (fun pre st => tabulated bri_Recipient bri_BadgeIDs pre (fst st))).
  - split; [constructor|]. intros k ids. simpl. rewrite lookup_empty. set_solver.
  - intros pre g [m s] [m' s'] Hpre H. unfold check_recipient_index in H. go_inv H.
    injection H as <- <-. bool_prop. apply tabulated_insert; [done|]. by apply eq_None_not_Some.
Qed.

Lemma repository_index_tabulated badges entries seen got seen' :
  foldM (check_repository_index badges) entries (∅, seen) = Ok (got, seen') ->
  tabulated bpi_RepoID bpi_BadgeIDs entries got.
Proof.
  apply (foldM_ind _ (fun pre st => tabulated bpi_RepoID bpi_BadgeIDs pre (fst st))).
  - split; [constructor|]. intros k ids. simpl. rewrite lookup_empty. set_solver.
  - intros pre g [m s] [m' s'] Hpre H. unfold check_repository_index in H. go_inv H.
    injection H as <- <-. bool_prop. apply tabulated_insert; [done|]. by apply eq_None_not_Some.
Qed.

Lemma same_strict_eq {A} `{EqDecision A} (prev : option A) g w : same_strict prev g w = true -> g = w.
Proof.
  revert prev w. induction g as [|x g IH]; intros prev [|y w] H; try done. simpl in H.
  bool_prop. f_equal; [done|by eapply IH].
Qed.

Lemma equalIndexMaps_spec got want :
  equalIndexMaps got want = true ->
  dom got = dom want /\ forall k g w, got !! k = Some g -> want !! k = Some w -> g ≡ₚ w.
Proof.
  unfold equalIndexMaps. destruct (Nat.eqb_spec (size got) (size want)) as [Hs|]; [|done]. simpl.
  rewrite forallb_forall. intros Hall.
  assert (forall k w, want !! k = Some w -> exists g, got !! k = Some g /\ g ≡ₚ w) as Hk.
  { intros k w Hw. specialize (Hall (k, w)). simpl in Hall.
    destruct (got !! k) as [g|].
    - exists g. split; [done|]. apply same_strict_eq in Hall.
      + rewrite <- (merge_sort_Permutation Z.le g), <- (merge_sort_Permutation Z.le w).
        unfold sort_ids in Hall. by rewrite Hall.
      + apply list_elem_of_In. rewrite map_order_perm. by apply elem_of_map_to_list.
    - exfalso. enough (false = true) by done. apply Hall.
      apply list_elem_of_In. rewrite map_order_perm. by apply elem_of_map_to_list. }
  assert (dom want ⊆ dom got) as Hsub.
  { intros k [w Hw]%elem_of_dom. destruct (Hk k w Hw) as (g & Hg & _). apply elem_of_dom. by exists g. }
  split.
  - symmetry. apply set_eq. intros k. split; [apply Hsub|]. intros Hin.
    destruct (decide (k ∈ dom want)) as [|Hni]; [done|]. exfalso.
    assert (dom want ⊂ dom got) as Hss by set_solver.
    apply subset_size in Hss. rewrite !size_dom in Hss. lia.
  - intros k g w Hg Hw. destruct (Hk k w Hw) as (g' & Hg' & ?). congruence.
Qed.

Lemma index_exact_intro {E} (entry_key : E -> string) entry_ids badge_key entries badges got want :
  tabulated entry_key entry_ids entries got -> collected badge_key badges want ->
  NoDup (map badge_ID badges) -> equalIndexMaps got want = true ->
  index_exact entry_key entry_ids badge_key entries badges.
Proof.
  intros [Hnd Hgot] Hwant Hids [Hdom Heq]%equalIndexMaps_spec. constructor; [done| |].
  - intros g Hg. assert (got !! entry_key g = Some (entry_ids g)) as Hl by (apply Hgot; eauto).
    assert (entry_key g ∈ dom want) as [w Hw]%elem_of_dom
      by (rewrite <- Hdom; apply elem_of_dom; by eexists).
    pose proof (Heq _ _ _ Hl Hw) as Hp. rewrite Hwant in Hw.
    set (bs := filter (fun b => badge_key b = entry_key g) badges) in *.
    assert (w = map badge_ID bs /\ bs <> []) as [-> Hne] by (destruct bs; [done|by injection Hw as <-]).
    split; [done|]. split; [|intros E0; rewrite E0 in Hp; apply Permutation_nil in Hp; by destruct bs].
    rewrite Hp. unfold bs. eapply sublist_NoDup; [exact Hids|].
    apply (fmap_sublist badge_ID), sublist_filter.
  - intros b Hb. assert (badge_key b ∈ dom got) as [ids Hi]%elem_of_dom.
    { rewrite Hdom. apply elem_of_dom. rewrite Hwant.
      assert (b ∈ filter (fun b' => badge_key b' = badge_key b) badges) as Hin
        by (by apply list_elem_of_filter).
      destruct (filter _ badges); [by apply elem_of_nil in Hin|by eexists]. }
    apply Hgot in Hi as (g & Hg & Hk & _). by exists g.
Qed.

(** The badge indexes of an accepted snapshot are exact in both directions:
    under every recipient and under every repository exactly its badges are
    listed, each once, no key is listed twice and none is missing. *)
Theorem badge_indexes_exact repos s :
  check_badges repos s = Ok tt ->
  index_exact bri_Recipient bri_BadgeIDs badge_Recipient
    (bi_ByRecipient (snap_BadgeIndexes s)) (snap_Badges s) /\
  index_exact bpi_RepoID bpi_BadgeIDs badge_RepoID
    (bi_ByRepository (snap_BadgeIndexes s)) (snap_Badges s).
Proof.
  unfold check_badges. intros ([[badges byRecipient] byRepo] & Hb & H)%bind_ok.
  pose proof (badges_distinct _ _ _ _ Hb) as Hids. apply badges_collected in Hb as [Hr Hp].
  unfold validateBadgeIndexes in H. apply bind_ok in H as ([got1 seen1] & H1 & H).
  apply bind_ok in H as ([got2 seen2] & H2 & H). apply guard_ok in H as [Heq _].
  apply orb_false_iff in Heq as [E1%negb_false_iff E2%negb_false_iff].
  split; (eapply index_exact_intro; [|done|done|done]).
  - by eapply recipient_index_tabulated.
  - by eapply repository_index_tabulated.
Qed.

End Badges.

(** ** Splits and locators *)

Section Economics.
Context {GE : Geth} {GL : GethLaws} {MO : MapOrder}.

Definition sum_bps (l : list SnapshotSplit) : Z := foldr (fun e n => split_BPS e + n) 0 l.

Lemma sum_bps_app l k : sum_bps (l ++ k) = sum_bps l + sum_bps k.
Proof. induction l as [|e l IH]; simpl; [done|]. rewrite IH. lia. Qed.

Lemma check_split_loop r repo entries seen total :
  foldM (check_split r repo) entries (∅, 0) = Ok (seen, total) ->
  total = sum_bps entries /\ NoDup (map split_Recipient entries) /\
  Forall (fun e => split_Recipient e <> repo_Owner repo /\ split_BPS e <> 0) entries.
Proof.
  intros Hf. split_and!.
  - revert Hf. apply (foldM_ind _ (fun pre st => snd st = sum_bps pre)); [done|].
    intros pre e [sn t] st' Hpre H. unfold check_split in H. go_inv H. subst st'. simpl in *.
    rewrite sum_bps_app, Hpre. simpl. lia.
  - revert Hf. apply (foldM_distinct _ _ (fun (st : gset string * Z) k => k ∈ fst st)).
    intros [sn t] e st' H. unfold check_split in H. go_inv H. subst st'. bool_prop.
    split; [done|]. split; set_solver.
  - revert Hf. apply foldM_Forall. intros [sn t] e st' H. unfold check_split in H.
    go_inv H. by bool_prop.
Qed.

(** Accepted revenue splits leave the owner a remainder: at most 20 distinct
    recipients, none of them the owner of the repository, each with a positive
    share, and together at most 10000 basis points. *)
Theorem revenue_splits_bounded repos splitRepos r splitRepos' :
  Forall (fun e => is_u16 (split_BPS e)) (rs_Splits r) ->
  check_splits repos splitRepos r = Ok splitRepos' ->
  exists repo, repos !! rs_RepoID r = Some repo /\
    llen (rs_Splits r) <= MaxRevenueSplitRecipients /\
    NoDup (map split_Recipient (rs_Splits r)) /\
    Forall (fun e => split_Recipient e <> repo_Owner repo /\ 0 < split_BPS e) (rs_Splits r) /\
    0 <= 10000 - sum_bps (rs_Splits r) <= 10000.
Proof.
  intros Hty H. unfold check_splits in H. destruct (repos !! rs_RepoID r) as [repo|]; [|done].
  exists repo. apply guard_ok in H as [_ H]. apply guard_ok in H as [Hn H].
  apply bind_ok in H as ([seen total] & Hf & H). apply guard_ok in H as [Ht _].
  apply check_split_loop in Hf as (-> & Hnd & Hall). bool_prop.
  assert (Forall (fun e => split_Recipient e <> repo_Owner repo /\ 0 < split_BPS e) (rs_Splits r))
    as Hpos.
  { apply Forall_forall. intros e He. rewrite Forall_forall in Hall, Hty.
    destruct (Hall e He) as [? ?]. pose proof (Hty e He) as Hu. unfold is_u16 in Hu.
    split; [done|lia]. }
  split_and!; try done; [lia|]. clear -Hpos.
  induction Hpos as [|e l [_ He] Hl IH]; simpl; lia.
Qed.

(** No two repositories or aliases of an accepted snapshot answer to the
    same owner and name, and no two repositories have the same ID. *)
Theorem locators_unique s :
  validateSnapshot s = Ok tt ->
  NoDup (map (fun r => (repo_Owner r, repo_Name r)) (snap_Repositories s) ++
         map (fun a => (alias_Owner a, alias_Name a)) (snap_Aliases s)) /\
  NoDup (map repo_ID (snap_Repositories s)).
Proof. intros Hd%validateSnapshot_distinct. split; apply Hd. Qed.

End Economics.

(** ** Witnesses *)

Section SnapshotWitnesses.
Import SampleGeth Sample.

Definition sample_repos : gmap string SnapshotRepository :=
  repos_by_id (snap_Repositories snapshot).

Lemma sample_report_checked : exists reports, check_report sample_repos ∅ report = Ok reports.
Proof. apply is_ok_spec. vm_compute. reflexivity. Qed.

Lemma report_follows_lifecycle_witness :
  moderated report (rep_Trail report) "resolved" "frozen" 50.
Proof.
  destruct sample_report_checked as [reports H].
  exact (report_follows_lifecycle sample_repos ∅ report reports H).
Defined.

Lemma sample_badges_checked : check_badges sample_repos snapshot = Ok tt.
Proof. vm_compute. reflexivity. Qed.

Lemma badge_indexes_exact_witness :
  index_exact bri_Recipient bri_BadgeIDs badge_Recipient
    (bi_ByRecipient (snap_BadgeIndexes snapshot)) (snap_Badges snapshot) /\
  index_exact bpi_RepoID bpi_BadgeIDs badge_RepoID
    (bi_ByRepository (snap_BadgeIndexes snapshot)) (snap_Badges snapshot).
Proof. exact (badge_indexes_exact sample_repos snapshot sample_badges_checked). Defined.

Lemma sample_splits_checked : exists seen, check_splits sample_repos ∅ splits = Ok seen.
Proof. apply is_ok_spec. vm_compute. reflexivity. Qed.

Lemma sample_splits_typed : Forall (fun e => is_u16 (split_BPS e)) (rs_Splits splits).
Proof.
  apply Forall_cons; split; [unfold is_u16; simpl; lia|].
  apply Forall_cons; split; [unfold is_u16; simpl; lia|constructor].
Qed.

Lemma revenue_splits_bounded_witness :
  exists repo, sample_repos !! rs_RepoID splits = Some repo /\
    llen (rs_Splits splits) <= MaxRevenueSplitRecipients /\
    NoDup (map split_Recipient (rs_Splits splits)) /\
    Forall (fun e => split_Recipient e <> repo_Owner repo /\ 0 < split_BPS e) (rs_Splits splits) /\
    0 <= 10000 - sum_bps (rs_Splits splits) <= 10000.
Proof.
  destruct sample_splits_checked as [seen H].
  exact (revenue_splits_bounded sample_repos ∅ splits seen sample_splits_typed H).
Defined.

Lemma locators_unique_witness :
  NoDup (map (fun r => (repo_Owner r, repo_Name r)) (snap_Repositories snapshot) ++
         map (fun a => (alias_Owner a, alias_Name a)) (snap_Aliases snapshot)) /\
  NoDup (map repo_ID (snap_Repositories snapshot)).
Proof. exact (locators_unique snapshot snapshot_valid). Defined.

End SnapshotWitnesses.
