(* ===== verification/Replicationd.v ===== *)
(** * The replication service

    [cmd/igit-replicationd/main.go]: tickets (tokens signed with HMAC-SHA-256),
    the two handlers, the rate windows and the state file.  One [step] is one
    request or one restart; the service mutex makes each of them atomic where
    it reads or changes the state.  The Kubo daemon behind [http_post] and the
    signature scheme of identity tokens are parameters. *)
From Stdlib Require Import ZArith Lia Ascii String.
From Stdlib Require Strings.Byte.
From stdpp Require Import base list gmap strings option.
From S2P Require Import Prelude GoText GoIo Json Encodings.

Local Open Scope Z_scope.

(** ** Data *)

Record claims := mk_claims {
  cl_Kind : string;
  cl_Subject : string;
  cl_CID : string;
  cl_Owner : string;
  cl_Repo : string;
  cl_Ref : string;
  cl_PackSHA256 : string;
  cl_Size : Z;
  cl_ExpiresAt : Z;
  cl_JTI : string;
}.

Record replicationRequest := mk_request {
  rr_CID : string;
  rr_Owner : string;
  rr_Repo : string;
  rr_Ref : string;
  rr_PackSHA256 : string;
  rr_Size : Z;
  rr_ExpiresAt : Z;
}.

(** Times are nanoseconds since the epoch. *)
Record rateWindow := mk_window { rw_start : Z; rw_count : Z; rw_bytes : Z }.

(** The fields of [service] that [main] sets once. *)
Record settings := mk_settings {
  secret : bytes;
  identityKey : bytes;
  kuboAPI : string;
  maxBytes : Z;
  ratePerMin : Z;
  bytesPerMin : Z;
}.

(** The fields that requests change, and the state file ([None] before its
    creation). *)
Record service := mk_service {
  used : gmap string string;
  window : gmap string rateWindow;
  stateFile : option string;
}.

Definition unix (now : Z) : Z := now / 1000000000.
Definition minute : Z := 60 * 1000000000.

(** ** JSON *)

Definition claims_json (cl : claims) : json :=
  JObject (text_unless_empty "kind" (cl_Kind cl) ++
    [text_member "sub" (cl_Subject cl); text_member "cid" (cl_CID cl);
     text_member "owner" (cl_Owner cl); text_member "repo" (cl_Repo cl);
     text_member "ref" (cl_Ref cl); text_member "pack_sha256" (cl_PackSHA256 cl);
     int_member "size" (cl_Size cl); int_member "exp" (cl_ExpiresAt cl);
     text_member "jti" (cl_JTI cl)]).

Definition decode_claims (v : json) : result claims :=
  let? ms := struct_members v in
  let? kind := string_field "kind" "" ms in
  let? sub := string_field "sub" "" ms in
  let? cid := string_field "cid" "" ms in
  let? owner := string_field "owner" "" ms in
  let? repo := string_field "repo" "" ms in
  let? ref := string_field "ref" "" ms in
  let? sha := string_field "pack_sha256" "" ms in
  let? size := int64_field "size" 0 ms in
  let? exp := int64_field "exp" 0 ms in
  let? jti := string_field "jti" "" ms in
  Ok (mk_claims kind sub cid owner repo ref sha size exp jti).

Definition decode_request (v : json) : result replicationRequest :=
  let? ms := struct_members v in
  let? cid := string_field "cid" "" ms in
  let? owner := string_field "owner" "" ms in
  let? repo := string_field "repo" "" ms in
  let? ref := string_field "ref" "" ms in
  let? sha := string_field "pack_sha256" "" ms in
  let? size := int64_field "size" 0 ms in
  let? exp := int64_field "expires_at" 0 ms in
  Ok (mk_request cid owner repo ref sha size exp).

(** ** Tokens *)

Definition jwt_header_json : json :=
  JObject [text_member "alg" "HS256"; text_member "typ" "JWT"].
Definition jwt_header : string := EncodeToString (string_bytes (Marshal jwt_header_json)).

Definition mac_of (s : settings) (message : string) : bytes :=
  hmac_sha256 (secret s) (string_bytes message).

Definition sign (s : settings) (cl : claims) : string :=
  let payload := EncodeToString (string_bytes (Marshal (claims_json cl))) in
  jwt_header +:+ "." +:+ payload +:+ "." +:+
    EncodeToString (mac_of s (jwt_header +:+ "." +:+ payload)).

(** The claims in the payload of a token, unless they are [bad]; every failure
    has the same message. *)
Definition token_claims (message : string) (bad : claims -> bool) (part : string)
  : result claims :=
  match (let? raw := DecodeString part in
         let? v := Unmarshal (bytes_string raw) in decode_claims v) with
  | Ok cl => fail_if bad cl as Errorf message [] ;; Ok cl
  | Err _ => errf message []
  end.

Definition parseToken (s : settings) (now : Z) (header : string) : result claims :=
  fail_if negb (HasPrefix header "Bearer ") as Errorf "missing bearer authorization" [] ;;
  match Split (TrimPrefix header "Bearer ") "." with
  | [p0; p1; p2] =>
      match DecodeString p2 with
      | Ok sig =>
          fail_if negb (bool_decide (sig = mac_of s (p0 +:+ "." +:+ p1)))
            as Errorf "invalid authorization signature" [] ;;
          token_claims "invalid authorization claims"
            (fun cl => bool_decide (cl_Subject cl = ""%string) || (cl_ExpiresAt cl <=? unix now))
            p1
      | Err _ => errf "invalid authorization signature" []
      end
  | _ => errf "invalid authorization" []
  end.

(** [ed25519.Verify]: public key, message, signature. *)
Class Signatures := { ed25519_Verify : bytes -> bytes -> bytes -> bool }.

(** The Kubo daemon: a POST to an URL changes its state and may fail. *)
Class Kubo := {
  kubo : Type;
  http_post : string -> kubo -> kubo * result response;
}.

Section Service.
Context {SG : Signatures} {KB : Kubo}.
Variable s : settings.

Definition parseIdentityToken (now : Z) (header : string) : result claims :=
  fail_if negb (HasPrefix header "Bearer ") as Errorf "missing bearer authorization" [] ;;
  match Split (TrimPrefix header "Bearer ") "." with
  | [p0; p1; p2] =>
      match DecodeString p2 with
      | Ok sig =>
          fail_if negb (ed25519_Verify (identityKey s) (string_bytes (p0 +:+ "." +:+ p1)) sig)
            as Errorf "invalid identity authorization signature" [] ;;
          token_claims "invalid identity authorization claims"
            (fun cl => negb (bool_decide (cl_Kind cl = "identity"%string)) ||
               bool_decide (cl_Subject cl = ""%string) || (cl_ExpiresAt cl <=? unix now)) p1
      | Err _ => errf "invalid identity authorization signature" []
      end
  | _ => errf "invalid identity authorization" []
  end.

Definition identity (now : Z) (header : string) : result claims :=
  let by_token :=
    let? cl := parseToken s now header in
    fail_if negb (bool_decide (cl_Kind cl = "identity"%string))
      as Errorf "identity authorization required" [] ;;
    Ok cl in
  if llen (identityKey s) =? 32 then
    match parseIdentityToken now header with Ok cl => Ok cl | Err _ => by_token end
  else by_token.

(** The bindings of a ticket. *)
Definition same_binding (req : replicationRequest) (cl : claims) : bool :=
  bool_decide (rr_CID req = cl_CID cl) && bool_decide (rr_Owner req = cl_Owner cl) &&
  bool_decide (rr_Repo req = cl_Repo cl) && bool_decide (rr_Ref req = cl_Ref cl) &&
  bool_decide (rr_PackSHA256 req = cl_PackSHA256 cl) && (rr_Size req =? cl_Size cl).

Definition authorize (now : Z) (header : string) (req : replicationRequest) : result claims :=
  let? cl := parseToken s now header in
  fail_if negb (bool_decide (cl_Kind cl = "replication"%string)) ||
          bool_decide (cl_JTI cl = ""%string)
    as Errorf "invalid replication authorization" [] ;;
  fail_if negb (same_binding req cl)
    as Errorf "authorization does not match replication request" [] ;;
  fail_if (rr_Size req <=? 0) || (maxBytes s <? rr_Size req)
    as Errorf "pack exceeds upload limit" [] ;;
  Ok cl.

(** ** Rate limit *)

Definition set_window (st : service) (key : string) (w : rateWindow) : service :=
  mk_service (used st) (<[key := w]> (window st)) (stateFile st).

Definition window_key (subject owner repo : string) : string :=
  subject +:+ "|" +:+ owner +:+ "/" +:+ repo.

Definition allow (st : service) (now : Z) (subject owner repo : string) (size : Z)
  : service * bool :=
  if (size <=? 0) || (maxBytes s <? size) then (st, false)
  else
    let key := window_key subject owner repo in
    let fresh := (set_window st key (mk_window now 1 size), true) in
    match window st !! key with
    | None => fresh
    | Some w =>
        if minute <=? now - rw_start w then fresh
        else if (ratePerMin s <=? rw_count w) ||
                ((0 <? bytesPerMin s) && (i64 (bytesPerMin s - size) <? rw_bytes w))
        then (st, false)
        else (set_window st key (mk_window (rw_start w) (i64 (rw_count w + 1))
                                   (i64 (rw_bytes w + size))), true)
    end.

(** ** Requests and replies *)

Record http_request := mk_http_request {
  rq_method : string;
  rq_authorization : string;
  rq_body : string;
}.

Record reply := mk_reply { rp_status : Z; rp_body : string }.

(** An entry of the audit log. *)
Record audit_entry := mk_audit {
  au_at : Z;
  au_event : string;
  au_subject : string;
  au_request : replicationRequest;
  au_error : option goerror;
}.

(** [http.Error] and [writeJSON] *)
Definition http_error (status : Z) (message : string) : reply :=
  mk_reply status (message +:+ str1 newline).
Definition writeJSON (status : Z) (v : json) : reply :=
  mk_reply status (Marshal v +:+ str1 newline).

Definition maxReplicationRequestBody : Z := 65536.

(** [http.MaxBytesReader]: what a handler can read of a body. *)
Definition maxBody (body : string) : string :=
  String.substring 0 (Z.to_nat maxReplicationRequestBody) body.

Definition decode_body (r : http_request) : result replicationRequest :=
  let? (v, _) := Decode (maxBody (rq_body r)) in
  decode_request v.

(** ** Issuing a ticket *)

Definition invalid_binding (req : replicationRequest) : bool :=
  (rr_Size req <=? 0) || (maxBytes s <? rr_Size req) ||
  bool_decide (rr_CID req = ""%string) || bool_decide (rr_Owner req = ""%string) ||
  bool_decide (rr_Repo req = ""%string) || bool_decide (rr_Ref req = ""%string) ||
  negb (slen (rr_PackSHA256 req) =? 64).

Definition expiry (now : Z) (req : replicationRequest) : Z :=
  let expires := unix (now + 15 * minute) in
  if (0 <? rr_ExpiresAt req) && (rr_ExpiresAt req <? expires) then rr_ExpiresAt req else expires.

(** The claims of the ticket; [entropy] is what [randomID] reads. *)
Definition ticket (subject : string) (req : replicationRequest) (expires : Z) (entropy : bytes)
  : claims :=
  mk_claims "replication" subject (rr_CID req) (rr_Owner req) (rr_Repo req) (rr_Ref req)
    (rr_PackSHA256 req) (rr_Size req) expires (EncodeToString entropy).

Definition issueAuthorization (st : service) (now : Z) (entropy : bytes) (r : http_request)
  : service * list audit_entry * reply :=
  if negb (bool_decide (rq_method r = "POST"%string)) then
    (st, [], http_error 405 "method not allowed")
  else match decode_body r with
  | Err _ => (st, [], http_error 400 "invalid JSON")
  | Ok req =>
      match identity now (rq_authorization r) with
      | Err e =>
          (st, [mk_audit now "authorization_denied" "" req (Some e)],
           http_error 401 (Error e))
      | Ok who =>
          if invalid_binding req then
            (st, [], http_error 400 "invalid upload authorization binding")
          else
            let '(st', allowed) :=
              allow st now (cl_Subject who) (rr_Owner req) (rr_Repo req) (rr_Size req) in
            if negb allowed then (st', [], http_error 429 "rate limit exceeded")
            else
              let expires := expiry now req in
              if expires <=? unix now then
                (st', [], http_error 400 "requested expiration is invalid")
              else
                let token := sign s (ticket (cl_Subject who) req expires entropy) in
                (st', [mk_audit now "authorization_issued" (cl_Subject who) req None],
                 writeJSON 201 (JObject [text_member "authorization" token;
                                         int_member "expires_at" expires]))
      end
  end.

(** ** Kubo *)

Definition kuboPost (path : string) (k : kubo) : kubo * result unit :=
  let '(k', r) := http_post (kuboAPI s +:+ path) k in
  (k', let? resp := r in
       fail_if negb (re_status resp =? 200)
         as Errorf "Kubo API HTTP %d" [GInt (re_status resp)] ;;
       Ok tt).

Definition kuboVerify (cid : string) (want : Z) (k : kubo) : kubo * result (string * Z) :=
  let '(k', r) := http_post (kuboAPI s +:+ "/api/v0/cat?arg=" +:+ QueryEscape cid) k in
  (k', let? resp := r in
       fail_if negb (re_status resp =? 200)
         as Errorf "Kubo cat HTTP %d" [GInt (re_status resp)] ;;
       let? data := read_limited (i64 (want + 1)) resp in
       Ok (sha256_hex (string_bytes data), slen data)).

Definition pin_add_path (cid : string) : string :=
  "/api/v0/pin/add?arg=" +:+ QueryEscape cid +:+ "&recursive=true".
Definition pin_rm_path (cid : string) : string := "/api/v0/pin/rm?arg=" +:+ QueryEscape cid.

(** ** The state file *)

Definition tab : ascii := ascii_of_N 9.

Definition record_line (cl : claims) (req : replicationRequest) : string :=
  cl_JTI cl +:+ str1 tab +:+ rr_CID req +:+ str1 tab +:+ FormatInt (cl_ExpiresAt cl) +:+
  str1 tab +:+ cl_Subject cl +:+ str1 tab +:+ rr_Owner req +:+ str1 tab +:+ rr_Repo req +:+
  str1 tab +:+ rr_Ref req +:+ str1 tab +:+ FormatInt (rr_Size req) +:+ str1 newline.

(** What the disk does with a line: it may be refused, or break off after some
    bytes. *)
Inductive disk_write : Type :=
| Written
| Refused (e : goerror)
| Partial (n : nat) (e : goerror).

Definition contents (st : service) : string := default ""%string (stateFile st).

Definition record (st : service) (disk : disk_write) (cl : claims) (req : replicationRequest)
  : service * result unit :=
  match disk with
  | Refused e => (st, Err e)
  | Partial n e =>
      (mk_service (used st) (window st)
         (Some (contents st +:+ String.substring 0 n (record_line cl req))), Err e)
  | Written =>
      (mk_service (<[cl_JTI cl := rr_CID req]> (used st)) (window st)
         (Some (contents st +:+ record_line cl req)), Ok tt)
  end.

Definition load_line (m : gmap string string) (line : string) : gmap string string :=
  match Split line tab with
  | jti :: cid :: _ => <[jti := cid]> m
  | _ => m
  end.

(** [loadState]: the used tickets of a new process. *)
Definition loadState (file : option string) : gmap string string :=
  match file with
  | None => empty
  | Some data => foldl load_line empty (Split data newline)
  end.

(** ** Replicating *)

Definition pinned_reply (req : replicationRequest) (cl : claims) (idempotent : bool) : reply :=
  if idempotent
  then writeJSON 200 (JObject [text_member "cid" (rr_CID req);
         int_member "expires_at" (cl_ExpiresAt cl); bool_member "idempotent" true;
         bool_member "pinned" true])
  else writeJSON 201 (JObject [text_member "cid" (rr_CID req);
         int_member "expires_at" (cl_ExpiresAt cl); bool_member "pinned" true]).

(** The reply to a ticket that has been used. *)
Definition already (st : service) (cl : claims) (req : replicationRequest) : option reply :=
  match used st !! cl_JTI cl with
  | Some existing =>
      Some (if decide (existing = rr_CID req) then pinned_reply req cl true
            else http_error 409 "authorization already used")
  | None => None
  end.

(** The verdict on what Kubo holds under the CID. *)
Definition check_content (req : replicationRequest) (r : result (string * Z)) : result unit :=
  let? (hash, size) := r in
  fail_if negb (size =? rr_Size req)
    as Errorf "pinned content is %d bytes, authorization declared %d"
         [GInt size; GInt (rr_Size req)] ;;
  fail_if negb (bool_decide (hash = rr_PackSHA256 req)) as Errorf "pack SHA-256 mismatch" [] ;;
  Ok tt.

Definition outcome : Type := service * kubo * list audit_entry * reply.

(** The part of [replicate] that pins, verifies and records. *)
Definition pin_and_record (st : service) (k : kubo) (now : Z) (disk : disk_write)
    (cl : claims) (req : replicationRequest) : outcome :=
  let audit event e := [mk_audit now event (cl_Subject cl) req e] in
  match kuboPost (pin_add_path (rr_CID req)) k with
  | (k1, Err e) => (st, k1, audit "pin_failed"%string (Some e), http_error 502 "US pin failed")
  | (k1, Ok _) =>
      let '(k2, verified) := kuboVerify (rr_CID req) (rr_Size req) k1 in
      match check_content req verified with
      | Err e =>
          let '(k3, _) := kuboPost (pin_rm_path (rr_CID req)) k2 in
          (st, k3, audit "hash_failed"%string (Some e), http_error 502 "pack verification failed")
      | Ok _ =>
          match record st disk cl req with
          | (st', Err e) => (st', k2, audit "state_failed"%string (Some e),
                             http_error 500 "pin recorded but state write failed")
          | (st', Ok _) => (st', k2, audit "pinned"%string None, pinned_reply req cl false)
          end
      end
  end.

Definition replicate (st : service) (k : kubo) (now : Z) (disk : disk_write) (r : http_request)
  : outcome :=
  if negb (bool_decide (rq_method r = "POST"%string)) then
    (st, k, [], http_error 405 "method not allowed")
  else match decode_body r with
  | Err _ => (st, k, [], http_error 400 "invalid JSON")
  | Ok req =>
      match authorize now (rq_authorization r) req with
      | Err e => (st, k, [mk_audit now "denied" "" req (Some e)], http_error 401 (Error e))
      | Ok cl =>
          match already st cl req with
          | Some rp => (st, k, [], rp)
          | None =>
              (* the second look at [s.used], under the same lock *)
              match already st cl req with
              | Some rp => (st, k, [], rp)
              | None => pin_and_record st k now disk cl req
              end
          end
      end
  end.

(** ** The service as a state machine *)

(** Other users of the Kubo daemon act on it by any POST. *)
Inductive step : service * kubo -> service * kubo -> Prop :=
| step_issue st k now entropy r st' log rp :
    issueAuthorization st now entropy r = (st', log, rp) -> step (st, k) (st', k)
| step_replicate st k now disk r st' k' log rp :
    replicate st k now disk r = (st', k', log, rp) -> step (st, k) (st', k')
| step_kubo st k url k' resp :
    http_post url k = (k', resp) -> step (st, k) (st, k')
| step_restart st k :
    step (st, k) (mk_service (loadState (stateFile st)) empty (stateFile st), k).

Definition started (file : option string) : service := mk_service (loadState file) empty file.

Inductive reachable (k0 : kubo) : service * kubo -> Prop :=
| reachable_start : reachable k0 (started None, k0)
| reachable_step c c' : reachable k0 c -> step c c' -> reachable k0 c'.

End Service.

(** ** Configuration *)

(** [env] and [envInt64], of the value of the variable ([os.Getenv]). *)
Definition env (value d : string) : string := if decide (value = ""%string) then d else value.
Definition envInt64 (value : string) (d : Z) : Z :=
  match ParseInt (env value (FormatInt d)) with
  | Some v => if v <=? 0 then d else v
  | None => d
  end.
