(* ===== verification/ReplicationdSpec.v ===== *)
(** * ReplicationdSpec: lemmas on the replication service

    Tokens round-trip, the state file reloads what was recorded, and what the
    steps of the service leave unchanged. *)
From Stdlib Require Import ZArith Lia Ascii String.
From Stdlib Require Strings.Byte.
From stdpp Require Import base list gmap strings option relations.
From S2P Require Import Prelude GoText GoIo Json JsonSpec Encodings Replicationd.

Local Open Scope Z_scope.

(** ** Separators in base64 *)

Lemma b64_digit_without : forall c, b64_digit c = true ->
  negb (is_char "." c) && negb (is_char tab c) && negb (is_char newline c) = true.
Proof.
  intros c H. enough (negb (b64_digit c) ||
    negb (is_char "." c) && negb (is_char tab c) && negb (is_char newline c) = true) as E
    by (by rewrite H in E).
  clear H. revert c. all_ascii.
Qed.

Lemma EncodeToString_without b :
  without "." (EncodeToString b) = true /\ without tab (EncodeToString b) = true /\
  without newline (EncodeToString b) = true.
Proof.
  unfold without. split_and!; (eapply all_chars_impl; [|apply EncodeToString_digits]);
    intros c Hc%b64_digit_without; by repeat apply andb_true_iff in Hc as [Hc ?].
Qed.

(** ** Tokens *)

Lemma bytes_string_bytes t : bytes_string (string_bytes t) = t.
Proof. apply string_of_list_byte_of_string. Qed.

(** Claims that survive printing: UTF-8 strings and 64-bit integers. *)
Record claims_ok (cl : claims) : Prop := {
  co_strings : Forall (fun t => valid_utf8 t = true)
    [cl_Kind cl; cl_Subject cl; cl_CID cl; cl_Owner cl; cl_Repo cl; cl_Ref cl;
     cl_PackSHA256 cl; cl_JTI cl];
  co_size : - 2 ^ 63 <= cl_Size cl < 2 ^ 63;
  co_expires : - 2 ^ 63 <= cl_ExpiresAt cl < 2 ^ 63;
}.

Lemma claims_json_ok cl :
  claims_ok cl -> json_ok (claims_json cl) = true /\ (nesting (claims_json cl) <= max_depth)%nat.
Proof.
  intros [Hs _ _]. unfold claims_json, text_unless_empty, text_member, int_member.
  assert (1 <= max_depth)%nat by (unfold max_depth; lia).
  decompose_Forall_hyps. split; case_decide; cbn [app json_ok forallb nesting map max_of fold_right];
    rewrite ?json_ok_JInt;
    repeat match goal with E : valid_utf8 _ = true |- _ => rewrite E; clear E end; try done; lia.
Qed.

Lemma decode_claims_json cl : claims_ok cl -> decode_claims (claims_json cl) = Ok cl.
Proof.
  intros [_ Hsz Hexp]. unfold claims_json, decode_claims, text_unless_empty.
  destruct cl as [kind sub cid owner repo ref sha size exp jti]; simpl in *.
  case_decide as Hk; cbn [app struct_members]; read_fields; by subst.
Qed.

Lemma token_claims_signed message bad cl :
  claims_ok cl ->
  token_claims message bad (EncodeToString (string_bytes (Marshal (claims_json cl)))) =
  if bad cl then errf message [] else Ok cl.
Proof.
  intros Hcl. destruct (claims_json_ok cl Hcl) as [Hok Hn]. unfold token_claims.
  rewrite DecodeString_EncodeToString, bytes_string_bytes, Unmarshal_Marshal by done.
  by rewrite decode_claims_json.
Qed.

(** A signed token parses back to its claims until it expires. *)
Lemma parseToken_sign s now cl :
  claims_ok cl ->
  parseToken s now ("Bearer " +:+ sign s cl) =
  if bool_decide (cl_Subject cl = ""%string) || (cl_ExpiresAt cl <=? unix now)
  then errf "invalid authorization claims" [] else Ok cl.
Proof.
  intros Hcl. unfold parseToken. rewrite HasPrefix_app, TrimPrefix_app. cbn [negb]. unfold sign.
  pose proof (proj1 (EncodeToString_without (string_bytes (Marshal (claims_json cl))))) as Hp.
  assert (without "." jwt_header = true) as Hh
    by exact (proj1 (EncodeToString_without (string_bytes (Marshal jwt_header_json)))).
  remember (EncodeToString (string_bytes (Marshal (claims_json cl)))) as payload eqn:Epayload.
  generalize dependent jwt_header. intros header Hh. rewrite !str_cons_app, !str_nil_app.
  rewrite (Split_app header), (Split_app payload), Split_without
    by first [done|apply EncodeToString_without].
  rewrite DecodeString_EncodeToString, bool_decide_eq_true_2 by done. cbn [negb].
  rewrite Epayload. by apply token_claims_signed.
Qed.

(** ** Decoded requests *)

Lemma decode_body_ok r req :
  decode_body r = Ok req ->
  Forall (fun t => valid_utf8 t = true)
    [rr_CID req; rr_Owner req; rr_Repo req; rr_Ref req; rr_PackSHA256 req] /\
  - 2 ^ 63 <= rr_Size req < 2 ^ 63 /\ - 2 ^ 63 <= rr_ExpiresAt req < 2 ^ 63.
Proof.
  unfold decode_body. intros ([v rest] & Hd & H)%bind_ok. apply Decode_strings_ok in Hd.
  unfold decode_request in H. apply bind_ok in H as (ms & Hm & H).
  assert (strings_ok (JObject ms) = true) as Hok by (destruct v; simpl in Hm; naive_solver).
  repeat match type of H with (let? _ := _ in _) = _ => apply bind_ok in H as (? & ? & H) end.
  injection H as <-. cbn [rr_CID rr_Owner rr_Repo rr_Ref rr_PackSHA256 rr_Size rr_ExpiresAt].
  split_and?; try (by eapply int64_field_range).
  repeat constructor; by eapply string_field_valid.
Qed.

Lemma token_claims_ok message bad part cl :
  token_claims message bad part = Ok cl -> claims_ok cl /\ bad cl = false.
Proof.
  unfold token_claims. destruct (let? raw := _ in _) as [cl'|] eqn:E; [|done].
  intros [Hb H]%guard_ok. injection H as <-. split; [|done].
  apply bind_ok in E as (raw & _ & E). apply bind_ok in E as (v & Hv & E).
  apply Unmarshal_strings_ok in Hv.
  unfold decode_claims in E. apply bind_ok in E as (ms & Hm & E).
  assert (strings_ok (JObject ms) = true) as Hok by (destruct v; simpl in Hm; naive_solver).
  repeat match type of E with (let? _ := _ in _) = _ => apply bind_ok in E as (? & ? & E) end.
  injection E as <-. split; cbn [cl_Kind cl_Subject cl_CID cl_Owner cl_Repo cl_Ref cl_PackSHA256
    cl_Size cl_ExpiresAt cl_JTI]; try (by eapply int64_field_range).
  repeat constructor; by eapply string_field_valid.
Qed.

Lemma parseToken_ok s now header cl :
  parseToken s now header = Ok cl ->
  claims_ok cl /\ cl_Subject cl <> ""%string /\ unix now < cl_ExpiresAt cl.
Proof.
  unfold parseToken. intros [_ H]%guard_ok.
  destruct (Split _ _) as [|p0 [|p1 [|p2 [|]]]]; try done.
  destruct (DecodeString p2); [|done]. apply guard_ok in H as [_ H].
  apply token_claims_ok in H as [Hok Hb]. bool_prop. naive_solver lia.
Qed.

Section Service.
Context {SG : Signatures} {KB : Kubo}.
Variable s : settings.

Lemma identity_ok now header cl :
  identity s now header = Ok cl -> claims_ok cl /\ cl_Subject cl <> ""%string.
Proof.
  unfold identity. intros H.
  assert ((let? cl := parseToken s now header in
    fail_if negb (bool_decide (cl_Kind cl = "identity"%string))
      as Errorf "identity authorization required" [] ;; Ok cl) = Ok cl ->
    claims_ok cl /\ cl_Subject cl <> ""%string) as Htok.
  { intros (cl' & Hp & Hc)%bind_ok. apply guard_ok in Hc as [_ [= ->]].
    apply parseToken_ok in Hp. naive_solver. }
  destruct (llen (identityKey s) =? 32); [|by apply Htok].
  destruct (parseIdentityToken s now header) as [cl'|] eqn:E; [|by apply Htok].
  injection H as ->. unfold parseIdentityToken in E. apply guard_ok in E as [_ E].
  destruct (Split _ _) as [|p0 [|p1 [|p2 [|]]]]; try done.
  destruct (DecodeString p2); [|done]. apply guard_ok in E as [_ E].
  apply token_claims_ok in E as [Hok Hb]. split; [done|]. by bool_prop.
Qed.

Lemma EncodeToString_nonempty b : b <> [] -> EncodeToString b <> ""%string.
Proof.
  intros Hb He. pose proof (DecodeString_EncodeToString b) as H. rewrite He in H.
  by injection H as <-.
Qed.

Lemma b64_digit_ascii : forall c, negb (b64_digit c) || (code c <? 0x80) = true.
Proof. all_ascii. Qed.

Lemma EncodeToString_valid b : valid_utf8 (EncodeToString b) = true.
Proof.
  apply ascii_valid. eapply all_chars_impl; [|apply EncodeToString_digits].
  intros c Hc. pose proof (b64_digit_ascii c) as H. by rewrite Hc in H.
Qed.

Lemma ticket_ok subject req expires entropy r :
  decode_body r = Ok req -> valid_utf8 subject = true -> - 2 ^ 63 <= expires < 2 ^ 63 ->
  claims_ok (ticket subject req expires entropy).
Proof.
  intros (Hs & Hz & _)%decode_body_ok Hsub He. decompose_Forall_hyps.
  pose proof (EncodeToString_valid entropy).
  split; cbn [ticket cl_Kind cl_Subject cl_CID cl_Owner cl_Repo cl_Ref cl_PackSHA256
    cl_Size cl_ExpiresAt cl_JTI]; try done.
  repeat constructor; done.
Qed.

(** What [issueAuthorization] did when it answered with a ticket. *)
Lemma issue_inv st now entropy r st' log rp :
  issueAuthorization s st now entropy r = (st', log, rp) -> rp_status rp = 201 ->
  exists req who,
    decode_body r = Ok req /\ identity s now (rq_authorization r) = Ok who /\
    invalid_binding s req = false /\
    allow s st now (cl_Subject who) (rr_Owner req) (rr_Repo req) (rr_Size req) = (st', true) /\
    unix now < expiry now req /\
    rp = writeJSON 201 (JObject
      [text_member "authorization"
         (sign s (ticket (cl_Subject who) req (expiry now req) entropy));
       int_member "expires_at" (expiry now req)]).
Proof.
  unfold issueAuthorization. intros H Hrp.
  destruct (negb _); [injection H as <- <- <-; discriminate Hrp|].
  destruct (decode_body r) as [req|] eqn:Er; [|injection H as <- <- <-; discriminate Hrp].
  destruct (identity _ _ _) as [who|e] eqn:Ei; [|injection H as <- <- <-; discriminate Hrp].
  destruct (invalid_binding _ _) eqn:Eb; [injection H as <- <- <-; discriminate Hrp|].
  destruct (allow _ _ _ _ _ _ _) as [st1 []] eqn:Ea; cbn [negb] in H; [|injection H as <- <- <-; discriminate Hrp].
  destruct (expiry now req <=? unix now) eqn:E; [injection H as <- <- <-; discriminate Hrp|].
  injection H as <- <- <-. exists req, who. apply Z.leb_gt in E.
  split_and!; reflexivity || assumption.
Qed.

(** What [replicate] did when it answered 201. *)
Lemma replicate_inv st k now disk r st' k' log rp :
  replicate s st k now disk r = (st', k', log, rp) -> rp_status rp = 201 ->
  exists req cl k1,
    decode_body r = Ok req /\ authorize s now (rq_authorization r) req = Ok cl /\
    used st !! cl_JTI cl = None /\
    kuboPost s (pin_add_path (rr_CID req)) k = (k1, Ok tt) /\
    (exists verified, kuboVerify s (rr_CID req) (rr_Size req) k1 = (k', verified) /\
      check_content req verified = Ok tt) /\
    record st disk cl req = (st', Ok tt) /\ rp = pinned_reply req cl false.
Proof.
  unfold replicate. intros H Hrp.
  destruct (negb _); [injection H as <- <- <- <-; discriminate Hrp|].
  destruct (decode_body r) as [req|] eqn:Er; [|injection H as <- <- <- <-; discriminate Hrp].
  destruct (authorize _ _ _ _) as [cl|] eqn:Ea; [|injection H as <- <- <- <-; discriminate Hrp].
  unfold already in H. destruct (used st !! cl_JTI cl) eqn:Eu.
  { injection H as <- <- <- <-. case_decide; discriminate Hrp. }
  unfold pin_and_record in H.
  destruct (kuboPost _ (pin_add_path _) k) as [k1 [[]|e]] eqn:Ep;
    [|injection H as <- <- <- <-; discriminate Hrp].
  destruct (kuboVerify _ _ _ k1) as [k2 verified] eqn:Ev.
  destruct (check_content req verified) as [[]|e] eqn:Ec.
  2: { destruct (kuboPost _ (pin_rm_path _) k2). injection H as <- <- <- <-. discriminate Hrp. }
  destruct (record st disk cl req) as [st1 [[]|e]] eqn:Ew;
    [|injection H as <- <- <- <-; discriminate Hrp].
  injection H as <- <- <- <-. exists req, cl, k1. split_and!; try reflexivity; try assumption.
  exists verified. split; assumption.
Qed.

(** Whatever the answer, a request changes the state at most by recording. *)
Lemma replicate_state st k now disk r st' k' log rp :
  replicate s st k now disk r = (st', k', log, rp) ->
  (st' = st \/ exists req cl, decode_body r = Ok req /\
     authorize s now (rq_authorization r) req = Ok cl /\ used st !! cl_JTI cl = None /\
     st' = (record st disk cl req).1).
Proof.
  unfold replicate. intros H.
  destruct (negb _); [left; congruence|].
  destruct (decode_body r) as [req|] eqn:Er; [|left; congruence].
  destruct (authorize _ _ _ _) as [cl|] eqn:Ea; [|left; congruence].
  unfold already in H. destruct (used st !! cl_JTI cl) eqn:Eu; [left; congruence|].
  unfold pin_and_record in H.
  destruct (kuboPost _ (pin_add_path _) k) as [k1 [[]|e]]; [|left; congruence].
  destruct (kuboVerify _ _ _ k1) as [k2 verified].
  destruct (check_content req verified) as [[]|e].
  2: { destruct (kuboPost _ (pin_rm_path _) k2). left; congruence. }
  right. exists req, cl. split_and!; try done.
  destruct (record st disk cl req) as [st1 [[]|e]]; simpl; congruence.
Qed.

Lemma allow_frame st now subject owner repo size st' ok :
  allow s st now subject owner repo size = (st', ok) ->
  used st' = used st /\ stateFile st' = stateFile st.
Proof.
  unfold allow. intros H. repeat case_match; simplify_eq; done.
Qed.

Lemma issue_frame st now entropy r st' log rp :
  issueAuthorization s st now entropy r = (st', log, rp) ->
  used st' = used st /\ stateFile st' = stateFile st.
Proof.
  unfold issueAuthorization. intros H.
  destruct (negb _); [by simplify_eq|]. destruct (decode_body r); [|by simplify_eq].
  destruct (identity _ _ _); [|by simplify_eq]. destruct (invalid_binding _ _); [by simplify_eq|].
  destruct (allow _ _ _ _ _ _ _) as [st1 b] eqn:Ea. apply allow_frame in Ea.
  destruct (negb b); [by simplify_eq|]. by case_match; simplify_eq.
Qed.

(** ** The state file *)

(** The fields of a record stay within their columns. *)
Definition clean_record (cl : claims) (req : replicationRequest) : bool :=
  without tab (cl_JTI cl) && without newline (cl_JTI cl) &&
  without tab (rr_CID req) && without newline (rr_CID req) &&
  without newline (cl_Subject cl) && without newline (rr_Owner req) &&
  without newline (rr_Repo req) && without newline (rr_Ref req).

Definition terminated (lines : list string) : string :=
  concat_map (fun x => x +:+ str1 newline) lines.

(** The file is a sequence of lines that load as the tickets used so far. *)
Definition file_holds (st : service) : Prop :=
  exists lines, Forall (fun x => without newline x = true) lines /\
    contents st = terminated lines /\ used st = foldl load_line empty lines.

Lemma Split_terminated lines :
  Forall (fun x => without newline x = true) lines ->
  Split (terminated lines) newline = lines ++ [""%string].
Proof.
  induction 1 as [|x lines Hx Hl IH]; [done|]. cbn [terminated concat_map fold_right].
  unfold str1. rewrite str_app_assoc, str_cons_app, str_nil_app, Split_app by done.
  change (fold_right _ _ lines) with (terminated lines). by rewrite IH.
Qed.

Lemma loadState_holds st : file_holds st -> loadState (stateFile st) = used st.
Proof.
  intros (lines & Hl & Hf & ->). unfold contents in Hf. unfold loadState.
  destruct (stateFile st) as [data|]; simpl in Hf.
  - by rewrite Hf, Split_terminated, foldl_app.
  - destruct lines as [|x lines]; [done|]. by destruct x.
Qed.

Lemma terminated_app a b : terminated (a ++ b) = (terminated a +:+ terminated b)%string.
Proof.
  induction a as [|x a IH]; [done|]. cbn [app]. unfold terminated, concat_map in *.
  cbn [fold_right]. by rewrite IH, !str_app_assoc.
Qed.

Lemma digits_clean : forall c, is_digit c || is_char "-" c = true ->
  negb (is_char tab c) && negb (is_char newline c) = true.
Proof.
  intros c H. enough (negb (is_digit c || is_char "-" c) ||
    negb (is_char tab c) && negb (is_char newline c) = true) as E by (by rewrite H in E).
  clear H. revert c. all_ascii.
Qed.

Lemma FormatInt_chars z :
  all_chars (fun c => is_digit c || is_char "-" c) (FormatInt z) = true.
Proof.
  unfold FormatInt. destruct (z <? 0); cbn [all_chars];
    (eapply all_chars_impl; [|apply FormatUint_digits]); by intros c ->.
Qed.

Lemma FormatInt_newline z : without newline (FormatInt z) = true.
Proof.
  eapply all_chars_impl; [|apply FormatInt_chars].
  by intros c [_ ?]%digits_clean%andb_true_iff.
Qed.

(** The line of a clean record loads as its ticket. *)
Lemma record_line_loads cl req :
  clean_record cl req = true ->
  exists x, record_line cl req = (x +:+ str1 newline)%string /\ without newline x = true /\
    forall m, load_line m x = <[cl_JTI cl := rr_CID req]> m.
Proof.
  unfold clean_record. rewrite !andb_true_iff. intros H. destruct_and! H.
  exists (cl_JTI cl +:+ str1 tab +:+ rr_CID req +:+ str1 tab +:+ FormatInt (cl_ExpiresAt cl) +:+
    str1 tab +:+ cl_Subject cl +:+ str1 tab +:+ rr_Owner req +:+ str1 tab +:+ rr_Repo req +:+
    str1 tab +:+ rr_Ref req +:+ str1 tab +:+ FormatInt (rr_Size req))%string. split_and!.
  - unfold record_line. by rewrite !str_app_assoc.
  - rewrite !without_app, !FormatInt_newline.
    repeat match goal with E : without newline _ = true |- _ => rewrite E; clear E end. done.
  - intros m. unfold load_line, str1. rewrite str_cons_app, str_nil_app, Split_app by done.
    rewrite str_cons_app, str_nil_app, Split_app by done. done.
Qed.

Lemma record_holds st disk cl req :
  file_holds st -> clean_record cl req = true -> (forall n e, disk <> Partial n e) ->
  file_holds (record st disk cl req).1.
Proof.
  intros (lines & Hl & Hf & Hu) Hc Hd. destruct disk as [|e|n e]; [|by exists lines|by edestruct Hd].
  destruct (record_line_loads cl req Hc) as (x & Hx & Hnl & Hload).
  exists (lines ++ [x]). split_and!.
  - apply Forall_app_2; [done|by constructor].
  - cbn [record fst contents stateFile default]. rewrite terminated_app, Hf, Hx.
    unfold terminated. simpl. by rewrite str_app_nil.
  - cbn [record fst used]. rewrite foldl_app. simpl. by rewrite Hload, Hu.
Qed.

(** ** Steps with clean records *)

Definition clean_request (now : Z) (r : http_request) : Prop :=
  forall req cl, decode_body r = Ok req -> authorize s now (rq_authorization r) req = Ok cl ->
    clean_record cl req = true.

(** A [step] whose record, if any, stays within its line and is written whole
    or not at all. *)
Inductive clean_step : service * kubo -> service * kubo -> Prop :=
| clean_issue st k now entropy r st' log rp :
    issueAuthorization s st now entropy r = (st', log, rp) -> clean_step (st, k) (st', k)
| clean_replicate st k now disk r st' k' log rp :
    clean_request now r -> (forall n e, disk <> Partial n e) ->
    replicate s st k now disk r = (st', k', log, rp) -> clean_step (st, k) (st', k')
| clean_kubo st k url k' resp :
    http_post url k = (k', resp) -> clean_step (st, k) (st, k')
| clean_restart st k :
    clean_step (st, k) (mk_service (loadState (stateFile st)) empty (stateFile st), k).

Lemma clean_step_step c c' : clean_step c c' -> step s c c'.
Proof. destruct 1; econstructor; eassumption. Qed.

Lemma clean_step_holds c c' : clean_step c c' -> file_holds c.1 -> file_holds c'.1.
Proof.
  destruct 1 as [st k now entropy r st' log rp H|st k now disk r st' k' log rp Hc Hd H
                |st k url k' resp H|st k]; simpl; intros Hf.
  - apply issue_frame in H as [Hu Hs]. unfold file_holds, contents in *. by rewrite Hu, Hs.
  - apply replicate_state in H as [->|(req & cl & Hr & Ha & _ & ->)]; [done|].
    apply record_holds; [done|by eapply Hc|done].
  - done.
  - rewrite (loadState_holds st Hf). exact Hf.
Qed.

Lemma clean_step_used c c' jti cid :
  clean_step c c' -> file_holds c.1 -> used c.1 !! jti = Some cid -> used c'.1 !! jti = Some cid.
Proof.
  destruct 1 as [st k now entropy r st' log rp H|st k now disk r st' k' log rp Hc Hd H
                |st k url k' resp H|st k]; simpl; intros Hf Hj.
  - apply issue_frame in H as [Hu _]. by rewrite Hu.
  - apply replicate_state in H as [->|(req & cl & _ & _ & Hn & ->)]; [done|].
    destruct disk; simpl; [|done|done]. rewrite lookup_insert_ne; [done|congruence].
  - done.
  - by rewrite (loadState_holds st Hf).
Qed.

Lemma started_holds : file_holds (started None).
Proof. by exists []. Qed.

Lemma clean_steps_holds c c' : rtc clean_step c c' -> file_holds c.1 -> file_holds c'.1.
Proof. induction 1; eauto using clean_step_holds. Qed.

Lemma clean_steps_used c c' jti cid :
  rtc clean_step c c' -> file_holds c.1 -> used c.1 !! jti = Some cid -> used c'.1 !! jti = Some cid.
Proof. induction 1; eauto using clean_step_holds, clean_step_used. Qed.
End Service.
