(* ===== verification/ReplicationdProps.v ===== *)
(** * ReplicationdProps: the properties of the replication service

    Tickets authorise exactly the request they were issued for, a pin is
    confirmed only for verified content, a ticket is used once even across
    restarts, and the rate windows hold.  Two theorems exhibit what goes wrong:
    a failed verification removes another ticket's pin, and a record whose
    fields contain a line break forges a state line. *)
From Stdlib Require Import ZArith Lia Ascii String.
From Stdlib Require Strings.Byte.
From stdpp Require Import base list gmap strings option relations sorting.
From S2P Require Import Prelude GoText GoIo Json JsonSpec Encodings Replicationd ReplicationdSpec.

Local Open Scope Z_scope.

Section Props.
Context {SG : Signatures} {KB : Kubo}.
Variable s : settings.

Lemma same_binding_spec req cl :
  same_binding req cl = true <->
  (rr_CID req, rr_Owner req, rr_Repo req, rr_Ref req, rr_PackSHA256 req, rr_Size req) =
  (cl_CID cl, cl_Owner cl, cl_Repo cl, cl_Ref cl, cl_PackSHA256 cl, cl_Size cl).
Proof.
  unfold same_binding. rewrite !andb_true_iff, !bool_decide_eq_true, Z.eqb_eq.
  split; [intros; destruct_and?; congruence|intros [=]; tauto].
Qed.

Lemma expiry_range now req : 0 <= now < 2 ^ 62 -> - 2 ^ 63 <= rr_ExpiresAt req < 2 ^ 63 ->
  - 2 ^ 63 <= expiry now req < 2 ^ 63 /\ expiry now req <= unix now + 900.
Proof.
  intros Hn Hr. unfold expiry, unix, minute.
  replace (now + 15 * (60 * 1000000000)) with (now + 900 * 1000000000) by lia.
  rewrite Z.div_add by lia. pose proof (Z.div_pos now 1000000000 ltac:(lia) ltac:(lia)).
  assert (now / 1000000000 < 2 ^ 62) by (apply Z.div_lt_upper_bound; lia).
  case_match eqn:E; [rewrite andb_true_iff, !Z.ltb_lt in E|]; lia.
Qed.

(** C10: an upload ticket authorises exactly the request it was issued for.
    The token in a 201 answer is accepted, until it expires at most 15 minutes
    later, with a replication request of the same CID, owner, repository, ref,
    digest and size, and with no other request; afterwards with none. *)
Theorem ticket_authorizes_exactly st now entropy r st' log rp :
  issueAuthorization s st now entropy r = (st', log, rp) -> rp_status rp = 201 ->
  entropy <> [] -> 0 <= now < 2 ^ 62 ->
  exists req token expires,
    decode_body r = Ok req /\ expires <= unix now + 900 /\
    rp = writeJSON 201 (JObject [text_member "authorization" token;
                                 int_member "expires_at" expires]) /\
    forall now' req',
      is_ok (authorize s now' ("Bearer " +:+ token) req') = true <->
      unix now' < expires /\
      (rr_CID req', rr_Owner req', rr_Repo req', rr_Ref req', rr_PackSHA256 req', rr_Size req') =
      (rr_CID req, rr_Owner req, rr_Repo req, rr_Ref req, rr_PackSHA256 req, rr_Size req).
Proof.
  intros H Hrp He Hnow. apply issue_inv in H as (req & who & Hr & Hi & Hb & _ & _ & Hrep); [|done].
  pose proof (decode_body_ok _ _ Hr) as (_ & _ & Hexp).
  apply identity_ok in Hi as [Hwho Hsub]. destruct (expiry_range now req Hnow Hexp) as [Hx Hx'].
  set (cl := ticket (cl_Subject who) req (expiry now req) entropy).
  assert (claims_ok cl) as Hcl.
  { eapply ticket_ok; [exact Hr| |exact Hx]. destruct Hwho as [Hs _ _].
    by decompose_Forall_hyps. }
  exists req, (sign s cl), (expiry now req). split_and!; try assumption.
  intros now' req'. unfold authorize. rewrite parseToken_sign by exact Hcl.
  pose proof (EncodeToString_nonempty entropy He) as Hj.
  assert (bool_decide (cl_Subject cl = ""%string) = false) as -> by (by apply bool_decide_eq_false_2).
  cbn [orb]. change (cl_ExpiresAt cl) with (expiry now req).
  destruct (expiry now req <=? unix now') eqn:El.
  { apply Z.leb_le in El. split; [done|lia]. }
  apply Z.leb_gt in El.
  assert (negb (bool_decide (cl_Kind cl = "replication"%string)) ||
    bool_decide (cl_JTI cl = ""%string) = false) as ->.
  { apply orb_false_iff. split; [done|by apply bool_decide_eq_false_2]. }
  pose proof (same_binding_spec req' cl) as Hsb. cbn [cl ticket cl_CID cl_Owner cl_Repo cl_Ref
    cl_PackSHA256 cl_Size] in Hsb.
  destruct (same_binding req' cl) eqn:Es; cbn [negb].
  - assert ((rr_Size req' <=? 0) || (maxBytes s <? rr_Size req') = false) as ->.
    { pose proof (proj1 Hsb eq_refl) as [=]. unfold invalid_binding in Hb.
      rewrite !orb_false_iff in Hb. destruct_and! Hb. apply orb_false_iff. split; congruence. }
    split; [|done]. intros _. split; [done|by apply Hsb].
  - split; [done|]. intros [_ E]. by apply Hsb in E.
Qed.

Lemma kuboPost_ok path k k' :
  kuboPost s path k = (k', Ok tt) ->
  exists resp, http_post (kuboAPI s +:+ path) k = (k', Ok resp) /\ re_status resp = 200.
Proof.
  unfold kuboPost. destruct (http_post _ k) as [k1 [resp|e]]; [|done].
  intros [= <- H]. apply guard_ok in H as [H _]. apply negb_false_iff, Z.eqb_eq in H. eauto.
Qed.

(** C11: a pin is confirmed only for content that was read back whole and
    matches the ticket.  A 201 answer means that an authorised, so far unused
    ticket was presented, that Kubo pinned the CID, that the object it then
    returned has exactly the declared size and SHA-256, and that the use of the
    ticket is in the state file and in memory. *)
Theorem created_means_verified st k now disk r st' k' log rp :
  replicate s st k now disk r = (st', k', log, rp) -> rp_status rp = 201 ->
  maxBytes s < 2 ^ 63 - 1 ->
  exists req cl k1 pinned content,
    decode_body r = Ok req /\ authorize s now (rq_authorization r) req = Ok cl /\
    used st !! cl_JTI cl = None /\
    http_post (kuboAPI s +:+ pin_add_path (rr_CID req)) k = (k1, Ok pinned) /\
    re_status pinned = 200 /\
    http_post (kuboAPI s +:+ "/api/v0/cat?arg=" +:+ QueryEscape (rr_CID req)) k1
      = (k', Ok content) /\ re_status content = 200 /\
    re_broken content = false /\ slen (re_body content) = rr_Size req /\
    sha256_hex (string_bytes (re_body content)) = rr_PackSHA256 req /\
    used st' = <[cl_JTI cl := rr_CID req]> (used st) /\
    contents st' = (contents st +:+ record_line cl req)%string.
Proof.
  intros H Hrp Hmax. destruct (replicate_inv s _ _ _ _ _ _ _ _ _ H Hrp)
    as (req & cl & k1 & Hr & Ha & Hu & Hp & (verified & Hv & Hc) & Hw & _).
  apply kuboPost_ok in Hp as (pinned & Hp & Hst).
  unfold kuboVerify in Hv. destruct (http_post _ k1) as [k2 resp] eqn:Hcat. injection Hv as <- <-.
  unfold check_content in Hc. apply bind_ok in Hc as ([hash size] & Hver & Hc).
  apply bind_ok in Hver as (content & -> & Hver). apply guard_ok in Hver as [H200 Hver].
  apply bind_ok in Hver as (data & Hdata & Hver). injection Hver as <- <-.
  apply guard_ok in Hc as [Hsize Hc]. apply guard_ok in Hc as [Hhash _]. bool_prop.
  assert (0 < rr_Size req <= maxBytes s) as Hrange.
  { unfold authorize in Ha. apply bind_ok in Ha as (c & _ & Ha). apply guard_ok in Ha as [_ Ha].
    apply guard_ok in Ha as [_ Ha]. apply guard_ok in Ha as [Hsz _].
    rewrite orb_false_iff, Z.leb_gt, Z.ltb_ge in Hsz. lia. }
  unfold read_limited in Hdata. rewrite i64_small in Hdata by lia.
  destruct (rr_Size req + 1 <=? slen (re_body content)) eqn:El.
  { apply Z.leb_le in El. injection Hdata as <-. exfalso.
    assert (slen (String.substring 0 (Z.to_nat (rr_Size req + 1)) (re_body content))
      = rr_Size req + 1) as E by (apply slen_prefix; lia). lia. }
  apply guard_ok in Hdata as [Hbr Hdata]. injection Hdata as <-.
  destruct disk; simplify_eq/=. exists req, cl, k1, pinned, content. split_and!; done.
Qed.

(** C12: a ticket is used once.  From a fresh start, over any run of requests,
    restarts and foreign use of Kubo in which no recorded field has a tab or a
    line break and no state line is written in part ([clean_step]), a ticket
    recorded for a CID stays recorded for it, and whoever presents it again changes neither the
    service nor Kubo: the same CID is confirmed with 200, any other refused
    with 409. *)
Theorem tickets_single_use k0 c c' jti cid now disk r req cl :
  rtc (clean_step s) (started None, k0) c -> used c.1 !! jti = Some cid ->
  rtc (clean_step s) c c' ->
  rq_method r = "POST"%string -> decode_body r = Ok req ->
  authorize s now (rq_authorization r) req = Ok cl -> cl_JTI cl = jti ->
  replicate s c'.1 c'.2 now disk r =
  (c'.1, c'.2, [], if decide (cid = rr_CID req) then pinned_reply req cl true
                   else http_error 409 "authorization already used").
Proof.
  intros H0 Hu Hrun Hm Hr Ha Hj. pose proof (clean_steps_holds s _ _ H0 started_holds) as Hf.
  pose proof (clean_steps_used s _ _ jti cid Hrun Hf Hu) as Hu'.
  unfold replicate. rewrite bool_decide_eq_true_2 by done. cbn [negb]. rewrite Hr, Ha.
  unfold already. by rewrite Hj, Hu'.
Qed.

(** C13: a restart forgets no ticket: over any clean run the state file loads
    as exactly the tickets in memory. *)
Theorem restart_restores_tickets k0 c :
  rtc (clean_step s) (started None, k0) c -> loadState (stateFile c.1) = used c.1.
Proof.
  intros H. apply loadState_holds. by apply (clean_steps_holds s _ _ H), started_holds.
Qed.

(** ** Rate windows *)

(** The requests granted to [key] by a sequence of calls [(key, time, size)],
    each with the start of the window it was granted in. *)
Definition key_of (call : string * string * string * Z * Z) : string :=
  let '(subject, owner, repo, _, _) := call in window_key subject owner repo.
Definition time_of (call : string * string * string * Z * Z) : Z := call.1.2.

Definition window_start (st : service) (key : string) : Z :=
  match window st !! key with Some w => rw_start w | None => 0 end.

Fixpoint grants (key : string) (st : service) (calls : list (string * string * string * Z * Z))
  : list (Z * Z * Z) :=
  match calls with
  | [] => []
  | (subject, owner, repo, now, size) :: calls' =>
      let '(st', ok) := allow s st now subject owner repo size in
      let rest := grants key st' calls' in
      if ok && bool_decide (window_key subject owner repo = key)
      then (window_start st' key, now, size) :: rest else rest
  end.

Definition in_window (x : Z) (g : Z * Z * Z) : Prop := g.1.1 = x.
#[export] Instance in_window_dec x g : Decision (in_window x g).
Proof. unfold in_window. apply _. Defined.

Definition total (gs : list (Z * Z * Z)) : Z := foldr (fun g acc => g.2 + acc) 0 gs.

(** The quota of one window, with [n] requests and [b] bytes spent before. *)
Definition within (n b : Z) (x : Z) (gs : list (Z * Z * Z)) : Prop :=
  n + llen gs <= ratePerMin s /\ b + total gs <= Z.max (maxBytes s) (bytesPerMin s) /\
  Forall (fun g => x <= g.1.2 < x + minute) gs.

(** Windows that are not the same start a minute apart. *)
Definition apart (gs : list (Z * Z * Z)) : Prop :=
  forall g h, g ∈ gs -> h ∈ gs -> g.1.1 < h.1.1 -> g.1.1 + minute <= h.1.1.

(** What later grants may be, given the current window. *)
Definition later_ok (w : option rateWindow) (gs : list (Z * Z * Z)) : Prop :=
  apart gs /\
  Forall (fun g => forall w0, w = Some w0 -> g.1.1 = rw_start w0 \/ rw_start w0 + minute <= g.1.1) gs /\
  forall x,
    (forall w0, w = Some w0 -> x = rw_start w0 ->
       within (rw_count w0) (rw_bytes w0) x (filter (in_window x) gs)) /\
    ((forall w0, w = Some w0 -> x <> rw_start w0) -> within 0 0 x (filter (in_window x) gs)).

(** Positive limits, as [envInt64] gives them. *)
Definition sane_limits : Prop :=
  1 <= ratePerMin s < 2 ^ 63 /\ 1 <= bytesPerMin s < 2 ^ 63 /\ 1 <= maxBytes s < 2 ^ 63.

Definition window_ok (w : option rateWindow) : Prop :=
  forall w0, w = Some w0 -> 1 <= rw_count w0 <= ratePerMin s /\
    1 <= rw_bytes w0 <= Z.max (maxBytes s) (bytesPerMin s).

(** The three ways in which [allow] answers. *)
Lemma allow_cases st now subject owner repo size st' ok :
  sane_limits -> window_ok (window st !! window_key subject owner repo) ->
  allow s st now subject owner repo size = (st', ok) ->
  let key := window_key subject owner repo in
  (ok = false -> st' = st) /\
  (ok = true -> 1 <= size <= maxBytes s /\
    ((window st' !! key = Some (mk_window now 1 size) /\
      forall w0, window st !! key = Some w0 -> rw_start w0 + minute <= now) \/
     exists w0, window st !! key = Some w0 /\ now < rw_start w0 + minute /\
       rw_count w0 + 1 <= ratePerMin s /\ rw_bytes w0 + size <= bytesPerMin s /\
       window st' !! key = Some (mk_window (rw_start w0) (rw_count w0 + 1) (rw_bytes w0 + size)))).
Proof.
  intros (Hr & Hb & Hm) Hw H key. unfold allow in H. fold key in H, Hw.
  destruct ((size <=? 0) || _) eqn:Es; [injection H as <- <-; naive_solver|].
  rewrite orb_false_iff, Z.leb_gt, Z.ltb_ge in Es.
  destruct (window st !! key) as [w0|] eqn:Ew.
  2: { injection H as <- <-. split; [done|].
       intros _. split; [lia|left]. simpl. rewrite lookup_insert_eq. done. }
  destruct (Hw w0 eq_refl) as [Hc Hby]. destruct (minute <=? now - rw_start w0) eqn:Et.
  { apply Z.leb_le in Et. injection H as <- <-. split; [done|]. intros _. split; [lia|left]. simpl. rewrite lookup_insert_eq. split; [done|].
      intros w1 [= <-]. lia. }
  apply Z.leb_gt in Et.
  destruct ((ratePerMin s <=? rw_count w0) || _) eqn:El; [injection H as <- <-; naive_solver|].
  rewrite orb_false_iff, andb_false_iff, Z.leb_gt, Z.ltb_ge, Z.ltb_ge in El.
  rewrite i64_small in El by lia. destruct El as [El1 El2]. injection H as <- <-.
  split; [done|]. intros _. split; [lia|right]. exists w0. split_and!; [done|lia..|].
  simpl. rewrite lookup_insert_eq, !i64_small by lia. done.
Qed.

Lemma allow_other st now subject owner repo size st' ok key :
  allow s st now subject owner repo size = (st', ok) -> window_key subject owner repo <> key ->
  window st' !! key = window st !! key.
Proof.
  unfold allow. intros H Hk. repeat case_match; simplify_eq; try done; simpl;
    by rewrite lookup_insert_ne.
Qed.

Lemma filter_other x y gs :
  Forall (fun g : Z * Z * Z => g.1.1 = y \/ y + minute <= g.1.1) gs -> x < y ->
  filter (in_window x) gs = [].
Proof.
  intros H Hx. induction H as [|g gs Hg _ IH]; [done|].
  rewrite filter_cons_False; [done|]. unfold in_window, minute in *. lia.
Qed.

Lemma within_nil n b x :
  n <= ratePerMin s -> b <= Z.max (maxBytes s) (bytesPerMin s) -> within n b x [].
Proof. intros. unfold within, llen, total. simpl. split_and!; [lia..|constructor]. Qed.

Lemma within_cons n b x now size gs :
  x <= now < x + minute -> within (n + 1) (b + size) x gs -> within n b x ((x, now, size) :: gs).
Proof.
  intros Ht (H1 & H2 & H3). unfold within in *. rewrite llen_cons. simpl.
  split_and!; [lia..|]. by constructor.
Qed.

Lemma apart_cons x now size gs :
  Forall (fun g : Z * Z * Z => g.1.1 = x \/ x + minute <= g.1.1) gs -> apart gs ->
  apart ((x, now, size) :: gs).
Proof.
  rewrite Forall_forall. intros Hg Hap g h [->|Hin]%elem_of_cons [->|Hin']%elem_of_cons Hlt;
    simpl in *; [lia| | |by apply Hap].
  - destruct (Hg _ Hin'); lia.
  - assert (0 < minute) by done. destruct (Hg _ Hin); lia.
Qed.

Lemma later_fresh w now size gs :
  sane_limits -> window_ok w -> 1 <= size <= maxBytes s ->
  (forall w0, w = Some w0 -> rw_start w0 + minute <= now) ->
  later_ok (Some (mk_window now 1 size)) gs -> later_ok w ((now, now, size) :: gs).
Proof.
  intros Hl Hw Hs Ht (Hap & Hst & Hin). assert (0 < minute) as Hmin by done.
  assert (Forall (fun g : Z * Z * Z => g.1.1 = now \/ now + minute <= g.1.1) gs) as Hst'.
  { eapply Forall_impl; [exact Hst|]. intros g Hg. exact (Hg _ eq_refl). }
  split_and!.
  - by apply apart_cons.
  - constructor; [intros w0 Hw0; right; simpl; by apply Ht|].
    eapply Forall_impl; [exact Hst'|]. intros g Hg w0 Hw0. specialize (Ht _ Hw0). simpl in Hg. lia.
  - intros x. destruct (Hin x) as [H1 H2]. simpl in H1, H2. split.
    + intros w0 Hw0 ->. specialize (Ht _ Hw0). destruct (Hw _ Hw0) as [Hc Hb].
      rewrite filter_cons_False by (unfold in_window, minute in *; simpl; lia).
      rewrite (filter_other _ now) by (done || unfold minute in *; lia). apply within_nil; lia.
    + intros Hx. destruct (decide (x = now)) as [->|Hne].
      * rewrite filter_cons_True by done. apply within_cons; [lia|]. by apply (H1 _ eq_refl).
      * rewrite filter_cons_False by (unfold in_window; simpl; congruence).
        apply H2. intros w0 [= <-]. done.
Qed.

Lemma later_same w0 now size gs :
  rw_start w0 <= now < rw_start w0 + minute ->
  later_ok (Some (mk_window (rw_start w0) (rw_count w0 + 1) (rw_bytes w0 + size))) gs ->
  later_ok (Some w0) ((rw_start w0, now, size) :: gs).
Proof.
  intros Ht (Hap & Hst & Hin). split_and!.
  - apply apart_cons; [|done]. eapply Forall_impl; [exact Hst|]. intros g Hg. exact (Hg _ eq_refl).
  - constructor; [intros w1 [= <-]; by left|]. eapply Forall_impl; [exact Hst|].
    intros g Hg w1 [= <-]. exact (Hg _ eq_refl).
  - intros x. destruct (Hin x) as [H1 H2]. simpl in H1, H2. split.
    + intros w1 [= <-] ->. rewrite filter_cons_True by done. apply within_cons; [lia|].
      by apply (H1 _ eq_refl).
    + intros Hx. specialize (Hx _ eq_refl).
      rewrite filter_cons_False by (unfold in_window; simpl; congruence).
      apply H2. intros w1 [= <-]. done.
Qed.

Lemma later_nil w : sane_limits -> window_ok w -> later_ok w [].
Proof.
  intros (? & ? & ?) Hw. split_and!; [by intros g h ?%elem_of_nil|constructor|]. intros x. split.
  - intros w0 Hw0 _. destruct (Hw _ Hw0). apply within_nil; lia.
  - intros _. apply within_nil; lia.
Qed.

Lemma grants_later key calls st T :
  sane_limits -> window_ok (window st !! key) ->
  (forall w0, window st !! key = Some w0 -> rw_start w0 <= T) ->
  Forall (fun c => T <= time_of c) calls -> StronglySorted Z.le (map time_of calls) ->
  later_ok (window st !! key) (grants key st calls).
Proof.
  intros Hl. revert st T. induction calls as [|call calls IH]; intros st T Hw HT Ht Hs.
  { by apply later_nil. }
  destruct call as [[[[subject owner] repo] now] size]. cbn [grants].
  apply Forall_cons in Ht as [Hnow Ht]. cbn [map] in Hs. apply StronglySorted_inv in Hs as [Hs Hle].
  change (T <= now) in Hnow.
  assert (Forall (fun c => now <= time_of c) calls) as Ht' 
    by exact (proj1 (Forall_map time_of (Z.le now) calls) Hle).
  destruct (allow s st now subject owner repo size) as [st' ok] eqn:Ea.
  assert (forall st1, window st1 !! key = window st !! key ->
    later_ok (window st !! key) (grants key st1 calls)) as Hsame.
  { intros st1 E. rewrite <- E. apply (IH st1 now); try done; rewrite E; [done|].
    intros w0 Hw0. specialize (HT _ Hw0). lia. }
  destruct (decide (window_key subject owner repo = key)) as [Hk|Hk].
  2: { rewrite (bool_decide_eq_false_2 _ Hk), andb_false_r. apply Hsame.
       by eapply allow_other. }
  rewrite (bool_decide_eq_true_2 _ Hk), andb_true_r. rewrite <- Hk in Hw.
  destruct (allow_cases _ _ _ _ _ _ _ _ Hl Hw Ea) as [Hno Hyes]. rewrite Hk in Hyes, Hw.
  destruct ok; [|by rewrite (Hno eq_refl); apply Hsame].
  destruct (Hyes eq_refl) as [Hsz [[Hf Hold]|(w0 & Hw0 & Hlt & Hc & Hb & Hf)]].
  - unfold window_start. rewrite Hf. simpl. apply later_fresh; try done.
    rewrite <- Hf. apply (IH st' now); try done; rewrite Hf; intros w1 [= <-]; simpl; [|lia].
    destruct Hl as (? & ? & ?). lia.
  - unfold window_start. rewrite Hf, Hw0. simpl. apply later_same; [specialize (HT _ Hw0); lia|].
    rewrite <- Hf. destruct (Hw _ Hw0) as [? ?].
    apply (IH st' now); try done; rewrite Hf; intros w1 [= <-]; simpl; [lia|].
    specialize (HT _ Hw0). lia.
Qed.

(** C14: the rate limit holds.  Over any sequence of calls in the order of the
    clock, made for whatever keys from an empty table, every window of a key
    grants at most [ratePerMin] requests and at most the larger of [bytesPerMin]
    and the size limit of one upload in bytes, all of them within a minute of
    its start, and the windows of a key start at least a minute apart. *)
Theorem rate_limit_enforced key st calls x :
  sane_limits -> window st !! key = None -> StronglySorted Z.le (map time_of calls) ->
  llen (filter (in_window x) (grants key st calls)) <= ratePerMin s /\
  total (filter (in_window x) (grants key st calls)) <= Z.max (maxBytes s) (bytesPerMin s) /\
  Forall (fun g => x <= g.1.2 < x + minute) (filter (in_window x) (grants key st calls)) /\
  apart (grants key st calls).
Proof.
  intros Hl Hw Hs. set (T := foldr Z.min 0 (map time_of calls)).
  assert (Forall (fun c => T <= time_of c) calls) as HT.
  { subst T. clear. induction calls as [|c calls IH]; constructor; simpl; [lia|].
    eapply Forall_impl; [exact IH|]. simpl. lia. }
  assert (window_ok (window st !! key)) as Hok by (by rewrite Hw; intros w0).
  pose proof (grants_later key calls st T Hl Hok ltac:(by rewrite Hw) HT Hs) as (Hap & _ & Hin).
  rewrite Hw in Hin. destruct (Hin x) as [_ Hx].
  destruct (Hx ltac:(done)) as (H1 & H2 & H3). split_and!; [lia..|done|done].
Qed.
End Props.

(** ** A running service *)

Module Demo.

Definition api : string := "http://127.0.0.1:5001".

Definition demo : settings :=
  mk_settings (string_bytes "0123456789abcdef0123456789abcdef") [] api 1048576 12 2097152.

(** A Kubo daemon that holds one object and keeps a list of pins. *)
Definition object_cid : string := "QmPack".
Definition object_data : string := "PACK data".

Definition answer (body : string) : result response := Ok (mk_response 200 body false).
Definition failure : result response := Ok (mk_response 500 "not found" false).

Definition demo_post (url : string) (pins : list string) : list string * result response :=
  match cut_prefix (api +:+ "/api/v0/pin/add?arg=") url with
  | Some rest =>
      let '(cid, _, _) := Cut rest "&" in
      if decide (cid = object_cid) then (cid :: pins, answer "") else (pins, failure)
  | None =>
      match cut_prefix (api +:+ "/api/v0/pin/rm?arg=") url with
      | Some cid => (filter (.≠ cid) pins, answer "")
      | None =>
          match cut_prefix (api +:+ "/api/v0/cat?arg=") url with
          | Some cid => (pins, if decide (cid = object_cid) then answer object_data else failure)
          | None => (pins, failure)
          end
      end
  end.

#[local] Instance demo_kubo : Kubo := { kubo := list string; http_post := demo_post }.
#[local] Instance no_signatures : Signatures := { ed25519_Verify _ _ _ := false }.

Definition now : Z := 1700000000 * 1000000000.

Definition user_token (user : string) : string :=
  "Bearer " +:+ sign demo (mk_claims "identity" user "" "" "" "" "" 0 1700003600 "").

Definition request_json (req : replicationRequest) : string :=
  Marshal (JObject [text_member "cid" (rr_CID req); text_member "owner" (rr_Owner req);
    text_member "repo" (rr_Repo req); text_member "ref" (rr_Ref req);
    text_member "pack_sha256" (rr_PackSHA256 req); int_member "size" (rr_Size req);
    int_member "expires_at" (rr_ExpiresAt req)]).

Definition post (authorization : string) (req : replicationRequest) : http_request :=
  mk_http_request "POST" authorization (request_json req).

Definition upload : replicationRequest :=
  mk_request object_cid "inj1alice" "project" "refs/heads/main"
    (sha256_hex (string_bytes object_data)) (slen object_data) 0.

Definition entropy (n : Z) : bytes := be_bytes 18 n.

(** A user obtains a ticket and presents it. *)
Definition issue (st : service) (user : string) (req : replicationRequest) (n : Z)
  : service * list audit_entry * reply :=
  issueAuthorization demo st now (entropy n) (post (user_token user) req).

Definition ticket_of (user : string) (req : replicationRequest) (n : Z) : claims :=
  ticket user req (expiry now req) (entropy n).

Definition present (st : service) (k : list string) (user : string) (req : replicationRequest)
    (n : Z) : outcome :=
  replicate demo st k now Written (post ("Bearer " +:+ sign demo (ticket_of user req n)) req).

Definition state_of (o : outcome) : service * list string := o.1.1.
Definition status_of (o : outcome) : Z := rp_status o.2.

(** Alice issues and presents; Mallory then does the same for the same CID with
    a digest that does not match. *)
Definition wrong : replicationRequest :=
  mk_request object_cid "inj1mallory" "other" "refs/heads/main"
    (sha256_hex (string_bytes "something else")) (slen object_data) 0.

Definition s0 : service := started None.
Definition next (c : service * list string) (user : string) (req : replicationRequest) (n : Z)
  : outcome := present (issue c.1 user req n).1.1 c.2 user req n.
Definition o1 : outcome := next (s0, []) "alice" upload 1.
Definition o2 : outcome := next (state_of o1) "mallory" wrong 2.

Lemma issue_step st k user req n : step demo (st, k) ((issue st user req n).1.1, k).
Proof.
  destruct (issue st user req n) as [[st' log] rp] eqn:E.
  exact (step_issue demo st k now (entropy n) _ st' log rp E).
Qed.

Lemma present_step st k user req n : step demo (st, k) (state_of (present st k user req n)).
Proof.
  destruct (present st k user req n) as [[[st' k'] log] rp] eqn:E.
  exact (step_replicate demo st k now Written _ st' k' log rp E).
Qed.

Lemma reachable_next c user req n :
  reachable demo [] c -> reachable demo [] (state_of (next c user req n)).
Proof.
  destruct c as [st k]. intros H. eapply reachable_step; [|apply present_step].
  eapply reachable_step; [exact H|apply issue_step].
Qed.

Lemma reachable_o1 : reachable demo [] (state_of o1).
Proof. exact (reachable_next (s0, []) "alice" upload 1 (reachable_start demo [])). Qed.

Definition jti1 : string := EncodeToString (entropy 1).


(** A ref that breaks off its line and adds another one. *)
Definition forged : replicationRequest :=
  mk_request object_cid "inj1mallory" "other"
    ("refs/heads/x" +:+ str1 newline +:+ "FORGED" +:+ str1 tab +:+ "QmNever" +:+ str1 tab)
    (sha256_hex (string_bytes object_data)) (slen object_data) 0.

Definition o3 : outcome := next (s0, []) "mallory" forged 3.

Lemma reachable_o2 : reachable demo [] (state_of o2).
Proof. exact (reachable_next (state_of o1) "mallory" wrong 2 reachable_o1). Qed.

Lemma reachable_o3 : reachable demo [] (state_of o3).
Proof. exact (reachable_next (s0, []) "mallory" forged 3 (reachable_start demo [])). Qed.

Definition restarted (c : service * list string) : service * list string :=
  (mk_service (loadState (stateFile c.1)) empty (stateFile c.1), c.2).

Lemma restart_step c : step demo c (restarted c).
Proof. destruct c as [st k]. exact (step_restart demo st k). Qed.

Lemma used_o1 : used (state_of o1).1 !! jti1 = Some object_cid.
Proof. vm_compute. reflexivity. Qed.

Lemma issue_clean st k user req n : clean_step demo (st, k) ((issue st user req n).1.1, k).
Proof.
  destruct (issue st user req n) as [[st' log] rp] eqn:E.
  exact (clean_issue demo st k now (entropy n) _ st' log rp E).
Qed.

Definition ticket_request (user : string) (req : replicationRequest) (n : Z) : http_request :=
  post ("Bearer " +:+ sign demo (ticket_of user req n)) req.

Lemma present_clean st k user req n :
  clean_request demo now (ticket_request user req n) ->
  clean_step demo (st, k) (state_of (present st k user req n)).
Proof.
  intros Hc. destruct (present st k user req n) as [[[st' k'] log] rp] eqn:E.
  refine (clean_replicate demo st k now Written _ st' k' log rp Hc _ E). discriminate.
Qed.

Lemma clean_next c user req n :
  clean_request demo now (ticket_request user req n) ->
  rtc (clean_step demo) c (state_of (next c user req n)).
Proof.
  intros Hc. destruct c as [st k]. eapply rtc_l; [apply issue_clean|].
  apply rtc_once, present_clean, Hc.
Qed.

Lemma clean_request_intro r req cl :
  decode_body r = Ok req -> authorize demo now (rq_authorization r) req = Ok cl ->
  clean_record cl req = true -> clean_request demo now r.
Proof. intros Hr Ha Hc req' cl'. rewrite Hr. intros [= <-]. rewrite Ha. by intros [= <-]. Qed.

Lemma decode_upload : decode_body (ticket_request "alice" upload 1) = Ok upload.
Proof. vm_compute. reflexivity. Qed.

Lemma authorize_upload :
  authorize demo now (rq_authorization (ticket_request "alice" upload 1)) upload
  = Ok (ticket_of "alice" upload 1).
Proof. vm_compute. reflexivity. Qed.

Lemma clean_upload : clean_request demo now (ticket_request "alice" upload 1).
Proof.
  apply (clean_request_intro _ upload (ticket_of "alice" upload 1) decode_upload authorize_upload).
  vm_compute. reflexivity.
Qed.

Lemma clean_run_o1 : rtc (clean_step demo) (s0, []) (state_of o1).
Proof. exact (clean_next (s0, []) "alice" upload 1 clean_upload). Qed.

End Demo.

(** ** What goes wrong *)

(** A failed verification undoes the pin of another ticket.  In a
    reachable state a ticket is recorded as pinned, and the pin is gone: the
    second ticket for the same CID failed its verification and [replicate]
    removed the pin that the first one had made durable. *)
Theorem failed_verification_unpins :
  exists (st : service) (pins : list string),
    @reachable Demo.no_signatures Demo.demo_kubo Demo.demo [] (Demo.state_of Demo.o1) /\
    Demo.object_cid ∈ (Demo.state_of Demo.o1).2 /\
    @reachable Demo.no_signatures Demo.demo_kubo Demo.demo [] (st, pins) /\
    used st !! Demo.jti1 = Some Demo.object_cid /\ Demo.object_cid ∉ pins.
Proof.
  exists (Demo.state_of Demo.o2).1, (Demo.state_of Demo.o2).2. split_and!.
  - apply Demo.reachable_o1.
  - apply (bool_decide_unpack _). vm_compute. exact I.
  - exact (eq_rect _ _ Demo.reachable_o2 _ (surjective_pairing (Demo.state_of Demo.o2))).
  - vm_compute. reflexivity.
  - apply (bool_decide_unpack _). vm_compute. exact I.
Qed.

(** the state file can be forged through a record.  A request whose ref
    contains a line break is recorded as two lines; after a restart the service
    takes a ticket identifier as used, and its CID as pinned, that no request
    ever presented. *)
Theorem state_line_forged :
  exists (c c' : service * list string),
    @reachable Demo.no_signatures Demo.demo_kubo Demo.demo [] c /\
    @step Demo.no_signatures Demo.demo_kubo Demo.demo c c' /\
    used c.1 !! "FORGED"%string = None /\ used c'.1 !! "FORGED"%string = Some "QmNever"%string.
Proof.
  exists (Demo.state_of Demo.o3), (Demo.restarted (Demo.state_of Demo.o3)).
  split_and!.
  - apply Demo.reachable_o3.
  - apply Demo.restart_step.
  - vm_compute. reflexivity.
  - vm_compute. reflexivity.
Qed.

(** ** Witnesses *)

Lemma triple_eta {A B C} (x : A * B * C) : x = (x.1.1, x.1.2, x.2).
Proof. by destruct x as [[] ]. Qed.

Lemma quad_eta {A B C D} (x : A * B * C * D) : x = (x.1.1.1, x.1.1.2, x.1.2, x.2).
Proof. by destruct x as [[[] ]]. Qed.

#[local] Notation demo_issue :=
  (@issueAuthorization Demo.no_signatures Demo.demo Demo.s0 Demo.now (Demo.entropy 1)
     (Demo.post (Demo.user_token "alice") Demo.upload)).
#[local] Notation demo_replicate :=
  (@replicate Demo.demo_kubo Demo.demo Demo.s0 [] Demo.now Written
     (Demo.ticket_request "alice" Demo.upload 1)).

Lemma demo_issue_status : rp_status demo_issue.2 = 201.
Proof. vm_compute. reflexivity. Qed.

Lemma demo_replicate_status : rp_status demo_replicate.2 = 201.
Proof. vm_compute. reflexivity. Qed.

Lemma ticket_authorizes_exactly_witness :
  exists req token expires,
    demo_issue.2 = writeJSON 201 (JObject [text_member "authorization" token;
                                           int_member "expires_at" expires]) /\
    forall now' req',
      is_ok (authorize Demo.demo now' ("Bearer " +:+ token) req') = true <->
      unix now' < expires /\
      (rr_CID req', rr_Owner req', rr_Repo req', rr_Ref req', rr_PackSHA256 req', rr_Size req') =
      (rr_CID req, rr_Owner req, rr_Repo req, rr_Ref req, rr_PackSHA256 req, rr_Size req).
Proof.
  destruct (@ticket_authorizes_exactly Demo.no_signatures Demo.demo Demo.s0 Demo.now
    (Demo.entropy 1) (Demo.post (Demo.user_token "alice") Demo.upload) _ _ _
    (triple_eta demo_issue) demo_issue_status)
    as (req & token & expires & _ & _ & Hrp & Hauth);
    [discriminate|split; [vm_compute; discriminate|reflexivity]|].
  exists req, token, expires. split; [exact Hrp|exact Hauth].
Defined.

Lemma created_means_verified_witness :
  exists req content,
    slen (re_body content) = rr_Size req /\
    sha256_hex (string_bytes (re_body content)) = rr_PackSHA256 req /\ rp_status demo_replicate.2 = 201.
Proof.
  destruct (@created_means_verified Demo.demo_kubo Demo.demo Demo.s0 [] Demo.now Written
    (Demo.ticket_request "alice" Demo.upload 1) _ _ _ _ (quad_eta demo_replicate)
    demo_replicate_status)
    as (req & cl & k1 & pinned & content & _ & _ & _ & _ & _ & _ & _ & _ & Hsz & Hsha & _ & _);
    [reflexivity|].
  exists req, content. split; [exact Hsz|]. split; [exact Hsha|exact demo_replicate_status].
Defined.

Lemma tickets_single_use_witness :
  @replicate Demo.demo_kubo Demo.demo (Demo.state_of Demo.o1).1
    (Demo.state_of Demo.o1).2 Demo.now Written (Demo.ticket_request "alice" Demo.upload 1) =
  ((Demo.state_of Demo.o1).1, (Demo.state_of Demo.o1).2, [],
   pinned_reply Demo.upload (Demo.ticket_of "alice" Demo.upload 1) true).
Proof.
  exact (@tickets_single_use Demo.no_signatures Demo.demo_kubo Demo.demo [] (Demo.state_of Demo.o1)
    (Demo.state_of Demo.o1) Demo.jti1 Demo.object_cid Demo.now Written
    (Demo.ticket_request "alice" Demo.upload 1) Demo.upload
    (Demo.ticket_of "alice" Demo.upload 1) Demo.clean_run_o1 Demo.used_o1 (rtc_refl _ _)
    eq_refl Demo.decode_upload Demo.authorize_upload eq_refl).
Defined.

Lemma restart_restores_tickets_witness :
  loadState (stateFile (Demo.state_of Demo.o1).1) = used (Demo.state_of Demo.o1).1.
Proof.
  exact (@restart_restores_tickets Demo.no_signatures Demo.demo_kubo Demo.demo [] _
    Demo.clean_run_o1).
Defined.

Definition demo_calls : list (string * string * string * Z * Z) :=
  [("alice", "inj1alice", "project", 5, 1000000); ("bob", "inj1alice", "project", 6, 10);
   ("alice", "inj1alice", "project", 7, 900000); ("alice", "inj1alice", "project", 8, 900000);
   ("alice", "inj1alice", "project", 60000000005, 1000000)]%string.

Lemma rate_limit_enforced_witness :
  grants Demo.demo "alice|inj1alice/project" Demo.s0 demo_calls =
    [(5, 5, 1000000); (5, 7, 900000); (60000000005, 60000000005, 1000000)] /\
  total (filter (in_window 5) (grants Demo.demo "alice|inj1alice/project" Demo.s0 demo_calls))
    <= 2097152.
Proof.
  split; [vm_compute; reflexivity|].
  refine (proj1 (proj2 (rate_limit_enforced Demo.demo "alice|inj1alice/project" Demo.s0 demo_calls 5
    _ _ _))).
  - split_and!; (discriminate || reflexivity).
  - reflexivity.
  - repeat constructor; discriminate.
Defined.
