(* ===== verification/ReplicationClient.v ===== *)
(** * The replication client

    [internal/replication/client.go]: exchanging the identity token for a
    ticket and confirming the pin with at most three attempts, over the network
    of [GoIo.Transport]; every function also returns the messages it sent. *)
From Stdlib Require Import ZArith Lia Ascii String.
From stdpp Require Import base list gmap strings option.
From S2P Require Import Prelude GoText GoIo Json Encodings Replicationd.

Local Open Scope Z_scope.

(** The request body is [replicationRequest], the same struct as the service's. *)
Definition request_json (req : replicationRequest) : json :=
  JObject [text_member "cid" (rr_CID req); text_member "owner" (rr_Owner req);
    text_member "repo" (rr_Repo req); text_member "ref" (rr_Ref req);
    text_member "pack_sha256" (rr_PackSHA256 req); int_member "size" (rr_Size req);
    int_member "expires_at" (rr_ExpiresAt req)].

(** [Response] *)
Record confirmation := mk_confirmation {
  cf_CID : string;
  cf_Pinned : bool;
  cf_ExpiresAt : Z;
}.

Definition decode_confirmation (v : json) : result confirmation :=
  let? ms := struct_members v in
  let? cid := string_field "cid" "" ms in
  let? pinned := bool_field "pinned" false ms in
  let? exp := int64_field "expires_at" 0 ms in
  Ok (mk_confirmation cid pinned exp).

Record client := mk_client {
  c_endpoint : string;
  c_identityEndpoint : string;
  c_token : string;
}.

Definition maxConfirmAttempts : nat := 3.

(** [NewDynamic] and [New] *)
Definition NewDynamic (endpoint identityEndpoint token : string) : client :=
  mk_client (TrimRight (TrimSpace endpoint) "/") (TrimRight (TrimSpace identityEndpoint) "/")
    (TrimSpace token).
Definition New (endpoint token : string) : client := NewDynamic endpoint "" token.

Definition seconds (n : Z) : Z := n * 1000000000.

(** [tokenFresh]; an opaque token is used as it is. *)
Definition tokenFresh (now : Z) (token : string) (margin : Z) : bool :=
  let token := TrimSpace token in
  if decide (token = ""%string) then false
  else match Split token "." with
       | [_; p1; _] =>
           match (let? raw := DecodeString p1 in
                  let? v := Unmarshal (bytes_string raw) in
                  let? ms := struct_members v in
                  int64_field "exp" 0 ms) with
           | Ok exp => if exp =? 0 then true else unix (now + margin) <? exp
           | Err _ => true
           end
       | _ => true
       end.

Definition retryableConfirmStatus (status : Z) : bool :=
  (status =? 408) || (status =? 429) || (500 <=? status).

Section Client.
Context {TR : Transport}.

(** [strings.TrimSpace] of at most 4096 bytes of an error body; a broken body
    gives what was read of it. *)
Definition error_text (resp : response) : string :=
  TrimSpace (read_some 4096 resp).

(** The token of an answer to [refreshIdentityToken] or [Authorize]. *)
Definition answered_token (resp : response) : result string :=
  let? (v, _) := Decode (re_body resp) in
  let? ms := struct_members v in
  string_field "authorization" "" ms.

Definition answered_identity (resp : response) : result string :=
  let? (v, _) := Decode (re_body resp) in
  let? ms := struct_members v in
  let? _ := int64_field "expires_at" 0 ms in
  string_field "authorization" "" ms.

Definition refreshIdentityToken (c : client) (now : Z) (n : net)
  : client * net * list message * result unit :=
  if tokenFresh now (c_token c) (seconds 30) then (c, n, [], Ok tt)
  else if decide (c_identityEndpoint c = ""%string) then
    (c, n, [], errf "upload identity authorization expired and no authorization endpoint is configured" [])
  else match new_request (c_identityEndpoint c) with
  | Err e => (c, n, [], Err e)
  | Ok _ =>
      let m := mk_message "POST" (c_identityEndpoint c) "" "" in
      match http_do m n with
      | (n', Err e) => (c, n', [m], Err (Wrapf "refresh upload identity authorization: %w" [] e))
      | (n', Ok resp) =>
          if negb (success_status (re_status resp)) then
            (c, n', [m], errf "refresh upload identity authorization: HTTP %d: %s"
                           [GInt (re_status resp); GStr (error_text resp)])
          else match answered_identity resp with
          | Err _ => (c, n', [m], errf "invalid upload identity authorization response" [])
          | Ok token =>
              if decide (TrimSpace token = ""%string) then
                (c, n', [m], errf "invalid upload identity authorization response" [])
              else
                let c' := mk_client (c_endpoint c) (c_identityEndpoint c) (TrimSpace token) in
                (c', n', [m],
                 if tokenFresh now (c_token c') (seconds 5) then Ok tt
                 else errf "upload identity authorization API returned an expired token" [])
          end
      end
  end.

Definition authorizations_endpoint (c : client) : string :=
  TrimSuffix (c_endpoint c) "/replications" +:+ "/upload-authorizations".

(** [Authorize]: the client (its token may have been refreshed), and a client
    for the ticket. *)
Definition Authorize (c : client) (now : Z) (req : replicationRequest) (n : net)
  : client * net * list message * result client :=
  if decide (c_endpoint c = ""%string) then
    (c, n, [], errf "upload replication endpoint is not configured" [])
  else match refreshIdentityToken c now n with
  | (c1, n1, sent, Err e) => (c1, n1, sent, Err e)
  | (c1, n1, sent, Ok _) =>
      if decide (c_token c1 = ""%string) then
        (c1, n1, sent, errf "upload identity authorization is missing; sign in to the upload authorization service before pushing" [])
      else match new_request (authorizations_endpoint c1) with
      | Err e => (c1, n1, sent, Err e)
      | Ok _ =>
          let m := mk_message "POST" (authorizations_endpoint c1) ("Bearer " +:+ c_token c1)
                     (Marshal (request_json req)) in
          match http_do m n1 with
          | (n2, Err e) => (c1, n2, sent ++ [m], Err (Wrapf "upload authorization request: %w" [] e))
          | (n2, Ok resp) =>
              (c1, n2, sent ++ [m],
               if negb (success_status (re_status resp)) then
                 errf "upload authorization request: HTTP %d: %s"
                   [GInt (re_status resp); GStr (error_text resp)]
               else match answered_token resp with
               | Ok token =>
                   if decide (token = ""%string) then errf "invalid upload authorization response" []
                   else Ok (New (c_endpoint c1) token)
               | Err _ => errf "invalid upload authorization response" []
               end)
          end
      end
  end.

(** ** Confirm *)

(** What one answer means: a final result, or an error that may be retried. *)
Inductive verdict : Type :=
| Final (r : result confirmation)
| Retry (e : goerror).

Definition judge (req : replicationRequest) (r : result response) : verdict :=
  match r with
  | Err e => Retry (Wrapf "US replication request: %w" [] e)
  | Ok resp =>
      match read_limited 4096 resp with
      | Err e => Retry (Wrapf "read US replication response: %w" [] e)
      | Ok body =>
          if negb (success_status (re_status resp)) then
            let e := Errorf "US replication request: HTTP %d: %s"
                       [GInt (re_status resp); GStr (TrimSpace body)] in
            if retryableConfirmStatus (re_status resp) then Retry e else Final (Err e)
          else Final (
            let? v := wrapf "decode US replication response: %w" [] (Unmarshal body) in
            let? out := wrapf "decode US replication response: %w" [] (decode_confirmation v) in
            fail_if negb (cf_Pinned out) || negb (bool_decide (cf_CID out = rr_CID req))
              as Errorf "US replication did not confirm pin for %s" [GStr (rr_CID req)] ;;
            Ok out)
      end
  end.

(** The loop over the attempts, of which [left] remain. *)
Fixpoint confirm_loop (left : nat) (c : client) (req : replicationRequest) (lastErr : goerror)
    (n : net) : net * list message * result confirmation :=
  match left with
  | O => (n, [], Err lastErr)
  | S left' =>
      match new_request (c_endpoint c) with
      | Err e => (n, [], Err e)
      | Ok _ =>
          let m := mk_message "POST" (c_endpoint c) ("Bearer " +:+ c_token c)
                     (Marshal (request_json req)) in
          let '(n', r) := http_do m n in
          match judge req r with
          | Final out => (n', [m], out)
          | Retry e =>
              if (0 <? left')%nat then
                let '(n'', sent, out) := confirm_loop left' c req e n' in (n'', m :: sent, out)
              else (n', [m], Err e)
          end
      end
  end.

Definition Confirm (c : client) (req : replicationRequest) (n : net)
  : net * list message * result confirmation :=
  if decide (c_endpoint c = ""%string) then
    (n, [], errf "upload replication endpoint is not configured" [])
  else if decide (c_token c = ""%string) then
    (n, [], errf "upload authorization is missing; obtain a short-lived CID-bound upload token before pushing" [])
  else confirm_loop maxConfirmAttempts c req (Errorf "" []) n.

End Client.
