(* ===== verification/ReplicationClientProps.v ===== *)
(** * ReplicationClientProps: the client against the service

    What [Confirm] sends and when it succeeds over any network, and what its
    retries do to the service of [Replicationd] when requests and replies get
    lost on the way. *)
From Stdlib Require Import ZArith Lia Ascii String.
From stdpp Require Import base list gmap strings option.
From S2P Require Import Prelude GoText GoIo Json JsonSpec Encodings Replicationd ReplicationdSpec ReplicationdProps ReplicationClient.

Local Open Scope Z_scope.

(** ** Over any network *)

Section AnyNetwork.
Context {TR : Transport}.

Definition confirm_message (c : client) (req : replicationRequest) : message :=
  mk_message "POST" (c_endpoint c) ("Bearer " +:+ c_token c) (Marshal (request_json req)).

Definition confirms (req : replicationRequest) (out : confirmation) : Prop :=
  cf_Pinned out = true /\ cf_CID out = rr_CID req.

Lemma judge_final req r out : judge req r = Final (Ok out) ->
  confirms req out /\ exists resp, r = Ok resp /\ success_status (re_status resp) = true.
Proof.
  unfold judge. destruct r as [resp|]; [|discriminate]. destruct (read_limited _ _); [|discriminate].
  destruct (success_status _) eqn:Es; cbn [negb]; [|case_match; discriminate].
  intros H. injection H as H. apply bind_ok in H as (v & _ & H). apply bind_ok in H as (o & _ & H).
  apply guard_ok in H as [Hb H]. injection H as <-. rewrite orb_false_iff, !negb_false_iff in Hb.
  destruct Hb as [Hp Hc]. bool_prop.
  split; [by split|eauto].
Qed.

Lemma confirm_loop_sound left c req e n n' sent out :
  confirm_loop left c req e n = (n', sent, out) ->
  (length sent <= left)%nat /\ Forall (.= confirm_message c req) sent /\
  (forall o, out = Ok o -> confirms req o /\ sent <> []).
Proof.
  revert e n n' sent out. induction left as [|left IH]; intros e n n' sent out H; cbn [confirm_loop] in H.
  { simplify_eq. split_and!; [simpl; lia|constructor|done]. }
  destruct (new_request _); [|simplify_eq; split_and!; [simpl; lia|constructor|done]].
  destruct (http_do _ n) as [n1 r]. destruct (judge req r) as [o|e'] eqn:Ej.
  - simplify_eq. split_and!; [simpl; lia|by repeat constructor|]. intros o' ->.
    by apply judge_final in Ej as [? _].
  - destruct (0 <? left)%nat.
    + destruct (confirm_loop left c req e' n1) as [[n2 sent'] out'] eqn:El. simplify_eq.
      apply IH in El as (Hl & Hs & Ho). split_and!; [simpl; lia|by constructor|].
      intros o Hout. by destruct (Ho o Hout).
    + simplify_eq. split_and!; [simpl; lia|by repeat constructor|done].
Qed.

(** [Confirm] sends the same message at most three times, whatever the
    network does, and reports success only on an answer that says pinned for
    the CID it asked for. *)
Theorem confirm_bounded c req n n' sent out :
  Confirm c req n = (n', sent, out) ->
  (length sent <= 3)%nat /\ Forall (.= confirm_message c req) sent /\
  (forall o, out = Ok o -> confirms req o /\ sent <> []).
Proof.
  unfold Confirm. case_decide.
  { intros [= <- <- <-]. split_and!; [simpl; lia|constructor|done]. }
  case_decide; [|apply confirm_loop_sound].
  intros [= <- <- <-]. split_and!; [simpl; lia|constructor|done].
Qed.

End AnyNetwork.

(** ** Over a network that loses messages *)

(** What happens to one message on its way to the service. *)
Inductive fate : Type :=
| LostRequest
| Delivered (now : Z) (disk : disk_write) (reply_lost : bool).

Section Lossy.
Context {KB : Kubo}.
Variable s : settings.

Record network := mk_network { nw_service : service; nw_kubo : kubo; nw_fates : list fate }.

Definition at_service (m : message) : http_request :=
  mk_http_request (msg_method m) (msg_authorization m) (msg_body m).

Definition deliver (m : message) (n : network) : network * result response :=
  let no_answer := errf "connection reset" [] in
  match nw_fates n with
  | [] => (n, no_answer)
  | LostRequest :: fates => (mk_network (nw_service n) (nw_kubo n) fates, no_answer)
  | Delivered now disk reply_lost :: fates =>
      let '(st, k, _, rp) := replicate s (nw_service n) (nw_kubo n) now disk (at_service m) in
      (mk_network st k fates,
       if reply_lost then no_answer else Ok (mk_response (rp_status rp) (rp_body rp) false))
  end.

#[export] Instance lossy : Transport := {
  net := network;
  new_request _ := Ok tt;
  http_do := deliver;
}.

(** Requests that the service reads as they were written. *)
Record sendable (req : replicationRequest) : Prop := {
  sd_strings : Forall (fun t => valid_utf8 t = true)
    [rr_CID req; rr_Owner req; rr_Repo req; rr_Ref req; rr_PackSHA256 req];
  sd_size : - 2 ^ 63 <= rr_Size req < 2 ^ 63;
  sd_expires : - 2 ^ 63 <= rr_ExpiresAt req < 2 ^ 63;
  sd_length : slen (Marshal (request_json req)) <= maxReplicationRequestBody;
}.

Lemma substring_all n t : (String.length t <= n)%nat -> String.substring 0 n t = t.
Proof.
  revert n. induction t as [|c t IH]; intros [|n] H; simpl in *; try done; [lia|].
  f_equal. apply IH. lia.
Qed.

Lemma decode_sent c req :
  sendable req -> decode_body (at_service (confirm_message c req)) = Ok req.
Proof.
  intros [Hs Hsz Hx Hl]. unfold decode_body, maxBody. cbn [at_service rq_body confirm_message msg_body].
  rewrite substring_all by (unfold slen in Hl; lia).
  assert (nesting (request_json req) <= max_depth)%nat as Hdepth.
  { change (1 <= max_depth)%nat. unfold max_depth. lia. }
  assert (json_ok (request_json req) = true) as Hok.
  { unfold request_json, text_member, int_member. cbn [json_ok forallb]. rewrite !json_ok_JInt.
    decompose_Forall_hyps.
    repeat match goal with E : valid_utf8 _ = true |- _ => rewrite E; clear E end. done. }
  unfold Marshal. rewrite <- (str_app_nil (render _ _ _ _)).
  rewrite (Decode_render (fun _ => ""%string) "");
    [|done|done|exact Hok|exact Hdepth|done].
  unfold decode_request, request_json. cbn [struct_members]. read_fields. by destruct req.
Qed.

(** The claims of a token do not depend on the clock. *)
Lemma authorize_claims now now' h req cl cl' :
  authorize s now h req = Ok cl -> authorize s now' h req = Ok cl' -> cl = cl'.
Proof.
  assert (forall now cl, authorize s now h req = Ok cl -> exists cl0, cl0 = cl /\
    match Split (TrimPrefix h "Bearer ") "." with
    | [_; p1; _] => (let? raw := DecodeString p1 in
                     let? v := Unmarshal (bytes_string raw) in decode_claims v) = Ok cl0
    | _ => False
    end) as H.
  { clear. intros now cl H. unfold authorize in H. apply bind_ok in H as (c & Hp & H).
    apply guard_ok in H as [_ H]. apply guard_ok in H as [_ H]. apply guard_ok in H as [_ H].
    injection H as ->. exists cl. split; [done|]. unfold parseToken in Hp.
    apply guard_ok in Hp as [_ Hp]. destruct (Split _ _) as [|p0 [|p1 [|p2 [|]]]]; try done.
    destruct (DecodeString p2); [|done]. apply guard_ok in Hp as [_ Hp]. unfold token_claims in Hp.
    destruct (let? raw := _ in _) as [cl'|]; [|done]. apply guard_ok in Hp as [_ Hp]. congruence. }
  intros (c1 & -> & H1)%H (c2 & -> & H2)%H.
  destruct (Split _ _) as [|p0 [|p1 [|p2 [|]]]]; try done. congruence.
Qed.

(** A recorded ticket with its line, or neither. *)
Definition recorded_once (st0 st : service) (cl : claims) (req : replicationRequest) : Prop :=
  st = st0 \/
  (used st0 !! cl_JTI cl = None /\ used st = <[cl_JTI cl := rr_CID req]> (used st0) /\
   contents st = (contents st0 +:+ record_line cl req)%string).

Definition whole_writes (fates : list fate) : Prop :=
  Forall (fun f => forall now n e lost, f <> Delivered now (Partial n e) lost) fates.

(** The header authorises nothing but [cl]. *)
Definition only_authorizes (h : string) (req : replicationRequest) (cl : claims) : Prop :=
  forall now c, authorize s now h req = Ok c -> c = cl.

Lemma replicate_once c req cl st0 st k now disk st' k' log rp :
  sendable req -> only_authorizes ("Bearer " +:+ c_token c) req cl ->
  (forall n e, disk <> Partial n e) -> recorded_once st0 st cl req ->
  replicate s st k now disk (at_service (confirm_message c req)) = (st', k', log, rp) ->
  recorded_once st0 st' cl req /\
  (success_status (rp_status rp) = true -> used st' !! cl_JTI cl = Some (rr_CID req)).
Proof.
  intros Hreq Honly Hd Hst. unfold replicate. cbn [rq_method at_service].
  rewrite bool_decide_eq_true_2 by done. cbn [negb]. rewrite decode_sent by done.
  cbn [rq_authorization at_service confirm_message msg_authorization].
  destruct (authorize s now _ req) as [c'|e] eqn:Ea.
  2: { intros [= <- <- <- <-]. split; [done|discriminate]. }
  apply Honly in Ea as ->. unfold already. destruct (used st !! cl_JTI cl) as [cid|] eqn:Eu.
  { intros [= <- <- <- <-]. split; [done|]. case_decide; [by subst|discriminate]. }
  unfold pin_and_record. destruct (kuboPost _ (pin_add_path _) k) as [k1 [[]|e]].
  2: { intros [= <- <- <- <-]. split; [done|discriminate]. }
  destruct (kuboVerify _ _ _ k1) as [k2 verified]. destruct (check_content req verified) as [[]|e].
  2: { destruct (kuboPost _ (pin_rm_path _) k2). intros [= <- <- <- <-]. split; [done|discriminate]. }
  destruct Hst as [->|(_ & Hu & _)]; [|by rewrite Hu, lookup_insert_eq in Eu].
  destruct disk as [|e|n e]; [..|by edestruct Hd]; cbn [record]; intros [= <- <- <- <-].
  - split; [right; done|]. intros _. cbn [used]. by rewrite lookup_insert_eq.
  - split; [by left|discriminate].
Qed.

Lemma confirm_loop_once left c req cl st0 e n n' sent out :
  sendable req -> only_authorizes ("Bearer " +:+ c_token c) req cl ->
  whole_writes (nw_fates n) -> recorded_once st0 (nw_service n) cl req ->
  confirm_loop left c req e n = (n', sent, out) ->
  recorded_once st0 (nw_service n') cl req /\
  (forall o, out = Ok o -> used (nw_service n') !! cl_JTI cl = Some (rr_CID req)).
Proof.
  intros Hreq Honly. revert e n n' sent out.
  induction left as [|left IH]; intros e n n' sent out Hw Hst H; cbn [confirm_loop] in H.
  { by simplify_eq. }
  cbn [new_request lossy http_do] in H. fold (confirm_message c req) in H.
  destruct (deliver (confirm_message c req) n) as [n1 r] eqn:Ed.
  assert (whole_writes (nw_fates n1) /\ recorded_once st0 (nw_service n1) cl req /\
    forall resp, r = Ok resp -> success_status (re_status resp) = true ->
      used (nw_service n1) !! cl_JTI cl = Some (rr_CID req)) as (Hw1 & Hst1 & Hr).
  { unfold deliver, whole_writes in *. destruct n as [st k fates]. cbn [nw_fates nw_service nw_kubo] in *.
    destruct fates as [|[|now disk lost] fates]; [by injection Ed as <- <-|..];
      apply Forall_cons_1 in Hw as [Hf Hw]; [by injection Ed as <- <-|].
    destruct (replicate s st k now disk _) as [[[st' k'] log] rp] eqn:Er.
    injection Ed as <- <-. cbn [nw_service nw_fates].
    destruct (replicate_once _ _ cl st0 _ _ _ _ _ _ _ _ Hreq Honly
      (fun m e' E => Hf now m e' lost (f_equal (fun d => Delivered now d lost) E)) Hst Er)
      as [Hst' Hu].
    split_and!; [done..|]. destruct lost; [done|]. intros resp [= <-]. exact Hu. }
  destruct (judge req r) as [o|e'] eqn:Ej.
  - simplify_eq. split; [done|]. intros o' ->. apply judge_final in Ej as [_ (resp & -> & Hs)].
    by eapply Hr.
  - destruct (0 <? left)%nat.
    + destruct (confirm_loop _ _ _ _ _) as [[n2 sent'] out'] eqn:El. simplify_eq.
      by eapply IH in El.
    + by simplify_eq.
Qed.

(** C15: the retries of [Confirm] use a ticket once.  Whatever requests and
    replies get lost between the client and the service, the service ends up
    either as it was or with the ticket recorded by exactly one line, and when
    [Confirm] reports success the ticket is recorded for the confirmed CID. *)
Theorem confirm_records_once c req cl n n' sent out now0 :
  sendable req -> authorize s now0 ("Bearer " +:+ c_token c) req = Ok cl ->
  whole_writes (nw_fates n) ->
  Confirm c req n = (n', sent, out) ->
  recorded_once (nw_service n) (nw_service n') cl req /\
  (forall o, out = Ok o -> used (nw_service n') !! cl_JTI cl = Some (rr_CID req)).
Proof.
  intros Hreq Ha Hw. unfold Confirm.
  case_decide; [intros [= <- <- <-]; split; [by left|done]|].
  case_decide; [intros [= <- <- <-]; split; [by left|done]|].
  apply confirm_loop_once; [done| |done|by left].
  intros now c' Hc'. by eapply authorize_claims.
Qed.

(** ** The service's confirmation as the client reads it *)

Lemma Unmarshal_line v :
  json_ok v = true -> (nesting v <= max_depth)%nat ->
  Unmarshal (Marshal v +:+ str1 newline) = Ok v.
Proof.
  intros Hok Hd. unfold Unmarshal, Marshal.
  by rewrite (Decode_render (fun _ => ""%string) "").
Qed.

Lemma judge_pinned req cl b :
  valid_utf8 (rr_CID req) = true -> - 2 ^ 63 <= cl_ExpiresAt cl < 2 ^ 63 ->
  slen (rp_body (pinned_reply req cl b)) < 4096 ->
  judge req (Ok (mk_response (rp_status (pinned_reply req cl b))
    (rp_body (pinned_reply req cl b)) false)) =
  Final (Ok (mk_confirmation (rr_CID req) true (cl_ExpiresAt cl))).
Proof.
  intros Hv Hx Hl. unfold judge, read_limited. cbn [re_body re_broken re_status].
  rewrite (proj2 (Z.leb_gt 4096 _)) by exact Hl. cbn iota.
  assert (success_status (rp_status (pinned_reply req cl b)) = true) as -> by (by destruct b).
  cbn [negb]. f_equal. unfold pinned_reply, writeJSON. assert (1 <= max_depth)%nat by (unfold max_depth; lia).
  destruct b; cbn [rp_body]; rewrite Unmarshal_line; try done.
  2,4: unfold text_member, int_member, bool_member; cbn [json_ok forallb];
    by rewrite json_ok_JInt, Hv.
  all: cbn [wrapf]; unfold decode_confirmation; cbn [struct_members]; read_fields;
    cbn [wrapf cf_Pinned cf_CID negb]; by rewrite bool_decide_eq_true_2.
Qed.

Definition lost_fate (f : fate) : Prop :=
  match f with LostRequest => True | Delivered _ _ reply_lost => reply_lost = true end.

Lemma deliver_recorded c req cl n :
  sendable req -> only_authorizes ("Bearer " +:+ c_token c) req cl ->
  used (nw_service n) !! cl_JTI cl = Some (rr_CID req) ->
  forall f fates, nw_fates n = f :: fates ->
  (lost_fate f -> exists k e, deliver (confirm_message c req) n =
     (mk_network (nw_service n) k fates, Err e)) /\
  (forall now disk, f = Delivered now disk false ->
     authorize s now ("Bearer " +:+ c_token c) req = Ok cl ->
     exists k, deliver (confirm_message c req) n =
       (mk_network (nw_service n) k fates,
        Ok (mk_response (rp_status (pinned_reply req cl true))
              (rp_body (pinned_reply req cl true)) false))).
Proof.
  intros Hreq Honly Hu f fates Hf. unfold deliver. rewrite Hf.
  assert (forall now disk, exists k log rp,
    replicate s (nw_service n) (nw_kubo n) now disk (at_service (confirm_message c req)) =
      (nw_service n, k, log, rp) /\
    (authorize s now ("Bearer " +:+ c_token c) req = Ok cl -> rp = pinned_reply req cl true)) as Hrep.
  { intros now disk. unfold replicate. cbn [rq_method at_service].
    rewrite bool_decide_eq_true_2 by done. cbn [negb]. rewrite decode_sent by done.
    cbn [rq_authorization at_service confirm_message msg_authorization].
    destruct (authorize s now _ req) as [c'|e] eqn:Ea; [|by do 3 eexists].
    apply Honly in Ea as ->. unfold already. rewrite Hu, decide_True by done. by do 3 eexists. }
  split.
  - destruct f as [|now disk lost]; simpl; [intros _; by do 2 eexists|intros ->].
    destruct (Hrep now disk) as (k & log & rp & -> & _). by do 2 eexists.
  - intros now disk -> Ha. destruct (Hrep now disk) as (k & log & rp & -> & Hrp).
    rewrite (Hrp Ha). by eexists.
Qed.

Lemma confirm_loop_succeeds losses c req cl now disk rest e n left :
  sendable req -> only_authorizes ("Bearer " +:+ c_token c) req cl ->
  authorize s now ("Bearer " +:+ c_token c) req = Ok cl ->
  - 2 ^ 63 <= cl_ExpiresAt cl < 2 ^ 63 ->
  slen (rp_body (pinned_reply req cl true)) < 4096 ->
  used (nw_service n) !! cl_JTI cl = Some (rr_CID req) ->
  nw_fates n = losses ++ Delivered now disk false :: rest -> Forall lost_fate losses ->
  (length losses < left)%nat ->
  exists n' sent, confirm_loop left c req e n =
    (n', sent, Ok (mk_confirmation (rr_CID req) true (cl_ExpiresAt cl))) /\
    nw_service n' = nw_service n /\ length sent = S (length losses).
Proof.
  intros Hreq Honly Ha Hx Hl. assert (valid_utf8 (rr_CID req) = true) as Hv.
  { destruct Hreq as [Hs _ _ _]. by decompose_Forall_hyps. }
  revert e n left. induction losses as [|f losses IH]; intros e n left Hu Hf Hlost Hlen;
    (destruct left as [|left]; [simpl in Hlen; lia|]); cbn [confirm_loop new_request lossy http_do];
    fold (confirm_message c req).
  - destruct (deliver_recorded c req cl n Hreq Honly Hu _ _ Hf) as [_ Hd].
    destruct (Hd now disk eq_refl Ha) as [k ->]. rewrite judge_pinned by done. by do 2 eexists.
  - apply Forall_cons_1 in Hlost as [Hlf Hlost]. cbn [app] in Hf.
    destruct (deliver_recorded c req cl n Hreq Honly Hu _ _ Hf) as [Hd _].
    destruct (Hd Hlf) as (k & e' & ->). cbn [judge]. simpl in Hlen.
    rewrite (proj2 (Nat.ltb_lt 0 left)) by lia.
    destruct (IH (Wrapf "US replication request: %w" [] e')
      (mk_network (nw_service n) k (losses ++ Delivered now disk false :: rest)) left
      Hu eq_refl Hlost ltac:(lia)) as (n' & sent & Hc & Hs & Hn).
    rewrite Hc. do 2 eexists. split_and!; [done|done|simpl; lia].
Qed.

(** A retry recovers a lost reply.  Once a ticket is recorded, [Confirm]
    succeeds with it although up to two requests or replies are lost first: it
    returns the pinned CID with the ticket's expiration and leaves the service
    as it was. *)
Theorem confirm_recovers losses c req cl now disk rest n :
  c_endpoint c <> ""%string -> c_token c <> ""%string -> sendable req ->
  authorize s now ("Bearer " +:+ c_token c) req = Ok cl ->
  slen (rp_body (pinned_reply req cl true)) < 4096 ->
  used (nw_service n) !! cl_JTI cl = Some (rr_CID req) ->
  nw_fates n = losses ++ Delivered now disk false :: rest -> Forall lost_fate losses ->
  (length losses <= 2)%nat ->
  exists n' sent, Confirm c req n =
    (n', sent, Ok (mk_confirmation (rr_CID req) true (cl_ExpiresAt cl))) /\
    nw_service n' = nw_service n /\ length sent = S (length losses).
Proof.
  intros He Ht Hreq Ha Hl Hu Hf Hlost Hlen. unfold Confirm. rewrite !decide_False by done.
  apply (confirm_loop_succeeds losses c req cl now disk rest); try done.
  - intros now' c' Hc'. by eapply authorize_claims.
  - unfold authorize in Ha. apply bind_ok in Ha as (c' & Hp & Ha).
    apply guard_ok in Ha as [_ Ha]. apply guard_ok in Ha as [_ Ha]. apply guard_ok in Ha as [_ Ha].
    injection Ha as ->. by apply parseToken_ok in Hp as [[_ _ ?] _].
  - unfold maxConfirmAttempts. lia.
Qed.
End Lossy.

(** ** Witnesses *)

Definition demo_client : client :=
  New "https://us.example/replications"
    (sign Demo.demo (Demo.ticket_of "alice" Demo.upload 1)).

Definition bumpy (c : service * list string) : network (KB := Demo.demo_kubo) :=
  mk_network (KB := Demo.demo_kubo) c.1 c.2
    [Delivered Demo.now Written true; LostRequest; Delivered Demo.now Written false].

#[local] Notation demo_transport := (@lossy Demo.demo_kubo Demo.demo).
#[local] Notation demo_confirm :=
  (@Confirm demo_transport demo_client Demo.upload (bumpy (Demo.s0, []))).

Lemma confirm_eta {TR : Transport} (x : net * list message * result confirmation) :
  x = (x.1.1, x.1.2, x.2).
Proof. by destruct x as [[] ]. Qed.

Lemma upload_sendable : sendable Demo.upload.
Proof.
  split; [repeat constructor|split; vm_compute; [discriminate|reflexivity]..|vm_compute; discriminate].
Qed.

Lemma demo_authorize :
  authorize Demo.demo Demo.now ("Bearer " +:+ c_token demo_client) Demo.upload
  = Ok (Demo.ticket_of "alice" Demo.upload 1).
Proof. vm_compute. reflexivity. Qed.

Lemma confirm_bounded_witness :
  (length demo_confirm.1.2 <= 3)%nat /\ Forall (.= confirm_message demo_client Demo.upload) demo_confirm.1.2.
Proof.
  destruct (@confirm_bounded demo_transport demo_client Demo.upload (bumpy (Demo.s0, [])) _ _ _
    (@confirm_eta demo_transport demo_confirm)) as (H1 & H2 & _).
  split; [exact H1|exact H2].
Defined.

Lemma bumpy_whole c : whole_writes (nw_fates (bumpy c)).
Proof. unfold bumpy. cbn [nw_fates]. repeat constructor; discriminate. Qed.

Lemma confirm_records_once_witness :
  recorded_once (nw_service (bumpy (Demo.s0, []))) (nw_service (demo_confirm.1.1))
    (Demo.ticket_of "alice" Demo.upload 1) Demo.upload.
Proof.
  exact (proj1 (@confirm_records_once Demo.demo_kubo Demo.demo demo_client Demo.upload
    (Demo.ticket_of "alice" Demo.upload 1) (bumpy (Demo.s0, [])) _ _ _ Demo.now
    upload_sendable demo_authorize (bumpy_whole _) (@confirm_eta demo_transport demo_confirm))).
Defined.

Lemma demo_pinned_short :
  slen (rp_body (pinned_reply Demo.upload (Demo.ticket_of "alice" Demo.upload 1) true)) < 4096.
Proof. vm_compute. reflexivity. Qed.

Lemma confirm_recovers_witness :
  exists n' sent,
    @Confirm demo_transport demo_client Demo.upload (bumpy (Demo.state_of Demo.o1)) =
      (n', sent, Ok (mk_confirmation Demo.object_cid true
                       (cl_ExpiresAt (Demo.ticket_of "alice" Demo.upload 1)))) /\
    length sent = 3%nat.
Proof.
  destruct (@confirm_recovers Demo.demo_kubo Demo.demo
    [Delivered Demo.now Written true; LostRequest] demo_client Demo.upload
    (Demo.ticket_of "alice" Demo.upload 1) Demo.now Written [] (bumpy (Demo.state_of Demo.o1)))
    as (n' & sent & Hc & _ & Hl).
  - discriminate.
  - intros E. vm_compute in E. discriminate E.
  - exact upload_sendable.
  - exact demo_authorize.
  - exact demo_pinned_short.
  - exact Demo.used_o1.
  - reflexivity.
  - repeat constructor.
  - apply le_n.
  - exists n', sent. split; [exact Hc|exact Hl].
Defined.
