(* ===== verification/ChainTypes.v ===== *)
(** * Domain types of the chain package

    [internal/chain/types.go] and [backend.go]: references and repositories as
    the commands see them, the error for a moved repository, and the interface
    [RepoRegistryBackend] as the remote helper uses it. *)
From Stdlib Require Import ZArith Ascii String.
From stdpp Require Import base list strings option.
From S2P Require Import Prelude GoText.

Local Open Scope Z_scope.

Record RefInfo := mk_RefInfo {
  ri_RefName : string;
  ri_CommitSha : string;
  ri_PackURIs : list string;
  ri_UpdatedAt : Z;
  ri_UpdatedBy : string;
}.

Record RepoInfo := mk_RepoInfo {
  rp_Owner : string;
  rp_Name : string;
  rp_Description : string;
  rp_DefaultBranch : string;
  rp_CreatedAt : Z;
  rp_UpdatedAt : Z;
  rp_ModerationStatus : string;
}.

Record RepoLocator := mk_RepoLocator { rl_Owner : string; rl_Name : string }.

Record ResolvedRepo := mk_ResolvedRepo {
  rs_RepoID : bytes;
  rs_Backend : string;
  rs_Requested : RepoLocator;
  rs_Canonical : RepoLocator;
  rs_IsCanonical : bool;
  rs_Info : RepoInfo;
}.

Definition BackendEVM : string := "evm".

Record CollaboratorInfo := mk_CollaboratorInfo { ci_Address : string; ci_Role : string }.

Record Coin := mk_Coin { cn_Denom : string; cn_Amount : string }.

Record SplitEntry := mk_SplitEntry { se_Address : string; se_Bps : Z }.

Record ReleaseArtifact := mk_ReleaseArtifact {
  ra_Version : string;
  ra_Platform : string;
  ra_SHA256 : string;
  ra_RegisteredBy : string;
  ra_RegisteredAt : Z;
}.

Record OwnershipTransferInfo := mk_OwnershipTransferInfo {
  ot_NewOwner : string;
  ot_ProposedAt : Z;
  ot_ExecuteAfter : Z;
  ot_ExpiresAt : Z;
}.

Record RecoveryProposalInfo := mk_RecoveryProposalInfo {
  rc_NewOwner : string;
  rc_ProposedAt : Z;
  rc_ExecuteAfter : Z;
  rc_Approvals : list string;
}.

Record OwnershipSecurityInfo := mk_OwnershipSecurityInfo {
  os_Transfer : option OwnershipTransferInfo;
  os_Recovery : option RecoveryProposalInfo;
  os_Guardians : list string;
  os_GuardianThreshold : Z;
}.

Record ModerationReportInfo := mk_ModerationReportInfo {
  mr_ID : Z;
  mr_Owner : string;
  mr_Repo : string;
  mr_Reporter : string;
  mr_ReasonHash : string;
  mr_Status : string;
  mr_Resolution : string;
  mr_ResolutionHash : option string;
  mr_AppealHash : option string;
  mr_CreatedAt : Z;
  mr_UpdatedAt : Z;
}.

Record Badge := mk_Badge {
  bg_ID : Z;
  bg_RepoID : string;
  bg_RepoOwner : string;
  bg_RepoName : string;
  bg_Recipient : string;
  bg_Reason : string;
  bg_AwardedBy : string;
  bg_AwardedAt : Z;
}.

(** [CanonicalURL] *)
Definition CanonicalURL (owner name : string) : string := "igit://" +:+ owner +:+ "/" +:+ name.

(** [RepoMovedError] *)
Definition RepoMovedError (id : bytes) (owner name : string) : goerror :=
  Typed "RepoMovedError" (Errorf "repository moved to igit://%s/%s" [GStr owner; GStr name]).

(** The methods of [RepoRegistryBackend] that the remote helper calls, as
    actions on a world [W]. *)
Class RepoRegistry (W : Type) := {
  ResolveRepo : string -> string -> W -> W * result ResolvedRepo;
  ListRefs : string -> string -> W -> W * result (list RefInfo);
  ResolveRef : string -> string -> string -> W -> W * result (string * list string);
  UpdateRef : string -> string -> string -> string -> list string -> string -> bool ->
              W -> W * result unit;
  DeleteRef : string -> string -> string -> W -> W * result unit;
}.
