(* ===== verification/Remote.v ===== *)
(** * The git remote helper

    [internal/remote/url.go] and [helper.go]: parsing [igit://] URLs and the
    conversation with git over standard input and output.  The helper acts on a
    world [W] through the interfaces of the source: the registry, the IPFS
    client, the local git repository, the replication client and the clock.
    [h_calls] is not a field of the Go struct: it logs the calls made, for the
    theorems to speak about. *)
From Stdlib Require Import ZArith Lia Ascii String.
From Stdlib Require Strings.Byte.
From stdpp Require Import base list gmap strings option.
From S2P Require Import Prelude GoText Prog GoIo I18n Encodings Replicationd ChainTypes.

Local Open Scope Z_scope.

(** ** URLs *)

Record RepoURL := mk_RepoURL { Owner : string; Repo : string }.

Definition OwnerIsAddress (u : RepoURL) : bool := HasPrefix (Owner u) "inj1".

Definition username_char (c : ascii) : bool := is_lower c || is_digit c || is_char "-" c.

Definition ValidUsername (name : string) : bool :=
  if (slen name <? 3) || (32 <? slen name) ||
     HasPrefix name "-" || HasSuffix name "-" || HasPrefix name "inj1" then false
  else all_chars username_char name.

(** The first of the two prefixes that the URL has is cut off. *)
Definition trim_scheme (s : string) : string :=
  if HasPrefix s "igit://" then TrimPrefix s "igit://"
  else if HasPrefix s "igit::" then TrimPrefix s "igit::" else s.

Section URL.
Context {EN : Environment}.

Definition ParseURL (raw : string) : result RepoURL :=
  let s := TrimSuffix (Trim (trim_scheme raw) "/") ".git" in
  let invalid := i18n_Errorf "invalid remote URL %q (expected igit://<owner>/<repo>)"
    "无效的远程 URL %q（应为 igit://<owner>/<repo>）" [GStr raw] in
  match Split s "/" with
  | [owner; repo] =>
      fail_if bool_decide (owner = ""%string) || bool_decide (repo = ""%string) as invalid ;;
      fail_if negb (HasPrefix owner "inj1") && negb (ValidUsername owner)
        as i18n_Errorf "invalid owner %q: expected an inj1... address or a registered username"
             "所有者 %q 无效：应为 inj1... 地址或已注册用户名" [GStr owner] ;;
      Ok (mk_RepoURL owner repo)
  | _ => Err invalid
  end.
End URL.

(** ** The interfaces of the helper *)

Class IpfsClient (W : Type) := {
  AddTemporary : string -> string -> W -> W * result string;
  GetFromGateways : string -> W -> W * result response;
  SwarmConnect : string -> W -> W * result unit;
  GC : W -> W * result unit;
}.

Class GitRepo (W : Type) := {
  git_ResolveRef : string -> W -> W * string;
  PackObjects : string -> list string -> W -> W * result string;
  IndexPack : response -> W -> W * result unit;
  ScanSecrets : string -> W -> W * list string;
}.

(** [replication.Authorizer] and [replication.Confirmer]: a ticket is what
    [Authorize] returns. *)
Class Authorizer (W : Type) := {
  ticket_client : Type;
  au_Authorize : replicationRequest -> W -> W * result ticket_client;
  au_Confirm : ticket_client -> replicationRequest -> W -> W * result unit;
}.

(** [time.Now], in nanoseconds since the epoch. *)
Class Clock (W : Type) := { Now : W -> W * Z }.

(** The calls that the theorems speak about, with what they returned. *)
Inductive call : Type :=
| Listed (refs : list RefInfo)
| Packed (want : string) (exclude : list string) (pack : string)
| Added (name pack cid : string)
| Authorized (req : replicationRequest)
| Confirmed (req : replicationRequest)
| SentUpdate (ref sha : string) (uris : list string) (expected : string) (force : bool)
| SentDelete (ref : string)
| Deleted (ref : string)
| Updated (ref : string)
| Collected
| Fetched (uri : string)
| Indexed.

Record pushSpec := mk_pushSpec { ps_src : string; ps_dst : string; ps_force : bool }.

Definition maxToken : nat := Z.to_nat (1024 * 1024).

Section Helper.
Context {EN : Environment} {MO : MapOrder} {W : Type}.
Context {RR : RepoRegistry W} {IC : IpfsClient W} {GR : GitRepo W} {AU : Authorizer W}
        {CK : Clock W}.

(** What [NewHelper] and [SetPushPreflight] fix. *)
Record wiring := mk_wiring {
  w_url : RepoURL;
  w_uploadPeers : list string;
  w_replication : bool;
  w_preflight : option (bool -> W -> W * result unit);
}.

Record helper := mk_helper {
  h_in : scanner;
  h_out : string;
  h_log : list string;
  h_remoteRefs : gmap string RefInfo;
  h_resolved : option ResolvedRepo;
  h_world : W;
  h_calls : list call;
}.

Variable w : wiring.

Definition NewHelper (input : string) (e : input_end) (world : W) : helper :=
  mk_helper (NewScanner input e maxToken) "" [] empty None world [].

(** *** Input and output *)

Definition set_in (sc : scanner) (h : helper) : helper :=
  mk_helper sc (h_out h) (h_log h) (h_remoteRefs h) (h_resolved h) (h_world h) (h_calls h).
Definition write (text : string) (h : helper) : helper :=
  mk_helper (h_in h) (h_out h +:+ text) (h_log h) (h_remoteRefs h) (h_resolved h) (h_world h)
    (h_calls h).
Definition log_line (text : string) (h : helper) : helper :=
  mk_helper (h_in h) (h_out h) (h_log h ++ [text]) (h_remoteRefs h) (h_resolved h) (h_world h)
    (h_calls h).
Definition set_refs (refs : gmap string RefInfo) (h : helper) : helper :=
  mk_helper (h_in h) (h_out h) (h_log h) refs (h_resolved h) (h_world h) (h_calls h).
Definition set_resolved (r : ResolvedRepo) (h : helper) : helper :=
  mk_helper (h_in h) (h_out h) (h_log h) (h_remoteRefs h) (Some r) (h_world h) (h_calls h).

Definition scan : prog helper (option string) := fun h =>
  let '(sc, line) := Scan (h_in h) in (set_in sc h, Ok line).

(** [printf] of a line; the text ends in a line feed. *)
Definition print_line (text : string) : prog helper unit :=
  modify (write (text +:+ str1 newline_char)).

Definition progress (english chinese : string) (args : list garg) : prog helper unit :=
  modify (log_line ("igit: " +:+ sprintf "" (Text english chinese) (map garg_text args))).

(** A call of an interface method; [log] are the entries for [h_calls]. *)
Definition invoke {A} (f : W -> W * result A) (before : list call) (after : A -> list call)
  : prog helper A := fun h =>
  let '(world, r) := f (h_world h) in
  let calls := match r with Ok a => after a | Err _ => [] end in
  (mk_helper (h_in h) (h_out h) (h_log h) (h_remoteRefs h) (h_resolved h) world
     (h_calls h ++ before ++ calls), r).

(** A call that cannot fail. *)
Definition invoke_pure {A} (f : W -> W * A) : prog helper A :=
  invoke (fun world => let '(world', a) := f world in (world', Ok a)) [] (fun _ => []).

(** *** list *)

Definition resolveRepo : prog helper ResolvedRepo :=
  known ← gets h_resolved;
  match known with
  | Some resolved => mret resolved
  | None =>
      resolved ← invoke (ResolveRepo (Owner (w_url w)) (Repo (w_url w))) [] (fun _ => []);
      modify (set_resolved resolved);;
      mret resolved
  end.

Definition movedError (resolved : ResolvedRepo) : result unit :=
  if rs_IsCanonical resolved then Ok tt
  else Err (RepoMovedError (rs_RepoID resolved) (rl_Owner (rs_Canonical resolved))
              (rl_Name (rs_Canonical resolved))).

Definition head_target (resolved : ResolvedRepo) : string :=
  "refs/heads/" +:+ rp_DefaultBranch (rs_Info resolved).

Definition cmdList (forPush : bool) : prog helper unit :=
  resolved ← wrap_error (Text "resolve repository from chain: %w" "从链上解析仓库失败：%w") []
               resolveRepo;
  (if forPush then of_result (movedError resolved) else mret tt);;
  refs ← wrap_error (Text "list refs from chain: %w" "从链上获取 refs 失败：%w") []
           (invoke (ListRefs (Owner (w_url w)) (Repo (w_url w))) [] (fun refs => [Listed refs]));
  modify (set_refs empty);;
  for_each (fun r =>
    known ← gets h_remoteRefs;
    modify (set_refs (<[ri_RefName r := r]> known));;
    print_line (ri_CommitSha r +:+ " " +:+ ri_RefName r)) refs;;
  known ← gets h_remoteRefs;
  (if decide (rp_DefaultBranch (rs_Info resolved) = ""%string) then mret tt
   else match known !! head_target resolved with
        | Some _ => print_line ("@" +:+ head_target resolved +:+ " HEAD")
        | None => mret tt
        end);;
  print_line "".

(** *** fetch *)

(** The further lines of a batch, up to the blank line. *)
Fixpoint read_batch (fuel : nat) : prog helper (list string) :=
  match fuel with
  | O => mret []
  | S fuel' =>
      line ← scan;
      match line with
      | None => mret []
      | Some line =>
          if decide (line = ""%string) then mret []
          else rest ← read_batch fuel'; mret (line :: rest)
      end
  end.

(** [first] and the lines of the batch that begin with [command]. *)
Definition batch (command first : string) : prog helper (list string) :=
  sc ← gets h_in;
  lines ← read_batch (S (String.length (sc_rest sc)));
  mret (first :: filter (fun line => HasPrefix line command = true) lines).

(** [seen] of the source holds exactly the elements of [uris]. *)
Definition add_uri (uris : list string) (uri : string) : list string :=
  if decide (uri ∈ uris) then uris else uris ++ [uri].

Definition wanted_uris (refName : string) : prog helper (list string) :=
  known ← gets h_remoteRefs;
  match known !! refName with
  | Some entry => mret (ri_PackURIs entry)
  | None =>
      '(_, refURIs) ← wrap_error (Text "resolve %s: %w" "解析 %s 失败：%w") [GStr refName]
        (invoke (ResolveRef (Owner (w_url w)) (Repo (w_url w)) refName) [] (fun _ => []));
      mret refURIs
  end.

Fixpoint collect_uris (wanted uris : list string) : prog helper (list string) :=
  match wanted with
  | [] => mret uris
  | line :: wanted' =>
      match Fields line with
      | [_; _; refName] =>
          more ← wanted_uris refName;
          collect_uris wanted' (foldl add_uri uris more)
      | _ => fail (i18n_Errorf "malformed fetch command: %q" "格式错误的 fetch 命令：%q" [GStr line])
      end
  end.

Definition fetchPack (uri : string) : prog helper response :=
  match cut_prefix "ipfs://" uri with
  | Some cid => invoke (GetFromGateways cid) [] (fun _ => [Fetched uri])
  | None =>
      if Contains uri "://" then
        fail (i18n_Errorf "unsupported pack uri scheme: %s" "不支持的 pack URI 协议：%s" [GStr uri])
      else invoke (GetFromGateways uri) [] (fun _ => [Fetched uri])
  end.

Definition ingest (total : Z) (i : Z) (uri : string) : prog helper unit :=
  progress "downloading packfile %d/%d (%s)" "正在下载 packfile %d/%d（%s）"
    [GInt (i + 1); GInt total; GStr uri];;
  body ← fetchPack uri;
  wrap_error (Text "ingest packfile %s: %w" "导入 packfile %s 失败：%w") [GStr uri]
    (invoke (IndexPack body) [] (fun _ => [Indexed])).

Definition cmdFetchBatch (first : string) : prog helper unit :=
  wanted ← batch "fetch " first;
  uris ← collect_uris wanted [];
  for_each_i (ingest (llen uris)) 0 uris;;
  print_line "".

(** *** push *)

Definition parsePushSpec (line : string) : pushSpec :=
  let raw := TrimPrefix line "push " in
  let force := HasPrefix raw "+" in
  let '(src, dst, _) := Cut (TrimPrefix raw "+") ":" in
  mk_pushSpec src dst force.

(** [packEmpty]: the object count is the big-endian word at bytes 8 to 11. *)
Definition packEmpty (pack : string) : bool :=
  if slen pack <? 12 then true
  else be_value (take 4 (drop 8 (string_bytes pack))) =? 0.

Definition sanitizeErr (e : goerror) : string := replace_char newline_char " " (Error e).

Definition pack_objects (want : string) (exclude : list string) : prog helper string :=
  invoke (PackObjects want exclude) [] (fun pack => [Packed want exclude pack]).

(** The remote tips that an incremental pack leaves out, in the order in which
    the map is traversed. *)
Definition exclusions (spec : pushSpec) (refs : gmap string RefInfo) : list string :=
  if ps_force spec then []
  else map (fun p => ri_CommitSha p.2) (map_order (map_to_list refs)).

(** A pack without objects: a known ref keeps its URIs, a new one gets a
    self-contained pack. *)
Definition cover_empty (spec : pushSpec) (localSha pack : string) (prev : option RefInfo)
  : prog helper (string * list string) :=
  if packEmpty pack then
    match prev with
    | Some r => mret (pack, ri_PackURIs r)
    | None =>
        progress "no new objects; building self-contained pack for %s"
          "没有新对象，正在为 %s 创建自包含 pack" [GStr (ps_dst spec)];;
        full ← pack_objects localSha [];
        mret (full, [])
    end
  else mret (pack, []).

(** The first peer is required, the others are optional. *)
Definition connect_optional (peer : string) : prog helper unit :=
  let peer := TrimSpace peer in
  if decide (peer = ""%string) then mret tt
  else
    r ← attempt (invoke (SwarmConnect peer) [] (fun _ => []));
    match r with
    | Ok _ => mret tt
    | Err e => progress "optional upload peer connection failed: %v" "可选上传节点连接失败：%v"
                 [GStr (Error e)]
    end.

Definition connect_peers : prog helper unit :=
  let unconfigured := i18n_Errorf
    "US Kubo swarm peer is not configured; set upload.us_peer to the US service multiaddr"
    "未配置 US Kubo swarm peer；请将 upload.us_peer 设为 US 服务的 multiaddr" [] in
  match w_uploadPeers w with
  | [] => fail unconfigured
  | us :: others =>
      if decide (TrimSpace us = ""%string) then fail unconfigured
      else
        wrap_error (Text "connect temporary local Kubo to US peer: %w"
                     "连接临时本地 Kubo 到 US peer 失败：%w") []
          (invoke (SwarmConnect us) [] (fun _ => []));;
        for_each connect_optional others
  end.

(** The binding of the ticket names the canonical repository. *)
Definition binding (spec : pushSpec) (resolved : option ResolvedRepo) (cid pack : string) (now : Z)
  : replicationRequest :=
  let '(owner, repo) :=
    match resolved with
    | Some r => (rl_Owner (rs_Canonical r), rl_Name (rs_Canonical r))
    | None => (Owner (w_url w), Repo (w_url w))
    end in
  mk_request cid owner repo (ps_dst spec) (sha256_hex (string_bytes pack)) (slen pack)
    (unix (now + 30 * minute)).

(** Upload a pack and have the US service confirm its pin. *)
Definition replicate_pack (spec : pushSpec) (pack : string) : prog helper (list string) :=
  progress "uploading packfile (%d bytes) to IPFS" "正在将 packfile（%d 字节）上传到 IPFS"
    [GInt (slen pack)];;
  cid ← invoke (AddTemporary (ps_dst spec +:+ ".pack") pack) []
          (fun cid => [Added (ps_dst spec +:+ ".pack") pack cid]);
  progress "temporary local pack added: %s" "临时本地 pack 已添加：%s" [GStr cid];;
  connect_peers;;
  (if w_replication w then mret tt
   else fail (i18n_Errorf "US replication client is not configured" "未配置 US replication 客户端" []));;
  resolved ← gets h_resolved;
  now ← invoke_pure Now;
  let req := binding spec resolved cid pack now in
  progress "requesting CID-bound upload authorization for %s" "正在请求绑定 CID 的上传授权：%s"
    [GStr cid];;
  scoped ← invoke (au_Authorize req) [] (fun _ => [Authorized req]);
  progress "requesting US Kubo replication and Pin confirmation for %s"
    "正在请求 US Kubo 复制和 Pin 确认：%s" [GStr cid];;
  invoke (au_Confirm scoped req) [] (fun _ => [Confirmed req]);;
  progress "US Kubo confirmed durable Pin: %s" "US Kubo 已确认持久 Pin：%s" [GStr cid];;
  mret ["ipfs://" +:+ cid].

Definition collect_garbage : prog helper unit :=
  r ← attempt (invoke GC [] (fun _ => [Collected]));
  match r with
  | Err e => progress "update_ref succeeded; local temporary GC failed: %v"
               "update_ref 成功；本地临时 GC 失败：%v" [GStr (Error e)]
  | Ok _ => progress "update_ref succeeded; local unpinned temporary blocks GC completed"
              "update_ref 成功；本地未 Pin 的临时区块 GC 已完成" []
  end.

(** [localSha[:8]]: git prints full object names, of at least 40 characters. *)
Definition short_sha (sha : string) : string := String.substring 0 8 sha.

(** What the update will say: the URIs and the commit that the ref must be at. *)
Definition prepare_update (spec : pushSpec) (localSha : string)
  : prog helper (list string * string) :=
  matches ← invoke_pure (ScanSecrets localSha);
  for_each (fun m => progress "warning: possible credential in %s" "警告：%s 中可能包含凭据"
                       [GStr m]) matches;;
  refs ← gets h_remoteRefs;
  let prev := refs !! ps_dst spec in
  let expectedSha := match prev with Some r => ri_CommitSha r | None => ""%string end in
  progress "packing objects for %s" "正在为 %s 打包对象" [GStr (ps_dst spec)];;
  pack ← pack_objects localSha (exclusions spec refs);
  '(pack, cids) ← cover_empty spec localSha pack prev;
  cids ← (match cids with [] => replicate_pack spec pack | _ => mret cids end);
  mret (cids, expectedSha).

Definition push_commit (spec : pushSpec) (localSha : string) : prog helper unit :=
  '(cids, expectedSha) ← prepare_update spec localSha;
  progress "broadcasting update_ref tx for %s -> %s" "正在广播 update_ref 交易：%s -> %s"
    [GStr (ps_dst spec); GStr (short_sha localSha)];;
  invoke (UpdateRef (Owner (w_url w)) (Repo (w_url w)) (ps_dst spec) localSha cids expectedSha
            (ps_force spec))
    [SentUpdate (ps_dst spec) localSha cids expectedSha (ps_force spec)]
    (fun _ => [Updated (ps_dst spec)]);;
  collect_garbage.

Definition pushOne (spec : pushSpec) : prog helper unit :=
  if decide (ps_src spec = ""%string) then
    progress "deleting %s on chain" "正在从链上删除 %s" [GStr (ps_dst spec)];;
    invoke (DeleteRef (Owner (w_url w)) (Repo (w_url w)) (ps_dst spec))
      [SentDelete (ps_dst spec)] (fun _ => [Deleted (ps_dst spec)])
  else
    localSha ← invoke_pure (git_ResolveRef (ps_src spec));
    if decide (localSha = ""%string) then
      fail (i18n_Errorf "cannot resolve local ref %s" "无法解析本地 ref %s" [GStr (ps_src spec)])
    else push_commit spec localSha.

(** The line that reports on one ref. *)
Definition report (spec : pushSpec) (r : result unit) : string :=
  match r with
  | Ok _ => "ok " +:+ ps_dst spec
  | Err e => "error " +:+ ps_dst spec +:+ " " +:+ sanitizeErr e
  end.

Definition reject_all (specs : list pushSpec) (e : goerror) : prog helper unit :=
  for_each (fun spec => print_line (report spec (Err e))) specs;;
  print_line "".

(** The checks before a batch is pushed. *)
Definition admit_push (specs : list pushSpec) : prog helper unit :=
  resolved ← resolveRepo;
  of_result (movedError resolved);;
  match w_preflight w with
  | None => mret tt
  | Some preflight =>
      invoke (preflight (existsb (fun spec => negb (bool_decide (ps_src spec = ""%string))) specs))
        [] (fun _ => [])
  end.

Definition push_and_report (spec : pushSpec) : prog helper unit :=
  r ← attempt (pushOne spec);
  print_line (report spec r).

Definition cmdPushBatch (first : string) : prog helper unit :=
  lines ← batch "push " first;
  let specs := map parsePushSpec lines in
  admitted ← attempt (admit_push specs);
  match admitted with
  | Err e => reject_all specs e
  | Ok _ => for_each push_and_report specs;; print_line ""
  end.

(** *** The conversation *)

(** One command, and whether to go on. *)
Definition command (line : string) : prog helper bool :=
  if decide (line = "capabilities"%string) then
    print_line "fetch";; print_line "push";; print_line "option";; print_line "";; mret true
  else if HasPrefix line "option " then print_line "ok";; mret true
  else if decide (line = "list"%string) then cmdList false;; mret true
  else if decide (line = "list for-push"%string) then cmdList true;; mret true
  else if HasPrefix line "fetch " then cmdFetchBatch line;; mret true
  else if HasPrefix line "push " then cmdPushBatch line;; mret true
  else if decide (line = ""%string) then mret false
  else fail (i18n_Errorf "unsupported remote-helper command: %q" "不支持的 remote-helper 命令：%q"
               [GStr line]).

Definition input_error : prog helper unit :=
  sc ← gets h_in;
  match scanner_Err sc with Some e => fail e | None => mret tt end.

Fixpoint run_loop (fuel : nat) : prog helper unit :=
  match fuel with
  | O => fail (Errorf "out of fuel" [])
  | S fuel' =>
      line ← scan;
      match line with
      | None => input_error
      | Some line =>
          continue ← command (TrimRight line newline_char);
          if (continue : bool) then run_loop fuel' else mret tt
      end
  end.

(** Every iteration consumes a byte of the input. *)
Definition Run : prog helper unit :=
  sc ← gets h_in;
  run_loop (S (String.length (sc_rest sc))).

End Helper.
