(* ===== verification/RemoteSpec.v ===== *)
(** * RemoteSpec: lemmas on the remote helper

    Which steps touch what: [passive] steps leave the cached refs alone and add
    no listing and no update to the call log. *)
From Stdlib Require Import ZArith Lia Ascii String.
From stdpp Require Import base list gmap strings option.
From S2P Require Import Prelude GoText Prog GoIo I18n Encodings Replicationd ChainTypes Remote.

Local Open Scope Z_scope.

(** ** Steps *)

Section Steps.
Context {EN : Environment} {MO : MapOrder} {W : Type}.
Context {RR : RepoRegistry W} {IC : IpfsClient W} {GR : GitRepo W} {AU : Authorizer W}
        {CK : Clock W}.
Variable w : wiring (W := W).

Abbreviation helper := (helper (W := W)).

(** Calls that neither list the refs nor change one. *)
Definition quiet (c : call) : bool :=
  match c with Listed _ | SentUpdate _ _ _ _ _ => false | _ => true end.

(** A property of the helper that logging, caching the resolved repository and
    the [allowed] calls preserve, whatever the outside world answers. *)
Record passive (allowed : call -> bool) (P : helper -> Prop) : Prop := {
  pa_log t h : P h -> P (log_line t h);
  pa_resolved r h : P h -> P (set_resolved r h);
  pa_invoke A (f : W -> W * result A) before after h :
    Forall (fun c => allowed c = true) before ->
    (forall a, Forall (fun c => allowed c = true) (after a)) ->
    P h -> P (invoke f before after h).1;
}.

Section Passive.
Context (allowed : call -> bool) (Hallowed : forall c, quiet c = true -> allowed c = true).
Context (P : helper -> Prop) (HP : passive allowed P).

Lemma keeps_progress a b args : keeps P (progress a b args).
Proof. intros h Hh. by apply HP. Qed.

Lemma keeps_set_resolved r : keeps P (modify (set_resolved r)).
Proof. intros h Hh. by apply HP. Qed.

Lemma keeps_invoke {A} (f : W -> W * result A) before after :
  Forall (fun c => allowed c = true) before ->
  (forall a, Forall (fun c => allowed c = true) (after a)) ->
  keeps P (invoke f before after).
Proof. intros Hb Ha h Hh. by apply HP. Qed.

Lemma keeps_invoke_pure {A} (f : W -> W * A) : keeps P (invoke_pure f).
Proof. apply keeps_invoke; [constructor|intros; constructor]. Qed.

#[local] Hint Resolve keeps_progress keeps_set_resolved keeps_invoke_pure : keeps.
#[local] Hint Extern 1 (keeps _ (invoke _ _ _)) =>
  apply keeps_invoke; intros; repeat constructor; apply Hallowed; reflexivity : keeps.

Lemma keeps_resolveRepo : keeps P (resolveRepo w).
Proof. unfold resolveRepo. keeps_cases. Qed.

Lemma keeps_replicate_pack spec pack : keeps P (replicate_pack w spec pack).
Proof. unfold replicate_pack, connect_peers, connect_optional. keeps_cases. Qed.

Lemma keeps_cover_empty spec sha pack prev : keeps P (cover_empty spec sha pack prev).
Proof. unfold cover_empty, pack_objects. keeps_cases. Qed.

Lemma keeps_prepare_update spec sha : keeps P (prepare_update w spec sha).
Proof.
  unfold prepare_update, pack_objects.
  pose proof keeps_replicate_pack. pose proof keeps_cover_empty. keeps_cases.
Qed.

Lemma keeps_collect_garbage : keeps P collect_garbage.
Proof. unfold collect_garbage. keeps_cases. Qed.

Lemma keeps_admit_push specs : keeps P (admit_push w specs).
Proof. unfold admit_push. pose proof keeps_resolveRepo. keeps_cases. Qed.

Lemma keeps_collect_uris wanted uris : keeps P (collect_uris w wanted uris).
Proof.
  revert uris. induction wanted as [|l wanted IH]; intros uris; cbn [collect_uris]; [keeps_cases|].
  destruct (Fields l) as [|? [|? [|? []]]]; try apply keeps_fail.
  apply keeps_bind; [|by intros]. unfold wanted_uris. keeps_cases.
Qed.

Lemma keeps_ingest total i uri : keeps P (ingest total i uri).
Proof. unfold ingest, fetchPack. keeps_cases. Qed.

End Passive.

(** *** Whole commands *)

Section Commands.
Context (P : helper -> Prop) (HP : passive (fun _ => true) P).

#[local] Hint Extern 1 (keeps _ (progress _ _ _)) => eapply keeps_progress, HP : keeps.
#[local] Hint Extern 1 (keeps _ (invoke_pure _)) => eapply keeps_invoke_pure, HP : keeps.
#[local] Hint Extern 1 (keeps _ (invoke _ _ _)) =>
  eapply keeps_invoke; [apply HP|intros; apply Forall_true; done..] : keeps.

(** A lemma of the previous section with all calls allowed. *)
Ltac from_passive lem := eapply lem with (allowed := fun _ => true); (apply HP || done).
#[local] Hint Extern 1 (keeps _ (resolveRepo _)) => from_passive keeps_resolveRepo : keeps.
#[local] Hint Extern 1 (keeps _ (prepare_update _ _ _)) => from_passive keeps_prepare_update : keeps.
#[local] Hint Extern 1 (keeps _ collect_garbage) => from_passive keeps_collect_garbage : keeps.
#[local] Hint Extern 1 (keeps _ (admit_push _ _)) => from_passive keeps_admit_push : keeps.
#[local] Hint Extern 1 (keeps _ (collect_uris _ _ _)) => from_passive keeps_collect_uris : keeps.
#[local] Hint Extern 1 (keeps _ (ingest _ _ _)) => from_passive keeps_ingest : keeps.

Lemma keeps_push_commit spec sha : keeps P (push_commit w spec sha).
Proof.
  unfold push_commit.
  keeps_cases.
Qed.

Lemma keeps_pushOne spec : keeps P (pushOne w spec).
Proof. unfold pushOne. pose proof keeps_push_commit. keeps_cases. Qed.

Hypothesis Hwrite : forall t h, P h -> P (write t h).
Hypothesis Hrefs : forall refs h, P h -> P (set_refs refs h).
Hypothesis Hscan : keeps P scan.

#[local] Hint Extern 1 (keeps _ (print_line _)) => intros ? ?; by apply Hwrite : keeps.
#[local] Hint Extern 1 (keeps _ (modify (set_refs _))) => intros ? ?; by apply Hrefs : keeps.
#[local] Hint Resolve Hscan : keeps.

Lemma keeps_batch c first : keeps P (batch c first).
Proof.
  unfold batch. apply keeps_bind; [apply keeps_gets|]. intros sc. apply keeps_bind; [|keeps_cases].
  generalize (S (String.length (sc_rest sc))) as n. intros n. induction n; cbn [read_batch]; keeps_cases.
Qed.

Lemma keeps_cmdList forPush : keeps P (cmdList w forPush).
Proof.
  unfold cmdList. keeps_cases.
Qed.

Lemma keeps_command line : keeps P (command w line).
Proof.
  unfold command, cmdFetchBatch, cmdPushBatch, push_and_report, reject_all.
  pose proof keeps_batch. pose proof keeps_pushOne. pose proof keeps_cmdList.
  keeps_cases.
Qed.
End Commands.
End Steps.
