(* ===== verification/RefTable.v ===== *)
(** * The refs of a repository on the chain

    The ref table of [contracts/evm-v2/src/modules/RepositoryCore.sol] for one
    repository: [updateRef], [deleteRef], [getRef] and [listRefsPage].  That the
    suite is active, the repository exists, the caller may maintain it and the
    moderation policy agrees is one argument of the two that change refs, as
    they check it before anything else; the two that read get the table of the
    repository, or none when there is no such repository.  The contract
    keys refs and compares strings by their Keccak-256 hash; the model uses the
    strings, that is, it takes the hash to be free of collisions. *)
From Stdlib Require Import ZArith Lia Ascii String.
From stdpp Require Import base list gmap strings option.
From S2P Require Import Prelude GoText.

Local Open Scope Z_scope.

Record GitRef := mk_GitRef {
  commitSha : string;
  packUris : list string;
  updatedAt : Z;
  updatedBy : string;
}.

(** [_refNames] and [_refs]; a ref exists when it has an entry. *)
Record ref_table := mk_ref_table {
  refNames : list string;
  refs : gmap string GitRef;
}.

Definition no_refs : ref_table := mk_ref_table [] empty.

Definition MAX_REF_NAME_LENGTH : Z := 256.
Definition MAX_PACK_URIS : Z := 128.
Definition MAX_PACK_URI_LENGTH : Z := 512.
Definition MAX_REFS_PER_REPO : Z := 1024.

Definition revert {A} (name : string) : result A := Err (Errorf name []).

(** [_validateRefName]: the characters after the prefix, and the one before each. *)
Fixpoint ref_name_chars (prev : ascii) (s : string) : bool :=
  match s with
  | EmptyString => true
  | String c s' =>
      negb ((code c <? 0x21) || (0x7e <? code c) || is_char "~" c || is_char "^" c ||
            is_char ":" c || is_char "\" c) &&
      negb (is_char "." c && is_char "." prev) && ref_name_chars c s'
  end.
Definition valid_ref_name (name : string) : bool :=
  negb ((slen name <? 5) || (MAX_REF_NAME_LENGTH <? slen name)) &&
  match cut_prefix "refs/" name with Some rest => ref_name_chars "/" rest | None => false end.

Definition hex_char (c : ascii) : bool := is_digit c || between 97 102 c || between 65 70 c.
Definition valid_commit_sha (sha : string) : bool :=
  ((slen sha =? 40) || (slen sha =? 64)) && all_chars hex_char sha.

Definition valid_pack_uri (uri : string) : bool :=
  negb ((slen uri <=? 7) || (MAX_PACK_URI_LENGTH <? slen uri)) && HasPrefix uri "ipfs://".

(** The loop that appends the URIs which the ref does not have. *)
Definition append_uri (uris : list string) (uri : string) : result (list string) :=
  if decide (uri ∈ uris) then Ok uris
  else
    fail_if MAX_PACK_URIS <=? llen uris as Errorf "TooManyPackUris" [] ;;
    Ok (uris ++ [uri]).

(** [block.timestamp] and [msg.sender] *)
Record tx_env := mk_tx_env { tx_now : Z; tx_sender : string }.

Definition updateRef (authority : result unit) (env : tx_env) (t : ref_table)
    (refName commitSha' : string) (packUris' : list string) (expectedSha : string) (force : bool)
  : result ref_table :=
  check? authority ;;
  fail_if negb (valid_ref_name refName) as Errorf "InvalidRefName" [] ;;
  fail_if negb (valid_commit_sha commitSha') as Errorf "InvalidCommitSha" [] ;;
  fail_if (llen packUris' =? 0) || (MAX_PACK_URIS <? llen packUris')
    as Errorf "TooManyPackUris" [] ;;
  fail_if negb (forallb valid_pack_uri packUris') as Errorf "InvalidPackUri" [] ;;
  let target := refs t !! refName in
  fail_if negb force && match target with
                        | Some r => negb (bool_decide (commitSha r = expectedSha))
                        | None => false
                        end as Errorf "ShaMismatch" [] ;;
  let? names := match target with
                | Some _ => Ok (refNames t)
                | None =>
                    fail_if MAX_REFS_PER_REPO <=? llen (refNames t) as Errorf "TooManyRefs" [] ;;
                    Ok (refNames t ++ [refName])
                end in
  let present := match target with Some r => packUris r | None => [] end in
  let? uris := (if force || (llen present =? 0) then Ok packUris'
                else foldM append_uri packUris' present) in
  Ok (mk_ref_table names
        (<[refName := mk_GitRef commitSha' uris (tx_now env) (tx_sender env)]> (refs t))).

(** The name is replaced by the last one, which is dropped. *)
Fixpoint swap_pop (name : string) (names : list string) (last_name : string) : list string :=
  match names with
  | [] => []
  | n :: names' =>
      if decide (n = name) then
        match names' with [] => [] | _ => last_name :: removelast names' end
      else n :: swap_pop name names' last_name
  end.

Definition deleteRef (authority : result unit) (t : ref_table) (refName : string)
  : result ref_table :=
  check? authority ;;
  match refs t !! refName with
  | None => revert "RefNotFound"
  | Some _ =>
      Ok (mk_ref_table (swap_pop refName (refNames t) (List.last (refNames t) ""%string))
            (delete refName (refs t)))
  end.

(** [_requireRepository] *)
Definition requireRepository (repository : option ref_table) : result ref_table :=
  match repository with Some t => Ok t | None => revert "RepositoryNotFound" end.

Definition getRef (repository : option ref_table) (refName : string) : result GitRef :=
  let? t := requireRepository repository in
  match refs t !! refName with Some r => Ok r | None => revert "RefNotFound" end.

Definition MAX_QUERY_PAGE_SIZE : Z := 64.

(** A page of names and refs, and the next cursor. *)
Definition listRefsPage (repository : option ref_table) (cursor limit : Z)
  : result (list (string * GitRef) * Z) :=
  let? t := requireRepository repository in
  fail_if (limit =? 0) || (MAX_QUERY_PAGE_SIZE <? limit) as Errorf "InvalidPageSize" [] ;;
  fail_if llen (refNames t) <? cursor as Errorf "InvalidCursor" [] ;;
  let end_ := Z.min (cursor + limit) (llen (refNames t)) in
  let names := take (Z.to_nat (end_ - cursor)) (drop (Z.to_nat cursor) (refNames t)) in
  Ok (map (fun n => (n, default (mk_GitRef "" [] 0 "") (refs t !! n))) names, end_).
