(* ===== verification/GitWorld.v ===== *)
(** * GitWorld: a world for the remote helper

    The outside of the helper put together: the ref table of the contract, an
    IPFS store addressed by content, a local git repository and a replication
    service that confirms what the store holds.  Git itself is the class
    [GitModel]: what a commit reaches, how a pack encodes a set of objects and
    which objects outside of the pack its deltas need, with the documented
    behaviour of [git pack-objects --thin] and [git index-pack --fix-thin] as
    [GitModelLaws].  Every remote operation may fail before or after it has
    taken effect, as [wd_faults] says. *)
From Stdlib Require Import ZArith Lia Ascii String.
From stdpp Require Import base list gmap strings option.
From S2P Require Import Prelude GoText Prog GoIo I18n Replicationd ChainTypes Remote RefTable.

Local Open Scope Z_scope.

(** What a pack holds: its objects, and the objects outside of it against which
    some of them are stored as deltas. *)
Record contents := mk_contents { pk_objects : gset string; pk_bases : gset string }.

(** Objects are their names; a commit reaches itself and all it refers to.
    [delta_bases objects candidates] are the bases that git chooses when it
    packs [objects] and the receiver is taken to have [candidates]. *)
Class GitModel := {
  universe : gset string;
  reach : string -> gset string;
  delta_bases : gset string -> gset string -> gset string;
  pack_of : contents -> string;
  parse_pack : string -> option contents;
  cid_of : string -> string;
}.

Class GitModelLaws {GM : GitModel} : Prop := {
  reach_universe c : reach c ⊆ universe;
  reach_self c : c ∈ universe -> c ∈ reach c;
  delta_bases_candidates objects candidates : delta_bases objects candidates ⊆ candidates;
  parse_pack_of c :
    pk_objects c ⊆ universe -> pk_bases c ⊆ universe -> parse_pack (pack_of c) = Some c;
  packEmpty_pack c :
    pk_objects c ⊆ universe -> packEmpty (pack_of c) = bool_decide (pk_objects c = empty);
  cid_of_inj : Inj (=) (=) cid_of;
}.

(** How a remote operation goes wrong. *)
Inductive fault : Type := Fine | FailsBefore | FailsAfter.

Record world := mk_world {
  wd_table : ref_table;
  wd_store : gmap string string;
  wd_objects : gset string;
  wd_branches : gmap string string;
  wd_now : Z;
  wd_faults : list fault;
}.

Definition set_table (t : ref_table) (x : world) : world :=
  mk_world t (wd_store x) (wd_objects x) (wd_branches x) (wd_now x) (wd_faults x).
Definition set_store (s : gmap string string) (x : world) : world :=
  mk_world (wd_table x) s (wd_objects x) (wd_branches x) (wd_now x) (wd_faults x).
Definition set_objects (o : gset string) (x : world) : world :=
  mk_world (wd_table x) (wd_store x) o (wd_branches x) (wd_now x) (wd_faults x).
Definition set_faults (f : list fault) (x : world) : world :=
  mk_world (wd_table x) (wd_store x) (wd_objects x) (wd_branches x) (wd_now x) f.

Definition unavailable : goerror := Errorf "service unavailable" [].

Definition faulty {A} (op : world -> world * result A) : world -> world * result A := fun x =>
  match wd_faults x with
  | [] => op x
  | Fine :: fs => op (set_faults fs x)
  | FailsBefore :: fs => (set_faults fs x, Err unavailable)
  | FailsAfter :: fs => let '(x', _) := op (set_faults fs x) in (x', Err unavailable)
  end.

(** A repository as its owner sees it. *)
Definition resolved_repo (owner name : string) : ResolvedRepo :=
  mk_ResolvedRepo [] "evm" (mk_RepoLocator owner name) (mk_RepoLocator owner name) true
    (mk_RepoInfo owner name "" "main" 0 0 "active").

Definition ref_info (name : string) (r : GitRef) : RefInfo :=
  mk_RefInfo name (commitSha r) (packUris r) (updatedAt r) (updatedBy r).

Definition list_refs (t : ref_table) : list RefInfo :=
  map (fun n => ref_info n (default (mk_GitRef "" [] 0 "") (refs t !! n))) (refNames t).

#[export] Instance world_registry : RepoRegistry world := {
  ResolveRepo owner name := faulty (fun x => (x, Ok (resolved_repo owner name)));
  ListRefs _ _ := faulty (fun x => (x, Ok (list_refs (wd_table x))));
  ResolveRef _ _ ref := faulty (fun x => (x,
    let? r := getRef (Some (wd_table x)) ref in Ok (commitSha r, packUris r)));
  UpdateRef owner _ ref sha uris expected force := faulty (fun x =>
    match updateRef (Ok tt) (mk_tx_env (unix (wd_now x)) owner) (wd_table x) ref sha uris expected
            force with
    | Ok t => (set_table t x, Ok tt)
    | Err e => (x, Err e)
    end);
  DeleteRef _ _ ref := faulty (fun x =>
    match deleteRef (Ok tt) (wd_table x) ref with
    | Ok t => (set_table t x, Ok tt)
    | Err e => (x, Err e)
    end);
}.

Section World.
Context {GM : GitModel}.

#[export] Instance world_ipfs : IpfsClient world := {
  AddTemporary _ pack := faulty (fun x =>
    (set_store (<[cid_of pack := pack]> (wd_store x)) x, Ok (cid_of pack)));
  GetFromGateways cid := faulty (fun x => (x,
    match wd_store x !! cid with
    | Some pack => Ok (mk_response 200 pack false)
    | None => errf "gateway GET /ipfs/%s failed" [GStr cid]
    end));
  SwarmConnect _ := faulty (fun x => (x, Ok tt));
  GC := faulty (fun x => (x, Ok tt));
}.

(** The lines [^sha] of the input of [git pack-objects --revs]: [HasObject]
    holds.  What these commits reach is left out of the pack. *)
Definition excluded_objects (exclude : list string) (have : gset string) : gset string :=
  ⋃ map (fun c => if decide (c ∈ have) then reach c else empty) exclude.

Definition packed_objects (want : string) (exclude : list string) (have : gset string)
  : gset string := reach want ∖ excluded_objects exclude have.

(** [--thin]: an object may be stored as a delta against an object that is left
    out and that the repository has. *)
Definition thin_pack (want : string) (exclude : list string) (have : gset string) : contents :=
  let objects := packed_objects want exclude have in
  mk_contents objects (delta_bases objects (excluded_objects exclude have ∩ have)).

Definition unpack (pack : string) : gset string :=
  match parse_pack pack with Some c => pk_objects c | None => empty end.

(** [index-pack --fix-thin] completes the pack with the bases from the local
    repository and fails when one of them is not there. *)
Definition index_pack (pack : string) (have : gset string) : result (gset string) :=
  match parse_pack pack with
  | None => errf "git index-pack: not a pack" []
  | Some c =>
      if decide (pk_bases c ⊆ have) then Ok (have ∪ pk_objects c)
      else errf "git index-pack: pack has unresolved deltas" []
  end.

#[export] Instance world_git : GitRepo world := {
  git_ResolveRef ref x := (x, default ""%string (wd_branches x !! ref));
  PackObjects want exclude x := (x,
    if decide (want ∈ wd_objects x /\ packed_objects want exclude (wd_objects x) ⊆ wd_objects x)
    then Ok (pack_of (thin_pack want exclude (wd_objects x)))
    else errf "git pack-objects: bad object %s" [GStr want]);
  IndexPack body x :=
    if re_broken body then (x, errf "git index-pack: early EOF" [])
    else match index_pack (re_body body) (wd_objects x) with
         | Ok objects => (set_objects objects x, Ok tt)
         | Err e => (x, Err e)
         end;
  ScanSecrets _ x := (x, []);
}.

#[export] Instance world_authorizer : Authorizer world := {
  ticket_client := unit;
  au_Authorize _ := faulty (fun x => (x, Ok tt));
  au_Confirm _ req := faulty (fun x => (x,
    match wd_store x !! rr_CID req with
    | Some _ => Ok tt
    | None => errf "US replication did not confirm pin for %s" [GStr (rr_CID req)]
    end));
}.

#[export] Instance world_clock : Clock world := { Now x := (x, wd_now x) }.

(** ** What a clone obtains *)

(** The pack that an URI names. *)
Definition uri_pack (store : gmap string string) (uri : string) : option string :=
  match cut_prefix "ipfs://" uri with Some cid => store !! cid | None => None end.
Definition uri_contents (store : gmap string string) (uri : string) : option contents :=
  pack ← uri_pack store uri; parse_pack pack.

(** The objects in the packs that URIs name. *)
Definition uri_objects (store : gmap string string) (uri : string) : gset string :=
  match uri_contents store uri with Some c => pk_objects c | None => empty end.
Definition uris_objects (store : gmap string string) (uris : list string) : gset string :=
  ⋃ map (uri_objects store) uris.

(** The objects in the packs of all refs. *)
Definition table_objects (store : gmap string string) (t : ref_table) : gset string :=
  ⋃ map (fun p => uris_objects store (packUris p.2)) (map_to_list (refs t)).

(** The packs of all refs have every object that a ref reaches. *)
Definition clone_complete (x : world) : Prop :=
  forall ref r, refs (wd_table x) !! ref = Some r ->
    reach (commitSha r) ⊆ table_objects (wd_store x) (wd_table x).

(** The URIs name stored packs, and whoever has the objects [have] and indexes
    the packs in this order always has the bases of the next one. *)
Fixpoint in_order (store : gmap string string) (have : gset string) (uris : list string) : Prop :=
  match uris with
  | [] => True
  | uri :: uris' =>
      match uri_contents store uri with
      | Some c => pk_bases c ⊆ have /\ in_order store (have ∪ pk_objects c) uris'
      | None => False
      end
  end.

(** The URIs of all refs, in the order in which the refs are listed. *)
Definition ref_uris (t : ref_table) (ref : string) : list string :=
  match refs t !! ref with Some r => packUris r | None => [] end.
Definition listed_uris (t : ref_table) : list string := concat (map (ref_uris t) (refNames t)).

(** An empty repository can index all packs in the listed order. *)
Definition clone_ordered (x : world) : Prop :=
  in_order (wd_store x) empty (listed_uris (wd_table x)).

(** The names are those of the refs, each once. *)
Definition names_ok (t : ref_table) : Prop :=
  NoDup (refNames t) /\ forall n, n ∈ refNames t <-> is_Some (refs t !! n).

(** An update of this ref adds its URIs behind all that are listed. *)
Definition listed_last (t : ref_table) (ref : string) : Prop :=
  refs t !! ref = None \/ list.last (refNames t) = Some ref.

(** The store holds packs under their own address. *)
Definition store_ok (x : world) : Prop :=
  forall cid pack, wd_store x !! cid = Some pack -> cid = cid_of pack.

End World.
