(* ===== verification/CloneProps.v ===== *)
(** * CloneProps: pushing and cloning in one world

    In the world of [GitWorld]: an ordinary push keeps every reachable object
    in some listed pack; a push of the ref that is listed last also keeps the
    order in which thin packs can be indexed; and a fetch of all refs obtains
    their history from packs in such an order. *)
From Stdlib Require Import ZArith Lia Ascii String.
From stdpp Require Import base list gmap strings option.
From S2P Require Import Prelude GoText Prog GoIo I18n Replicationd ChainTypes Remote RemoteSpec RefTable GitWorld.

Local Open Scope Z_scope.

Section Clone.
Context {EN : Environment} {MO : MapOrder} {GM : GitModel} {GL : GitModelLaws}.
Variable w : wiring (W := world).

Abbreviation helper := (helper (W := world)).

(** ** The table *)

Lemma append_uri_incl uris uri uris' :
  append_uri uris uri = Ok uris' -> forall u, u ∈ uris \/ u = uri -> u ∈ uris'.
Proof.
  unfold append_uri. case_decide.
  - intros [= <-] u [Hu| ->]; done.
  - intros [_ [= <-]]%guard_ok u [Hu| ->]; rewrite elem_of_app; [by left|right; constructor].
Qed.

Lemma append_uris_incl more uris uris' :
  foldM append_uri more uris = Ok uris' -> forall u, u ∈ uris \/ u ∈ more -> u ∈ uris'.
Proof.
  revert uris. induction more as [|x more IH]; intros uris H u Hu; cbn [foldM] in H.
  - injection H as <-. destruct Hu as [?|Hu]; [done|by inversion Hu].
  - apply bind_ok in H as (uris1 & H1 & H). eapply IH; [done|].
    pose proof (append_uri_incl _ _ _ H1 u) as Hx. rewrite elem_of_cons in Hu. naive_solver.
Qed.

(** What is added comes behind what is there. *)
Lemma append_uris_behind more uris uris' :
  foldM append_uri more uris = Ok uris' -> exists added, uris' = uris ++ added /\ added ⊆ more.
Proof.
  revert uris. induction more as [|x more IH]; intros uris H; cbn [foldM] in H.
  - injection H as <-. exists []. by rewrite app_nil_r.
  - apply bind_ok in H as (uris1 & H1 & H). apply IH in H as (added & -> & Hadded).
    unfold append_uri in H1. case_decide.
    + injection H1 as <-. exists added. split; [done|set_solver].
    + apply guard_ok in H1 as [_ [= <-]]. exists (x :: added). rewrite <- app_assoc.
      split; [done|set_solver].
Qed.

(** An update that is not forced keeps the URIs of the ref and adds its own. *)
Lemma updateRef_spec auth env t ref sha uris e t' :
  updateRef auth env t ref sha uris e false = Ok t' ->
  exists g added, refs t' = <[ref := g]> (refs t) /\ commitSha g = sha /\
    (forall u, u ∈ uris -> u ∈ packUris g) /\
    packUris g = ref_uris t ref ++ added /\ added ⊆ uris /\
    refNames t' = refNames t ++ (match refs t !! ref with Some _ => [] | None => [ref] end).
Proof.
  unfold updateRef. destruct auth as [[]|]; [|done]. intros H.
  do 5 (apply guard_ok in H as [_ H]). apply bind_ok in H as (names & Hnames & H).
  apply bind_ok in H as (new & Hnew & H). injection H as <-. cbn [refs refNames].
  assert (names = refNames t ++ (match refs t !! ref with Some _ => [] | None => [ref] end)) as ->.
  { destruct (refs t !! ref); [injection Hnames as <-; by rewrite app_nil_r|].
    by apply guard_ok in Hnames as [_ [= <-]]. }
  fold (ref_uris t ref) in Hnew. cbn [orb] in Hnew.
  assert (exists added, (forall u, u ∈ uris -> u ∈ new) /\ new = ref_uris t ref ++ added /\
            added ⊆ uris) as (added & Hin & Happ & Hsub).
  { destruct (llen (ref_uris t ref) =? 0) eqn:El.
    - injection Hnew as <-. exists uris. split_and!; [done| |done].
      apply Z.eqb_eq in El. unfold llen in El. by destruct (ref_uris t ref).
    - apply append_uris_behind in Hnew as Hb. destruct Hb as (added & -> & Hsub).
      exists added. split_and!; [|done|done]. intros u Hu. eapply append_uris_incl; [done|by right]. }
  exists (mk_GitRef sha new (tx_now env) (tx_sender env)), added. by split_and!.
Qed.

Lemma updateRef_keeps_names auth env t ref sha uris e t' :
  updateRef auth env t ref sha uris e false = Ok t' -> names_ok t -> names_ok t'.
Proof.
  intros (g & added & Hr & _ & _ & _ & _ & Hn)%updateRef_spec [Hnd Hdom].
  unfold names_ok. rewrite Hn, Hr. split.
  - destruct (refs t !! ref) eqn:E; [by rewrite app_nil_r|].
    apply list.NoDup_app. split_and!; [done| |apply list.NoDup_singleton].
    intros n Hin ->%list_elem_of_singleton. apply Hdom in Hin as [? ?]. congruence.
  - intros n. rewrite elem_of_app, Hdom, lookup_insert_is_Some'.
    destruct (refs t !! ref) eqn:E.
    + split; [intros [?|Hin]; [by right|by inversion Hin]|].
      intros [<-|?]; left; [by eexists|done].
    + rewrite list_elem_of_singleton. naive_solver.
Qed.

(** Whoever updates the last ref adds URIs at the end of the list. *)
Lemma updateRef_listed auth env t ref sha uris e t' :
  updateRef auth env t ref sha uris e false = Ok t' -> names_ok t -> listed_last t ref ->
  exists added, listed_uris t' = listed_uris t ++ added /\ added ⊆ uris.
Proof.
  intros (g & added & Hr & _ & _ & Hg & Hsub & Hn)%updateRef_spec [Hnd Hdom] Hlast.
  assert (forall names, ref ∉ names ->
            concat (map (ref_uris t') names) = concat (map (ref_uris t) names)) as Hothers.
  { intros names Hnot. f_equal. apply map_ext_in. intros n Hin%list_elem_of_In. unfold ref_uris.
    rewrite Hr, lookup_insert_ne; [done|]. by intros <-. }
  assert (ref_uris t' ref = packUris g) as Href by (unfold ref_uris; by rewrite Hr, lookup_insert_eq).
  exists added. split; [|done]. unfold listed_uris. rewrite Hn.
  destruct Hlast as [Hnew|Hlast].
  - rewrite Hnew, map_app, concat_app, Hothers; cbn [map concat].
    + rewrite Href, Hg, app_nil_r. f_equal. unfold ref_uris. by rewrite Hnew.
    + intros Hin. apply Hdom in Hin as [? ?]. congruence.
  - apply last_Some in Hlast as (names & Hnames). rewrite Hnames in Hnd |- *.
    apply list.NoDup_app in Hnd as (_ & Hnot & _).
    destruct (proj1 (Hdom ref)) as [g0 ->].
    { rewrite Hnames. apply elem_of_app. right. constructor. }
    rewrite app_nil_r, !map_app, !concat_app, Hothers; cbn [map concat].
    + by rewrite Href, Hg, !app_nil_r, app_assoc.
    + intros Hin. apply (Hnot ref Hin). constructor.
Qed.

(** ** Sets of objects *)

Lemma elem_of_uris_objects store uris o :
  o ∈ uris_objects store uris <-> exists u, u ∈ uris /\ o ∈ uri_objects store u.
Proof.
  unfold uris_objects. rewrite elem_of_union_list. split.
  - intros (s & Hs & Ho). apply list_elem_of_fmap in Hs as (u & -> & Hu). eauto.
  - intros (u & Hu & Ho). exists (uri_objects store u). split; [|done].
    apply list_elem_of_fmap. eauto.
Qed.

Lemma elem_of_table_objects store t o :
  o ∈ table_objects store t <->
  exists ref r u, refs t !! ref = Some r /\ u ∈ packUris r /\ o ∈ uri_objects store u.
Proof.
  unfold table_objects. rewrite elem_of_union_list. split.
  - intros (s & Hs & Ho). apply list_elem_of_fmap in Hs as ([ref r] & -> & Hin).
    apply elem_of_map_to_list in Hin. apply elem_of_uris_objects in Ho as (u & Hu & Ho). eauto 6.
  - intros (ref & r & u & Hr & Hu & Ho). exists (uris_objects store (packUris r)). split.
    + apply list_elem_of_fmap. exists (ref, r). split; [done|]. by apply elem_of_map_to_list.
    + apply elem_of_uris_objects. eauto.
Qed.

Lemma uri_contents_mono s1 s2 u c :
  s1 ⊆ s2 -> uri_contents s1 u = Some c -> uri_contents s2 u = Some c.
Proof.
  intros Hs. unfold uri_contents, uri_pack. destruct (cut_prefix _ _) as [cid|]; [|done].
  destruct (s1 !! cid) as [p|] eqn:E; [|done]. by rewrite (lookup_weaken _ _ _ _ E Hs).
Qed.

Lemma uri_objects_mono s1 s2 u : s1 ⊆ s2 -> uri_objects s1 u ⊆ uri_objects s2 u.
Proof.
  intros Hs. unfold uri_objects. destruct (uri_contents s1 u) as [c|] eqn:E; [|set_solver].
  by rewrite (uri_contents_mono _ _ _ _ Hs E).
Qed.

(** The packs of all refs are the listed ones. *)
Lemma table_objects_listed store t :
  names_ok t -> table_objects store t = uris_objects store (listed_uris t).
Proof.
  intros [_ Hdom]. apply set_eq. intros o. rewrite elem_of_table_objects, elem_of_uris_objects.
  unfold listed_uris. setoid_rewrite list_elem_of_In. setoid_rewrite in_concat.
  setoid_rewrite in_map_iff. setoid_rewrite <- list_elem_of_In. split.
  - intros (n & r & u & Hr & Hu & Ho). exists u. split; [|done]. exists (packUris r). split; [|done].
    exists n. split; [unfold ref_uris; by rewrite Hr|]. apply Hdom. by eexists.
  - intros (u & (us & (n & <- & Hn) & Hu) & Ho). apply Hdom in Hn as [r Hr].
    exists n, r, u. split_and!; [done| |done]. unfold ref_uris in Hu. by rewrite Hr in Hu.
Qed.

(** *** Packs in order *)

Lemma in_order_app store have us vs :
  in_order store have (us ++ vs) <->
  in_order store have us /\ in_order store (have ∪ uris_objects store us) vs.
Proof.
  revert have. induction us as [|u us IH]; intros have; cbn [app in_order].
  - unfold uris_objects. cbn. rewrite union_empty_r_L. tauto.
  - unfold uris_objects. cbn [map union_list foldr]. fold (uris_objects store us).
    unfold uri_objects at 1. destruct (uri_contents store u) as [c|]; [|tauto].
    rewrite IH, (union_assoc_L have). tauto.
Qed.

Lemma in_order_mono s1 s2 h1 h2 uris :
  s1 ⊆ s2 -> h1 ⊆ h2 -> in_order s1 h1 uris -> in_order s2 h2 uris.
Proof.
  intros Hs. revert h1 h2. induction uris as [|u uris IH]; intros h1 h2 Hh; cbn [in_order]; [done|].
  destruct (uri_contents s1 u) as [c|] eqn:E; [|done]. rewrite (uri_contents_mono _ _ _ _ Hs E).
  intros [Hb Ho]. split; [set_solver|]. eapply IH; [|done]. set_solver.
Qed.

(** An URI whose pack needs no other bases than these. *)
Definition based (store : gmap string string) (have : gset string) (uri : string) : Prop :=
  exists c, uri_contents store uri = Some c /\ pk_bases c ⊆ have.

Lemma based_mono s1 s2 h1 h2 u : s1 ⊆ s2 -> h1 ⊆ h2 -> based s1 h1 u -> based s2 h2 u.
Proof. intros Hs Hh (c & Hc & Hb). exists c. split; [by eapply uri_contents_mono|set_solver]. Qed.

Lemma in_order_based store have uris :
  in_order store have uris -> forall u, u ∈ uris -> based store (have ∪ uris_objects store uris) u.
Proof.
  intros Ho u Hu. apply list_elem_of_split in Hu as (us & vs & ->).
  apply in_order_app in Ho as [_ Ho]. cbn [in_order] in Ho.
  destruct (uri_contents store u) as [c|] eqn:E; [|done]. exists c. split; [done|].
  destruct Ho as [Hb _]. etransitivity; [done|]. intros o Hin.
  rewrite elem_of_union in *. destruct Hin as [?|Hin]; [by left|right].
  apply elem_of_uris_objects in Hin as (v & Hv & Ho). apply elem_of_uris_objects.
  exists v. split; [|done]. apply elem_of_app. by left.
Qed.

Lemma based_in_order store have uris :
  (forall u, u ∈ uris -> based store have u) -> in_order store have uris.
Proof.
  revert have. induction uris as [|u uris IH]; intros have Hb; cbn [in_order]; [done|].
  destruct (Hb u) as (c & -> & Hc); [constructor|]. split; [done|]. apply IH.
  intros v Hv. eapply based_mono; [reflexivity| |apply Hb; by constructor]. set_solver.
Qed.

(** A pack that is listed again need not be indexed again. *)
Lemma in_order_dedup store have us acc :
  in_order store have (acc ++ us) -> in_order store have (foldl add_uri acc us).
Proof.
  revert acc. induction us as [|u us IH]; intros acc Ho; cbn [foldl].
  - by rewrite app_nil_r in Ho.
  - apply IH. unfold add_uri. case_decide as Hu; [|by rewrite <- app_assoc].
    apply in_order_app in Ho as [Ha Ho]. apply in_order_app. split; [done|].
    cbn [in_order] in Ho. destruct (uri_contents store u) as [c|] eqn:E; [|done].
    destruct Ho as [_ Ho]. eapply in_order_mono; [reflexivity| |exact Ho].
    intros o [?|Hin]%elem_of_union; [done|]. apply elem_of_union_r, elem_of_uris_objects. exists u. split; [done|]. unfold uri_objects. by rewrite E.
Qed.

(** A completed update leaves a complete table. *)
Lemma update_complete store auth env t ref sha uris e t' :
  updateRef auth env t ref sha uris e false = Ok t' ->
  (forall n r, refs t !! n = Some r -> reach (commitSha r) ⊆ table_objects store t) ->
  reach sha ⊆ uris_objects store uris ∪ table_objects store t ->
  forall n r, refs t' !! n = Some r -> reach (commitSha r) ⊆ table_objects store t'.
Proof.
  intros Hu Hall Hsha. apply updateRef_spec in Hu as (g & added & Ht & Hg & Hnew & Hold & _).
  assert (table_objects store t ⊆ table_objects store t') as Hmono.
  { intros o (n & r & u & Hr & Hu & Ho)%elem_of_table_objects. apply elem_of_table_objects.
    rewrite Ht. destruct (decide (n = ref)) as [->|Hne].
    - exists ref, g, u. rewrite lookup_insert_eq. split_and!; [done| |done].
      rewrite Hold, elem_of_app. left. unfold ref_uris. by rewrite Hr.
    - exists n, r, u. by rewrite lookup_insert_ne by done. }
  intros n r. rewrite Ht. intros [[<- <-]|[_ Hr]]%lookup_insert_Some.
  - rewrite Hg. intros o Ho. specialize (Hsha o Ho). apply elem_of_union in Hsha as [Ho'|Ho'].
    + apply elem_of_uris_objects in Ho' as (u & Hu & Ho'). apply elem_of_table_objects.
      exists ref, g, u. rewrite Ht, lookup_insert_eq. eauto.
    + by apply Hmono.
  - etransitivity; [by eapply Hall|done].
Qed.

(** An update of the last ref leaves the packs in order. *)
Lemma update_ordered store auth env t ref sha uris e t' :
  updateRef auth env t ref sha uris e false = Ok t' -> names_ok t -> listed_last t ref ->
  (forall u, u ∈ uris -> u ∈ listed_uris t \/ based store (table_objects store t) u) ->
  in_order store empty (listed_uris t) -> in_order store empty (listed_uris t').
Proof.
  intros Hu Hok Hlast Huris Ho.
  destruct (updateRef_listed _ _ _ _ _ _ _ _ Hu Hok Hlast) as (added & -> & Hsub).
  apply in_order_app. split; [done|]. apply based_in_order. intros u Hin.
  destruct (Huris u (Hsub u Hin)) as [Hl|Hb].
  - by apply in_order_based.
  - rewrite union_empty_l_L, <- table_objects_listed; done.
Qed.

(** ** Steps of the world *)

(** What every call but the updates does: the store may grow. *)
Record grows (x y : world) : Prop := {
  gr_table : wd_table y = wd_table x;
  gr_objects : wd_objects y = wd_objects x;
  gr_branches : wd_branches y = wd_branches x;
  gr_store : wd_store x ⊆ wd_store y;
  gr_ok : store_ok y;
}.

Lemma grows_refl x : store_ok x -> grows x x.
Proof. by intros H; split. Qed.

Lemma grows_trans x y z : grows x y -> grows y z -> grows x z.
Proof. intros [] []. split; [congruence..| |done]. by etransitivity. Qed.

Definition mild {A} (op : world -> world * result A) : Prop :=
  forall x, store_ok x -> grows x (op x).1.

Lemma faulty_mild {A} (op : world -> world * result A) : mild op -> mild (faulty op).
Proof.
  intros Hop x Hx. unfold faulty.
  assert (forall fs, grows x (set_faults fs x)) as Hf by (intros fs; by split).
  destruct (wd_faults x) as [|[] fs]; [by apply Hop| |done|].
  - eapply grows_trans; [apply Hf|]. by apply Hop.
  - specialize (Hop (set_faults fs x) Hx). destruct (op (set_faults fs x)).
    by eapply grows_trans.
Qed.

Lemma pure_mild {A} (r : world -> result A) : mild (fun x => (x, r x)).
Proof. intros x Hx. by apply grows_refl. Qed.

Lemma AddTemporary_mild name pack : mild (AddTemporary name pack).
Proof.
  apply faulty_mild. intros x Hx. split; [done..| |].
  - cbn [fst set_store wd_store]. apply map_subseteq_spec. intros c p Hc.
    destruct (decide (c = cid_of pack)) as [->|Hne]; [|by rewrite lookup_insert_ne].
    apply Hx in Hc as Hc'. apply cid_of_inj in Hc' as ->. by rewrite lookup_insert_eq.
  - intros c p. cbn [fst set_store wd_store]. by intros [[<- <-]|[_ Hc]]%lookup_insert_Some; [|apply Hx].
Qed.

(** The helper's cache is [R] and the world has only grown since [x0]. *)
Definition since (R : gmap string RefInfo) (x0 : world) (h : helper) : Prop :=
  h_remoteRefs h = R /\ grows x0 (h_world h).

Lemma since_invoke {A} R x0 (op : world -> world * result A) b a :
  mild op -> keeps (since R x0) (invoke op b a).
Proof.
  intros Hop h [Hr Hg]. unfold invoke, since. specialize (Hop (h_world h) (gr_ok _ _ Hg)).
  destruct (op (h_world h)) as [y r]. cbn in *. split; [done|]. by eapply grows_trans.
Qed.

Lemma invoke_world {A} (op : world -> world * result A) b a h h' v :
  invoke op b a h = (h', Ok v) ->
  exists y, op (h_world h) = (y, Ok v) /\ h_world h' = y /\ h_remoteRefs h' = h_remoteRefs h.
Proof. unfold invoke. destruct (op (h_world h)) as [y r]. intros [= <- ->]. by exists y. Qed.

Lemma since_invoke_pure {A} R x0 (f : world -> world * A) :
  (forall x, (f x).1 = x) -> keeps (since R x0) (invoke_pure f).
Proof.
  intros Hf. apply since_invoke. intros x Hx. specialize (Hf x). destruct (f x). cbn in *. subst.
  by apply grows_refl.
Qed.

Lemma since_progress R x0 a b args : keeps (since R x0) (progress a b args).
Proof. by intros h Hh. Qed.

Lemma ok_mild {A} (a : A) : mild (faulty (fun x => (x, Ok a))).
Proof. apply faulty_mild, pure_mild. Qed.

Lemma Confirm_mild scoped req : mild (au_Confirm scoped req).
Proof. apply faulty_mild, pure_mild. Qed.

Lemma PackObjects_mild want exclude : mild (PackObjects want exclude).
Proof. apply pure_mild. Qed.

(** A program whose calls only let the world grow. *)
Ltac mild_steps := repeat first
  [ solve [eauto with keeps]
  | apply since_progress
  | apply since_invoke_pure; intros ?; reflexivity
  | apply since_invoke; first [apply ok_mild|apply Confirm_mild|apply PackObjects_mild|apply AddTemporary_mild]
  | match goal with |- keeps _ (match ?x with _ => _ end) => destruct x end
  | apply keeps_bind | apply keeps_attempt | apply keeps_wrap_error | apply keeps_for_each
  | progress cbv zeta | intro ].
Ltac grow := eapply ensures_skip; [solve [unfold connect_peers, connect_optional; mild_steps]|intros ?].

Lemma AddTemporary_stores name pack x y cid :
  AddTemporary name pack x = (y, Ok cid) -> wd_store y !! cid = Some pack.
Proof.
  unfold AddTemporary, world_ipfs, faulty. destruct (wd_faults x) as [|[] fs];
    intros [= <- <-]; apply lookup_insert_eq.
Qed.

Lemma replicate_pack_stores R x0 spec pack :
  ensures (since R x0) (replicate_pack w spec pack)
    (fun uris h => since R x0 h /\
       uri_contents (wd_store (h_world h)) ("ipfs://" +:+ cid_of pack) = parse_pack pack /\
       uris = ["ipfs://" +:+ cid_of pack]).
Proof.
  unfold replicate_pack. grow.
  eapply (ensures_bind _ (fun cid h => exists x1, grows x0 x1 /\ wd_store x1 !! cid = Some pack /\
    cid = cid_of pack /\ since R x1 h)).
  - intros h h' cid [Hr Hg] E. pose proof E as E'. apply invoke_world in E' as (y & Hy & <- & Hrefs).
    pose proof (AddTemporary_stores _ _ _ _ _ Hy) as Hs.
    pose proof (AddTemporary_mild (ps_dst spec +:+ ".pack") pack _ (gr_ok _ _ Hg)) as Hm.
    rewrite Hy in Hm. cbn [fst] in Hm. exists (h_world h'). split_and!; [by eapply grows_trans|done| |].
    + by apply (gr_ok _ _ Hm).
    + split; [by rewrite Hrefs|]. apply grows_refl, (gr_ok _ _ Hm).
  - intros cid h h' uris (x1 & Hg & Hs & Hcid & Hh) E.
    match type of E with ?rest h = _ =>
      assert (ensures (since R x1) rest (fun uris h => since R x1 h /\ uris = ["ipfs://" +:+ cid])) as Hrest
    end.
    { grow. grow. eapply ensures_skip; [destruct (w_replication w); eauto with keeps|intros _].
      eapply ensures_skip; [eauto with keeps|]. intros resolved.
      grow. cbv zeta. grow. grow. grow. grow. grow.
      apply ensures_ret. intros h0 H0. by split. }
    destruct (Hrest _ _ _ Hh E) as [[Hr' Hg'] ->]. subst cid.
    split_and!; [|unfold uri_contents, uri_pack|done].
    + split; [done|]. by eapply grows_trans.
    + rewrite (proj2 (cut_prefix_spec _ _ (cid_of pack)) eq_refl).
      by rewrite (lookup_weaken _ _ _ _ Hs (gr_store _ _ Hg')).
Qed.

Lemma table_objects_mono s1 s2 t : s1 ⊆ s2 -> table_objects s1 t ⊆ table_objects s2 t.
Proof.
  intros Hs o (n & r & u & Hr & Hu & Ho)%elem_of_table_objects. apply elem_of_table_objects.
  exists n, r, u. split_and!; [done|done|]. by eapply uri_objects_mono.
Qed.

Lemma grows_complete x y : grows x y -> clone_complete x -> clone_complete y.
Proof.
  intros [Ht _ _ Hs _] Hc n r. rewrite Ht. intros Hr. etransitivity; [by eapply Hc|].
  by apply table_objects_mono.
Qed.

(** The cache is the table. *)
Definition cached (R : gmap string RefInfo) (t : ref_table) : Prop :=
  forall n, R !! n = ref_info n <$> refs t !! n.

Section Covering.
Context (R : gmap string RefInfo) (x0 : world).
Hypothesis HR : cached R (wd_table x0).
Hypothesis Hcomplete : clone_complete x0.

Abbreviation listed_objects := (table_objects (wd_store x0) (wd_table x0)).

(** A pack that has, together with the listed packs, all of the commit, and whose
    bases are in the listed packs. *)
Definition covers (sha pack : string) : Prop :=
  exists c, parse_pack pack = Some c /\ pk_bases c ⊆ listed_objects /\
    reach sha ⊆ pk_objects c ∪ listed_objects.

Lemma elem_of_excluded exclude have o :
  o ∈ excluded_objects exclude have <-> exists c, c ∈ exclude /\ c ∈ have /\ o ∈ reach c.
Proof.
  unfold excluded_objects. rewrite elem_of_union_list. split.
  - intros (s & (c & -> & Hc)%list_elem_of_fmap & Ho). case_decide; [by exists c|].
    by apply not_elem_of_empty in Ho.
  - intros (c & Hc & Hh & Ho). eexists. split; [apply list_elem_of_fmap; by exists c|].
    by rewrite decide_True.
Qed.

Lemma excluded_listed spec have : excluded_objects (exclusions spec R) have ⊆ listed_objects.
Proof.
  intros o (c & Hc & _ & Ho)%elem_of_excluded.
  unfold exclusions in Hc. destruct (ps_force spec); [by inversion Hc|].
  apply list_elem_of_fmap in Hc as ([n r] & -> & Hin). rewrite map_order_perm in Hin.
  apply elem_of_map_to_list in Hin. rewrite HR in Hin. apply fmap_Some in Hin as (g & Hg & ->).
  by eapply Hcomplete.
Qed.

Lemma no_exclusions have : excluded_objects [] have ⊆ listed_objects.
Proof. intros o (c & Hc & _)%elem_of_excluded. by inversion Hc. Qed.

Lemma parse_thin_pack sha exclude have :
  parse_pack (pack_of (thin_pack sha exclude have)) = Some (thin_pack sha exclude have).
Proof.
  apply parse_pack_of; cbn [thin_pack pk_objects pk_bases].
  - unfold packed_objects. pose proof (reach_universe sha). set_solver.
  - rewrite delta_bases_candidates. intros o [Ho _]%elem_of_intersection.
    apply elem_of_excluded in Ho as (c & _ & _ & Ho). by eapply reach_universe.
Qed.

Lemma thin_pack_covers sha exclude have :
  excluded_objects exclude have ⊆ listed_objects ->
  covers sha (pack_of (thin_pack sha exclude have)).
Proof.
  intros Hex. eexists. split; [apply parse_thin_pack|]. cbn [thin_pack pk_objects pk_bases]. split.
  - rewrite delta_bases_candidates. set_solver.
  - intros o Ho. apply elem_of_union. unfold packed_objects.
    destruct (decide (o ∈ excluded_objects exclude have)); [right; by apply Hex|left; set_solver].
Qed.

Lemma pack_objects_covers sha exclude :
  (forall have, excluded_objects exclude have ⊆ listed_objects) ->
  ensures (since R x0) (pack_objects sha exclude) (fun pack h => since R x0 h /\ covers sha pack /\
    (packEmpty pack = true -> reach sha ⊆ listed_objects)).
Proof.
  intros Hex h h' pack Hh E.
  assert (since R x0 h') as Hh'.
  { pose proof (since_invoke R x0 (PackObjects sha exclude) [] (fun p => [Packed sha exclude p])
      (PackObjects_mild _ _) h Hh) as H. unfold pack_objects in E. by rewrite E in H. }
  apply invoke_world in E as (y & E & _ & _). cbn [PackObjects world_git] in E. injection E as _ E.
  case_decide; [|done]. injection E as <-.
  pose proof (thin_pack_covers sha exclude (wd_objects (h_world h)) (Hex _)) as Hc.
  split_and!; [done|done|]. intros He. destruct Hc as (c & Hp & _ & Hc).
  rewrite parse_thin_pack in Hp. injection Hp as <-.
  rewrite packEmpty_pack in He.
  - apply bool_decide_eq_true in He. rewrite He in Hc. set_solver.
  - cbn [thin_pack pk_objects]. unfold packed_objects. pose proof (reach_universe sha). set_solver.
Qed.

(** An URI that some ref lists. *)
Definition listed (u : string) : Prop :=
  exists n g, refs (wd_table x0) !! n = Some g /\ u ∈ packUris g.

Lemma cover_empty_covers spec sha pack prev :
  prev = R !! ps_dst spec ->
  covers sha pack -> (packEmpty pack = true -> reach sha ⊆ listed_objects) ->
  ensures (since R x0) (cover_empty spec sha pack prev) (fun p h => since R x0 h /\
    covers sha p.1 /\ (p.2 <> [] -> reach sha ⊆ listed_objects /\ Forall listed p.2)).
Proof.
  intros Hprev Hc He. unfold cover_empty. destruct (packEmpty pack) eqn:Hempty.
  2: { by apply ensures_ret. }
  destruct prev as [r|].
  - apply ensures_ret. intros h Hh. split_and!; [done|done|]. intros _. split; [by apply He|].
    symmetry in Hprev. rewrite HR in Hprev. apply fmap_Some in Hprev as (g & Hg & ->).
    apply list.Forall_forall. intros u Hu. by exists (ps_dst spec), g.
  - grow. eapply ensures_bind; [apply pack_objects_covers, no_exclusions|].
    intros full. apply ensures_ret. intros h (Hh & Hf & _). by split_and!.
Qed.

Lemma ensures_refs {A} (f : gmap string RefInfo -> prog helper A) Q :
  ensures (since R x0) (f R) Q -> ensures (since R x0) (gets h_remoteRefs ≫= f) Q.
Proof. intros H h h' a Hh E. eapply H; [done|]. destruct Hh as [<- _]. exact E. Qed.

(** What an update of a complete table may say: packs that cover the commit,
    each of them listed or with its bases in the listed packs. *)
Definition offer (sha : string) (store : gmap string string) (uris : list string) : Prop :=
  reach sha ⊆ uris_objects store uris ∪ table_objects store (wd_table x0) /\
  forall u, u ∈ uris -> listed u \/ based store (table_objects store (wd_table x0)) u.

Lemma offer_pack sha pack uri store :
  wd_store x0 ⊆ store -> covers sha pack -> uri_contents store uri = parse_pack pack ->
  offer sha store [uri].
Proof.
  intros Hs (c & Hp & Hb & Hc) Hu. rewrite Hp in Hu.
  pose proof (table_objects_mono _ _ (wd_table x0) Hs) as Hmono. split.
  - unfold uris_objects, uri_objects. cbn. rewrite Hu. set_solver.
  - intros u ->%list_elem_of_singleton. right. exists c. split; [done|]. by etransitivity.
Qed.

Lemma prepare_update_covers spec sha :
  ensures (since R x0) (prepare_update w spec sha)
    (fun u h => since R x0 h /\ offer sha (wd_store (h_world h)) u.1).
Proof.
  unfold prepare_update. grow. grow. apply ensures_refs. cbv zeta. grow.
  eapply ensures_bind; [apply pack_objects_covers, excluded_listed|]. intros pack.
  apply ensures_facts. intros [Hc He].
  eapply ensures_bind; [by apply cover_empty_covers|]. intros [pack' cids].
  apply ensures_facts. cbn [fst snd]. intros [Hc' He'].
  eapply (ensures_bind _ (fun uris h => since R x0 h /\ offer sha (wd_store (h_world h)) uris)).
  - destruct cids as [|uri cids].
    + intros h h' uris Hh E. apply (replicate_pack_stores R x0) in E as (Hh' & Hs & ->); [|done].
      split; [done|]. eapply offer_pack; [|done|done]. apply Hh'.
    + apply ensures_ret. intros h Hh. split; [done|]. destruct He' as [He' Hl]; [done|]. split.
      * intros o Ho. apply elem_of_union_r. eapply table_objects_mono; [|by apply He']. apply Hh.
      * rewrite list.Forall_forall in Hl. intros u Hu. left. by apply Hl.
  - intros uris. by apply ensures_ret.
Qed.

End Covering.

(** *** The push *)

Lemma collect_garbage_since R x0 : keeps (since R x0) collect_garbage.
Proof.
  unfold collect_garbage. apply keeps_bind.
  - apply keeps_attempt, since_invoke, ok_mild.
  - intros [[]|e]; apply since_progress.
Qed.

Lemma prepare_update_since R x0 spec sha : keeps (since R x0) (prepare_update w spec sha).
Proof.
  unfold prepare_update, cover_empty, replicate_pack, pack_objects, connect_peers, connect_optional.
  mild_steps.
Qed.

(** What a push of [ref] keeps. *)
Definition kept (ref : string) (x y : world) : Prop :=
  clone_complete y /\
  (names_ok (wd_table x) -> names_ok (wd_table y) /\
    (listed_last (wd_table x) ref -> clone_ordered x -> clone_ordered y)).

Lemma grows_ordered x y : grows x y -> clone_ordered x -> clone_ordered y.
Proof.
  intros [Ht _ _ Hs _] Ho. unfold clone_ordered. rewrite Ht. by eapply in_order_mono.
Qed.

Lemma grows_kept ref x y : grows x y -> clone_complete x -> kept ref x y.
Proof.
  intros Hg Hc. split; [by eapply grows_complete|]. rewrite (gr_table _ _ Hg). intros Hn.
  split; [done|]. intros _. by eapply grows_ordered.
Qed.

Lemma kept_grows ref x y z : grows y z -> kept ref x y -> kept ref x z.
Proof.
  intros Hg [Hc Hk]. split; [by eapply grows_complete|]. rewrite (gr_table _ _ Hg).
  intros [Hn Ho]%Hk. split; [done|]. intros Hl Hx. by eapply grows_ordered, Ho.
Qed.

Lemma grown_kept ref x y z : grows x y -> kept ref y z -> kept ref x z.
Proof.
  intros Hg [Hc Hk]. split; [done|]. rewrite <- (gr_table _ _ Hg). intros [Hn Ho]%Hk.
  split; [done|]. intros Hl Hx. apply Ho; [done|]. by eapply grows_ordered.
Qed.

Lemma updateRef_kept auth env ref sha uris e x t' :
  updateRef auth env (wd_table x) ref sha uris e false = Ok t' ->
  clone_complete x -> offer x sha (wd_store x) uris -> kept ref x (set_table t' x).
Proof.
  intros E Hc [Hcov Huris]. split.
  - intros n r. cbn. by eapply update_complete.
  - intros Hn. split; [by eapply updateRef_keeps_names|]. intros Hl Ho.
    eapply update_ordered; [exact E|done|done| |exact Ho]. intros u Hu.
    destruct (Huris u Hu) as [(n & g & Hg & Hin)|]; [left|by right].
    apply list_elem_of_In, in_concat. exists (ref_uris (wd_table x) n). split.
    + apply in_map, list_elem_of_In, Hn. by eexists.
    + unfold ref_uris. rewrite Hg. by apply list_elem_of_In.
Qed.

Lemma UpdateRef_kept owner repo ref sha uris e x :
  store_ok x -> clone_complete x -> offer x sha (wd_store x) uris ->
  kept ref x (UpdateRef owner repo ref sha uris e false x).1 /\
  store_ok (UpdateRef owner repo ref sha uris e false x).1.
Proof.
  intros Hs Hc Hr. unfold UpdateRef, world_registry, faulty.
  assert (forall fs, kept ref x (set_faults fs x) /\ store_ok (set_faults fs x)) as Hf.
  { intros fs. split; [|done]. by apply grows_kept. }
  assert (forall fs t', updateRef (Ok tt) (mk_tx_env (unix (wd_now x)) owner) (wd_table x) ref sha
            uris e false = Ok t' -> kept ref x (set_table t' (set_faults fs x)) /\
            store_ok (set_table t' (set_faults fs x))) as Hu.
  { intros fs t' E. split; [|done]. exact (updateRef_kept _ _ _ _ _ _ _ _ E Hc Hr). }
  destruct (wd_faults x) as [|[] fs] eqn:Ef; cbn [set_faults wd_now wd_table];
    [|specialize (Hu fs)|by apply Hf|specialize (Hu fs)].
  - specialize (Hu []). replace (set_faults [] x) with x in Hu by (destruct x; cbn in *; by subst).
    destruct (updateRef _ _ _ _ _ _ _ _) as [t'|]; [by apply Hu|].
    split; [|done]. by apply grows_kept, Hc; apply grows_refl.
  - destruct (updateRef _ _ _ _ _ _ _ _) as [t'|]; [by apply Hu|by apply Hf].
  - destruct (updateRef _ _ _ _ _ _ _ _) as [t'|]; [by apply Hu|by apply Hf].
Qed.

(** C18: an ordinary push keeps the repository clonable.  Let the packs of the
    listed refs have every object that a ref reaches, and let the helper have
    listed these very refs.  After a push that is neither forced nor a deletion
    this is still so, whatever steps of the push fail before or after taking
    effect.  If the pushed ref is new or the last one listed, the push also
    keeps the order of thin packs: when an empty repository could index all
    packs as listed, each after the bases of its deltas, it still can. *)
Theorem push_keeps_clone_complete spec h h' r :
  ps_src spec <> ""%string -> ps_force spec = false ->
  cached (h_remoteRefs h) (wd_table (h_world h)) ->
  store_ok (h_world h) -> clone_complete (h_world h) ->
  pushOne w spec h = (h', r) ->
  clone_complete (h_world h') /\
  (names_ok (wd_table (h_world h)) -> names_ok (wd_table (h_world h')) /\
    (listed_last (wd_table (h_world h)) (ps_dst spec) ->
     clone_ordered (h_world h) -> clone_ordered (h_world h'))).
Proof.
  intros Hsrc Hforce HR Hs Hc. fold (kept (ps_dst spec) (h_world h) (h_world h')).
  unfold pushOne. rewrite decide_False by done.
  assert (since (h_remoteRefs h) (h_world h) h) as Hh by (split; [done|by apply grows_refl]).
  assert (forall h0 r0, since (h_remoteRefs h) (h_world h) h0 -> (h0, r0) = (h', r) ->
    kept (ps_dst spec) (h_world h) (h_world h')) as Hkeep.
  { intros h0 r0 [_ Hg] [= <- _]. by apply grows_kept. }
  rewrite bind_run. destruct (invoke_pure _ h) as [h1 r1] eqn:E1.
  pose proof (since_invoke_pure (h_remoteRefs h) (h_world h) (git_ResolveRef (ps_src spec))
    (fun _ => eq_refl) h Hh) as Hh1. rewrite E1 in Hh1. cbn [fst] in Hh1.
  destruct r1 as [sha|e]; [|by apply Hkeep]. case_decide; [by apply Hkeep|].
  unfold push_commit. rewrite bind_run.
  pose proof (prepare_update_covers (h_remoteRefs h) (h_world h) HR Hc spec sha h1) as Hp.
  pose proof (prepare_update_since (h_remoteRefs h) (h_world h) spec sha h1 Hh1) as Hh2.
  destruct (prepare_update w spec sha h1) as [h2 [[cids e]|err]]; [|by apply Hkeep].
  destruct (Hp h2 (cids, e) Hh1 eq_refl) as [[_ Hg] Hcov]. cbn [fst snd] in *.
  assert (offer (h_world h2) sha (wd_store (h_world h2)) cids) as Hcov2.
  { unfold offer, listed. by rewrite (gr_table _ _ Hg). }
  rewrite bind_run. cbn [progress modify]. rewrite bind_run. unfold invoke.
  cbn [log_line h_world]. rewrite Hforce.
  destruct (UpdateRef_kept (Owner (w_url w)) (Repo (w_url w)) (ps_dst spec) sha cids e (h_world h2))
    as [Hc3 Hs3]; [apply Hg|by eapply grows_complete|done|].
  apply (grown_kept _ _ _ _ Hg) in Hc3.
  destruct (UpdateRef _ _ _ _ _ _ _ (h_world h2)) as [x3 [[]|err]]; cbn [fst] in *.
  2: { by intros [= <- _]. }
  set (h3 := mk_helper _ _ _ _ _ x3 _).
  pose proof (collect_garbage_since (h_remoteRefs h3) x3 h3
    (conj eq_refl (grows_refl _ Hs3))) as [_ Hg4].
  destruct (collect_garbage h3) as [h4 r4]. intros [= <- _]. by eapply kept_grows.
Qed.

(** ** Fetching *)

(** A line asks for a ref. *)
Definition asks_for (line n : string) : Prop := exists a b, Fields line = [a; b; n].

Lemma collect_uris_cached t (lines names uris : list string) (h : helper) :
  cached (h_remoteRefs h) t -> Forall2 asks_for lines names ->
  Forall (fun n => is_Some (refs t !! n)) names ->
  collect_uris w lines uris h = (h, Ok (foldl add_uri uris (concat (map (ref_uris t) names)))).
Proof.
  intros Hc Hl. revert uris. induction Hl as [|l n lines names (a & b & Hf) Hl IH]; intros uris Hn;
    [done|].
  apply Forall_cons_1 in Hn as [[g Hg] Hn]. cbn [collect_uris]. rewrite Hf, bind_run.
  unfold wanted_uris. rewrite bind_run. cbn [gets]. rewrite (Hc n), Hg.
  cbn [fmap option_fmap option_map mret prog_ret ref_info ri_PackURIs].
  rewrite IH by done. cbn [map concat]. rewrite foldl_app.
  by replace (ref_uris t n) with (packUris g) by (unfold ref_uris; by rewrite Hg).
Qed.

Lemma elem_of_foldl_add_uri more uris u : u ∈ foldl add_uri uris more <-> u ∈ uris \/ u ∈ more.
Proof.
  revert uris. induction more as [|x more IH]; intros uris; cbn [foldl].
  - split; [by left|]. intros [?|H]; [done|by inversion H].
  - rewrite IH, elem_of_cons. unfold add_uri. case_decide; [naive_solver|].
    rewrite elem_of_app, list_elem_of_singleton. naive_solver.
Qed.

Lemma ingest_obtains total i u c (h : helper) :
  wd_faults (h_world h) = [] -> uri_contents (wd_store (h_world h)) u = Some c ->
  pk_bases c ⊆ wd_objects (h_world h) ->
  exists h', ingest total i u h = (h', Ok tt) /\
    h_world h' = set_objects (wd_objects (h_world h) ∪ pk_objects c) (h_world h).
Proof.
  intros Hf Hu Hb. unfold uri_contents, uri_pack in Hu. unfold ingest, fetchPack.
  destruct (cut_prefix "ipfs://" u) as [cid|]; [|done].
  destruct (wd_store (h_world h) !! cid) as [pack|] eqn:Hs; [|done]. cbn in Hu.
  rewrite bind_run. cbn [progress modify]. rewrite bind_run. unfold invoke at 1.
  cbn [GetFromGateways world_ipfs log_line h_world]. unfold faulty. rewrite Hf, Hs.
  unfold wrap_error, invoke. cbn [IndexPack world_git re_broken re_body h_world].
  unfold index_pack. rewrite Hu, decide_True by done. cbn. by eexists.
Qed.

Lemma ingest_all uris i total (h : helper) :
  wd_faults (h_world h) = [] ->
  in_order (wd_store (h_world h)) (wd_objects (h_world h)) uris ->
  exists h', for_each_i (ingest total) i uris h = (h', Ok tt) /\
    wd_objects (h_world h') =
      wd_objects (h_world h) ∪ uris_objects (wd_store (h_world h)) uris.
Proof.
  revert i h. induction uris as [|u uris IH]; intros i h Hf Ho.
  - exists h. split; [done|]. unfold uris_objects. cbn. set_solver.
  - cbn [for_each_i]. rewrite bind_run. cbn [in_order] in Ho.
    destruct (uri_contents _ u) as [c|] eqn:E; [|done]. destruct Ho as [Hb Ho].
    destruct (ingest_obtains total i u c h Hf E Hb) as (h1 & -> & Hw).
    destruct (IH (i + 1) h1) as (h2 & -> & Hobj); [by rewrite Hw..|].
    exists h2. split; [done|]. rewrite Hobj, Hw. cbn [set_objects wd_objects wd_store].
    unfold uris_objects. cbn [map union_list foldr]. unfold uri_objects at 2. rewrite E. set_solver.
Qed.

Lemma read_batch_world n (h h' : helper) r :
  read_batch n h = (h', r) -> h_world h' = h_world h /\ h_remoteRefs h' = h_remoteRefs h.
Proof.
  revert h h' r. induction n as [|n IH]; intros h h' r; cbn [read_batch]; [by intros [= <- _]|].
  rewrite bind_run. unfold scan at 1. destruct (Scan (h_in h)) as [sc [line|]]; [|by intros [= <- _]].
  case_decide; [by intros [= <- _]|]. rewrite bind_run.
  destruct (read_batch n (set_in sc h)) as [h1 [ls|e]] eqn:E; intros [= <- _]; by apply IH in E.
Qed.

Lemma batch_world c first (h h' : helper) r :
  batch c first h = (h', r) -> h_world h' = h_world h /\ h_remoteRefs h' = h_remoteRefs h.
Proof.
  unfold batch. rewrite bind_run. cbn [gets]. rewrite bind_run.
  destruct (read_batch _ h) as [h1 [ls|e]] eqn:E; intros [= <- _]; by apply read_batch_world in E.
Qed.

(** C19: a clone obtains the whole history.  In a repository whose listed packs
    have every object that a ref reaches, and in the listed order each after
    the bases of its deltas, the fetch succeeds when git asks for all refs as
    they are listed and the gateways answer, and afterwards the local
    repository has everything that any ref reaches. *)
Theorem clone_obtains_history first (h h1 : helper) lines :
  batch "fetch " first h = (h1, Ok lines) ->
  Forall2 asks_for lines (refNames (wd_table (h_world h))) ->
  cached (h_remoteRefs h) (wd_table (h_world h)) -> names_ok (wd_table (h_world h)) ->
  wd_faults (h_world h) = [] ->
  clone_ordered (h_world h) -> clone_complete (h_world h) ->
  exists h', cmdFetchBatch w first h = (h', Ok tt) /\
    forall n r, refs (wd_table (h_world h)) !! n = Some r ->
      reach (commitSha r) ⊆ wd_objects (h_world h').
Proof.
  intros Hb Hl Hc Hn Hf Ho Hcomplete. unfold cmdFetchBatch. rewrite bind_run, Hb.
  apply batch_world in Hb as [Hw Hrefs]. rewrite <- Hw, <- Hrefs in *.
  rewrite bind_run, (collect_uris_cached _ _ _ [] h1 Hc Hl).
  2: { apply list.Forall_forall. intros n. by apply Hn. }
  rewrite bind_run. fold (listed_uris (wd_table (h_world h1))). set (uris := foldl _ _ _).
  destruct (ingest_all uris 0 (llen uris) h1 Hf) as (h2 & -> & Hobj).
  { eapply in_order_mono; [reflexivity| |by apply in_order_dedup]. set_solver. }
  eexists. split; [done|]. intros n r Hr o Hin. cbn [write h_world]. rewrite Hobj.
  apply (Hcomplete n r Hr) in Hin. rewrite table_objects_listed in Hin by done.
  apply elem_of_uris_objects in Hin as (u & Hu & Hin). apply elem_of_union_r, elem_of_uris_objects.
  exists u. split; [|done]. apply elem_of_foldl_add_uri. by right.
Qed.

End Clone.
