(* ===== verification/RemoteProps.v ===== *)
(** * RemoteProps: what the remote helper guarantees

    The conversation ends, every ref of a push batch is reported on one line,
    and every update sent to the chain is backed by a confirmed pack or by URIs
    that the chain listed.  [ParseURL] accepts the usual spellings. *)
From Stdlib Require Import ZArith Lia Ascii String.
From stdpp Require Import base list gmap strings option.
From S2P Require Import Prelude GoText Prog GoIo I18n Encodings Replicationd ReplicationdSpec ChainTypes Remote RemoteSpec.

Local Open Scope Z_scope.

Section Props.
Context {EN : Environment} {MO : MapOrder} {W : Type}.
Context {RR : RepoRegistry W} {IC : IpfsClient W} {GR : GitRepo W} {AU : Authorizer W}
        {CK : Clock W}.
Variable w : wiring (W := W).

Abbreviation helper := (helper (W := W)).

(** ** Termination *)

(** Reading a batch, without fuel. *)
Inductive batch_read : helper -> helper -> list string -> Prop :=
| batch_end h h1 : scan h = (h1, Ok None) -> batch_read h h1 []
| batch_blank h h1 : scan h = (h1, Ok (Some ""%string)) -> batch_read h h1 []
| batch_line h h1 h2 line lines :
    scan h = (h1, Ok (Some line)) -> line <> ""%string -> batch_read h1 h2 lines ->
    batch_read h h2 (line :: lines).

(** The conversation, without fuel. *)
Inductive converses : helper -> helper -> result unit -> Prop :=
| conv_input_end h h1 h2 r :
    scan h = (h1, Ok None) -> input_error h1 = (h2, r) -> converses h h2 r
| conv_failed h h1 h2 line e :
    scan h = (h1, Ok (Some line)) ->
    command w (TrimRight line newline_char) h1 = (h2, Err e) -> converses h h2 (Err e)
| conv_done h h1 h2 line :
    scan h = (h1, Ok (Some line)) ->
    command w (TrimRight line newline_char) h1 = (h2, Ok false) -> converses h h2 (Ok tt)
| conv_next h h1 h2 h3 line r :
    scan h = (h1, Ok (Some line)) ->
    command w (TrimRight line newline_char) h1 = (h2, Ok true) ->
    converses h2 h3 r -> converses h h3 r.

Definition remaining (h : helper) : nat := String.length (sc_rest (h_in h)).

Lemma scan_spec h h1 r : scan h = (h1, r) ->
  exists line, r = Ok line /\ (remaining h1 <= remaining h)%nat /\
  forall l, line = Some l -> no_newline l = true /\ (remaining h1 < remaining h)%nat.
Proof.
  unfold scan, remaining. destruct (Scan (h_in h)) as [sc line] eqn:E. intros [= <- <-].
  exists line. split; [done|]. by apply Scan_spec in E.
Qed.

Lemma remaining_passive k : passive (fun _ => true) (fun h : helper => (remaining h <= k)%nat).
Proof.
  split; intros; unfold remaining, invoke in *; try done. by destruct (f (h_world h)).
Qed.

Lemma command_remaining line h : (remaining (command w line h).1 <= remaining h)%nat.
Proof.
  apply (keeps_command w _ (remaining_passive (remaining h))); [done..| |done].
  intros h' Hh. destruct (scan h') as [h1 r] eqn:E. apply scan_spec in E as (? & _ & ? & _).
  simpl. lia.
Qed.

Lemma run_loop_converses n h : (remaining h < n)%nat ->
  converses h (run_loop w n h).1 (run_loop w n h).2.
Proof.
  revert h. induction n as [|n IH]; intros h Hn; [lia|]. cbn [run_loop]. rewrite bind_run.
  destruct (scan h) as [h1 r] eqn:Es. destruct (scan_spec _ _ _ Es) as (line & -> & _ & Hl).
  destruct line as [line|].
  2: { apply (conv_input_end h h1); [done|]. apply surjective_pairing. }
  destruct (Hl line eq_refl) as [_ Hlt].
  pose proof (command_remaining (TrimRight line newline_char) h1) as Hc. rewrite bind_run.
  destruct (command w _ h1) as [h2 [[]|e]] eqn:Ec; cbn [fst] in Hc.
  - eapply conv_next; [done..|]. apply IH. lia.
  - by eapply conv_done.
  - by eapply conv_failed.
Qed.

Lemma read_batch_reads n h : (remaining h < n)%nat ->
  exists h' lines, read_batch n h = (h', Ok lines) /\ batch_read h h' lines.
Proof.
  revert h. induction n as [|n IH]; intros h Hn; [lia|]. cbn [read_batch]. rewrite bind_run.
  destruct (scan h) as [h1 r] eqn:Es. destruct (scan_spec _ _ _ Es) as (line & -> & _ & Hl).
  destruct line as [line|]; [|do 2 eexists; by split; [|apply batch_end]].
  case_decide; [subst; do 2 eexists; by split; [|apply batch_blank]|].
  destruct (Hl line eq_refl) as [_ Hlt].
  destruct (IH h1 ltac:(lia)) as (h2 & lines & Hb & Hr). rewrite bind_run, Hb.
  do 2 eexists. split; [done|]. by eapply batch_line.
Qed.

(** The conversation ends.  Whatever the input and whatever git, the IPFS
    daemon, the replication service and the chain answer, [Run] follows the
    fuel-free rules of the loop to their end, and so does the reading of a
    batch. *)
Theorem run_terminates h :
  converses h (Run w h).1 (Run w h).2 /\
  forall c first, exists h' lines,
    batch_read h h' lines /\
    batch c first h = (h', Ok (first :: filter (fun l => HasPrefix l c = true) lines)).
Proof.
  split.
  - unfold Run. rewrite bind_run. cbn [gets]. apply run_loop_converses. unfold remaining. lia.
  - intros c first. unfold batch. rewrite bind_run. cbn [gets].
    destruct (read_batch_reads (S (remaining h)) h) as (h' & lines & Hb & Hr); [lia|].
    exists h', lines. split; [done|]. rewrite bind_run. unfold remaining in Hb. by rewrite Hb.
Qed.

(** ** Reports *)

Lemma Cut_no_newline s sep a b f :
  Cut s sep = (a, b, f) -> no_newline s = true -> no_newline a = true /\ no_newline b = true.
Proof.
  revert a b f. induction s as [|c s IH]; intros a b f H Hn; cbn [Cut] in H; [by simplify_eq|].
  unfold no_newline in Hn. cbn [some_char] in Hn. rewrite negb_orb in Hn.
  apply andb_true_iff in Hn as [Hc Hn]. case_decide; [by simplify_eq|].
  destruct (Cut s sep) as [[a' b'] f']. simplify_eq. destruct (IH a' b f eq_refl Hn) as [Ha Hb].
  split; [|done]. unfold no_newline in *. cbn [some_char]. by rewrite negb_orb, Hc.
Qed.

Lemma TrimPrefix_no_newline s p : no_newline s = true -> no_newline (TrimPrefix s p) = true.
Proof.
  unfold TrimPrefix. destruct (cut_prefix p s) as [r|] eqn:E; [|done].
  apply cut_prefix_spec in E as ->. rewrite no_newline_app. by intros [_ ?]%andb_true_iff.
Qed.

Lemma parsePushSpec_no_newline line :
  no_newline line = true -> no_newline (ps_dst (parsePushSpec line)) = true.
Proof.
  intros H. unfold parsePushSpec. destruct (Cut _ _) as [[src dst] f] eqn:E.
  apply Cut_no_newline in E as [_ ?]; [done|]. by do 2 apply TrimPrefix_no_newline.
Qed.

Lemma sanitizeErr_no_newline e : no_newline (sanitizeErr e) = true.
Proof.
  unfold sanitizeErr, replace_char, no_newline. induction (Error e) as [|c s IH]; [done|].
  cbn [map_chars some_char]. rewrite negb_orb, IH, andb_true_r. case_decide; [done|].
  by rewrite (proj2 (is_char_false newline_char c)).
Qed.

Lemma report_no_newline spec r :
  no_newline (ps_dst spec) = true -> no_newline (report spec r) = true.
Proof.
  intros H. destruct r; unfold report; rewrite !no_newline_app, H; [done|].
  by rewrite sanitizeErr_no_newline.
Qed.

(** Lines as they are printed. *)
Definition printed (lines : list string) : string := unlines lines.

(** The reports of a batch, in order, before the blank line. *)
Definition reports (specs : list pushSpec) (results : list (result unit)) : list string :=
  zip_with report specs results.

Lemma output_passive o : passive (fun _ => true) (fun h : helper => h_out h = o).
Proof. split; intros; unfold invoke; [done..|]. by destruct (f (h_world h)). Qed.

Definition calls_extend (c0 : list call) (h : helper) : Prop := exists l, h_calls h = c0 ++ l.

Lemma calls_passive c0 : passive (fun _ => true) (calls_extend c0).
Proof.
  split; [done..|]. intros A f before after h _ _ [l Hl]. unfold invoke.
  destruct (f (h_world h)) as [world r]. eexists. cbn [fst h_calls]. rewrite Hl.
  by rewrite <- (assoc_L (++)).
Qed.

(** What an [Ok] of [pushOne] means for the ref. *)
Definition accepted (spec : pushSpec) (calls : list call) : Prop :=
  if decide (ps_src spec = ""%string) then Deleted (ps_dst spec) ∈ calls
  else Updated (ps_dst spec) ∈ calls.

Lemma accepted_app spec c0 l : accepted spec c0 \/ accepted spec l -> accepted spec (c0 ++ l).
Proof. unfold accepted. case_decide; by rewrite elem_of_app. Qed.

Lemma extend_refl (h : helper) : calls_extend (h_calls h) h.
Proof. exists []. by rewrite app_nil_r. Qed.

Lemma keeps_run {A} (P : helper -> Prop) (c : prog helper A) h h' r :
  keeps P c -> P h -> c h = (h', r) -> P h'.
Proof. intros Hc Hh E. specialize (Hc h Hh). by rewrite E in Hc. Qed.

Lemma invoke_ok {A} (f : W -> W * result A) before after h h' a :
  invoke f before after h = (h', Ok a) ->
  exists world, f (h_world h) = (world, Ok a) /\ h_out h' = h_out h /\
    h_remoteRefs h' = h_remoteRefs h /\ h_world h' = world /\
    h_calls h' = h_calls h ++ before ++ after a.
Proof.
  unfold invoke. destruct (f (h_world h)) as [world r]. intros [= <- ->]. by exists world.
Qed.

Lemma push_commit_accepted spec sha c0 h h' :
  ps_src spec <> ""%string -> calls_extend c0 h -> push_commit w spec sha h = (h', Ok tt) ->
  exists new, h_calls h' = c0 ++ new /\ accepted spec new.
Proof.
  intros Hsrc Hh. unfold push_commit. intros (h1 & [cids e] & H1 & H)%bind_run_ok.
  apply bind_run_ok in H as (h2 & [] & H2 & H). apply bind_run_ok in H as (h3 & [] & Hu & H).
  pose proof (calls_passive c0) as HP.
  apply (keeps_run (calls_extend c0)) in H1; [|by eapply keeps_prepare_update|done].
  apply (keeps_run (calls_extend c0)) in H2 as [l2 Hl2]; [|by eapply keeps_progress|done].
  apply invoke_ok in Hu as (world & _ & _ & _ & _ & Hu).
  apply (keeps_run (calls_extend (h_calls h3))) in H as [l Hl];
    [|by eapply keeps_collect_garbage, calls_passive|apply extend_refl].
  eexists. rewrite Hl, Hu, Hl2, <- !(assoc_L (++)). split; [done|].
  unfold accepted. rewrite decide_False by done. rewrite !elem_of_app. right. right. left. constructor.
Qed.

Lemma pushOne_accepted spec h h' : pushOne w spec h = (h', Ok tt) ->
  exists new, h_calls h' = h_calls h ++ new /\ accepted spec new.
Proof.
  unfold pushOne. intros H. case_decide as Hsrc.
  - run_ok H. apply (keeps_run (calls_extend (h_calls h))) in Hc as [l Hl];
      [|eapply keeps_progress, calls_passive|apply extend_refl].
    apply invoke_ok in H as (world & _ & _ & _ & _ & ->). eexists.
    rewrite Hl, <- (assoc_L (++)). split; [done|]. unfold accepted. rewrite decide_True by done.
    rewrite !elem_of_app. right. right. constructor.
  - apply bind_run_ok in H as (h1 & sha & H1 & H). case_decide; [done|].
    apply (push_commit_accepted spec sha (h_calls h) h1); [done| |done].
    eapply keeps_run; [eapply keeps_invoke_pure, calls_passive|apply extend_refl|done].
Qed.

(** What [push_and_report] adds to the output and to the log. *)
Lemma push_and_report_run spec h :
  exists h' r new, push_and_report w spec h = (h', Ok tt) /\
    h_out h' = (h_out h +:+ printed [report spec r])%string /\
    h_calls h' = h_calls h ++ new /\ (r = Ok tt -> accepted spec new).
Proof.
  unfold push_and_report. rewrite bind_run. unfold attempt.
  pose proof (keeps_pushOne w _ (output_passive (h_out h)) spec h eq_refl) as Ho.
  pose proof (keeps_pushOne w _ (calls_passive (h_calls h)) spec h (extend_refl h)) as [new Hc].
  destruct (pushOne w spec h) as [h1 r] eqn:E. cbn [fst] in Ho, Hc.
  exists (write (report spec r +:+ str1 newline_char) h1), r, new. split_and!; [done| |done|].
  - cbn [write h_out]. by rewrite Ho.
  - intros ->. destruct (pushOne_accepted spec h h1 E) as (new' & Hn & Ha).
    rewrite Hc in Hn. by apply app_inv_head in Hn as ->.
Qed.

Lemma push_all_run specs h :
  exists h' results new, for_each (push_and_report w) specs h = (h', Ok tt) /\
    length results = length specs /\
    h_out h' = (h_out h +:+ printed (reports specs results))%string /\
    h_calls h' = h_calls h ++ new /\
    Forall2 (fun spec r => r = Ok tt -> accepted spec new) specs results.
Proof.
  revert h. induction specs as [|spec specs IH]; intros h.
  { exists h, [], []. split_and!; [done..| | |constructor]; [by rewrite str_app_nil|].
    by rewrite app_nil_r. }
  cbn [for_each]. rewrite bind_run.
  destruct (push_and_report_run spec h) as (h1 & r & n1 & -> & Ho & Hl1 & Ha).
  destruct (IH h1) as (h2 & rs & n2 & -> & Hn & Ho2 & Hl2 & Ha2).
  exists h2, (r :: rs), (n1 ++ n2). split_and!; [done|simpl; lia| | |].
  - rewrite Ho2, Ho. unfold reports. cbn [zip_with]. unfold printed.
    change (report spec r :: zip_with report specs rs) with ([report spec r] ++ zip_with report specs rs).
    by rewrite unlines_app, str_app_assoc.
  - by rewrite Hl2, Hl1, (assoc_L (++)).
  - constructor; [intros Hr; apply accepted_app; left; by apply Ha|].
    eapply Forall2_impl; [|exact Ha2]. intros sp r' Himp Hr. apply accepted_app. right. by apply Himp.
Qed.

Lemma reject_all_run specs e (h : helper) :
  exists h', reject_all specs e h = (h', Ok tt) /\
    h_out h' = (h_out h +:+ printed (reports specs (map (fun _ => Err e) specs) ++ [""]))%string /\
    h_calls h' = h_calls h.
Proof.
  unfold reject_all. rewrite bind_run.
  assert (forall h : helper, exists h', for_each (fun spec => print_line (report spec (Err e))) specs h
    = (h', Ok tt) /\ h_calls h' = h_calls h /\
    h_out h' = (h_out h +:+ printed (reports specs (map (fun _ => Err e) specs)))%string) as Hall.
  { clear h. induction specs as [|spec specs IH]; intros h.
    { exists h. split_and!; [done..|]. cbn. by rewrite str_app_nil. }
    cbn [for_each]. rewrite bind_run. cbn [print_line modify].
    destruct (IH (write (report spec (Err e) +:+ str1 newline_char) h)) as (h' & -> & Hc & Ho).
    exists h'. split_and!; [done|by rewrite Hc|]. rewrite Ho. cbn [write h_out].
    unfold reports. cbn [map]. cbn [zip_with printed unlines]. unfold printed.
    cbn [unlines]. by rewrite !str_app_assoc. }
  destruct (Hall h) as (h1 & -> & Hc & Ho).
  exists (write (""%string +:+ str1 newline_char) h1). split_and!; [done| |done].
  cbn [write h_out]. rewrite Ho. unfold printed. by rewrite unlines_app, str_app_assoc.
Qed.

Lemma batch_lines c first (h h' : helper) lines :
  no_newline first = true -> batch c first h = (h', Ok lines) ->
  h_out h' = h_out h /\ h_calls h' = h_calls h /\
  Forall (fun l => no_newline l = true) lines.
Proof.
  intros Hf. unfold batch. rewrite bind_run. cbn [gets].
  destruct (read_batch_reads (S (remaining h)) h) as (h1 & ls & Hb & Hr); [lia|].
  rewrite bind_run. unfold remaining in Hb. rewrite Hb. intros [= <- <-].
  assert (h_out h1 = h_out h /\ h_calls h1 = h_calls h /\ Forall (fun l => no_newline l = true) ls)
    as (Ho & Hc & Hls).
  { clear Hb. assert (forall (h h1 : helper) r, scan h = (h1, r) -> h_out h1 = h_out h /\ h_calls h1 = h_calls h)
      as Hscan.
    { intros h0 h2 r. unfold scan. destruct (Scan _). by intros [= <- <-]. }
    induction Hr as [h h1 Hs|h h1 Hs|h h1 h2 line ls Hs Hne Hr IH];
      destruct (Hscan _ _ _ Hs) as [Ho Hc]; [by split_and!..|].
    destruct IH as (Ho' & Hc' & Hls). split_and!; [congruence..|]. constructor; [|done].
    apply scan_spec in Hs as (l & [= <-] & _ & Hl). by apply Hl. }
  split_and!; [done..|]. constructor; [done|].
  clear - Hls. induction Hls as [|l ls Hl Hls IH]; [constructor|]. rewrite filter_cons.
  case_decide; [by constructor|done].
Qed.

(** C16: git gets an answer for every ref it pushes.  A push batch never fails
    as a command; it prints one line per requested ref, in the order of the
    request, each without a line feed whatever text an error carries, and then
    the blank line.  A ref is reported [ok] only if the chain accepted its
    update, or its deletion, in this batch. *)
Theorem push_reports_every_ref first (h h' : helper) r :
  no_newline first = true -> cmdPushBatch w first h = (h', r) ->
  exists h1 lines results new,
    batch "push " first h = (h1, Ok lines) /\ r = Ok tt /\
    length results = length lines /\
    h_out h' = (h_out h +:+ printed (reports (map parsePushSpec lines) results ++ [""]))%string /\
    Forall (fun line => no_newline line = true) (reports (map parsePushSpec lines) results) /\
    h_calls h' = h_calls h ++ new /\
    Forall2 (fun spec r => r = Ok tt -> accepted spec new) (map parsePushSpec lines) results.
Proof.
  intros Hf. unfold cmdPushBatch. rewrite bind_run.
  destruct (proj2 (run_terminates h) "push "%string first) as (h1 & ls & _ & Hb).
  rewrite Hb. set (lines := first :: _) in *.
  destruct (batch_lines _ _ _ _ _ Hf Hb) as (Ho1 & Hc1 & Hnl). rewrite bind_run. unfold attempt.
  assert (h_out (admit_push w (map parsePushSpec lines) h1).1 = h_out h1) as Ho2.
  { eapply (keeps_admit_push w (fun _ => true)); (apply output_passive || done). }
  assert (calls_extend (h_calls h1) (admit_push w (map parsePushSpec lines) h1).1) as [n1 Hc2].
  { eapply (keeps_admit_push w (fun _ => true)); (apply calls_passive || apply extend_refl || done). }
  assert (forall rs, Forall (fun line => no_newline line = true)
    (reports (map parsePushSpec lines) rs)) as Hclean.
  { clear - Hnl. clearbody lines. induction Hnl as [|l lines Hl Hls IH];
      intros [|x rs]; cbn; constructor; [|apply IH].
    by apply report_no_newline, parsePushSpec_no_newline. }
  destruct (admit_push w _ h1) as [h2 [[]|e]]; cbn [fst] in Ho2, Hc2.
  - rewrite bind_run. destruct (push_all_run (map parsePushSpec lines) h2)
      as (h3 & rs & n2 & -> & Hn & Ho3 & Hc3 & Ha).
    intros [= <- <-]. exists h1, lines, rs, (n1 ++ n2).
    split_and!; [done|done|by rewrite Hn, length_map| |done| |].
    + cbn [write h_out]. rewrite Ho3, Ho2, Ho1. unfold printed. by rewrite unlines_app, str_app_assoc.
    + cbn [write h_calls]. by rewrite Hc3, Hc2, Hc1, (assoc_L (++)).
    + eapply Forall2_impl; [|exact Ha]. intros sp x Himp Hx. apply accepted_app. right. by apply Himp.
  - destruct (reject_all_run (map parsePushSpec lines) e h2) as (h3 & -> & Ho3 & Hc3).
    intros [= <- <-]. exists h1, lines, (map (fun _ => Err e) (map parsePushSpec lines)), n1.
    split_and!; [done|done| | |done| |].
    + by rewrite !length_map.
    + by rewrite Ho3, Ho2, Ho1.
    + by rewrite Hc3, Hc2, Hc1.
    + generalize (map parsePushSpec lines) as specs. induction specs; constructor; done.
Qed.

(** ** What stands behind an update *)

(** The refs of the latest listing, by name. *)
Definition table (refs : list RefInfo) : gmap string RefInfo :=
  foldl (fun t r => <[ri_RefName r := r]> t) empty refs.
Definition tips (calls : list call) : gmap string RefInfo :=
  foldl (fun t c => match c with Listed refs => table refs | _ => t end) empty calls.

(** A request that binds the ticket to a pack, its CID and the ref. *)
Definition pins (req : replicationRequest) (ref cid pack : string) : Prop :=
  rr_CID req = cid /\ rr_Ref req = ref /\
  rr_PackSHA256 req = sha256_hex (string_bytes pack) /\ rr_Size req = slen pack.

(** A pack without exclusions has the whole history. *)
Definition excludes_listed (t : gmap string RefInfo) (force : bool) (exclude : list string) : Prop :=
  exclude = [] \/
  (force = false /\ forall sha, sha ∈ exclude -> exists ref r, t !! ref = Some r /\ ri_CommitSha r = sha).

Definition expected_at (t : gmap string RefInfo) (ref : string) : string :=
  match t !! ref with Some r => ri_CommitSha r | None => "" end.

(** The URIs of an update are those of a pack of its commit that was uploaded
    and whose pin was confirmed, or the ones the ref is listed with. *)
Definition backed (pre : list call) (ref sha : string) (uris : list string) (expected : string)
    (force : bool) : Prop :=
  expected = expected_at (tips pre) ref /\
  ((exists exclude pack cid req,
      uris = ["ipfs://" +:+ cid] /\ Packed sha exclude pack ∈ pre /\
      excludes_listed (tips pre) force exclude /\
      Added (ref +:+ ".pack") pack cid ∈ pre /\ Authorized req ∈ pre /\ Confirmed req ∈ pre /\
      pins req ref cid pack) \/
   (exists r exclude pack,
      tips pre !! ref = Some r /\ uris = ri_PackURIs r /\ uris <> [] /\
      Packed sha exclude pack ∈ pre /\ excludes_listed (tips pre) force exclude /\
      packEmpty pack = true)).

Definition all_backed (calls : list call) : Prop :=
  forall pre ref sha uris expected force post,
    calls = pre ++ SentUpdate ref sha uris expected force :: post ->
    backed pre ref sha uris expected force.

Lemma all_backed_snoc calls c :
  all_backed calls ->
  (forall ref sha uris e f, c = SentUpdate ref sha uris e f -> backed calls ref sha uris e f) ->
  all_backed (calls ++ [c]).
Proof.
  intros Hall Hc pre ref sha uris e f post. destruct post as [|x post _] using rev_ind.
  - intros [-> ->]%app_inj_tail. by apply Hc.
  - rewrite app_comm_cons, (assoc_L (++)). intros [-> _]%app_inj_tail. by eapply Hall.
Qed.

Lemma all_backed_quiet calls l :
  all_backed calls -> Forall (fun c => quiet c = true) l -> all_backed (calls ++ l).
Proof.
  intros Hall Hl. revert calls Hall. induction Hl as [|c l Hc Hl IH]; intros calls Hall.
  - by rewrite app_nil_r.
  - rewrite cons_middle, (assoc_L (++)). apply IH. apply all_backed_snoc; [done|].
    by intros * ->.
Qed.

Lemma tips_quiet calls l : Forall (fun c => quiet c = true) l -> tips (calls ++ l) = tips calls.
Proof.
  unfold tips. rewrite foldl_app. generalize (foldl (fun t c => match c with
    Listed refs => table refs | _ => t end) empty calls) as t.
  intros t Hl. revert t. induction Hl as [|c l Hc Hl IH]; intros t; [done|].
  cbn [foldl]. rewrite IH. by destruct c.
Qed.

(** The invariant: the cache is the latest listing and every update is backed. *)
Definition sound_log (h : helper) : Prop :=
  h_remoteRefs h = tips (h_calls h) /\ all_backed (h_calls h).

Lemma sound_log_passive : passive quiet sound_log.
Proof.
  split; [done..|]. intros A f before after h Hb Ha [Ht Hall]. unfold invoke, sound_log.
  destruct (f (h_world h)) as [world r]. cbn [fst h_remoteRefs h_calls].
  assert (Forall (fun c => quiet c = true)
    (before ++ match r with Ok a => after a | Err _ => [] end)) as Hq.
  { apply Forall_app. split; [done|]. destruct r; [apply Ha|constructor]. }
  by rewrite tips_quiet; [split; [|apply all_backed_quiet]|].
Qed.

Lemma refs_passive t : passive (fun _ => true) (fun h : helper => h_remoteRefs h = t).
Proof. split; intros; unfold invoke; [done..|]. by destruct (f (h_world h)). Qed.

(** *** Facts that survive *)

Lemma passive_call c : passive (fun _ => true) (fun h : helper => c ∈ h_calls h).
Proof.
  split; [done..|]. intros A f before after h _ _ Hc. unfold invoke. destruct (f _).
  cbn [fst h_calls]. rewrite elem_of_app. by left.
Qed.

Lemma passive_and a (P Q : helper -> Prop) :
  passive a P -> passive a Q -> passive a (fun h => P h /\ Q h).
Proof.
  intros HP HQ. split.
  - intros t h [? ?]. by split; apply pa_log with a.
  - intros r h [? ?]. by split; apply pa_resolved with a.
  - intros A f b af h Hb Ha [? ?]. by split; apply pa_invoke with a.
Qed.

Lemma passive_true a : passive a (fun _ : helper => True).
Proof. by split. Qed.

Lemma passive_less (P : helper -> Prop) : passive (fun _ => true) P -> passive quiet P.
Proof.
  intros HP. split; [by apply HP..|]. intros A f b af h _ _ Hh.
  apply HP; [| |done]; intros; by apply Forall_true.
Qed.

Hint Resolve passive_call passive_and passive_true refs_passive sound_log_passive passive_less
  : passive.

(** Discharging a step that keeps what is known. *)
Ltac skip := eapply ensures_skip; [solve [unfold connect_peers, connect_optional; repeat first
  [ solve [eauto with keeps]
  | eapply (keeps_progress quiet); eauto 12 with passive
  | eapply (keeps_invoke_pure quiet); eauto 12 with passive
  | eapply (keeps_invoke quiet); [eauto 12 with passive|intros; repeat constructor..]
  | match goal with |- keeps _ (match ?x with _ => _ end) => destruct x end
  | apply keeps_bind | apply keeps_attempt | apply keeps_wrap_error | apply keeps_for_each
  | progress cbv zeta | intro ]]|intros ?].

(** A call that succeeds leaves its entries in the log. *)
Lemma ensures_invoke {A} (P : helper -> Prop) (f : W -> W * result A) (c : A -> call) :
  passive quiet P -> (forall a, quiet (c a) = true) ->
  ensures P (invoke f [] (fun a => [c a])) (fun a h => P h /\ c a ∈ h_calls h).
Proof.
  intros HP Hc h h' a Hh E. split.
  - pose proof (pa_invoke _ _ HP _ f [] (fun a => [c a]) h) as H. rewrite E in H.
    apply H; [constructor|intros; by repeat constructor|done].
  - apply invoke_ok in E as (? & _ & _ & _ & _ & ->). rewrite !elem_of_app. right. right. constructor.
Qed.

Lemma replicate_pack_ensures P spec pack :
  passive quiet P ->
  ensures P (replicate_pack w spec pack) (fun uris h => P h /\ exists cid req,
    uris = ["ipfs://" +:+ cid] /\ Added (ps_dst spec +:+ ".pack") pack cid ∈ h_calls h /\
    Authorized req ∈ h_calls h /\ Confirmed req ∈ h_calls h /\ pins req (ps_dst spec) cid pack).
Proof.
  intros HP. unfold replicate_pack. skip.
  eapply ensures_bind; [by apply (ensures_invoke P)|]. intros cid. cbn beta.
  skip. skip. skip.
  eapply ensures_skip; [eauto with keeps|]. intros resolved. skip. cbv zeta. skip.
  set (req := binding w spec resolved cid pack _).
  eapply ensures_bind; [apply (ensures_invoke _ _ (fun _ => Authorized req)); eauto 12 with passive|].
  intros scoped. cbn beta. skip.
  eapply ensures_bind; [apply (ensures_invoke _ _ (fun _ => Confirmed req)); eauto 12 with passive|].
  intros []. cbn beta. skip. apply ensures_ret. intros h [[[HPh Ha] Hb] Hc]. split; [done|].
  exists cid, req. split_and!; [done..|]. unfold req, binding. by destruct resolved.
Qed.

(** *** Preparing an update *)

(** The cache holds [refs] and the log is sound. *)
Definition caching (refs : gmap string RefInfo) (h : helper) : Prop :=
  sound_log h /\ h_remoteRefs h = refs.

Lemma caching_passive refs : passive quiet (caching refs).
Proof. unfold caching. eauto 12 with passive. Qed.
Hint Resolve caching_passive : passive.

Lemma exclusions_listed spec refs : excludes_listed refs (ps_force spec) (exclusions spec refs).
Proof.
  unfold excludes_listed, exclusions. destruct (ps_force spec); [by left|right]. split; [done|].
  intros sha Hsha. apply list_elem_of_fmap in Hsha as ([ref r] & -> & Hin).
  rewrite map_order_perm in Hin. apply elem_of_map_to_list in Hin. by exists ref, r.
Qed.

(** The pack that the update will rest on. *)
Definition packed_for (spec : pushSpec) (sha : string) (refs : gmap string RefInfo)
    (pack : string) (cids : list string) (h : helper) : Prop :=
  caching refs h /\ exists exclude, Packed sha exclude pack ∈ h_calls h /\
    excludes_listed refs (ps_force spec) exclude /\
    (cids = [] \/ exists r, refs !! ps_dst spec = Some r /\ cids = ri_PackURIs r /\
                   packEmpty pack = true).

Lemma cover_empty_ensures spec sha refs exclude pack :
  excludes_listed refs (ps_force spec) exclude ->
  ensures (fun h => caching refs h /\ Packed sha exclude pack ∈ h_calls h)
    (cover_empty spec sha pack (refs !! ps_dst spec))
    (fun p h => packed_for spec sha refs p.1 p.2 h).
Proof.
  intros Hex. unfold cover_empty. destruct (packEmpty pack) eqn:Hempty.
  2: { apply ensures_ret. intros h [Hc Hp]. split; [done|]. eauto. }
  destruct (refs !! ps_dst spec) as [r|] eqn:Hr.
  - apply ensures_ret. intros h [Hc Hp]. split; [done|]. exists exclude. split_and!; [done..|].
    right. by exists r.
  - skip. eapply ensures_bind; [apply (ensures_invoke _ _ (Packed sha [])); eauto 12 with passive|].
    intros full. apply ensures_ret. intros h [[Hc _] Hp]. split; [done|]. exists [].
    split_and!; [done|by left|by left].
Qed.

Lemma prepare_update_ensures spec sha :
  ensures sound_log (prepare_update w spec sha)
    (fun u h => sound_log h /\ backed (h_calls h) (ps_dst spec) sha u.1 u.2 (ps_force spec)).
Proof.
  unfold prepare_update. skip. skip.
  eapply ensures_bind; [apply ensures_gets|]. intros refs. cbv zeta. cbn beta.
  change (fun s => sound_log s /\ h_remoteRefs s = refs) with (caching refs). skip.
  eapply ensures_bind; [apply (ensures_invoke _ _ (Packed sha (exclusions spec refs)));
    eauto 12 with passive|]. intros pack. cbn beta.
  eapply ensures_bind; [apply cover_empty_ensures, exclusions_listed|].
  intros [pack' cids]. cbn [fst snd].
  eapply (ensures_bind _ (fun uris h => caching refs h /\
    backed (h_calls h) (ps_dst spec) sha uris (expected_at refs (ps_dst spec)) (ps_force spec))).
  - destruct cids as [|uri cids].
    + intros h h' uris [Hc (exclude & Hp & Hx & _)] E.
      destruct (replicate_pack_ensures (fun h => caching refs h /\ Packed sha exclude pack' ∈ h_calls h)
        spec pack' ltac:(eauto 12 with passive) h h' uris (conj Hc Hp) E)
        as [[Hc' Hp'] (cid & req & -> & Hadd & Ha & Hconf & Hpins)].
      split; [done|]. destruct Hc' as [[Ht _] Hrefs]. rewrite Hrefs in Ht. subst refs.
      split; [done|]. left. by exists exclude, pack', cid, req.
    + apply ensures_ret. intros h [Hc (exclude & Hp & Hx & [|(r & Hr & Hu & He)])]; [done|].
      split; [done|]. destruct Hc as [[Ht _] Hrefs]. rewrite Hrefs in Ht. subst refs.
      split; [done|]. right. exists r, exclude, pack'. by rewrite <- Hu.
  - intros uris. apply ensures_ret. intros h [[Hs Hrefs] Hb]. by split.
Qed.

Lemma push_commit_sound spec sha : keeps sound_log (push_commit w spec sha).
Proof.
  unfold push_commit. apply (keeps_bind_ok _ (fun u h => sound_log h /\
    backed (h_calls h) (ps_dst spec) sha u.1 u.2 (ps_force spec)));
    [eapply (keeps_prepare_update w quiet); eauto with passive|apply prepare_update_ensures|].
  intros [cids e] h Hs [_ Hb]. cbn [fst snd] in Hb.
  rewrite bind_run. cbn [progress modify]. rewrite bind_run. set (h1 := log_line _ h).
  set (update := UpdateRef _ _ _ _ _ _ _).
  assert (sound_log (invoke update [SentUpdate (ps_dst spec) sha cids e (ps_force spec)]
    (fun _ => [Updated (ps_dst spec)]) h1).1) as Hu.
  { unfold invoke, sound_log. destruct (update (h_world h1)) as [world r].
    cbn [fst h_remoteRefs h_calls]. destruct Hs as [Ht Hall]. rewrite (assoc_L (++)).
    assert (all_backed (h_calls h1 ++ [SentUpdate (ps_dst spec) sha cids e (ps_force spec)])) as Hall1.
    { apply all_backed_snoc; [done|]. by intros * [= <- <- <- <- <-]. }
    assert (Forall (fun c => quiet c = true) match r with Ok _ => [Updated (ps_dst spec)] | Err _ => [] end)
      as Hq by (destruct r; repeat constructor).
    split; [|by apply all_backed_quiet]. rewrite tips_quiet by done. unfold tips.
    by rewrite foldl_app. }
  destruct (invoke update _ _ h1) as [h2 [[]|err]]; [|done].
  eapply (keeps_collect_garbage quiet); eauto with passive.
Qed.

Lemma cmdList_sound forPush : keeps sound_log (cmdList w forPush).
Proof.
  unfold cmdList. apply keeps_bind;
    [apply keeps_wrap_error; eapply (keeps_resolveRepo w quiet); eauto with passive|].
  intros resolved. apply keeps_bind; [destruct forPush; eauto with keeps|]. intros [].
  intros h Hs. rewrite bind_run. unfold wrap_error, invoke.
  destruct (ListRefs _ _ (h_world h)) as [world [refs|e]]; cbn [wrapf].
  2: { destruct Hs as [Ht Hall]. split; cbn [fst h_remoteRefs h_calls]; by rewrite !app_nil_r. }
  rewrite bind_run. cbn [modify]. rewrite bind_run. cbn [app].
  set (h1 := set_refs empty _).
  assert (all_backed (h_calls h1) /\ tips (h_calls h1) = table refs) as [Hall Htips].
  { unfold h1. cbn [set_refs h_calls]. split; [apply all_backed_snoc; [apply Hs|done]|].
    unfold tips. by rewrite foldl_app. }
  assert (forall rs (h0 : helper), exists h2,
    for_each (fun r => known ← gets h_remoteRefs;
      modify (set_refs (<[ri_RefName r := r]> known));;
      print_line (ri_CommitSha r +:+ " " +:+ ri_RefName r)) rs h0 = (h2, Ok tt) /\
    h_calls h2 = h_calls h0 /\
    h_remoteRefs h2 = foldl (fun t r => <[ri_RefName r := r]> t) (h_remoteRefs h0) rs) as Hloop.
  { clear. induction rs as [|r rs IH]; intros h0; [by eexists|]. cbn [for_each]. rewrite bind_run.
    destruct (IH (write ((ri_CommitSha r +:+ " " +:+ ri_RefName r) +:+ str1 newline_char)
      (set_refs (<[ri_RefName r := r]> (h_remoteRefs h0)) h0))) as (h2 & Hl & Hc & Ht).
    exists h2. split_and!; [exact Hl|done|done]. }
  destruct (Hloop refs h1) as (h2 & -> & Hc & Ht).
  assert (sound_log h2) as Hs2 by (split; rewrite Hc; [by rewrite Ht, Htips|done]).
  rewrite bind_run. cbn [gets]. rewrite bind_run.
  case_decide; [done|].
  by destruct (h_remoteRefs h2 !! head_target resolved).
Qed.

Lemma scan_sound : keeps sound_log scan.
Proof. intros h Hh. unfold scan. by destruct (Scan (h_in h)). Qed.

Lemma pushOne_sound spec : keeps sound_log (pushOne w spec).
Proof.
  unfold pushOne. pose proof push_commit_sound. case_decide.
  - apply keeps_bind; [eapply (keeps_progress quiet); eauto with passive|intros _].
    eapply (keeps_invoke quiet); [eauto with passive|intros; repeat constructor..].
  - apply keeps_bind; [eapply (keeps_invoke_pure quiet); eauto with passive|intros localSha].
    case_decide; eauto with keeps.
Qed.

Lemma command_sound line : keeps sound_log (command w line).
Proof.
  unfold command, cmdFetchBatch, cmdPushBatch, push_and_report, reject_all.
  pose proof cmdList_sound. pose proof pushOne_sound.
  assert (forall t, keeps sound_log (print_line t)) by (intros t h Hh; exact Hh).
  assert (forall c first, keeps sound_log (batch c first)).
  { intros. apply keeps_batch. apply scan_sound. }
  assert (forall a b, keeps sound_log (collect_uris w a b)).
  { intros. eapply (keeps_collect_uris w quiet); eauto with passive. }
  assert (forall a b c, keeps sound_log (ingest a b c)).
  { intros. eapply (keeps_ingest quiet); eauto with passive. }
  assert (forall specs, keeps sound_log (admit_push w specs)).
  { intros. eapply (keeps_admit_push w quiet); eauto with passive. }
  keeps_cases.
Qed.

Lemma Run_sound : keeps sound_log (Run w).
Proof.
  unfold Run. apply keeps_bind; [apply keeps_gets|intros sc].
  generalize (S (String.length (sc_rest sc))) as n. intros n.
  induction n as [|n IH]; cbn [run_loop]; [apply keeps_fail|].
  pose proof scan_sound. pose proof command_sound. unfold input_error. keeps_cases.
Qed.

(** C17: every update is backed.  Whatever git asks for and whatever the outside
    world answers, when the helper sends an update of a ref to the chain, then
    either its URIs are the one of a pack of the pushed commit that was uploaded
    and for which the US service confirmed the pin, under a ticket bound to
    that CID, the ref, the pack's size and SHA-256; or the pack was empty and
    the URIs are those the chain lists for the ref.  A forced update rests on
    a pack without exclusions, any other pack leaves out listed commits only,
    and the expected commit is the listed one. *)
Theorem updates_are_backed input e world pre ref sha uris expected force post :
  h_calls (Run w (NewHelper input e world)).1 = pre ++ SentUpdate ref sha uris expected force :: post ->
  backed pre ref sha uris expected force.
Proof.
  apply (Run_sound (NewHelper input e world)). split; [done|].
  intros pre' * H. by destruct pre'.
Qed.

End Props.

(** ** repository URLs

    [ParseURL] accepts well-formed locators only, and every usual spelling of a
    locator gives that locator. *)

(** ** Trimming *)

Lemma trim_left_stop sep c s : is_char sep c = false -> trim_char_left sep (String c s) = String c s.
Proof. intros H%is_char_false. cbn [trim_char_left]. by rewrite decide_False. Qed.

Lemma trim_left_without sep a s :
  a <> ""%string -> without sep a = true -> trim_char_left sep (a +:+ s) = (a +:+ s)%string.
Proof.
  destruct a as [|c a]; [done|]. intros _. rewrite without_cons, str_cons_app.
  intros [Hc _]%andb_true_iff. apply trim_left_stop. by apply negb_true_iff.
Qed.

Lemma trim_right_without sep a s :
  a <> ""%string -> without sep a = true -> trim_char_right sep (s +:+ a) = (s +:+ a)%string.
Proof.
  intros Ha Hw. unfold trim_char_right. rewrite rev_append, trim_left_without.
  - by rewrite rev_append, !rev_involutive.
  - intros E. apply Ha. by rewrite <- (rev_involutive a), E.
  - by rewrite without_rev.
Qed.

Lemma trim_right_sep sep s : trim_char_right sep (s +:+ str1 sep) = trim_char_right sep s.
Proof.
  unfold trim_char_right. rewrite rev_append. unfold str1. rewrite rev_cons.
  change (String.rev "") with ""%string. rewrite str_nil_app, str_cons_app, str_nil_app.
  cbn [trim_char_left]. by rewrite decide_True.
Qed.

(** A prefix without the separator lies before it. *)
Lemma prefix_before sep p r t :
  without sep p = true -> HasPrefix (r +:+ String sep t) p = true -> HasPrefix r p = true.
Proof.
  unfold HasPrefix. revert r. induction p as [|a p IH]; intros r; [done|].
  rewrite without_cons. intros [Ha Hp]%andb_true_iff. destruct r as [|b r].
  - rewrite str_nil_app. cbn [cut_prefix]. case_decide as E; [|done]. subst.
    by rewrite (proj2 (is_char_spec sep sep) eq_refl) in Ha.
  - rewrite str_cons_app. cbn [cut_prefix]. case_decide; [|done]. by apply IH.
Qed.

Lemma HasSuffix_rev s p : HasSuffix s p = HasPrefix (String.rev s) (String.rev p).
Proof. unfold HasSuffix, HasPrefix, cut_suffix. by destruct (cut_prefix _ _). Qed.

Lemma suffix_after sep p r t :
  without sep p = true -> HasSuffix (t +:+ String sep r) p = true -> HasSuffix r p = true.
Proof.
  intros Hp. rewrite !HasSuffix_rev, rev_append, rev_cons, str_app_assoc, str_cons_app.
  apply prefix_before. by rewrite without_rev.
Qed.

Lemma TrimSuffix_app r p : TrimSuffix (r +:+ p) p = r.
Proof. unfold TrimSuffix. by rewrite (proj2 (cut_suffix_spec p _ r) eq_refl). Qed.

Lemma TrimSuffix_none s p : HasSuffix s p = false -> TrimSuffix s p = s.
Proof. unfold HasSuffix, TrimSuffix. by destruct (cut_suffix p s). Qed.

Section URL.
Context {EN : Environment}.

(** Owner and name as they may stand in a URL. *)
Record valid_locator (owner repo : string) : Prop := {
  vl_owner : HasPrefix owner "inj1" = true \/ ValidUsername owner = true;
  vl_repo : repo <> ""%string;
  vl_owner_slash : without "/" owner = true;
  vl_repo_slash : without "/" repo = true;
}.

Lemma valid_owner_nonempty owner :
  HasPrefix owner "inj1" = true \/ ValidUsername owner = true -> owner <> ""%string.
Proof. by intros [H|H] ->. Qed.

(** How a locator is spelled: two schemes, with or without [.git] and [/]. *)
Definition spellings (owner repo : string) : list string :=
  let path := owner +:+ "/" +:+ repo in
  scheme ← ["igit://"; "igit::"]%string;
  suffix ← [""; "/"; ".git"; ".git/"]%string;
  [(scheme +:+ path +:+ suffix)%string].

Lemma trim_scheme_canonical s : trim_scheme ("igit://" +:+ s) = s.
Proof. unfold trim_scheme. by rewrite HasPrefix_app, TrimPrefix_app. Qed.

Lemma trim_scheme_transport s : trim_scheme ("igit::" +:+ s) = s.
Proof.
  unfold trim_scheme. change (HasPrefix ("igit::" +:+ s) "igit://") with false. cbn iota.
  by rewrite HasPrefix_app, TrimPrefix_app.
Qed.

Lemma trim_path owner repo suffix :
  valid_locator owner repo -> HasSuffix repo ".git" = false ->
  suffix ∈ [""; "/"; ".git"; ".git/"]%string ->
  TrimSuffix (Trim ((owner +:+ "/" +:+ repo) +:+ suffix) "/") ".git" = (owner +:+ "/" +:+ repo)%string.
Proof.
  intros [Ho Hr Hos Hrs] Hg Hs. apply valid_owner_nonempty in Ho. unfold Trim.
  rewrite str_app_assoc, trim_left_without, <- str_app_assoc by done.
  assert (forall s, (owner +:+ "/" +:+ s = (owner +:+ "/") +:+ s)%string) as Hassoc
    by (intros; by rewrite str_app_assoc).
  assert (HasSuffix (owner +:+ "/" +:+ repo) ".git" = false) as Hno.
  { apply not_true_iff_false. intros H. apply (suffix_after "/") in H; [congruence|done]. }
  assert (repo +:+ ".git" <> ""%string) as Hrg by (by destruct repo).
  assert (without "/" (repo +:+ ".git") = true) as Hwg by (by rewrite without_app, Hrs).
  assert (trim_char_right "/" (owner +:+ "/" +:+ repo) = (owner +:+ "/" +:+ repo)%string) as H1.
  { rewrite Hassoc. by apply trim_right_without. }
  assert (trim_char_right "/" ((owner +:+ "/" +:+ repo) +:+ ".git") =
    ((owner +:+ "/" +:+ repo) +:+ ".git")%string) as H2.
  { rewrite !str_app_assoc, Hassoc. by apply trim_right_without. }
  repeat (apply elem_of_cons in Hs as [-> |Hs]); [..|by inversion Hs].
  - by rewrite str_app_nil, H1, TrimSuffix_none.
  - change "/"%string with (str1 "/") at 3. by rewrite trim_right_sep, H1, TrimSuffix_none.
  - by rewrite H2, TrimSuffix_app.
  - change ".git/"%string with (".git" +:+ str1 "/")%string.
    by rewrite <- str_app_assoc, trim_right_sep, H2, TrimSuffix_app.
Qed.

(** URLs and locators correspond.  [ParseURL] only ever returns a locator
    whose owner is an address or a valid username and whose name is not empty,
    neither of them with a slash; and it returns exactly the locator for each
    of its eight usual spellings, among them the canonical URL, provided the
    name does not end in [.git]. *)
Theorem parse_url_exact owner repo raw :
  (ParseURL raw = Ok (mk_RepoURL owner repo) -> valid_locator owner repo) /\
  (valid_locator owner repo -> HasSuffix repo ".git" = false ->
   raw ∈ CanonicalURL owner repo :: spellings owner repo ->
   ParseURL raw = Ok (mk_RepoURL owner repo)).
Proof.
  split.
  - unfold ParseURL. intros H.
    pose proof (Split_parts_without (TrimSuffix (Trim (trim_scheme raw) "/") ".git") "/") as Hw.
    destruct (Split _ _) as [|o [|r [|]]]; try done.
    apply guard_ok in H as [Hne H]. apply guard_ok in H as [Hval H]. injection H as -> ->.
    apply orb_false_iff in Hne as [_ Hr]. apply bool_decide_eq_false in Hr.
    apply Forall_cons_1 in Hw as [Ho Hw]. apply Forall_cons_1 in Hw as [Hrs _].
    split; [|done..]. apply andb_false_iff in Hval. rewrite !negb_false_iff in Hval. tauto.
  - intros Hv Hg Hraw.
    assert (exists suffix, suffix ∈ [""; "/"; ".git"; ".git/"]%string /\
      trim_scheme raw = ((owner +:+ "/" +:+ repo) +:+ suffix)%string) as (suffix & Hs & Ht).
    { apply elem_of_cons in Hraw as [->|Hraw].
      - exists ""%string. split; [left|]. unfold CanonicalURL.
        by rewrite trim_scheme_canonical, str_app_nil.
      - unfold spellings in Hraw. apply list_elem_of_bind in Hraw as (scheme & Hraw & Hsch).
        apply list_elem_of_bind in Hraw as (suffix & Hraw & Hsuf).
        apply list_elem_of_singleton in Hraw as ->. exists suffix. split; [done|].
        repeat (apply elem_of_cons in Hsch as [-> |Hsch]); [..|by inversion Hsch];
          [apply trim_scheme_canonical|apply trim_scheme_transport]. }
    unfold ParseURL. rewrite Ht, trim_path by done. pose proof Hv as [Ho Hr Hos Hrs].
    rewrite str_cons_app, str_nil_app, Split_app, Split_without by done.
    apply valid_owner_nonempty in Ho as Hne.
    rewrite !bool_decide_eq_false_2 by done. cbn [orb].
    destruct Ho as [-> | ->]; cbn [negb andb]; [done|]. by rewrite andb_false_r.
Qed.

End URL.

#[local] Instance plain_english : Environment := { Getenv _ := ""%string }.

Lemma demo_locator : valid_locator "alice" "project".
Proof. split; [by right|discriminate|reflexivity|reflexivity]. Qed.

Lemma parse_url_exact_witness :
  ParseURL "igit::alice/project.git/" = Ok (mk_RepoURL "alice" "project").
Proof.
  apply (proj2 (parse_url_exact "alice" "project" "igit::alice/project.git/") demo_locator);
    [reflexivity|]. vm_compute. do 8 right. left.
Defined.
