(* ===== verification/RemoteDemo.v ===== *)
(** * RemoteDemo: sessions of the remote helper

    A concrete git with four commits, sessions of the helper run on their
    input text, what goes wrong when refs share history, and the witnesses of
    [RemoteProps] and [CloneProps]. *)
From Stdlib Require Import ZArith Lia Ascii String.
From stdpp Require Import base list gmap strings option.
From S2P Require Import Prelude GoText Prog GoIo I18n Replicationd ChainTypes Remote RemoteSpec RefTable GitWorld CloneProps RemoteProps.

Local Open Scope Z_scope.

(** ** Four commits: B is a child of A and D of B, C is unrelated.  The files of D
    are stored as deltas against those of B where a pack may do so. *)

Definition sha_a : string := repeat_char "a" 40.
Definition sha_b : string := repeat_char "b" 40.
Definition sha_c : string := repeat_char "c" 40.
Definition sha_d : string := repeat_char "d" 40.

Definition commits : list string := [sha_a; sha_b; sha_c; sha_d].

Definition demo_reach (c : string) : gset string :=
  if decide (c = sha_a) then {[sha_a]}
  else if decide (c = sha_b) then {[sha_a; sha_b]}
  else if decide (c = sha_c) then {[sha_c]}
  else if decide (c = sha_d) then {[sha_a; sha_b; sha_d]} else empty.

Definition demo_bases (objects candidates : gset string) : gset string :=
  if decide (sha_d ∈ objects /\ sha_b ∈ candidates) then {[sha_b]} else empty.

(** A pack: header, version, object count and a mark for each commit, first as
    an object and then as a base. *)
Definition pack_header : string := "PACK0002" +:+ bytes_string (be_bytes 3 0).
Definition mark (b : bool) : string := if b then "1" else "0".
Definition layout (a b c d a' b' c' d' : bool) : string :=
  pack_header +:+
  bytes_string (be_bytes 1 (Z.of_nat (length (List.filter (fun b => b) [a; b; c; d])))) +:+
  mark a +:+ mark b +:+ mark c +:+ mark d +:+ mark a' +:+ mark b' +:+ mark c' +:+ mark d'.
Definition demo_pack (c : contents) : string :=
  let o x := bool_decide (x ∈ pk_objects c) in
  let b x := bool_decide (x ∈ pk_bases c) in
  layout (o sha_a) (o sha_b) (o sha_c) (o sha_d) (b sha_a) (b sha_b) (b sha_c) (b sha_d).

Definition flagged (a b c d : bool) : gset string :=
  (if a then {[sha_a]} else empty) ∪ (if b then {[sha_b]} else empty) ∪
  (if c then {[sha_c]} else empty) ∪ (if d then {[sha_d]} else empty).
Definition marked (i : nat) (pack : string) : bool :=
  bool_decide (String.substring (12 + i) 1 pack = "1"%string).
Definition demo_parse (pack : string) : option contents :=
  if HasPrefix pack "PACK" then
    let m i := marked i pack in
    Some (mk_contents (flagged (m 0%nat) (m 1%nat) (m 2%nat) (m 3%nat))
                      (flagged (m 4%nat) (m 5%nat) (m 6%nat) (m 7%nat)))
  else None.

#[export] Instance demo_git : GitModel := {
  universe := {[sha_a; sha_b; sha_c; sha_d]};
  reach := demo_reach;
  delta_bases := demo_bases;
  pack_of := demo_pack;
  parse_pack := demo_parse;
  cid_of pack := "Qm" +:+ hex_encode (string_bytes pack);
}.

Definition flags (s : gset string) : gset string :=
  flagged (bool_decide (sha_a ∈ s)) (bool_decide (sha_b ∈ s)) (bool_decide (sha_c ∈ s))
    (bool_decide (sha_d ∈ s)).

Lemma demo_flags (s : gset string) : s ⊆ universe -> flags s = s.
Proof.
  intros Hs. cbn [universe demo_git] in Hs. unfold flags, flagged. apply set_eq. intros o.
  rewrite !elem_of_union. split.
  - intros [[[Ho|Ho]|Ho]|Ho]; case_bool_decide; set_solver.
  - intros Ho. pose proof (Hs o Ho) as Hu. rewrite !elem_of_union, !elem_of_singleton in Hu.
    destruct Hu as [[[-> | ->]| ->]| ->]; rewrite (bool_decide_eq_true_2 _ Ho); set_solver.
Qed.

Lemma marked_layout a b c d a' b' c' d' :
  (fun i => marked i (layout a b c d a' b' c' d')) <$> seq 0 8 = [a; b; c; d; a'; b'; c'; d'].
Proof. destruct a, b, c, d, a', b', c', d'; vm_compute; reflexivity. Qed.

Lemma packEmpty_layout a b c d a' b' c' d' :
  packEmpty (layout a b c d a' b' c' d') = negb (a || b || c || d).
Proof. destruct a, b, c, d, a', b', c', d'; vm_compute; reflexivity. Qed.

Lemma parse_layout a b c d a' b' c' d' :
  demo_parse (layout a b c d a' b' c' d') =
    Some (mk_contents (flagged a b c d) (flagged a' b' c' d')).
Proof.
  pose proof (marked_layout a b c d a' b' c' d') as H. unfold demo_parse.
  change (HasPrefix (layout a b c d a' b' c' d') "PACK") with true.
  cbn [seq fmap list_fmap map] in H. injection H as H0 H1 H2 H3 H4 H5 H6 H7.
  cbv beta iota zeta. by rewrite H0, H1, H2, H3, H4, H5, H6, H7.
Qed.

Lemma flagged_empty a b c d : bool_decide (flagged a b c d = empty) = negb (a || b || c || d).
Proof. destruct a, b, c, d; vm_compute; reflexivity. Qed.

#[export] Instance demo_laws : GitModelLaws.
Proof.
  split.
  - intros c. cbn [reach universe demo_git]. unfold demo_reach. repeat case_decide; set_solver.
  - intros c. cbn [reach universe demo_git]. rewrite !elem_of_union, !elem_of_singleton.
    intros [[[->| ->]| ->]| ->]; apply (bool_decide_unpack _); vm_compute; exact I.
  - intros objects candidates. cbn [delta_bases demo_git]. unfold demo_bases.
    case_decide; set_solver.
  - intros [objects bases] Ho Hb. cbn [parse_pack pack_of demo_git pk_objects pk_bases] in *.
    unfold demo_pack. rewrite parse_layout. cbn [pk_objects pk_bases].
    fold (flags objects) (flags bases). by rewrite !demo_flags.
  - intros c Ho. cbn [pack_of demo_git]. unfold demo_pack. rewrite packEmpty_layout.
    rewrite <- flagged_empty. fold (flags (pk_objects c)). by rewrite demo_flags.
  - intros a b H. cbn [cid_of demo_git] in H.
    assert (hex_encode (string_bytes a) = hex_encode (string_bytes b)) as H' by (by injection H).
    by apply (inj hex_encode), string_bytes_inj in H'.
Qed.

(** ** Sessions *)

#[local] Instance english : Environment := { Getenv _ := ""%string }.

Definition wired : wiring (W := world) :=
  mk_wiring (mk_RepoURL "inj1alice" "project") ["/dns4/us.example/tcp/4001/p2p/Peer"] true None.

Definition session (script : string) (x : world) : helper (W := world) * result unit :=
  Run wired (NewHelper script EndOfFile x).

Definition after (script : string) (x : world) : world := h_world (session script x).1.
Definition output (script : string) (x : world) : string := h_out (session script x).1.

Definition push_script (refspec : string) : string :=
  unlines ["list for-push"; "push " +:+ refspec; ""]%string.

(** Alice has all four commits; nothing is on the chain yet. *)
Definition alice : world :=
  mk_world no_refs empty universe
    (<["main" := sha_a]> (<["feature" := sha_b]> (<["next" := sha_d]> {["other" := sha_c]})))%string
    1700000000000000000 [].

(** Someone else, with an empty repository. *)
Definition newcomer (x : world) : world := set_objects empty x.

Definition pushed_main : world := after (push_script "main:refs/heads/main") alice.
Definition pushed_feature : world := after (push_script "feature:refs/heads/feature") pushed_main.
Definition forced_main : world := after (push_script "+other:refs/heads/main") pushed_feature.

Definition advanced_main : world := after (push_script "next:refs/heads/main") pushed_feature.

Definition fetch_script (wanted : list (string * string)) : string :=
  unlines ("list"%string :: map (fun p => "fetch " +:+ p.1 +:+ " " +:+ p.2) wanted ++ [""; ""]%string).
Definition clone (wanted : list (string * string)) (x : world) : helper (W := world) * result unit :=
  session (fetch_script wanted) (newcomer x).

(** ** What goes wrong *)

#[local] Instance in_order_dec store have uris : Decision (in_order store have uris).
Proof.
  revert have. induction uris as [|u uris IH]; intros have; cbn [in_order]; [apply _|].
  destruct (uri_contents store u); apply _.
Defined.
#[local] Instance clone_ordered_dec x : Decision (clone_ordered x).
Proof. unfold clone_ordered. apply _. Defined.

Lemma err_containing {A} (r : result A) text :
  (match r with Err e => Contains (Error e) text | Ok _ => false end) = true ->
  exists e, r = Err e /\ Contains (Error e) text = true.
Proof. destruct r as [|e]; [done|]. by exists e. Qed.

Definition ok_feature : string :=
  unlines [sha_a +:+ " refs/heads/main"; "@refs/heads/main HEAD"; ""; "ok refs/heads/feature"; ""]%string.

(** A branch alone cannot be fetched.  Two ordinary pushes succeed, first
    of [main] and then of [feature], whose commit has the one of [main] as its
    parent.  A fetch of [feature] into an empty repository then reports
    success and lacks the parent: the pack of [feature] leaves out what [main]
    reaches, and only the packs of [feature] are downloaded. *)
Theorem single_branch_fetch_incomplete :
  output (push_script "feature:refs/heads/feature") pushed_main = ok_feature /\
  (commitSha <$> refs (wd_table pushed_feature) !! "refs/heads/feature"%string) = Some sha_b /\
  (clone [(sha_b, "refs/heads/feature"%string)] pushed_feature).2 = Ok tt /\
  sha_a ∈ reach sha_b /\
  sha_b ∈ wd_objects (h_world (clone [(sha_b, "refs/heads/feature"%string)] pushed_feature).1) /\
  sha_a ∉ wd_objects (h_world (clone [(sha_b, "refs/heads/feature"%string)] pushed_feature).1).
Proof.
  split_and!; try (vm_compute; reflexivity); apply (bool_decide_unpack _); vm_compute; exact I.
Qed.

(** a forced push strands other branches.  After the two pushes a clone is
    complete; a forced push of an unrelated commit to [main] succeeds, replaces
    the URIs of [main], and from then on a clone of all refs reports success
    and lacks the parent of [feature]. *)
Theorem forced_push_strands_branch :
  let everything := [(sha_c, "refs/heads/main"); (sha_b, "refs/heads/feature")]%string in
  clone_complete pushed_feature /\
  (session (push_script "+other:refs/heads/main") pushed_feature).2 = Ok tt /\
  ~ clone_complete forced_main /\
  (clone everything forced_main).2 = Ok tt /\
  sha_b ∈ wd_objects (h_world (clone everything forced_main).1) /\
  sha_a ∉ wd_objects (h_world (clone everything forced_main).1).
Proof.
  split_and!; try (vm_compute; reflexivity);
    apply (bool_decide_unpack _); vm_compute; exact I.
Qed.

Definition ok_main : string :=
  unlines [sha_a +:+ " refs/heads/main"; sha_b +:+ " refs/heads/feature"; "@refs/heads/main HEAD"; "";
           "ok refs/heads/main"; ""]%string.

(** Pushes that alternate between two branches block every clone.  After the two
    pushes a third ordinary one moves [main] to a child of [feature].  Its pack
    is thin: a delta needs an object that only the pack of [feature] has.  The
    packs of [main] are listed before, so a clone that fetches the listed refs
    stops at this pack with an error and never downloads the one of [feature],
    though the packs together have the whole history. *)
Theorem alternating_pushes_block_clone :
  let listed := [(sha_d, "refs/heads/main"); (sha_b, "refs/heads/feature")]%string in
  clone_ordered pushed_feature /\
  output (push_script "next:refs/heads/main") pushed_feature = ok_main /\
  clone_complete advanced_main /\ ~ clone_ordered advanced_main /\
  (exists e, (clone listed advanced_main).2 = Err e /\
             Contains (Error e) "unresolved deltas" = true) /\
  sha_b ∉ wd_objects (h_world (clone listed advanced_main).1) /\
  sha_d ∉ wd_objects (h_world (clone listed advanced_main).1).
Proof.
  split_and!; try (vm_compute; reflexivity).
  - apply (bool_decide_unpack _); vm_compute; exact I.
  - apply (bool_decide_unpack _); vm_compute; exact I.
  - apply (bool_decide_unpack _); vm_compute; exact I.
  - apply err_containing. vm_compute. reflexivity.
  - apply (bool_decide_unpack _); vm_compute; exact I.
  - apply (bool_decide_unpack _); vm_compute; exact I.
Qed.

(** ** Witnesses *)

Definition push_line : string := "push main:refs/heads/main".
Definition blank_input : string := str1 newline_char.
Definition pusher (x : world) : helper (W := world) := NewHelper blank_input EndOfFile x.

Lemma pair_eta {A B} (x : A * B) : x = (x.1, x.2).
Proof. by destruct x. Qed.

Lemma push_reports_every_ref_witness :
  no_newline push_line = true /\
  exists results : list (result unit), length results = 1%nat /\
    h_out (cmdPushBatch wired push_line (pusher alice)).1 =
      printed (reports [parsePushSpec push_line] results ++ [""%string]).
Proof.
  split; [reflexivity|].
  destruct (push_reports_every_ref wired push_line (pusher alice) _ _ eq_refl
    (pair_eta (cmdPushBatch wired push_line (pusher alice))))
    as (h1 & lines & results & new & Hb & _ & Hn & Ho & _).
  assert (lines = [push_line]) as Hl.
  { change lines with (match Ok (A := list string) lines with Ok l => l | Err _ => [] end).
    pose proof (f_equal snd Hb) as Hs. cbn [snd] in Hs. rewrite <- Hs. vm_compute. reflexivity. }
  subst lines. exists results. split; [exact Hn|exact Ho].
Defined.

Definition demo_log : list call := h_calls (session (push_script "main:refs/heads/main") alice).1.
Definition demo_uri : string := "ipfs://Qm5041434b30303032000000013130303030303030".

Lemma demo_log_split :
  demo_log = take 5 demo_log ++
    SentUpdate "refs/heads/main" sha_a [demo_uri] "" false :: drop 6 demo_log.
Proof. vm_compute. reflexivity. Qed.

Lemma updates_are_backed_witness :
  backed (take 5 demo_log) "refs/heads/main" sha_a [demo_uri] "" false.
Proof.
  exact (updates_are_backed wired (push_script "main:refs/heads/main") EndOfFile alice _ _ _ _ _ _ _
    demo_log_split).
Defined.

(** A helper that has just listed the refs. *)
Definition listing (x : world) : helper (W := world) :=
  set_refs (table (list_refs (wd_table x))) (NewHelper "" EndOfFile x).

Lemma cached_imap R t :
  R = map_imap (fun n r => Some (ref_info n r)) (refs t) -> cached R t.
Proof. intros -> n. rewrite map_lookup_imap. by destruct (refs t !! n). Qed.

Lemma pushed_main_store : store_ok pushed_main.
Proof.
  apply (bool_decide_unpack _). vm_compute. exact I.
Qed.

Lemma pushed_main_complete : clone_complete pushed_main.
Proof.
  apply (bool_decide_unpack _). vm_compute. exact I.
Qed.

Lemma names_ok_check (t : ref_table) :
  NoDup (refNames t) -> dom (refs t) = list_to_set (refNames t) -> names_ok t.
Proof.
  intros Hnd Hdom. split; [done|]. intros n. rewrite <- elem_of_dom, Hdom. set_solver.
Qed.

Lemma pushed_main_names : names_ok (wd_table pushed_main).
Proof. apply names_ok_check; apply (bool_decide_unpack _); vm_compute; exact I. Qed.

Lemma pushed_main_ordered : clone_ordered pushed_main.
Proof. apply (bool_decide_unpack _). vm_compute. exact I. Qed.

Definition feature_spec : pushSpec := parsePushSpec "push feature:refs/heads/feature".

Lemma push_keeps_clone_complete_witness :
  clone_complete (h_world (pushOne wired feature_spec (listing pushed_main)).1) /\
  clone_ordered (h_world (pushOne wired feature_spec (listing pushed_main)).1).
Proof.
  destruct (push_keeps_clone_complete wired feature_spec (listing pushed_main)
    _ _ ltac:(discriminate) eq_refl ltac:(apply cached_imap; vm_compute; reflexivity)
    pushed_main_store pushed_main_complete (pair_eta _)) as [Hc Ho].
  split; [exact Hc|]. destruct (Ho pushed_main_names) as [_ Hl].
  apply Hl; [left; vm_compute; reflexivity|exact pushed_main_ordered].
Defined.

Definition fetch_lines : list string :=
  ["fetch " +:+ sha_a +:+ " refs/heads/main"; "fetch " +:+ sha_b +:+ " refs/heads/feature"]%string.
Definition fetcher : helper (W := world) :=
  set_in (NewScanner (unlines (tail fetch_lines ++ [""%string])) EndOfFile maxToken)
    (listing (newcomer pushed_feature)).

Lemma fetcher_ordered : clone_ordered (h_world fetcher).
Proof. apply (bool_decide_unpack _). vm_compute. exact I. Qed.

Lemma fetcher_complete : clone_complete (h_world fetcher).
Proof. apply (bool_decide_unpack _). vm_compute. exact I. Qed.

Lemma fetcher_names : names_ok (wd_table (h_world fetcher)).
Proof. apply names_ok_check; apply (bool_decide_unpack _); vm_compute; exact I. Qed.

Lemma fetcher_asks : Forall2 asks_for fetch_lines (refNames (wd_table (h_world fetcher))).
Proof.
  assert (refNames (wd_table (h_world fetcher)) = ["refs/heads/main"; "refs/heads/feature"]%string)
    as -> by (vm_compute; reflexivity).
  repeat constructor; eexists _, _; vm_compute; reflexivity.
Qed.

Lemma snd_pair {A B} (x : A * B) b : x.2 = b -> x = (x.1, b).
Proof. by intros <-; destruct x. Qed.

Lemma fetcher_batch : (batch "fetch " (hd ""%string fetch_lines) fetcher).2 = Ok fetch_lines.
Proof. vm_compute. reflexivity. Qed.

Lemma clone_obtains_history_witness :
  exists h', cmdFetchBatch wired (hd ""%string fetch_lines) fetcher = (h', Ok tt) /\
    forall n r, refs (wd_table (h_world fetcher)) !! n = Some r ->
      reach (commitSha r) ⊆ wd_objects (h_world h').
Proof.
  exact (clone_obtains_history wired (hd ""%string fetch_lines) fetcher
    _ fetch_lines (snd_pair _ _ fetcher_batch) fetcher_asks
    ltac:(apply cached_imap; vm_compute; reflexivity) fetcher_names eq_refl
    fetcher_ordered fetcher_complete).
Defined.
