(* ===== verification/Ipfs.v ===== *)
(** * The IPFS client

    [internal/ipfs/client.go] and [gateway.go]: temporary uploads to a local
    Kubo daemon and downloads from read-only gateways, over the network of
    [GoIo.Transport]; and the choice of gateways by their health probes. *)
From Stdlib Require Import ZArith Lia Ascii String Sorted.
From stdpp Require Import base list strings option.
From S2P Require Import Prelude GoText Prog GoIo Json Remote.

Local Open Scope Z_scope.

(** ** The client *)

Record ipfs_client := mk_ipfs_client {
  ic_apiURL : string;
  ic_gatewayURLs : list string;
}.

(** [seen] of the source holds exactly the URLs kept so far. *)
Definition add_gateway (urls : list string) (gatewayURL : string) : list string :=
  let gatewayURL := TrimRight (TrimSpace gatewayURL) "/" in
  if decide (gatewayURL = ""%string) then urls
  else if decide (gatewayURL ∈ urls) then urls
  else urls ++ [gatewayURL].

Definition NewWithGateways (apiURL : string) (gatewayURLs : list string) : ipfs_client :=
  mk_ipfs_client (TrimRight apiURL "/") (foldl add_gateway [] gatewayURLs).

Definition New (apiURL gatewayURL : string) : ipfs_client := NewWithGateways apiURL [gatewayURL].

(** [multipart.Writer]: one form file, between boundaries. *)
Definition crlf : string := String (ascii_of_N 13) (String (ascii_of_N 10) "").
Definition quote_mark : ascii := ascii_of_N 34.
Fixpoint escapeQuotes (s : string) : string :=
  match s with
  | EmptyString => ""
  | String c s' =>
      if is_char "\" c || is_char quote_mark c then String "\" (String c (escapeQuotes s'))
      else String c (escapeQuotes s')
  end.
Definition quoted (s : string) : string :=
  String quote_mark (escapeQuotes s +:+ str1 quote_mark).
Definition form_file (boundary name content : string) : string :=
  "--" +:+ boundary +:+ crlf +:+
  "Content-Disposition: form-data; name=" +:+ quoted "file" +:+ "; filename=" +:+ quoted name +:+ crlf +:+
  "Content-Type: application/octet-stream" +:+ crlf +:+ crlf +:+
  content +:+ crlf +:+ "--" +:+ boundary +:+ "--" +:+ crlf.

Section Client.
Context {TR : Transport}.
Variable c : ipfs_client.

Definition status_ok (resp : response) : bool := re_status resp =? 200.

(** [http.NewRequest] and [http.Client.Do] *)
Definition send (m : message) : prog net response := fun n =>
  match new_request (msg_url m) with
  | Err e => (n, Err e)
  | Ok _ => http_do m n
  end.

(** [send] with the error of [Do], but not that of [NewRequest], wrapped. *)
Definition send_wrapped (format : string) (args : list garg) (m : message) : prog net response := fun n =>
  match new_request (msg_url m) with
  | Err e => (n, Err e)
  | Ok _ => let '(n', r) := http_do m n in (n', wrapf format args r)
  end.

Definition decode_add (resp : response) : result string :=
  let? (v, _) := Decode (re_body resp) in
  let? ms := struct_members v in
  let? hash := string_field "Hash" "" ms in
  let? _ := string_field "Name" "" ms in
  let? _ := string_field "Size" "" ms in
  Ok hash.

(** [AddTemporary]; [boundary] is what the multipart writer drew. *)
Definition AddTemporary (boundary name content : string) : prog net string :=
  if decide (ic_apiURL c = ""%string) then
    fail (Errorf "local Kubo is not configured; install and start Kubo for temporary push uploads (clone/fetch do not require it)" [])
  else
    resp ← send_wrapped "temporary ipfs add: %w (install/start local Kubo at %s; clone/fetch do not require it)"
             [GStr (ic_apiURL c)]
             (mk_message "POST" (ic_apiURL c +:+ "/api/v0/add?pin=false&cid-version=1") ""
                (form_file boundary name content));
    if negb (status_ok resp) then
      fail (Errorf "ipfs add: HTTP %d: %s" [GInt (re_status resp); GStr (read_some 4096 resp)])
    else
      hash ← of_result (wrapf "ipfs add: decode response: %w" [] (decode_add resp));
      if decide (hash = ""%string) then fail (Errorf "ipfs add: empty CID in response" [])
      else mret hash.

Definition gateway_message (cid gatewayURL : string) : message :=
  mk_message "GET" (gatewayURL +:+ "/ipfs/" +:+ PathEscape cid) "" "".

(** The loop over the gateways; [errors] are those of the earlier ones. *)
Fixpoint try_gateways (cid : string) (urls errors : list string) : prog net response :=
  match urls with
  | [] => fail (Errorf "gateway GET /ipfs/%s failed: %s" [GStr cid; GStr (Join errors "; ")])
  | url :: urls' =>
      r ← attempt (send (gateway_message cid url));
      match r with
      | Err e => try_gateways cid urls' (errors ++ [url +:+ ": " +:+ Error e])
      | Ok resp =>
          if status_ok resp then mret resp
          else try_gateways cid urls'
                 (errors ++ [url +:+ ": HTTP " +:+ FormatInt (re_status resp)])
      end
  end.

Definition GetFromGateways (cid : string) : prog net response :=
  match ic_gatewayURLs c with
  | [] => fail (Errorf "no read gateways configured for %s" [GStr cid])
  | urls => try_gateways cid urls []
  end.

Definition GC : prog net unit :=
  if decide (ic_apiURL c = ""%string) then mret tt
  else
    resp ← send_wrapped "ipfs gc: %w" [] (mk_message "POST" (ic_apiURL c +:+ "/api/v0/repo/gc") "" "");
    if negb (status_ok resp) then
      fail (Errorf "ipfs gc: HTTP %d: %s" [GInt (re_status resp); GStr (read_some 4096 resp)])
    else mret tt.

Definition SwarmConnect (multiaddr : string) : prog net unit :=
  resp ← send_wrapped "swarm connect: %w" []
    (mk_message "POST" (ic_apiURL c +:+ "/api/v0/swarm/connect?arg=" +:+ QueryEscape multiaddr) "" "");
  if negb (status_ok resp) then
    fail (Errorf "swarm connect: HTTP %d: %s" [GInt (re_status resp); GStr (read_some 512 resp)])
  else mret tt.

(** The client as the remote helper sees it. *)
Definition ipfs_backend (boundary : string) : IpfsClient net := {|
  Remote.AddTemporary name content := AddTemporary boundary name content;
  Remote.GetFromGateways := GetFromGateways;
  Remote.SwarmConnect := SwarmConnect;
  Remote.GC := GC;
|}.

End Client.

(** ** Choosing gateways *)

Record Gateway := mk_Gateway { gw_Name : string; gw_URL : string }.

Record GatewayHealth := mk_GatewayHealth {
  gh_Gateway : Gateway;
  gh_Latency : Z;
  gh_Err : option goerror;
}.

(** What a probe measured: nothing if the request could not be built, else the
    latency and the outcome of the request. *)
Definition probe : Type := result (Z * result response).

Definition health (gateway : Gateway) (p : probe) : GatewayHealth :=
  match p with
  | Err e => mk_GatewayHealth gateway 0 (Some e)
  | Ok (latency, Err e) => mk_GatewayHealth gateway latency (Some e)
  | Ok (latency, Ok resp) =>
      mk_GatewayHealth gateway latency
        (if success_status (re_status resp) then None
         else Some (Errorf "HTTP %d" [GInt (re_status resp)]))
  end.

Definition health_endpoint (gateway : Gateway) : string := TrimRight (gw_URL gateway) "/" +:+ "/healthz".

(** [ProbeGateways]: the probes run concurrently, each writes its own slot. *)
Definition ProbeGateways (measure : string -> probe) (gateways : list Gateway) : list GatewayHealth :=
  map (fun g => health g (measure (health_endpoint g))) gateways.

Definition healthy (h : GatewayHealth) : bool := bool_decide (gh_Err h = None).

Definition faster (a b : GatewayHealth) : bool := gh_Latency a <? gh_Latency b.

(** [sort.SliceStable], as a stable insertion: an element goes behind the ones
    that are less than it and before those that tie with it. *)
Fixpoint insert_stable {A} (less : A -> A -> bool) (x : A) (l : list A) : list A :=
  match l with
  | [] => [x]
  | y :: l' => if less y x then y :: insert_stable less x l' else x :: l
  end.

Definition stable_sort {A} (less : A -> A -> bool) (l : list A) : list A :=
  foldr (insert_stable less) [] l.

Definition SelectGateways (measure : string -> probe) (gateways : list Gateway)
  : list Gateway * list GatewayHealth :=
  let hs := ProbeGateways measure gateways in
  match List.filter healthy hs with
  | [] => (gateways, hs)
  | selected => (map gh_Gateway (stable_sort faster selected), hs)
  end.

(** ** downloads and gateway selection

    One working gateway is enough for a download, and the selection keeps
    exactly the healthy gateways, fastest first. *)

Section Download.
Context {TR : Transport}.
Variable c : ipfs_client.

(** A gateway that serves a CID in every state of the network. *)
Definition serves (cid url : string) : Prop :=
  forall n, exists n' resp, send (gateway_message cid url) n = (n', Ok resp) /\ re_status resp = 200.

Lemma try_gateways_serves cid urls errors n :
  Exists (serves cid) urls ->
  exists n' resp, try_gateways cid urls errors n = (n', Ok resp) /\ re_status resp = 200.
Proof.
  intros He. revert errors n. induction urls as [|url urls IH]; intros errors n; [by inversion He|].
  cbn [try_gateways]. rewrite bind_run. unfold attempt.
  destruct (send (gateway_message cid url) n) as [n1 [resp|e]] eqn:Es.
  - destruct (status_ok resp) eqn:Eok; [do 2 eexists; split; [done|by apply Z.eqb_eq]|].
    apply IH. inversion He as [? ? Hs|]; subst; [|done]. destruct (Hs n) as (? & ? & E & H200).
    rewrite Es in E. injection E as <- <-. unfold status_ok in Eok. by rewrite H200 in Eok.
  - apply IH. inversion He as [? ? Hs|]; subst; [|done]. destruct (Hs n) as (? & ? & E & _).
    by rewrite Es in E.
Qed.

Lemma try_gateways_first cid urls errors n n' resp :
  try_gateways cid urls errors n = (n', Ok resp) ->
  exists before url after n1, urls = before ++ url :: after /\
    send (gateway_message cid url) n1 = (n', Ok resp) /\ re_status resp = 200 /\
    Forall (fun u => ~ serves cid u) before.
Proof.
  revert errors n. induction urls as [|url urls IH]; intros errors n; [done|].
  cbn [try_gateways]. rewrite bind_run. unfold attempt.
  destruct (send (gateway_message cid url) n) as [n1 [r|e]] eqn:Es.
  - destruct (status_ok r) eqn:Eok.
    + intros [= <- <-]. exists [], url, urls, n. split_and!; [done|done|by apply Z.eqb_eq|constructor].
    + intros (before & u & after & n2 & -> & Hs & H200 & Hb)%IH.
      exists (url :: before), u, after, n2. split_and!; [done..|]. constructor; [|done].
      intros Hu. destruct (Hu n) as (? & ? & E & H). rewrite Es in E. injection E as <- <-.
      unfold status_ok in Eok. by rewrite H in Eok.
  - intros (before & u & after & n2 & -> & Hs & H200 & Hb)%IH.
    exists (url :: before), u, after, n2. split_and!; [done..|]. constructor; [|done].
    intros Hu. destruct (Hu n) as (? & ? & E & H). by rewrite Es in E.
Qed.

(** One working gateway is enough.  If any configured gateway serves a
    CID, the download succeeds, whatever the others answer; and the content
    comes from the first gateway in the configured order that answered 200, all
    earlier ones having failed. *)
Theorem download_falls_back cid n :
  Exists (serves cid) (ic_gatewayURLs c) ->
  exists n' resp before url after n1,
    GetFromGateways c cid n = (n', Ok resp) /\ re_status resp = 200 /\
    ic_gatewayURLs c = before ++ url :: after /\
    send (gateway_message cid url) n1 = (n', Ok resp) /\
    Forall (fun u => ~ serves cid u) before.
Proof.
  intros He. destruct (try_gateways_serves cid _ [] n He) as (n' & resp & Ht & H200).
  destruct (try_gateways_first _ _ _ _ _ _ Ht) as (before & url & after & n1 & Hu & Hs & _ & Hb).
  exists n', resp, before, url, after, n1. split_and!; [|done..].
  unfold GetFromGateways. by destruct (ic_gatewayURLs c).
Qed.

End Download.

(** ** Selection *)

Lemma insert_stable_perm {A} (less : A -> A -> bool) x l : insert_stable less x l ≡ₚ x :: l.
Proof.
  induction l as [|y l IH]; cbn [insert_stable]; [done|]. destruct (less y x); [|done].
  rewrite IH. constructor.
Qed.

Lemma stable_sort_perm {A} (less : A -> A -> bool) l : stable_sort less l ≡ₚ l.
Proof. induction l as [|x l IH]; cbn; [done|]. by rewrite insert_stable_perm, IH. Qed.

Section ByKey.
Context {A : Type} (key : A -> Z).
#[local] Notation less := (fun a b => key a <? key b).
#[local] Notation at_key k := (fun a => key a =? k).

Lemma insert_stable_sorted x l :
  StronglySorted (fun a b => key a <= key b) l ->
  StronglySorted (fun a b => key a <= key b) (insert_stable less x l).
Proof.
  induction 1 as [|y l Hs IH Hall]; cbn [insert_stable]; [by repeat constructor|].
  destruct (Z.ltb_spec (key y) (key x)).
  - constructor; [done|]. rewrite (insert_stable_perm _ x l). constructor; [lia|done].
  - constructor; [by constructor|]. constructor; [lia|].
    eapply Forall_impl; [|exact Hall]. cbn. lia.
Qed.

Lemma stable_sort_sorted l : StronglySorted (fun a b => key a <= key b) (stable_sort less l).
Proof. induction l; cbn; [constructor|by apply insert_stable_sorted]. Qed.

(** Elements with the same key keep their order. *)
Lemma insert_stable_at k x l :
  List.filter (at_key k) (insert_stable less x l) = List.filter (at_key k) (x :: l).
Proof.
  induction l as [|y l IH]; cbn [insert_stable]; [done|].
  destruct (Z.ltb_spec (key y) (key x)); [|done]. cbn [List.filter] in IH |- *. rewrite IH.
  destruct (Z.eqb_spec (key y) k), (Z.eqb_spec (key x) k); done || lia.
Qed.

Lemma stable_sort_at k l :
  List.filter (at_key k) (stable_sort less l) = List.filter (at_key k) l.
Proof.
  induction l as [|x l IH]; [done|]. cbn [stable_sort foldr].
  rewrite insert_stable_at. cbn [List.filter]. unfold stable_sort in IH. by rewrite IH.
Qed.
End ByKey.

Lemma filter_nil_false {A} (f : A -> bool) l : List.filter f l = [] -> forall x, x ∈ l -> f x = false.
Proof.
  induction l as [|y l IH]; cbn; intros E x Hx; [by apply elem_of_nil in Hx|].
  destruct (f y) eqn:Ey; [done|]. apply elem_of_cons in Hx as [->|Hx]; auto.
Qed.

(** [SelectGateways] drops exactly the gateways that failed their probe,
    orders the others from fastest to slowest, keeps the configured order among
    equally fast ones, and gives the whole list back, in its order, when every
    probe failed: it never returns an empty list for a non-empty configuration. *)
Theorem select_gateways_exact measure gateways :
  let hs := ProbeGateways measure gateways in
  snd (SelectGateways measure gateways) = hs /\
  ((Forall (fun h => healthy h = false) hs /\ fst (SelectGateways measure gateways) = gateways) \/
   exists selected,
     selected <> [] /\ fst (SelectGateways measure gateways) = map gh_Gateway selected /\
     selected ≡ₚ List.filter healthy hs /\
     StronglySorted (fun a b => gh_Latency a <= gh_Latency b) selected /\
     forall latency, List.filter (fun h => gh_Latency h =? latency) selected =
       List.filter (fun h => gh_Latency h =? latency) (List.filter healthy hs)).
Proof.
  cbv zeta. unfold SelectGateways. destruct (List.filter healthy _) as [|h l] eqn:E.
  - split; [done|]. left. split; [|done]. apply Forall_forall. intros x Hx.
    apply (filter_nil_false healthy _ E), list_elem_of_In, Hx.
  - split; [done|]. right. exists (stable_sort faster (h :: l)). split_and!; [|done|..].
    + intros E0. pose proof (stable_sort_perm faster (h :: l)) as Hp. rewrite E0 in Hp.
      by apply Permutation_nil_l in Hp.
    + apply stable_sort_perm.
    + apply (stable_sort_sorted gh_Latency).
    + intros k. apply (stable_sort_at gh_Latency).
Qed.

(** ** A network of two gateways: the first one answers 504 *)

#[local] Instance two_gateways : Transport := {
  net := nat;
  new_request _ := Ok tt;
  http_do m n :=
    (S n, if HasPrefix (msg_url m) "https://slow" then Ok (mk_response 504 "" false)
          else Ok (mk_response 200 "PACK" false));
}.

Definition fallback_client : ipfs_client :=
  NewWithGateways "" [" https://slow/ "; "https://fast"; "https://fast/"]%string.

Lemma download_falls_back_witness :
  ic_gatewayURLs fallback_client = ["https://slow"; "https://fast"]%string /\
  exists n' resp before url after n1,
    GetFromGateways fallback_client "Qm" 0%nat = (n', Ok resp) /\ re_status resp = 200 /\
    ic_gatewayURLs fallback_client = before ++ url :: after /\
    send (gateway_message "Qm" url) n1 = (n', Ok resp) /\
    Forall (fun u => ~ serves "Qm" u) before.
Proof.
  split; [by vm_compute|]. apply (download_falls_back (TR:=two_gateways) fallback_client "Qm" 0%nat).
  apply Exists_cons_tl, Exists_cons_hd. intros n. exists (S n), (mk_response 200 "PACK" false).
  split; reflexivity.
Defined.
