(* ===== verification/EvmAddress.v ===== *)
(** * Account addresses

    [internal/chain/evm_address.go] and [evm_codec.go]: bech32 with the prefix
    [inj] and hexadecimal addresses.  The five-bit values and the bytes of the
    bit conversion are integers; [uint32] and [uint] operations keep their width. *)
From Stdlib Require Import ZArith Lia Ascii String.
From Stdlib Require Strings.Byte.
From stdpp Require Import base list strings option.
From S2P Require Import Prelude GoText Json.

Local Open Scope Z_scope.

(** What [strings.ToLower] makes of a string with a non-ASCII byte depends on
    the case tables of Unicode. *)
Class UnicodeCase := { wide_lower : string -> string }.

Definition ascii_char (c : ascii) : bool := code c <? 128.

Definition byte_value (b : Byte.byte) : Z := Z.of_N (Byte.to_N b).

(** The position of a character: [strings.IndexByte], [strings.LastIndexByte]. *)
Fixpoint IndexByte (s : string) (c : Z) : option Z :=
  match s with
  | EmptyString => None
  | String d s' => if code d =? c then Some 0 else option_map Z.succ (IndexByte s' c)
  end.
Fixpoint LastIndexByte (s : string) (c : Z) : option Z :=
  match s with
  | EmptyString => None
  | String d s' =>
      match LastIndexByte s' c with
      | Some i => Some (Z.succ i)
      | None => if code d =? c then Some 0 else None
      end
  end.

(** The rune of a [range] loop at a byte, given how many bytes follow in it. *)
Definition low_bits (n : Z) (c : ascii) : Z := Z.land (code c) (Z.ones n).
Definition rune_at (c : ascii) (s : string) : Z * nat :=
  match rune_tail c s, s with
  | Some 1%nat, String d _ => (Z.shiftl (low_bits 5 c) 6 + low_bits 6 d, 1%nat)
  | Some 2%nat, String d (String e _) =>
      (Z.shiftl (low_bits 4 c) 12 + Z.shiftl (low_bits 6 d) 6 + low_bits 6 e, 2%nat)
  | Some 3%nat, String d (String e (String f _)) =>
      (Z.shiftl (low_bits 3 c) 18 + Z.shiftl (low_bits 6 d) 12 + Z.shiftl (low_bits 6 e) 6 +
       low_bits 6 f, 3%nat)
  | Some _, _ => (code c, 0%nat)
  | None, _ => (0xFFFD, 0%nat)
  end.

(** ** Checksums *)

Definition bech32Charset : string := "qpzry9x8gf2tvdw0s3jn54khce6mua7l".

Definition generators : list Z := [0x3b6a57b2; 0x26508e6d; 0x1ea119fa; 0x3d4233dd; 0x2a1462b3].

Definition bech32HrpExpand (prefix : string) : list Z :=
  map (fun b => Z.shiftr (byte_value b) 5) (string_bytes prefix) ++ [0] ++
  map (fun b => Z.land (byte_value b) 31) (string_bytes prefix).

(** The generators whose bit is set in [top], from bit [i] on. *)
Fixpoint mix (gens : list Z) (i : Z) (top checksum : Z) : Z :=
  match gens with
  | [] => checksum
  | g :: gens' =>
      mix gens' (i + 1) top
        (if Z.testbit top i then Z.lxor checksum g else checksum)
  end.

Definition polymod_step (checksum value : Z) : Z :=
  mix generators 0 (Z.shiftr checksum 25)
    (Z.lxor (Z.shiftl (Z.land checksum 0x1ffffff) 5) value).

Definition bech32Polymod (values : list Z) : Z := fold_left polymod_step values 1.

Definition bech32Checksum (prefix : string) (values : list Z) : list Z :=
  let input := bech32HrpExpand prefix ++ values ++ repeat 0 6 in
  let m := Z.lxor (bech32Polymod input) 1 in
  map (fun i => Z.land (Z.shiftr m (5 * (5 - i))) 31) [0; 1; 2; 3; 4; 5].

Definition bech32VerifyChecksum (prefix : string) (values : list Z) : bool :=
  bech32Polymod (bech32HrpExpand prefix ++ values) =? 1.

(** ** Regrouping bits *)

Record regrouping := mk_regrouping { rg_acc : Z; rg_bits : Z; rg_out : list Z }.

(** [for bits >= toBits]; each round takes [toBits] off. *)
Fixpoint emit (fuel : nat) (toBits : Z) (r : regrouping) : regrouping :=
  match fuel with
  | O => r
  | S fuel' =>
      if toBits <=? rg_bits r then
        let bits := rg_bits r - toBits in
        emit fuel' toBits (mk_regrouping (rg_acc r) bits
          (rg_out r ++ [Z.land (Z.shiftr (rg_acc r) bits) (Z.ones toBits)]))
      else r
  end.

Definition regroup_step (fromBits toBits : Z) (r : regrouping) (value : Z) : result regrouping :=
  fail_if negb (Z.shiftr value fromBits =? 0)
    as Errorf "bech32 value %d exceeds %d bits" [GInt value; GInt fromBits] ;;
  let bits := rg_bits r + fromBits in
  Ok (emit (Z.to_nat bits) toBits
        (mk_regrouping (Z.lor (u64 (Z.shiftl (rg_acc r) fromBits)) value) bits (rg_out r))).

Definition bech32ConvertBits (data : list Z) (fromBits toBits : Z) (pad : bool) : result (list Z) :=
  fail_if (fromBits =? 0) || (toBits =? 0) || (8 <? fromBits) || (8 <? toBits)
    as Errorf "invalid bech32 bit conversion %d -> %d" [GInt fromBits; GInt toBits] ;;
  let? r := foldM (regroup_step fromBits toBits) data (mk_regrouping 0 0 []) in
  let rest := Z.land (u64 (Z.shiftl (rg_acc r) (toBits - rg_bits r))) (Z.ones toBits) in
  if pad then Ok (if 0 <? rg_bits r then rg_out r ++ [rest] else rg_out r)
  else
    fail_if fromBits <=? rg_bits r as Errorf "invalid bech32 padding" [] ;;
    fail_if negb (rest =? 0) as Errorf "non-zero bech32 padding" [] ;;
    Ok (rg_out r).

(** ** Bech32 addresses *)

(** The loop over the runes of the data part; the positions that a rune of
    several bytes leaves out keep the zero of [make]. *)
Fixpoint charset_values (k : nat) (s : string) : result (list Z) :=
  match s with
  | EmptyString => Ok []
  | String c s' =>
      match k with
      | S k' => let? vs := charset_values k' s' in Ok (0 :: vs)
      | O =>
          let '(r, more) := rune_at c s' in
          match IndexByte bech32Charset (r mod 256) with
          | None => errf "invalid bech32 character %q" [GStr (encode_rune r)]
          | Some index => let? vs := charset_values more s' in Ok (index :: vs)
          end
      end
  end.

Definition value_char (v : Z) : string := String.substring (Z.to_nat v) 1 bech32Charset.

Definition encodeBech32Address (prefix : string) (payload : bytes) : string :=
  match bech32ConvertBits (map byte_value payload) 8 5 true with
  | Err _ => ""
  | Ok converted =>
      prefix +:+ "1" +:+ String.concat "" (map value_char (converted ++ bech32Checksum prefix converted))
  end.

Section Decode.
Context {UC : UnicodeCase}.

Definition wide_ToLower (s : string) : string :=
  if all_chars ascii_char s then ToLower s else wide_lower s.

Definition decodeBech32Address (value : string) : result bytes :=
  fail_if bool_decide (value = ""%string) || negb (bool_decide (wide_ToLower value = value))
    as Errorf "invalid bech32 address %q" [GStr value] ;;
  let separator := default (-1) (LastIndexByte value 49) in
  fail_if (separator <=? 0) || (slen value <? separator + 7)
    as Errorf "invalid bech32 address %q" [GStr value] ;;
  let prefix := String.substring 0 (Z.to_nat separator) value in
  fail_if negb (bool_decide (prefix = "inj"%string))
    as Errorf "unsupported bech32 address prefix %q" [GStr prefix] ;;
  let encoded := String.substring (Z.to_nat separator + 1)
                   (String.length value - (Z.to_nat separator + 1)) value in
  let? values := charset_values 0 encoded in
  fail_if negb (bech32VerifyChecksum prefix values)
    as Errorf "invalid bech32 checksum for %q" [GStr value] ;;
  let? converted := bech32ConvertBits (take (length values - 6) values) 5 8 false in
  fail_if negb (llen converted =? 20)
    as Errorf "bech32 address payload has %d bytes, want 20" [GInt (llen converted)] ;;
  Ok (map byte_of_Z converted).

(** ** Hexadecimal addresses *)

Definition hex_prefixed (s : string) : bool := HasPrefix s "0x" || HasPrefix s "0X".

Definition parseEVMAddress (value : string) : result bytes :=
  let trimmed := TrimSpace value in
  if hex_prefixed trimmed then
    let digits := String.substring 2 (String.length trimmed - 2) trimmed in
    fail_if negb (slen digits =? 40)
      as Errorf "EVM address must contain 20 bytes: %q" [GStr value] ;;
    match hex_decode digits with
    | Some b => Ok b
    | None => Err (Wrapf "invalid EVM address %q: %w" [GStr value] (Errorf "encoding/hex" []))
    end
  else decodeBech32Address trimmed.

Definition normalizeEVMAddress (value : string) : result string :=
  let? decoded := parseEVMAddress value in Ok ("0x" +:+ hex_encode decoded).

Definition userAddressFromEVM (value : string) : result string :=
  let? decoded := parseEVMAddress value in Ok (encodeBech32Address "inj" decoded).
End Decode.
