(* ===== verification/EvmAddressSpec.v ===== *)
(** * EvmAddressSpec: regrouping bits and the bech32 checksum

    The bit conversion writes the same number in another base; the checksum step
    is linear over exclusive or and loses nothing, so a checksum is determined
    by the data and a wrong character always shows. *)
From Stdlib Require Import ZArith Lia Ascii String.
From Stdlib Require Strings.Byte.
From stdpp Require Import base list strings option.
From S2P Require Import Prelude GoText Json EvmAddress.

Local Open Scope Z_scope.

(** ** Numbers in a base *)

(** The number whose [w]-bit digits are [vs], most significant first. *)
Definition number (w : Z) (vs : list Z) : Z := fold_left (fun n v => 2 ^ w * n + v) vs 0.

Notation digit w := (fun v : Z => 0 <= v < 2 ^ w).

Lemma number_snoc w vs v : number w (vs ++ [v]) = 2 ^ w * number w vs + v.
Proof. unfold number. by rewrite fold_left_app. Qed.

Lemma number_range w vs : 0 <= w -> Forall (digit w) vs -> 0 <= number w vs < 2 ^ (w * llen vs).
Proof.
  intros Hw. induction vs as [|v vs IH] using rev_ind; intros Hd; [unfold number, llen; cbn; rewrite Z.mul_0_r; lia|].
  apply Forall_app in Hd as [Hd Hv]. apply Forall_inv in Hv. cbn beta in Hv.
  specialize (IH Hd). rewrite number_snoc, llen_app.
  replace (w * (llen vs + llen [v])) with (w * llen vs + w) by (change (llen [v]) with 1; ring).
  pose proof (llen_nonneg vs) as Hl. assert (0 <= w * llen vs) as Hwl by nia.
  rewrite Z.pow_add_r by done.
  assert (2 ^ w * number w vs <= 2 ^ w * (2 ^ (w * llen vs) - 1)) by (apply Z.mul_le_mono_nonneg_l; lia).
  assert (0 <= 2 ^ w * number w vs) by (apply Z.mul_nonneg_nonneg; lia). lia.
Qed.

(** Equally many digits of the same number are the same digits. *)
Lemma number_inj w vs us :
  0 <= w -> Forall (digit w) vs -> Forall (digit w) us -> length vs = length us ->
  number w vs = number w us -> vs = us.
Proof.
  intros Hw. revert us. induction vs as [|v vs IH] using rev_ind; intros us Hv Hu Hl Hn.
  - by destruct us.
  - destruct us as [|u us _] using rev_ind; [by rewrite length_app in Hl; cbn in Hl; lia|].
    rewrite !length_app in Hl. cbn in Hl. rewrite !number_snoc in Hn.
    apply Forall_app in Hv as [Hvs Hv]. apply Forall_app in Hu as [Hus Hu].
    apply Forall_inv in Hv, Hu. cbn beta in Hv, Hu.
    assert (number w vs = number w us /\ v = u) as [Hn' ->].
    { apply (Z.div_mod_unique (2 ^ w)); [left; lia|left; lia|done]. }
    f_equal. apply IH; [done|done|lia|done].
Qed.

(** ** The bit conversion *)

(** The number read so far: the digits put out and the bits still held. *)
Definition held (toBits : Z) (r : regrouping) : Z :=
  2 ^ rg_bits r * number toBits (rg_out r) + rg_acc r mod 2 ^ rg_bits r.

Lemma split_bits acc b t :
  0 <= b -> 0 <= t -> acc mod 2 ^ (b + t) = 2 ^ b * Z.land (Z.shiftr acc b) (Z.ones t) + acc mod 2 ^ b.
Proof.
  intros Hb Ht. rewrite Z.land_ones, Z.shiftr_div_pow2, Z.pow_add_r by lia.
  rewrite Z.rem_mul_r; lia.
Qed.

Lemma land_ones_digit x t : 0 <= t -> 0 <= Z.land x (Z.ones t) < 2 ^ t.
Proof. intros Ht. rewrite Z.land_ones by lia. apply Z.mod_pos_bound. lia. Qed.

Lemma emit_spec toBits fuel r :
  0 < toBits -> 0 <= rg_bits r <= Z.of_nat fuel -> Forall (digit toBits) (rg_out r) ->
  let r' := emit fuel toBits r in
  0 <= rg_bits r' < toBits /\ held toBits r' = held toBits r /\
  Forall (digit toBits) (rg_out r') /\
  toBits * llen (rg_out r') + rg_bits r' = toBits * llen (rg_out r) + rg_bits r.
Proof.
  intros Ht. revert r. induction fuel as [|fuel IH]; intros r Hb Hd; cbn [emit]; [split_and!; [lia..|done|lia]|].
  destruct (Z.leb_spec toBits (rg_bits r)); [|split_and!; [lia..|done|lia]].
  set (r1 := mk_regrouping _ _ _).
  destruct (IH r1) as (H1 & H2 & H3 & H4); [cbn; lia| |split_and!; [lia..| |done|]].
  - apply Forall_app. split; [done|]. constructor; [|constructor]. apply land_ones_digit. lia.
  - rewrite H2. unfold held, r1. cbn [rg_bits rg_out rg_acc]. rewrite number_snoc.
    remember (rg_bits r - toBits) as b eqn:Eb. replace (rg_bits r) with (b + toBits) by lia.
    rewrite split_bits, (Z.pow_add_r 2 b toBits) by lia. ring.
  - rewrite H4. unfold r1. cbn [rg_bits rg_out]. rewrite llen_app. change (llen [_]) with 1. lia.
Qed.

Lemma push_bits acc v b f :
  0 <= f -> 0 <= b -> b + f <= 64 -> 0 <= v < 2 ^ f ->
  Z.lor (u64 (Z.shiftl acc f)) v mod 2 ^ (b + f) = 2 ^ f * (acc mod 2 ^ b) + v.
Proof.
  intros Hf Hb Hbf Hv. rewrite <- Z.land_ones by lia. unfold u64. rewrite <- (Z.land_ones _ 64) by lia.
  transitivity (Z.lor (Z.shiftl (acc mod 2 ^ b) f) v).
  - apply Z.bits_inj'. intros i Hi.
    rewrite Z.land_spec, !Z.lor_spec, Z.land_spec, !Z.testbit_ones_nonneg, !Z.shiftl_spec by lia.
    destruct (Z.ltb_spec i (b + f)).
    + destruct (Z.ltb_spec i 64); [|lia]. rewrite !andb_true_r. f_equal.
      destruct (Z.ltb_spec i f); [by rewrite !Z.testbit_neg_r by lia|].
      rewrite Z.mod_pow2_bits_low by lia. done.
    + rewrite andb_false_r, Z.mod_pow2_bits_high by lia.
      rewrite <- (Z.mod_small v (2 ^ f)), Z.mod_pow2_bits_high by lia. done.
  - assert (Z.land (Z.shiftl (acc mod 2 ^ b) f) v = 0) as Hl.
    { apply Z.bits_inj'. intros i Hi. rewrite Z.land_spec, Z.shiftl_spec, Z.bits_0 by lia.
      destruct (Z.ltb_spec i f); [by rewrite Z.testbit_neg_r by lia|].
      rewrite <- (Z.mod_small v (2 ^ f)), (Z.mod_pow2_bits_high v) by lia. apply andb_false_r. }
    pose proof (Z.add_lor_land (Z.shiftl (acc mod 2 ^ b) f) v) as Ha. rewrite Hl in Ha.
    rewrite Z.shiftl_mul_pow2 in Ha |- * by lia. lia.
Qed.

Definition regrouped (fromBits toBits : Z) (data : list Z) (r : regrouping) : Prop :=
  0 <= rg_bits r < toBits /\ held toBits r = number fromBits data /\
  Forall (digit toBits) (rg_out r) /\
  toBits * llen (rg_out r) + rg_bits r = fromBits * llen data.

Lemma regroup_ok fromBits toBits data :
  0 < fromBits <= 8 -> 0 < toBits <= 8 -> Forall (digit fromBits) data ->
  exists r, foldM (regroup_step fromBits toBits) data (mk_regrouping 0 0 []) = Ok r /\
    regrouped fromBits toBits data r.
Proof.
  intros Hf Ht. induction data as [|v data IH] using rev_ind; intros Hd.
  - eexists. split; [reflexivity|]. split_and!; cbn; [lia..|done|constructor|unfold llen; cbn; lia].
  - apply Forall_app in Hd as [Hd Hv]. apply Forall_inv in Hv. cbn beta in Hv.
    destruct (IH Hd) as (r & Hr & Hbits & Hheld & Hout & Hlen).
    rewrite foldM_app, Hr. cbn [foldM]. unfold regroup_step.
    rewrite Z.shiftr_div_pow2, (Z.div_small v) by lia. cbn [negb Z.eqb].
    edestruct (emit_spec toBits (Z.to_nat (rg_bits r + fromBits))
      (mk_regrouping (Z.lor (u64 (Z.shiftl (rg_acc r) fromBits)) v) (rg_bits r + fromBits) (rg_out r)))
      as (H1 & H2 & H3 & H4); [lia|cbn; lia|done|].
    eexists. split; [done|]. split_and!; [lia|lia| |exact H3|].
    + rewrite H2, number_snoc, <- Hheld. unfold held. cbn [rg_bits rg_out rg_acc].
      rewrite push_bits by lia. rewrite Z.pow_add_r by lia. ring.
    + rewrite H4, llen_app. change (llen [_]) with 1. cbn [rg_bits rg_out rg_acc]. lia.
Qed.


Lemma byte_value_range b : 0 <= byte_value b < 256.
Proof. unfold byte_value. pose proof (Byte.to_N_bounded b). lia. Qed.

Lemma byte_values_digits payload : Forall (digit 8) (map byte_value payload).
Proof. apply Forall_map, Forall_forall. intros b _. apply byte_value_range. Qed.

(** Twenty bytes are thirty-two values, with nothing left over. *)
Lemma convert_8_5 payload :
  length payload = 20%nat ->
  exists vs, bech32ConvertBits (map byte_value payload) 8 5 true = Ok vs /\
    length vs = 32%nat /\ Forall (digit 5) vs /\
    number 5 vs = number 8 (map byte_value payload).
Proof.
  intros Hl. destruct (regroup_ok 8 5 (map byte_value payload)) as (r & Hr & Hb & Hh & Ho & Hn);
    [lia..|apply byte_values_digits|].
  unfold llen in Hn. rewrite length_map, Hl in Hn. assert (rg_bits r = 0) as E by lia.
  unfold bech32ConvertBits. cbn -[foldM]. rewrite Hr, E. cbn.
  exists (rg_out r). split_and!; [done|lia|done|].
  rewrite <- Hh. unfold held. rewrite E. cbn. rewrite Z.mod_1_r. lia.
Qed.

Lemma convert_5_8 vs :
  length vs = 32%nat -> Forall (digit 5) vs ->
  exists bs, bech32ConvertBits vs 5 8 false = Ok bs /\
    length bs = 20%nat /\ Forall (digit 8) bs /\ number 8 bs = number 5 vs.
Proof.
  intros Hl Hd. destruct (regroup_ok 5 8 vs) as (r & Hr & Hb & Hh & Ho & Hn); [lia..|done|].
  unfold llen in Hn. rewrite Hl in Hn. assert (rg_bits r = 0) as E by lia.
  unfold bech32ConvertBits. cbn -[foldM Z.land Z.ones u64 Z.shiftl Z.sub]. rewrite Hr, E.
  replace (Z.land (u64 (Z.shiftl (rg_acc r) (8 - 0))) (Z.ones 8)) with 0.
  2: { rewrite Z.land_ones by lia. unfold u64. change (8 - 0) with 8. rewrite Z.shiftl_mul_pow2 by lia.
       change (2 ^ 8) with 256. change (2 ^ 64) with (256 * 72057594037927936). rewrite Z.mul_comm, Z.mul_mod_distr_l by lia.
       symmetry. apply Z.mod_divide; [lia|]. exists (rg_acc r mod 72057594037927936). lia. }
  cbn. exists (rg_out r). split_and!; [done|lia|done|].
  rewrite <- Hh. unfold held. rewrite E. cbn. rewrite Z.mod_1_r. lia.
Qed.

Lemma convert_5_8_length vs bs :
  Forall (digit 5) vs -> bech32ConvertBits vs 5 8 false = Ok bs -> llen bs = 20 ->
  length vs = 32%nat.
Proof.
  intros Hd. destruct (regroup_ok 5 8 vs) as (r & Hr & Hb & _ & _ & Hn); [lia..|done|].
  unfold bech32ConvertBits. cbn -[foldM]. rewrite Hr.
  destruct (Z.leb_spec 5 (rg_bits r)); [done|]. destruct (negb _); [done|].
  intros [= <-] E. unfold llen in *. lia.
Qed.

(** ** The checksum *)

Lemma mix_lxor gens i top a b : mix gens i top (Z.lxor a b) = Z.lxor (mix gens i top a) b.
Proof.
  revert i a. induction gens as [|g gens IH]; intros i a; cbn [mix]; [done|].
  rewrite <- IH. f_equal. destruct (Z.testbit top i); [|done].
  rewrite !Z.lxor_assoc. f_equal. apply Z.lxor_comm.
Qed.

Lemma mix_top gens i t u a b :
  mix gens i (Z.lxor t u) (Z.lxor a b) = Z.lxor (mix gens i t a) (mix gens i u b).
Proof.
  revert i a b. induction gens as [|g gens IH]; intros i a b; cbn [mix]; [done|].
  rewrite <- IH, Z.lxor_spec. f_equal. destruct (Z.testbit t i), (Z.testbit u i); cbn; [|rewrite ?Z.lxor_assoc; f_equal; apply Z.lxor_comm|by rewrite Z.lxor_assoc|done].
  - rewrite (Z.lxor_comm b g), !Z.lxor_assoc, <- (Z.lxor_assoc g g), Z.lxor_nilpotent. done.
Qed.

Notation word30 := (fun x : Z => 0 <= x < 2 ^ 30).

Lemma testbit_above x n i : 0 <= x < 2 ^ n -> 0 <= n <= i -> Z.testbit x i = false.
Proof. intros Hx Hi. rewrite <- (Z.mod_small x (2 ^ n)) by done. by apply Z.mod_pow2_bits_high. Qed.

(** Integers below a power of two, by their bits. *)
Lemma below_bits x n :
  0 <= n -> 0 <= x -> (forall i, n <= i -> Z.testbit x i = false) -> 0 <= x < 2 ^ n.
Proof.
  intros Hn Hx Hb. split; [done|].
  assert (x = x mod 2 ^ n) as ->; [|apply Z.mod_pos_bound; lia].
  apply Z.bits_inj'. intros i Hi. destruct (Z.ltb_spec i n).
  - by rewrite Z.mod_pow2_bits_low by lia.
  - rewrite Z.mod_pow2_bits_high by lia. by apply Hb.
Qed.

Lemma lxor_range a b n : 0 <= n -> 0 <= a < 2 ^ n -> 0 <= b < 2 ^ n -> 0 <= Z.lxor a b < 2 ^ n.
Proof.
  intros Hn Ha Hb. apply below_bits; [done|apply Z.lxor_nonneg; lia|].
  intros i Hi. rewrite Z.lxor_spec, (testbit_above a n), (testbit_above b n) by lia. done.
Qed.

Lemma mix_range gens i top a :
  Forall word30 gens -> 0 <= a < 2 ^ 30 -> 0 <= mix gens i top a < 2 ^ 30.
Proof.
  intros Hg. revert i a. induction Hg as [|g gens Hg _ IH]; intros i a Ha; cbn [mix]; [done|].
  apply IH. destruct (Z.testbit top i); [|done]. apply lxor_range; lia.
Qed.

Lemma generators_range : Forall word30 generators.
Proof. repeat constructor; lia. Qed.

Lemma low_part_range c : 0 <= Z.shiftl (Z.land c 0x1ffffff) 5 < 2 ^ 30.
Proof.
  change 0x1ffffff with (Z.ones 25). rewrite Z.shiftl_mul_pow2, Z.land_ones by lia.
  pose proof (Z.mod_pos_bound c (2 ^ 25)). lia.
Qed.

Lemma step_range c v : 0 <= v < 2 ^ 5 -> 0 <= polymod_step c v < 2 ^ 30.
Proof.
  intros Hv. apply mix_range; [apply generators_range|].
  apply lxor_range; [lia|apply low_part_range|lia].
Qed.

Lemma step_value c v : polymod_step c v = Z.lxor (polymod_step c 0) v.
Proof. unfold polymod_step. by rewrite Z.lxor_0_r, mix_lxor. Qed.

Lemma step_linear a b :
  polymod_step (Z.lxor a b) 0 = Z.lxor (polymod_step a 0) (polymod_step b 0).
Proof.
  unfold polymod_step. rewrite !Z.lxor_0_r, Z.shiftr_lxor, <- mix_top, <- Z.shiftl_lxor. f_equal. f_equal.
  apply Z.bits_inj'. intros i Hi. rewrite Z.lxor_spec, !Z.land_spec, Z.lxor_spec.
  by destruct (Z.testbit a i), (Z.testbit b i), (Z.testbit _ i).
Qed.

Lemma step_small x : 0 <= x < 2 ^ 25 -> polymod_step x 0 = 2 ^ 5 * x.
Proof.
  intros Hx. unfold polymod_step. rewrite Z.shiftr_div_pow2, Z.div_small by lia.
  change 0x1ffffff with (Z.ones 25). rewrite Z.land_ones, Z.mod_small by lia. cbn [mix generators].
  rewrite !Z.bits_0, Z.lxor_0_r, Z.shiftl_mul_pow2 by lia. lia.
Qed.

Lemma lxor_shifted n v : 0 <= v < 2 ^ 5 -> Z.lxor (2 ^ 5 * n) v = 2 ^ 5 * n + v.
Proof.
  intros Hv. symmetry. apply Z.add_nocarry_lxor. rewrite Z.mul_comm, <- Z.shiftl_mul_pow2 by lia.
  apply Z.bits_inj'. intros i Hi. rewrite Z.land_spec, Z.shiftl_spec, Z.bits_0 by lia.
  destruct (Z.ltb_spec i 5); [by rewrite Z.testbit_neg_r by lia|].
  rewrite (testbit_above v 5) by lia. apply andb_false_r.
Qed.

(** Up to six values at the end appear in the checksum as they are. *)
Lemma polymod_tail c vs :
  Forall (digit 5) vs -> (length vs <= 6)%nat ->
  fold_left polymod_step vs c =
    Z.lxor (fold_left polymod_step (repeat 0 (length vs)) c) (number 5 vs).
Proof.
  induction vs as [|v vs IH] using rev_ind; intros Hd Hl; [by rewrite Z.lxor_0_r|].
  rewrite length_app in Hl |- *. apply Forall_app in Hd as [Hd Hv]. apply Forall_inv in Hv. cbn beta in Hv.
  cbn [length] in Hl |- *. rewrite repeat_app, !fold_left_app, IH, number_snoc by (done || lia).
  cbn [fold_left repeat]. rewrite step_value, step_linear.
  assert (0 <= number 5 vs < 2 ^ 25).
  { pose proof (number_range 5 vs ltac:(lia) Hd) as Hn. unfold llen in Hn.
    assert (2 ^ (5 * Z.of_nat (length vs)) <= 2 ^ 25) by (apply Z.pow_le_mono_r; lia). lia. }
  by rewrite (step_small (number 5 vs)), Z.lxor_assoc, lxor_shifted by done.
Qed.

(** The six values of a checksum. *)
Lemma number_six m : 0 <= m < 2 ^ 30 ->
  number 5 (map (fun i => Z.land (Z.shiftr m (5 * (5 - i))) 31) [0; 1; 2; 3; 4; 5]) = m.
Proof.
  intros Hm. change 31 with (Z.ones 5).
  pose proof (Z.mod_small m (2 ^ (25 + 5)) Hm) as H0.
  pose proof (split_bits m 25 5 ltac:(lia) ltac:(lia)) as H1. pose proof (split_bits m 20 5 ltac:(lia) ltac:(lia)) as H2.
  pose proof (split_bits m 15 5 ltac:(lia) ltac:(lia)) as H3. pose proof (split_bits m 10 5 ltac:(lia) ltac:(lia)) as H4.
  pose proof (split_bits m 5 5 ltac:(lia) ltac:(lia)) as H5. pose proof (split_bits m 0 5 ltac:(lia) ltac:(lia)) as H6.
  unfold number. cbn [map fold_left].
  change (5 * (5 - 0)) with 25. change (5 * (5 - 1)) with 20. change (5 * (5 - 2)) with 15.
  change (5 * (5 - 3)) with 10. change (5 * (5 - 4)) with 5. change (5 * (5 - 5)) with 0.
  change (25 + 5) with 30 in *. change (20 + 5) with 25 in *. change (15 + 5) with 20 in *.
  change (10 + 5) with 15 in *. change (5 + 5) with 10 in *. change (0 + 5) with 5 in *.
  rewrite Z.mod_1_r in H6. generalize dependent (Z.ones 5). intros mask. lia.
Qed.

Lemma step_lossless c c' v :
  0 <= c < 2 ^ 30 -> 0 <= c' < 2 ^ 30 -> polymod_step c v = polymod_step c' v -> c = c'.
Proof.
  intros Hc Hc' E. apply Z.lxor_eq. set (d := Z.lxor c c').
  assert (0 <= d < 2 ^ 30) as Hd by (by apply lxor_range).
  assert (polymod_step d 0 = 0) as E0.
  { unfold d. rewrite step_linear. rewrite (step_value c v), (step_value c' v) in E.
    apply (f_equal (fun x => Z.lxor x v)) in E. rewrite !Z.lxor_assoc, Z.lxor_nilpotent, !Z.lxor_0_r in E.
    rewrite E. apply Z.lxor_nilpotent. }
  clearbody d. clear -Hd E0. unfold polymod_step in E0. rewrite Z.lxor_0_r in E0.
  rewrite <- (Z.lxor_0_l (Z.shiftl _ _)), mix_lxor in E0. apply Z.lxor_eq in E0.
  change 0x1ffffff with (Z.ones 25) in E0.
  rewrite Z.shiftr_div_pow2, Z.land_ones, Z.shiftl_mul_pow2 in E0 by lia.
  assert (0 <= d / 2 ^ 25 < 32) as Ht by (split; [apply Z.div_pos; lia|apply Z.div_lt_upper_bound; lia]).
  assert (mix generators 0 (d / 2 ^ 25) 0 mod 32 = 0) as Hm by (rewrite E0; change (2 ^ 5) with 32; apply Z.mod_mul; lia).
  assert (d / 2 ^ 25 = 0) as Hz.
  { clear E0. revert Ht Hm. generalize (d / 2 ^ 25). intros t Ht Hm.
    assert (forallb (fun t => negb (mix generators 0 t 0 mod 32 =? 0) || (t =? 0)) (seqZ 0 32) = true) as Ha
      by (by vm_compute).
    rewrite forallb_forall in Ha. specialize (Ha t). rewrite Hm in Ha. apply Z.eqb_eq, Ha.
    apply list_elem_of_In, elem_of_seqZ. lia. }
  rewrite Hz in E0. change (mix generators 0 0 0) with 0 in E0.
  pose proof (Z.div_mod d (2 ^ 25) ltac:(lia)). rewrite Hz in *. lia.
Qed.
