(* ===== verification/EvmAddressProps.v ===== *)
(** * EvmAddressProps: bech32 addresses

    The decoder accepts exactly what the encoder writes, a wrong character is
    always found, and what happens to characters outside ASCII. *)
From Stdlib Require Import ZArith Lia Ascii String.
From Stdlib Require Strings.Byte.
From stdpp Require Import base list strings option.
From S2P Require Import Prelude GoText Json EvmAddress EvmAddressSpec.

Local Open Scope Z_scope.

(** ** Characters of the data part *)

Definition chars (vs : list Z) : string := String.concat "" (map value_char vs).

Lemma chars_cons v vs : chars (v :: vs) = (value_char v +:+ chars vs)%string.
Proof. unfold chars. cbn [map String.concat]. destruct vs; cbn; [by rewrite str_app_nil|done]. Qed.

Lemma chars_app vs us : chars (vs ++ us) = (chars vs +:+ chars us)%string.
Proof.
  induction vs as [|v vs IH]; [done|]. cbn [app]. by rewrite !chars_cons, IH, str_app_assoc.
Qed.

Definition data_char (c : ascii) (v : Z) : bool :=
  ascii_char c && negb (is_upper c) && negb (code c =? 49) &&
  bool_decide (IndexByte bech32Charset (code c) = Some v).

Lemma value_char_spec v : 0 <= v < 2 ^ 5 -> exists c, value_char v = str1 c /\ data_char c v = true.
Proof.
  intros Hv.
  assert (forallb (fun v => match value_char v with String c EmptyString => data_char c v | _ => false end)
    (seqZ 0 32) = true) as Ha by (by vm_compute).
  rewrite forallb_forall in Ha. specialize (Ha v).
  destruct (value_char v) as [|c [|]] eqn:E; [discriminate Ha..| |discriminate Ha];
    try (apply list_elem_of_In, elem_of_seqZ; lia).
  exists c. split; [done|]. apply Ha, list_elem_of_In, elem_of_seqZ. lia.
Qed.

Lemma index_value c v :
  ascii_char c = true -> IndexByte bech32Charset (code c) = Some v ->
  0 <= v < 2 ^ 5 /\ value_char v = str1 c.
Proof.
  destruct c as [[] [] [] [] [] [] [] []]; vm_compute; intros [=] [=]; subst; split; done || (split; done).
Qed.

Lemma rune_at_ascii c s : ascii_char c = true -> rune_at c s = (code c, 0%nat).
Proof.
  unfold ascii_char, rune_at. intros Hc. replace (rune_tail c s) with (Some 0%nat); [by destruct s|].
  unfold rune_tail. by rewrite Hc.
Qed.

Lemma charset_step c s :
  ascii_char c = true ->
  charset_values 0 (String c s) =
    match IndexByte bech32Charset (code c) with
    | None => errf "invalid bech32 character %q" [GStr (encode_rune (code c))]
    | Some index => let? vs := charset_values 0 s in Ok (index :: vs)
    end.
Proof.
  intros Hc. cbn [charset_values]. rewrite rune_at_ascii by done.
  unfold ascii_char in Hc. apply Z.ltb_lt in Hc. rewrite Z.mod_small; [done|]. unfold code in *. lia.
Qed.

Lemma charset_values_chars vs : Forall (digit 5) vs -> charset_values 0 (chars vs) = Ok vs.
Proof.
  induction 1 as [|v vs Hv _ IH]; [done|]. rewrite chars_cons.
  destruct (value_char_spec v Hv) as (c & -> & Hc). unfold data_char in Hc.
  repeat apply andb_true_iff in Hc as [Hc ?].
  change (str1 c +:+ chars vs)%string with (String c (chars vs)).
  rewrite charset_step by done. apply bool_decide_eq_true in H. by rewrite H, IH.
Qed.

Lemma charset_values_sound s vs :
  all_chars ascii_char s = true -> charset_values 0 s = Ok vs ->
  Forall (digit 5) vs /\ s = chars vs.
Proof.
  revert vs. induction s as [|c s IH]; intros vs Ha; [by intros [= <-]|].
  cbn [all_chars] in Ha. apply andb_true_iff in Ha as [Hc Ha]. rewrite charset_step by done.
  destruct (IndexByte _ _) as [v|] eqn:Ev; [|done].
  destruct (charset_values 0 s) as [us|] eqn:Eu; [|done]. intros [= <-].
  destruct (IH us Ha eq_refl) as [Hd ->]. destruct (index_value c v Hc Ev) as [Hv Ec].
  split; [by constructor|]. by rewrite chars_cons, Ec.
Qed.

Lemma all_chars_chars (P : ascii -> bool) vs :
  (forall c v, data_char c v = true -> P c = true) -> Forall (digit 5) vs ->
  all_chars P (chars vs) = true.
Proof.
  intros HP. induction 1 as [|v vs Hv _ IH]; [done|]. rewrite chars_cons, all_chars_app.
  destruct (value_char_spec v Hv) as (c & -> & Hc). cbn. by rewrite (HP c v Hc), IH.
Qed.

(** ** The separator *)

Lemma last_index_none s c :
  all_chars (fun d => negb (code d =? c)) s = true -> LastIndexByte s c = None.
Proof.
  induction s as [|d s IH]; cbn [all_chars LastIndexByte]; [done|].
  intros [Hd Hs]%andb_true_iff. rewrite IH by done. by destruct (code d =? c).
Qed.

Lemma last_index_spec s c i :
  LastIndexByte s c = Some i ->
  exists a d b, s = (a +:+ String d b)%string /\ code d = c /\ slen a = i.
Proof.
  revert i. induction s as [|d s IH]; intros i; cbn [LastIndexByte]; [done|].
  destruct (LastIndexByte s c) as [j|].
  - intros [= <-]. destruct (IH j eq_refl) as (a & e & b & -> & He & Ha).
    exists (String d a), e, b. split_and!; [done|done|]. unfold slen in *. cbn [String.length]. lia.
  - destruct (Z.eqb_spec (code d) c); [|done]. intros [= <-].
    exists ""%string, d, s. split_and!; done.
Qed.

Lemma substring_front a b : String.substring 0 (String.length a) (a +:+ b) = a.
Proof. induction a as [|c a IH]; [by destruct b|]. simpl. by rewrite IH. Qed.

Lemma substring_whole b : String.substring 0 (String.length b) b = b.
Proof. induction b as [|c b IH]; [done|]. simpl. by rewrite IH. Qed.

Lemma substring_back a b : String.substring (String.length a) (String.length b) (a +:+ b) = b.
Proof. induction a as [|c a IH]; [apply substring_whole|done]. Qed.

(** ** The checksum determines its six values *)

Lemma checksum_digits prefix vs : Forall (digit 5) (bech32Checksum prefix vs).
Proof.
  unfold bech32Checksum. apply Forall_map. change 31 with (Z.ones 5).
  repeat constructor; apply land_ones_digit; lia.
Qed.

Lemma checksum_exact prefix vs cs :
  Forall (digit 5) cs -> length cs = 6%nat ->
  bech32VerifyChecksum prefix (vs ++ cs) = true <-> cs = bech32Checksum prefix vs.
Proof.
  intros Hd Hl. unfold bech32VerifyChecksum, bech32Checksum, bech32Polymod.
  rewrite Z.eqb_eq, !app_assoc, !fold_left_app.
  set (c := fold_left polymod_step _ (fold_left _ _ 1)). rewrite (polymod_tail c cs) by (done || lia).
  rewrite Hl. set (p := fold_left polymod_step (repeat 0 6) c).
  assert (0 <= p < 2 ^ 30) as Hp by (apply step_range; lia).
  assert (0 <= Z.lxor p 1 < 2 ^ 30) as Hm by (apply lxor_range; lia).
  split.
  - intros E. apply (number_inj 5); [lia|done| |by rewrite Hl|].
    + apply Forall_map. change 31 with (Z.ones 5). repeat constructor; apply land_ones_digit; lia.
    + rewrite (number_six _ Hm). rewrite <- E, <- Z.lxor_assoc, Z.lxor_nilpotent. done.
  - intros ->. rewrite (number_six _ Hm), <- Z.lxor_assoc, Z.lxor_nilpotent. done.
Qed.

(** ** Bytes *)

Lemma byte_of_value b : byte_of_Z (byte_value b) = b.
Proof. destruct b; by vm_compute. Qed.

Lemma value_of_byte z : 0 <= z < 2 ^ 8 -> byte_value (byte_of_Z z) = z.
Proof.
  intros Hz. unfold byte_of_Z, byte_value. rewrite Z.mod_small by lia.
  destruct (Byte.of_N (Z.to_N z)) as [b|] eqn:E; [apply Byte.to_of_N in E; lia|].
  apply Byte.of_N_None_iff in E. lia.
Qed.

Lemma values_of_bytes bs : Forall (digit 8) bs -> map byte_value (map byte_of_Z bs) = bs.
Proof. induction 1; cbn; [done|]. by rewrite value_of_byte, IHForall. Qed.

Lemma bytes_of_values p : map byte_of_Z (map byte_value p) = p.
Proof. induction p; cbn; [done|]. by rewrite byte_of_value, IHp. Qed.

(** ** Encoding and decoding *)

(** The values of an encoded address. *)
Lemma encode_values p :
  length p = 20%nat ->
  exists vs, length vs = 32%nat /\ Forall (digit 5) vs /\
    number 5 vs = number 8 (map byte_value p) /\
    encodeBech32Address "inj" p = ("inj1" +:+ chars (vs ++ bech32Checksum "inj" vs))%string.
Proof.
  intros Hp. destruct (convert_8_5 p Hp) as (vs & Hc & Hl & Hd & Hn).
  exists vs. split_and!; [done..|]. unfold encodeBech32Address. by rewrite Hc.
Qed.

Section Decoding.
Context {UC : UnicodeCase}.

Lemma lower_address vs : Forall (digit 5) vs ->
  all_chars ascii_char ("inj1" +:+ chars vs) = true /\
  wide_ToLower ("inj1" +:+ chars vs) = ("inj1" +:+ chars vs)%string.
Proof.
  intros Hd.
  assert (all_chars ascii_char ("inj1" +:+ chars vs) = true) as Ha.
  { rewrite all_chars_app. apply all_chars_chars; [|done].
    intros c v. unfold data_char. by destruct (ascii_char c). }
  split; [done|]. unfold wide_ToLower. rewrite Ha. apply ToLower_noop.
  rewrite all_chars_app. apply all_chars_chars; [|done].
  intros c v. unfold data_char. destruct (ascii_char c), (is_upper c); done.
Qed.

Lemma address_separator vs : Forall (digit 5) vs ->
  LastIndexByte ("inj1" +:+ chars vs) 49 = Some 3.
Proof.
  intros Hd. change ("inj1" +:+ chars vs)%string with
    (String "i" (String "n" (String "j" (String "1" (chars vs))))).
  cbn [LastIndexByte]. rewrite last_index_none; [done|]. apply all_chars_chars; [|done].
  intros c v. unfold data_char. destruct (ascii_char c), (is_upper c), (code c =? 49); done.
Qed.

Lemma length_chars vs : Forall (digit 5) vs -> String.length (chars vs) = length vs.
Proof.
  induction 1 as [|v vs Hv _ IH]; [done|]. rewrite chars_cons, length_app_string, IH.
  by destruct (value_char_spec v Hv) as (c & -> & _).
Qed.

(** Decoding what has the form of an address. *)
Lemma decode_form vs cs :
  Forall (digit 5) vs -> Forall (digit 5) cs -> length cs = 6%nat ->
  decodeBech32Address ("inj1" +:+ chars (vs ++ cs)) =
    (fail_if negb (bech32VerifyChecksum "inj" (vs ++ cs))
       as Errorf "invalid bech32 checksum for %q" [GStr ("inj1" +:+ chars (vs ++ cs))] ;;
     let? converted := bech32ConvertBits vs 5 8 false in
     fail_if negb (llen converted =? 20)
       as Errorf "bech32 address payload has %d bytes, want 20" [GInt (llen converted)] ;;
     Ok (map byte_of_Z converted)).
Proof.
  intros Hv Hc Hl. assert (Forall (digit 5) (vs ++ cs)) as Hd by (by apply Forall_app).
  destruct (lower_address _ Hd) as [_ Hlow]. unfold decodeBech32Address.
  rewrite Hlow, (address_separator _ Hd).
  rewrite (bool_decide_eq_false_2 (_ = ""%string)) by done.
  rewrite (bool_decide_eq_true_2 (_ = (_ +:+ _)%string)) by done.
  assert (slen ("inj1" +:+ chars (vs ++ cs)) = 10 + llen vs) as Hs.
  { unfold slen, llen. rewrite length_app_string, length_chars, length_app, Hl by done. cbn. lia. }
  rewrite Hs. pose proof (llen_nonneg vs).
  change (default (-1) (Some 3)) with 3. change (3 <=? 0) with false.
  cbn [orb negb]. destruct (Z.ltb_spec (10 + llen vs) (3 + 7)); [lia|].
  assert (String.substring 0 (Z.to_nat 3) ("inj1" +:+ chars (vs ++ cs)) = "inj"%string) as ->
    by apply (substring_front "inj" ("1" +:+ chars (vs ++ cs))).
  assert (String.substring (Z.to_nat 3 + 1)
    (String.length ("inj1" +:+ chars (vs ++ cs)) - (Z.to_nat 3 + 1)) ("inj1" +:+ chars (vs ++ cs))
    = chars (vs ++ cs)) as ->.
  { rewrite length_app_string. change (String.length "inj1") with (Z.to_nat 3 + 1)%nat.
    rewrite Nat.add_sub_swap, Nat.sub_diag by lia. apply (substring_back "inj1"). }
  cbn [bool_decide negb].
  rewrite charset_values_chars by done.
  rewrite (length_app vs cs), Hl, Nat.add_sub, take_app_length. done.
Qed.

(** What an ASCII string that decodes looks like. *)
Lemma decode_inv s p :
  all_chars ascii_char s = true -> decodeBech32Address s = Ok p ->
  exists vs cs, s = ("inj1" +:+ chars (vs ++ cs))%string /\
    Forall (digit 5) vs /\ Forall (digit 5) cs /\ length cs = 6%nat.
Proof.
  intros Ha. unfold decodeBech32Address. destruct (_ || _); [done|].
  destruct (LastIndexByte s 49) as [i|] eqn:Ei; [|done].
  destruct (last_index_spec _ _ _ Ei) as (a & d & b & -> & Hd & Hi). cbn [default from_option id].
  destruct (_ || _) eqn:Elen; [done|]. apply orb_false_iff in Elen as [_ Elen]. apply Z.ltb_ge in Elen.
  assert (Z.to_nat i = String.length a) as -> by (unfold slen in Hi; lia).
  rewrite substring_front.
  destruct (bool_decide (a = _)) eqn:Ea; [|done]. apply bool_decide_eq_true in Ea as ->.
  assert (d = "1"%char) as -> by (apply is_char_spec; unfold is_char; by rewrite Hd).
  change ("inj" +:+ String "1" b)%string with ("inj1" +:+ b)%string in *.
  rewrite length_app_string. change (String.length "inj1") with (String.length "inj" + 1)%nat.
  rewrite Nat.add_sub_swap, Nat.sub_diag by lia.
  change (String.substring _ _ _) with (String.substring (String.length "inj1") (String.length b) ("inj1" +:+ b)).
  rewrite substring_back. rewrite all_chars_app in Ha. apply andb_true_iff in Ha as [_ Ha].
  destruct (charset_values 0 b) as [vs|] eqn:Eb; [|done]. cbn [negb]. intros _.
  destruct (charset_values_sound b vs Ha Eb) as [Hvs ->].
  assert (6 <= length vs)%nat as Hl.
  { unfold slen in Elen. rewrite length_app_string, length_chars in Elen by done. cbn in Elen, Hi.
    unfold slen in Hi. cbn in Hi. lia. }
  exists (take (length vs - 6) vs), (drop (length vs - 6) vs). rewrite take_drop.
  split_and!; [done|by apply Forall_take|by apply Forall_drop|rewrite length_drop; lia].
Qed.

(** The decoder on what the encoder writes. *)
Lemma decode_encode p :
  length p = 20%nat -> decodeBech32Address (encodeBech32Address "inj" p) = Ok p.
Proof.
  intros Hp. destruct (encode_values p Hp) as (vs & Hl & Hd & Hn & ->).
  pose proof (checksum_digits "inj" vs) as Hc. rewrite decode_form by done.
  destruct (checksum_exact "inj" vs _ Hc eq_refl) as [_ ->]; [|done]. cbn [negb].
  destruct (convert_5_8 vs Hl Hd) as (bs & -> & Hbl & Hbd & Hbn).
  unfold llen. rewrite Hbl. cbn [negb Z.eqb Pos.eqb Z.of_nat Pos.of_succ_nat Pos.succ].
  assert (bs = map byte_value p) as ->; [|by rewrite bytes_of_values].
  apply (number_inj 8); [lia|done|apply byte_values_digits|by rewrite length_map, Hbl|lia].
Qed.

Lemma decoded_encoded s p :
  all_chars ascii_char s = true -> decodeBech32Address s = Ok p ->
  length p = 20%nat /\ s = encodeBech32Address "inj" p.
Proof.
  intros Ha Hs. destruct (decode_inv s p Ha Hs) as (vs & cs & -> & Hv & Hc & Hl).
  rewrite decode_form in Hs by done.
  destruct (bech32VerifyChecksum _ _) eqn:Ev; [|done]. cbn [negb] in Hs.
  destruct (bech32ConvertBits vs 5 8 false) as [bs|] eqn:Eb; [|done].
  destruct (Z.eqb_spec (llen bs) 20) as [E|]; [|done]. cbn [negb] in Hs. injection Hs as <-.
  assert (length vs = 32%nat) as Hvl by (by eapply convert_5_8_length).
  destruct (convert_5_8 vs Hvl Hv) as (bs' & Eb' & Hbl & Hbd & Hbn).
  rewrite Eb in Eb'. injection Eb' as <-.
  assert (length (map byte_of_Z bs) = 20%nat) as Hp by (by rewrite length_map).
  split; [done|]. destruct (encode_values _ Hp) as (vs' & Hl' & Hd' & Hn' & ->).
  assert (vs' = vs) as ->.
  { apply (number_inj 5); [lia|done|done|lia|]. rewrite Hn', values_of_bytes by done. lia. }
  by apply (checksum_exact "inj" vs cs Hc Hl) in Ev as ->.
Qed.

(** C37: for ASCII text the decoder and the encoder are inverse to each other:
    a string decodes to a payload exactly when the payload has 20 bytes and the
    string is its encoding.  No other prefix, no other length, no other checksum
    and no other padding is accepted, and every account has one address. *)
Theorem bech32_exact s p :
  all_chars ascii_char s = true ->
  decodeBech32Address s = Ok p <-> length p = 20%nat /\ s = encodeBech32Address "inj" p.
Proof.
  intros Ha. split; [by apply decoded_encoded|]. intros [Hp ->]. by apply decode_encode.
Qed.
End Decoding.

(** ** Wrong characters *)

Lemma app_differs P X X' a b c c' :
  (P +:+ X = a +:+ String c b)%string -> (P +:+ X' = a +:+ String c' b)%string -> c <> c' ->
  exists x, X = (x +:+ String c b)%string /\ X' = (x +:+ String c' b)%string.
Proof.
  revert a. induction P as [|d P IH]; intros a; [by exists a|].
  destruct a as [|e a].
  - intros [= -> _] [= <- _]. done.
  - intros [= -> H1] [= H2] Hc. by apply (IH a).
Qed.

Lemma chars_split vs x c y :
  Forall (digit 5) vs -> chars vs = (x +:+ String c y)%string ->
  exists us v ws, vs = us ++ v :: ws /\ chars us = x /\ value_char v = str1 c /\ chars ws = y.
Proof.
  intros Hd. revert x. induction Hd as [|v vs Hv _ IH]; intros x E; [by destruct x|].
  rewrite chars_cons in E. destruct (value_char_spec v Hv) as (d & Hd & _). rewrite Hd in E.
  destruct x as [|e x].
  - injection E as -> <-. exists [], v, vs. split_and!; done.
  - injection E as -> E. destruct (IH x E) as (us & u & ws & -> & <- & Hu & Hws).
    exists (v :: us), u, ws. split_and!; [done| |done..]. by rewrite chars_cons, Hd.
Qed.

Lemma chars_inj vs us :
  Forall (digit 5) vs -> Forall (digit 5) us -> chars vs = chars us -> vs = us.
Proof.
  intros Hv Hu E. pose proof (charset_values_chars vs Hv) as H. rewrite E, charset_values_chars in H by done.
  by injection H.
Qed.

Lemma fold_lossless vs c c' :
  Forall (digit 5) vs -> 0 <= c < 2 ^ 30 -> 0 <= c' < 2 ^ 30 ->
  fold_left polymod_step vs c = fold_left polymod_step vs c' -> c = c'.
Proof.
  intros Hd. revert c c'. induction Hd as [|v vs Hv _ IH]; intros c c' Hc Hc'; cbn [fold_left]; [done|].
  intros E. apply IH in E; [|by apply step_range..]. by apply step_lossless in E.
Qed.

Lemma one_value_shows prefix us v v' ws :
  0 <= v < 2 ^ 5 -> 0 <= v' < 2 ^ 5 -> Forall (digit 5) ws ->
  bech32VerifyChecksum prefix (us ++ v :: ws) = true ->
  bech32VerifyChecksum prefix (us ++ v' :: ws) = true -> v = v'.
Proof.
  unfold bech32VerifyChecksum, bech32Polymod. intros Hv Hv' Hw H1%Z.eqb_eq H2%Z.eqb_eq.
  rewrite !fold_left_app in *. cbn [fold_left] in *. pose proof (eq_trans H1 (eq_sym H2)) as E. clear H1 H2.
  apply fold_lossless in E; [|done|by apply step_range..].
  rewrite (step_value _ v), (step_value _ v') in E.
  apply (f_equal (Z.lxor (polymod_step (fold_left polymod_step us
    (fold_left polymod_step (bech32HrpExpand prefix) 1)) 0))) in E.
  by rewrite <- !Z.lxor_assoc, Z.lxor_nilpotent, !Z.lxor_0_l in E.
Qed.

Section Wrong.
Context {UC : UnicodeCase}.

Lemma decode_checksum s p :
  all_chars ascii_char s = true -> decodeBech32Address s = Ok p ->
  exists vs, s = ("inj1" +:+ chars vs)%string /\ Forall (digit 5) vs /\
    bech32VerifyChecksum "inj" vs = true.
Proof.
  intros Ha Hs. destruct (decode_inv s p Ha Hs) as (vs & cs & -> & Hv & Hc & Hl).
  rewrite decode_form in Hs by done. destruct (bech32VerifyChecksum _ _) eqn:Ev; [|done].
  exists (vs ++ cs). split_and!; [done|by apply Forall_app|done].
Qed.

(** C38: a mistyped address is never taken for another account.  If a string
    decodes, then every string that differs from it in exactly one character,
    wherever that is, is refused. *)
Theorem mistyped_address_refused a c c' b p :
  all_chars ascii_char (a +:+ String c b) = true -> ascii_char c' = true ->
  decodeBech32Address (a +:+ String c b) = Ok p -> c <> c' ->
  is_ok (decodeBech32Address (a +:+ String c' b)) = false.
Proof.
  intros Ha Hc' Hp Hne. destruct (decodeBech32Address (a +:+ String c' b)) as [p'|] eqn:Hp'; [|done].
  assert (all_chars ascii_char (a +:+ String c' b) = true) as Ha'.
  { rewrite all_chars_app in Ha |- *. cbn [all_chars] in Ha |- *. rewrite Hc'.
    apply andb_true_iff in Ha as [-> Ha]. by apply andb_true_iff in Ha as [_ ->]. }
  destruct (decode_checksum _ _ Ha Hp) as (vs & E & Hv & Hk).
  destruct (decode_checksum _ _ Ha' Hp') as (vs' & E' & Hv' & Hk').
  destruct (app_differs "inj1" (chars vs) (chars vs') a b c c') as (x & Hx & Hx'); [done..|].
  destruct (chars_split _ _ _ _ Hv Hx) as (us & v & ws & -> & <- & Hvc & Hws).
  destruct (chars_split _ _ _ _ Hv' Hx') as (us' & v' & ws' & -> & Hus & Hvc' & Hws').
  apply Forall_app in Hv as [Hu [Hv Hw]%Forall_cons_1]. apply Forall_app in Hv' as [Hu' [Hv' Hw']%Forall_cons_1].
  apply chars_inj in Hus as ->; [|done..]. rewrite <- Hws in Hws'. apply chars_inj in Hws' as ->; [|done..].
  assert (v = v') as -> by (by eapply one_value_shows).
  rewrite Hvc in Hvc'. injection Hvc' as <-. done.
Qed.
End Wrong.

(** ** Beyond ASCII *)

(** The account 0 with its first two data characters written as U+0171, whose
    low byte is the letter [q]. *)
Definition account_zero : bytes := zero_bytes 20.
Definition plain_address : string := encodeBech32Address "inj" account_zero.
Definition aliased_address : string :=
  "inj1" +:+ encode_rune 0x171 +:+ String.substring 6 (String.length plain_address - 6) plain_address.

(** addresses have spellings outside ASCII.  [decodeBech32Address] takes the
    low byte of each rune and leaves the places of its further bytes at zero, so a
    lower-case rune passes for the letter [q] twice and a string that is not an
    address decodes to an account. *)
Theorem address_alias_accepted {UC : UnicodeCase} :
  wide_lower aliased_address = aliased_address ->
  all_chars ascii_char aliased_address = false /\ aliased_address <> plain_address /\
  decodeBech32Address aliased_address = Ok account_zero /\
  decodeBech32Address plain_address = Ok account_zero.
Proof.
  intros Hw. split_and!; [by vm_compute|by (apply (bool_decide_unpack _); vm_compute)| |].
  - unfold decodeBech32Address, wide_ToLower.
    assert (all_chars ascii_char aliased_address = false) as -> by (by vm_compute). rewrite Hw.
    by vm_compute.
  - by vm_compute.
Qed.

(** ** Witnesses *)

Definition sample_payload : bytes := default [] (hex_decode "c6fe5d33615a1c52c08018c47e8bc53646a0e101").
Definition sample_address : string := "inj1cml96vmptgw99syqrrz8az79xer2pcgp0a885r".

#[local] Instance no_change : UnicodeCase := { wide_lower s := s }.

Lemma bech32_exact_witness :
  all_chars ascii_char sample_address = true /\
  (decodeBech32Address sample_address = Ok sample_payload <->
   length sample_payload = 20%nat /\ sample_address = encodeBech32Address "inj" sample_payload).
Proof. split; [by vm_compute|]. apply bech32_exact. by vm_compute. Defined.

Lemma mistyped_address_refused_witness :
  is_ok (decodeBech32Address ("inj1c" +:+ String "n" "l96vmptgw99syqrrz8az79xer2pcgp0a885r")) = false.
Proof.
  apply (mistyped_address_refused "inj1c" "m" "n" "l96vmptgw99syqrrz8az79xer2pcgp0a885r" sample_payload);
    [by vm_compute..|done].
Defined.

Lemma address_alias_accepted_witness :
  wide_lower aliased_address = aliased_address /\
  decodeBech32Address aliased_address = Ok account_zero.
Proof. split; [done|]. by apply address_alias_accepted. Defined.
