(* ===== verification/EvmRpc.v ===== *)
(** * The EVM JSON-RPC transport

    [internal/chain/evm_rpc.go]: hexadecimal quantities, one JSON-RPC call with
    its retries, the typed queries and the wait for a receipt, over the network
    of [GoIo.Transport]; and hexadecimal texts.  [ev_sent] is not a field of the Go structs: it logs the
    requests that were sent, for the theorems to speak about. *)
From Stdlib Require Import ZArith Lia Ascii String.
From stdpp Require Import base list strings option.
From S2P Require Import Prelude GoText Prog GoIo Json Geth EvmAddress.

Local Open Scope Z_scope.

(** ** Hexadecimal quantities *)

Definition trim_0x (s : string) : string := TrimPrefix (TrimPrefix s "0x") "0X".

Definition normalizeOddHex (value : string) : string :=
  if slen value mod 2 =? 1 then "0" +:+ value else value.

Definition parseHexUint (raw : string) : result Z :=
  let value := trim_0x (TrimSpace raw) in
  if decide (value = ""%string) then Ok 0
  else
    fail_if 16 <? slen value as Errorf "hex quantity %q overflows uint64" [GStr raw] ;;
    match hex_decode (normalizeOddHex value) with
    | Some parsed => Ok (u64 (be_value parsed))
    | None => Err (Wrapf "invalid hex quantity %q: %w" [GStr raw] (Errorf "encoding/hex" []))
    end.

Definition decodeHexBytes (raw : string) : result bytes :=
  let value := trim_0x (TrimSpace raw) in
  if decide (value = ""%string) then Ok []
  else
    fail_if negb (slen value mod 2 =? 0) as Errorf "hex data %q has odd length" [GStr raw] ;;
    match hex_decode value with
    | Some decoded => Ok decoded
    | None => Err (Wrapf "invalid hex data: %w" [] (Errorf "encoding/hex" []))
    end.

Definition normalizeHex (value : string) : string :=
  let value := TrimSpace value in
  if decide (value = ""%string) then "0x"
  else if hex_prefixed value then "0x" +:+ String.substring 2 (String.length value - 2) value
  else "0x" +:+ value.

(** The digits of [%x] for an unsigned integer. *)
Fixpoint hex_digits (fuel : nat) (n : Z) : string :=
  match fuel with
  | O => ""
  | S fuel' =>
      if n <? 16 then str1 (hex_digit (Z.to_N n))
      else hex_digits fuel' (n / 16) +:+ str1 (hex_digit (Z.to_N (n mod 16)))
  end.
Definition FormatHex (n : Z) : string := hex_digits 16 n.

(** ** Errors *)

(** The errors of a [context.Context]. *)
Definition Canceled : goerror := Typed "context.Canceled" (Errorf "context canceled" []).
Definition DeadlineExceeded : goerror :=
  Typed "context.DeadlineExceeded" (Errorf "context deadline exceeded" []).

Definition is_some_args (o : option (list garg)) : bool :=
  match o with Some _ => true | None => false end.
Definition errors_Is_context (e : goerror) : bool :=
  is_some_args (errors_As "context.Canceled" e) ||
  is_some_args (errors_As "context.DeadlineExceeded" e).

Definition RPCError (method : string) (code : Z) (message data : string) : goerror :=
  Typed "RPCError"
    (Errorf ("EVM RPC %s failed (code %d): %s" +:+
             if bool_decide (data = ""%string) then "" else ": %s")
       [GStr method; GInt code; GStr message; GStr data]).

Definition rpcHTTPError (method : string) (status : Z) (body : string) : goerror :=
  Typed "rpcHTTPError" (Errorf "EVM RPC %s HTTP %d: %s" [GStr method; GInt status; GStr body]).

Definition rpcTransportError (method : string) (e : goerror) : goerror :=
  Typed "rpcTransportError" (Wrapf "EVM RPC %s transport: %w" [GStr method] e).

(** The [Err] of the first [rpcTransportError] in the chain. *)
Fixpoint transport_cause (e : goerror) : option goerror :=
  match e with
  | Errorf _ _ => None
  | Wrapf _ _ cause => transport_cause cause
  | Typed t (Wrapf format args cause) =>
      if decide (t = "rpcTransportError"%string) then Some cause else transport_cause cause
  | Typed _ e => transport_cause e
  | Joined _ first second =>
      match transport_cause first with
      | Some cause => Some cause
      | None => transport_cause second
      end
  end.

Definition retryable_status (status : Z) : bool :=
  (status =? 408) || (status =? 429) || (500 <=? status).

Definition retryableRPCError (e : goerror) : bool :=
  match errors_As "rpcHTTPError" e with
  | Some [_; GInt status; _] => retryable_status status
  | Some _ => false
  | None =>
      match transport_cause e with
      | Some cause => negb (errors_Is_context cause)
      | None => false
      end
  end.

Definition TransactionRevertedError (hash status : string) : goerror :=
  Typed "TransactionRevertedError"
    (Errorf "EVM transaction %s reverted (status %s)"
       [GStr hash; GStr (if bool_decide (status = ""%string) then "0x0" else status)]).

Definition isTransientReceiptRPCError (e : goerror) : bool :=
  retryableRPCError e ||
  match errors_As "RPCError" e with
  | Some [GStr method; GInt code; GStr message; _] =>
      bool_decide (method = "eth_getTransactionReceipt"%string) &&
      ((code =? -32603) || Contains (ToLower message) "internal error")
  | _ => false
  end.

(** ** Raw members

    [json.RawMessage] keeps the text of a value. *)
Definition consumed (s rest : string) : string :=
  String.substring 0 (String.length s - String.length rest) s.

(** The members of an object and their texts, from behind the opening brace. *)
Fixpoint raw_members_go (fuel : nat) (s : string) : list (string * string) :=
  match fuel with
  | O => []
  | S fuel' =>
      match parse_value (fuel_of s) 0 (skip_space s) with
      | Some (JString k, rest) =>
          match skip_space rest with
          | String colon rest =>
              let text := skip_space rest in
              match parse_value (fuel_of text) 0 text with
              | Some (_, rest) =>
                  (k, consumed text rest) ::
                  match skip_space rest with
                  | String c rest => if is_char "," c then raw_members_go fuel' rest else []
                  | EmptyString => []
                  end
              | None => []
              end
          | EmptyString => []
          end
      | _ => []
      end
  end.
Definition raw_members (text : string) : list (string * string) :=
  match skip_space text with
  | String c rest => if is_char "{" c then raw_members_go (String.length rest) rest else []
  | EmptyString => []
  end.

(** The last of the members that match. *)
Definition raw_field (matches : string -> bool) (old : string) (ms : list (string * string)) : string :=
  fold_left (fun old '(k, text) => if matches k then text else old) ms old.

Definition null_text (raw : string) : bool :=
  bool_decide (raw = ""%string) || bool_decide (TrimSpace raw = "null"%string).

(** [rpcErrorData]; each level of the object is shorter than the one around it. *)
Fixpoint error_data (fuel : nat) (raw : string) : string :=
  if null_text raw then ""
  else match Unmarshal raw with
       | Ok (JString value) => value
       | Ok (JObject _) =>
           match fuel with
           | O => TrimSpace raw
           | S fuel' =>
               let nested key := error_data fuel' (raw_field (fun k => bool_decide (k = key)) "" (raw_members raw)) in
               match filter (fun s => s <> ""%string) (map nested ["data"; "originalError"; "error"]%string) with
               | found :: _ => found
               | [] => TrimSpace raw
               end
           end
       | _ => TrimSpace raw
       end.
Definition rpcErrorData (raw : string) : string := error_data (String.length raw) raw.

(** ** Requests and responses *)

Record rpcErrorBody := mk_rpcErrorBody { eb_Code : Z; eb_Message : string; eb_Data : string }.

Definition decode_error_body (raw : string) (old : option rpcErrorBody) : result (option rpcErrorBody) :=
  let? v := Unmarshal raw in
  match v with
  | JNull => Ok None
  | _ =>
      let? ms := struct_members v in
      let b := default (mk_rpcErrorBody 0 "" "") old in
      let? code := int64_field "code" (eb_Code b) ms in
      let? message := string_field "message" (eb_Message b) ms in
      Ok (Some (mk_rpcErrorBody code message
                  (raw_field (key_matches "data") (eb_Data b) (raw_members raw))))
  end.

Record rpcResponse := mk_rpcResponse { rpc_Result : string; rpc_Error : option rpcErrorBody }.

Definition decode_rpcResponse (text : string) : result rpcResponse :=
  let? v := Unmarshal text in
  let? ms := struct_members v in
  let raws := raw_members text in
  let? _ := string_field "jsonrpc" "" ms in
  let? error := foldM (fun old '(k, raw) =>
    if key_matches "error" k then decode_error_body raw old else Ok old) raws None in
  Ok (mk_rpcResponse (raw_field (key_matches "result") "" raws) error).

(** [EVMCall]; empty members are left out. *)
Record EVMCall := mk_EVMCall {
  ec_From : string; ec_To : string; ec_Gas : string; ec_Value : string; ec_Data : string }.

Definition call_json (c : EVMCall) : json :=
  JObject (text_unless_empty "from" (ec_From c) ++ text_unless_empty "to" (ec_To c) ++
           text_unless_empty "gas" (ec_Gas c) ++ text_unless_empty "value" (ec_Value c) ++
           text_unless_empty "data" (ec_Data c)).

Definition request_text (id : Z) (method : string) (params : list json) : string :=
  Marshal (JObject [text_member "jsonrpc" "2.0"; int_member "id" id; text_member "method" method;
                    ("params"%string, JArray params)]).

Record EVMLog := mk_EVMLog {
  lg_Address : string;
  lg_Topics : list string;
  lg_Data : string;
  lg_BlockNumber : string;
  lg_BlockHash : string;
  lg_TransactionHash : string;
  lg_Removed : bool;
}.

Record EVMReceipt := mk_EVMReceipt {
  rc_TransactionHash : string;
  rc_BlockNumber : string;
  rc_BlockHash : string;
  rc_To : string;
  rc_ContractAddress : string;
  rc_Status : string;
  rc_GasUsed : string;
  rc_Logs : list EVMLog;
}.

Record EVMBlock := mk_EVMBlock { bl_Number : string; bl_Hash : string }.

(** A slice: every element of the array is decoded into a zero value. *)
Definition decode_slice {T} (decode : json -> result T) (v : json) (old : list T) : result (list T) :=
  match v with
  | JNull => Ok []
  | JArray items => foldM (fun l x => let? y := decode x in Ok (l ++ [y])) items []
  | _ => type_error
  end.

Definition decode_log (v : json) : result EVMLog :=
  let? ms := struct_members v in
  let? address := string_field "address" "" ms in
  let? topics := field (decode_slice (fun x => decode_string x "")) "topics" [] ms in
  let? data := string_field "data" "" ms in
  let? number := string_field "blockNumber" "" ms in
  let? hash := string_field "blockHash" "" ms in
  let? tx := string_field "transactionHash" "" ms in
  let? removed := bool_field "removed" false ms in
  Ok (mk_EVMLog address topics data number hash tx removed).

Definition decode_receipt (v : json) : result EVMReceipt :=
  let? ms := struct_members v in
  let? tx := string_field "transactionHash" "" ms in
  let? number := string_field "blockNumber" "" ms in
  let? hash := string_field "blockHash" "" ms in
  let? to := string_field "to" "" ms in
  let? contract := string_field "contractAddress" "" ms in
  let? status := string_field "status" "" ms in
  let? gas := string_field "gasUsed" "" ms in
  let? logs := field (decode_slice decode_log) "logs" [] ms in
  Ok (mk_EVMReceipt tx number hash to contract status gas logs).

Definition decode_block (v : json) : result EVMBlock :=
  let? ms := struct_members v in
  let? number := string_field "number" "" ms in
  let? hash := string_field "hash" "" ms in
  Ok (mk_EVMBlock number hash).

(** ** The transport *)

(** Waiting for a while, or until the context of the call is done: then [Err]
    holds the error of the context. *)
Class Waiting {TR : Transport} := { wait : Z -> net -> net * result unit }.

Definition millisecond : Z := 1000000.
Definition maxRPCAttempts : nat := 3.
Definition initialRPCBackoff : Z := 100 * millisecond.
Definition defaultReceiptInterval : Z := 500 * millisecond.
Definition maxRPCResponseBytes : Z := 8 * 2 ^ 20.
Definition maxReceiptRPCErrors : Z := 3.

(** [evmNonceManager] without its lock; [reserve] and [invalidate] hold it
    throughout. *)
Record nonce_cache := mk_nonce_cache {
  nc_valid : bool;
  nc_endpoint : string;
  nc_chainID : Z;
  nc_from : string;
  nc_next : Z;
  nc_generation : Z;
}.

Section RPC.
Context {UC : UnicodeCase} {TR : Transport} {WT : Waiting}.

Record EVMRPC := mk_EVMRPC { rpc_endpoint : string; rpc_interval : Z }.

Definition NewEVMRPC (endpoint : string) : EVMRPC :=
  mk_EVMRPC (TrimSpace endpoint) defaultReceiptInterval.
Definition SetReceiptInterval (interval : Z) (r : EVMRPC) : EVMRPC :=
  mk_EVMRPC (rpc_endpoint r) (if interval <=? 0 then defaultReceiptInterval else interval).

(** What the operations change: the network, the request counter and the nonce
    manager of the registry. *)
Record evm := mk_evm {
  ev_net : net;
  ev_nextID : Z;
  ev_nonces : nonce_cache;
  ev_sent : list message;
}.

Definition set_nonces (m : nonce_cache) (s : evm) : evm :=
  mk_evm (ev_net s) (ev_nextID s) m (ev_sent s).

Definition nextRequestID : prog evm Z := fun s =>
  let id := u64 (ev_nextID s + 1) in
  (mk_evm (ev_net s) id (ev_nonces s) (ev_sent s), Ok id).

Definition exchange (m : message) : prog evm response := fun s =>
  let '(n, r) := http_do m (ev_net s) in
  (mk_evm n (ev_nextID s) (ev_nonces s) (ev_sent s ++ [m]), r).

Definition waiting (duration : Z) : prog evm unit := fun s =>
  let '(n, r) := wait duration (ev_net s) in
  (mk_evm n (ev_nextID s) (ev_nonces s) (ev_sent s), r).

Variable r : EVMRPC.

(** What [callOnce] makes of a response; [None] leaves [out] as it was. *)
Definition judge_response {A} (method : string) (decode : json -> result A) (resp : response)
  : result (option A) :=
  let? body := match read_limited (maxRPCResponseBytes + 1) resp with
               | Ok body => Ok body
               | Err e => Err (rpcTransportError method (Wrapf "read response: %w" [] e))
               end in
  fail_if maxRPCResponseBytes <? slen body
    as Errorf "EVM RPC %s response exceeds %d bytes" [GStr method; GInt maxRPCResponseBytes] ;;
  fail_if negb (success_status (re_status resp))
    as rpcHTTPError method (re_status resp) (TrimSpace body) ;;
  let? decoded := wrapf "decode EVM RPC %s response: %w" [GStr method] (decode_rpcResponse body) in
  match rpc_Error decoded with
  | Some e => Err (RPCError method (eb_Code e) (eb_Message e) (rpcErrorData (eb_Data e)))
  | None =>
      if null_text (rpc_Result decoded) then Ok None
      else
        let? v := wrapf "decode EVM RPC %s result: %w" [GStr method]
                    (let? tree := Unmarshal (rpc_Result decoded) in decode tree) in
        Ok (Some v)
  end.

Definition call_message (body : string) : message := mk_message "POST" (rpc_endpoint r) "" body.

Definition callOnce {A} (method body : string) (decode : json -> result A) : prog evm (option A) :=
  of_result (wrapf "create EVM RPC %s request: %w" [GStr method] (new_request (rpc_endpoint r)));;
  reply ← attempt (exchange (call_message body));
  match reply with
  | Err e => fail (rpcTransportError method e)
  | Ok resp => of_result (judge_response method decode resp)
  end.

Fixpoint call_loop {A} (left : nat) (attempts : Z) (method body : string) (decode : json -> result A)
  : prog evm (option A) :=
  match left with
  | O => fail (Errorf "EVM RPC %s failed after %d attempts" [GStr method; GInt attempts])
  | S left' =>
      outcome ← attempt (callOnce method body decode);
      match outcome with
      | Ok v => mret v
      | Err e =>
          if negb (retryableRPCError e) || bool_decide (left' = 0%nat) then fail e
          else
            wrap_error "retry EVM RPC %s: %w" [GStr method]
              (waiting (initialRPCBackoff * 2 ^ attempts));;
            call_loop left' (attempts + 1) method body decode
      end
  end.

Definition Call {A} (method : string) (params : list json) (decode : json -> result A)
  : prog evm (option A) :=
  if decide (TrimSpace (rpc_endpoint r) = ""%string) then
    fail (Errorf "EVM RPC endpoint is not configured" [])
  else
    id ← nextRequestID;
    call_loop maxRPCAttempts 0 method (request_text id method params) decode.

(** *** Queries *)

(** A call with a string for its result; no result leaves it empty. *)
Definition call_string (method : string) (params : list json) : prog evm string :=
  raw ← Call method params (fun v => decode_string v "");
  mret (default ""%string raw).

Definition blank_text (s : string) : bool := bool_decide (TrimSpace s = ""%string).

Definition call_quantity (method : string) (params : list json) : prog evm Z :=
  raw ← call_string method params;
  if blank_text raw then fail (Errorf (method +:+ " returned null result") [])
  else of_result (parseHexUint raw).

Definition ChainID : prog evm Z := call_quantity "eth_chainId" [].
Definition BlockNumber : prog evm Z := call_quantity "eth_blockNumber" [].

Definition tag_or (zero tag : string) : string := if blank_text tag then zero else tag.

Definition BlockByNumber (blockTag : string) : prog evm EVMBlock :=
  block ← Call "eth_getBlockByNumber" [JString (tag_or "latest" blockTag); JBool false] decode_block;
  match block with
  | Some b =>
      if blank_text (bl_Number b) || blank_text (bl_Hash b)
      then fail (Errorf "eth_getBlockByNumber returned an incomplete block" [])
      else mret b
  | None => fail (Errorf "eth_getBlockByNumber returned an incomplete block" [])
  end.

Definition call_bytes (method : string) (params : list json) : prog evm bytes :=
  raw ← call_string method params;
  if blank_text raw then fail (Errorf (method +:+ " returned null result") [])
  else of_result (decodeHexBytes raw).

Definition CodeAt (address blockTag : string) : prog evm bytes :=
  address ← of_result (normalizeEVMAddress address);
  call_bytes "eth_getCode" [JString address; JString (tag_or "latest" blockTag)].

Definition CallContractAt (to data blockTag : string) : prog evm bytes :=
  call_bytes "eth_call"
    [call_json (mk_EVMCall "" to "" "" (normalizeHex data)); JString (tag_or "latest" blockTag)].
Definition CallContract (to data : string) : prog evm bytes := CallContractAt to data "latest".

Definition EstimateGas (c : EVMCall) : prog evm Z := call_quantity "eth_estimateGas" [call_json c].

Definition TransactionCount (address blockTag : string) : prog evm Z :=
  call_quantity "eth_getTransactionCount" [JString address; JString (tag_or "pending" blockTag)].

Definition GasPrice : prog evm string :=
  raw ← call_string "eth_gasPrice" [];
  of_result (parseHexUint raw);;
  mret (normalizeHex raw).

Definition SendRawTransaction (rawTx : string) : prog evm string :=
  hash ← call_string "eth_sendRawTransaction" [JString (normalizeHex rawTx)];
  if blank_text hash
  then fail (Errorf "eth_sendRawTransaction returned an empty transaction hash" [])
  else mret hash.

Definition TransactionReceipt (hash : string) : prog evm (option EVMReceipt) :=
  Call "eth_getTransactionReceipt" [JString hash] decode_receipt.

(** *** Waiting for a receipt *)

Definition reverted (receipt : EVMReceipt) : bool :=
  EqualFold (TrimSpace (rc_Status receipt)) "0x0" ||
  bool_decide (TrimSpace (rc_Status receipt) = "0"%string).

(** How the wait ended: the receipt and the error, as the source returns both. *)
Definition settled (hash : string) (receipt : EVMReceipt) : option EVMReceipt * option goerror :=
  (Some receipt,
   if reverted receipt then Some (TransactionRevertedError hash (rc_Status receipt)) else None).

(** The polling loop has no bound of its own, the context ends it; [None] means
    that the fuel ran out first. *)
Fixpoint WaitReceipt (fuel : nat) (hash : string) (transientErrors : Z)
  : prog evm (option (option EVMReceipt * option goerror)) :=
  match fuel with
  | O => mret None
  | S fuel' =>
      outcome ← attempt (TransactionReceipt hash);
      let poll errors :=
        waited ← attempt (waiting (rpc_interval r));
        match waited with
        | Err e => mret (Some (None, Some (Wrapf "wait for EVM transaction %s receipt: %w" [GStr hash] e)))
        | Ok _ => WaitReceipt fuel' hash errors
        end in
      match outcome with
      | Err e =>
          if negb (isTransientReceiptRPCError e) || (maxReceiptRPCErrors - 1 <=? transientErrors)
          then mret (Some (None, Some e))
          else poll (transientErrors + 1)
      | Ok (Some receipt) => mret (Some (settled hash receipt))
      | Ok None => poll 0
      end
  end.

End RPC.

(** ** hexadecimal texts and their parsers

    What [parseEVMAddress], [normalizeEVMAddress] and [decodeHexBytes] make of
    the texts that [common.Address.Hex] and [hex.EncodeToString] print. *)

Lemma visible_lower : forall c, visible (lower_char c) = true -> visible c = true.
Proof. all_ascii. Qed.

Lemma hex_value_lower : forall c, hex_value (lower_char c) = hex_value c.
Proof. all_ascii. Qed.

Lemma lower_char_0 : forall c, is_char "0" (lower_char c) = is_char "0" c.
Proof. all_ascii. Qed.

Lemma lower_char_x : forall c, is_char "x" (lower_char c) = is_char "x" c || is_char "X" c.
Proof. all_ascii. Qed.

Lemma hex_decode_ToLower s : hex_decode (ToLower s) = hex_decode s.
Proof.
  induction s as [|a|a b s IH] using string_pair_ind; [done|done|].
  change (ToLower (String a (String b s)))
    with (String (lower_char a) (String (lower_char b) (ToLower s))).
  cbn [hex_decode]. by rewrite !hex_value_lower, IH.
Qed.

Lemma all_visible_lower s : all_chars visible (ToLower s) = true -> all_chars visible s = true.
Proof.
  induction s as [|c s IH]; [done|]. cbn. intros [Hc Hs]%andb_true_iff.
  by rewrite (visible_lower _ Hc), IH.
Qed.

Lemma lower_0x s r :
  ToLower s = ("0x" +:+ r)%string ->
  exists d, (s = "0x" +:+ d \/ s = "0X" +:+ d)%string /\ ToLower d = r.
Proof.
  destruct s as [|a [|b d]]; [done|intros [=]|]. intros [= Ha Hb Hd].
  apply is_char_spec in Ha, Hb. rewrite lower_char_0 in Ha. rewrite lower_char_x in Hb.
  apply is_char_spec in Ha as ->. exists d. split; [|exact Hd].
  by apply orb_true_iff in Hb as [->%is_char_spec| ->%is_char_spec]; [left|right].
Qed.

Lemma substring_rest a b d :
  String.substring 2 (String.length (String a (String b d)) - 2) (String a (String b d)) = d.
Proof. simpl. rewrite Nat.sub_0_r. induction d as [|c d IH]; simpl; [done|by rewrite IH]. Qed.

Section Texts.
Context {UC : UnicodeCase}.

(** A text of 20 bytes in hexadecimal digits of any case. *)
Lemma parse_hex_text s a :
  ToLower s = ("0x" +:+ hex_encode a)%string -> length a = 20%nat -> parseEVMAddress s = Ok a.
Proof.
  intros Hs Ha. unfold parseEVMAddress. rewrite TrimSpace_all_visible.
  2: { apply all_visible_lower. rewrite Hs, all_chars_app. apply andb_true_iff.
       split; [reflexivity|apply hex_encode_visible]. }
  apply lower_0x in Hs as (d & Hd & E).
  assert (slen d = 40) as Hl.
  { rewrite <- slen_ToLower, E, slen_hex_encode. unfold llen. lia. }
  assert (hex_decode d = Some a) as Hx by (rewrite <- hex_decode_ToLower, E; apply hex_decode_encode).
  assert (hex_prefixed s = true) as ->.
  { unfold hex_prefixed. destruct Hd as [->| ->]; rewrite HasPrefix_app; [done|apply orb_true_r]. }
  assert (String.substring 2 (String.length s - 2) s = d) as ->
    by (destruct Hd as [->| ->]; apply substring_rest).
  by rewrite Hl, Hx.
Qed.

Lemma normalize_hex_text s a :
  ToLower s = ("0x" +:+ hex_encode a)%string -> length a = 20%nat ->
  normalizeEVMAddress s = Ok ("0x" +:+ hex_encode a)%string.
Proof. intros Hs Ha. unfold normalizeEVMAddress. by rewrite (parse_hex_text s a). Qed.

End Texts.

Lemma decodeHexBytes_text b : decodeHexBytes ("0x" +:+ hex_encode b) = Ok b.
Proof.
  unfold decodeHexBytes. rewrite TrimSpace_all_visible.
  2: { rewrite all_chars_app. apply andb_true_iff. split; [reflexivity|apply hex_encode_visible]. }
  unfold trim_0x. rewrite TrimPrefix_app.
  assert (TrimPrefix (hex_encode b) "0X" = hex_encode b) as ->.
  { unfold TrimPrefix. destruct (cut_prefix "0X" (hex_encode b)) as [r|] eqn:E; [|done].
    apply cut_prefix_spec in E. pose proof (hex_encode_lower b) as Hl. rewrite E in Hl.
    discriminate Hl. }
  case_decide as Eb; [by destruct b|].
  rewrite slen_hex_encode. replace (2 * llen b) with (llen b * 2) by lia.
  by rewrite Z.mod_mul, hex_decode_encode by lia.
Qed.
