(* ===== verification/EvmTx.v ===== *)
(** * Sending transactions

    [internal/chain/evm_gas.go], [evm_nonce.go], [evm_types.go] and
    [evm_transactor.go]: the gas limit, the nonce manager and the write pipeline
    of estimating, signing, broadcasting and confirming a transaction. *)
From Stdlib Require Import ZArith Lia Ascii String.
From stdpp Require Import base list strings option.
From S2P Require Import Prelude GoText Prog GoIo Json EvmAddress EvmRpc.

Local Open Scope Z_scope.

(** ** Gas *)

Definition AdjustEVMGasLimit (estimated headroom : Z) : result Z :=
  let overflow := Errorf "estimated gas %d overflows gas adjustment" [GInt estimated] in
  let quotient := estimated / 10 in
  let remainder := estimated mod 10 in
  fail_if MaxUint64 / 14 <? quotient as overflow ;;
  let scaled := u64 (quotient * 14) in
  let extra := u64 (remainder * 14) / 10 in
  fail_if MaxUint64 - extra <? scaled as overflow ;;
  let scaled := u64 (scaled + extra) in
  fail_if MaxUint64 - headroom <? scaled as overflow ;;
  Ok (u64 (scaled + headroom)).

Definition injectiveMinGasPriceWei : Z := 160000000.

Definition injectiveLegacyGasPrice (chainID : Z) (gasPrice : string) : result string :=
  let? price := parseHexUint gasPrice in
  let price := if ((chainID =? 1439) || (chainID =? 1776)) && (price <? injectiveMinGasPriceWei)
               then injectiveMinGasPriceWei else price in
  Ok ("0x" +:+ FormatHex price).

(** ** Nonces *)

Definition newEVMNonceManager : nonce_cache := mk_nonce_cache false "" 0 "" 0 0.

Record reservation := mk_reservation {
  rv_endpoint : string;
  rv_chainID : Z;
  rv_from : string;
  rv_generation : Z;
  rv_nonce : Z;
}.

Definition invalid (m : nonce_cache) : nonce_cache :=
  mk_nonce_cache false (nc_endpoint m) (nc_chainID m) (nc_from m) (nc_next m) (nc_generation m).

(** The cache holds the next nonce of this account. *)
Definition cached (m : nonce_cache) (endpoint : string) (chainID : Z) (from : string) : bool :=
  nc_valid m && bool_decide (nc_endpoint m = endpoint) && (nc_chainID m =? chainID) &&
  bool_decide (nc_from m = from).

(** Filling the cache with what the node reports. *)
Definition resync (m : nonce_cache) (endpoint : string) (chainID : Z) (from : string) (pending : Z)
  : nonce_cache :=
  mk_nonce_cache true endpoint chainID from pending (u64 (nc_generation m + 1)).

(** Handing out the next nonce. *)
Definition hand_out (m : nonce_cache) : nonce_cache * result (Z * reservation) :=
  if nc_next m =? MaxUint64
  then (invalid m, Err (Errorf "EVM account nonce overflow" []))
  else (mk_nonce_cache (nc_valid m) (nc_endpoint m) (nc_chainID m) (nc_from m) (nc_next m + 1)
          (nc_generation m),
        Ok (nc_next m, mk_reservation (nc_endpoint m) (nc_chainID m) (nc_from m) (nc_generation m)
                         (nc_next m))).

Definition invalidate (m : nonce_cache) (rv : reservation) : nonce_cache :=
  if nc_valid m && bool_decide (nc_endpoint m = rv_endpoint rv) && (nc_chainID m =? rv_chainID rv) &&
     bool_decide (nc_from m = rv_from rv) && (nc_generation m =? rv_generation rv)
  then mk_nonce_cache false (nc_endpoint m) (nc_chainID m) (nc_from m) (nc_next m)
         (u64 (nc_generation m + 1))
  else m.

(** ** The pipeline *)

Record EVMTransaction := mk_EVMTransaction {
  et_ChainID : Z;
  et_Nonce : Z;
  et_To : string;
  et_Data : string;
  et_GasLimit : Z;
  et_GasPrice : string;
  et_Value : string;
}.

(** [EVMSigner]: what the pipeline calls of it. *)
Record EVMSigner := mk_EVMSigner {
  OwnerAddress : result string;
  SignTransaction : EVMTransaction -> result string;
}.

Record EVMTransactionResult := mk_EVMTransactionResult {
  tr_Hash : string;
  tr_Receipt : option EVMReceipt;
}.

Definition ErrEVMSignerUnavailable : goerror :=
  Errorf "EVM signer is not configured; import or create an encrypted EVM keystore" [].

Definition EVMReceiptUnconfirmedError (hash : string) (e : goerror) : goerror :=
  Typed "EVMReceiptUnconfirmedError"
    (Wrapf "EVM transaction %s was broadcast but its receipt was not confirmed: %w" [GStr hash] e).

Section Transactor.
Context {UC : UnicodeCase} {TR : Transport} {WT : Waiting}.

(** [EVMTransactor]: the chain that the profile requires (0 if none) and the
    signer.  [wrapEVMRPCError] decodes revert data with the contract ABIs. *)
Record transactor := mk_transactor {
  tx_rpc : EVMRPC;
  tx_chainID : Z;
  tx_signer : option EVMSigner;
  tx_wrap : goerror -> goerror;
}.

Variable t : transactor.

Definition get_nonces : prog evm nonce_cache := gets ev_nonces.
Definition put_nonces (m : nonce_cache) : prog evm unit := modify (set_nonces m).

Definition reserve (chainID : Z) (from : string) : prog evm (Z * reservation) :=
  from ← of_result (normalizeEVMAddress from);
  let from := ToLower from in
  let endpoint := rpc_endpoint (tx_rpc t) in
  m ← get_nonces;
  (if cached m endpoint chainID from then mret tt
   else
     outcome ← attempt (TransactionCount (tx_rpc t) from "pending");
     match outcome with
     | Err e => put_nonces (invalid m);; fail e
     | Ok pending =>
         if pending =? MaxUint64 then fail (Errorf "EVM account nonce overflow" [])
         else put_nonces (resync m endpoint chainID from pending)
     end);;
  m ← get_nonces;
  let '(m', outcome) := hand_out m in
  put_nonces m';;
  of_result outcome.

(** [defer]: unless the transaction was confirmed the nonce cache is dropped. *)
Definition release_unless {A} (committed : A -> bool) (rv : reservation) (c : prog evm A)
  : prog evm A :=
  outcome ← attempt c;
  (match outcome with
   | Ok a => if committed a then mret tt else m ← get_nonces; put_nonces (invalidate m rv)
   | Err _ => m ← get_nonces; put_nonces (invalidate m rv)
   end);;
  of_result outcome.

(** What is signed. *)
Definition prepare (chainID nonce : Z) (from target : string) (data : bytes) (value : string)
  : prog evm EVMTransaction :=
  let calldata := "0x" +:+ hex_encode data in
  estimate ← attempt (EstimateGas (tx_rpc t) (mk_EVMCall from target "" value calldata));
  gas ← of_result (match estimate with Ok g => Ok g | Err e => Err (tx_wrap t e) end);
  gasLimit ← of_result (AdjustEVMGasLimit gas 10000);
  gasPrice ← GasPrice (tx_rpc t);
  gasPrice ← of_result (injectiveLegacyGasPrice chainID gasPrice);
  mret (mk_EVMTransaction chainID nonce target calldata gasLimit gasPrice value).

(** Signing and broadcasting. *)
Definition broadcast (signer : EVMSigner) (tx : EVMTransaction) : prog evm string :=
  rawTx ← of_result (wrapf "sign EVM transaction: %w" [] (SignTransaction signer tx));
  of_result (wrapf "signer returned invalid raw EVM transaction: %w" [] (decodeHexBytes rawTx));;
  sent ← attempt (SendRawTransaction (tx_rpc t) rawTx);
  of_result (match sent with Ok hash => Ok hash | Err e => Err (tx_wrap t e) end).

(** What [transact] returns: a result and an error, both possible at once. *)
Definition outcome : Type := option EVMTransactionResult * option goerror.

Definition confirmed (o : option outcome) : bool :=
  match o with Some (_, None) => true | _ => false end.

(** The receipt of a broadcast transaction; [None] when the fuel of the wait ran
    out. *)
Definition confirm (fuel : nat) (hash : string) : prog evm (option outcome) :=
  waited ← WaitReceipt (tx_rpc t) fuel hash 0;
  mret (match waited with
        | None => None
        | Some (receipt, error) =>
            Some (Some (mk_EVMTransactionResult hash receipt),
                  match error with
                  | None => None
                  | Some e =>
                      Some (if is_some_args (errors_As "TransactionRevertedError" e) then e
                            else EVMReceiptUnconfirmedError hash e)
                  end)
        end).

Definition signer_address (signer : EVMSigner) : result string :=
  let? owner := wrapf "resolve EVM signer address: %w" [] (OwnerAddress signer) in
  wrapf "resolve EVM signer address: %w" [] (normalizeEVMAddress owner).

(** [transact]; an [Err] stands for a nil result and the error. *)
Definition transact (fuel : nat) (target : string) (data : bytes) (value : string)
  : prog evm (option outcome) :=
  match tx_signer t with
  | None => fail ErrEVMSignerUnavailable
  | Some signer =>
      from ← of_result (signer_address signer);
      chainID ← ChainID (tx_rpc t);
      (if negb (tx_chainID t =? 0) && negb (tx_chainID t =? chainID)
       then fail (Errorf "EVM chain ID mismatch: RPC reported %d, profile requires %d"
                    [GInt chainID; GInt (tx_chainID t)])
       else mret tt);;
      '(nonce, rv) ← reserve chainID from;
      release_unless confirmed rv
        (tx ← prepare chainID nonce from target data value;
         hash ← broadcast signer tx;
         confirm fuel hash)
  end.

Definition Send (fuel : nat) (target : string) (data : bytes) (value : string)
  : prog evm (option outcome) :=
  contract ← of_result (normalizeEVMAddress target);
  transact fuel contract data value.

Definition zero_address : string := "0x0000000000000000000000000000000000000000".

Definition with_contract (address : string) (rc : EVMReceipt) : EVMReceipt :=
  mk_EVMReceipt (rc_TransactionHash rc) (rc_BlockNumber rc) (rc_BlockHash rc) (rc_To rc) address
    (rc_Status rc) (rc_GasUsed rc) (rc_Logs rc).

(** What [Deploy] makes of the outcome of [transact]. *)
Definition deployed (o : outcome) : outcome :=
  match o with
  | (res, Some e) => (res, Some e)
  | (Some (mk_EVMTransactionResult hash (Some rc)), None) =>
      match normalizeEVMAddress (rc_ContractAddress rc) with
      | Ok address =>
          if bool_decide (address = zero_address)
          then (fst o, Some (Errorf "EVM deployment receipt returned invalid contract address %q"
                               [GStr (rc_ContractAddress rc)]))
          else (Some (mk_EVMTransactionResult hash (Some (with_contract address rc))), None)
      | Err _ => (fst o, Some (Errorf "EVM deployment receipt returned invalid contract address %q"
                                 [GStr (rc_ContractAddress rc)]))
      end
  | (res, None) => (res, Some (Errorf "EVM deployment returned no receipt" []))
  end.

Definition Deploy (fuel : nat) (initcode : bytes) (value : string) : prog evm (option outcome) :=
  if decide (initcode = []) then fail (Errorf "EVM deployment initcode is empty" [])
  else
    o ← transact fuel "" initcode value;
    mret (option_map deployed o).

End Transactor.
