(* ===== verification/EvmTxProps.v ===== *)
(** * EvmTxProps: gas, nonces and the outcome of a transaction

    Gas limits are exact; the nonces of one synchronisation are consecutive
    whatever runs at the same time; a transaction ends in one of four ways and
    leaves the nonce cache accordingly.  A node, a signer and sessions. *)
From Stdlib Require Import ZArith Lia Ascii String.
From stdpp Require Import base list strings option.
From S2P Require Import Prelude GoText Prog GoIo Json EvmAddress EvmTx EvmRpc.

Local Open Scope Z_scope.

(** ** Gas *)

(** [AdjustEVMGasLimit] computes 1.4 times the estimate, rounded down, plus
    the headroom in exact arithmetic, and refuses exactly when that does not fit
    64 bits: no intermediate result wraps. *)
Theorem gas_limit_exact estimated headroom :
  0 <= estimated <= MaxUint64 -> 0 <= headroom <= MaxUint64 ->
  let exact := 14 * estimated / 10 + headroom in
  AdjustEVMGasLimit estimated headroom =
    if exact <=? MaxUint64 then Ok exact
    else errf "estimated gas %d overflows gas adjustment" [GInt estimated].
Proof.
  intros He Hh. cbv zeta. unfold AdjustEVMGasLimit.
  assert (14 * estimated / 10 = estimated / 10 * 14 + estimated mod 10 * 14 / 10) as ->.
  { rewrite (Z.div_mod estimated 10) at 1 by lia.
    replace (14 * (10 * (estimated / 10) + estimated mod 10))
      with (estimated mod 10 * 14 + estimated / 10 * 14 * 10) by ring.
    rewrite Z.div_add by lia. ring. }
  assert (0 <= estimated / 10) as Hq by (apply Z.div_pos; lia).
  pose proof (Z.mod_pos_bound estimated 10 ltac:(lia)) as Hr.
  set (q := estimated / 10) in *. set (r := estimated mod 10) in *.
  assert (0 <= r * 14 / 10 <= 13) as He' by (split; [apply Z.div_pos; lia|apply Z.div_le_upper_bound; lia]).
  rewrite (u64_small (r * 14)) by (unfold MaxUint64; lia). set (e := r * 14 / 10) in *.
  destruct (Z.ltb_spec (MaxUint64 / 14) q) as [Hlt|Hle].
  - destruct (Z.leb_spec (q * 14 + e + headroom) MaxUint64); [|done].
    apply Z.lt_gt, Z.gt_lt in Hlt. assert (MaxUint64 < q * 14); [|lia].
    pose proof (Z.mul_succ_div_gt MaxUint64 14). lia.
  - pose proof (Z.mul_div_le MaxUint64 14 ltac:(lia)).
    rewrite (u64_small (q * 14)) by (unfold MaxUint64 in *; lia).
    destruct (Z.ltb_spec (MaxUint64 - e) (q * 14)).
    + destruct (Z.leb_spec (q * 14 + e + headroom) MaxUint64); [lia|done].
    + rewrite (u64_small (q * 14 + e)) by (unfold MaxUint64 in *; lia).
      destruct (Z.ltb_spec (MaxUint64 - headroom) (q * 14 + e)),
        (Z.leb_spec (q * 14 + e + headroom) MaxUint64); try lia; [done|].
      rewrite u64_small by (unfold MaxUint64 in *; lia). done.
Qed.

Lemma gas_limit_exact_witness :
  AdjustEVMGasLimit 21009 10000 = Ok 39412 /\
  is_ok (AdjustEVMGasLimit 13176245766935394100 0) = false.
Proof.
  split; rewrite gas_limit_exact by (unfold MaxUint64; lia); reflexivity.
Defined.

(** ** Nonces *)

Section Nonces.
Context {UC : UnicodeCase} {TR : Transport} {WT : Waiting}.

(** One step of the manager, for any operation and whatever else goes on: a
    [reserve] on some state of the network, which hands out a reservation or
    not, or an [Invalidate] of any reservation. *)
Inductive nonce_step (m : nonce_cache) : option reservation -> nonce_cache -> Prop :=
| step_reserve t chainID from s s' r :
    ev_nonces s = m -> reserve t chainID from s = (s', r) ->
    nonce_step m (match r with Ok (_, rv) => Some rv | Err _ => None end) (ev_nonces s')
| step_invalidate rv : nonce_step m None (invalidate m rv).

(** A history of [n] steps and the reservations handed out in it, in order. *)
Inductive nonce_history : nat -> list reservation -> nonce_cache -> Prop :=
| history_start : nonce_history 0 [] newEVMNonceManager
| history_step n h m o m' :
    nonce_history n h m -> nonce_step m o m' ->
    nonce_history (S n) (h ++ option_list o) m'.

Definition of_generation (g : Z) (h : list reservation) : list reservation :=
  filter (fun rv => rv_generation rv = g) h.

(** The reservations of one generation: one account, consecutive nonces. *)
Definition consecutive (g : Z) (h : list reservation) : Prop :=
  exists endpoint chainID from first,
    h = map (fun k => mk_reservation endpoint chainID from g (first + Z.of_nat k)) (seq 0 (length h)).

(** What a valid cache knows of its generation. *)
Definition current (h : list reservation) (m : nonce_cache) : Prop :=
  let l := of_generation (nc_generation m) h in
  l = map (fun k => mk_reservation (nc_endpoint m) (nc_chainID m) (nc_from m) (nc_generation m)
                      (nc_next m - llen l + Z.of_nat k)) (seq 0 (length l)).

Record nonce_inv (n : nat) (h : list reservation) (m : nonce_cache) : Prop := mk_nonce_inv {
  inv_generation : 0 <= nc_generation m <= Z.of_nat n;
  inv_past : Forall (fun rv => rv_generation rv <= nc_generation m) h;
  inv_consecutive : forall g, consecutive g (of_generation g h);
  inv_current : nc_valid m = true -> current h m;
}.

Lemma of_generation_app g h h' :
  of_generation g (h ++ h') = of_generation g h ++ of_generation g h'.
Proof. apply list_basics.list.filter_app. Qed.

Lemma future_empty h g :
  Forall (fun rv => rv_generation rv < g) h -> of_generation g h = [].
Proof.
  induction 1 as [|rv h Hrv _ IH]; [done|]. unfold of_generation in *.
  rewrite filter_cons. case_decide; [lia|done].
Qed.

Lemma nonce_inv_start : nonce_inv 0 [] newEVMNonceManager.
Proof. split; [cbn; lia|constructor| |done]. intros g. by exists ""%string, 0, ""%string, 0. Qed.

(** Steps that hand out nothing and keep the generation or raise it by one. *)
Lemma nonce_inv_quiet n h m m' :
  Z.of_nat n < MaxUint64 -> nonce_inv n h m ->
  (nc_generation m' = nc_generation m \/ nc_generation m' = u64 (nc_generation m + 1)) ->
  (nc_valid m' = true -> current h m') -> nonce_inv (S n) h m'.
Proof.
  intros Hn [Hg Hp Hc _] Hg' Hv.
  assert (u64 (nc_generation m + 1) = nc_generation m + 1) as Hu
    by (apply u64_small; unfold MaxUint64 in Hn; lia).
  split; [lia| |done|done]. eapply List.Forall_impl; [|exact Hp]. intros rv Hrv. cbn in Hrv. lia.
Qed.

(** After a resynchronisation nothing was handed out yet. *)
Lemma resync_current n h m endpoint chainID from pending :
  Z.of_nat n < MaxUint64 -> nonce_inv n h m -> current h (resync m endpoint chainID from pending).
Proof.
  intros Hn [Hg Hp _ _]. unfold current. cbn [resync nc_generation].
  rewrite u64_small by (unfold MaxUint64 in Hn; lia). rewrite future_empty; [done|].
  eapply List.Forall_impl; [|exact Hp]. intros rv Hrv. cbn in Hrv. lia.
Qed.

(** Handing out the next nonce. *)
Lemma hand_out_inv n h m m' o :
  nonce_inv n h m -> nc_valid m = true -> hand_out m = (m', o) ->
  nonce_inv n (h ++ option_list (match o with Ok (_, rv) => Some rv | Err _ => None end)) m'.
Proof.
  intros [Hg Hp Hc Hv] Hval. specialize (Hv Hval). unfold hand_out.
  destruct (nc_next m =? MaxUint64); intros [= <- <-]; cbn [option_list].
  { rewrite app_nil_r. by split. }
  set (rv := mk_reservation _ _ _ _ _).
  assert (of_generation (nc_generation m) (h ++ [rv]) = of_generation (nc_generation m) h ++ [rv]) as Hown.
  { rewrite of_generation_app. f_equal. unfold of_generation. rewrite filter_cons.
    case_decide; [done|]. by destruct H. }
  assert (current (h ++ [rv]) (mk_nonce_cache (nc_valid m) (nc_endpoint m) (nc_chainID m) (nc_from m)
    (nc_next m + 1) (nc_generation m))) as Hcur.
  { unfold current in *. cbn [nc_generation nc_endpoint nc_chainID nc_from nc_next].
    rewrite Hown. set (l := of_generation _ h) in *. rewrite length_app, llen_app. cbn [length].
    rewrite seq_app, map_app. cbn [seq map]. f_equal; [|].
    - rewrite Hv at 1. apply map_ext. intros k. f_equal. change (llen [rv]) with 1. lia.
    - unfold rv. f_equal. change (llen [_]) with 1. f_equal. unfold llen. lia. }
  split; cbn [nc_generation nc_valid]; [done| | |done].
  - apply Forall_app. split; [done|]. constructor; [cbn; lia|constructor].
  - intros g. destruct (decide (g = nc_generation m)) as [->|Hne].
    + do 4 eexists. exact Hcur.
    + change (option_list (Some rv)) with [rv].
      replace (of_generation g (h ++ [rv])) with (of_generation g h); [apply Hc|].
      rewrite of_generation_app. unfold of_generation at 3. rewrite filter_cons.
      case_decide as E; [by destruct Hne|]. by rewrite app_nil_r.
Qed.

(** *** The manager under the RPC calls *)

Definition with_nonces (m : nonce_cache) (s : evm) : Prop := ev_nonces s = m.

Lemma keeps_nonces_exchange m x : keeps (with_nonces m) (exchange x).
Proof. intros s Hs. unfold exchange. by destruct (http_do x (ev_net s)). Qed.
Lemma keeps_nonces_waiting m d : keeps (with_nonces m) (waiting d).
Proof. intros s Hs. unfold waiting. by destruct (wait d (ev_net s)). Qed.
Lemma keeps_nonces_id m : keeps (with_nonces m) nextRequestID.
Proof. by intros s Hs. Qed.

#[local] Hint Resolve keeps_nonces_exchange keeps_nonces_waiting keeps_nonces_id : keeps.

Lemma keeps_nonces_call_loop m r {A} left attempts method body (decode : json -> result A) :
  keeps (with_nonces m) (call_loop r left attempts method body decode).
Proof.
  revert attempts. induction left as [|left IH]; intros attempts; cbn [call_loop]; unfold callOnce;
    keeps_cases.
Qed.
#[local] Hint Resolve keeps_nonces_call_loop : keeps.

Lemma keeps_nonces_Call m r {A} method params (decode : json -> result A) :
  keeps (with_nonces m) (Call r method params decode).
Proof. unfold Call. keeps_cases. Qed.
#[local] Hint Resolve keeps_nonces_Call : keeps.

Lemma keeps_nonces_quantity m r method params : keeps (with_nonces m) (call_quantity r method params).
Proof. unfold call_quantity, call_string. keeps_cases. Qed.
#[local] Hint Resolve keeps_nonces_quantity : keeps.

(** What [reserve] does to the manager. *)
Lemma hand_out_run s s' r :
  (m ← get_nonces; let '(m', o) := hand_out m in put_nonces m';; of_result o) s = (s', r) ->
  hand_out (ev_nonces s) = (ev_nonces s', r).
Proof.
  unfold get_nonces, put_nonces. rewrite bind_run. unfold gets. cbv beta iota.
  destruct (hand_out (ev_nonces s)) as [m' o]. rewrite bind_run. by intros [= <- <-].
Qed.

Lemma reserve_cases t chainID from s s' r :
  reserve t chainID from s = (s', r) ->
  (exists e, r = Err e /\ (ev_nonces s' = ev_nonces s \/ ev_nonces s' = invalid (ev_nonces s))) \/
  exists m1, hand_out m1 = (ev_nonces s', r) /\ nc_valid m1 = true /\
    (m1 = ev_nonces s \/
     exists endpoint from' pending, m1 = resync (ev_nonces s) endpoint chainID from' pending).
Proof.
  unfold reserve. rewrite bind_run. unfold of_result at 1. cbv beta iota zeta.
  destruct (normalizeEVMAddress from) as [a|e]; [|intros [= <- <-]; left; eauto]. cbv beta zeta.
  rewrite bind_run. change (get_nonces s) with (s, Ok (ev_nonces s)). cbv beta iota zeta. rewrite bind_run.
  destruct (cached _ _ _ _) eqn:Ec.
  - intros Hr%hand_out_run. right. exists (ev_nonces s). split_and!; [done| |by left].
    unfold cached in Ec. by destruct (nc_valid (ev_nonces s)).
  - rewrite bind_run. unfold attempt.
    pose proof (keeps_nonces_quantity (ev_nonces s) (tx_rpc t) "eth_getTransactionCount"
      [JString (ToLower a); JString (tag_or "pending" "pending")] s eq_refl) as Hk.
    fold (TransactionCount (tx_rpc t) (ToLower a) "pending") in Hk. unfold with_nonces in Hk.
    destruct (TransactionCount _ _ _ s) as [s1 [pending|e]]; cbn [fst] in Hk.
    + destruct (pending =? MaxUint64); [intros [= <- <-]; left; eauto|].
      unfold put_nonces at 1, modify. intros Hr%hand_out_run.
      right. eexists. split; [exact Hr|]. split; [done|]. right. do 3 eexists. done.
    + rewrite bind_run. unfold put_nonces, modify. intros [= <- <-]. left. eauto.
Qed.

Lemma nonce_step_inv n h m o m' :
  Z.of_nat n < MaxUint64 -> nonce_inv n h m -> nonce_step m o m' ->
  nonce_inv (S n) (h ++ option_list o) m'.
Proof.
  intros Hn Hi. destruct 1 as [t chainID from s s' r <- Hr|rv].
  - destruct (reserve_cases _ _ _ _ _ _ Hr) as [(e & -> & Hm)|(m1 & Hh & Hv & Hm)].
    + cbn [option_list]. rewrite app_nil_r. apply (nonce_inv_quiet _ _ (ev_nonces s)); [done..| |].
      * left. by destruct Hm as [->| ->].
      * destruct Hm as [->| ->]; [apply Hi|done].
    + eapply hand_out_inv; [|done..]. destruct Hm as [->|(ep & fr & p & ->)].
      * apply (nonce_inv_quiet _ _ (ev_nonces s)); [done..|by left|apply Hi].
      * apply (nonce_inv_quiet _ _ (ev_nonces s)); [done..|by right|intros _].
        by eapply resync_current.
  - cbn [option_list]. rewrite app_nil_r. unfold invalidate.
    destruct (_ && _); (apply (nonce_inv_quiet _ _ m); [done..| |]).
    + by right.
    + done.
    + by left.
    + apply Hi.
Qed.

Lemma nonce_history_inv n h m : nonce_history n h m -> Z.of_nat n <= MaxUint64 -> nonce_inv n h m.
Proof.
  induction 1 as [|n h m o m' Hh IH Hs]; intros Hn; [apply nonce_inv_start|].
  eapply nonce_step_inv; [|apply IH|done]; lia.
Qed.

(** C39: the nonces of a generation are distinct and leave no gap.  Whatever
    operations run at the same time, in whatever order they reserve and give up
    nonces and whatever the node answers, the reservations that the manager
    hands out between two synchronisations are for one account on one chain and
    carry consecutive nonces; so two of them never share a nonce. *)
Theorem nonces_consecutive n h m g :
  nonce_history n h m -> Z.of_nat n <= MaxUint64 ->
  consecutive g (of_generation g h) /\ NoDup (map rv_nonce (of_generation g h)).
Proof.
  intros Hh Hn. destruct (inv_consecutive _ _ _ (nonce_history_inv _ _ _ Hh Hn) g) as (ep & ch & fr & p & E).
  split; [by do 4 eexists|]. rewrite E, map_map. cbn [rv_nonce].
  apply NoDup_fmap_2; [|apply NoDup_seq]. intros x y Hxy. lia.
Qed.
End Nonces.

(** ** The outcome of a transaction *)

(** A context with a deadline: waiting uses it up, and nothing gives time back. *)
Class Deadline {TR : Transport} {WT : Waiting} := {
  patience : net -> nat;
  patience_http : forall m n, (patience (http_do m n).1 <= patience n)%nat;
  patience_wait : forall d n n', wait d n = (n', Ok tt) -> (patience n' < patience n)%nat;
  patience_wait_le : forall d n, (patience (wait d n).1 <= patience n)%nat;
}.

Section Outcome.
Context {UC : UnicodeCase} {TR : Transport} {WT : Waiting} {DL : Deadline}.

(** The manager is [m] and at most [k] waits are left. *)
Definition before_deadline (m : nonce_cache) (k : nat) (s : evm) : Prop :=
  ev_nonces s = m /\ (patience (ev_net s) <= k)%nat.

Lemma keeps_deadline_exchange m k x : keeps (before_deadline m k) (exchange x).
Proof.
  intros s [Hm Hk]. unfold exchange. pose proof (patience_http x (ev_net s)).
  destruct (http_do x (ev_net s)). cbn in *. split; [done|cbn; lia].
Qed.
Lemma keeps_deadline_waiting m k d : keeps (before_deadline m k) (waiting d).
Proof.
  intros s [Hm Hk]. unfold waiting. pose proof (patience_wait_le d (ev_net s)).
  destruct (wait d (ev_net s)). cbn in *. split; [done|cbn; lia].
Qed.
Lemma keeps_deadline_id m k : keeps (before_deadline m k) nextRequestID.
Proof. by intros s Hs. Qed.
#[local] Hint Resolve keeps_deadline_exchange keeps_deadline_waiting keeps_deadline_id : keeps.

Lemma keeps_deadline_call_loop m k r {A} left attempts method body (decode : json -> result A) :
  keeps (before_deadline m k) (call_loop r left attempts method body decode).
Proof.
  revert attempts. induction left as [|left IH]; intros attempts; cbn [call_loop]; unfold callOnce;
    keeps_cases.
Qed.
#[local] Hint Resolve keeps_deadline_call_loop : keeps.

Lemma keeps_deadline_Call m k r {A} method params (decode : json -> result A) :
  keeps (before_deadline m k) (Call r method params decode).
Proof. unfold Call. keeps_cases. Qed.
#[local] Hint Resolve keeps_deadline_Call : keeps.

Lemma keeps_deadline_quantity m k r method params :
  keeps (before_deadline m k) (call_quantity r method params).
Proof. unfold call_quantity, call_string. keeps_cases. Qed.
#[local] Hint Resolve keeps_deadline_quantity : keeps.

Lemma keeps_deadline_prepare m k t chainID nonce from target data value :
  keeps (before_deadline m k) (prepare t chainID nonce from target data value).
Proof. unfold prepare, EstimateGas, GasPrice, call_string. keeps_cases. Qed.

Lemma keeps_deadline_broadcast m k t signer tx :
  keeps (before_deadline m k) (broadcast t signer tx).
Proof. unfold broadcast, SendRawTransaction, call_string. keeps_cases. Qed.

Lemma keeps_deadline_reserve t chainID from k s :
  (patience (ev_net s) <= k)%nat -> (patience (ev_net (reserve t chainID from s).1) <= k)%nat.
Proof.
  set (P := fun s : evm => (patience (ev_net s) <= k)%nat). revert s. change (keeps P (reserve t chainID from)).
  assert (forall m, keeps P (put_nonces m)) as Hm by (by intros m s Hs).
  assert (forall f, keeps P (TransactionCount (tx_rpc t) f "pending")) as Hc.
  { intros f s Hs. apply (keeps_deadline_quantity (ev_nonces s) k (tx_rpc t) "eth_getTransactionCount"
      [JString f; JString (tag_or "pending" "pending")] s (conj eq_refl Hs)). }
  unfold reserve, get_nonces. keeps_cases; apply Hm || apply Hc.
Qed.

(** How a wait can end. *)
Definition wait_end (hash : string) (o : option EVMReceipt * option goerror) : Prop :=
  match o with
  | (Some rc, e) => o = settled hash rc
  | (None, e) => exists cause, e = Some cause
  end.

(** With enough fuel for the deadline the wait ends, and it ends well-formed. *)
Lemma WaitReceipt_ends r fuel hash errors m k s :
  before_deadline m k s -> (k < fuel)%nat ->
  exists s' o, WaitReceipt r fuel hash errors s = (s', Ok (Some o)) /\
    before_deadline m k s' /\ wait_end hash o.
Proof.
  revert k errors s. induction fuel as [|fuel IH]; intros k errors s Hs Hk; [lia|]. cbn [WaitReceipt].
  rewrite bind_run. unfold attempt at 1.
  pose proof (keeps_deadline_Call m k r "eth_getTransactionReceipt" [JString hash] decode_receipt s Hs) as H1.
  fold (TransactionReceipt r hash) in H1.
  destruct (TransactionReceipt r hash s) as [s1 o]. cbn [fst] in H1. cbv zeta.
  assert (forall errors, exists s' o,
    (waited ← attempt (waiting (rpc_interval r));
     match waited with
     | Err e => mret (Some (None, Some (Wrapf "wait for EVM transaction %s receipt: %w" [GStr hash] e)))
     | Ok _ => WaitReceipt r fuel hash errors
     end) s1 = (s', Ok (Some o)) /\ before_deadline m k s' /\ wait_end hash o) as Hpoll.
  { intros errors'. rewrite bind_run. unfold attempt, waiting. destruct H1 as [Hm H1].
    destruct (wait (rpc_interval r) (ev_net s1)) as [n [[]|e]] eqn:Ew.
    - pose proof (patience_wait _ _ _ Ew). cbv beta iota.
      destruct (IH (k - 1)%nat errors' (mk_evm n (ev_nextID s1) (ev_nonces s1) (ev_sent s1)))
        as (s' & o' & He & [Hm' Hp'] & Ho); [split; cbn; [done|lia]|lia|].
      exists s', o'. split_and!; [done| |done]. split; [done|lia].
    - pose proof (patience_wait_le (rpc_interval r) (ev_net s1)) as Hle. rewrite Ew in Hle. cbn in Hle.
      do 2 eexists. split; [reflexivity|]. split; [split; cbn; [done|lia]|]. by eexists. }
  destruct o as [[rc|]|e].
  - exists s1, (settled hash rc). split_and!; [done..|]. done.
  - apply Hpoll.
  - destruct (_ || _); [|apply Hpoll]. do 2 eexists. split; [reflexivity|]. split; [done|]. by eexists.
Qed.

(** What [confirm] returns. *)
Definition settled_outcome (o : outcome) : Prop :=
  match o with
  | (Some res, None) => exists rc, tr_Receipt res = Some rc /\ reverted rc = false
  | (Some res, Some e) =>
      match tr_Receipt res with
      | Some rc => reverted rc = true /\ e = TransactionRevertedError (tr_Hash res) (rc_Status rc)
      | None => exists cause, e = EVMReceiptUnconfirmedError (tr_Hash res) cause \/
                  is_some_args (errors_As "TransactionRevertedError" cause) = true /\ e = cause
      end
  | (None, _) => False
  end.

Lemma confirm_ends t fuel hash m k s :
  before_deadline m k s -> (k < fuel)%nat ->
  exists s' o, confirm t fuel hash s = (s', Ok (Some o)) /\ ev_nonces s' = m /\ settled_outcome o.
Proof.
  intros Hs Hk. destruct (WaitReceipt_ends (tx_rpc t) fuel hash 0 m k s Hs Hk) as (s' & o & E & [Hm _] & Ho).
  unfold confirm. rewrite bind_run, E. destruct o as [[rc|] e]; cbn in Ho.
  - unfold settled in Ho. injection Ho as ->. exists s'. eexists. split; [reflexivity|]. split; [done|].
    destruct (reverted rc) eqn:Er; cbn; [|by eexists]. done.
  - destruct Ho as [cause ->]. exists s'. eexists. split; [reflexivity|]. split; [done|].
    cbn. exists cause. destruct (is_some_args _) eqn:Ea; [by right|by left].
Qed.

(** The reservation that [hand_out] returns is the manager's own. *)
Lemma hand_out_own m m' nonce rv :
  hand_out m = (m', Ok (nonce, rv)) -> nc_valid m = true ->
  nc_valid m' = true /\ nc_next m' = nonce + 1 /\ nc_valid (invalidate m' rv) = false.
Proof.
  unfold hand_out. destruct (_ =? _); [done|]. intros [= <- <- <-] Hv.
  split_and!; [done|done|]. unfold invalidate. cbn. rewrite Hv, !bool_decide_eq_true_2, !Z.eqb_refl by done.
  done.
Qed.

Lemma release_run {A} (committed : A -> bool) rv (c : prog evm A) m s s' o :
  c s = (s', o) -> ev_nonces s' = m ->
  exists s1, release_unless committed rv c s = (s1, o) /\
    ev_nonces s1 = match o with
                   | Ok a => if committed a then m else invalidate m rv
                   | Err _ => invalidate m rv
                   end.
Proof.
  intros Hc <-. unfold release_unless. rewrite bind_run. unfold attempt. rewrite Hc. cbv beta iota.
  destruct o as [a|e]; [destruct (committed a)|]; eexists; (split; [reflexivity|done]).
Qed.

(** C40: how [transact] ends, and what it leaves of the nonce cache.  Under a
    context with a deadline it always ends: with a confirmed receipt that did not
    revert, and then the next transaction continues with the following nonce; with
    the hash and an error, which tells a mined revert from a receipt that was not
    confirmed; or without a hash.  After anything but a confirmation the cached
    nonce is gone, unless the operation failed before it touched the cache. *)
Theorem transact_settles t fuel target data value s s' r :
  (patience (ev_net s) < fuel)%nat -> transact t fuel target data value s = (s', r) ->
  match r with
  | Ok (Some (res, e)) =>
      settled_outcome (res, e) /\
      match e with
      | None => nc_valid (ev_nonces s') = true
      | Some _ => nc_valid (ev_nonces s') = false
      end
  | Ok None => False
  | Err _ => nc_valid (ev_nonces s') = false \/ ev_nonces s' = ev_nonces s
  end.
Proof.
  intros Hf. unfold transact. destruct (tx_signer t) as [signer|]; [|intros [= <- <-]; by right].
  rewrite bind_run. unfold of_result at 1. cbv beta iota.
  destruct (signer_address signer) as [from|e]; [|intros [= <- <-]; by right].
  rewrite bind_run.
  pose proof (keeps_deadline_quantity (ev_nonces s) _ (tx_rpc t) "eth_chainId" [] s (conj eq_refl (Nat.le_refl _)))
    as H1. fold (ChainID (tx_rpc t)) in H1.
  destruct (ChainID (tx_rpc t) s) as [s1 [chainID|e]]; cbn [fst] in H1;
    [|intros [= <- <-]; right; apply H1].
  rewrite bind_run. destruct (negb _ && negb _); [intros [= <- <-]; right; apply H1|].
  cbn [mret prog_ret]. rewrite bind_run.
  pose proof (keeps_deadline_reserve t chainID from _ s1 (proj2 H1)) as H2.
  destruct (reserve t chainID from s1) as [s2 [[nonce rv]|e]] eqn:Er; cbn [fst] in H2.
  2: { intros [= <- <-].
       destruct (reserve_cases _ _ _ _ _ _ Er) as [(? & _ & [->| ->])|(m1 & Hh & Hv & _)];
         [right; apply H1|by left|left].
       unfold hand_out in Hh. destruct (_ =? _); [|done]. by injection Hh as <- _. }
  destruct (reserve_cases _ _ _ _ _ _ Er) as [(? & ? & _)|(m1 & Hh & Hv & _)]; [done|].
  destruct (hand_out_own _ _ _ _ Hh Hv) as (Hv2 & _ & Hi2).
  set (c := prepare _ _ _ _ _ _ _ ≫= _).
  destruct (c s2) as [s3 o] eqn:Ec.
  assert (ev_nonces s3 = ev_nonces s2 /\
    match o with Ok None => False | Ok (Some o) => settled_outcome o | Err _ => True end) as [H3 Ho].
  { unfold c in Ec. rewrite bind_run in Ec.
    pose proof (keeps_deadline_prepare (ev_nonces s2) _ t chainID nonce from target data value s2
      (conj eq_refl H2)) as Hp.
    destruct (prepare _ _ _ _ _ _ _ s2) as [s4 [tx|e]]; cbn [fst] in Hp;
      [|injection Ec as <- <-; split; [apply Hp|done]].
    rewrite bind_run in Ec. pose proof (keeps_deadline_broadcast _ _ t signer tx s4 Hp) as Hb.
    destruct (broadcast _ _ _ s4) as [s5 [hash|e]]; cbn [fst] in Hb;
      [|injection Ec as <- <-; split; [apply Hb|done]].
    destruct (confirm_ends t fuel hash _ _ s5 Hb Hf) as (s6 & o' & E & Hm & Hs).
    rewrite E in Ec. injection Ec as <- <-. done. }
  destruct (release_run confirmed rv c _ s2 s3 o Ec H3) as (s4 & -> & H4). intros [= <- <-].
  destruct o as [[[res [e|]]|]|e]; cbn [confirmed] in H4.
  - split; [done|]. by rewrite H4.
  - split; [done|]. by rewrite H4.
  - done.
  - left. by rewrite H4.
Qed.
End Outcome.

(** ** a node, a signer and sessions of the transactor

    A node that keeps a pool of raw transactions and can lose replies, what a
    lost reply does to a transaction, and the witnesses of [EvmTxProps]. *)

(** [nd_lose] replies to broadcasts are still to be lost; [nd_time] waits are
    left to the context. *)
Record node := mk_node { nd_pool : list string; nd_lose : nat; nd_time : nat }.

Definition reply_text (members : list (string * json)) : string :=
  Marshal (JObject (text_member "jsonrpc" "2.0" :: int_member "id" 1 :: members)).
Definition reply_result (v : json) : result response :=
  Ok (mk_response 200 (reply_text [("result"%string, v)]) false).
Definition reply_error (code : Z) (message : string) : result response :=
  Ok (mk_response 200 (reply_text
    [("error"%string, JObject [int_member "code" code; text_member "message" message])]) false).

Definition mined : json :=
  JObject [text_member "transactionHash" "0xfeed"; text_member "status" "0x1";
           text_member "contractAddress" ""].

(** The node knows a broadcast by its body. *)
Definition node_do (m : message) (n : node) : node * result response :=
  let asks method := Contains (msg_body m) method in
  if asks "eth_chainId"%string then (n, reply_result (JString "0x59f"))
  else if asks "eth_getTransactionCount"%string then
    (n, reply_result (JString ("0x" +:+ FormatHex (llen (nd_pool n)))))
  else if asks "eth_estimateGas"%string then (n, reply_result (JString "0x5208"))
  else if asks "eth_gasPrice"%string then (n, reply_result (JString "0x1"))
  else if asks "eth_getTransactionReceipt"%string then (n, reply_result mined)
  else if decide (msg_body m ∈ nd_pool n) then (n, reply_error (-32000) "already known")
  else
    let pool := nd_pool n ++ [msg_body m] in
    match nd_lose n with
    | S lose => (mk_node pool lose (nd_time n), Err (Errorf "connection reset by peer" []))
    | O => (mk_node pool 0 (nd_time n), reply_result (JString "0xfeed"))
    end.

#[local] Instance node_transport : Transport := {
  net := node;
  new_request _ := Ok tt;
  http_do := node_do;
}.

#[local] Instance node_waiting : Waiting := {
  wait _ n := match nd_time n with
              | S time => (mk_node (nd_pool n) (nd_lose n) time, Ok tt)
              | O => (n, Err DeadlineExceeded)
              end;
}.

Lemma node_http m n : (nd_time (node_do m n).1 <= nd_time n)%nat.
Proof. unfold node_do. repeat case_match; cbn; lia. Qed.

#[local] Instance node_deadline : Deadline.
Proof.
  refine {| patience := nd_time : @net node_transport -> nat |}.
  - apply node_http.
  - intros d n n'. cbn. destruct (nd_time n); [done|]. intros [= <-]. cbn. lia.
  - intros d n. cbn. destruct (nd_time n) eqn:E; cbn; lia.
Defined.

#[local] Instance plain_case : UnicodeCase := { wide_lower s := s }.

(** The raw transaction of this signer is the nonce. *)
Definition demo_signer : EVMSigner := mk_EVMSigner
  (Ok "0x00112233445566778899aabbccddeeff00112233"%string)
  (fun tx => Ok ("0x" +:+ hex_encode (be_bytes 8 (et_Nonce tx)))).

Definition demo_transactor : transactor :=
  mk_transactor (NewEVMRPC "http://node") 1439 (Some demo_signer) (fun e => e).

Definition start (lose time : nat) : evm :=
  mk_evm (mk_node [] lose time) 0 newEVMNonceManager [].

Definition contract : string := "0x00000000000000000000000000000000000000aa".
Definition run (s : evm) : evm * result (option outcome) :=
  transact demo_transactor 5 contract [] "" s.

(** a lost reply hides a broadcast.  [eth_sendRawTransaction] is retried
    like any other call; when only the reply was lost, the node refuses the
    repetition, and [transact] returns an error without a hash, of the kind
    meant for failures before the broadcast, although the transaction is in the
    pool.  The caller who tries again sends the same call a second time under
    the next nonce. *)
Theorem lost_reply_duplicates :
  let '(s1, first) := run (start 1 9) in
  let '(s2, second) := run s1 in
  match first with
  | Err e => errors_As "EVMReceiptUnconfirmedError" e = None
  | Ok _ => False
  end /\
  length (nd_pool (ev_net s1)) = 1%nat /\
  match second with Ok (Some (Some res, None)) => tr_Hash res = "0xfeed"%string | _ => False end /\
  length (nd_pool (ev_net s2)) = 2%nat.
Proof. vm_compute. split_and!; reflexivity. Qed.

(** ** Witnesses *)

Definition handed_out (r : result (Z * reservation)) : option reservation :=
  match r with Ok (_, rv) => Some rv | Err _ => None end.

Lemma reserve_history n h s t chainID from :
  nonce_history n h (ev_nonces s) ->
  nonce_history (S n) (h ++ option_list (handed_out (reserve t chainID from s).2))
    (ev_nonces (reserve t chainID from s).1).
Proof.
  intros Hh. destruct (reserve t chainID from s) as [s' r] eqn:E.
  eapply history_step; [exact Hh|]. by eapply step_reserve.
Qed.

Definition account : string := "0x00112233445566778899aabbccddeeff00112233".
Definition reserved (s : evm) : evm * result (Z * reservation) := reserve demo_transactor 1439 account s.
Definition once : evm := (reserved (start 0 9)).1.
Definition two_reservations : list reservation :=
  [] ++ option_list (handed_out (reserved (start 0 9)).2) ++ option_list (handed_out (reserved once).2).

Lemma two_reservations_history :
  nonce_history 2 two_reservations (ev_nonces (reserved once).1).
Proof.
  unfold two_reservations. rewrite app_assoc. apply (reserve_history 1 _ once), (reserve_history 0 [] (start 0 9)).
  constructor.
Qed.

Lemma nonces_consecutive_witness :
  length (of_generation 1 two_reservations) = 2%nat /\
  consecutive 1 (of_generation 1 two_reservations) /\
  NoDup (map rv_nonce (of_generation 1 two_reservations)).
Proof.
  split; [by vm_compute|].
  apply (nonces_consecutive 2 _ (ev_nonces (reserved once).1)); [apply two_reservations_history|].
  unfold MaxUint64. lia.
Defined.

Lemma transact_settles_witness :
  match (run (start 0 4)).2 with
  | Ok (Some (res, e)) =>
      settled_outcome (res, e) /\
      match e with
      | None => nc_valid (ev_nonces (run (start 0 4)).1) = true
      | Some _ => nc_valid (ev_nonces (run (start 0 4)).1) = false
      end
  | Ok None => False
  | Err _ => nc_valid (ev_nonces (run (start 0 4)).1) = false \/
             ev_nonces (run (start 0 4)).1 = ev_nonces (start 0 4)
  end.
Proof.
  apply (transact_settles demo_transactor 5 contract [] "" (start 0 4)).
  - apply (bool_decide_unpack _). by vm_compute.
  - apply surjective_pairing.
Defined.
