(* ===== verification/SuiteValues.v ===== *)
(** * Values of the suite

    [internal/chain/evm_suite_values.go], [moderation_values.go] and the checked
    conversions of [evm_suite_registry.go]: role and status codes, the
    hexadecimal quantity of an INJ amount and the syntax of a fixed block tag. *)
From Stdlib Require Import ZArith Lia Ascii String.
From stdpp Require Import base list strings option.
From S2P Require Import Prelude GoText Json EvmAddress EvmRpc.

Local Open Scope Z_scope.

Section Values.
Context {UC : UnicodeCase}.

(** What the [switch] statements look at. *)
Definition keyword (s : string) : string := wide_ToLower (TrimSpace s).

Definition collaboratorRoleValue (role : string) : result Z :=
  let k := keyword role in
  if bool_decide (k = ""%string) || bool_decide (k = "none"%string) then Ok 0
  else if decide (k = "maintainer"%string) then Ok 1
  else if decide (k = "reader"%string) then Ok 2
  else Err (Errorf "invalid collaborator role %q (maintainer|reader|none)" [GStr role]).

Definition moderationStatusCode (status : string) : result Z :=
  let k := keyword status in
  if decide (k = "active"%string) then Ok 0
  else if decide (k = "frozen"%string) then Ok 1
  else if decide (k = "delisted"%string) then Ok 2
  else Err (Errorf "invalid moderation status %q (expected active, frozen, or delisted)" [GStr status]).
End Values.

Definition collaboratorRoleName (role : Z) : result string :=
  match role with
  | 1 => Ok "maintainer"%string
  | 2 => Ok "reader"%string
  | _ => Err (Errorf "invalid collaborator role value %d" [GInt role])
  end.

Definition moderationStatusName (status : Z) : result string :=
  match status with
  | 0 => Ok "active"%string
  | 1 => Ok "frozen"%string
  | 2 => Ok "delisted"%string
  | _ => Err (Errorf "EVM moderation module returned invalid status %d" [GInt status])
  end.

Definition reportStatusName (status : Z) : result string :=
  match status with
  | 0 => Ok "open"%string
  | 1 => Ok "resolved"%string
  | 2 => Ok "appealed"%string
  | 3 => Ok "appeal_resolved"%string
  | _ => Err (Errorf "EVM moderation module returned invalid report status %d" [GInt status])
  end.

(** [integer.Text(16)] of a positive integer: a digit for every four bits. *)
Definition big_hex (n : Z) : string := hex_digits (S (Z.to_nat (Z.log2 n))) n.

Definition evmINJValue (amount : string) : result string :=
  let value := TrimSpace amount in
  fail_if negb (HasSuffix value "inj")
    as Errorf "EVM sponsorship amount must use inj base units" [] ;;
  match big_SetString (TrimSuffix value "inj") with
  | Some integer =>
      fail_if integer <=? 0 as Errorf "invalid positive INJ base-unit amount %q" [GStr amount] ;;
      Ok ("0x" +:+ big_hex integer)
  | None => Err (Errorf "invalid positive INJ base-unit amount %q" [GStr amount])
  end.

(** The characters that [requireFixedEVMBlockTag] accepts in a tag. *)
Definition lower_hex_char (c : ascii) : bool := between 48 57 c || between 97 102 c.

Definition requireFixedEVMBlockTag (blockTag : string) : result unit :=
  let lowercase := Errorf "fixed block tag must be a lowercase hexadecimal JSON-RPC quantity" [] in
  fail_if bool_decide (blockTag = ""%string) || negb (bool_decide (blockTag = TrimSpace blockTag)) ||
          negb (HasPrefix blockTag "0x") || (slen blockTag =? 2) as lowercase ;;
  let digits := String.substring 2 (String.length blockTag - 2) blockTag in
  fail_if (1 <? slen digits) && HasPrefix digits "0"
    as Errorf "fixed block tag must use canonical JSON-RPC quantity encoding" [] ;;
  fail_if negb (all_chars lower_hex_char digits) as lowercase ;;
  Ok tt.

(** [None] is a nil pointer. *)
Definition checkedUint64 (value : option Z) (label : string) : result Z :=
  match value with
  | Some n =>
      fail_if (n <? 0) || (64 <? bit_len n) as Errorf "%s exceeds uint64" [GStr label] ;; Ok n
  | None => Err (Errorf "%s exceeds uint64" [GStr label])
  end.
Definition checkedUintFromInt (value : Z) (label : string) : result Z :=
  fail_if (value <? 0) || (MaxUint64 <? u64 value) as Errorf "%s exceeds uint64" [GStr label] ;;
  Ok (u64 value).

(** [fmt.Sprintf("0x%x", blockNumber)] *)
Definition block_tag (number : Z) : string := "0x" +:+ FormatHex number.

(** ** Lemmas: hexadecimal quantities *)

Lemma hex_digit_lower k : 0 <= k < 16 -> lower_hex_char (hex_digit (Z.to_N k)) = true.
Proof.
  intros Hk. apply (N_below (fun i => lower_hex_char (hex_digit i)) 16); [by vm_compute|lia].
Qed.

Lemma hex_digits_lower fuel n : 0 <= n -> all_chars lower_hex_char (hex_digits fuel n) = true.
Proof.
  revert n. induction fuel as [|fuel IH]; intros n Hn; cbn [hex_digits]; [done|].
  destruct (Z.ltb_spec n 16).
  - cbn. rewrite hex_digit_lower by lia. done.
  - pose proof (Z.mod_pos_bound n 16 ltac:(lia)).
    rewrite all_chars_app, IH by (apply Z.div_pos; lia). cbn. rewrite hex_digit_lower by lia. done.
Qed.

Lemma hex_digits_head fuel n :
  0 < n -> n < 16 ^ Z.of_nat fuel ->
  exists c s, hex_digits fuel n = String c s /\ is_char "0" c = false.
Proof.
  revert n. induction fuel as [|fuel IH]; intros n Hn Hlt; [cbn in Hlt; lia|]. cbn [hex_digits].
  destruct (Z.ltb_spec n 16).
  - do 2 eexists. split; [reflexivity|].
    pose proof (N_below (fun i => (i =? 0)%N || negb (is_char "0" (hex_digit i))) 16 (Z.to_N n)
      eq_refl ltac:(lia)) as H'. apply orb_true_iff in H' as [H'|H']; [apply N.eqb_eq in H'; lia|].
    by apply negb_true_iff in H'.
  - rewrite Nat2Z.inj_succ, Z.pow_succ_r in Hlt by lia.
    destruct (IH (n / 16)) as (c & s & -> & Hc).
    + apply Z.div_str_pos. lia.
    + apply Z.div_lt_upper_bound; lia.
    + rewrite str_cons_app. eauto.
Qed.

Lemma lower_hex_visible : forall c, lower_hex_char c = true -> visible c = true.
Proof. all_ascii. Qed.

Lemma substring_after a b s : String.substring 2 (String.length s) (String a (String b s)) = s.
Proof. simpl. induction s as [|c s IH]; simpl; [done|by rewrite IH]. Qed.

Lemma hex_digits_nonempty fuel n : fuel <> 0%nat -> hex_digits fuel n <> ""%string.
Proof.
  destruct fuel; [done|]. intros _. cbn [hex_digits]. destruct (n <? 16); [done|].
  by destruct (hex_digits fuel (n / 16)).
Qed.

Lemma block_tag_visible n : 0 <= n -> all_chars visible (block_tag n) = true.
Proof.
  intros Hn. unfold block_tag. rewrite all_chars_app. apply andb_true_iff. split; [reflexivity|].
  eapply all_chars_impl, hex_digits_lower; [exact lower_hex_visible|done].
Qed.

(** The tags of pinned reads are fixed tags. *)
Lemma block_tag_fixed n : 0 <= n < 2 ^ 64 -> requireFixedEVMBlockTag (block_tag n) = Ok tt.
Proof.
  intros Hn. unfold requireFixedEVMBlockTag. rewrite TrimSpace_all_visible by (apply block_tag_visible; lia).
  unfold block_tag. change ("0x" +:+ FormatHex n)%string with (String "0" (String "x" (FormatHex n))).
  rewrite bool_decide_eq_false_2, bool_decide_eq_true_2 by done. cbn [orb negb].
  pose proof (hex_digits_nonempty 16 n ltac:(lia)) as Hne. fold (FormatHex n) in Hne.
  replace (String.length (String "0" (String "x" (FormatHex n))) - 2)%nat
    with (String.length (FormatHex n)) by (simpl; lia).
  rewrite substring_after. unfold HasPrefix. cbn [cut_prefix decide_rel].
  rewrite !decide_True by done.
  assert (slen (String "0" (String "x" (FormatHex n))) =? 2 = false) as ->.
  { apply Z.eqb_neq. unfold slen. destruct (FormatHex n); [done|simpl; lia]. }
  assert (all_chars lower_hex_char (FormatHex n) = true) as -> by (apply hex_digits_lower; lia).
  destruct (decide (n = 0)) as [->|]; [done|].
  destruct (hex_digits_head 16 n) as (c & s & E & Hc);
    [lia|change (16 ^ Z.of_nat 16) with (2 ^ 64); lia|].
  unfold FormatHex. rewrite E. simpl. case_decide as Ec; [by rewrite <- Ec in Hc|].
  by rewrite andb_false_r.
Qed.
