(* ===== verification/SuiteAbi.v ===== *)
(** * The ABIs of the suite's contracts

    [internal/chain/abi/*.json] as far as the suite client calls them, the table
    of [suite_abi.go], packing a call and unpacking its results, the dynamically
    typed values that unpacking gives and the structs that the registry converts
    tuples to. *)
From Stdlib Require Import ZArith Lia Ascii String.
From stdpp Require Import base list strings option.
From S2P Require Import Prelude GoText Geth.

Local Open Scope Z_scope.

(** ** Functions *)

Record suite_method := mk_suite_method {
  sm_name : string;
  sm_inputs : list abi_type;
  sm_outputs : list abi_type;
}.

(** The types as they stand in a signature. *)
Fixpoint type_text (t : abi_type) : string :=
  match t with
  | TUint bits => "uint" +:+ FormatUint bits
  | TAddress => "address"
  | TBytes32 => "bytes32"
  | TBool => "bool"
  | TString => "string"
  | TBytes => "bytes"
  | TSlice t' => type_text t' +:+ "[]"
  | TTuple fs => "(" +:+ Join (map (fun f => type_text (snd f)) fs) "," +:+ ")"
  end.
Definition signature (name : string) (inputs : list abi_type) : string :=
  name +:+ "(" +:+ Join (map type_text inputs) "," +:+ ")".

(** The structs of the contracts. *)
Definition ref_type : abi_type := TTuple [
  ("commitSha"%string, TString); ("packUris"%string, TSlice TString);
  ("updatedAt"%string, TUint 64); ("updatedBy"%string, TAddress); ("exists"%string, TBool)].
Definition repository_type : abi_type := TTuple [
  ("id"%string, TBytes32); ("owner"%string, TAddress); ("name"%string, TString);
  ("description"%string, TString); ("defaultBranch"%string, TString);
  ("forkedFrom"%string, TBytes32); ("createdAt"%string, TUint 64);
  ("updatedAt"%string, TUint 64); ("exists"%string, TBool)].
Definition pending_transfer_type : abi_type := TTuple [
  ("newOwner"%string, TAddress); ("executeAfter"%string, TUint 64);
  ("expiresAt"%string, TUint 64)].
Definition guardian_config_type : abi_type := TTuple [
  ("configuredBy"%string, TAddress); ("threshold"%string, TUint 8);
  ("guardians"%string, TSlice TAddress)].
Definition recovery_proposal_type : abi_type := TTuple [
  ("proposedBy"%string, TAddress); ("newOwner"%string, TAddress);
  ("executeAfter"%string, TUint 64); ("expiresAt"%string, TUint 64);
  ("nonce"%string, TUint 64); ("approvals"%string, TUint 8)].
Definition report_type : abi_type := TTuple [
  ("id"%string, TUint 256); ("repoId"%string, TBytes32); ("reporter"%string, TAddress);
  ("status"%string, TUint 8); ("resolution"%string, TUint 8); ("reasonHash"%string, TString);
  ("createdAt"%string, TUint 64); ("updatedAt"%string, TUint 64); ("exists"%string, TBool)].
Definition trail_type : abi_type := TTuple [
  ("action"%string, TUint 8); ("actor"%string, TAddress); ("status"%string, TUint 8);
  ("reasonHash"%string, TString); ("timestamp"%string, TUint 64)].
Definition split_type : abi_type := TTuple [
  ("recipient"%string, TAddress); ("bps"%string, TUint 16)].
Definition username_type : abi_type := TTuple [
  ("owner"%string, TAddress); ("registeredAt"%string, TUint 64)].
Definition badge_type : abi_type := TTuple [
  ("id"%string, TUint 256); ("repoId"%string, TBytes32); ("recipient"%string, TAddress);
  ("awardedBy"%string, TAddress); ("reason"%string, TString); ("awardedAt"%string, TUint 64);
  ("exists"%string, TBool)].
Definition release_type : abi_type := TTuple [
  ("version"%string, TString); ("platform"%string, TString); ("sha256"%string, TBytes32);
  ("registeredBy"%string, TAddress); ("registeredAt"%string, TUint 64);
  ("exists"%string, TBool)].

(** The functions that the client calls, in the order of the files. *)
Definition directoryMethods : list suite_method := [
  mk_suite_method "bootstrapCoordinator" [] [TAddress];
  mk_suite_method "bootstrapCoordinatorCodeHash" [] [TBytes32];
  mk_suite_method "configuredChainId" [] [TUint 256];
  mk_suite_method "moduleAddress" [TBytes32] [TAddress];
  mk_suite_method "moduleCodeHash" [TBytes32] [TBytes32];
  mk_suite_method "snapshotRoot" [] [TBytes32];
  mk_suite_method "state" [] [TUint 8];
  mk_suite_method "suiteVersion" [] [TUint 64] ]%string.
Definition suiteCoordinatorMethods : list suite_method := [
  mk_suite_method "snapshotRoot" [] [TBytes32];
  mk_suite_method "suiteDirectory" [] [TAddress] ]%string.
Definition coreMethods : list suite_method := [
  mk_suite_method "acceptOwnershipTransfer" [TBytes32] [];
  mk_suite_method "beginOwnershipTransfer" [TBytes32; TAddress] [];
  mk_suite_method "bootstrapCoordinator" [] [TAddress];
  mk_suite_method "cancelOwnershipTransfer" [TBytes32] [];
  mk_suite_method "createRepository" [TString; TString; TString] [TBytes32];
  mk_suite_method "deleteRef" [TBytes32; TString] [];
  mk_suite_method "expireOwnershipTransfer" [TBytes32] [];
  mk_suite_method "forkRepository" [TBytes32; TString] [TBytes32];
  mk_suite_method "getRef" [TBytes32; TString] [ref_type];
  mk_suite_method "getRepository" [TBytes32] [repository_type];
  mk_suite_method "listCollaboratorsPage" [TBytes32; TUint 256; TUint 256]
    [TSlice TAddress; TSlice (TUint 8); TUint 256];
  mk_suite_method "listRefsPage" [TBytes32; TUint 256; TUint 256]
    [TSlice TString; TSlice ref_type; TUint 256];
  mk_suite_method "listRepositoriesPage" [TAddress; TUint 256; TUint 256]
    [TSlice repository_type; TUint 256];
  mk_suite_method "moduleId" [] [TBytes32];
  mk_suite_method "pendingOwnershipTransfer" [TBytes32] [pending_transfer_type];
  mk_suite_method "resolveRepository" [TAddress; TString] [repository_type; TBool];
  mk_suite_method "setCollaborator" [TBytes32; TAddress; TUint 8] [];
  mk_suite_method "suiteDirectory" [] [TAddress];
  mk_suite_method "updateMetadata" [TBytes32; TBool; TString; TBool; TString] [];
  mk_suite_method "updateRef" [TBytes32; TString; TString; TSlice TString; TString; TBool]
    [] ]%string.
Definition recoveryMethods : list suite_method := [
  mk_suite_method "approveRecovery" [TBytes32] [];
  mk_suite_method "bootstrapCoordinator" [] [TAddress];
  mk_suite_method "cancelRecovery" [TBytes32] [];
  mk_suite_method "executeRecovery" [TBytes32] [];
  mk_suite_method "guardianConfig" [TBytes32] [guardian_config_type];
  mk_suite_method "hasApproved" [TBytes32; TUint 64; TAddress] [TBool];
  mk_suite_method "moduleId" [] [TBytes32];
  mk_suite_method "proposeRecovery" [TBytes32; TAddress] [];
  mk_suite_method "recoveryProposal" [TBytes32] [recovery_proposal_type];
  mk_suite_method "setGuardians" [TBytes32; TSlice TAddress; TUint 8] [];
  mk_suite_method "suiteDirectory" [] [TAddress] ]%string.
Definition moderationMethods : list suite_method := [
  mk_suite_method "appealReport" [TUint 256; TString] [];
  mk_suite_method "bootstrapCoordinator" [] [TAddress];
  mk_suite_method "effectiveStatus" [TBytes32] [TUint 8];
  mk_suite_method "getReport" [TUint 256] [report_type];
  mk_suite_method "listReportTrailPage" [TUint 256; TUint 256; TUint 256]
    [TSlice trail_type; TUint 256];
  mk_suite_method "moduleId" [] [TBytes32];
  mk_suite_method "resolveAppeal" [TUint 256; TUint 8; TString] [];
  mk_suite_method "resolveReport" [TUint 256; TUint 8; TString] [];
  mk_suite_method "setRepositoryStatus" [TBytes32; TUint 8; TString] [];
  mk_suite_method "submitReport" [TBytes32; TString] [TUint 256];
  mk_suite_method "suiteDirectory" [] [TAddress] ]%string.
Definition economicMethods : list suite_method := [
  mk_suite_method "bootstrapCoordinator" [] [TAddress];
  mk_suite_method "moduleId" [] [TBytes32];
  mk_suite_method "revenueSplits" [TBytes32] [TSlice split_type];
  mk_suite_method "setRevenueSplits" [TBytes32; TSlice TAddress; TSlice (TUint 16)] [];
  mk_suite_method "sponsor" [TBytes32; TString] [];
  mk_suite_method "sponsorDenoms" [TBytes32] [TSlice TString];
  mk_suite_method "sponsorTotal" [TBytes32; TString] [TUint 256];
  mk_suite_method "suiteDirectory" [] [TAddress] ]%string.
Definition usernameMethods : list suite_method := [
  mk_suite_method "bootstrapCoordinator" [] [TAddress];
  mk_suite_method "claimOriginalUsername" [TString] [];
  mk_suite_method "moduleId" [] [TBytes32];
  mk_suite_method "registerUsername" [TString] [];
  mk_suite_method "releaseUsername" [] [];
  mk_suite_method "resolveUsername" [TString] [username_type];
  mk_suite_method "suiteDirectory" [] [TAddress];
  mk_suite_method "usernameOf" [TAddress] [TString] ]%string.
Definition badgeMethods : list suite_method := [
  mk_suite_method "awardBadge" [TBytes32; TAddress; TString] [TUint 256];
  mk_suite_method "bootstrapCoordinator" [] [TAddress];
  mk_suite_method "listBadgesByRecipientPage" [TAddress; TUint 256; TUint 256]
    [TSlice badge_type; TUint 256];
  mk_suite_method "listBadgesByRepositoryPage" [TBytes32; TUint 256; TUint 256]
    [TSlice badge_type; TUint 256];
  mk_suite_method "moduleId" [] [TBytes32];
  mk_suite_method "suiteDirectory" [] [TAddress] ]%string.
Definition releaseMethods : list suite_method := [
  mk_suite_method "bootstrapCoordinator" [] [TAddress];
  mk_suite_method "listArtifactsPage" [TString; TUint 256; TUint 256]
    [TSlice release_type; TUint 256];
  mk_suite_method "moduleId" [] [TBytes32];
  mk_suite_method "registerArtifact" [TString; TString; TBytes32] [];
  mk_suite_method "suiteDirectory" [] [TAddress] ]%string.

Definition suiteABIName : Type := string.
Definition suiteABIDirectory : suiteABIName := "directory".
Definition suiteABICoordinator : suiteABIName := "coordinator".
Definition suiteABICore : suiteABIName := "core".
Definition suiteABIRecovery : suiteABIName := "recovery".
Definition suiteABIModeration : suiteABIName := "moderation".
Definition suiteABIEconomic : suiteABIName := "economic".
Definition suiteABIUsername : suiteABIName := "username".
Definition suiteABIBadge : suiteABIName := "badge".
Definition suiteABIRelease : suiteABIName := "release".

Definition suiteABIs : list (suiteABIName * list suite_method) := [
  (suiteABIDirectory, directoryMethods); (suiteABICoordinator, suiteCoordinatorMethods);
  (suiteABICore, coreMethods); (suiteABIRecovery, recoveryMethods);
  (suiteABIModeration, moderationMethods); (suiteABIEconomic, economicMethods);
  (suiteABIUsername, usernameMethods); (suiteABIBadge, badgeMethods);
  (suiteABIRelease, releaseMethods) ].

(** The first entry of an association list under a key. *)
Definition assoc {A} (key : string) (l : list (string * A)) : option A :=
  snd <$> List.find (fun kv => bool_decide (fst kv = key)) l.

(** The embedded JSON texts parse. *)
Definition loadSuiteABI (name : suiteABIName) : result (list suite_method) :=
  match assoc name suiteABIs with
  | Some methods => Ok methods
  | None => Err (Errorf "unknown suite ABI %q" [GStr name])
  end.

(** ** Dynamically typed values *)

(** An [any] that holds an unpacked value: the type decides what a type
    assertion accepts. *)
Record go_any := mk_any { any_type : abi_type; any_value : abi_value }.

(** The Go type behind an ABI type, as [%T] prints it; structs are anonymous. *)
Fixpoint go_type (t : abi_type) : string :=
  match t with
  | TUint bits =>
      if (bits =? 8) || (bits =? 16) || (bits =? 32) || (bits =? 64)
      then "uint" +:+ FormatUint bits else "*big.Int"
  | TAddress => "common.Address"
  | TBytes32 => "[32]uint8"
  | TBool => "bool"
  | TString => "string"
  | TBytes => "[]uint8"
  | TSlice t' => "[]" +:+ go_type t'
  | TTuple _ => "struct"
  end.
Definition any_type_text (v : go_any) : string := go_type (any_type v).

Definition as_address (v : go_any) : option bytes :=
  match v with mk_any TAddress (VAddress a) => Some a | _ => None end.
Definition as_hash (v : go_any) : option bytes :=
  match v with mk_any TBytes32 (VBytes32 h) => Some h | _ => None end.
Definition as_bool (v : go_any) : option bool :=
  match v with mk_any TBool (VBool b) => Some b | _ => None end.
Definition as_string (v : go_any) : option string :=
  match v with mk_any TString (VString s) => Some s | _ => None end.
(** [uint8], [uint16] and [uint64] *)
Definition as_uint (bits : Z) (v : go_any) : option Z :=
  match v with mk_any (TUint w) (VUint n) => if w =? bits then Some n else None | _ => None end.
(** [*big.Int] *)
Definition as_big (v : go_any) : option Z :=
  match v with
  | mk_any (TUint w) (VUint n) =>
      if (w =? 8) || (w =? 16) || (w =? 32) || (w =? 64) then None else Some n
  | _ => None
  end.
Definition as_slice {A} (as_elem : go_any -> option A) (v : go_any) : option (list A) :=
  match v with
  | mk_any (TSlice t) (VSlice vs) => mapM (fun x => as_elem (mk_any t x)) vs
  | _ => None
  end.

(** The values of types one by one. *)
Definition typed (ts : list abi_type) (vs : list abi_value) : list go_any := zip_with mk_any ts vs.

(** The Go field of a component: the name with a capital letter.  No component of
    the ABIs has an underscore in its name. *)
Definition upper_char (c : ascii) : ascii :=
  if is_lower c then ascii_of_N (N_of_ascii c - 32) else c.
Definition field_name (component : string) : string :=
  match component with String c rest => String (upper_char c) rest | EmptyString => "" end.

(** The components of a tuple for a struct with these fields. *)
Definition tuple_fields (names : list string) (v : go_any) : option (list go_any) :=
  match v with
  | mk_any (TTuple fs) (VTuple vs) =>
      if decide (map (fun f => field_name (fst f)) fs = names /\ length fs = length vs)
      then Some (typed (map snd fs) vs) else None
  | _ => None
  end.

(** ** Packing calls *)

Section Calls.
Context {GE : Geth}.

(** [contractABI.Methods[name]] *)
Definition suite_method_named (methods : list suite_method) (name : string) : option suite_method :=
  List.find (fun m => bool_decide (sm_name m = name)) methods.

(** [method.ID] *)
Definition suite_selector (m : suite_method) : bytes :=
  take 4 (keccak256 (string_bytes (signature (sm_name m) (sm_inputs m)))).

(** [contractABI.Pack(name, args...)] *)
Definition suite_Pack (methods : list suite_method) (name : string) (args : list abi_value)
  : result bytes :=
  match suite_method_named methods name with
  | Some m => let? arguments := abi_Pack (sm_inputs m) args in Ok (suite_selector m ++ arguments)
  | None => Err (Errorf "method '%s' not found" [GStr name])
  end.

(** [contractABI.Unpack(name, data)] *)
Definition suite_Unpack (methods : list suite_method) (name : string) (data : bytes)
  : result (list go_any) :=
  match suite_method_named methods name with
  | Some m => let? values := abi_Unpack (sm_outputs m) data in Ok (typed (sm_outputs m) values)
  | None => Err (Errorf "abi: could not locate named method or event: %s" [GStr name])
  end.
End Calls.

(** ** Structs *)

Definition address : Type := bytes.
Definition zero_addr : address := zero_bytes 20.

Record suiteRepositoryABI := mk_suiteRepositoryABI {
  sr_Id : bytes;
  sr_Owner : address;
  sr_Name : string;
  sr_Description : string;
  sr_DefaultBranch : string;
  sr_ForkedFrom : bytes;
  sr_CreatedAt : Z;
  sr_UpdatedAt : Z;
  sr_Exists : bool;
}.

Record suiteRefABI := mk_suiteRefABI {
  sf_CommitSha : string;
  sf_PackUris : list string;
  sf_UpdatedAt : Z;
  sf_UpdatedBy : address;
  sf_Exists : bool;
}.

Record suitePendingTransferABI := mk_suitePendingTransferABI {
  sp_NewOwner : address;
  sp_ExecuteAfter : Z;
  sp_ExpiresAt : Z;
}.

Record suiteGuardianConfigABI := mk_suiteGuardianConfigABI {
  sg_ConfiguredBy : address;
  sg_Threshold : Z;
  sg_Guardians : list address;
}.

Record suiteRecoveryProposalABI := mk_suiteRecoveryProposalABI {
  sv_ProposedBy : address;
  sv_NewOwner : address;
  sv_ExecuteAfter : Z;
  sv_ExpiresAt : Z;
  sv_Nonce : Z;
  sv_Approvals : Z;
}.

Record suiteSplitABI := mk_suiteSplitABI { ss_Recipient : address; ss_Bps : Z }.

Record suiteUsernameABI := mk_suiteUsernameABI { su_Owner : address; su_RegisteredAt : Z }.

Record suiteBadgeABI := mk_suiteBadgeABI {
  sb_Id : Z;
  sb_RepoId : bytes;
  sb_Recipient : address;
  sb_AwardedBy : address;
  sb_Reason : string;
  sb_AwardedAt : Z;
  sb_Exists : bool;
}.

Record suiteReleaseABI := mk_suiteReleaseABI {
  sl_Version : string;
  sl_Platform : string;
  sl_Sha256 : bytes;
  sl_RegisteredBy : address;
  sl_RegisteredAt : Z;
  sl_Exists : bool;
}.

Record suiteReportABI := mk_suiteReportABI {
  so_Id : Z;
  so_RepoId : bytes;
  so_Reporter : address;
  so_Status : Z;
  so_Resolution : Z;
  so_ReasonHash : string;
  so_CreatedAt : Z;
  so_UpdatedAt : Z;
  so_Exists : bool;
}.

Record suiteTrailABI := mk_suiteTrailABI {
  sa_Action : Z;
  sa_Actor : address;
  sa_Status : Z;
  sa_ReasonHash : string;
  sa_Timestamp : Z;
}.

(** What [gethabi.ConvertType] makes of a tuple, one struct after the other: the
    components become the fields of the struct, which have their names, in the
    same order, and their types.  go-ethereum panics on a tuple of another shape,
    which the ABIs above do not have, and the model returns the error of
    [suiteTuple]. *)
Definition repository_fields (v : go_any) : option suiteRepositoryABI :=
  fields ← tuple_fields ["Id"; "Owner"; "Name"; "Description"; "DefaultBranch";
    "ForkedFrom"; "CreatedAt"; "UpdatedAt"; "Exists"]%string v;
  match fields with
  | [id; owner; name; description; branch; forked; created; updated; exists_] =>
      id ← as_hash id; owner ← as_address owner; name ← as_string name;
      description ← as_string description; branch ← as_string branch; forked ← as_hash forked;
      created ← as_uint 64 created; updated ← as_uint 64 updated; exists_ ← as_bool exists_;
      Some (mk_suiteRepositoryABI id owner name description branch forked created updated exists_)
  | _ => None
  end.
Definition ref_fields (v : go_any) : option suiteRefABI :=
  fields ← tuple_fields ["CommitSha"; "PackUris"; "UpdatedAt"; "UpdatedBy"; "Exists"]%string v;
  match fields with
  | [sha; uris; updated; by_; exists_] =>
      sha ← as_string sha; uris ← as_slice as_string uris; updated ← as_uint 64 updated;
      by_ ← as_address by_; exists_ ← as_bool exists_;
      Some (mk_suiteRefABI sha uris updated by_ exists_)
  | _ => None
  end.
Definition pending_transfer_fields (v : go_any) : option suitePendingTransferABI :=
  fields ← tuple_fields ["NewOwner"; "ExecuteAfter"; "ExpiresAt"]%string v;
  match fields with
  | [owner; after; expires] =>
      owner ← as_address owner; after ← as_uint 64 after; expires ← as_uint 64 expires;
      Some (mk_suitePendingTransferABI owner after expires)
  | _ => None
  end.
Definition guardian_config_fields (v : go_any) : option suiteGuardianConfigABI :=
  fields ← tuple_fields ["ConfiguredBy"; "Threshold"; "Guardians"]%string v;
  match fields with
  | [by_; threshold; guardians] =>
      by_ ← as_address by_; threshold ← as_uint 8 threshold;
      guardians ← as_slice as_address guardians;
      Some (mk_suiteGuardianConfigABI by_ threshold guardians)
  | _ => None
  end.
Definition recovery_proposal_fields (v : go_any) : option suiteRecoveryProposalABI :=
  fields ← tuple_fields ["ProposedBy"; "NewOwner"; "ExecuteAfter";
    "ExpiresAt"; "Nonce"; "Approvals"]%string v;
  match fields with
  | [by_; owner; after; expires; nonce; approvals] =>
      by_ ← as_address by_; owner ← as_address owner; after ← as_uint 64 after;
      expires ← as_uint 64 expires; nonce ← as_uint 64 nonce; approvals ← as_uint 8 approvals;
      Some (mk_suiteRecoveryProposalABI by_ owner after expires nonce approvals)
  | _ => None
  end.
Definition split_fields (v : go_any) : option suiteSplitABI :=
  fields ← tuple_fields ["Recipient"; "Bps"]%string v;
  match fields with
  | [recipient; bps] =>
      recipient ← as_address recipient; bps ← as_uint 16 bps;
      Some (mk_suiteSplitABI recipient bps)
  | _ => None
  end.
Definition username_fields (v : go_any) : option suiteUsernameABI :=
  fields ← tuple_fields ["Owner"; "RegisteredAt"]%string v;
  match fields with
  | [owner; registered] =>
      owner ← as_address owner; registered ← as_uint 64 registered;
      Some (mk_suiteUsernameABI owner registered)
  | _ => None
  end.
Definition badge_fields (v : go_any) : option suiteBadgeABI :=
  fields ← tuple_fields ["Id"; "RepoId"; "Recipient"; "AwardedBy";
    "Reason"; "AwardedAt"; "Exists"]%string v;
  match fields with
  | [id; repo; recipient; by_; reason; awarded; exists_] =>
      id ← as_big id; repo ← as_hash repo; recipient ← as_address recipient;
      by_ ← as_address by_; reason ← as_string reason; awarded ← as_uint 64 awarded;
      exists_ ← as_bool exists_;
      Some (mk_suiteBadgeABI id repo recipient by_ reason awarded exists_)
  | _ => None
  end.
Definition release_fields (v : go_any) : option suiteReleaseABI :=
  fields ← tuple_fields ["Version"; "Platform"; "Sha256";
    "RegisteredBy"; "RegisteredAt"; "Exists"]%string v;
  match fields with
  | [version; platform; sha256; by_; registered; exists_] =>
      version ← as_string version; platform ← as_string platform; sha256 ← as_hash sha256;
      by_ ← as_address by_; registered ← as_uint 64 registered; exists_ ← as_bool exists_;
      Some (mk_suiteReleaseABI version platform sha256 by_ registered exists_)
  | _ => None
  end.
Definition report_fields (v : go_any) : option suiteReportABI :=
  fields ← tuple_fields ["Id"; "RepoId"; "Reporter"; "Status"; "Resolution";
    "ReasonHash"; "CreatedAt"; "UpdatedAt"; "Exists"]%string v;
  match fields with
  | [id; repo; reporter; status; resolution; reason; created; updated; exists_] =>
      id ← as_big id; repo ← as_hash repo; reporter ← as_address reporter;
      status ← as_uint 8 status; resolution ← as_uint 8 resolution; reason ← as_string reason;
      created ← as_uint 64 created; updated ← as_uint 64 updated; exists_ ← as_bool exists_;
      Some (mk_suiteReportABI id repo reporter status resolution reason created updated exists_)
  | _ => None
  end.
Definition trail_fields (v : go_any) : option suiteTrailABI :=
  fields ← tuple_fields ["Action"; "Actor"; "Status"; "ReasonHash"; "Timestamp"]%string v;
  match fields with
  | [action; actor; status; reason; time] =>
      action ← as_uint 8 action; actor ← as_address actor; status ← as_uint 8 status;
      reason ← as_string reason; time ← as_uint 64 time;
      Some (mk_suiteTrailABI action actor status reason time)
  | _ => None
  end.

(** [suiteTuple] and [suiteTupleSlice] *)
Definition suiteTuple {T} (want : string) (fields : go_any -> option T) (value : go_any) : result T :=
  match fields value with
  | Some t => Ok t
  | None => Err (Errorf "ABI tuple has type %T, want %T" [GStr (any_type_text value); GStr want])
  end.
Definition suiteTupleSlice {T} (fields : go_any -> option T) (value : go_any) : result (list T) :=
  match as_slice fields value with
  | Some ts => Ok ts
  | None => Err (Errorf "ABI tuple array has type %T" [GStr (any_type_text value)])
  end.

Definition suiteBigUint64 (value : go_any) (label : string) : result Z :=
  match as_big value with
  | Some n =>
      fail_if negb ((0 <=? n) && (n <=? MaxUint64))
        as Errorf "%s returned %T outside uint64" [GStr label; GStr (any_type_text value)] ;; Ok n
  | None => Err (Errorf "%s returned %T outside uint64" [GStr label; GStr (any_type_text value)])
  end.
