(* ===== verification/SuiteErrors.v ===== *)
(** * Contract errors

    [internal/chain/evm_errors.go]: the custom errors of the suite's contracts
    ([internal/chain/abi/*.json]) and how the data of a reverted call becomes a
    Go error. *)
From Stdlib Require Import ZArith Lia Ascii String.
From stdpp Require Import base list strings option.
From S2P Require Import Prelude GoText Json Geth EvmAddress EvmRpc SuiteAbi.

Local Open Scope Z_scope.

(** A Solidity error: its name and the types of its arguments. *)
Definition custom_error : Type := string * list abi_type.

Definition directoryErrors : list custom_error := [
  ("CodeHashMismatch", [TBytes32; TBytes32]); ("CoordinatorAlreadyConfigured", []);
  ("CoordinatorNotReady", []); ("DirectoryAlreadyActive", []); ("InvalidBootstrapAuthority", []);
  ("InvalidChainId", [TUint 256; TUint 256]); ("InvalidCoordinator", []);
  ("InvalidModule", [TAddress]); ("InvalidModuleId", [TBytes32]); ("InvalidSnapshotRoot", []);
  ("MissingModule", [TBytes32]); ("ModuleAlreadyConfigured", [TBytes32]);
  ("ModuleBindingMismatch", [TBytes32; TAddress]); ("Unauthorized", [TAddress]) ]%string.
Definition suiteCoordinatorErrors : list custom_error := [
  ("BatchCountExceeded", [TUint 256; TUint 256]); ("CountExceeded", [TUint 256; TUint 256]);
  ("InvalidCodeHash", []); ("InvalidDirectory", []); ("InvalidOperator", []);
  ("ModuleAlreadyFinalized", [TBytes32]); ("ModuleAlreadyStarted", [TBytes32]);
  ("ModuleNotConfigured", [TBytes32]); ("ModuleNotStarted", [TBytes32]);
  ("ModuleOrderMismatch", [TBytes32; TBytes32]); ("ModulesIncomplete", [TUint 256; TUint 256]);
  ("RootMismatch", [TBytes32; TBytes32]); ("SequenceMismatch", [TUint 256; TUint 256]);
  ("SuiteAlreadyActivated", []); ("Unauthorized", [TAddress]);
  ("UsernameEscrowEvidenceAlreadySet", []); ("UsernameEscrowEvidenceRequired", []) ]%string.
Definition coreErrors : list custom_error := [
  ("BootstrapAlreadyFinalized", []); ("BootstrapAlreadyStarted", []);
  ("BootstrapNotStarted", []); ("EmptyInput", []); ("ForkTooLarge", [TUint 256; TUint 256]);
  ("ImportBatchCountMismatch", [TUint 256; TUint 256]);
  ("ImportBatchTooLarge", [TUint 256; TUint 256]);
  ("ImportCountMismatch", [TUint 256; TUint 256]);
  ("ImportPayloadHashMismatch", [TBytes32; TBytes32]);
  ("ImportPayloadTooLarge", [TUint 256; TUint 256]);
  ("ImportRootMismatch", [TBytes32; TBytes32]);
  ("ImportSequenceMismatch", [TUint 256; TUint 256]); ("InputTooLong", [TUint 256; TUint 256]);
  ("InvalidBootstrapCoordinator", []); ("InvalidCollaborator", [TAddress]);
  ("InvalidCommitSha", [TString]); ("InvalidCursor", [TUint 256; TUint 256]);
  ("InvalidImportKind", [TUint 8]); ("InvalidImportRecord", []); ("InvalidImportRoot", []);
  ("InvalidPackUri", [TString]); ("InvalidPageSize", [TUint 256; TUint 256]);
  ("InvalidRefName", [TString]); ("InvalidRepositoryName", [TString]);
  ("InvalidRole", [TUint 8]); ("InvalidSuiteDirectory", []);
  ("InvalidTransferTarget", [TAddress]); ("LocatorNotFound", [TAddress; TString]);
  ("LocatorUnavailable", [TAddress; TString]); ("RecoveryPending", [TBytes32]);
  ("RefNotFound", [TBytes32; TBytes32]); ("RepositoryAlreadyExists", [TBytes32]);
  ("RepositoryNotFound", [TBytes32]); ("ShaMismatch", [TString; TString]);
  ("SuiteNotActive", []); ("TimestampOverflow", [TUint 256]);
  ("TooManyCollaborators", [TUint 256; TUint 256]); ("TooManyPackUris", [TUint 256; TUint 256]);
  ("TooManyRefs", [TUint 256; TUint 256]); ("TransferAlreadyPending", [TBytes32]);
  ("TransferExpired", [TUint 64]); ("TransferNotExpired", [TUint 64]);
  ("TransferNotPending", [TBytes32]); ("TransferTooEarly", [TUint 64]);
  ("Unauthorized", [TAddress]); ("UnauthorizedBootstrap", [TAddress]) ]%string.
Definition recoveryErrors : list custom_error := [
  ("BootstrapAlreadyFinalized", []); ("BootstrapAlreadyStarted", []);
  ("BootstrapNotStarted", []); ("DuplicateGuardian", [TAddress]);
  ("GuardianConfigStale", [TAddress; TAddress]);
  ("ImportBatchCountMismatch", [TUint 256; TUint 256]);
  ("ImportBatchTooLarge", [TUint 256; TUint 256]);
  ("ImportCountMismatch", [TUint 256; TUint 256]);
  ("ImportPayloadHashMismatch", [TBytes32; TBytes32]);
  ("ImportPayloadTooLarge", [TUint 256; TUint 256]);
  ("ImportRootMismatch", [TBytes32; TBytes32]);
  ("ImportSequenceMismatch", [TUint 256; TUint 256]); ("InvalidBootstrapCoordinator", []);
  ("InvalidGuardian", [TAddress]); ("InvalidGuardianThreshold", [TUint 256; TUint 256]);
  ("InvalidImportRecord", []); ("InvalidImportRoot", []); ("InvalidRecoveryOwner", [TAddress]);
  ("InvalidSuiteDirectory", []); ("OwnershipTransferPending", [TBytes32]);
  ("RecoveryAlreadyApproved", [TAddress]); ("RecoveryAlreadyPending", [TBytes32]);
  ("RecoveryApprovalThreshold", [TUint 256; TUint 256]); ("RecoveryExpired", [TUint 64]);
  ("RecoveryNotPending", [TBytes32]); ("RecoveryTooEarly", [TUint 64]);
  ("RepositoryNotFound", [TBytes32]); ("SuiteNotActive", []); ("TimestampOverflow", [TUint 256]);
  ("Unauthorized", [TAddress]); ("UnauthorizedBootstrap", [TAddress]) ]%string.
Definition moderationErrors : list custom_error := [
  ("BootstrapAlreadyFinalized", []); ("BootstrapAlreadyStarted", []);
  ("BootstrapNotStarted", []); ("ImportBatchCountMismatch", [TUint 256; TUint 256]);
  ("ImportBatchTooLarge", [TUint 256; TUint 256]);
  ("ImportCountMismatch", [TUint 256; TUint 256]);
  ("ImportPayloadHashMismatch", [TBytes32; TBytes32]);
  ("ImportPayloadTooLarge", [TUint 256; TUint 256]);
  ("ImportRootMismatch", [TBytes32; TBytes32]);
  ("ImportSequenceMismatch", [TUint 256; TUint 256]); ("InvalidAdmin", []);
  ("InvalidBootstrapCoordinator", []); ("InvalidCommittee", []);
  ("InvalidCursor", [TUint 256; TUint 256]); ("InvalidImportKind", [TUint 8]);
  ("InvalidImportRecord", []); ("InvalidImportRoot", []);
  ("InvalidPageSize", [TUint 256; TUint 256]); ("InvalidReasonHash", [TString]);
  ("InvalidReportState", [TUint 256; TUint 8; TUint 8]); ("InvalidSuiteDirectory", []);
  ("ReportNotFound", [TUint 256]); ("RepositoryFrozen", [TBytes32]);
  ("RepositoryNotActive", [TBytes32; TUint 8]); ("RepositoryNotFound", [TBytes32]);
  ("SuiteNotActive", []); ("TimestampOverflow", [TUint 256]); ("Unauthorized", [TAddress]);
  ("UnauthorizedBootstrap", [TAddress]) ]%string.
Definition economicErrors : list custom_error := [
  ("BootstrapAlreadyFinalized", []); ("BootstrapAlreadyStarted", []);
  ("BootstrapNotStarted", []); ("DuplicateSplitRecipient", [TAddress]);
  ("ImportBatchCountMismatch", [TUint 256; TUint 256]);
  ("ImportBatchTooLarge", [TUint 256; TUint 256]);
  ("ImportCountMismatch", [TUint 256; TUint 256]);
  ("ImportPayloadHashMismatch", [TBytes32; TBytes32]);
  ("ImportPayloadTooLarge", [TUint 256; TUint 256]);
  ("ImportRootMismatch", [TBytes32; TBytes32]);
  ("ImportSequenceMismatch", [TUint 256; TUint 256]); ("InvalidAdmin", []);
  ("InvalidBootstrapCoordinator", []); ("InvalidDenom", [TString]);
  ("InvalidImportKind", [TUint 8]); ("InvalidImportRecord", []); ("InvalidImportRoot", []);
  ("InvalidMessageLength", [TUint 256; TUint 256]); ("InvalidSplitBps", [TAddress; TUint 256]);
  ("InvalidSplitRecipient", [TAddress]); ("InvalidSuiteDirectory", []); ("InvalidTreasury", []);
  ("NoFunds", []); ("OwnerCannotReceiveRevenueSplit", [TAddress]);
  ("PayoutFailed", [TAddress; TUint 256]); ("PlatformFeeTooHigh", [TUint 256; TUint 256]);
  ("ReentrantSettlement", []); ("RepositoryNotFound", [TBytes32]);
  ("SplitTotalTooHigh", [TUint 256; TUint 256]); ("SuiteNotActive", []);
  ("TooManySplitRecipients", [TUint 256; TUint 256]); ("Unauthorized", [TAddress]);
  ("UnauthorizedBootstrap", [TAddress]) ]%string.
Definition usernameErrors : list custom_error := [
  ("AddressAlreadyNamed", [TAddress]); ("BootstrapAlreadyFinalized", []);
  ("BootstrapAlreadyStarted", []); ("BootstrapNotStarted", []);
  ("ImportBatchCountMismatch", [TUint 256; TUint 256]);
  ("ImportBatchTooLarge", [TUint 256; TUint 256]);
  ("ImportCountMismatch", [TUint 256; TUint 256]);
  ("ImportPayloadHashMismatch", [TBytes32; TBytes32]);
  ("ImportPayloadTooLarge", [TUint 256; TUint 256]);
  ("ImportRootMismatch", [TBytes32; TBytes32]);
  ("ImportSequenceMismatch", [TUint 256; TUint 256]); ("InvalidBootstrapCoordinator", []);
  ("InvalidImportKind", [TUint 8]); ("InvalidImportRecord", []); ("InvalidImportRoot", []);
  ("InvalidPolicyAdmin", []); ("InvalidSuiteDirectory", []); ("InvalidUsername", [TString]);
  ("OriginalOwnerClaimExpired", [TUint 64]); ("OriginalOwnerMismatch", [TAddress; TAddress]);
  ("SuiteNotActive", []); ("TimestampOverflow", [TUint 256]);
  ("TooManyReservedUsernames", [TUint 256; TUint 256]); ("Unauthorized", [TAddress]);
  ("UnauthorizedBootstrap", [TAddress]); ("UsernameNotFound", [TString]);
  ("UsernameReserved", [TString]); ("UsernameUnavailable", [TString]) ]%string.
Definition badgeErrors : list custom_error := [
  ("BadgeNotFound", [TUint 256]); ("BootstrapAlreadyFinalized", []);
  ("BootstrapAlreadyStarted", []); ("BootstrapNotStarted", []);
  ("ImportBatchCountMismatch", [TUint 256; TUint 256]);
  ("ImportBatchTooLarge", [TUint 256; TUint 256]);
  ("ImportCountMismatch", [TUint 256; TUint 256]);
  ("ImportPayloadHashMismatch", [TBytes32; TBytes32]);
  ("ImportPayloadTooLarge", [TUint 256; TUint 256]);
  ("ImportRootMismatch", [TBytes32; TBytes32]);
  ("ImportSequenceMismatch", [TUint 256; TUint 256]); ("InvalidBootstrapCoordinator", []);
  ("InvalidCursor", [TUint 256; TUint 256]); ("InvalidImportRecord", []);
  ("InvalidImportRoot", []); ("InvalidPageSize", [TUint 256; TUint 256]);
  ("InvalidReasonLength", [TUint 256; TUint 256]); ("InvalidRecipient", [TAddress]);
  ("InvalidSuiteDirectory", []); ("OwnerCannotReceiveBadge", [TAddress]);
  ("RepositoryNotFound", [TBytes32]); ("SuiteNotActive", []); ("TimestampOverflow", [TUint 256]);
  ("Unauthorized", [TAddress]); ("UnauthorizedBootstrap", [TAddress]) ]%string.
Definition releaseErrors : list custom_error := [
  ("ArtifactAlreadyRegistered", [TString; TString]); ("ArtifactNotFound", [TString; TString]);
  ("BootstrapAlreadyFinalized", []); ("BootstrapAlreadyStarted", []);
  ("BootstrapNotStarted", []); ("ImportBatchCountMismatch", [TUint 256; TUint 256]);
  ("ImportBatchTooLarge", [TUint 256; TUint 256]);
  ("ImportCountMismatch", [TUint 256; TUint 256]);
  ("ImportPayloadHashMismatch", [TBytes32; TBytes32]);
  ("ImportPayloadTooLarge", [TUint 256; TUint 256]);
  ("ImportRootMismatch", [TBytes32; TBytes32]);
  ("ImportSequenceMismatch", [TUint 256; TUint 256]); ("InvalidBootstrapCoordinator", []);
  ("InvalidCursor", [TUint 256; TUint 256]); ("InvalidImportRecord", []);
  ("InvalidImportRoot", []); ("InvalidPageSize", [TUint 256; TUint 256]);
  ("InvalidPlatform", [TString]); ("InvalidReleaseAuthority", []); ("InvalidSHA256", []);
  ("InvalidSuiteDirectory", []); ("InvalidVersion", [TString]); ("SuiteNotActive", []);
  ("TimestampOverflow", [TUint 256]); ("Unauthorized", [TAddress]);
  ("UnauthorizedBootstrap", [TAddress]) ]%string.

(** The ABIs in the order in which [decodeSuiteRevert] looks through them. *)
Definition suiteErrors : list (list custom_error) := [
  directoryErrors; suiteCoordinatorErrors; coreErrors; recoveryErrors; moderationErrors;
  economicErrors; usernameErrors; badgeErrors; releaseErrors ].

(** [gethabi.UnpackRevert]: the reason of [Error(string)] and [Panic(uint256)]. *)
Class RevertReasons := { UnpackRevert : bytes -> result string }.

Definition LocatorNotFoundError (owner name : string) : goerror :=
  Typed "LocatorNotFoundError"
    (Errorf "repository locator not found: igit://%s/%s" [GStr owner; GStr name]).

Definition EVMContractRevertError (rpc revert : goerror) : goerror :=
  Joined "EVMContractRevertError" rpc revert.

Section Errors.
Context {UC : UnicodeCase} {GE : Geth} {MO : MapOrder} {RV : RevertReasons}.

(** [%v] of an argument and of the list of them. *)
Definition value_text (v : abi_value) : string :=
  match v with
  | VUint n => FormatInt n
  | VAddress a => AddressHex a
  | VBytes32 h | VBytes h => "[" +:+ Join (map (fun b => FormatInt (byte_value b)) h) " " +:+ "]"
  | VBool b => if b then "true" else "false"
  | VString s => s
  | _ => ""
  end.
Definition values_text (vs : list abi_value) : string :=
  "[" +:+ Join (map value_text vs) " " +:+ "]".

Definition suiteCustomError (name : string) (values : list abi_value) : goerror :=
  Typed "suiteCustomError"
    (Errorf "EVM contract reverted: %s%v" [GStr name; GStr (values_text values)]).

(** [custom.ID[:4]] *)
Definition error_id (e : custom_error) : bytes :=
  take 4 (keccak256 (string_bytes (signature (fst e) (snd e)))).

Definition error_with_id (id : bytes) (errors : list custom_error) : option custom_error :=
  List.find (fun e => bool_decide (error_id e = id)) (map_order errors).

Fixpoint first_error (id : bytes) (abis : list (list custom_error)) : option custom_error :=
  match abis with
  | [] => None
  | errors :: abis' =>
      match error_with_id id errors with Some e => Some e | None => first_error id abis' end
  end.

(** What is made of a custom error and its encoded arguments. *)
Definition decode_custom (e : custom_error) (arguments : bytes) : goerror :=
  match abi_Unpack (snd e) arguments with
  | Err cause => Wrapf "decode Solidity error %s: %w" [GStr (fst e)] cause
  | Ok values =>
      match bool_decide (fst e = "LocatorNotFound"%string), values with
      | true, [VAddress owner; VString locator] =>
          match userAddressFromEVM (AddressHex owner) with
          | Ok user => LocatorNotFoundError user locator
          | Err conversion => conversion
          end
      | _, _ => suiteCustomError (fst e) values
      end
  end.

Definition decodeSuiteRevert (data : string) : goerror :=
  match decodeHexBytes data with
  | Err e => e
  | Ok raw =>
      match UnpackRevert raw with
      | Ok reason => Errorf ("EVM contract reverted: " +:+ reason) []
      | Err _ =>
          if llen raw <? 4 then Errorf "EVM contract reverted with %s" [GStr (normalizeHex data)]
          else
            match first_error (take 4 raw) suiteErrors with
            | Some e => decode_custom e (drop 4 raw)
            | None =>
                Errorf "EVM contract reverted with selector 0x%s"
                  [GStr (ToLower (hex_encode (take 4 raw)))]
            end
      end
  end.

Definition wrapEVMRPCError (e : goerror) : goerror :=
  match errors_As "RPCError" e with
  | Some [GStr method; GInt code; GStr message; GStr data] =>
      if decide (data = ""%string) then e
      else EVMContractRevertError (RPCError method code message data) (decodeSuiteRevert data)
  | _ => e
  end.

(** ** A missing repository is recognised *)

(** The signatures of the core contract and of the two asked before it do not
    collide with [LocatorNotFound(address,string)]. *)
Definition locator_error : custom_error := ("LocatorNotFound"%string, [TAddress; TString]).
Definition locator_id_unique : Prop :=
  Forall (fun e => error_id e = error_id locator_error -> e = locator_error)
    (directoryErrors ++ suiteCoordinatorErrors ++ coreErrors).

Lemma elem_of_map_order {A} (l : list A) x : x ∈ map_order l <-> x ∈ l.
Proof. by rewrite (map_order_perm l). Qed.

Lemma error_with_id_some id errors e :
  e ∈ errors -> error_id e = id ->
  Forall (fun e' => error_id e' = id -> e' = e) errors -> error_with_id id errors = Some e.
Proof.
  intros Hin Hid Hu. unfold error_with_id.
  destruct (List.find _ (map_order errors)) as [e'|] eqn:Ef.
  - apply List.find_some in Ef as [Hin' He']. apply bool_decide_eq_true in He'. f_equal.
    rewrite list.Forall_forall in Hu. apply Hu; [|done].
    by apply list_elem_of_In, (elem_of_map_order errors) in Hin'.
  - exfalso. apply (elem_of_map_order errors), list_elem_of_In in Hin.
    pose proof (List.find_none _ _ Ef e Hin) as Hn. by apply bool_decide_eq_false in Hn.
Qed.

Lemma error_with_id_none id errors :
  Forall (fun e => error_id e <> id) errors -> error_with_id id errors = None.
Proof.
  intros Hu. unfold error_with_id. destruct (List.find _ _) as [e|] eqn:Ef; [|done].
  apply List.find_some in Ef as [Hin He]. apply bool_decide_eq_true in He.
  rewrite list.Forall_forall in Hu. destruct (Hu e); [|done].
  by apply list_elem_of_In, (elem_of_map_order errors) in Hin.
Qed.

Lemma named_apart e errors :
  Forall (fun e' => fst e' <> fst e) errors ->
  Forall (fun e' => error_id e' = error_id e -> e' = e) errors ->
  Forall (fun e' => error_id e' <> error_id e) errors.
Proof.
  rewrite !list.Forall_forall. intros Hn Hu e' He' E. apply (Hn e' He'). by rewrite (Hu e' He' E).
Qed.

Lemma first_locator :
  locator_id_unique -> first_error (error_id locator_error) suiteErrors = Some locator_error.
Proof.
  unfold locator_id_unique. rewrite !Forall_app. intros (Hd & Hc & Hr).
  unfold suiteErrors. cbn [first_error].
  rewrite 2!error_with_id_none by (apply named_apart; [repeat constructor; intros [=]|done]).
  erewrite error_with_id_some; [reflexivity| |reflexivity|exact Hr].
  apply list_elem_of_In. unfold coreErrors. repeat (first [left; reflexivity | right]).
Qed.

(** C24: a missing repository is recognised.  The error of a call that the core
    contract reverts with [LocatorNotFound(owner, name)] carries a
    [LocatorNotFoundError] with the owner's user address and the name, next to
    the error of the node, whatever the node's message says. *)
Theorem locator_revert_recognised {GL : GethLaws} method message owner name arguments :
  locator_id_unique -> length owner = 20%nat ->
  abi_Pack [TAddress; TString] [VAddress owner; VString name] = Ok arguments ->
  let raw := error_id locator_error ++ arguments in
  is_ok (UnpackRevert raw) = false ->
  wrapEVMRPCError (RPCError method 3 message ("0x" +:+ hex_encode raw)) =
    EVMContractRevertError (RPCError method 3 message ("0x" +:+ hex_encode raw))
      (LocatorNotFoundError (encodeBech32Address "inj" owner) name).
Proof.
  intros Hu Hl Hp raw Hr. unfold wrapEVMRPCError. cbn [errors_As RPCError]. rewrite decide_True by done.
  cbn [error_args]. rewrite decide_False by done. f_equal. unfold decodeSuiteRevert.
  rewrite decodeHexBytes_text. destruct (UnpackRevert raw); [done|].
  assert (length (error_id locator_error) = 4%nat) as Hid
    by (unfold error_id; rewrite length_take, length_keccak256; done).
  assert (llen raw <? 4 = false) as ->.
  { apply Z.ltb_ge. unfold raw, llen. rewrite length_app, Hid. lia. }
  unfold raw. rewrite take_app_length' by done. rewrite first_locator by done.
  rewrite drop_app_length' by done. unfold decode_custom. cbn [fst snd locator_error].
  assert (have_types [TAddress; TString] [VAddress owner; VString name] = true) as Ht
    by (cbn [have_types has_type]; by rewrite Hl).
  rewrite (Unpack_Pack _ _ _ Ht Hp).
  rewrite bool_decide_eq_true_2 by done. unfold userAddressFromEVM.
  by rewrite (parse_hex_text _ owner) by (done || by apply AddressHex_spec).
Qed.
End Errors.
