(* ===== verification/SuiteDirectory.v ===== *)
(** * Verification of a contract suite

    [internal/chain/suite_directory.go]: the modules that a suite must have, typed
    calls of its contracts at one block and [VerifySuite], which checks the chain
    of trust from the directory's address to the modules' code. *)
From Stdlib Require Import ZArith Lia Ascii String.
From stdpp Require Import base list strings option.
From S2P Require Import Prelude GoText Prog GoIo Json Geth EvmAddress SuiteValues EvmRpc SuiteAbi SuiteErrors.

Local Open Scope Z_scope.

Definition SupportedSuiteVersion : Z := 3.

Record SuiteModuleID := mk_SuiteModuleID {
  mi_Name : string;
  mi_ID : bytes;
  mi_ABI : suiteABIName;
}.

Record SuiteModuleInfo := mk_SuiteModuleInfo {
  mo_Name : string;
  mo_ID : string;
  mo_Address : string;
  mo_CodeHash : string;
}.

Record SuiteInfo := mk_SuiteInfo {
  si_Directory : string;
  si_Version : Z;
  si_ChainID : Z;
  si_State : string;
  si_SnapshotRoot : string;
  si_BootstrapCoordinator : string;
  si_BlockTag : string;
  si_Modules : list SuiteModuleInfo;
}.

(** The address of the first module of a name; empty without one. *)
Definition ModuleAddress (info : option SuiteInfo) (name : string) : string :=
  match info with
  | None => ""
  | Some info =>
      match List.find (fun m => bool_decide (mo_Name m = name)) (si_Modules info) with
      | Some m => mo_Address m
      | None => ""
      end
  end.

Definition suiteVerificationError (check module : string) (e : goerror) : goerror :=
  Typed "SuiteVerificationError"
    (Wrapf ("suite verification failed" +:+
            (if decide (module = ""%string) then "" else " for module %s") +:+
            (if decide (check = ""%string) then "" else " (%s)") +:+ ": %w")
       ((if decide (module = ""%string) then [] else [GStr module]) ++
        (if decide (check = ""%string) then [] else [GStr check])) e).

(** [if err != nil { return f(err) }] *)
Definition on_error {S A} (f : goerror -> goerror) (c : prog S A) : prog S A := fun s =>
  let '(s', r) := c s in (s', match r with Ok a => Ok a | Err e => Err (f e) end).

(** A check of the verification: the call, its error attributed. *)
Definition checking {S A} (check module : string) (c : prog S A) : prog S A :=
  on_error (suiteVerificationError check module) c.

(** [if b { return suiteVerificationError(check, module, e) }] *)
Definition require {S} (ok : bool) (check module : string) (e : goerror) : prog S unit :=
  if ok then mret tt else fail (suiteVerificationError check module e).

Section Directory.
Context {UC : UnicodeCase} {TR : Transport} {WT : Waiting} {GE : Geth} {MO : MapOrder}
        {RV : RevertReasons}.

Definition RequiredSuiteModules : list SuiteModuleID :=
  map (fun '(name, text, abi) => mk_SuiteModuleID name (keccak256 (string_bytes text)) abi)
    [ ("core", "igit.module.repository-core", suiteABICore);
      ("recovery", "igit.module.recovery", suiteABIRecovery);
      ("moderation", "igit.module.moderation", suiteABIModeration);
      ("economic", "igit.module.economic", suiteABIEconomic);
      ("username", "igit.module.username", suiteABIUsername);
      ("badge", "igit.module.badge", suiteABIBadge);
      ("release", "igit.module.release", suiteABIRelease) ]%string.

(** ** Calls at a block *)

Section Calls.
Variables (rpc : EVMRPC) (address blockTag : string) (contractABI : list suite_method)
          (method : string) (arguments : list abi_value).

Definition suiteCall : prog evm (list go_any) :=
  data ← of_result (wrapf "encode %s: %w" [GStr method]
                      (suite_Pack contractABI method arguments));
  result ← on_error wrapEVMRPCError
             (CallContractAt rpc address ("0x" +:+ hex_encode data) blockTag);
  of_result (wrapf "decode %s: %w" [GStr method] (suite_Unpack contractABI method result)).

Definition suiteSingleValue : prog evm go_any :=
  values ← suiteCall;
  match values with
  | [value] => mret value
  | _ => fail (Errorf "%s returned %d values, want 1" [GStr method; GInt (llen values)])
  end.

(** A call whose value must have one Go type. *)
Definition typed_call {A} (assertion : go_any -> option A) (want : string) : prog evm A :=
  value ← suiteSingleValue;
  match assertion value with
  | Some a => mret a
  | None =>
      fail (Errorf ("%s returned %T, want " +:+ want) [GStr method; GStr (any_type_text value)])
  end.

Definition suiteAddressCall : prog evm bytes := typed_call as_address "address".
Definition suiteHashCall : prog evm bytes :=
  h ← typed_call as_hash "bytes32"; mret (BytesToHash h).
Definition suiteUint64Call : prog evm Z := typed_call (as_uint 64) "uint64".
Definition suiteUint8Call : prog evm Z := typed_call (as_uint 8) "uint8".
Definition suiteBigIntCall : prog evm Z := typed_call as_big "uint256".
End Calls.

(** ** The chain of trust *)

Definition zero_hash : bytes := zero_bytes 32.

(** The runtime bytecode of a contract, which must not be empty. *)
Definition runtime_code (rpc : EVMRPC) (address blockTag check module : string) : prog evm bytes :=
  code ← checking check module (CodeAt rpc address blockTag);
  require (negb (bool_decide (code = []))) check module
    (Errorf "address has no runtime bytecode" []);;
  mret code.

(** What the directory says of itself: the snapshot root of an active suite of
    the supported version on this chain. *)
Definition verify_directory (rpc : EVMRPC) (directory blockTag : string) (chainID : Z)
    (directoryABI : list suite_method) : prog evm (Z * bytes) :=
  version ← checking "suite version" ""
    (suiteUint64Call rpc directory blockTag directoryABI "suiteVersion" []);
  require (version =? SupportedSuiteVersion) "suite version" ""
    (Errorf "got %d, supported version is %d" [GInt version; GInt SupportedSuiteVersion]);;
  configuredChainID ← checking "configured chain ID" ""
    (suiteBigIntCall rpc directory blockTag directoryABI "configuredChainId" []);
  require ((configuredChainID <=? MaxUint64) && (configuredChainID =? chainID))
    "configured chain ID" ""
    (Errorf "directory reports %s, RPC reports %d"
       [GStr (FormatInt configuredChainID); GInt chainID]);;
  state ← checking "directory state" ""
    (suiteUint8Call rpc directory blockTag directoryABI "state" []);
  require (state =? 1) "directory state" ""
    (Errorf "directory is not active (state %d)" [GInt state]);;
  snapshotRoot ← checking "snapshot root" ""
    (suiteHashCall rpc directory blockTag directoryABI "snapshotRoot" []);
  require (negb (bool_decide (snapshotRoot = zero_hash))) "snapshot root" ""
    (Errorf "directory returned zero root" []);;
  mret (version, snapshotRoot).

(** The coordinator: the directory commits to its code, and it is bound to the
    directory and to the snapshot. *)
Definition verify_coordinator (rpc : EVMRPC) (directory blockTag : string) (snapshotRoot : bytes)
    (directoryABI : list suite_method) : prog evm bytes :=
  coordinator ← checking "bootstrap coordinator" ""
    (suiteAddressCall rpc directory blockTag directoryABI "bootstrapCoordinator" []);
  require (negb (bool_decide (coordinator = zero_addr))) "bootstrap coordinator" ""
    (Errorf "directory returned zero address" []);;
  coordinatorCode ← runtime_code rpc (AddressHex coordinator) blockTag "coordinator code" "";
  expectedHash ← checking "coordinator code hash" ""
    (suiteHashCall rpc directory blockTag directoryABI "bootstrapCoordinatorCodeHash" []);
  require (bool_decide (keccak256 coordinatorCode = expectedHash)) "coordinator code hash" ""
    (Errorf "directory commits %s, runtime hashes to %s"
       [GStr (HashHex expectedHash); GStr (HashHex (keccak256 coordinatorCode))]);;
  coordinatorABI ← checking "coordinator ABI" "" (of_result (loadSuiteABI suiteABICoordinator));
  boundDirectory ← checking "coordinator directory binding" ""
    (suiteAddressCall rpc (AddressHex coordinator) blockTag coordinatorABI "suiteDirectory" []);
  require (bool_decide (boundDirectory = HexToAddress directory)) "coordinator directory binding" ""
    (Errorf "coordinator reports %s, want %s" [GStr (AddressHex boundDirectory); GStr directory]);;
  boundSnapshotRoot ← checking "coordinator snapshot binding" ""
    (suiteHashCall rpc (AddressHex coordinator) blockTag coordinatorABI "snapshotRoot" []);
  require (bool_decide (boundSnapshotRoot = snapshotRoot)) "coordinator snapshot binding" ""
    (Errorf "coordinator reports %s, want %s"
       [GStr (HashHex boundSnapshotRoot); GStr (HashHex snapshotRoot)]);;
  mret coordinator.

(** One required module: the directory commits to its address and code, and it is
    bound to the directory, the coordinator and its own identity. *)
Definition verify_module (rpc : EVMRPC) (directory blockTag : string) (coordinator : bytes)
    (directoryABI : list suite_method) (required : SuiteModuleID) : prog evm SuiteModuleInfo :=
  let name := mi_Name required in
  address ← checking "module address" name
    (suiteAddressCall rpc directory blockTag directoryABI "moduleAddress"
       [VBytes32 (mi_ID required)]);
  require (negb (bool_decide (address = zero_addr))) "module address" name
    (Errorf "directory returned zero address" []);;
  expectedHash ← checking "module code hash" name
    (suiteHashCall rpc directory blockTag directoryABI "moduleCodeHash"
       [VBytes32 (mi_ID required)]);
  code ← runtime_code rpc (AddressHex address) blockTag "module code" name;
  require (bool_decide (keccak256 code = expectedHash)) "module code hash" name
    (Errorf "directory commits %s, runtime hashes to %s"
       [GStr (HashHex expectedHash); GStr (HashHex (keccak256 code))]);;
  moduleABI ← checking "module ABI" name (of_result (loadSuiteABI (mi_ABI required)));
  boundDirectory ← checking "directory binding" name
    (suiteAddressCall rpc (AddressHex address) blockTag moduleABI "suiteDirectory" []);
  boundCoordinator ← checking "coordinator binding" name
    (suiteAddressCall rpc (AddressHex address) blockTag moduleABI "bootstrapCoordinator" []);
  boundID ← checking "module ID binding" name
    (suiteHashCall rpc (AddressHex address) blockTag moduleABI "moduleId" []);
  require (bool_decide (boundDirectory = HexToAddress directory)) "directory binding" name
    (Errorf "module reports %s, want %s" [GStr (AddressHex boundDirectory); GStr directory]);;
  require (bool_decide (boundCoordinator = coordinator)) "coordinator binding" name
    (Errorf "module reports %s, want %s"
       [GStr (AddressHex boundCoordinator); GStr (AddressHex coordinator)]);;
  require (bool_decide (boundID = mi_ID required)) "module ID binding" name
    (Errorf "module reports %s, want %s"
       [GStr (HashHex boundID); GStr (HashHex (mi_ID required))]);;
  mret (mk_SuiteModuleInfo name (HashHex (mi_ID required)) (AddressHex address)
          (HashHex expectedHash)).

(** [None] is a nil transport; an expected chain of 0 is none. *)
Definition VerifySuite (rpc : option EVMRPC) (directoryAddress : string) (expectedChainID : Z)
  : prog evm SuiteInfo :=
  match rpc with
  | None => fail (suiteVerificationError "rpc" "" (Errorf "EVM RPC transport is nil" []))
  | Some rpc =>
      directory ← checking "directory address" ""
        (of_result (normalizeEVMAddress directoryAddress));
      chainID ← checking "RPC chain ID" "" (ChainID rpc);
      require ((expectedChainID =? 0) || (chainID =? expectedChainID)) "profile chain ID" ""
        (Errorf "RPC reported %d, profile requires %d" [GInt chainID; GInt expectedChainID]);;
      blockNumber ← checking "snapshot block" "" (BlockNumber rpc);
      let blockTag := block_tag blockNumber in
      runtime_code rpc directory blockTag "directory code" "";;
      directoryABI ← checking "directory ABI" "" (of_result (loadSuiteABI suiteABIDirectory));
      '(version, snapshotRoot) ← verify_directory rpc directory blockTag chainID directoryABI;
      coordinator ← verify_coordinator rpc directory blockTag snapshotRoot directoryABI;
      modules ← foldP (fun modules required =>
        module ← verify_module rpc directory blockTag coordinator directoryABI required;
        mret (modules ++ [module])) RequiredSuiteModules [];
      mret (mk_SuiteInfo directory version chainID "active" (HashHex snapshotRoot)
              (AddressHex coordinator) blockTag modules)
  end.

Definition FormatSuiteInfo (info : option SuiteInfo) : string :=
  match info with
  | None => ""
  | Some i =>
      let line key value := key +:+ "=" +:+ value +:+ str1 newline in
      line "directory" (si_Directory i) +:+ line "version" (FormatUint (si_Version i)) +:+
      line "chain_id" (FormatUint (si_ChainID i)) +:+ line "state" (si_State i) +:+
      line "snapshot_root" (si_SnapshotRoot i) +:+
      line "bootstrap_coordinator" (si_BootstrapCoordinator i) +:+
      line "block_tag" (si_BlockTag i) +:+
      String.concat "" (map (fun m =>
        line ("module." +:+ mo_Name m +:+ ".address") (mo_Address m) +:+
        line ("module." +:+ mo_Name m +:+ ".code_hash") (mo_CodeHash m)) (si_Modules i))
  end.
End Directory.
