(* ===== verification/SuiteTypes.v ===== *)
(** * SuiteTypes: the dynamic types of what contracts answer

    A value that the ABI decodes has the type that the ABI names; the type
    assertions and struct conversions of the client accept every value of the
    type that they are meant for. *)
From Stdlib Require Import ZArith Lia Ascii String.
From stdpp Require Import base list strings option.
From S2P Require Import Prelude GoText Prog GoIo Json Geth EvmAddress SuiteValues EvmRpc SuiteAbi SuiteErrors SuiteDirectory.

Local Open Scope Z_scope.

(** The assertion or conversion succeeds. *)
Definition reads {A} (f : go_any -> option A) (v : go_any) : bool :=
  match f v with Some _ => true | None => false end.

(** ** Every value of a type is accepted *)

Definition accepts (t : abi_type) (reader : go_any -> bool) : Prop :=
  forall v, has_type t v = true -> reader (mk_any t v) = true.

Lemma accepts_slice {A} t (f : go_any -> option A) :
  accepts t (reads f) -> accepts (TSlice t) (reads (as_slice f)).
Proof.
  intros Hf [| | | | | |vs| |] Hv; try discriminate Hv. cbn [has_type] in Hv.
  rewrite forallb_forall in Hv. unfold reads, as_slice.
  destruct (mapM (fun x => f (mk_any t x)) vs) eqn:E; [done|].
  apply mapM_None, list.Exists_exists in E as (x & Hx & E). apply list_elem_of_In, Hv, Hf in Hx.
  unfold reads in Hx. by rewrite E in Hx.
Qed.

Lemma typed_slice {A} t (f : go_any -> option A) v :
  accepts t (reads f) -> has_type (TSlice t) v = true ->
  exists l, as_slice f (mk_any (TSlice t) v) = Some l.
Proof.
  intros Hf Hv. apply (accepts_slice t f Hf) in Hv. unfold reads in Hv.
  destruct (as_slice f _); [by eauto|done].
Qed.

Lemma has_type_tuple fs vs : has_type (TTuple fs) (VTuple vs) = have_types (map snd fs) vs.
Proof.
  revert vs. induction fs as [|[f t] fs IH]; intros [|v vs]; try done. cbn in *. by rewrite IH.
Qed.

Lemma have_types_cons t ts vs :
  have_types (t :: ts) vs = true ->
  exists v vs', vs = v :: vs' /\ has_type t v = true /\ have_types ts vs' = true.
Proof. destruct vs as [|v vs]; [done|]. intros [? ?]%andb_true_iff. eauto 10. Qed.

(** A typed scalar is the constructor of its type, a typed tuple has its
    components. *)
Ltac typed_parts :=
  repeat match goal with
  | H : have_types (_ :: _) _ = true |- _ => apply have_types_cons in H as (? & ? & -> & ? & H)
  | H : have_types [] ?vs = true |- _ => destruct vs; [clear H|discriminate H]
  | H : has_type (TSlice _) _ = true |- _ => revert H
  | H : has_type _ ?v = true |- _ => destruct v; try discriminate H; clear H
  end.

Ltac accept_scalar := intros v Hv; destruct v; try discriminate Hv; reflexivity.

Lemma accepts_uint w : accepts (TUint w) (reads (as_uint w)).
Proof. intros v Hv. destruct v; try discriminate Hv. unfold reads. cbn. by rewrite Z.eqb_refl. Qed.
Lemma accepts_big : accepts (TUint 256) (reads as_big).
Proof. accept_scalar. Qed.
Lemma accepts_address : accepts TAddress (reads as_address).
Proof. accept_scalar. Qed.
Lemma accepts_hash : accepts TBytes32 (reads as_hash).
Proof. accept_scalar. Qed.
Lemma accepts_bool : accepts TBool (reads as_bool).
Proof. accept_scalar. Qed.
Lemma accepts_string : accepts TString (reads as_string).
Proof. accept_scalar. Qed.

Create HintDb typed.
#[export] Hint Resolve accepts_uint accepts_big accepts_address accepts_hash accepts_bool
  accepts_string accepts_slice : typed.

Ltac accept_struct :=
  match goal with |- accepts ?t _ => unfold t end;
  intros [] Hv; try discriminate Hv; rewrite has_type_tuple in Hv; cbn [map snd] in Hv; typed_parts;
  intros; unfold reads; cbn -[as_slice]; try rewrite decide_True by (split; reflexivity); cbn -[as_slice];
  repeat match goal with
  | H : has_type (TSlice ?t) ?v = true |- context [as_slice ?f (mk_any (TSlice ?t) ?v)] =>
      let E := fresh in destruct (typed_slice t f v) as [? E];
      [auto with typed|exact H|rewrite E; cbn -[as_slice]]
  end; reflexivity.

Lemma accepts_repository : accepts repository_type (reads repository_fields).
Proof. accept_struct. Qed.
Lemma accepts_ref : accepts ref_type (reads ref_fields).
Proof. accept_struct. Qed.
Lemma accepts_pending_transfer : accepts pending_transfer_type (reads pending_transfer_fields).
Proof. accept_struct. Qed.
Lemma accepts_guardian_config : accepts guardian_config_type (reads guardian_config_fields).
Proof. accept_struct. Qed.
Lemma accepts_recovery_proposal : accepts recovery_proposal_type (reads recovery_proposal_fields).
Proof. accept_struct. Qed.
Lemma accepts_split : accepts split_type (reads split_fields).
Proof. accept_struct. Qed.
Lemma accepts_username : accepts username_type (reads username_fields).
Proof. accept_struct. Qed.
Lemma accepts_badge : accepts badge_type (reads badge_fields).
Proof. accept_struct. Qed.
Lemma accepts_release : accepts release_type (reads release_fields).
Proof. accept_struct. Qed.
Lemma accepts_report : accepts report_type (reads report_fields).
Proof. accept_struct. Qed.
Lemma accepts_trail : accepts trail_type (reads trail_fields).
Proof. accept_struct. Qed.
#[export] Hint Resolve accepts_repository accepts_ref accepts_pending_transfer
  accepts_guardian_config accepts_recovery_proposal accepts_split accepts_username accepts_badge
  accepts_release accepts_report accepts_trail : typed.

(** A repository's identifier is a word. *)
Lemma repository_id_length v repository :
  has_type repository_type v = true -> repository_fields (mk_any repository_type v) = Some repository ->
  length (sr_Id repository) = 32%nat.
Proof.
  unfold repository_type. intros Hv. destruct v as [| | | | | | |vs|]; try discriminate Hv.
  rewrite has_type_tuple in Hv. cbn [map snd] in Hv.
  apply have_types_cons in Hv as (v & vs' & -> & Hid & Hv). destruct v as [| |h| | | | | |]; try done.
  apply Nat.eqb_eq in Hid. typed_parts. unfold repository_fields. cbn.
  rewrite decide_True by (split; reflexivity). cbn. by intros [= <-].
Qed.

Section Types.
Context {UC : UnicodeCase} {TR : Transport} {WT : Waiting} {GE : Geth} {GL : GethLaws}
        {MO : MapOrder} {RV : RevertReasons}.

Lemma suite_Unpack_typed abi method m data vs :
  suite_method_named abi method = Some m -> suite_Unpack abi method data = Ok vs ->
  exists us, have_types (sm_outputs m) us = true /\ vs = typed (sm_outputs m) us.
Proof.
  unfold suite_Unpack. intros ->. destruct (abi_Unpack _ data) as [us|] eqn:E; [|done].
  intros [= <-]. exists us. split; [by apply (Unpack_typed _ _ data)|done].
Qed.

Lemma suiteCall_unpacked r address tag abi method args s s' vs :
  suiteCall r address tag abi method args s = (s', Ok vs) ->
  exists out, suite_Unpack abi method out = Ok vs.
Proof.
  unfold suiteCall. intros (s1 & data & _ & H)%bind_run_ok.
  apply bind_run_ok in H as (s2 & out & _ & H). injection H as _ H. exists out.
  destruct (suite_Unpack abi method out); [|done]. cbn in H. by injection H as ->.
Qed.

End Types.
