(* ===== verification/SuiteTrust.v ===== *)
(** * SuiteTrust: what a node answers about one block

    Calls at a fixed block, against a node whose answers about that block are
    those of a chain: the archive as a pure function, what it says of a contract
    suite, and the relation between programs and archived answers. *)
From Stdlib Require Import ZArith Lia Ascii String.
From stdpp Require Import base list strings option.
From S2P Require Import Prelude GoText Prog GoIo Json Geth EvmAddress SuiteValues EvmRpc SuiteAbi SuiteErrors SuiteDirectory.

Local Open Scope Z_scope.

(** ** Programs with one possible result *)

Section Decides.
Context {S : Type} (R : S -> Prop) (P : Prop).

(** In a state of [R], which it keeps, [c] has no other result than the one that
    [Q] describes, if any; when [P] holds it does have that result. *)
Definition decides {A} (c : prog S A) (Q : A -> Prop) : Prop :=
  (forall a b, Q a -> Q b -> a = b) /\
  forall s, R s -> R (c s).1 /\
    match (c s).2 with Ok a => Q a | Err _ => P -> forall a, ~ Q a end.

Lemma decides_iff {A} (c : prog S A) (Q Q' : A -> Prop) :
  (forall a, Q a <-> Q' a) -> decides c Q -> decides c Q'.
Proof.
  intros HQ [Hu Hc]. split; [intros a b Ha Hb; apply Hu; by apply HQ|].
  intros s Hs. destruct (Hc s Hs) as [Hr Hd]. split; [done|].
  destruct (c s).2 as [a|e]; [by apply HQ|]. intros HP a Ha. by apply (Hd HP a), HQ.
Qed.

Lemma decides_bind {A B} (c : prog S A) (f : A -> prog S B) (Q1 : A -> Prop)
    (Q2 : A -> B -> Prop) :
  decides c Q1 -> (forall a, Q1 a -> decides (f a) (Q2 a)) ->
  decides (c ≫= f) (fun b => exists a, Q1 a /\ Q2 a b).
Proof.
  intros [Hu Hc] Hf. split.
  - intros b b' (a & Ha & Hb) (a' & Ha' & Hb'). rewrite (Hu a' a Ha' Ha) in Hb'.
    by apply (proj1 (Hf a Ha)).
  - intros s Hs. rewrite bind_run. destruct (Hc s Hs) as [Hr Hd].
    destruct (c s) as [s1 [a|e]]; cbn in *.
    + destruct (proj2 (Hf a Hd) s1 Hr) as [Hr' Hd']. split; [done|].
      destruct (f a s1).2 as [b|e]; [by eauto|].
      intros HP b (a' & Ha' & Hb). rewrite (Hu a' a Ha' Hd) in Hb. by apply (Hd' HP b).
    + split; [done|]. intros HP b (a' & Ha' & _). by apply (Hd HP a').
Qed.

Lemma decides_ret {A} (a : A) : decides (mret a) (fun b => b = a).
Proof. split; [by intros b b' -> ->|]. by intros s. Qed.

Lemma decides_of_result {A} (x : result A) : decides (of_result x) (fun a => x = Ok a).
Proof. split; [by intros a b -> [= ->]|]. intros s Hs. by destruct x; cbn. Qed.

Lemma decides_on_error {A} f (c : prog S A) Q : decides c Q -> decides (on_error f c) Q.
Proof.
  intros [Hu Hc]. split; [done|]. intros s Hs. destruct (Hc s Hs) as [Hr Hd]. unfold on_error.
  by destruct (c s) as [s' [a|e]].
Qed.

Lemma decides_require ok check module e :
  decides (require ok check module e) (fun _ => ok = true).
Proof. split; [by intros [] []|]. intros s Hs. by destruct ok; cbn. Qed.

Lemma decides_fail {A} e (Q : A -> Prop) : (forall a, ~ Q a) -> decides (fail e) Q.
Proof. intros Hn. split; [intros a b Ha; by destruct (Hn a)|]. intros s Hs. cbn. by split. Qed.

Lemma decides_option {A B} (o : option A) (f : A -> prog S B) e (Q : B -> Prop) :
  (forall a, o = Some a -> decides (f a) Q) -> (o = None -> forall b, ~ Q b) ->
  decides (match o with Some a => f a | None => fail e end) Q.
Proof. intros Hs Hn. destruct o as [a|]; [by apply Hs|]. by apply decides_fail, Hn. Qed.

Lemma decides_let {A B C} (v : A * B) (f : A -> B -> prog S C) Q :
  decides (f (fst v) (snd v)) Q -> decides (let '(a, b) := v in f a b) Q.
Proof. by destruct v. Qed.

(** A loop of steps that each have one result. *)
Lemma decides_foldP {A T} (visit : A -> T -> prog S A) (step : A -> T -> A) xs acc :
  (forall acc x, x ∈ xs -> decides (visit acc x) (fun a => a = step acc x)) ->
  decides (foldP visit xs acc) (fun a => a = fold_left step xs acc).
Proof.
  revert acc. induction xs as [|x xs IH]; intros acc Hv; cbn [foldP]; [apply decides_ret|].
  eapply decides_iff, decides_bind; [|apply Hv; left|].
  2: { intros a _. apply IH. intros acc' y Hy. apply Hv. by right. }
  intros a. cbv beta. split; [by intros (? & -> & ->)|intros ->; eauto].
Qed.

(** A loop that collects one result for each element. *)
Lemma decides_collect {A B} (f : A -> prog S B) (Q : A -> B -> Prop) xs acc :
  (forall x, decides (f x) (Q x)) ->
  decides (foldP (fun l x => y ← f x; mret (l ++ [y])) xs acc)
    (fun l => exists ys, Forall2 Q xs ys /\ l = acc ++ ys).
Proof.
  intros Hf. revert acc. induction xs as [|x xs IH]; intros acc; cbn [foldP].
  - eapply decides_iff, decides_ret. intros l. split.
    + intros ->. exists []. by rewrite app_nil_r.
    + intros (ys & ->%Forall2_nil_inv_l & ->). by rewrite app_nil_r.
  - eapply decides_iff; [|apply decides_bind].
    2: { apply decides_bind; [apply Hf|intros y _; apply decides_ret]. }
    2: { intros l _. apply IH. }
    intros l. cbv beta. split.
    + intros (l1 & (y & Hy & ->) & ys & Hys & ->). exists (y :: ys). split; [by constructor|].
      by rewrite <- app_assoc.
    + intros (ys & (y & ys' & Hy & Hys & ->)%Forall2_cons_inv_l & ->). exists (acc ++ [y]).
      split; [by eauto|]. exists ys'. by rewrite <- app_assoc.
Qed.

(** What a run of such a program gives. *)
Lemma decides_run {A} (c : prog S A) (Q : A -> Prop) s s' a :
  decides c Q -> R s -> c s = (s', Ok a) -> R s' /\ Q a.
Proof. intros [_ Hc] Hs E. specialize (Hc s Hs). by rewrite E in Hc. Qed.

Lemma decides_succeeds {A} (c : prog S A) (Q : A -> Prop) s a :
  decides c Q -> P -> R s -> Q a -> exists s', c s = (s', Ok a).
Proof.
  intros [Hu Hc] HP Hs Ha. destruct (Hc s Hs) as [_ Hd]. destruct (c s) as [s' [b|e]]; cbn in Hd.
  - exists s'. by rewrite (Hu b a).
  - by destruct (Hd HP a).
Qed.
End Decides.

(** No condition on the state. *)
Definition anywhere {S} (_ : S) : Prop := True.

(** A read of the state of one block. *)
Definition pinned (method : string) (params : list json) : bool :=
  (bool_decide (method = "eth_getCode"%string) || bool_decide (method = "eth_call"%string)) &&
  match params with
  | [_; JString tag] => is_ok (requireFixedEVMBlockTag tag)
  | _ => false
  end.

(** What the chain answers to reads of the state of a block; [JNull] stands for no
    answer, as when a call reverts.  The node behind [r] loses requests, replies and its patience as it likes;
    but when it answers a pinned read at all, it gives the answer of the chain. *)
Class Archive {TR : Transport} (r : EVMRPC) := {
  archive : string -> list json -> json;
  archive_honest : forall n id method params, pinned method params = true ->
    match (http_do (call_message r (request_text id method params)) n).2 with
    | Ok resp => forall v, judge_response method Ok resp = Ok (Some v) -> v = archive method params
    | Err _ => True
    end;
}.

(** A node that gives every answer of the chain to a pinned read. *)
Class Reliable {TR : Transport} (r : EVMRPC) {AR : Archive r} : Prop := {
  endpoint_set : TrimSpace (rpc_endpoint r) <> ""%string;
  endpoint_url : new_request (rpc_endpoint r) = Ok tt;
  always_answers : forall n id method params, pinned method params = true ->
    archive method params <> JNull ->
    exists n' resp, http_do (call_message r (request_text id method params)) n = (n', Ok resp) /\
      judge_response method Ok resp = Ok (Some (archive method params));
}.

Section Views.
Context {UC : UnicodeCase} {TR : Transport} {WT : Waiting} {GE : Geth} {MO : MapOrder}
        {RV : RevertReasons} {r : EVMRPC} {AR : Archive r}.

(** ** The archive as functions *)

Definition archived_bytes (method : string) (params : list json) : result bytes :=
  let? raw := decode_string (archive method params) "" in
  fail_if blank_text raw as Errorf (method +:+ " returned null result") [] ;; decodeHexBytes raw.

(** Code and calls at the block of a tag. *)
Definition code_at (tag address : string) : result bytes :=
  let? address := normalizeEVMAddress address in
  archived_bytes "eth_getCode" [JString address; JString tag].

Definition call_at (tag to : string) (data : bytes) : result bytes :=
  archived_bytes "eth_call"
    [call_json (mk_EVMCall "" to "" "" (normalizeHex ("0x" +:+ hex_encode data))); JString tag].

Definition values_at (tag to : string) (abi : list suite_method) (method : string)
    (args : list abi_value) : result (list go_any) :=
  let? data := suite_Pack abi method args in
  let? out := call_at tag to data in suite_Unpack abi method out.

Definition value_at {A} (assertion : go_any -> option A) (tag to : string)
    (abi : list suite_method) (method : string) (args : list abi_value) : option A :=
  match values_at tag to abi method args with Ok [v] => assertion v | _ => None end.

(** ** What the archive says of a suite *)

Definition has_code (tag address : string) (code : bytes) : Prop :=
  code_at tag address = Ok code /\ code <> [].

Record module_trusted (tag directory : string) (coordinator : bytes) (required : SuiteModuleID)
    (m : SuiteModuleInfo) (address expectedHash : bytes) (abi : list suite_method) : Prop := {
  mt_name : mo_Name m = mi_Name required;
  mt_id : mo_ID m = HashHex (mi_ID required);
  mt_address : mo_Address m = AddressHex address;
  mt_hash : mo_CodeHash m = HashHex expectedHash;
  mt_configured : value_at as_address tag directory directoryMethods "moduleAddress"
    [VBytes32 (mi_ID required)] = Some address;
  mt_nonzero : address <> zero_addr;
  mt_committed : BytesToHash <$> value_at as_hash tag directory directoryMethods "moduleCodeHash"
    [VBytes32 (mi_ID required)] = Some expectedHash;
  mt_code : exists code, has_code tag (AddressHex address) code /\ keccak256 code = expectedHash;
  mt_abi : loadSuiteABI (mi_ABI required) = Ok abi;
  mt_directory : value_at as_address tag (AddressHex address) abi "suiteDirectory" [] =
    Some (HexToAddress directory);
  mt_coordinator : value_at as_address tag (AddressHex address) abi "bootstrapCoordinator" [] =
    Some coordinator;
  mt_bound_id : BytesToHash <$> value_at as_hash tag (AddressHex address) abi "moduleId" [] =
    Some (mi_ID required);
}.

(** The suite of a directory at a block, as [info] describes it. *)
Record suite_trusted (directoryAddress : string) (expectedChainID : Z) (info : SuiteInfo)
    (root coordinator : bytes) : Prop := {
  su_state : si_State info = "active"%string;
  su_root : si_SnapshotRoot info = HashHex root;
  su_coordinator : si_BootstrapCoordinator info = AddressHex coordinator;
  su_directory : normalizeEVMAddress directoryAddress = Ok (si_Directory info);
  su_chain : expectedChainID = 0 \/ si_ChainID info = expectedChainID;
  su_code : exists code, has_code (si_BlockTag info) (si_Directory info) code;
  su_version : si_Version info = SupportedSuiteVersion /\
    value_at (as_uint 64) (si_BlockTag info) (si_Directory info) directoryMethods "suiteVersion" [] =
      Some SupportedSuiteVersion;
  su_configured_chain :
    value_at as_big (si_BlockTag info) (si_Directory info) directoryMethods "configuredChainId" [] =
      Some (si_ChainID info) /\ si_ChainID info <= MaxUint64;
  su_active :
    value_at (as_uint 8) (si_BlockTag info) (si_Directory info) directoryMethods "state" [] = Some 1;
  su_snapshot : BytesToHash <$> value_at as_hash (si_BlockTag info) (si_Directory info)
    directoryMethods "snapshotRoot" [] = Some root /\ root <> zero_hash;
  su_configured_coordinator : value_at as_address (si_BlockTag info) (si_Directory info)
    directoryMethods "bootstrapCoordinator" [] = Some coordinator /\ coordinator <> zero_addr;
  su_coordinator_code : exists code, has_code (si_BlockTag info) (AddressHex coordinator) code /\
    BytesToHash <$> value_at as_hash (si_BlockTag info) (si_Directory info) directoryMethods
      "bootstrapCoordinatorCodeHash" [] = Some (keccak256 code);
  su_coordinator_directory : value_at as_address (si_BlockTag info) (AddressHex coordinator)
    suiteCoordinatorMethods "suiteDirectory" [] = Some (HexToAddress (si_Directory info));
  su_coordinator_snapshot : BytesToHash <$> value_at as_hash (si_BlockTag info)
    (AddressHex coordinator) suiteCoordinatorMethods "snapshotRoot" [] = Some root;
  su_modules : Forall2 (fun required m => exists address hash abi,
      module_trusted (si_BlockTag info) (si_Directory info) coordinator required m address hash abi)
    RequiredSuiteModules (si_Modules info);
}.

(** ** Pinned reads *)

Variable P : Prop.

Lemma judge_decode {A} method (decode : json -> result A) resp :
  judge_response method decode resp =
    let? o := judge_response method Ok resp in
    match o with
    | None => Ok None
    | Some v =>
        let? a := wrapf "decode EVM RPC %s result: %w" [GStr method] (decode v) in Ok (Some a)
    end.
Proof.
  unfold judge_response. destruct (read_limited _ resp) as [body|e]; cbn; [|done].
  destruct (_ <? _); [done|]. destruct (negb _); [done|].
  destruct (decode_rpcResponse body) as [d|e]; cbn; [|done].
  destruct (rpc_Error d); [done|]. destruct (null_text _); [done|].
  destruct (Unmarshal (rpc_Result d)) as [v|e]; cbn; [|done]. by destruct (decode v).
Qed.

(** A call that succeeded took a response of the node. *)
Lemma call_loop_response {A} left attempts method body (decode : json -> result A) s s' o :
  call_loop r left attempts method body decode s = (s', Ok o) ->
  exists n resp, (http_do (call_message r body) n).2 = Ok resp /\
    judge_response method decode resp = Ok o.
Proof.
  revert attempts s. induction left as [|left IH]; intros attempts s; cbn [call_loop]; [done|].
  rewrite bind_run. unfold attempt at 1. destruct (callOnce r method body decode s) as [s1 [v|e]] eqn:E.
  - intros [= -> ->]. unfold callOnce in E. apply bind_run_ok in E as (s2 & [] & _ & E).
    apply bind_run_ok in E as (s3 & reply & E1 & E). unfold attempt, exchange in E1.
    destruct (http_do (call_message r body) (ev_net s2)) as [n res] eqn:Eh.
    injection E1 as <- <-. exists (ev_net s2). rewrite Eh. destruct res as [resp|e]; [|done].
    exists resp. split; [done|]. by injection E.
  - destruct (_ || _); [done|]. rewrite bind_run.
    destruct (wrap_error _ _ _ s1) as [s2 [[]|]]; [apply IH|done].
Qed.

(** One exchange that brought a response. *)
Lemma callOnce_answered {A} method body (decode : json -> result A) s n resp :
  new_request (rpc_endpoint r) = Ok tt ->
  http_do (call_message r body) (ev_net s) = (n, Ok resp) ->
  callOnce r method body decode s =
    (mk_evm n (ev_nextID s) (ev_nonces s) (ev_sent s ++ [call_message r body]),
     judge_response method decode resp).
Proof.
  intros Hurl Hd. unfold callOnce. rewrite Hurl, bind_run. cbn [wrapf]. unfold of_result at 1.
  cbv beta iota. rewrite bind_run. unfold attempt, exchange. by rewrite Hd.
Qed.

Lemma archived_some method params b : archived_bytes method params = Ok b -> archive method params <> JNull.
Proof. unfold archived_bytes. intros H E. by rewrite E in H. Qed.

Lemma decides_call_bytes method params :
  pinned method params = true -> (P -> Reliable r) ->
  decides anywhere P (call_bytes r method params) (fun b => archived_bytes method params = Ok b).
Proof.
  intros Hp HP. split; [by intros a b -> [= ->]|]. intros s _. split; [done|].
  unfold call_bytes, call_string. rewrite bind_run, bind_run. unfold Call.
  destruct (decide _) as [Hblank|Hset].
  { cbn. intros H b _. destruct (HP H) as [Hs _ _]. done. }
  rewrite bind_run. unfold nextRequestID at 1. cbv beta iota zeta.
  set (id := u64 _). set (s1 := mk_evm _ _ _ _).
  set (decode := fun v => decode_string v ""%string).
  destruct (call_loop r _ _ _ _ decode s1) as [s2 [o|e]] eqn:E.
  - cbv beta iota. apply call_loop_response in E as (n & resp & Eh & Ej).
    rewrite judge_decode in Ej. pose proof (archive_honest n id method params Hp) as Hh.
    rewrite Eh in Hh. destruct (judge_response method Ok resp) as [[v|]|e] eqn:E0; [| |done].
    + specialize (Hh v eq_refl). subst v. unfold archived_bytes.
      destruct (decode (archive method params)) as [raw|e] eqn:Ed; [|done].
      injection Ej as <-. fold decode. unfold decode in Ed. rewrite Ed. cbn.
      destruct (blank_text raw); [by intros _ b [=]|].
      unfold of_result. cbn. by destruct (decodeHexBytes raw).
    + injection Ej as <-. cbn. intros H b Hb%archived_some. exfalso.
      destruct (HP H) as [_ _ Ha]. destruct (Ha n id method params Hp Hb) as (n' & resp' & E1 & E2).
      rewrite E1 in Eh. injection Eh as ->. congruence.
  - intros H b Hb. pose proof (archived_some _ _ _ Hb) as Hn.
    destruct (HP H) as [_ Hurl Ha]. unfold archived_bytes in Hb.
    destruct (Ha (ev_net s1) id method params Hp Hn) as (n' & resp & E1 & E2).
    unfold maxRPCAttempts in E. cbn [call_loop] in E. rewrite bind_run in E. unfold attempt at 1 in E.
    rewrite (callOnce_answered _ _ decode s1 n' resp Hurl E1), judge_decode, E2 in E. fold decode in Hb.
    change (decode_string (archive method params) ""%string)
      with (decode (archive method params)) in Hb.
    by destruct (decode (archive method params)).
Qed.
End Views.
