(* ===== verification/SuiteTrustProps.v ===== *)
(** * SuiteTrustProps: suite verification is exact

    [VerifySuite] accepts no suite that the chain does not vouch for, whatever
    the node loses or refuses, and with a reliable node it accepts exactly the
    suites that the chain vouches for at the block it pinned. *)
From Stdlib Require Import ZArith Lia Ascii String.
From stdpp Require Import base list strings option.
From S2P Require Import Prelude GoText Prog GoIo Json Geth EvmAddress SuiteValues EvmRpc SuiteAbi SuiteErrors SuiteDirectory SuiteTrust.

Local Open Scope Z_scope.

(** A fixed tag is not blank. *)
Lemma fixed_tag_or tag : requireFixedEVMBlockTag tag = Ok tt -> tag_or "latest" tag = tag.
Proof.
  unfold requireFixedEVMBlockTag, tag_or, blank_text. intros H. go_inv H. clear H. bool_prop.
  match goal with Ht : tag = TrimSpace tag |- _ => rewrite <- Ht end.
  by rewrite bool_decide_eq_false_2.
Qed.

Lemma parseHexUint_range raw n : parseHexUint raw = Ok n -> 0 <= n < 2 ^ 64.
Proof.
  unfold parseHexUint. case_decide; [intros [= <-]; lia|]. intros Hp. go_inv Hp.
  destruct (hex_decode _); [|done]. go_inv Hp. subst n. apply u64_range.
Qed.

Section Trust.
Context {UC : UnicodeCase} {TR : Transport} {WT : Waiting} {GE : Geth} {MO : MapOrder}
        {RV : RevertReasons} {r : EVMRPC} {AR : Archive r}.
Variables (P : Prop) (HP : P -> Reliable r).

Section Reads.
Variables (tag : string) (Htag : requireFixedEVMBlockTag tag = Ok tt).

Lemma decides_CodeAt a : decides anywhere P (CodeAt r a tag) (fun b => code_at tag a = Ok b).
Proof.
  unfold CodeAt. rewrite fixed_tag_or by done.
  eapply decides_iff, decides_bind; [|apply decides_of_result|].
  2: { intros a' _. apply decides_call_bytes; [|done]. unfold pinned. by rewrite Htag. }
  intros b. cbv beta. unfold code_at. by rewrite bind_ok.
Qed.

Lemma decides_suiteCall to abi method args :
  decides anywhere P (suiteCall r to tag abi method args) (fun vs => values_at tag to abi method args = Ok vs).
Proof.
  unfold suiteCall. eapply decides_iff, decides_bind; [|apply decides_of_result|].
  2: { intros data _. apply decides_bind; [apply decides_on_error|intros out _; apply decides_of_result].
       unfold CallContractAt. rewrite fixed_tag_or by done.
       apply decides_call_bytes; [|done]. unfold pinned. by rewrite Htag. }
  intros vs. cbv beta. unfold values_at, call_at. rewrite bind_ok.
  split; intros (data & Hd & H); exists data.
  - destruct H as (out & Ho & Hu). apply wrapf_ok in Hd, Hu. split; [done|]. by rewrite Ho.
  - split; [by apply wrapf_ok|]. apply bind_ok in H as (out & Ho & Hu). exists out.
    split; [done|by apply wrapf_ok].
Qed.

Lemma decides_typed_call {A} (assertion : go_any -> option A) to abi method args want :
  decides anywhere P (typed_call r to tag abi method args assertion want)
    (fun x => value_at assertion tag to abi method args = Some x).
Proof.
  unfold typed_call, suiteSingleValue.
  eapply decides_iff, decides_bind;
    [|apply decides_bind; [apply decides_suiteCall|]|].
  2: { intros vs _. refine (_ : decides anywhere P _ (fun v => vs = [v])).
       destruct vs as [|v [|? ?]]; [apply decides_fail; intros ? [=]| |apply decides_fail; intros ? [=]].
       eapply decides_iff, decides_ret. intros w. cbv beta. split; congruence. }
  2: { intros v _. apply (decides_option _ P _ _ _ (fun x => assertion v = Some x)).
       - intros a ->. eapply decides_iff, decides_ret. intros x. cbv beta. split; congruence.
       - by intros ->. }
  intros x. cbv beta. unfold value_at. split.
  - by intros (v & (vs & -> & ->) & Hv).
  - destruct (values_at tag to abi method args) as [vs|e]; [|done].
    destruct vs as [|v [|? ?]]; [done| |done]. intros Hv. exists v. split; [by exists [v]|done].
Qed.

Lemma decides_hash_call to abi method args :
  decides anywhere P (suiteHashCall r to tag abi method args)
    (fun h => BytesToHash <$> value_at as_hash tag to abi method args = Some h).
Proof.
  unfold suiteHashCall. eapply decides_iff, decides_bind;
    [|apply decides_typed_call|intros h _; apply decides_ret].
  intros h. cbv beta. rewrite fmap_Some. split; intros (x & ? & ?); eauto.
Qed.

Lemma decides_runtime_code a check module :
  decides anywhere P (runtime_code r a tag check module) (has_code tag a).
Proof.
  unfold runtime_code. eapply decides_iff, decides_bind;
    [|apply decides_on_error, decides_CodeAt|].
  2: { intros code _. apply decides_bind; [apply decides_require|intros u _; apply decides_ret]. }
  intros code. cbv beta. unfold has_code. split.
  - intros (c & Hc & [] & Hn & ->). split; [done|]. by apply negb_true_iff, bool_decide_eq_false in Hn.
  - intros [Hc Hn]. exists code. split; [done|]. exists tt. split; [|done].
    by rewrite bool_decide_eq_false_2.
Qed.

(** *** The steps of the verification *)

Lemma decides_guarded {A} ok check module e (c : prog evm A) Q :
  decides anywhere P c Q -> decides anywhere P (require ok check module e;; c) (fun a => ok = true /\ Q a).
Proof.
  intros Hc. eapply decides_iff, decides_bind; [|apply decides_require|intros u _; exact Hc].
  intros a. cbv beta. split; [by intros (_ & ? & ?)|intros [? ?]; by exists tt].
Qed.

Ltac decides_step :=
  lazymatch goal with
  | |- decides _ _ (require _ _ _ _;; _) _ => eapply decides_guarded
  | |- decides _ _ (checking _ _ _) _ => apply decides_on_error
  | |- decides _ _ (suiteHashCall _ _ _ _ _ _) _ => apply decides_hash_call
  | |- decides _ _ (suiteAddressCall _ _ _ _ _ _) _ => apply decides_typed_call
  | |- decides _ _ (suiteUint64Call _ _ _ _ _ _) _ => apply decides_typed_call
  | |- decides _ _ (suiteUint8Call _ _ _ _ _ _) _ => apply decides_typed_call
  | |- decides _ _ (suiteBigIntCall _ _ _ _ _ _) _ => apply decides_typed_call
  | |- decides _ _ (runtime_code _ _ _ _ _) _ => apply decides_runtime_code
  | |- decides _ _ (of_result _) _ => apply decides_of_result
  | |- decides _ _ (mret _) _ => apply decides_ret
  | |- decides _ _ (_ ≫= _) _ => eapply decides_bind; [|intros ? _]
  end.

(** Turning the guards of a run into propositions and back. *)
Ltac guards := repeat match goal with
  | H : negb _ = true |- _ => apply negb_true_iff in H
  | H : bool_decide _ = true |- _ => apply bool_decide_eq_true in H
  | H : bool_decide _ = false |- _ => apply bool_decide_eq_false in H
  | H : (_ =? _) = true |- _ => apply Z.eqb_eq in H
  | H : (_ <=? _) = true |- _ => apply Z.leb_le in H
  | H : (_ && _) = true |- _ => apply andb_true_iff in H
  | |- negb _ = true => apply negb_true_iff
  | |- bool_decide _ = true => apply bool_decide_eq_true
  | |- bool_decide _ = false => apply bool_decide_eq_false
  | |- (_ =? _) = true => apply Z.eqb_eq
  | |- (_ <=? _) = true => apply Z.leb_le
  | |- (_ && _) = true => apply andb_true_iff
  end.

(** What [verify_directory] establishes. *)
Definition directory_ok (directory : string) (chainID : Z) (abi : list suite_method)
    (v : Z * bytes) : Prop :=
  value_at (as_uint 64) tag directory abi "suiteVersion" [] = Some (fst v) /\
  fst v = SupportedSuiteVersion /\
  value_at as_big tag directory abi "configuredChainId" [] = Some chainID /\ chainID <= MaxUint64 /\
  value_at (as_uint 8) tag directory abi "state" [] = Some 1 /\
  BytesToHash <$> value_at as_hash tag directory abi "snapshotRoot" [] = Some (snd v) /\
  snd v <> zero_hash.

Lemma decides_verify_directory directory chainID abi :
  decides anywhere P (verify_directory r directory tag chainID abi) (directory_ok directory chainID abi).
Proof.
  eapply decides_iff; [|unfold verify_directory; repeat decides_step].
  intros [v root]. cbv beta. unfold directory_ok. cbn [fst snd]. split.
  - intros (v' & H1 & Hv & chain & H2 & Hc & st & H3 & Hst & root' & H4 & Hr & [= -> ->]).
    guards. destruct Hc as [? ->%Z.eqb_eq]. guards. subst. done.
  - intros (H1 & Hv & H2 & Hc & H3 & H4 & Hr).
    exists v. split; [done|]. split; [by apply Z.eqb_eq|]. exists chainID. split; [done|].
    split; [apply andb_true_iff; split; guards; done|]. exists 1. split; [done|]. split; [done|].
    exists root. split; [done|]. split; [by guards|done].
Qed.

(** What [verify_coordinator] establishes. *)
Definition coordinator_ok (directory : string) (root : bytes) (abi : list suite_method)
    (coordinator : bytes) : Prop :=
  value_at as_address tag directory abi "bootstrapCoordinator" [] = Some coordinator /\
  coordinator <> zero_addr /\
  (exists code, has_code tag (AddressHex coordinator) code /\
    BytesToHash <$> value_at as_hash tag directory abi "bootstrapCoordinatorCodeHash" [] =
      Some (keccak256 code)) /\
  value_at as_address tag (AddressHex coordinator) suiteCoordinatorMethods "suiteDirectory" [] =
    Some (HexToAddress directory) /\
  BytesToHash <$> value_at as_hash tag (AddressHex coordinator) suiteCoordinatorMethods
    "snapshotRoot" [] = Some root.

Lemma decides_verify_coordinator directory root abi :
  decides anywhere P (verify_coordinator r directory tag root abi) (coordinator_ok directory root abi).
Proof.
  eapply decides_iff; [|unfold verify_coordinator; repeat decides_step].
  intros c. cbv beta. unfold coordinator_ok. split.
  - intros (c' & H1 & Hz & code & H2 & h & H3 & Hh & abi' & [= <-] & d & H4 & Hd & root' & H5 & Hr & ->).
    guards. subst. split_and!; eauto.
  - intros (H1 & Hz & (code & Hc & Hh) & Hd & Hr).
    exists c. split; [done|]. split; [by guards|]. exists code. split; [done|].
    eexists. split; [exact Hh|]. split; [by guards|]. eexists. split; [reflexivity|].
    eexists. split; [exact Hd|]. split; [by guards|]. eexists. split; [exact Hr|].
    split; [by guards|done].
Qed.

Lemma decides_verify_module directory coordinator required :
  decides anywhere P (verify_module r directory tag coordinator directoryMethods required)
    (fun m => exists address hash abi,
       module_trusted tag directory coordinator required m address hash abi).
Proof.
  eapply decides_iff; [|unfold verify_module; cbv zeta; repeat decides_step].
  intros m. cbv beta. split.
  - intros (a & H1 & Hz & h & H2 & code & H3 & Hh & abi & H4 & d & H5 & c & H6 & id & H7 & Hd & Hc & Hi & ->).
    guards. subst. exists a, (keccak256 code), abi. split; eauto.
  - intros (a & h & abi & [Hn Hi Ha Hh H1 Hz H2 (code & H3 & Hk) H4 H5 H6 H7]).
    exists a. split; [done|]. split; [by guards|]. exists h. split; [done|]. exists code. split; [done|].
    split; [by guards|]. exists abi. split; [done|]. do 2 (eexists; split; [eassumption|]).
    eexists. split; [exact H7|]. split; [by guards|]. split; [by guards|]. split; [by guards|].
    destruct m; cbn in *. congruence.
Qed.
End Reads.

(** *** The verification at the pinned block *)

(** [VerifySuite] after it has pinned the block. *)
Definition verify_at (directory : string) (chainID : Z) (tag : string) : prog evm SuiteInfo :=
  runtime_code r directory tag "directory code" "";;
  directoryABI ← checking "directory ABI" "" (of_result (loadSuiteABI suiteABIDirectory));
  '(version, snapshotRoot) ← verify_directory r directory tag chainID directoryABI;
  coordinator ← verify_coordinator r directory tag snapshotRoot directoryABI;
  modules ← foldP (fun modules required =>
    module ← verify_module r directory tag coordinator directoryABI required;
    mret (modules ++ [module])) RequiredSuiteModules [];
  mret (mk_SuiteInfo directory version chainID "active" (HashHex snapshotRoot)
          (AddressHex coordinator) tag modules).

Lemma decides_verify_at directoryAddress expected directory chainID tag :
  requireFixedEVMBlockTag tag = Ok tt -> normalizeEVMAddress directoryAddress = Ok directory ->
  (expected = 0 \/ chainID = expected) ->
  decides anywhere P (verify_at directory chainID tag) (fun info =>
    si_Directory info = directory /\ si_ChainID info = chainID /\ si_BlockTag info = tag /\
    exists root coordinator, suite_trusted directoryAddress expected info root coordinator).
Proof.
  intros Htag Hd Hc. unfold verify_at.
  eapply decides_iff, decides_bind; [|by apply decides_runtime_code|intros code _].
  2: { apply decides_bind; [apply decides_on_error, decides_of_result|intros abi Habi].
       assert (directoryMethods = abi) as E by (change (Ok directoryMethods = Ok abi) in Habi; congruence).
       apply decides_bind; [by apply decides_verify_directory|intros v _; apply decides_let].
       apply decides_bind; [by apply decides_verify_coordinator|intros coordinator _].
       apply decides_bind.
       { apply decides_collect. intros m. pose proof (decides_verify_module tag Htag directory coordinator m) as Hm.
         rewrite E in Hm. exact Hm. }
       intros modules _. apply decides_ret. }
  intros info. cbv beta. split.
  - intros (code & Hcode & abi & [= <-] & [version root] & Hdir & coordinator & Hco & ms & (ms' & Hms & ->) & ->).
    destruct Hdir as (H1 & Hv & H2 & H3 & H4 & H5 & H6). cbn [fst snd] in *. subst version.
    destruct Hco as (H7 & H8 & H9 & H10 & H11). cbn. split_and!; [done..|].
    exists root, coordinator. split; cbn; eauto.
  - intros (<- & <- & <- & root & coordinator & []).
    destruct su_version as [Hv ?], su_configured_chain, su_snapshot, su_configured_coordinator.
    destruct su_code as [code Hcode]. exists code. split; [done|]. eexists. split; [reflexivity|].
    exists (SupportedSuiteVersion, root). split; [by split_and!|]. exists coordinator.
    split; [by split_and!|]. exists (si_Modules info). split; [by exists (si_Modules info)|].
    destruct info; cbn in *. by subst.
Qed.
End Trust.

(** ** The theorems *)

Section Verification.
Context {UC : UnicodeCase} {TR : Transport} {WT : Waiting} {GE : Geth} {MO : MapOrder}
        {RV : RevertReasons} {r : EVMRPC} {AR : Archive r}.

Lemma BlockNumber_range s s' block : BlockNumber r s = (s', Ok block) -> 0 <= block < 2 ^ 64.
Proof.
  unfold BlockNumber, call_quantity. intros (s1 & raw & _ & H)%bind_run_ok.
  destruct (blank_text raw); [done|]. injection H as _ H. by apply parseHexUint_range in H.
Qed.

Lemma on_error_ok {A} f (c : prog evm A) s s' a :
  on_error f c s = (s', Ok a) <-> c s = (s', Ok a).
Proof. unfold on_error. destruct (c s) as [s1 [x|e]]; split; congruence. Qed.

Lemma require_ok {S} ok check module e (s s' : S) u :
  require ok check module e s = (s', Ok u) <-> ok = true /\ s' = s.
Proof.
  destruct u. unfold require, fail. destruct ok; split;
    [by intros [= ->]|by intros [_ ->]|by intros [=]|by intros [[=] _]].
Qed.

Lemma chain_matches expected chainID :
  (expected =? 0) || (chainID =? expected) = true <-> expected = 0 \/ chainID = expected.
Proof. by rewrite orb_true_iff, !Z.eqb_eq. Qed.

(** A run of [VerifySuite] that succeeded: pinning the block, then the rest. *)
Lemma VerifySuite_ok directoryAddress expected s s' info :
  VerifySuite (Some r) directoryAddress expected s = (s', Ok info) <->
  exists directory chainID block s1 s2,
    normalizeEVMAddress directoryAddress = Ok directory /\
    ChainID r s = (s1, Ok chainID) /\ (expected = 0 \/ chainID = expected) /\
    BlockNumber r s1 = (s2, Ok block) /\
    verify_at (r:=r) directory chainID (block_tag block) s2 = (s', Ok info).
Proof.
  cbn [VerifySuite]. split.
  - intros (s0 & directory & H0 & H)%bind_run_ok. apply on_error_ok in H0. injection H0 as <- Hd.
    apply bind_run_ok in H as (s1 & chainID & H1%on_error_ok & H).
    apply bind_run_ok in H as (s1' & u & [Hc ->]%require_ok & H). apply chain_matches in Hc.
    apply bind_run_ok in H as (s2 & block & H2%on_error_ok & H). eauto 10.
  - intros (directory & chainID & block & s1 & s2 & Hd & H1 & Hc & H2 & H).
    apply bind_run_ok. exists s, directory. split; [apply on_error_ok; by rewrite Hd|].
    apply bind_run_ok. exists s1, chainID. split; [by apply on_error_ok|].
    apply bind_run_ok. exists s1, tt. split; [by apply require_ok; rewrite chain_matches|].
    apply bind_run_ok. exists s2, block. by split; [apply on_error_ok|].
Qed.

Lemma verified_suite_sound directoryAddress expected s s' info :
  VerifySuite (Some r) directoryAddress expected s = (s', Ok info) ->
  exists block root coordinator,
    0 <= block < 2 ^ 64 /\ si_BlockTag info = block_tag block /\
    suite_trusted directoryAddress expected info root coordinator.
Proof.
  intros (directory & chainID & block & s1 & s2 & Hd & _ & Hc & Hb & H)%VerifySuite_ok.
  apply BlockNumber_range in Hb. exists block.
  assert (directory_at : decides anywhere False (verify_at directory chainID (block_tag block)) _)
    by (by apply (decides_verify_at False (fun F => match F with end) directoryAddress expected);
        [apply block_tag_fixed|..]).
  destruct (decides_run _ _ _ _ _ _ _ directory_at I H) as (_ & _ & _ & Ht & root & coordinator & Hv).
  eauto.
Qed.

(** C20: suite verification is sound.  Whatever the node loses, refuses or
    delays, if [VerifySuite] accepts a suite then the chain vouches for all of it
    at one block: the directory has code, is active, of the supported version and
    configured for the reported chain (the profile's, if it names one); it
    commits to a snapshot root, to a coordinator and to the code of the
    coordinator and of every required module; the coordinator and every module
    are bound back to the directory and to each other; and the reported modules
    are those seven, in order, with these addresses and code hashes. *)
Theorem verified_suite_trusted directoryAddress expected s s' info :
  VerifySuite (Some r) directoryAddress expected s = (s', Ok info) ->
  exists block root coordinator,
    0 <= block < 2 ^ 64 /\ si_BlockTag info = block_tag block /\
    suite_trusted directoryAddress expected info root coordinator.
Proof. apply verified_suite_sound. Qed.

(** C21: with a reliable node suite verification is exact.  If the node answers,
    [VerifySuite] accepts precisely the suite that the chain vouches for at the
    reported block, and then reports it; so it refuses nothing that is in
    order. *)
Theorem verification_exact {RE : Reliable r} directoryAddress expected chainID block s info :
  (forall s, exists s', ChainID r s = (s', Ok chainID)) ->
  (forall s, exists s', BlockNumber r s = (s', Ok block)) ->
  (exists s', VerifySuite (Some r) directoryAddress expected s = (s', Ok info)) <->
  si_ChainID info = chainID /\ si_BlockTag info = block_tag block /\
  exists root coordinator, suite_trusted directoryAddress expected info root coordinator.
Proof.
  intros HC HB. setoid_rewrite VerifySuite_ok.
  assert (0 <= block < 2 ^ 64) as Hb by (destruct (HB s) as [s1 H1]; by apply BlockNumber_range in H1).
  pose proof (fun d Hd Hc => decides_verify_at True (fun _ => RE) directoryAddress expected d chainID
    (block_tag block) (block_tag_fixed _ Hb) Hd Hc) as Hv.
  destruct (HC s) as [s1 H1], (HB s1) as [s2 H2]. split.
  - intros (s' & directory & c & b & s1' & s2' & Hd & H1' & Hc & H2' & H).
    rewrite H1 in H1'. injection H1' as <- <-. rewrite H2 in H2'. injection H2' as <- <-.
    by destruct (decides_run _ _ _ _ _ _ _ (Hv directory Hd Hc) I H) as (_ & _ & ?).
  - intros (Hc & Ht & root & coordinator & Hs). pose proof (su_directory _ _ _ _ _ Hs) as Hd.
    pose proof (su_chain _ _ _ _ _ Hs) as He. rewrite Hc in He.
    destruct (decides_succeeds _ _ _ _ s2 info (Hv _ Hd He) I I) as [s' Hs']; [by eauto 10|].
    exists s'. by do 5 eexists.
Qed.
End Verification.
