(* ===== verification/SuiteRegistry.v ===== *)
(** * SuiteRegistry: the registry over a verified suite

    The loop over the pages of a list, and of [evm_suite_registry.go] the
    registry, its cached suite, calls, writes and the listings of refs and
    repositories. *)
From Stdlib Require Import ZArith Lia Zwf Init.Wf Ascii String.
From stdpp Require Import base list strings option.
From S2P Require Import Prelude GoText Prog GoIo Json Geth ChainTypes EvmAddress EvmTx SuiteValues EvmRpc SuiteAbi SuiteErrors SuiteDirectory.

Local Open Scope Z_scope.

(** ** Reading a list page by page

    The loop that the registry repeats for every list of a contract: query a page
    at a cursor, visit its items, stop after a short page, refuse a cursor that
    does not advance.  A cursor is a [uint64], so the loop ends whatever the
    contract answers: it is defined by recursion on the distance to the largest
    cursor and needs no fuel. *)

Definition suiteQueryPageSize : Z := 64.

Section Pages.
Context {S T A : Type}.
Variables (query : Z -> prog S (list T * Z)) (visit : A -> T -> prog S A) (stuck : Z -> goerror).

(** What follows the visit of a page: the end, or the next page. *)
Definition page_end (page : list T) (acc : A) (more : prog S A) : prog S A :=
  if llen page <? suiteQueryPageSize then mret acc else more.

(** The cursor that [query] returns is a [uint64]. *)
Fixpoint pages_from (cursor : Z) (acc : A) (H : Acc (Zwf_up MaxUint64) cursor) {struct H}
  : prog S A :=
  page ← query cursor;
  acc ← foldP visit (fst page) acc;
  page_end (fst page) acc
    (match decide (cursor < snd page <= MaxUint64) with
     | left advance => pages_from (snd page) acc (Acc_inv H advance)
     | right _ => fail (stuck cursor)
     end).

(** The first unfoldings of the accessibility proof are computed. *)
Definition pages (cursor : Z) (acc : A) : prog S A :=
  pages_from cursor acc (Acc_intro_generator 20 (Zwf_up_well_founded MaxUint64) cursor).

Lemma pages_from_irrelevant cursor acc H H' s :
  pages_from cursor acc H s = pages_from cursor acc H' s.
Proof.
  revert acc H' s. induction (Zwf_up_well_founded MaxUint64 cursor) as [cursor _ IH].
  intros acc H' s. destruct H, H'. cbn [pages_from]. rewrite !bind_run.
  destruct (query cursor s) as [s1 [page|e]]; [|done]. rewrite !bind_run.
  destruct (foldP visit _ acc s1) as [s2 [acc'|e]]; [|done]. unfold page_end.
  destruct (llen _ <? _); [done|]. destruct (decide _) as [Hlt|]; [|done]. by apply IH.
Qed.

(** The loop as the code has it. *)
Lemma pages_unfold cursor acc s :
  pages cursor acc s =
    (page ← query cursor;
     acc ← foldP visit (fst page) acc;
     page_end (fst page) acc
       (if decide (cursor < snd page <= MaxUint64) then pages (snd page) acc
        else fail (stuck cursor))) s.
Proof.
  unfold pages at 1. destruct (Acc_intro_generator _ _ cursor) as [H].
  cbn [pages_from]. rewrite !bind_run. destruct (query cursor s) as [s1 [page|e]]; [|done].
  rewrite !bind_run. destruct (foldP visit _ acc s1) as [s2 [acc'|e]]; [|done]. unfold page_end.
  destruct (llen _ <? _); [done|]. destruct (decide _) as [Hlt|]; [|done].
  apply pages_from_irrelevant.
Qed.

Lemma keeps_pages (P : S -> Prop) cursor acc :
  (forall c, keeps P (query c)) -> (forall a x, keeps P (visit a x)) -> keeps P (pages cursor acc).
Proof.
  intros Hq Hv. unfold pages. generalize (Acc_intro_generator 20 (Zwf_up_well_founded MaxUint64) cursor).
  revert acc. induction (Zwf_up_well_founded MaxUint64 cursor) as [cursor _ IH]. intros acc [H].
  cbn [pages_from]. apply keeps_bind; [apply Hq|intros page].
  apply keeps_bind; [by apply keeps_foldP|intros acc']. unfold page_end.
  destruct (_ <? _); [apply keeps_ret|]. destruct (decide _) as [Hlt|]; [by apply IH|apply keeps_fail].
Qed.
End Pages.
#[export] Hint Resolve keeps_pages : keeps.

(** Unification must not evaluate the accessibility proof. *)
#[global] Opaque pages.

(** * The suite registry

    [internal/chain/evm_suite_registry.go]: the client of a contract suite.  It
    verifies the suite before the first call, keeps what it verified, reads lists
    page by page at one block and sends its writes to the verified modules. *)

Section Registry.
Context {UC : UnicodeCase} {TR : Transport} {WT : Waiting} {GE : Geth} {MO : MapOrder}
        {RV : RevertReasons}.

(** The fixed part of [EVMSuiteRegistry]: the transport, the chain and directory
    of the profile and the signer; [rg_fuel] bounds the wait for a receipt. *)
Record registry := mk_registry {
  rg_rpc : EVMRPC;
  rg_chainID : Z;
  rg_directory : string;
  rg_signer : option EVMSigner;
  rg_fuel : nat;
}.

(** What its methods change: the transport with the nonce manager, and the
    verified suite. *)
Record suite := mk_suite { su_evm : evm; su_info : option SuiteInfo }.

Definition NewEVMSuiteRegistry (s : evm) : suite := mk_suite s None.

Definition NewVerifiedEVMSuiteRegistry (g : registry) (info : option SuiteInfo) (s : evm)
  : result suite :=
  match info with
  | None => Err (Errorf "verified suite info is nil" [])
  | Some i =>
      fail_if negb (EqualFold (si_Directory i) (rg_directory g))
        as Errorf "verified directory %s does not match profile %s"
             [GStr (si_Directory i); GStr (rg_directory g)] ;;
      Ok (mk_suite s (Some i))
  end.

Definition on_evm {A} (c : prog evm A) : prog suite A := fun s =>
  let '(e, r) := c (su_evm s) in (mk_suite e (su_info s), r).
Definition remember (info : SuiteInfo) : prog suite unit :=
  modify (fun s => mk_suite (su_evm s) (Some info)).

Variable g : registry.

Definition registry_transactor : transactor :=
  mk_transactor (rg_rpc g) (rg_chainID g) (rg_signer g) wrapEVMRPCError.

(** ** Verified calls *)

Definition ensureVerified : prog suite SuiteInfo :=
  info ← gets su_info;
  match info with
  | Some i => mret i
  | None =>
      if decide (TrimSpace (rg_directory g) = ""%string)
      then fail (Errorf "EVM SuiteDirectory address is not configured" [])
      else
        i ← on_evm (VerifySuite (Some (rg_rpc g)) (rg_directory g) (rg_chainID g));
        remember i;;
        mret i
  end.

(** A copy; the model's records do not share memory. *)
Definition SuiteInfo_suite : prog suite SuiteInfo := ensureVerified.

Definition module (name : string) : prog suite (string * list suite_method) :=
  info ← ensureVerified;
  let address := ModuleAddress (Some info) name in
  if decide (address = ""%string)
  then fail (Errorf "verified suite has no %s module" [GStr name])
  else
    match List.find (fun m => bool_decide (mi_Name m = name)) RequiredSuiteModules with
    | Some required =>
        contractABI ← of_result (loadSuiteABI (mi_ABI required)); mret (address, contractABI)
    | None => fail (Errorf "unknown suite module %q" [GStr name])
    end.

Definition snapshotBlockTag : prog suite string :=
  ensureVerified;;
  block ← on_evm (on_error wrapEVMRPCError (BlockNumber (rg_rpc g)));
  mret (block_tag block).

Definition callAt (name blockTag method : string) (arguments : list abi_value)
  : prog suite (list go_any) :=
  '(address, contractABI) ← module name;
  on_evm (suiteCall (rg_rpc g) address blockTag contractABI method arguments).

(** The error for a wait that the fuel did not cover; no deadline gives it. *)
Definition OutOfFuel : goerror := Typed "OutOfFuel" (Errorf "out of fuel" []).

(** [_, err := s.transactor.Send(...)] *)
Definition transactor_send (address : string) (data : bytes) (value : string) : prog evm unit :=
  outcome ← Send registry_transactor (rg_fuel g) address data value;
  match outcome with
  | Some (_, None) => mret tt
  | Some (_, Some e) => fail e
  | None => fail OutOfFuel
  end.

Definition send (name method value : string) (arguments : list abi_value) : prog suite unit :=
  '(address, contractABI) ← module name;
  data ← of_result (wrapf "encode %s.%s: %w" [GStr name; GStr method]
                      (suite_Pack contractABI method arguments));
  on_evm (transactor_send address data value).

(** ** Results of calls *)

(** [if len(values) != 1 { ... }] and the like *)
Definition single (method : string) (values : list go_any) : prog suite go_any :=
  match values with
  | [value] => mret value
  | _ => fail (Errorf (method +:+ " returned %d values") [GInt (llen values)])
  end.

(** A type assertion [value.(T)]. *)
Definition asserted {A} (assertion : go_any -> option A) (format : string) (value : go_any)
  : prog suite A :=
  match assertion value with
  | Some a => mret a
  | None => fail (Errorf format [GStr (any_type_text value)])
  end.

Definition address_arg (normalized : string) : abi_value := VAddress (HexToAddress normalized).

Definition suiteUserAddress (a : bytes) : result string := userAddressFromEVM (AddressHex a).

(** ** Repositories *)

Definition moderationStatusAt (repoID : bytes) (blockTag : string) : prog suite string :=
  values ← callAt "moderation" blockTag "effectiveStatus" [VBytes32 repoID];
  value ← single "effectiveStatus" values;
  status ← asserted (as_uint 8) "effectiveStatus returned %T" value;
  of_result (moderationStatusName status).

Definition repoInfoAt (repository : suiteRepositoryABI) (blockTag : string) : prog suite RepoInfo :=
  owner ← of_result (suiteUserAddress (sr_Owner repository));
  status ← moderationStatusAt (sr_Id repository) blockTag;
  mret (mk_RepoInfo owner (sr_Name repository) (sr_Description repository)
          (sr_DefaultBranch repository) (sr_CreatedAt repository) (sr_UpdatedAt repository) status).

Definition resolveRepoAt (owner name blockTag : string) : prog suite ResolvedRepo :=
  ownerAddress ← of_result (normalizeEVMAddress owner);
  values ← callAt "core" blockTag "resolveRepository" [address_arg ownerAddress; VString name];
  match values with
  | [v0; v1] =>
      repository ← of_result (suiteTuple "chain.suiteRepositoryABI" repository_fields v0);
      match as_bool v1, sr_Exists repository with
      | Some canonical, true =>
          info ← repoInfoAt repository blockTag;
          mret (mk_ResolvedRepo (sr_Id repository) BackendEVM (mk_RepoLocator owner name)
                  (mk_RepoLocator (rp_Owner info) (sr_Name repository)) canonical info)
      | _, _ => fail (Errorf "resolveRepository returned invalid repository state" [])
      end
  | _ => fail (Errorf "resolveRepository returned %d values" [GInt (llen values)])
  end.

Definition ResolveRepo_suite (owner repo : string) : prog suite ResolvedRepo :=
  blockTag ← snapshotBlockTag;
  resolveRepoAt owner repo blockTag.

Definition repoForWrite (owner repo : string) : prog suite ResolvedRepo :=
  resolved ← resolveRepoAt owner repo "latest";
  if rs_IsCanonical resolved then mret resolved
  else fail (RepoMovedError (rs_RepoID resolved) (rl_Owner (rs_Canonical resolved))
               (rl_Name (rs_Canonical resolved))).

Definition signerRepo (repo : string) : prog suite ResolvedRepo :=
  match rg_signer g with
  | None => fail ErrEVMSignerUnavailable
  | Some signer =>
      owner ← of_result (OwnerAddress signer);
      repoForWrite owner repo
  end.

Definition repo_arg (resolved : ResolvedRepo) : abi_value := VBytes32 (rs_RepoID resolved).

Definition CreateRepo (name description defaultBranch : string) : prog suite unit :=
  send "core" "createRepository" "" [VString name; VString description; VString defaultBranch].

Definition ForkRepo (owner repo newName : string) : prog suite unit :=
  resolved ← repoForWrite owner repo;
  let newName := if decide (TrimSpace newName = ""%string)
                 then rl_Name (rs_Canonical resolved) else newName in
  send "core" "forkRepository" "" [repo_arg resolved; VString newName].

Definition is_given (o : option string) : abi_value :=
  VBool (match o with Some _ => true | None => false end).

Definition UpdateRepoInfo (repo : string) (description defaultBranch : option string)
  : prog suite unit :=
  resolved ← signerRepo repo;
  send "core" "updateMetadata" ""
    [repo_arg resolved; is_given description; VString (default ""%string description);
     is_given defaultBranch; VString (default ""%string defaultBranch)].

Definition UpdateRef_suite (owner repo refName commitSHA : string) (packURIs : list string)
    (expectedSHA : string) (force : bool) : prog suite unit :=
  resolved ← repoForWrite owner repo;
  send "core" "updateRef" ""
    [repo_arg resolved; VString refName; VString commitSHA; VSlice (map VString packURIs);
     VString expectedSHA; VBool force].

Definition DeleteRef_suite (owner repo refName : string) : prog suite unit :=
  resolved ← repoForWrite owner repo;
  send "core" "deleteRef" "" [repo_arg resolved; VString refName].

Definition SetCollaborator (owner repo collaborator role : string) : prog suite unit :=
  resolved ← repoForWrite owner repo;
  account ← of_result (normalizeEVMAddress collaborator);
  roleValue ← of_result (collaboratorRoleValue role);
  send "core" "setCollaborator" "" [repo_arg resolved; address_arg account; VUint roleValue].

(** ** Lists *)

(** The arguments of a page. *)
Definition page_args (cursor : Z) : list abi_value := [VUint cursor; VUint suiteQueryPageSize].

(** A page of tuples and the next cursor. *)
Definition tuple_page {T} (fields : go_any -> option T) (count_error : Z -> goerror)
    (method : string) (values : list go_any) : prog suite (list T * Z) :=
  match values with
  | [v0; v1] =>
      page ← of_result (suiteTupleSlice fields v0);
      next ← of_result (suiteBigUint64 v1 (method +:+ " next cursor"));
      mret (page, next)
  | _ => fail (count_error (llen values))
  end.

Definition returned_values (method : string) (n : Z) : goerror :=
  Errorf (method +:+ " returned %d values") [GInt n].
Definition malformed_values (method : string) (_ : Z) : goerror :=
  Errorf (method +:+ " returned malformed values") [].
Definition not_advanced (what : string) (cursor : Z) : goerror :=
  Errorf (what +:+ " cursor did not advance from %d") [GInt cursor].

Definition ListRepos (owner : string) : prog suite (list RepoInfo) :=
  blockTag ← snapshotBlockTag;
  address ← of_result (normalizeEVMAddress owner);
  pages (fun cursor =>
           values ← callAt "core" blockTag "listRepositoriesPage"
                      (address_arg address :: page_args cursor);
           tuple_page repository_fields (returned_values "listRepositoriesPage")
             "listRepositoriesPage" values)
        (fun result repository =>
           info ← repoInfoAt repository blockTag; mret (result ++ [info]))
        (not_advanced "repository page") 0 [].

Definition RepoInfo_suite (owner repo : string) : prog suite RepoInfo :=
  resolved ← ResolveRepo_suite owner repo;
  mret (rs_Info resolved).

Definition suiteRefInfo (name : string) (reference : suiteRefABI) : result RefInfo :=
  let? updatedBy := suiteUserAddress (sf_UpdatedBy reference) in
  Ok (mk_RefInfo name (sf_CommitSha reference) (sf_PackUris reference) (sf_UpdatedAt reference)
        updatedBy).

(** Names and refs of a page, one by one. *)
Definition refs_page (values : list go_any) : prog suite (list (string * suiteRefABI) * Z) :=
  match values with
  | [v0; v1; v2] =>
      names ← asserted (as_slice as_string) "listRefsPage names returned %T" v0;
      refs ← of_result (suiteTupleSlice ref_fields v1);
      (if negb (llen names =? llen refs)
       then fail (Errorf "listRefsPage returned %d names and %d refs"
                    [GInt (llen names); GInt (llen refs)])
       else mret tt);;
      next ← of_result (suiteBigUint64 v2 "listRefsPage next cursor");
      mret (combine names refs, next)
  | _ => fail (returned_values "listRefsPage" (llen values))
  end.

(** The refs of a resolved repository at a block. *)
Definition refs_at (repoID : bytes) (blockTag : string) : prog suite (list RefInfo) :=
  pages (fun cursor =>
           values ← callAt "core" blockTag "listRefsPage" (VBytes32 repoID :: page_args cursor);
           refs_page values)
        (fun result '(name, reference) =>
           info ← of_result (suiteRefInfo name reference); mret (result ++ [info]))
        (not_advanced "ref page") 0 [].

Definition ListRefs_suite (owner repo : string) : prog suite (list RefInfo) :=
  blockTag ← snapshotBlockTag;
  resolved ← resolveRepoAt owner repo blockTag;
  refs_at (rs_RepoID resolved) blockTag.

Definition ResolveRef_suite (owner repo refName : string) : prog suite (string * list string) :=
  blockTag ← snapshotBlockTag;
  resolved ← resolveRepoAt owner repo blockTag;
  values ← callAt "core" blockTag "getRef" [repo_arg resolved; VString refName];
  value ← single "getRef" values;
  reference ← of_result (wrapf "decode getRef: %w" [] (suiteTuple "chain.suiteRefABI" ref_fields value));
  if sf_Exists reference then mret (sf_CommitSha reference, sf_PackUris reference)
  else fail (Errorf "ref %q does not exist" [GStr refName]).

Definition collaborators_page (values : list go_any) : prog suite (list (bytes * Z) * Z) :=
  match values with
  | [v0; v1; v2] =>
      accounts ← asserted (as_slice as_address) "listCollaboratorsPage accounts returned %T" v0;
      roles ← of_result (match as_slice (as_uint 8) v1 with
                         | Some roles =>
                             fail_if negb (llen accounts =? llen roles)
                               as Errorf "listCollaboratorsPage returned mismatched accounts and roles" [] ;;
                             Ok roles
                         | None =>
                             Err (Errorf "listCollaboratorsPage returned mismatched accounts and roles" [])
                         end);
      next ← of_result (suiteBigUint64 v2 "listCollaboratorsPage next cursor");
      mret (combine accounts roles, next)
  | _ => fail (returned_values "listCollaboratorsPage" (llen values))
  end.

Definition ListCollaborators (owner repo : string) : prog suite (list CollaboratorInfo) :=
  blockTag ← snapshotBlockTag;
  resolved ← resolveRepoAt owner repo blockTag;
  pages (fun cursor =>
           values ← callAt "core" blockTag "listCollaboratorsPage"
                      (repo_arg resolved :: page_args cursor);
           collaborators_page values)
        (fun result '(account, role) =>
           address ← of_result (suiteUserAddress account);
           role ← of_result (collaboratorRoleName role);
           mret (result ++ [mk_CollaboratorInfo address role]))
        (not_advanced "collaborator page") 0 [].

(** ** Usernames *)

Definition ResolveUsername (name : string) : prog suite string :=
  blockTag ← snapshotBlockTag;
  values ← callAt "username" blockTag "resolveUsername" [VString name];
  value ← single "resolveUsername" values;
  record ← of_result (suiteTuple "chain.suiteUsernameABI" username_fields value);
  of_result (suiteUserAddress (su_Owner record)).

Definition AddressUsername (address : string) : prog suite string :=
  blockTag ← snapshotBlockTag;
  normalized ← of_result (normalizeEVMAddress address);
  values ← callAt "username" blockTag "usernameOf" [address_arg normalized];
  value ← single "usernameOf" values;
  asserted as_string "usernameOf returned %T" value.

Definition RegisterUsername (name : string) : prog suite unit :=
  send "username" "registerUsername" "" [VString name].
Definition ClaimOriginalUsername (name : string) : prog suite unit :=
  send "username" "claimOriginalUsername" "" [VString name].
Definition ReleaseUsername : prog suite unit := send "username" "releaseUsername" "" [].


(** ** The interface *)

(** The registry as the remote helper sees it. *)
Definition suite_repo_registry : RepoRegistry suite := {|
  ResolveRepo := ResolveRepo_suite;
  ListRefs := ListRefs_suite;
  ResolveRef := ResolveRef_suite;
  UpdateRef := UpdateRef_suite;
  DeleteRef := DeleteRef_suite;
|}.

(** A verified suite is used as it is. *)
Lemma ensureVerified_cached i s : su_info s = Some i -> ensureVerified s = (s, Ok i).
Proof. intros Hi. unfold ensureVerified. rewrite bind_run. unfold gets. by rewrite Hi. Qed.

Lemma module_run i name s :
  su_info s = Some i ->
  module name s =
    (let address := ModuleAddress (Some i) name in
     if decide (address = ""%string) then fail (Errorf "verified suite has no %s module" [GStr name])
     else
       match List.find (fun m => bool_decide (mi_Name m = name)) RequiredSuiteModules with
       | Some required =>
           contractABI ← of_result (loadSuiteABI (mi_ABI required)); mret (address, contractABI)
       | None => fail (Errorf "unknown suite module %q" [GStr name])
       end) s.
Proof. intros Hi. unfold module. by rewrite bind_run, (ensureVerified_cached i). Qed.
End Registry.
