(* ===== verification/SuiteModules.v ===== *)
(** * The modules behind the suite registry

    [internal/chain/evm_suite_registry.go], continued: ownership transfers,
    recovery, moderation, sponsorship, badges and releases. *)
From Stdlib Require Import ZArith Lia Ascii String.
From stdpp Require Import base list strings option.
From S2P Require Import Prelude GoText Prog GoIo Json Geth ChainTypes EvmAddress EvmTx SuiteValues EvmRpc SuiteAbi SuiteErrors SuiteDirectory SuiteRegistry.

Local Open Scope Z_scope.

Section Modules.
Context {UC : UnicodeCase} {TR : Transport} {WT : Waiting} {GE : Geth} {MO : MapOrder}
        {RV : RevertReasons}.
Variable g : registry.

(** ** Ownership transfers *)

(** [None] is a nil pointer. *)
Definition requireSuiteResolvedRepo (repo : option ResolvedRepo) (canonical : bool)
  : result ResolvedRepo :=
  match repo with
  | None => Err (Errorf "resolved repository is nil" [])
  | Some repo =>
      fail_if negb (bool_decide (rs_Backend repo = BackendEVM))
        as Errorf "resolved repository is not part of the active EVM suite" [] ;;
      fail_if canonical && negb (rs_IsCanonical repo)
        as RepoMovedError (rs_RepoID repo) (rl_Owner (rs_Canonical repo))
             (rl_Name (rs_Canonical repo)) ;;
      Ok repo
  end.

Definition BeginOwnershipTransfer (repo : option ResolvedRepo) (newOwner : string)
  : prog suite unit :=
  repo ← of_result (requireSuiteResolvedRepo repo true);
  address ← of_result (normalizeEVMAddress newOwner);
  send g "core" "beginOwnershipTransfer" "" [repo_arg repo; address_arg address].

Definition CancelOwnershipTransfer (repo : option ResolvedRepo) : prog suite unit :=
  repo ← of_result (requireSuiteResolvedRepo repo true);
  send g "core" "cancelOwnershipTransfer" "" [repo_arg repo].
Definition RejectOwnershipTransfer : option ResolvedRepo -> prog suite unit :=
  CancelOwnershipTransfer.

Definition ExpireOwnershipTransfer (repo : option ResolvedRepo) : prog suite unit :=
  repo ← of_result (requireSuiteResolvedRepo repo false);
  send g "core" "expireOwnershipTransfer" "" [repo_arg repo].

Definition AcceptOwnership (repo : option ResolvedRepo) : prog suite unit :=
  repo ← of_result (requireSuiteResolvedRepo repo false);
  send g "core" "acceptOwnershipTransfer" "" [repo_arg repo].

Definition transfer_delay : Z := 7 * 24 * 60 * 60.

(** When a transfer that can be executed after a time was proposed. *)
Definition proposed_at (executeAfter : Z) : Z :=
  if transfer_delay <=? executeAfter then executeAfter - transfer_delay else 0.

Definition pendingOwnershipTransferAt (repoID : bytes) (blockTag : string)
  : prog suite (option OwnershipTransferInfo) :=
  values ← callAt g "core" blockTag "pendingOwnershipTransfer" [VBytes32 repoID];
  value ← single "pendingOwnershipTransfer" values;
  pending ← of_result (suiteTuple "chain.suitePendingTransferABI" pending_transfer_fields value);
  if decide (sp_NewOwner pending = zero_addr) then mret None
  else
    newOwner ← of_result (suiteUserAddress (sp_NewOwner pending));
    mret (Some (mk_OwnershipTransferInfo newOwner (proposed_at (sp_ExecuteAfter pending))
                  (sp_ExecuteAfter pending) (sp_ExpiresAt pending))).

Definition PendingOwnershipTransfer (repo : option ResolvedRepo)
  : prog suite (option OwnershipTransferInfo) :=
  repo ← of_result (requireSuiteResolvedRepo repo false);
  blockTag ← snapshotBlockTag g;
  pendingOwnershipTransferAt (rs_RepoID repo) blockTag.

(** ** Recovery *)

Definition SetGuardians (repo : string) (guardians : list string) (threshold : Z)
  : prog suite unit :=
  resolved ← signerRepo g repo;
  addresses ← of_result (foldMi (fun index (addresses : list abi_value) guardian =>
    let? normalized := wrapf "guardian %d: %w" [GInt index] (normalizeEVMAddress guardian) in
    Ok (addresses ++ [address_arg normalized])) 0 guardians []);
  send g "recovery" "setGuardians" "" [repo_arg resolved; VSlice addresses; VUint threshold].

Definition ProposeRecovery (owner repo newOwner : string) : prog suite unit :=
  resolved ← repoForWrite g owner repo;
  address ← of_result (normalizeEVMAddress newOwner);
  send g "recovery" "proposeRecovery" "" [repo_arg resolved; address_arg address].

Definition ApproveRecovery (owner repo : string) : prog suite unit :=
  resolved ← repoForWrite g owner repo;
  send g "recovery" "approveRecovery" "" [repo_arg resolved].

Definition CancelRecovery (repo : string) : prog suite unit :=
  resolved ← signerRepo g repo;
  send g "recovery" "cancelRecovery" "" [repo_arg resolved].

Definition AcceptRecovery (owner repo : string) : prog suite unit :=
  resolved ← repoForWrite g owner repo;
  send g "recovery" "executeRecovery" "" [repo_arg resolved].

(** Whether a guardian approved; a malformed answer counts as no. *)
Definition hasApproved (repoID : bytes) (blockTag : string) (nonce : Z) (guardian : bytes)
  : prog suite bool :=
  values ← callAt g "recovery" blockTag "hasApproved"
             [VBytes32 repoID; VUint nonce; VAddress guardian];
  mret (match values with
        | [value] => match as_bool value with Some approved => approved | None => false end
        | _ => false
        end).

(** The proposal, if there is one, with the names of the guardians in favour. *)
Definition recovery_info (repoID : bytes) (blockTag : string) (proposal : suiteRecoveryProposalABI)
    (guardians : list (bytes * string)) : prog suite (option RecoveryProposalInfo) :=
  if decide (sv_NewOwner proposal = zero_addr) then mret None
  else
    newOwner ← of_result (suiteUserAddress (sv_NewOwner proposal));
    approvals ← foldP (fun (approvals : list string) '(guardian, text) =>
      approved ← hasApproved repoID blockTag (sv_Nonce proposal) guardian;
      mret (if (approved : bool) then approvals ++ [text] else approvals)) guardians [];
    mret (Some (mk_RecoveryProposalInfo newOwner (proposed_at (sv_ExecuteAfter proposal))
                  (sv_ExecuteAfter proposal) approvals)).

Definition OwnershipSecurity (owner repo : string) : prog suite OwnershipSecurityInfo :=
  blockTag ← snapshotBlockTag g;
  resolved ← resolveRepoAt g owner repo blockTag;
  transfer ← pendingOwnershipTransferAt (rs_RepoID resolved) blockTag;
  configValues ← callAt g "recovery" blockTag "guardianConfig" [repo_arg resolved];
  proposalValues ← callAt g "recovery" blockTag "recoveryProposal" [repo_arg resolved];
  match configValues, proposalValues with
  | [configValue], [proposalValue] =>
      guardianConfig ← of_result (suiteTuple "chain.suiteGuardianConfigABI" guardian_config_fields configValue);
      proposal ← of_result (suiteTuple "chain.suiteRecoveryProposalABI" recovery_proposal_fields proposalValue);
      guardians ← of_result (foldM (fun (l : list string) guardian =>
        let? text := suiteUserAddress guardian in Ok (l ++ [text])) (sg_Guardians guardianConfig) []);
      recovery ← recovery_info (rs_RepoID resolved) blockTag proposal
                   (combine (sg_Guardians guardianConfig) guardians);
      mret (mk_OwnershipSecurityInfo transfer recovery guardians (sg_Threshold guardianConfig))
  | _, _ => fail (Errorf "recovery module returned malformed security state" [])
  end.

(** ** Moderation *)

Definition SetModerationStatus (owner repo status reasonHash : string) : prog suite unit :=
  resolved ← repoForWrite g owner repo;
  code ← of_result (moderationStatusCode status);
  send g "moderation" "setRepositoryStatus" "" [repo_arg resolved; VUint code; VString reasonHash].

Definition SubmitModerationReport (owner repo reasonHash : string) : prog suite unit :=
  resolved ← repoForWrite g owner repo;
  send g "moderation" "submitReport" "" [repo_arg resolved; VString reasonHash].

Definition sendModerationDecision (method : string) (id : Z) (status reasonHash : string)
  : prog suite unit :=
  code ← of_result (moderationStatusCode status);
  send g "moderation" method "" [VUint id; VUint code; VString reasonHash].
Definition ResolveModerationReport : Z -> string -> string -> prog suite unit :=
  sendModerationDecision "resolveReport".
Definition ResolveModerationAppeal : Z -> string -> string -> prog suite unit :=
  sendModerationDecision "resolveAppeal".

Definition AppealModerationReport (id : Z) (reasonHash : string) : prog suite unit :=
  send g "moderation" "appealReport" "" [VUint id; VString reasonHash].

Definition repositoryByIDAt (repoID : bytes) (blockTag : string) : prog suite suiteRepositoryABI :=
  values ← callAt g "core" blockTag "getRepository" [VBytes32 repoID];
  value ← single "getRepository" values;
  of_result (suiteTuple "chain.suiteRepositoryABI" repository_fields value).

Definition FixedBlockRepository (repoID : bytes) (blockTag : string)
  : prog suite suiteRepositoryABI :=
  of_result (requireFixedEVMBlockTag blockTag);;
  repositoryByIDAt repoID blockTag.

(** The last resolution and the last appeal of a trail. *)
Definition trail_entry (hashes : option string * option string) (entry : suiteTrailABI)
  : option string * option string :=
  if (sa_Action entry =? 1) || (sa_Action entry =? 3)
  then (Some (sa_ReasonHash entry), snd hashes)
  else if sa_Action entry =? 2 then (fst hashes, Some (sa_ReasonHash entry)) else hashes.

Definition reportReasonTrailAt (id : Z) (blockTag : string)
  : prog suite (option string * option string) :=
  pages (fun cursor =>
           values ← callAt g "moderation" blockTag "listReportTrailPage"
                      (VUint id :: page_args cursor);
           tuple_page trail_fields (malformed_values "listReportTrailPage")
             "listReportTrailPage" values)
        (fun hashes entry => mret (trail_entry hashes entry))
        (not_advanced "report trail") 0 (None, None).

(** A report that does not exist is reported with a nil error under [%w]. *)
Definition decoded_report (value : go_any) : result suiteReportABI :=
  match suiteTuple "chain.suiteReportABI" report_fields value with
  | Ok report =>
      fail_if negb (so_Exists report) || negb ((0 <=? so_Id report) && (so_Id report <=? MaxUint64))
        as Errorf "decode moderation report: %s" [GStr "%!w(<nil>)"] ;;
      Ok report
  | Err e => Err (Wrapf "decode moderation report: %w" [] e)
  end.

Definition ModerationReport (id : Z) : prog suite ModerationReportInfo :=
  blockTag ← snapshotBlockTag g;
  values ← callAt g "moderation" blockTag "getReport" [VUint id];
  value ← single "getReport" values;
  report ← of_result (decoded_report value);
  repository ← repositoryByIDAt (so_RepoId report) blockTag;
  owner ← of_result (suiteUserAddress (sr_Owner repository));
  reporter ← of_result (suiteUserAddress (so_Reporter report));
  status ← of_result (reportStatusName (so_Status report));
  resolution ← (if so_Status report =? 0 then mret ""%string
                else of_result (moderationStatusName (so_Resolution report)));
  '(resolutionHash, appealHash) ← reportReasonTrailAt (so_Id report) blockTag;
  mret (mk_ModerationReportInfo (so_Id report) owner (sr_Name repository) reporter
          (so_ReasonHash report) status resolution resolutionHash appealHash
          (so_CreatedAt report) (so_UpdatedAt report)).

(** ** Sponsorship *)

Definition Sponsor (owner repo message amount : string) : prog suite unit :=
  resolved ← repoForWrite g owner repo;
  value ← of_result (evmINJValue amount);
  send g "economic" "sponsor" value [repo_arg resolved; VString message].

Definition SetRevenueSplits (owner repo : string) (splits : list SplitEntry) : prog suite unit :=
  resolved ← repoForWrite g owner repo;
  recipients ← of_result (foldMi (fun index (recipients : list abi_value) split =>
    let? address := wrapf "split %d: %w" [GInt index] (normalizeEVMAddress (se_Address split)) in
    Ok (recipients ++ [address_arg address])) 0 splits []);
  send g "economic" "setRevenueSplits" ""
    [repo_arg resolved; VSlice recipients; VSlice (map (fun split => VUint (se_Bps split)) splits)].

Definition RevenueSplits (owner repo : string) : prog suite (list SplitEntry) :=
  blockTag ← snapshotBlockTag g;
  resolved ← resolveRepoAt g owner repo blockTag;
  values ← callAt g "economic" blockTag "revenueSplits" [repo_arg resolved];
  value ← single "revenueSplits" values;
  splits ← of_result (suiteTupleSlice split_fields value);
  of_result (foldM (fun (result : list SplitEntry) split =>
    let? address := suiteUserAddress (ss_Recipient split) in
    Ok (result ++ [mk_SplitEntry address (ss_Bps split)])) splits []).

Definition sponsorTotal (resolved : ResolvedRepo) (blockTag denom : string) : prog suite Coin :=
  totalValues ← callAt g "economic" blockTag "sponsorTotal" [repo_arg resolved; VString denom];
  match totalValues with
  | [value] =>
      total ← asserted as_big "sponsorTotal returned %T" value;
      mret (mk_Coin denom (FormatInt total))
  | _ => fail (Errorf "sponsorTotal returned malformed values" [])
  end.

Definition SponsorTotals (owner repo : string) : prog suite (list Coin) :=
  blockTag ← snapshotBlockTag g;
  resolved ← resolveRepoAt g owner repo blockTag;
  values ← callAt g "economic" blockTag "sponsorDenoms" [repo_arg resolved];
  match values with
  | [value] =>
      denoms ← asserted (as_slice as_string) "sponsorDenoms returned %T" value;
      foldP (fun result denom =>
        coin ← sponsorTotal resolved blockTag denom; mret (result ++ [coin])) denoms []
  | _ => fail (Errorf "sponsorDenoms returned malformed values" [])
  end.

(** ** Badges *)

Definition AwardBadge (owner repo recipient reason : string) : prog suite unit :=
  resolved ← repoForWrite g owner repo;
  address ← of_result (normalizeEVMAddress recipient);
  send g "badge" "awardBadge" "" [repo_arg resolved; address_arg address; VString reason].

(** The repositories looked up so far. *)
Definition repo_cache : Type := list (bytes * suiteRepositoryABI).

Definition cached_repository (blockTag : string) (cache : repo_cache) (repoID : bytes)
  : prog suite (suiteRepositoryABI * repo_cache) :=
  match List.find (fun kv => bool_decide (fst kv = repoID)) cache with
  | Some (_, repository) => mret (repository, cache)
  | None =>
      repository ← repositoryByIDAt repoID blockTag;
      mret (repository, (repoID, repository) :: cache)
  end.

Definition visit_badge (blockTag : string) (acc : list Badge * repo_cache) (badge : suiteBadgeABI)
  : prog suite (list Badge * repo_cache) :=
  if negb ((0 <=? sb_Id badge) && (sb_Id badge <=? MaxUint64)) || negb (sb_Exists badge)
  then fail (Errorf "badge module returned an invalid badge" [])
  else
    '(repository, cache) ← cached_repository blockTag (snd acc) (sb_RepoId badge);
    owner ← of_result (suiteUserAddress (sr_Owner repository));
    recipient ← of_result (suiteUserAddress (sb_Recipient badge));
    awardedBy ← of_result (suiteUserAddress (sb_AwardedBy badge));
    mret (fst acc ++ [mk_Badge (sb_Id badge) (HashHex (BytesToHash (sb_RepoId badge))) owner
                        (sr_Name repository) recipient (sb_Reason badge) awardedBy
                        (sb_AwardedAt badge)], cache).

Definition badgesPageAt (blockTag method : string) (key : abi_value) : prog suite (list Badge) :=
  acc ← pages (fun cursor =>
                 values ← callAt g "badge" blockTag method (key :: page_args cursor);
                 tuple_page badge_fields (returned_values method) method values)
              (visit_badge blockTag) (not_advanced "badge page") 0 ([], []);
  mret (fst acc).

Definition badgesPage (method : string) (key : abi_value) : prog suite (list Badge) :=
  blockTag ← snapshotBlockTag g;
  badgesPageAt blockTag method key.

Definition BadgesByRecipient (recipient : string) : prog suite (list Badge) :=
  address ← of_result (normalizeEVMAddress recipient);
  badgesPage "listBadgesByRecipientPage" (address_arg address).

Definition BadgesByRepo (owner repo : string) : prog suite (list Badge) :=
  blockTag ← snapshotBlockTag g;
  resolved ← resolveRepoAt g owner repo blockTag;
  badgesPageAt blockTag "listBadgesByRepositoryPage" (repo_arg resolved).

(** ** Releases *)

Definition release_digest (artifact : ReleaseArtifact) : result bytes :=
  let invalid := Errorf "invalid SHA-256 for %s" [GStr (ra_Platform artifact)] in
  match hex_decode (TrimPrefix (keyword (ra_SHA256 artifact)) "0x") with
  | Some digest => fail_if negb (llen digest =? 32) as invalid ;; Ok digest
  | None => Err invalid
  end.

Definition RegisterRelease (version : string) (artifacts : list ReleaseArtifact)
  : prog suite unit :=
  for_each (fun artifact =>
    digest ← of_result (release_digest artifact);
    send g "release" "registerArtifact" ""
      [VString version; VString (ra_Platform artifact); VBytes32 digest]) artifacts.

Definition visit_artifact (result : list ReleaseArtifact) (artifact : suiteReleaseABI)
  : prog suite (list ReleaseArtifact) :=
  if negb (sl_Exists artifact) then fail (Errorf "release module returned a missing artifact" [])
  else
    registeredBy ← of_result (suiteUserAddress (sl_RegisteredBy artifact));
    mret (result ++ [mk_ReleaseArtifact (sl_Version artifact) (sl_Platform artifact)
                       (hex_encode (sl_Sha256 artifact)) registeredBy (sl_RegisteredAt artifact)]).

Definition ReleaseArtifacts (version : string) : prog suite (list ReleaseArtifact) :=
  blockTag ← snapshotBlockTag g;
  pages (fun cursor =>
           values ← callAt g "release" blockTag "listArtifactsPage"
                      (VString version :: page_args cursor);
           tuple_page release_fields (malformed_values "listArtifactsPage")
             "listArtifactsPage" values)
        visit_artifact (not_advanced "release page") 0 [].
End Modules.
