(* ===== verification/SuiteSafety.v ===== *)
(** * SuiteSafety: the registry trusts only what it verified

    Invariants of the registry under every sequence of its operations: the cached
    suite is one that the chain vouched for, and once a suite is cached every
    request concerns its modules. *)
From Stdlib Require Import ZArith Lia Ascii String.
From stdpp Require Import base list strings option.
From S2P Require Import Prelude GoText Prog GoIo Json Geth ChainTypes EvmAddress EvmTx SuiteValues EvmRpc SuiteAbi SuiteErrors SuiteDirectory SuiteTrust SuiteTrustProps SuiteRegistry SuiteModules.

Local Open Scope Z_scope.

(** ** The operations *)

(** The methods of the registry with their arguments. *)
Inductive operation : Type :=
| op_SuiteInfo
| op_ResolveRepo (owner repo : string)
| op_CreateRepo (name description defaultBranch : string)
| op_ForkRepo (owner repo newName : string)
| op_UpdateRepoInfo (repo : string) (description defaultBranch : option string)
| op_UpdateRef (owner repo refName commitSHA : string) (packURIs : list string)
    (expectedSHA : string) (force : bool)
| op_DeleteRef (owner repo refName : string)
| op_SetCollaborator (owner repo collaborator role : string)
| op_ListRepos (owner : string)
| op_RepoInfo (owner repo : string)
| op_ListRefs (owner repo : string)
| op_ResolveRef (owner repo refName : string)
| op_ListCollaborators (owner repo : string)
| op_ResolveUsername (name : string)
| op_AddressUsername (address : string)
| op_RegisterUsername (name : string)
| op_ClaimOriginalUsername (name : string)
| op_ReleaseUsername
| op_BeginOwnershipTransfer (repo : option ResolvedRepo) (newOwner : string)
| op_CancelOwnershipTransfer (repo : option ResolvedRepo)
| op_ExpireOwnershipTransfer (repo : option ResolvedRepo)
| op_AcceptOwnership (repo : option ResolvedRepo)
| op_PendingOwnershipTransfer (repo : option ResolvedRepo)
| op_SetGuardians (repo : string) (guardians : list string) (threshold : Z)
| op_ProposeRecovery (owner repo newOwner : string)
| op_ApproveRecovery (owner repo : string)
| op_CancelRecovery (repo : string)
| op_AcceptRecovery (owner repo : string)
| op_OwnershipSecurity (owner repo : string)
| op_SetModerationStatus (owner repo status reasonHash : string)
| op_SubmitModerationReport (owner repo reasonHash : string)
| op_ResolveModerationReport (id : Z) (status reasonHash : string)
| op_ResolveModerationAppeal (id : Z) (status reasonHash : string)
| op_AppealModerationReport (id : Z) (reasonHash : string)
| op_ModerationReport (id : Z)
| op_FixedBlockRepository (repoID : bytes) (blockTag : string)
| op_Sponsor (owner repo message amount : string)
| op_SetRevenueSplits (owner repo : string) (splits : list SplitEntry)
| op_RevenueSplits (owner repo : string)
| op_SponsorTotals (owner repo : string)
| op_AwardBadge (owner repo recipient reason : string)
| op_BadgesByRecipient (recipient : string)
| op_BadgesByRepo (owner repo : string)
| op_RegisterRelease (version : string) (artifacts : list ReleaseArtifact)
| op_ReleaseArtifacts (version : string).

Section Operations.
Context {UC : UnicodeCase} {TR : Transport} {WT : Waiting} {GE : Geth} {MO : MapOrder}
        {RV : RevertReasons}.
Variable g : registry.

(** The operation, its result dropped. *)
Definition run_operation (o : operation) : prog suite unit :=
  match o with
  | op_SuiteInfo => SuiteInfo_suite g;; mret tt
  | op_ResolveRepo owner repo => ResolveRepo_suite g owner repo;; mret tt
  | op_CreateRepo name description branch => CreateRepo g name description branch
  | op_ForkRepo owner repo name => ForkRepo g owner repo name
  | op_UpdateRepoInfo repo description branch => UpdateRepoInfo g repo description branch
  | op_UpdateRef owner repo ref sha uris expected force =>
      UpdateRef_suite g owner repo ref sha uris expected force
  | op_DeleteRef owner repo ref => DeleteRef_suite g owner repo ref
  | op_SetCollaborator owner repo collaborator role => SetCollaborator g owner repo collaborator role
  | op_ListRepos owner => ListRepos g owner;; mret tt
  | op_RepoInfo owner repo => RepoInfo_suite g owner repo;; mret tt
  | op_ListRefs owner repo => ListRefs_suite g owner repo;; mret tt
  | op_ResolveRef owner repo ref => ResolveRef_suite g owner repo ref;; mret tt
  | op_ListCollaborators owner repo => ListCollaborators g owner repo;; mret tt
  | op_ResolveUsername name => ResolveUsername g name;; mret tt
  | op_AddressUsername address => AddressUsername g address;; mret tt
  | op_RegisterUsername name => RegisterUsername g name
  | op_ClaimOriginalUsername name => ClaimOriginalUsername g name
  | op_ReleaseUsername => ReleaseUsername g
  | op_BeginOwnershipTransfer repo owner => BeginOwnershipTransfer g repo owner
  | op_CancelOwnershipTransfer repo => CancelOwnershipTransfer g repo
  | op_ExpireOwnershipTransfer repo => ExpireOwnershipTransfer g repo
  | op_AcceptOwnership repo => AcceptOwnership g repo
  | op_PendingOwnershipTransfer repo => PendingOwnershipTransfer g repo;; mret tt
  | op_SetGuardians repo guardians threshold => SetGuardians g repo guardians threshold
  | op_ProposeRecovery owner repo newOwner => ProposeRecovery g owner repo newOwner
  | op_ApproveRecovery owner repo => ApproveRecovery g owner repo
  | op_CancelRecovery repo => CancelRecovery g repo
  | op_AcceptRecovery owner repo => AcceptRecovery g owner repo
  | op_OwnershipSecurity owner repo => OwnershipSecurity g owner repo;; mret tt
  | op_SetModerationStatus owner repo status reason => SetModerationStatus g owner repo status reason
  | op_SubmitModerationReport owner repo reason => SubmitModerationReport g owner repo reason
  | op_ResolveModerationReport id status reason => ResolveModerationReport g id status reason
  | op_ResolveModerationAppeal id status reason => ResolveModerationAppeal g id status reason
  | op_AppealModerationReport id reason => AppealModerationReport g id reason
  | op_ModerationReport id => ModerationReport g id;; mret tt
  | op_FixedBlockRepository id tag => FixedBlockRepository g id tag;; mret tt
  | op_Sponsor owner repo text amount => Sponsor g owner repo text amount
  | op_SetRevenueSplits owner repo splits => SetRevenueSplits g owner repo splits
  | op_RevenueSplits owner repo => RevenueSplits g owner repo;; mret tt
  | op_SponsorTotals owner repo => SponsorTotals g owner repo;; mret tt
  | op_AwardBadge owner repo recipient reason => AwardBadge g owner repo recipient reason
  | op_BadgesByRecipient recipient => BadgesByRecipient g recipient;; mret tt
  | op_BadgesByRepo owner repo => BadgesByRepo g owner repo;; mret tt
  | op_RegisterRelease version artifacts => RegisterRelease g version artifacts
  | op_ReleaseArtifacts version => ReleaseArtifacts g version;; mret tt
  end.

(** A session: operations in turn, whether or not they fail. *)
Fixpoint run_session (os : list operation) (s : suite) : suite :=
  match os with
  | [] => s
  | o :: os' => run_session os' (run_operation o s).1
  end.

(** *** What the calls keep, every operation keeps *)

Record calls_keep (Q : suite -> Prop) : Prop := {
  keeps_ensureVerified : keeps Q (ensureVerified g);
  keeps_tag : keeps Q (snapshotBlockTag g);
  keeps_callAt : forall name tag method args, keeps Q (callAt g name tag method args);
  keeps_send : forall name method value args, keeps Q (send g name method value args);
}.

Section Keep.
Variables (Q : suite -> Prop) (HQ : calls_keep Q).

#[local] Hint Resolve keeps_ensureVerified keeps_tag keeps_callAt keeps_send : keeps.

Lemma keeps_single method values : keeps Q (single method values).
Proof. unfold single. keeps_cases. Qed.
Lemma keeps_asserted {A} (assertion : go_any -> option A) format value :
  keeps Q (asserted assertion format value).
Proof. unfold asserted. keeps_cases. Qed.
Lemma keeps_tuple_page {T} (fields : go_any -> option T) count_error method values :
  keeps Q (tuple_page fields count_error method values).
Proof. unfold tuple_page. keeps_cases. Qed.
#[local] Hint Resolve keeps_single @keeps_asserted @keeps_tuple_page : keeps.

Lemma keeps_repoInfoAt repository tag : keeps Q (repoInfoAt g repository tag).
Proof. unfold repoInfoAt, moderationStatusAt. keeps_cases. Qed.
#[local] Hint Resolve keeps_repoInfoAt : keeps.
Lemma keeps_resolveRepoAt owner name tag : keeps Q (resolveRepoAt g owner name tag).
Proof. unfold resolveRepoAt. keeps_cases. Qed.
#[local] Hint Resolve keeps_resolveRepoAt : keeps.
Lemma keeps_repoForWrite owner repo : keeps Q (repoForWrite g owner repo).
Proof. unfold repoForWrite. keeps_cases. Qed.
#[local] Hint Resolve keeps_repoForWrite : keeps.
Lemma keeps_signerRepo repo : keeps Q (signerRepo g repo).
Proof. unfold signerRepo. keeps_cases. Qed.
Lemma keeps_repositoryByIDAt id tag : keeps Q (repositoryByIDAt g id tag).
Proof. unfold repositoryByIDAt. keeps_cases. Qed.
Lemma keeps_pendingTransferAt id tag : keeps Q (pendingOwnershipTransferAt g id tag).
Proof. unfold pendingOwnershipTransferAt. keeps_cases. Qed.
#[local] Hint Resolve keeps_signerRepo keeps_repositoryByIDAt keeps_pendingTransferAt : keeps.
Lemma keeps_cached_repository tag cache id : keeps Q (cached_repository g tag cache id).
Proof. unfold cached_repository. keeps_cases. Qed.
#[local] Hint Resolve keeps_cached_repository : keeps.
Lemma keeps_badgesPageAt tag method key : keeps Q (badgesPageAt g tag method key).
Proof.
  unfold badgesPageAt, visit_badge. keeps_cases; intros; apply keeps_pages; keeps_cases.
Qed.
Lemma keeps_hasApproved id tag nonce guardian : keeps Q (hasApproved g id tag nonce guardian).
Proof. unfold hasApproved. keeps_cases. Qed.
#[local] Hint Resolve keeps_badgesPageAt keeps_hasApproved : keeps.

Lemma keeps_refs_page values : keeps Q (refs_page values).
Proof. unfold refs_page. keeps_cases. Qed.
Lemma keeps_collaborators_page values : keeps Q (collaborators_page values).
Proof. unfold collaborators_page. keeps_cases. Qed.
Lemma keeps_visit_artifact l artifact : keeps Q (visit_artifact l artifact).
Proof. unfold visit_artifact. keeps_cases. Qed.
#[local] Hint Resolve keeps_refs_page keeps_collaborators_page keeps_visit_artifact : keeps.

Lemma keeps_operation o : keeps Q (run_operation o).
Proof.
  destruct o; cbn [run_operation];
    unfold SuiteInfo_suite, ResolveRepo_suite, CreateRepo, ForkRepo, UpdateRepoInfo, UpdateRef_suite,
    DeleteRef_suite, SetCollaborator, ListRepos, RepoInfo_suite, ResolveRepo_suite, ListRefs_suite,
    refs_at, ResolveRef_suite, ListCollaborators, ResolveUsername, AddressUsername,
    RegisterUsername, ClaimOriginalUsername, ReleaseUsername,
    BeginOwnershipTransfer, CancelOwnershipTransfer, ExpireOwnershipTransfer, AcceptOwnership,
    PendingOwnershipTransfer, SetGuardians, ProposeRecovery, ApproveRecovery, CancelRecovery,
    AcceptRecovery, OwnershipSecurity, recovery_info, SetModerationStatus, SubmitModerationReport,
    ResolveModerationReport, ResolveModerationAppeal, sendModerationDecision,
    AppealModerationReport, ModerationReport, reportReasonTrailAt, FixedBlockRepository,
    Sponsor, SetRevenueSplits, RevenueSplits, SponsorTotals, sponsorTotal, AwardBadge,
    BadgesByRecipient, badgesPage, BadgesByRepo, RegisterRelease, ReleaseArtifacts;
    keeps_cases; intros; apply keeps_pages; keeps_cases.
Qed.

Lemma session_keeps os s : Q s -> Q (run_session os s).
Proof. revert s. induction os as [|o os IH]; intros s Hs; cbn; [done|]. by apply IH, keeps_operation. Qed.
End Keep.

(** ** What is sent *)

(** Everything that was sent since [old] satisfies [ok]. *)
Definition sends (ok : message -> Prop) (old : list message) (e : evm) : Prop :=
  exists new, ev_sent e = old ++ new /\ Forall ok new.

Section Sends.
Variables (ok : message -> Prop) (old : list message) (r : EVMRPC).

(** The requests of a method with these parameters. *)
Definition may_ask (method : string) (params : list json) : Prop :=
  forall id, ok (call_message r (request_text id method params)).

Lemma sends_nextRequestID : keeps (sends ok old) nextRequestID.
Proof. by intros s Hs. Qed.
Lemma sends_waiting d : keeps (sends ok old) (waiting d).
Proof. intros s Hs. unfold waiting. by destruct (wait d (ev_net s)). Qed.
Lemma sends_put_nonces m : keeps (sends ok old) (put_nonces m).
Proof. by intros s Hs. Qed.
Lemma sends_exchange m : ok m -> keeps (sends ok old) (exchange m).
Proof.
  intros Hm s (new & E & Hn). unfold exchange. destruct (http_do m (ev_net s)) as [n o]. cbn.
  exists (new ++ [m]). cbn. rewrite E, app_assoc. split; [done|].
  apply Forall_app. split; [done|by constructor].
Qed.
#[local] Hint Resolve sends_nextRequestID sends_waiting sends_put_nonces sends_exchange : keeps.

Lemma sends_on_error {A} f (c : prog evm A) :
  keeps (sends ok old) c -> keeps (sends ok old) (on_error f c).
Proof. intros Hc s Hs. unfold on_error. specialize (Hc s Hs). by destruct (c s). Qed.
#[local] Hint Resolve sends_on_error : keeps.

Lemma sends_Call {A} method params (decode : json -> result A) :
  may_ask method params -> keeps (sends ok old) (Call r method params decode).
Proof.
  intros Hm. unfold Call. destruct (decide _); [apply keeps_fail|]. apply keeps_bind; [eauto with keeps|].
  intros id. generalize 0. induction maxRPCAttempts as [|left IH]; intros k; cbn [call_loop];
    unfold callOnce; keeps_cases; by apply sends_exchange, Hm.
Qed.
#[local] Hint Resolve sends_Call : keeps.

Lemma sends_quantity method params :
  may_ask method params -> keeps (sends ok old) (call_quantity r method params).
Proof. intros Hm. unfold call_quantity, call_string. keeps_cases. Qed.
Lemma sends_bytes method params :
  may_ask method params -> keeps (sends ok old) (call_bytes r method params).
Proof. intros Hm. unfold call_bytes, call_string. keeps_cases. Qed.
#[local] Hint Resolve sends_quantity sends_bytes : keeps.

Lemma sends_suiteCall address tag abi method args :
  (forall data tag, may_ask "eth_call" [call_json (mk_EVMCall "" address "" "" data); JString tag]) ->
  keeps (sends ok old) (suiteCall r address tag abi method args).
Proof. intros Hm. unfold suiteCall, CallContractAt. keeps_cases. Qed.

Lemma sends_WaitReceipt fuel hash errors :
  (forall hash, may_ask "eth_getTransactionReceipt" [JString hash]) ->
  keeps (sends ok old) (WaitReceipt r fuel hash errors).
Proof.
  intros Hm. revert errors. induction fuel as [|fuel IH]; intros errors; cbn [WaitReceipt];
    unfold TransactionReceipt; keeps_cases.
Qed.
End Sends.
#[local] Hint Resolve sends_put_nonces sends_on_error sends_Call sends_quantity sends_bytes
  sends_suiteCall sends_WaitReceipt : keeps.

(** ** What the registry may ask of the node once a suite is verified *)

Inductive permitted_call (i : SuiteInfo) : string -> list json -> Prop :=
| permit_chain method params :
    method ∈ ["eth_chainId"; "eth_blockNumber"; "eth_getTransactionCount"; "eth_gasPrice";
              "eth_getTransactionReceipt"]%string ->
    permitted_call i method params
| permit_read m data tag :
    m ∈ si_Modules i ->
    permitted_call i "eth_call" [call_json (mk_EVMCall "" (mo_Address m) "" "" data); JString tag]
| permit_estimate m from to value data :
    m ∈ si_Modules i -> normalizeEVMAddress (mo_Address m) = Ok to ->
    permitted_call i "eth_estimateGas" [call_json (mk_EVMCall from to "" value data)]
| permit_transaction m signer tx raw :
    m ∈ si_Modules i -> normalizeEVMAddress (mo_Address m) = Ok (et_To tx) ->
    rg_signer g = Some signer -> SignTransaction signer tx = Ok raw ->
    permitted_call i "eth_sendRawTransaction" [JString (normalizeHex raw)].

Definition permitted (i : SuiteInfo) (m : message) : Prop :=
  exists id method params, m = call_message (rg_rpc g) (request_text id method params) /\
    permitted_call i method params.

Section Permitted.
Variables (i : SuiteInfo) (old : list message).
Abbreviation quiet := (sends (permitted i) old).

Lemma permitted_ask method params :
  permitted_call i method params -> may_ask (permitted i) (rg_rpc g) method params.
Proof. intros Hp id. by exists id, method, params. Qed.

Lemma chain_ask method params :
  bool_decide (method ∈ ["eth_chainId"; "eth_blockNumber"; "eth_getTransactionCount"; "eth_gasPrice";
              "eth_getTransactionReceipt"]%string) = true ->
  may_ask (permitted i) (rg_rpc g) method params.
Proof. intros H%bool_decide_eq_true. by apply permitted_ask, permit_chain. Qed.

Ltac ask := apply chain_ask; reflexivity.

Lemma quiet_BlockNumber : keeps quiet (BlockNumber (rg_rpc g)).
Proof. apply sends_quantity. ask. Qed.

Lemma quiet_reserve chainID from : keeps quiet (reserve (registry_transactor g) chainID from).
Proof.
  unfold reserve, get_nonces, TransactionCount. keeps_cases; try apply sends_put_nonces.
  apply sends_Call. ask.
Qed.

Lemma quiet_release {A} (committed : A -> bool) rv (c : prog evm A) :
  keeps quiet c -> keeps quiet (release_unless committed rv c).
Proof. intros Hc. unfold release_unless, get_nonces. keeps_cases; apply sends_put_nonces. Qed.

Section Target.
Variables (m : SuiteModuleInfo) (to : string).
Hypotheses (Hm : m ∈ si_Modules i) (Hto : normalizeEVMAddress (mo_Address m) = Ok to).

Lemma quiet_prepare chainID nonce from data value :
  keeps quiet (prepare (registry_transactor g) chainID nonce from to data value).
Proof.
  unfold prepare, EstimateGas, GasPrice, call_string. cbv zeta. keeps_cases.
  - apply sends_Call, permitted_ask. by eapply permit_estimate.
  - apply sends_Call. ask.
Qed.

Lemma prepare_target chainID nonce from data value s s' tx :
  prepare (registry_transactor g) chainID nonce from to data value s = (s', Ok tx) -> et_To tx = to.
Proof. unfold prepare. cbv zeta. intros H. run_ok H. by injection H as _ <-. Qed.

Lemma quiet_broadcast signer tx :
  rg_signer g = Some signer -> et_To tx = to ->
  keeps quiet (broadcast (registry_transactor g) signer tx).
Proof.
  intros Hs Ht. unfold broadcast. apply (keeps_bind_ok _ (fun raw _ => SignTransaction signer tx = Ok raw)).
  - apply keeps_of_result.
  - intros s s' raw _ [= _ Hr]. by apply wrapf_ok in Hr.
  - intros raw s Hq Hr. revert s Hq. change (keeps quiet
      (of_result (wrapf "signer returned invalid raw EVM transaction: %w" [] (decodeHexBytes raw));;
       sent ← attempt (SendRawTransaction (tx_rpc (registry_transactor g)) raw);
       of_result (match sent with Ok hash => Ok hash | Err e => Err (tx_wrap (registry_transactor g) e) end))).
    unfold SendRawTransaction, call_string. keeps_cases. apply sends_Call, permitted_ask.
    eapply permit_transaction; try done. by rewrite Ht.
Qed.

Lemma quiet_transact data value :
  keeps quiet (transact (registry_transactor g) (rg_fuel g) to data value).
Proof.
  unfold transact. cbn [registry_transactor tx_signer]. destruct (rg_signer g) as [signer|] eqn:Hs;
    [|apply keeps_fail].
  apply keeps_bind; [apply keeps_of_result|intros from].
  apply keeps_bind; [apply sends_quantity; ask|intros chainID].
  apply keeps_bind; [keeps_cases|intros _].
  apply keeps_bind; [apply quiet_reserve|intros [nonce rv]]. apply quiet_release.
  apply (keeps_bind_ok _ (fun tx _ => et_To tx = to)).
  - apply quiet_prepare.
  - intros s s' tx _. apply prepare_target.
  - intros tx s Hq Ht. revert s Hq.
    change (keeps quiet (hash ← broadcast (registry_transactor g) signer tx;
                         confirm (registry_transactor g) (rg_fuel g) hash)).
    apply keeps_bind; [by apply quiet_broadcast|intros hash]. unfold confirm. keeps_cases.
    apply sends_WaitReceipt. intros h. ask.
Qed.
End Target.

(** *** Registry calls with a verified suite *)

(** The verified suite is [i], and what was sent since [old] concerns it. *)
Definition verified_only (s : suite) : Prop := su_info s = Some i /\ quiet (su_evm s).

Lemma keeps_on_evm {A} (c : prog evm A) : keeps quiet c -> keeps verified_only (on_evm c).
Proof.
  intros Hc s [Hi Hs]. unfold on_evm. specialize (Hc _ Hs). by destruct (c (su_evm s)).
Qed.

Lemma module_verified name s s' address abi :
  su_info s = Some i -> module g name s = (s', Ok (address, abi)) ->
  s' = s /\ exists m, m ∈ si_Modules i /\ mo_Address m = address.
Proof.
  intros Hi. rewrite (module_run g i) by done. cbv zeta.
  destruct (decide _) as [|Hne]; [done|]. unfold ModuleAddress in *.
  destruct (List.find _ (si_Modules i)) as [m|] eqn:Ef; [|done].
  apply List.find_some in Ef as [Hin _]. apply list_elem_of_In in Hin.
  destruct (List.find _ RequiredSuiteModules) as [req|]; [|done]. rewrite bind_run. unfold of_result.
  destruct (loadSuiteABI _); [|done]. intros [= <- <- <-]. eauto.
Qed.

Lemma module_keeps name : keeps verified_only (module g name).
Proof.
  intros s Hs. rewrite (module_run g i) by apply Hs. revert s Hs. cbv zeta.
  match goal with |- forall s, _ s -> _ (?c s).1 => change (keeps verified_only c) end. keeps_cases.
Qed.

Lemma verified_calls_keep : calls_keep verified_only.
Proof.
  split.
  - intros s [Hi Hs]. by rewrite (ensureVerified_cached g i).
  - unfold snapshotBlockTag. apply (keeps_bind _ _ (fun _ => _)).
    + intros s [Hi Hs]. by rewrite (ensureVerified_cached g i).
    + intros _. apply keeps_bind; [|intros; apply keeps_ret].
      apply keeps_on_evm, sends_on_error, quiet_BlockNumber.
  - intros name tag method args. unfold callAt.
    apply (keeps_bind_ok _ (fun p _ => exists m, m ∈ si_Modules i /\ mo_Address m = fst p)).
    + apply module_keeps.
    + intros s s' [address abi] [Hi _] E. by apply module_verified in E as [_ ?].
    + intros [address abi] s Hs (m & Hm & E). cbn in E. subst address. revert s Hs.
      apply (keeps_on_evm (suiteCall _ _ _ _ _ _)). apply sends_suiteCall. intros data tag'.
      by apply permitted_ask, permit_read.
  - intros name method value args. unfold send.
    apply (keeps_bind_ok _ (fun p _ => exists m, m ∈ si_Modules i /\ mo_Address m = fst p)).
    + apply module_keeps.
    + intros s s' [address abi] [Hi _] E. by apply module_verified in E as [_ ?].
    + intros [address abi] s Hs (m & Hm & E). cbn in E. subst address. revert s Hs.
      change (keeps verified_only
        (data ← of_result (wrapf "encode %s.%s: %w" [GStr name; GStr method] (suite_Pack abi method args));
         on_evm (transactor_send g (mo_Address m) data value))).
      apply keeps_bind; [apply keeps_of_result|intros data]. apply keeps_on_evm.
      unfold transactor_send, Send. apply keeps_bind; [|intros o; keeps_cases].
      apply (keeps_bind_ok _ (fun to _ => normalizeEVMAddress (mo_Address m) = Ok to)).
      * apply keeps_of_result.
      * by intros s s' to _ [= _ ?].
      * intros to s Hs Hto. revert s Hs. by apply (quiet_transact m to).
Qed.
End Permitted.

(** ** The theorems *)

(** C22: a verified registry is confined to the suite.  Once a suite is cached,
    whatever operations follow, with whatever arguments, results and failures:
    the cached suite stays the same, and every request that was sent is a query
    of the chain or of the account's standing, a call or a gas estimate of the
    recorded address of one of the suite's modules, or the broadcast of a
    transaction to such an address that the configured signer signed. *)
Theorem verified_registry_confined i os s :
  su_info s = Some i ->
  su_info (run_session os s) = Some i /\
  exists new, ev_sent (su_evm (run_session os s)) = ev_sent (su_evm s) ++ new /\
    Forall (permitted i) new.
Proof.
  intros Hi. apply (session_keeps (verified_only i (ev_sent (su_evm s)))).
  - apply verified_calls_keep.
  - split; [done|]. exists []. by rewrite app_nil_r.
Qed.

(** *** The cached suite *)

Section Trusted.
Context {AR : Archive (rg_rpc g)}.

(** The cached suite, if any, is one that the chain vouches for at some block. *)
Definition cache_trusted (s : suite) : Prop :=
  match su_info s with
  | None => True
  | Some i => exists block root coordinator,
      0 <= block < 2 ^ 64 /\ si_BlockTag i = block_tag block /\
      suite_trusted (rg_directory g) (rg_chainID g) i root coordinator
  end.

Lemma trusted_on_evm {A} (c : prog evm A) : keeps cache_trusted (on_evm c).
Proof. intros s Hs. unfold on_evm, cache_trusted in *. by destruct (c (su_evm s)). Qed.

Lemma trusted_ensureVerified : keeps cache_trusted (ensureVerified g).
Proof.
  unfold ensureVerified. apply keeps_bind; [apply keeps_gets|intros o].
  destruct o as [i|]; [apply keeps_ret|]. destruct (decide _); [apply keeps_fail|].
  apply (keeps_bind_ok _ (fun i _ => exists block root coordinator,
      0 <= block < 2 ^ 64 /\ si_BlockTag i = block_tag block /\
      suite_trusted (rg_directory g) (rg_chainID g) i root coordinator)).
  - apply trusted_on_evm.
  - intros s s' i _ H. unfold on_evm in H.
    destruct (VerifySuite _ _ _ (su_evm s)) as [e o] eqn:E. injection H as <- ->.
    by eapply verified_suite_sound.
  - intros i s _ Hi. exact Hi.
Qed.

Lemma trusted_calls_keep : calls_keep cache_trusted.
Proof.
  assert (forall name, keeps cache_trusted (module g name)) as Hm.
  { intros name. unfold module. apply keeps_bind; [apply trusted_ensureVerified|]. keeps_cases. }
  split.
  - apply trusted_ensureVerified.
  - unfold snapshotBlockTag. apply keeps_bind; [apply trusted_ensureVerified|intros _].
    apply keeps_bind; [apply trusted_on_evm|keeps_cases].
  - intros name tag method args. unfold callAt. apply keeps_bind; [apply Hm|intros [a abi]].
    apply trusted_on_evm.
  - intros name method value args. unfold send. apply keeps_bind; [apply Hm|intros [a abi]].
    apply keeps_bind; [apply keeps_of_result|intros data]. apply trusted_on_evm.
Qed.

(** The registry caches only a suite that the chain vouches for.  From a new
    registry, after every sequence of operations and whatever the network does,
    the cached suite is either absent or one whose directory, coordinator and
    modules satisfy the chain of trust, for the directory and the chain of the
    profile, at the block it names. *)
Theorem registry_caches_trusted_suite os e :
  cache_trusted (run_session os (NewEVMSuiteRegistry e)).
Proof. by apply session_keeps; [apply trusted_calls_keep|]. Qed.
End Trusted.
End Operations.
