(* ===== verification/SuiteListing.v ===== *)
(** * SuiteListing: a listing is a snapshot of the contract

    The registry's page loop against the ref table of [RefTable]: reading a list
    page by page at one block gives the whole list, in order, whatever its
    length, and never anything else. *)
From Stdlib Require Import ZArith Lia Ascii String.
From stdpp Require Import base list gmap strings option.
From S2P Require Import Prelude GoText Prog GoIo Json Geth ChainTypes RefTable EvmAddress EvmTx SuiteValues EvmRpc SuiteAbi SuiteErrors SuiteDirectory SuiteTypes SuiteTrust SuiteTrustProps SuiteRegistry SuiteSafety.

Local Open Scope Z_scope.

(** ** Paging *)

Section Paging.
Context {S T A : Type} (R : S -> Prop) (P : Prop).

Lemma decides_ext {B} (c c' : prog S B) Q :
  (forall s, c s = c' s) -> decides R P c Q -> decides R P c' Q.
Proof. intros E [Hu Hc]. split; [done|]. intros s. rewrite <- E. apply Hc. Qed.

Lemma decides_pages (query : Z -> prog S (list T * Z)) (visit : A -> T -> prog S A) stuck
    (step : A -> T -> A) xs cursor acc :
  llen xs <= MaxUint64 ->
  (forall c, 0 <= c <= llen xs -> decides R P (query c) (fun p =>
     p = (take (Z.to_nat suiteQueryPageSize) (drop (Z.to_nat c) xs),
          Z.min (c + suiteQueryPageSize) (llen xs)))) ->
  (forall acc x, x ∈ xs -> decides R P (visit acc x) (fun a => a = step acc x)) ->
  0 <= cursor <= llen xs ->
  decides R P (pages query visit stuck cursor acc)
    (fun a => a = fold_left step (drop (Z.to_nat cursor) xs) acc).
Proof.
  intros Hlen Hq Hv. remember (Z.to_nat (llen xs - cursor)) as n eqn:En. revert cursor acc En.
  induction (lt_wf n) as [n _ IH]. intros cursor acc En Hc.
  eapply decides_ext; [intros s; symmetry; apply pages_unfold|].
  set (rest := drop (Z.to_nat cursor) xs). set (page := take (Z.to_nat suiteQueryPageSize) rest).
  assert (llen rest = llen xs - cursor) as Hrest by (unfold rest, llen in *; rewrite length_drop; lia).
  assert (forall x, x ∈ page -> x ∈ xs) as Hin.
  { intros x [k Hk]%list_elem_of_lookup. unfold page, rest in Hk.
    apply lookup_take_Some in Hk as [Hk _]. rewrite lookup_drop in Hk. by eapply list_elem_of_lookup_2. }
  set (more := drop (Z.to_nat suiteQueryPageSize) rest).
  assert (forall acc', decides R P (page_end page acc'
      (if decide (cursor < Z.min (cursor + suiteQueryPageSize) (llen xs) <= MaxUint64)
       then pages query visit stuck (Z.min (cursor + suiteQueryPageSize) (llen xs)) acc'
       else fail (stuck cursor))) (fun a => a = fold_left step more acc')) as Hend.
  { intros acc'. unfold page_end. destruct (Z.ltb_spec (llen page) suiteQueryPageSize) as [Hs|Hs].
    - assert (more = []) as ->; [|apply decides_ret]. apply drop_ge.
      unfold page, llen in Hs. rewrite length_take in Hs. unfold suiteQueryPageSize in *. lia.
    - assert (suiteQueryPageSize <= llen rest) as Hfull.
      { unfold page, llen in *. rewrite length_take in Hs. lia. }
      unfold more, suiteQueryPageSize in *. rewrite Z.min_l by lia. rewrite decide_True by lia.
      eapply decides_iff; [|apply (IH (Z.to_nat (llen xs - (cursor + 64)))); lia].
      intros a. unfold rest. rewrite drop_drop. by replace (Z.to_nat (cursor + 64))
        with (Z.to_nat cursor + Z.to_nat 64)%nat by lia. }
  eapply decides_iff, decides_bind; [|by apply Hq|].
  2: { intros p Hp. refine (_ : decides R P _ (fun a => a = fold_left step rest acc)).
       cbv beta in Hp. subst p.
       cbn [fst snd]. eapply decides_iff, decides_bind;
         [|by apply (decides_foldP R P visit step page acc); intros a x Hx; apply Hv, Hin
          |intros acc' _; apply Hend].
       intros a. cbv beta. rewrite <- (take_drop (Z.to_nat suiteQueryPageSize) rest), fold_left_app.
       split; [by intros (? & -> & ->)|intros ->; eauto]. }
  intros a. cbv beta. split; [by intros (? & _ & ->)|intros ->; eauto].
Qed.
End Paging.

Lemma ret_bind {S A B} (a : A) (f : A -> prog S B) s : (mret a ≫= f) s = f a s.
Proof. done. Qed.
Lemma of_result_bind {S A B} (a : A) (f : A -> prog S B) s : (of_result (Ok a) ≫= f) s = f a s.
Proof. done. Qed.

(** ** Reading a contract's values *)

Lemma as_slice_map {A B} (as_elem : go_any -> option B) t (f : A -> abi_value) (h : A -> B) xs :
  (forall x, as_elem (mk_any t (f x)) = Some (h x)) ->
  as_slice as_elem (mk_any (TSlice t) (VSlice (map f xs))) = Some (map h xs).
Proof.
  intros He. cbn [as_slice]. induction xs as [|x xs IH]; [done|]. cbn [map mapM]. rewrite He. cbn.
  by rewrite IH.
Qed.

(** How the contract encodes a ref of the table; [account] is the address of an
    account. *)
Definition encode_ref (account : string -> bytes) (ref : GitRef) : abi_value :=
  VTuple [VString (commitSha ref); VSlice (map VString (packUris ref)); VUint (updatedAt ref);
          VAddress (account (updatedBy ref)); VBool true].

Definition decoded_ref (account : string -> bytes) (ref : GitRef) : suiteRefABI :=
  mk_suiteRefABI (commitSha ref) (packUris ref) (updatedAt ref) (account (updatedBy ref)) true.

Lemma ref_fields_encoded account ref :
  ref_fields (mk_any ref_type (encode_ref account ref)) = Some (decoded_ref account ref).
Proof.
  unfold ref_fields. cbn -[as_slice]. rewrite decide_True by (split; reflexivity).
  cbn -[as_slice]. rewrite (as_slice_map as_string TString VString id) by done. cbn. by rewrite map_id.
Qed.

Definition encode_page (account : string -> bytes) (page : list (string * GitRef)) (next : Z)
  : list go_any :=
  [ mk_any (TSlice TString) (VSlice (map (fun p => VString (fst p)) page));
    mk_any (TSlice ref_type) (VSlice (map (fun p => encode_ref account (snd p)) page));
    mk_any (TUint 256) (VUint next) ].

Section Listing.
Context {UC : UnicodeCase} {TR : Transport} {WT : Waiting} {GE : Geth} {GL : GethLaws}
        {MO : MapOrder} {RV : RevertReasons}.
Variable g : registry.
Context {AR : Archive (rg_rpc g)}.

(** ** Registry calls at a block *)

Section AtBlock.
Variables (i : SuiteInfo) (P : Prop) (HP : P -> Reliable (rg_rpc g)).

Definition with_suite (s : suite) : Prop := su_info s = Some i.

Lemma decides_on_evm {A} (c : prog evm A) Q :
  decides anywhere P c Q -> decides with_suite P (on_evm c) Q.
Proof.
  intros [Hu Hc]. split; [done|]. intros s Hs. specialize (Hc (su_evm s) I) as [_ Hc].
  unfold on_evm. by destruct (c (su_evm s)).
Qed.

Lemma decides_module name abi required :
  ModuleAddress (Some i) name <> ""%string ->
  List.find (fun m => bool_decide (mi_Name m = name)) RequiredSuiteModules = Some required ->
  loadSuiteABI (mi_ABI required) = Ok abi ->
  decides with_suite P (module g name) (fun p => p = (ModuleAddress (Some i) name, abi)).
Proof.
  intros Hne Hf Ha. split; [by intros a b -> ->|]. intros s Hs. rewrite (module_run g i) by done.
  cbv zeta. by rewrite decide_False, Hf, bind_run, Ha by done.
Qed.

Lemma decides_core_call tag method args :
  ModuleAddress (Some i) "core" <> ""%string -> requireFixedEVMBlockTag tag = Ok tt ->
  decides with_suite P (callAt g "core" tag method args) (fun vs =>
    values_at tag (ModuleAddress (Some i) "core") coreMethods method args = Ok vs).
Proof.
  intros Hne Htag. unfold callAt. eapply decides_iff, decides_bind;
    [|by apply (decides_module "core" coreMethods (mk_SuiteModuleID "core"
        (keccak256 (string_bytes "igit.module.repository-core")) suiteABICore))|].
  2: { intros p _. apply decides_let. apply decides_on_evm. by apply decides_suiteCall. }
  intros vs. cbv beta. split; [by intros (p & -> & ?)|intros ?; by eexists].
Qed.

(** ** Listing refs *)

Lemma module_abi name s s' address abi required :
  List.find (fun m => bool_decide (mi_Name m = name)) RequiredSuiteModules = Some required ->
  module g name s = (s', Ok (address, abi)) -> loadSuiteABI (mi_ABI required) = Ok abi.
Proof.
  intros Hf (s1 & info & _ & H)%bind_run_ok. revert H. cbv beta zeta.
  destruct (decide _); [done|]. rewrite Hf. intros (s2 & abi' & [= <- E] & [= <- <- <-])%bind_run_ok.
  done.
Qed.

Lemma core_call_unpacked tag method args s s' vs :
  callAt g "core" tag method args s = (s', Ok vs) ->
  exists out, suite_Unpack coreMethods method out = Ok vs.
Proof.
  intros (s1 & [address abi] & Hm & H)%bind_run_ok.
  apply (module_abi _ _ _ _ _ (mk_SuiteModuleID "core"
    (keccak256 (string_bytes "igit.module.repository-core")) suiteABICore)) in Hm; [|done].
  assert (coreMethods = abi) as -> by (change (Ok coreMethods = Ok abi) in Hm; congruence).
  unfold on_evm in H. destruct (suiteCall _ _ _ _ _ _ (su_evm s1)) as [e o] eqn:E.
  injection H as _ ->. by eapply suiteCall_unpacked.
Qed.

(** The identifier of a resolved repository is a word. *)
Lemma resolved_id owner name tag s s' resolved :
  resolveRepoAt g owner name tag s = (s', Ok resolved) -> length (rs_RepoID resolved) = 32%nat.
Proof.
  intros (s1 & a & _ & H)%bind_run_ok. apply bind_run_ok in H as (s2 & vs & Hc & H).
  apply core_call_unpacked in Hc as [out Hc]. eapply suite_Unpack_typed in Hc; [|reflexivity].
  destruct Hc as (us & Ht & ->). cbn [sm_outputs] in *.
  apply have_types_cons in Ht as (u0 & us0 & -> & H0 & Ht).
  apply have_types_cons in Ht as (u1 & us1 & -> & H1 & Ht). destruct us1; [|done].
  cbn [typed zip_with] in H. apply bind_run_ok in H as (s3 & repository & Hr & H).
  injection Hr as _ Hr. unfold suiteTuple in Hr.
  destruct (repository_fields _) as [x|] eqn:Ef; [|done]. injection Hr as ->.
  apply repository_id_length in Ef; [|done].
  destruct (as_bool _) as [canonical|]; [|done]. destruct (sr_Exists repository); [|done].
  by apply bind_run_ok in H as (s4 & info & _ & [= _ <-]).
Qed.

Variables (table : ref_table) (account : string -> bytes) (repoID : bytes) (tag : string).
Hypothesis account_length : forall a, length (account a) = 20%nat.
Hypothesis core_module : ModuleAddress (Some i) "core" <> ""%string.
Hypothesis fixed_tag : requireFixedEVMBlockTag tag = Ok tt.
(** The chain executes the core contract, whose refs of the repository are
    [table]. *)
Hypothesis core_executes : forall cursor page next, 0 <= cursor ->
  listRefsPage (Some table) cursor suiteQueryPageSize = Ok (page, next) ->
  values_at tag (ModuleAddress (Some i) "core") coreMethods "listRefsPage"
    (VBytes32 repoID :: page_args cursor) = Ok (encode_page account page next).
Hypothesis table_bounded : llen (refNames table) <= MAX_REFS_PER_REPO.

(** The refs with their names, in the contract's order. *)
Definition named_refs : list (string * GitRef) :=
  map (fun n => (n, default (mk_GitRef "" [] 0 "") (refs table !! n))) (refNames table).

Definition ref_info (p : string * GitRef) : RefInfo :=
  mk_RefInfo (fst p) (commitSha (snd p)) (packUris (snd p)) (updatedAt (snd p))
    (encodeBech32Address "inj" (account (updatedBy (snd p)))).

Lemma llen_named : llen named_refs = llen (refNames table).
Proof. unfold named_refs, llen. by rewrite length_map. Qed.

Lemma contract_page cursor :
  0 <= cursor <= llen named_refs ->
  listRefsPage (Some table) cursor suiteQueryPageSize =
    Ok (take (Z.to_nat suiteQueryPageSize) (drop (Z.to_nat cursor) named_refs),
        Z.min (cursor + suiteQueryPageSize) (llen named_refs)).
Proof.
  intros Hc. rewrite llen_named in *. unfold listRefsPage. cbn [requireRepository].
  destruct (Z.ltb_spec (llen (refNames table)) cursor); [lia|]. cbn [orb].
  change ((suiteQueryPageSize =? 0) || (MAX_QUERY_PAGE_SIZE <? suiteQueryPageSize)) with false.
  cbv iota. f_equal. f_equal. unfold named_refs. rewrite skipn_map, firstn_map. f_equal.
  destruct (Z.le_gt_cases (cursor + suiteQueryPageSize) (llen (refNames table))).
  - rewrite Z.min_l by done. f_equal. unfold suiteQueryPageSize. lia.
  - rewrite Z.min_r by lia. unfold llen, suiteQueryPageSize in *.
    rewrite !take_ge by (rewrite length_drop; lia). done.
Qed.

Lemma user_address a : length a = 20%nat -> suiteUserAddress a = Ok (encodeBech32Address "inj" a).
Proof.
  intros Ha. unfold suiteUserAddress, userAddressFromEVM.
  by rewrite (parse_hex_text _ a) by (done || by apply AddressHex_spec).
Qed.

Lemma decides_refs_page page next :
  0 <= next <= MaxUint64 ->
  decides with_suite P (refs_page (encode_page account page next))
    (fun p => p = (map (fun p => (fst p, decoded_ref account (snd p))) page, next)).
Proof.
  intros Hn. unfold refs_page, encode_page.
  set (names := map fst page). set (refs := map (fun p => decoded_ref account (snd p)) page).
  assert (asserted (as_slice as_string) "listRefsPage names returned %T"
    (mk_any (TSlice TString) (VSlice (map (fun p => VString (fst p)) page))) = mret names) as ->.
  { unfold asserted. by rewrite (as_slice_map as_string TString (fun p => VString (fst p)) fst) by done. }
  assert (suiteTupleSlice ref_fields (mk_any (TSlice ref_type)
    (VSlice (map (fun p => encode_ref account (snd p)) page))) = Ok refs) as ->.
  { unfold suiteTupleSlice. by rewrite (as_slice_map ref_fields ref_type _
      (fun p => decoded_ref account (snd p))) by (intros; apply ref_fields_encoded). }
  assert (suiteBigUint64 (mk_any (TUint 256) (VUint next)) "listRefsPage next cursor" = Ok next) as ->.
  { unfold suiteBigUint64, as_big. change ((256 =? 8) || _ || _ || _) with false. cbv iota.
    rewrite (proj2 (Z.leb_le 0 next)), (proj2 (Z.leb_le next MaxUint64)) by lia. done. }
  assert (llen names =? llen refs = true) as Hl
    by (apply Z.eqb_eq; unfold llen, names, refs; by rewrite !length_map).
  assert (combine names refs = map (fun p => (fst p, decoded_ref account (snd p))) page) as Hc.
  { unfold names, refs. clear. induction page as [|p page IH]; [done|]. cbn. by f_equal. }
  split; [by intros a b -> ->|]. intros s Hs.
  rewrite ret_bind, of_result_bind, Hl. cbn [negb]. by rewrite ret_bind, of_result_bind, Hc.
Qed.

Lemma suiteRefInfo_decoded p :
  suiteRefInfo (fst p) (decoded_ref account (snd p)) = Ok (ref_info p).
Proof. unfold suiteRefInfo. cbn [sf_UpdatedBy decoded_ref]. by rewrite user_address. Qed.

Lemma collect_infos ps acc :
  fold_left (fun l (x : string * suiteRefABI) =>
      match suiteRefInfo (fst x) (snd x) with Ok info => l ++ [info] | Err _ => l end)
    (map (fun p => (fst p, decoded_ref account (snd p))) ps) acc = acc ++ map ref_info ps.
Proof.
  revert acc. induction ps as [|p ps IH]; intros acc; cbn [map fold_left fst snd].
  - by rewrite app_nil_r.
  - by rewrite suiteRefInfo_decoded, IH, <- app_assoc.
Qed.

(** The listing has one possible result: all refs of the contract, in order. *)
Lemma decides_refs_at :
  decides with_suite P (refs_at g repoID tag) (fun l => l = map ref_info named_refs).
Proof.
  unfold refs_at. set (decode := fun p : string * GitRef => (fst p, decoded_ref account (snd p))).
  eapply decides_iff; [|apply (decides_pages with_suite P _ _ _ (fun l x =>
      match suiteRefInfo (fst x) (snd x) with Ok info => l ++ [info] | Err _ => l end)
      (map decode named_refs))].
  - intros l. cbv beta. by rewrite drop_0, collect_infos.
  - unfold llen. rewrite length_map. change (llen named_refs <= MaxUint64). rewrite llen_named.
    unfold MAX_REFS_PER_REPO, MaxUint64 in *. lia.
  - intros c Hc. assert (llen (map decode named_refs) = llen named_refs) as El
      by (unfold llen; by rewrite length_map). rewrite El in Hc |- *.
    eapply decides_iff, decides_bind; [|by apply decides_core_call|].
    2: { intros vs Hvs. refine (_ : decides with_suite P _ (fun p => p = _)).
         rewrite (core_executes _ _ _ (proj1 Hc) (contract_page c Hc)) in Hvs. injection Hvs as <-.
         apply decides_refs_page. rewrite llen_named in *.
         unfold MAX_REFS_PER_REPO, suiteQueryPageSize, MaxUint64 in *. lia. }
    intros p. cbv beta. rewrite skipn_map, firstn_map. split; [by intros (? & _ & ->)|].
    intros ->. rewrite (core_executes _ _ _ (proj1 Hc) (contract_page c Hc)). eauto.
  - intros l [n ref] Hin. apply list_elem_of_fmap in Hin as (p & [= -> ->] & _).
    eapply decides_iff, decides_bind; [|apply decides_of_result|intros x _; apply decides_ret].
    intros a. cbv beta. cbn [fst snd]. rewrite suiteRefInfo_decoded.
    split; [by intros (? & [= <-] & ->)|intros ->; eauto].
  - unfold llen. lia.
Qed.
End AtBlock.

(** A repository that the contract does not know has no listing. *)
Lemma refs_at_unknown i id tag s s' l :
  ModuleAddress (Some i) "core" <> ""%string -> requireFixedEVMBlockTag tag = Ok tt ->
  (exists e, values_at tag (ModuleAddress (Some i) "core") coreMethods "listRefsPage"
     (VBytes32 id :: page_args 0) = Err e) ->
  with_suite i s -> refs_at g id tag s <> (s', Ok l).
Proof.
  intros Hm Ht [e He] Hs H. unfold refs_at in H. rewrite pages_unfold in H.
  apply bind_run_ok in H as (s1 & page & H & _). apply bind_run_ok in H as (s2 & vs & H & _).
  pose proof (decides_core_call i False (fun F => match F with end) tag "listRefsPage"
    (VBytes32 id :: page_args 0) Hm Ht) as Hd.
  destruct (decides_run _ _ _ _ _ _ _ Hd Hs H) as [_ Hv]. cbv beta in Hv. congruence.
Qed.

(** ** The theorem *)

(** The chain executes the core contract, which keeps at the block of a tag the
    table of refs of every repository that exists, of at most the contract's
    limit: a call of [listRefsPage] gives the page or reverts. *)
Record executes_core (i : SuiteInfo) (account : string -> bytes)
    (tables : string -> bytes -> option ref_table) : Prop := {
  ec_account : forall a, length (account a) = 20%nat;
  ec_module : ModuleAddress (Some i) "core" <> ""%string;
  ec_bounded : forall tag id t, tables tag id = Some t -> llen (refNames t) <= MAX_REFS_PER_REPO;
  ec_pages : forall tag id cursor page next,
    requireFixedEVMBlockTag tag = Ok tt -> length id = 32%nat -> 0 <= cursor ->
    listRefsPage (tables tag id) cursor suiteQueryPageSize = Ok (page, next) ->
    values_at tag (ModuleAddress (Some i) "core") coreMethods "listRefsPage"
      (VBytes32 id :: page_args cursor) = Ok (encode_page account page next);
  ec_reverts : forall tag id cursor e,
    requireFixedEVMBlockTag tag = Ok tt -> length id = 32%nat -> 0 <= cursor < 2 ^ 256 ->
    listRefsPage (tables tag id) cursor suiteQueryPageSize = Err e ->
    exists e', values_at tag (ModuleAddress (Some i) "core") coreMethods "listRefsPage"
      (VBytes32 id :: page_args cursor) = Err e';
}.

(** C23: a listing is a snapshot.  Let the chain execute the core contract.  When
    [ListRefs] returns a list, the contract has the resolved repository at one
    block and the list is its whole ref table at this block, every ref once, in
    the contract's order, with its commit, packs and author: pages are never
    mixed from two blocks, cut off or repeated, however many there are.  And
    reading the pages of a repository that exists at a block succeeds whenever
    the node answers. *)
Theorem list_refs_snapshot i account tables :
  executes_core i account tables ->
  (forall owner repo s s' l, su_info s = Some i -> ListRefs_suite g owner repo s = (s', Ok l) ->
     exists block resolved table s1 s2, 0 <= block < 2 ^ 64 /\
       resolveRepoAt g owner repo (block_tag block) s1 = (s2, Ok resolved) /\
       tables (block_tag block) (rs_RepoID resolved) = Some table /\
       l = map (ref_info account) (named_refs table)) /\
  (Reliable (rg_rpc g) -> forall block id table s, 0 <= block < 2 ^ 64 -> length id = 32%nat ->
     tables (block_tag block) id = Some table -> su_info s = Some i ->
     exists s', refs_at g id (block_tag block) s =
       (s', Ok (map (ref_info account) (named_refs table)))).
Proof.
  intros [Ha Hm Hb Hp He]. split.
  - intros owner repo s s' l Hi H. unfold ListRefs_suite in H.
    apply bind_run_ok in H as (s1 & tag & Ht & H). apply bind_run_ok in H as (s2 & resolved & Hr & H).
    pose proof (verified_calls_keep g i (ev_sent (su_evm s))) as Hk.
    assert (verified_only g i (ev_sent (su_evm s)) s) as H0
      by (split; [done|]; exists []; by rewrite app_nil_r).
    pose proof (keeps_tag _ _ Hk s H0) as H1. rewrite Ht in H1.
    pose proof (keeps_resolveRepoAt g _ Hk owner repo tag s1 H1) as H2. rewrite Hr in H2.
    assert (exists block, 0 <= block < 2 ^ 64 /\ tag = block_tag block) as (block & Hblock & ->).
    { unfold snapshotBlockTag in Ht. apply bind_run_ok in Ht as (s3 & i' & _ & Ht).
      apply bind_run_ok in Ht as (s4 & block & Hn & Ht). injection Ht as _ <-. exists block.
      split; [|done]. unfold on_evm in Hn.
      destruct (on_error wrapEVMRPCError (BlockNumber (rg_rpc g)) (su_evm s3)) as [e o] eqn:E.
      injection Hn as _ ->. apply on_error_ok in E. by apply BlockNumber_range in E. }
    pose proof (resolved_id _ _ _ _ _ _ Hr) as Hid. pose proof (block_tag_fixed _ Hblock) as Htag.
    destruct (tables (block_tag block) (rs_RepoID resolved)) as [table|] eqn:Et.
    2: { exfalso. eapply (refs_at_unknown i); [done|exact Htag| |exact (proj1 H2)|exact H].
         eapply (He _ _ 0); [done|done|lia|]. by rewrite Et. }
    exists block, resolved, table, s1, s2. split; [exact Hblock|]. split; [exact Hr|]. split; [exact Et|].
    pose proof (decides_refs_at i False (fun F => match F with end) table _ _ _ Ha Hm Htag
      (fun c p n Hc Hpage => Hp _ _ c p n Htag Hid Hc (eq_trans (f_equal (fun t => listRefsPage t c
        suiteQueryPageSize) Et) Hpage)) (Hb _ _ _ Et)) as Hd.
    by destruct (decides_run _ _ _ _ s2 _ _ Hd (proj1 H2) H) as [_ ->].
  - intros Hr block id table s Hblock Hid Et Hi. pose proof (block_tag_fixed _ Hblock) as Htag.
    pose proof (decides_refs_at i True (fun _ => Hr) table _ _ _ Ha Hm Htag
      (fun c p n Hc Hpage => Hp _ _ c p n Htag Hid Hc (eq_trans (f_equal (fun t => listRefsPage t c
        suiteQueryPageSize) Et) Hpage)) (Hb _ _ _ Et)) as Hd.
    by apply (decides_succeeds _ _ _ _ s _ Hd).
Qed.
End Listing.
