(* ===== verification/SuiteNode.v ===== *)
(** * SuiteNode: a node behind a sample suite

    A network with one suite: the node's answers, as it gives them to the texts of
    requests, are those of an archive; its core contract has one repository with
    one ref and reverts when it is asked for the refs of another.  The theorems
    are applied to it. *)
From Stdlib Require Import ZArith Lia Ascii String.
From stdpp Require Import base list gmap strings option.
From S2P Require Import Prelude GoText Prog GoIo Json JsonSpec Encodings Geth ReplicationdSpec ChainTypes RefTable EvmAddress EvmTx SuiteValues EvmRpc SuiteAbi SuiteErrors SuiteDirectory SuiteTypes SuiteTrust SuiteTrustProps SuiteRegistry SuiteSafety SuiteListing.

Import SampleGeth.

Local Open Scope Z_scope.

(** ** The suite *)

Definition nth_address (n : Z) : bytes := be_bytes 20 n.
Definition directory_at : bytes := nth_address 0xd0.
Definition coordinator_at : bytes := nth_address 0xc0.
Definition core_at : bytes := nth_address 0xa0.
Definition directory_text : string := AddressHex directory_at.
Definition runtime : bytes := be_bytes 2 0x6080.
Definition root : bytes := be_bytes 32 0x5007.

Definition with_index {A} (l : list A) : list (Z * A) := zip (map Z.of_nat (seq 0 (length l))) l.

(** The results of a call to a contract. *)
Definition answer_to (to : bytes) (abi : list suite_method) (method : string)
    (args results : list abi_value) : (string * bytes) * string :=
  let m := default (mk_suite_method "" [] []) (suite_method_named abi method) in
  let packed r := match r with Ok b => b | Err _ => [] end in
  ((AddressHex to, packed (suite_Pack abi method args)),
   "0x" +:+ hex_encode (packed (abi_Pack (sm_outputs m) results))).

Definition calls : list ((string * bytes) * string) := Eval vm_compute in
  let asks := answer_to directory_at directoryMethods in
  let coordinator := answer_to coordinator_at suiteCoordinatorMethods in
  [ asks "suiteVersion" [] [VUint 3]; asks "configuredChainId" [] [VUint 1439];
    asks "state" [] [VUint 1]; asks "snapshotRoot" [] [VBytes32 root];
    asks "bootstrapCoordinator" [] [VAddress coordinator_at];
    asks "bootstrapCoordinatorCodeHash" [] [VBytes32 (keccak256 runtime)];
    coordinator "suiteDirectory" [] [VAddress directory_at];
    coordinator "snapshotRoot" [] [VBytes32 root] ]%string ++
  flat_map (fun '(i, required) =>
    let at_ := nth_address (0xa0 + i) in
    let abi := match loadSuiteABI (mi_ABI required) with Ok abi => abi | Err _ => [] end in
    [ asks "moduleAddress" [VBytes32 (mi_ID required)] [VAddress at_];
      asks "moduleCodeHash" [VBytes32 (mi_ID required)] [VBytes32 (keccak256 runtime)];
      answer_to at_ abi "suiteDirectory" [] [VAddress directory_at];
      answer_to at_ abi "bootstrapCoordinator" [] [VAddress coordinator_at];
      answer_to at_ abi "moduleId" [] [VBytes32 (mi_ID required)] ]%string)
    (with_index RequiredSuiteModules).

(** *** Its refs *)

Definition main_ref : GitRef :=
  mk_GitRef "0123456789abcdef0123456789abcdef01234567" ["ipfs://bafy"%string] 7 "alice".
Definition one_ref : ref_table := mk_ref_table ["refs/heads/main"%string] {["refs/heads/main"%string := main_ref]}.
Definition account_of (_ : string) : bytes := nth_address 0xe0.

(** The repository that exists. *)
Definition demo_id : bytes := be_bytes 32 0x1d.
Definition demo_tables (_ : string) (id : bytes) : option ref_table :=
  if decide (id = demo_id) then Some one_ref else None.

Definition list_refs_selector : bytes := Eval vm_compute in
  match suite_method_named coreMethods "listRefsPage" with
  | Some m => suite_selector m
  | None => []
  end.

(** The results of [listRefsPage]. *)
Definition refs_result (page : list (string * GitRef)) (next : Z) : string :=
  "0x" +:+ hex_encode (match abi_Pack [TSlice TString; TSlice ref_type; TUint 256]
    (map any_value (encode_page account_of page next)) with Ok b => b | Err _ => [] end).
Definition first_page : string := Eval vm_compute in refs_result [("refs/heads/main"%string, main_ref)] 1.
Definition last_page : string := Eval vm_compute in refs_result [] 1.

(** ** The node *)

(** The same at every block; nothing for a call that reverts. *)
Definition refs_answer (arguments : bytes) : option string :=
  if bool_decide (take 32 arguments = demo_id)
  then let cursor := be_value (take 33 (drop 32 arguments)) in
       if cursor =? 0 then Some first_page else if cursor =? 1 then Some last_page else None
  else None.

Definition call_answer (to : string) (data : bytes) : option string :=
  if bool_decide (to = AddressHex core_at) && bool_decide (take 4 data = list_refs_selector)
  then refs_answer (drop 5 data)
  else Some (match List.find (fun c => bool_decide (fst c = (to, data))) calls with
             | Some (_, result) => result
             | None => "0x"
             end).

Definition answer (method : string) (params : list json) : option string :=
  if decide (method = "eth_chainId"%string) then Some "0x59f"
  else if decide (method = "eth_blockNumber"%string) then Some "0x10"
  else if decide (method = "eth_getCode"%string) then Some "0x6080"
  else match params with
       | [JObject [(_, JString to); (_, JString data)]; _] =>
           match decodeHexBytes data with Ok data => call_answer to data | Err _ => Some "0x" end
       | _ => Some "0x"
       end%string.

(** Everything after the first comma. *)
Fixpoint after_comma (s : string) : string :=
  match s with
  | EmptyString => ""
  | String c s' => if is_char "," c then s' else after_comma s'
  end.

(** The members of a request after its [id], as an object. *)
Definition without_id (body : string) : string := "{" +:+ after_comma (after_comma body).

Definition reply_of (result : option string) : response :=
  mk_response 200 (Marshal (JObject ([text_member "jsonrpc" "2.0"; int_member "id" 1] ++
    match result with
    | Some result => [text_member "result" result]
    | None => [("error"%string, JObject [int_member "code" 3; text_member "message" "execution reverted"])]
    end))) false.

Definition serve (text : string) : response :=
  reply_of (match Unmarshal text with
            | Ok (JObject [(_, JString method); (_, JArray params)]) => answer method params
            | _ => Some "0x"%string
            end).

#[export] Instance suite_transport : Transport := {
  net := unit;
  new_request _ := Ok tt;
  http_do m n := (n, Ok (serve (without_id (msg_body m))));
}.
#[export] Instance no_waiting : Waiting := { wait _ n := (n, Ok tt) }.
#[export] Instance ascii_case : UnicodeCase := { wide_lower s := s }.
#[export] Instance no_reasons : RevertReasons := {
  UnpackRevert _ := Err (Errorf "invalid data for unpacking" []) }.

Definition node_rpc : EVMRPC := NewEVMRPC "http://node".

(** *** Its answers *)

Definition tail_text (method : string) (params : list json) : string :=
  Marshal (JObject [text_member "method" method; ("params"%string, JArray params)]).

Lemma after_comma_app s t : all_chars (fun c => negb (is_char "," c)) s = true ->
  after_comma (s +:+ "," +:+ t) = t.
Proof.
  induction s as [|c s IH]; [done|]. cbn [all_chars]. intros [Hc Hs]%andb_true_iff.
  str_simpl. apply negb_true_iff in Hc. cbn [after_comma]. rewrite Hc. by apply IH.
Qed.

Lemma FormatInt_no_comma z : all_chars (fun c => negb (is_char "," c)) (FormatInt z) = true.
Proof.
  assert (forall n, all_chars (fun c => negb (is_char "," c)) (FormatUint n) = true) as Hu.
  { intros n. eapply all_chars_impl, FormatUint_digits. intros c. revert c.
    assert (forall c, negb (is_digit c) || negb (is_char "," c) = true) as H by all_ascii.
    intros c Hc. specialize (H c). by rewrite Hc in H. }
  unfold FormatInt. destruct (z <? 0); [|done]. cbn [all_chars]. by rewrite Hu.
Qed.

Lemma without_id_request id method params :
  without_id (request_text id method params) = tail_text method params.
Proof.
  unfold tail_text, Marshal. cbn [render map separated text_member]. rewrite str_nil_app.
  match goal with |- _ = ("{" +:+ ?t)%string => set (tail := t) end.
  transitivity (without_id (("{" +:+ quote "jsonrpc" +:+ ":" +:+ quote "2.0") +:+ "," +:+
    (quote "id" +:+ ":" +:+ FormatInt id) +:+ "," +:+ tail)%string).
  { f_equal. unfold request_text, Marshal, tail. cbn [render map separated text_member int_member JInt].
    
    match goal with |- context [(quote "params" +:+ (":" +:+ ?p))%string] =>
      generalize (quote "params" +:+ (":" +:+ p))%string end.
    intros p. cbn -[quote]. by rewrite ?str_app_assoc, ?str_nil_app, ?str_app_nil. }
  unfold without_id. rewrite after_comma_app by reflexivity.
  rewrite after_comma_app; [done|]. rewrite !all_chars_app, FormatInt_no_comma. reflexivity.
Qed.

(** Every result that the node gives. *)
Definition results : list string :=
  ["0x"; "0x59f"; "0x10"; "0x6080"; first_page; last_page]%string ++ map snd calls.

Lemma refs_answer_known arguments r : refs_answer arguments = Some r -> r ∈ results.
Proof.
  assert (first_page ∈ results /\ last_page ∈ results) as [H1 H2]
    by (split; [by apply (list_elem_of_lookup_2 _ 4)|by apply (list_elem_of_lookup_2 _ 5)]).
  unfold refs_answer. destruct (bool_decide _); [|done]. cbv zeta.
  destruct (_ =? 0); [by intros [= <-]|]. destruct (_ =? 1); [by intros [= <-]|done].
Qed.

Lemma answer_known method params r : answer method params = Some r -> r ∈ results.
Proof.
  assert (forall n r, results !! n = Some r -> r ∈ results) as Hn
    by (intros n r'; apply list_elem_of_lookup_2).
  assert (forall to data r, call_answer to data = Some r -> r ∈ results) as Hc.
  { intros to data r'. unfold call_answer. destruct (_ && _); [apply refs_answer_known|].
    destruct (List.find (fun c => bool_decide (fst c = (to, data))) calls) as [[q r0]|] eqn:E;
      intros [= <-]; [|by apply (Hn 0%nat)].
    apply List.find_some in E as [E _]. unfold results. apply elem_of_app. right.
    apply list_elem_of_In. by apply (in_map snd) in E. }
  unfold answer. repeat (case_match; try apply Hc; try (intros [= <-]; by apply (Hn 0%nat))).
  - intros [= <-]. by apply (Hn 1%nat).
  - intros [= <-]. by apply (Hn 2%nat).
  - intros [= <-]. by apply (Hn 3%nat).
Qed.

Lemma judge_known method :
  Forall (fun result => judge_response method Ok (reply_of (Some result)) = Ok (Some (JString result)))
    results.
Proof.
  unfold results, calls. cbn [app map snd].
  repeat (apply Forall_cons_2; [vm_compute; reflexivity|]). constructor.
Qed.

(** What a client makes of the node's replies. *)
Lemma judge_answer method m params :
  match answer m params with
  | Some r => judge_response method Ok (reply_of (answer m params)) = Ok (Some (JString r))
  | None => exists e, judge_response method Ok (reply_of (answer m params)) = Err e
  end.
Proof.
  pose proof (judge_known method) as Hj. rewrite list.Forall_forall in Hj.
  destruct (answer m params) as [r|] eqn:E; [by apply Hj, (answer_known m params)|].
  eexists. vm_compute. reflexivity.
Qed.

(** A reply is one to some question, or brings the empty result. *)
Lemma serve_cases text :
  (exists m params, serve text = reply_of (answer m params)) \/ serve text = reply_of (Some "0x"%string).
Proof. unfold serve. repeat case_match; eauto. Qed.

(** ** The archive *)

#[export] Instance node_archive : Archive node_rpc.
Proof.
  refine {| archive method params :=
    match judge_response method Ok (serve (tail_text method params)) with
    | Ok (Some v) => v
    | _ => JNull
    end |}.
  intros n id method params _. cbn [http_do suite_transport snd msg_body call_message].
  rewrite without_id_request. by intros v ->.
Defined.

#[export] Instance node_reliable : Reliable node_rpc.
Proof.
  split; [done|done|]. intros n id method params _. cbn [archive node_archive].
  set (text := tail_text method params). intros Hn. do 2 eexists. split; [reflexivity|].
  cbn [msg_body call_message]. rewrite without_id_request. fold text.
  destruct (serve_cases text) as [(m & ps & E)|E]; rewrite E in *.
  - pose proof (judge_answer method m ps) as H.
    destruct (answer m ps) as [r|]; [by rewrite H|]. destruct H as [e He]. by rewrite He in Hn.
  - pose proof (judge_known method) as Hj. rewrite list.Forall_forall in Hj.
    by rewrite Hj by by apply (list_elem_of_lookup_2 _ 0).
Qed.

(** A request that is UTF-8 reaches the node as it is. *)
Lemma archive_answer method params :
  valid_utf8 method = true -> forallb json_ok params = true ->
  (max_of (map nesting params) < 100)%nat ->
  archive (r := node_rpc) method params =
    match answer method params with Some r => JString r | None => JNull end.
Proof.
  intros Hm Hp Hn. cbn [archive node_archive]. unfold serve, tail_text.
  rewrite Unmarshal_Marshal.
  - cbn [text_member]. pose proof (judge_answer method method params) as H.
    destruct (answer method params) as [r|]; [by rewrite H|]. by destruct H as [e ->].
  - cbn. by rewrite Hm, Hp.
  - cbn [nesting map max_of fold_right text_member]. unfold max_depth. lia.
Qed.

Lemma normalizeHex_text b : normalizeHex ("0x" +:+ hex_encode b) = ("0x" +:+ hex_encode b)%string.
Proof.
  unfold normalizeHex. rewrite TrimSpace_all_visible.
  2: { rewrite all_chars_app. apply andb_true_iff. split; [reflexivity|apply hex_encode_visible]. }
  rewrite decide_False by done. change (hex_prefixed ("0x" +:+ hex_encode b)) with true. cbv iota.
  f_equal. apply substring_rest.
Qed.

Lemma fixed_tag_valid tag : requireFixedEVMBlockTag tag = Ok tt -> valid_utf8 tag = true.
Proof.
  unfold requireFixedEVMBlockTag. destruct (_ || _ || _ || _) eqn:E1; [done|].
  destruct (_ && _); [done|]. destruct (all_chars _ _) eqn:E2; [|done]. intros _.
  apply orb_false_iff in E1 as [E1 _]. apply orb_false_iff in E1 as [_ E1].
  apply negb_false_iff in E1. unfold HasPrefix in E1.
  destruct (cut_prefix "0x" tag) as [d|] eqn:Ec; [|done]. apply cut_prefix_spec in Ec as ->.
  apply visible_valid. change ("0x" +:+ d)%string with (String "0" (String "x" d)) in *.
  rewrite substring_rest in E2. cbn [all_chars]. eapply all_chars_impl in E2; [|apply lower_hex_visible].
  by rewrite E2.
Qed.

(** *** The core contract *)

Definition core_text : string := AddressHex core_at.

Definition refs_call (id : bytes) (cursor : Z) : bytes :=
  list_refs_selector ++ zero_bytes 1 ++ id ++ be_bytes 33 cursor ++ be_bytes 33 64.

Lemma pack_refs_call id cursor :
  length id = 32%nat -> 0 <= cursor < 2 ^ 256 ->
  suite_Pack coreMethods "listRefsPage" (VBytes32 id :: page_args cursor) = Ok (refs_call id cursor).
Proof.
  intros Hid Hc. unfold suite_Pack.
  change (suite_method_named coreMethods "listRefsPage") with
    (Some (mk_suite_method "listRefsPage" [TBytes32; TUint 256; TUint 256]
      [TSlice TString; TSlice ref_type; TUint 256])). cbv iota. cbn [sm_inputs].
  unfold abi_Pack, sample_geth, Pack, page_args.
  assert (have_types [TBytes32; TUint 256; TUint 256]
    [VBytes32 id; VUint cursor; VUint suiteQueryPageSize] = true) as ->.
  { cbn [have_types has_type]. rewrite Hid, (proj2 (Z.leb_le 0 cursor)), (proj2 (Z.ltb_lt _ _)) by lia.
    reflexivity. }
  cbn [put_all put]. rewrite app_nil_r. unfold refs_call. f_equal.
Qed.

Definition page_answer (id : bytes) (cursor : Z) : option string :=
  if bool_decide (id = demo_id) then
    if cursor =? 0 then Some first_page else if cursor =? 1 then Some last_page else None
  else None.

Lemma answer_refs id cursor tag :
  length id = 32%nat -> 0 <= cursor < 2 ^ 256 ->
  answer "eth_call" [JObject [text_member "to" core_text;
      text_member "data" ("0x" +:+ hex_encode (refs_call id cursor))]; JString tag] =
    page_answer id cursor.
Proof.
  intros Hid Hc. unfold answer, text_member. rewrite !decide_False by done.
  rewrite decodeHexBytes_text. unfold call_answer, refs_call.
  rewrite bool_decide_eq_true_2 by done. rewrite take_app_length' by done.
  rewrite bool_decide_eq_true_2 by done. cbn [andb].
  assert (drop 5 (list_refs_selector ++ zero_bytes 1 ++ id ++ be_bytes 33 cursor ++ be_bytes 33 64) =
    id ++ be_bytes 33 cursor ++ be_bytes 33 64) as ->.
  { rewrite (app_assoc list_refs_selector). by apply drop_app_length'. }
  unfold refs_answer. rewrite (take_app_length' id) by done. rewrite (drop_app_length' id) by done.
  rewrite take_app_length' by (by rewrite length_be_bytes). rewrite be_value_bytes; [done|].
  split; [lia|]. eapply Z.lt_trans; [apply Hc|]. done.
Qed.

Lemma core_call tag id cursor :
  requireFixedEVMBlockTag tag = Ok tt -> length id = 32%nat -> 0 <= cursor < 2 ^ 256 ->
  values_at (r := node_rpc) tag core_text coreMethods "listRefsPage" (VBytes32 id :: page_args cursor) =
    match page_answer id cursor with
    | Some page => let? out := decodeHexBytes page in suite_Unpack coreMethods "listRefsPage" out
    | None => errf "eth_call returned null result" []
    end.
Proof.
  intros Ht Hid Hc. unfold values_at. rewrite pack_refs_call by done.
  unfold call_at, archived_bytes. rewrite normalizeHex_text.
  assert (forall data, data <> ""%string -> call_json (mk_EVMCall "" core_text "" "" data) =
    JObject [text_member "to" core_text; text_member "data" data]) as Hj.
  { intros data Hd. unfold call_json, text_unless_empty. cbn [ec_Data]. by rewrite (decide_False (P := data = ""%string)). }
  rewrite Hj by done. rewrite archive_answer.
  - rewrite answer_refs by done. unfold page_answer.
    by destruct (bool_decide _), (cursor =? 0), (cursor =? 1).
  - done.
  - cbn [forallb json_ok text_member]. rewrite (fixed_tag_valid tag Ht), hex_text_valid. reflexivity.
  - cbn. lia.
Qed.

Definition node_start : evm := mk_evm tt 0 newEVMNonceManager [].
Definition node_verified : evm * result SuiteInfo :=
  VerifySuite (Some node_rpc) directory_text 1439 node_start.

(** The suite that it has. *)
Definition node_info : SuiteInfo := Eval vm_compute in
  match node_verified.2 with
  | Ok info => info
  | Err _ => mk_SuiteInfo "" 0 0 "" "" "" "" []
  end.
Lemma node_suite_accepted : node_verified.2 = Ok node_info.
Proof. vm_compute. reflexivity. Qed.

Definition node_registry : registry := mk_registry node_rpc 1439 directory_text None 0.

Lemma one_ref_pages cursor page next :
  0 <= cursor -> listRefsPage (Some one_ref) cursor suiteQueryPageSize = Ok (page, next) ->
  cursor = 0 /\ page = [("refs/heads/main"%string, main_ref)] /\ next = 1 \/
  cursor = 1 /\ page = [] /\ next = 1.
Proof.
  intros Hc. destruct (decide (cursor = 0)) as [->|]; [intros H; vm_compute in H; left; by simplify_eq|].
  destruct (decide (cursor = 1)) as [->|]; [intros H; vm_compute in H; right; by simplify_eq|].
  unfold listRefsPage. cbn [requireRepository].
  destruct (Z.ltb_spec (llen (refNames one_ref)) cursor); [done|].
  change (llen (refNames one_ref)) with 1 in *. lia.
Qed.

Lemma one_ref_errors cursor e :
  0 <= cursor -> listRefsPage (Some one_ref) cursor suiteQueryPageSize = Err e -> 1 < cursor.
Proof.
  intros Hc H. destruct (decide (cursor = 0)) as [->|]; [by vm_compute in H|].
  destruct (decide (cursor = 1)) as [->|]; [by vm_compute in H|lia].
Qed.

Lemma node_executes_core :
  executes_core (AR := node_archive) node_registry node_info account_of demo_tables.
Proof.
  split.
  - intros a. apply length_be_bytes.
  - done.
  - intros tag id t. unfold demo_tables. case_decide; [by intros [= <-]|done].
  - intros tag id cursor page next Ht Hid Hc H.
    change (ModuleAddress (Some node_info) "core") with core_text.
    unfold demo_tables in H. case_decide as Ei; [|done].
    apply one_ref_pages in H as [(-> & -> & ->)|(-> & -> & ->)]; [| |done];
      rewrite core_call by (done || lia); unfold page_answer; rewrite bool_decide_eq_true_2 by done;
      by vm_compute.
  - intros tag id cursor e Ht Hid Hc H.
    change (ModuleAddress (Some node_info) "core") with core_text. rewrite core_call by done.
    unfold demo_tables in H. unfold page_answer. case_decide as Ei.
    + apply one_ref_errors in H; [|lia]. rewrite bool_decide_eq_true_2 by done.
      destruct (Z.eqb_spec cursor 0), (Z.eqb_spec cursor 1); [lia..|]. by eexists.
    + rewrite bool_decide_eq_false_2 by done. by eexists.
Qed.

(** ** the suite client against the sample node

    The theorems about the suite client, applied to the node of [SuiteNode]: its
    hypotheses hold of a network that answers the texts of requests. *)

Import SampleGeth.


Lemma verified_suite_trusted_witness :
  exists block root coordinator,
    0 <= block < 2 ^ 64 /\ si_BlockTag node_info = block_tag block /\
    suite_trusted (r := node_rpc) directory_text 1439 node_info root coordinator.
Proof.
  apply (verified_suite_trusted directory_text 1439 node_start node_verified.1).
  change (node_verified = (node_verified.1, Ok node_info)).
  rewrite (surjective_pairing node_verified) at 1. by rewrite node_suite_accepted.
Defined.

(** What the node tells of itself, in any state. *)
Lemma node_quantity method value n s :
  judge_response method (fun v => decode_string v "") (serve (tail_text method [])) =
    Ok (Some value) -> blank_text value = false -> parseHexUint value = Ok n ->
  exists s', call_quantity node_rpc method [] s = (s', Ok n).
Proof.
  intros Hj Hb Hn.
  assert (forall s, exists s', Call node_rpc method [] (fun v => decode_string v "") s =
    (s', Ok (Some value))) as Hc.
  { clear s. intros s. eexists. unfold Call. rewrite decide_False by done. rewrite bind_run.
    unfold nextRequestID at 1. cbv beta iota zeta. unfold maxRPCAttempts. cbn [call_loop].
    rewrite bind_run. unfold attempt at 1.
    rewrite (callOnce_answered _ _ _ _ (ev_net s) (serve (tail_text method []))); [|done|].
    2: { cbn [http_do suite_transport msg_body call_message]. by rewrite without_id_request. }
    rewrite Hj. reflexivity. }
  destruct (Hc s) as [s' E]. exists s'. unfold call_quantity, call_string.
  rewrite bind_run, bind_run, E.
  change (mret (M := prog evm) (default ""%string (Some value)) s') with (s', Ok value).
  cbv beta iota. by rewrite Hb, Hn.
Qed.

Lemma verification_exact_witness :
  (exists s', VerifySuite (Some node_rpc) directory_text 1439 node_start = (s', Ok node_info)) <->
  si_ChainID node_info = 1439 /\ si_BlockTag node_info = block_tag 16 /\
  exists root coordinator,
    suite_trusted (r := node_rpc) directory_text 1439 node_info root coordinator.
Proof.
  apply (verification_exact directory_text 1439 1439 16 node_start node_info).
  - intros s. by apply (node_quantity "eth_chainId" "0x59f").
  - intros s. by apply (node_quantity "eth_blockNumber" "0x10").
Defined.

(** A client of the node that has verified the suite, and some of its work. *)
Definition verified_client : suite := mk_suite node_verified.1 (Some node_info).
Definition some_operations : list operation :=
  [op_ListRefs "0x00000000000000000000000000000000000000e0" "demo";
   op_RegisterUsername "alice"; op_ModerationReport 1]%string.

Lemma verified_registry_confined_witness :
  su_info (run_session node_registry some_operations verified_client) = Some node_info /\
  exists new,
    ev_sent (su_evm (run_session node_registry some_operations verified_client)) =
      ev_sent (su_evm verified_client) ++ new /\
    Forall (permitted node_registry node_info) new.
Proof. by apply (verified_registry_confined node_registry node_info). Defined.

Lemma list_refs_snapshot_witness :
  (forall owner repo s s' l, su_info s = Some node_info ->
     ListRefs_suite node_registry owner repo s = (s', Ok l) ->
     exists block resolved table s1 s2, 0 <= block < 2 ^ 64 /\
       resolveRepoAt node_registry owner repo (block_tag block) s1 = (s2, Ok resolved) /\
       demo_tables (block_tag block) (rs_RepoID resolved) = Some table /\
       l = map (ref_info account_of) (named_refs table)) /\
  exists s', refs_at node_registry demo_id (block_tag 16) verified_client =
    (s', Ok [mk_RefInfo "refs/heads/main" "0123456789abcdef0123456789abcdef01234567" ["ipfs://bafy"%string]
               7 (encodeBech32Address "inj" (nth_address 0xe0))]).
Proof.
  destruct (list_refs_snapshot node_registry node_info account_of demo_tables node_executes_core)
    as [Hlist Hread].
  split; [exact Hlist|].
  exact (Hread node_reliable 16 demo_id one_ref verified_client ltac:(lia) eq_refl eq_refl
    eq_refl).
Defined.

Lemma locator_ids_unique : locator_id_unique.
Proof.
  unfold locator_id_unique. cbn [app directoryErrors suiteCoordinatorErrors coreErrors].
  repeat (apply Forall_cons_2;
    [intros H; first [reflexivity | exfalso; vm_compute in H; discriminate H]|]).
  constructor.
Qed.

(** The contract's answer to a call for a repository that does not exist. *)
Definition some_owner : bytes := nth_address 0xe0.
Definition locator_arguments : bytes :=
  match abi_Pack [TAddress; TString] [VAddress some_owner; VString "demo"] with
  | Ok arguments => arguments
  | Err _ => []
  end.
Definition locator_revert : string :=
  "0x" +:+ hex_encode (error_id locator_error ++ locator_arguments).

Lemma locator_revert_recognised_witness :
  wrapEVMRPCError (RPCError "eth_call" 3 "execution reverted" locator_revert) =
    EVMContractRevertError (RPCError "eth_call" 3 "execution reverted" locator_revert)
      (LocatorNotFoundError (encodeBech32Address "inj" some_owner) "demo").
Proof.
  apply (locator_revert_recognised "eth_call" "execution reverted" some_owner "demo"
    locator_arguments).
  - apply locator_ids_unique.
  - reflexivity.
  - reflexivity.
  - reflexivity.
Defined.
