(* ===== verification/Paths.v ===== *)
(** * Paths: [path/filepath] on Unix

    A path stands for its segments: [Clean], [Join], [Dir] and [Base] of the
    package, and the key of a path under which the file system of [FileSystem]
    keeps a file. *)
From Stdlib Require Import ZArith Lia Ascii String.
From stdpp Require Import base list strings option.
From S2P Require Import Prelude GoText.

Local Open Scope Z_scope.

(** One segment of a path after those on the stack, the last one first. *)
Definition path_step (rooted : bool) (stack : list string) (segment : string) : list string :=
  if bool_decide (segment = ""%string) || bool_decide (segment = "."%string) then stack
  else if decide (segment = ".."%string) then
    match stack with
    | top :: stack' =>
        if decide (top = ".."%string) then segment :: stack else stack'
    | [] => if rooted then [] else [segment]
    end
  else segment :: stack.

(** What a path names: whether it starts at the root, and its segments. *)
Definition path_key (path : string) : bool * list string :=
  let rooted := HasPrefix path "/" in
  (rooted, rev (fold_left (path_step rooted) (Split path "/") [])).

Definition key_text (key : bool * list string) : string :=
  (if fst key then "/" else "") +:+ Join (snd key) "/".

Definition Clean (path : string) : string :=
  let text := key_text (path_key path) in
  if decide (text = ""%string) then "." else text.

(** [filepath.Join] of two elements. *)
Definition filepath_Join (first second : string) : string :=
  if decide (first = ""%string)
  then if decide (second = ""%string) then "" else Clean second
  else if decide (second = ""%string) then Clean (first +:+ "/") else Clean (first +:+ "/" +:+ second).

(** A path up to its last separator and what follows. *)
Fixpoint split_last (path : string) : string * string :=
  match path with
  | EmptyString => ("", "")%string
  | String c path' =>
      let '(directory, file) := split_last path' in
      if decide (directory = ""%string) then
        if is_char "/" c then ("/"%string, file) else (""%string, String c file)
      else (String c directory, file)
  end.

Definition filepath_Dir (path : string) : string := Clean (split_last path).1.

Definition filepath_Base (path : string) : string :=
  if decide (path = ""%string) then "."
  else
    let last := (split_last (TrimRight path "/")).2 in
    if decide (last = ""%string) then "/" else last.

(** ** Lemmas: splitting *)

(** A segment that names something below its directory. *)
Definition plain_segment (segment : string) : bool :=
  without "/" segment && negb (bool_decide (segment = ""%string)) &&
  negb (bool_decide (segment = "."%string)) && negb (bool_decide (segment = ".."%string)).

Lemma Split_nonempty s sep : Split s sep <> [].
Proof. destruct s as [|c s]; cbn [Split]; [done|]. case_decide; [done|]. by destruct (Split s sep). Qed.

Lemma Split_last a b sep :
  without sep b = true -> Split (a +:+ String sep b) sep = Split a sep ++ [b].
Proof.
  intros Hb. induction a as [|c a IH]; str_simpl.
  - rewrite decide_True by done. by rewrite Split_without.
  - rewrite IH. destruct (decide (c = sep)); [done|].
    destruct (Split a sep) eqn:E; [by apply Split_nonempty in E|done].
Qed.

Lemma Split_Join segments sep :
  segments <> [] -> Forall (fun s => without sep s = true) segments ->
  Split (Join segments (str1 sep)) sep = segments.
Proof.
  induction segments as [|s [|t segments] IH]; [done| |]; intros _ Hs; inversion_clear Hs as [|?? H1 H2].
  - by apply Split_without.
  - change (Join (s :: t :: segments) (str1 sep)) with
      (s +:+ str1 sep +:+ Join (t :: segments) (str1 sep))%string.
    change (str1 sep +:+ ?x)%string with (String sep x). rewrite Split_app by done. by rewrite IH.
Qed.

(** ** Keys *)

(** What is left on the stack: names, and steps up before them in a path that
    does not start at the root. *)
Definition normal_segments (rooted : bool) (segments : list string) : Prop :=
  exists (ups : nat) (names : list string),
    segments = replicate ups ".."%string ++ names /\
    Forall (fun s => plain_segment s = true) names /\ (rooted = true -> ups = 0%nat).

Lemma step_plain rooted stack s : plain_segment s = true -> path_step rooted stack s = s :: stack.
Proof.
  unfold plain_segment, path_step. rewrite !andb_true_iff, !negb_true_iff.
  intros [[[_ ->] ->] H]. apply bool_decide_eq_false in H. by rewrite decide_False.
Qed.

Lemma plain_without s : plain_segment s = true -> without "/" s = true.
Proof. unfold plain_segment. rewrite !andb_true_iff. tauto. Qed.

Lemma rev_replicate {A} n (x : A) : rev (replicate n x) = replicate n x.
Proof. rewrite rev_alt. apply reverse_replicate. Qed.

Lemma step_normal rooted segments s :
  without "/" s = true -> normal_segments rooted segments ->
  exists segments', path_step rooted (rev segments) s = rev segments' /\
    normal_segments rooted segments'.
Proof.
  intros Hs (ups & names & -> & Hn & Hr). unfold path_step.
  destruct (bool_decide (s = "")) eqn:E1; [by eexists; split; [|by exists ups, names]|].
  destruct (bool_decide (s = ".")) eqn:E2; [by eexists; split; [|by exists ups, names]|]. cbn [orb].
  destruct (decide (s = "..")) as [->|E3].
  - rewrite rev_app_distr. destruct names as [|x names _] using rev_ind.
    + cbn [rev app]. rewrite rev_replicate. destruct ups as [|ups]; cbn [replicate].
      * destruct rooted.
        -- exists []. split; [done|]. by exists 0%nat, [].
        -- exists [".."%string]. split; [done|]. by exists 1%nat, [].
      * rewrite decide_True by done. exists (replicate (S (S ups)) ".."%string).
        split; [by rewrite rev_replicate|]. exists (S (S ups)), []. rewrite app_nil_r. split_and!; [done..|].
        intros H. by specialize (Hr H).
    + rewrite rev_app_distr. cbn [rev app]. apply Forall_app in Hn as [Hn Hx].
      inversion_clear Hx as [|?? Hx' _]. rewrite decide_False by (by intros ->).
      exists (replicate ups ".."%string ++ names). split; [by rewrite rev_app_distr|].
      by exists ups, names.
  - exists (replicate ups ".."%string ++ (names ++ [s])). split.
    + by rewrite app_assoc, (rev_app_distr _ [s]).
    + exists ups, (names ++ [s]). split_and!; [done| |done]. apply Forall_app. split; [done|].
      constructor; [|done]. unfold plain_segment. rewrite Hs, E1, E2. cbn.
      by rewrite bool_decide_eq_false_2.
Qed.

Lemma fold_normal rooted l segments :
  Forall (fun s => without "/" s = true) l -> normal_segments rooted segments ->
  exists segments', fold_left (path_step rooted) l (rev segments) = rev segments' /\
    normal_segments rooted segments'.
Proof.
  revert segments. induction l as [|s l IH]; intros segments Hl Hn; [by exists segments|].
  inversion_clear Hl as [|?? Hs Hl']. destruct (step_normal rooted segments s Hs Hn) as (t & E & Ht).
  cbn [fold_left]. rewrite E. by apply IH.
Qed.

Lemma path_key_normal path : normal_segments (path_key path).1 (path_key path).2.
Proof.
  unfold path_key. cbn [fst snd].
  destruct (fold_normal (HasPrefix path "/") (Split path "/") []) as (t & E & Ht).
  - apply Split_parts_without.
  - by exists 0%nat, [].
  - change (@nil string) with (rev (@nil string)). rewrite E. by rewrite List.rev_involutive.
Qed.

(** Normal segments are left as they are. *)
Lemma fold_ups rooted n stack :
  rooted = false \/ n = 0%nat -> Forall (fun s => s = ".."%string) stack ->
  fold_left (path_step rooted) (replicate n ".."%string) stack = replicate n ".."%string ++ stack.
Proof.
  revert stack. induction n as [|n IH]; intros stack Hr Hs; [done|]. cbn [replicate fold_left].
  assert (path_step rooted stack ".." = ".."%string :: stack) as ->.
  { unfold path_step. cbn. destruct Hs as [|? ? -> _]; [by destruct Hr as [->|]|done]. }
  rewrite IH; [|destruct Hr; [by left|done]|by constructor].
  by rewrite replicate_cons_app, <- app_assoc.
Qed.

Lemma fold_plain rooted names stack :
  Forall (fun s => plain_segment s = true) names ->
  fold_left (path_step rooted) names stack = rev names ++ stack.
Proof.
  intros Hn. revert stack. induction Hn as [|s names Hs _ IH]; intros stack; [done|].
  cbn [fold_left rev]. by rewrite step_plain, IH, <- app_assoc.
Qed.

Lemma fold_normal_id rooted segments :
  normal_segments rooted segments -> fold_left (path_step rooted) segments [] = rev segments.
Proof.
  intros (ups & names & -> & Hn & Hr). rewrite fold_left_app, fold_ups; [|destruct rooted; auto|done].
  by rewrite app_nil_r, fold_plain, rev_app_distr, rev_replicate.
Qed.

Lemma normal_without rooted segments :
  normal_segments rooted segments -> Forall (fun s => without "/" s = true) segments.
Proof.
  intros (ups & names & -> & Hn & _). apply Forall_app. split; [by apply Forall_replicate|].
  eapply List.Forall_impl; [|exact Hn]. apply plain_without.
Qed.

Lemma normal_head rooted s segments : normal_segments rooted (s :: segments) -> s <> ""%string.
Proof.
  intros (ups & names & E & Hp & _). destruct ups as [|ups]; [|by injection E as -> _].
  destruct names; [done|]. injection E as -> _. inversion_clear Hp as [|?? Hp' _]. by intros ->.
Qed.

(** *** Cleaning *)

Lemma HasPrefix_slash c s : HasPrefix (String c s) "/" = is_char "/" c.
Proof.
  unfold HasPrefix. cbn [cut_prefix]. destruct (is_char "/" c) eqn:E.
  - apply is_char_spec in E as ->. by rewrite decide_True.
  - apply is_char_false in E. by rewrite decide_False by congruence.
Qed.

Lemma Join_first s segments :
  exists rest, Join (s :: segments) "/" = (s +:+ rest)%string.
Proof. destruct segments as [|t l]; [exists ""%string; by rewrite str_app_nil|by eexists]. Qed.

(** The text of normal segments names them. *)
Lemma path_key_text rooted segments :
  normal_segments rooted segments -> key_text (rooted, segments) <> ""%string ->
  path_key (key_text (rooted, segments)) = (rooted, segments).
Proof.
  intros Hn Hne. pose proof (fold_normal_id _ _ Hn) as Hf. pose proof (normal_without _ _ Hn) as Hw.
  unfold key_text in *. cbn [fst snd] in *. unfold path_key.
  destruct segments as [|s segments].
  { destruct rooted; [done|]. by destruct Hne. }
  assert (Split (Join (s :: segments) "/") "/" = s :: segments) as HS by (by apply Split_Join).
  destruct rooted.
  - change ("/" +:+ ?t)%string with (String "/" t) in *. rewrite HasPrefix_slash.
    change (is_char "/" "/") with true. cbn [Split]. rewrite decide_True, HS by done.
    cbn [fold_left]. change (path_step true [] "") with (@nil string).
    cbn [fold_left] in Hf. by rewrite Hf, List.rev_involutive.
  - rewrite str_nil_app, HS.
    assert (HasPrefix (Join (s :: segments) "/") "/" = false) as ->;
      [|by rewrite Hf, List.rev_involutive].
    pose proof (normal_head _ _ _ Hn) as Hs.
    destruct (Join_first s segments) as [rest ->]. inversion_clear Hw as [|?? Hw' _].
    destruct s as [|c s]; [done|]. rewrite str_cons_app, HasPrefix_slash.
    rewrite without_cons in Hw'. by destruct (is_char "/" c).
Qed.

Lemma path_key_Clean path : path_key (Clean path) = path_key path.
Proof.
  unfold Clean. pose proof (path_key_normal path) as Hn. destruct (path_key path) as [rooted segments].
  destruct (decide _) as [E|E]; [|by apply path_key_text].
  destruct rooted; [done|]. destruct segments as [|s segments]; [done|].
  exfalso. destruct (Join_first s segments) as [rest Ej]. unfold key_text in E. cbn [fst snd] in E.
  rewrite str_nil_app, Ej in E. apply normal_head in Hn. by destruct s.
Qed.

(** A name below a directory. *)
Lemma path_key_child directory name :
  directory <> ""%string -> plain_segment name = true ->
  path_key (directory +:+ "/" +:+ name) =
    ((path_key directory).1, (path_key directory).2 ++ [name]).
Proof.
  intros Hd Hn. unfold path_key. cbn [fst snd].
  change ("/" +:+ name)%string with (String "/" name).
  rewrite Split_last, fold_left_app by (by apply plain_without). cbn [fold_left].
  destruct directory as [|c d]; [done|]. rewrite str_cons_app, !HasPrefix_slash.
  rewrite step_plain by done. cbn [rev]. done.
Qed.

Lemma path_key_slash directory :
  directory <> ""%string -> path_key (directory +:+ "/") = path_key directory.
Proof.
  intros Hd. unfold path_key. change (directory +:+ "/")%string with (directory +:+ String "/" "")%string.
  rewrite Split_last, fold_left_app by done. cbn [fold_left].
  destruct directory as [|c d]; [done|]. by rewrite str_cons_app, !HasPrefix_slash.
Qed.

(** *** The last segment *)

Lemma split_last_name name : without "/" name = true -> split_last name = (""%string, name).
Proof.
  induction name as [|c t IH]; [done|]. rewrite without_cons. intros [Hc Ht]%andb_true_iff.
  cbn [split_last]. rewrite IH by done. cbn. by rewrite <- (negb_involutive (is_char _ _)), Hc.
Qed.

Lemma split_last_app a b : without "/" b = true -> split_last (a +:+ String "/" b) = (a +:+ "/", b)%string.
Proof.
  intros Hb. induction a as [|c a IH].
  - rewrite str_nil_app. cbn [split_last]. by rewrite split_last_name.
  - rewrite str_cons_app. cbn [split_last]. rewrite IH. rewrite decide_False; [done|]. by destruct a.
Qed.

Lemma plain_text name : plain_segment name = true -> name <> ""%string.
Proof. by intros H ->. Qed.

Lemma TrimRight_plain a name :
  plain_segment name = true -> TrimRight (a +:+ name) "/" = (a +:+ name)%string.
Proof.
  intros Hn. unfold TrimRight, trim_char_right. rewrite rev_append.
  destruct (String.rev name) as [|c r] eqn:E.
  - exfalso. apply (plain_text name); [done|]. rewrite <- (rev_involutive name), E. done.
  - rewrite str_cons_app. cbn [trim_char_left].
    assert (without "/" (String c r) = true) as Hw by (rewrite <- E, without_rev; by apply plain_without).
    rewrite without_cons in Hw. apply andb_true_iff in Hw as [Hc _]. apply negb_true_iff, is_char_false in Hc.
    rewrite decide_False by done. rewrite <- str_cons_app, <- E, <- rev_append. apply rev_involutive.
Qed.

(** A file of a directory. *)
Lemma Join_key directory name :
  directory <> ""%string -> plain_segment name = true ->
  path_key (filepath_Join directory name) =
    ((path_key directory).1, (path_key directory).2 ++ [name]).
Proof.
  intros Hd Hn. unfold filepath_Join. rewrite !decide_False by (done || by apply plain_text).
  rewrite path_key_Clean. by apply path_key_child.
Qed.

Lemma Join_snoc parent name :
  parent <> [] -> Join (parent ++ [name]) "/" = (Join parent "/" +:+ "/" +:+ name)%string.
Proof.
  induction parent as [|s [|t parent] IH]; [done|done|]. intros _.
  change (Join ((s :: t :: parent) ++ [name]) "/") with
    (s +:+ "/" +:+ Join ((t :: parent) ++ [name]) "/")%string.
  rewrite IH by done. change (Join (s :: t :: parent) "/") with (s +:+ "/" +:+ Join (t :: parent) "/")%string.
  by rewrite !str_app_assoc.
Qed.

Lemma normal_parent rooted parent name :
  plain_segment name = true -> normal_segments rooted (parent ++ [name]) ->
  normal_segments rooted parent.
Proof.
  intros Hp (ups & names & E & Hn & Hr). destruct names as [|x names _] using rev_ind.
  - rewrite app_nil_r in E. destruct ups as [|ups]; [by destruct parent|].
    cbn [replicate] in E. rewrite replicate_cons_app in E. by apply app_inj_tail in E as [_ ->].
  - rewrite app_assoc in E. apply app_inj_tail in E as [-> _]. apply Forall_app in Hn as [Hn _].
    by exists ups, names.
Qed.

(** The text of a clean path splits before its last name. *)
Lemma Clean_split path rooted parent name :
  path_key path = (rooted, parent ++ [name]) -> plain_segment name = true ->
  exists before, Clean path = (before +:+ name)%string /\ path_key before = (rooted, parent) /\
    (before = ""%string \/ exists directory, before = (directory +:+ "/")%string).
Proof.
  intros Hk Hp. pose proof (path_key_normal path) as Hn. unfold Clean. rewrite Hk in *. cbn [fst snd] in Hn.
  pose proof (normal_parent _ _ _ Hp Hn) as Hn'.
  destruct (decide (parent = [])) as [->|Hne].
  - destruct rooted.
    + rewrite decide_False by done. exists "/"%string. split_and!; [done|done|right; by exists ""%string].
    + change (key_text (false, [] ++ [name])) with name.
      rewrite decide_False by (by apply plain_text). exists ""%string. split_and!; auto.
  - assert (key_text (rooted, parent ++ [name]) =
      ((key_text (rooted, parent) +:+ "/") +:+ name)%string) as ->.
    { unfold key_text. cbn [fst snd]. by rewrite Join_snoc, !str_app_assoc. }
    assert (key_text (rooted, parent) <> ""%string) as Ht.
    { unfold key_text. cbn [fst snd]. destruct rooted; [done|]. rewrite str_nil_app.
      destruct parent as [|s parent]; [done|]. destruct (Join_first s parent) as [rest ->].
      apply normal_head in Hn'. by destruct s. }
    exists (key_text (rooted, parent) +:+ "/")%string. rewrite path_key_slash, path_key_text by done.
    split_and!; [|done|right; eauto]. rewrite decide_False; [done|].
    by destruct (key_text (rooted, parent)).
Qed.

Lemma Clean_file path rooted parent name :
  path_key path = (rooted, parent ++ [name]) -> plain_segment name = true ->
  filepath_Base (Clean path) = name /\ path_key (filepath_Dir (Clean path)) = (rooted, parent).
Proof.
  intros Hk Hp. destruct (Clean_split _ _ _ _ Hk Hp) as (before & E & Hb & Hs). rewrite E.
  assert (split_last (before +:+ name) = (before, name)) as Hl.
  { destruct Hs as [->|[d ->]]; [apply split_last_name; by apply plain_without|].
    rewrite str_app_assoc. apply split_last_app. by apply plain_without. }
  pose proof (plain_text _ Hp) as Ht. split.
  - unfold filepath_Base. rewrite decide_False by (by destruct before).
    rewrite TrimRight_plain, Hl by done. by rewrite decide_False.
  - unfold filepath_Dir. by rewrite Hl, path_key_Clean.
Qed.
