(* ===== verification/FileSystem.v ===== *)
(** * FileSystem: the [os] package on a disk that may fail

    A table of names and inodes, the contents of files, and what a call may run
    into: an error of the system or the end of the process.  The table as it
    was before each change is kept, since a loss of power may bring any of
    them back; the bytes of a file are safe from it once they are synced. *)
From Stdlib Require Import ZArith Lia Ascii String.
From stdpp Require Import base list gmap strings option.
From S2P Require Import Prelude GoText Prog Paths.

Local Open Scope Z_scope.

(** ** The disk *)

(** A link, a device or a socket is [KOther]: the program only looks at one,
    and [directory] tells what it sees through it. *)
Inductive kind : Type := KFile | KDirectory | KOther (directory : bool).

#[export] Instance kind_eq_dec : EqDecision kind.
Proof. solve_decision. Defined.

Record inode := mk_inode { in_kind : kind; in_mode : Z }.

Notation key := (bool * list string)%type.

(** Permissions: [0o600] and [0o700]. *)
Definition mode_0600 : Z := 6 * 8 * 8.
Definition mode_0700 : Z := 7 * 8 * 8.

(** Names and inodes: what the file system writes as one transaction. *)
Record table := mk_table { tb_names : gmap key Z; tb_inodes : gmap Z inode }.

(** The bytes of a file: those a loss of power leaves, and those written after
    the file was last synced.  [ct_cut]: it was truncated since, and then a loss
    of power may leave the bytes of before. *)
Record contents := mk_cut_contents { ct_safe : string; ct_recent : string; ct_cut : bool }.
Definition mk_contents (safe recent : string) : contents := mk_cut_contents safe recent false.
Definition ct_text (c : contents) : string := ct_safe c +:+ ct_recent c.

(** What the next call runs into.  A write that fails or is cut off has
    written a part of its bytes. *)
Inductive fault : Type := Works | Fails (written : nat) | Stops (written : nat).

Record disk := mk_disk {
  dk_table : table;
  dk_earlier : list table;
  dk_contents : gmap Z contents;
  dk_next : Z;
  dk_umask : Z;
  dk_random : list Z;
  dk_faults : list fault;
  dk_stopped : bool }.

Definition with_table (t : table) (d : disk) : disk :=
  mk_disk t (dk_table d :: dk_earlier d) (dk_contents d) (dk_next d) (dk_umask d) (dk_random d)
    (dk_faults d) (dk_stopped d).
Definition with_contents (c : gmap Z contents) (d : disk) : disk :=
  mk_disk (dk_table d) (dk_earlier d) c (dk_next d) (dk_umask d) (dk_random d) (dk_faults d)
    (dk_stopped d).
Definition with_next (n : Z) (d : disk) : disk :=
  mk_disk (dk_table d) (dk_earlier d) (dk_contents d) n (dk_umask d) (dk_random d) (dk_faults d)
    (dk_stopped d).
Definition with_random (r : list Z) (d : disk) : disk :=
  mk_disk (dk_table d) (dk_earlier d) (dk_contents d) (dk_next d) (dk_umask d) r (dk_faults d)
    (dk_stopped d).
Definition with_faults (f : list fault) (stopped : bool) (d : disk) : disk :=
  mk_disk (dk_table d) (dk_earlier d) (dk_contents d) (dk_next d) (dk_umask d) (dk_random d) f
    stopped.

Definition inode_at (t : table) (k : key) : option (Z * inode) :=
  i ← tb_names t !! k; (fun n => (i, n)) <$> tb_inodes t !! i.

Definition bind_name (k : key) (i : Z) (t : table) : table :=
  mk_table (<[k := i]> (tb_names t)) (tb_inodes t).
Definition drop_name (k : key) (t : table) : table :=
  mk_table (delete k (tb_names t)) (tb_inodes t).
Definition set_inode (i : Z) (n : inode) (t : table) : table :=
  mk_table (tb_names t) (<[i := n]> (tb_inodes t)).

(** ** Calls *)

Definition path_error {A} (op path text : string) : result A :=
  errf "%s %s: %s" [GStr op; GStr path; GStr text].
(** An error for which [errors.Is(err, os.ErrNotExist)] or
    [errors.Is(err, os.ErrExist)] holds. *)
Definition absent_error {A} (op path : string) : result A :=
  Err (Typed "ErrNotExist" (Errorf "%s %s: no such file or directory" [GStr op; GStr path])).
Definition exist_error {A} (op path : string) : result A :=
  Err (Typed "ErrExist" (Errorf "%s %s: file exists" [GStr op; GStr path])).
Definition IsNotExist (e : goerror) : bool := bool_decide (is_Some (errors_As "ErrNotExist" e)).
Definition IsExist (e : goerror) : bool := bool_decide (is_Some (errors_As "ErrExist" e)).

(** One call of the system: nothing happens once the process has ended. *)
Definition syscall {A} (op path : string) (partly : nat -> disk -> disk) (call : prog disk A)
  : prog disk A := fun d =>
  if dk_stopped d then (d, errf "process ended" [])
  else match dk_faults d with
       | [] => call d
       | Works :: faults => call (with_faults faults false d)
       | Fails n :: faults =>
           (partly n (with_faults faults false d), path_error op path "input/output error")
       | Stops n :: faults => (partly n (with_faults faults true d), errf "process ended" [])
       end.

Definition nothing (n : nat) (d : disk) : disk := d.

(** A name that is not there, or that something other than a directory is
    in the way of. *)
Definition blocks (n : inode) : bool :=
  match in_kind n with KFile | KOther false => true | KDirectory | KOther true => false end.
Definition blocked (t : table) (k : key) : bool :=
  existsb (fun l => match inode_at t (fst k, take l (snd k)) with
                    | Some (_, n) => blocks n
                    | None => false
                    end) (seq 0 (length (snd k))).
Definition missing {A} (op path : string) (t : table) : result A :=
  if blocked t (path_key path) then path_error op path "not a directory" else absent_error op path.

Definition Lstat (path : string) : prog disk inode :=
  syscall "lstat" path nothing (fun d =>
    match inode_at (dk_table d) (path_key path) with
    | Some (_, n) => (d, Ok n)
    | None => (d, missing "lstat" path (dk_table d))
    end).

(** [FileInfo.Mode().IsRegular()] and [FileInfo.IsDir()] *)
Definition IsRegular (n : inode) : bool := bool_decide (in_kind n = KFile).
Definition IsDir (n : inode) : bool := bool_decide (in_kind n = KDirectory).

(** [Chmod] of what is not a link. *)
Definition Chmod (path : string) (mode : Z) : prog disk unit :=
  syscall "chmod" path nothing (fun d =>
    match inode_at (dk_table d) (path_key path) with
    | Some (i, n) => (with_table (set_inode i (mk_inode (in_kind n) mode) (dk_table d)) d, Ok tt)
    | None => (d, missing "chmod" path (dk_table d))
    end).

(** [ReadFile] of what is not a link or a device. *)
Definition ReadFile (path : string) : prog disk string :=
  syscall "open" path nothing (fun d =>
    match inode_at (dk_table d) (path_key path) with
    | Some (i, n) =>
        if IsRegular n then (d, Ok (default "" (ct_text <$> dk_contents d !! i)))
        else (d, path_error "read" path "is a directory")
    | None => (d, missing "open" path (dk_table d))
    end).

(** The directory that holds a name; the root and the working directory are
    their own. *)
Definition parent_key (k : key) : key := (fst k, removelast (snd k)).

Definition is_directory (t : table) (k : key) : bool :=
  match inode_at t k with Some (_, n) => IsDir n | None => false end.

(** A new inode under a new name. *)
Definition create (k : key) (n : inode) (d : disk) : disk :=
  with_next (dk_next d + 1)
    (with_contents (<[dk_next d := mk_contents "" ""]> (dk_contents d))
       (with_table (bind_name k (dk_next d) (set_inode (dk_next d) n (dk_table d))) d)).

Definition without_umask (d : disk) (mode : Z) : Z := Z.ldiff mode (dk_umask d).

(** The system's [mkdir] and [open] with [O_CREAT|O_EXCL]. *)
Definition make (op : string) (what : kind) (path : string) (mode : Z) : prog disk Z :=
  syscall op path nothing (fun d =>
    let k := path_key path in
    match tb_names (dk_table d) !! k with
    | Some _ => (d, exist_error op path)
    | None =>
        if is_directory (dk_table d) (parent_key k)
        then (create k (mk_inode what (without_umask d mode)) d, Ok (dk_next d))
        else (d, missing op path (dk_table d))
    end).

(** [os.Stat]: through a link, only whether there is a directory. *)
Definition Stat_IsDir (path : string) : prog disk bool :=
  syscall "stat" path nothing (fun d =>
    match inode_at (dk_table d) (path_key path) with
    | Some (_, n) =>
        (d, Ok match in_kind n with
               | KFile => false | KDirectory => true | KOther directory => directory
               end)
    | None => (d, missing "stat" path (dk_table d))
    end).

(** [os.MkdirAll], from the last segment of the path. *)
Fixpoint mkdir_all (rooted : bool) (reversed : list string) (mode : Z) : prog disk unit :=
  let path := key_text (rooted, rev reversed) in
  present ← attempt (Stat_IsDir path);
  match present with
  | Ok true => mret tt
  | Ok false => fail (Errorf "mkdir %s: not a directory" [GStr path])
  | Err _ =>
      (match reversed with
       | _ :: parent => match parent with [] => mret tt | _ => mkdir_all rooted parent mode end
       | [] => mret tt
       end) ;;
      made ← attempt (make "mkdir" KDirectory path mode);
      match made with
      | Ok _ => mret tt
      | Err e =>
          info ← attempt (Lstat path);
          match info with
          | Ok n => if IsDir n then mret tt else fail e
          | Err _ => fail e
          end
      end
  end.
Definition MkdirAll (path : string) (mode : Z) : prog disk unit :=
  mkdir_all (path_key path).1 (rev (path_key path).2) mode.

(** ** Open files *)

Record file := mk_file { fl_inode : Z; fl_name : string }.

Definition append (i : Z) (data : string) (d : disk) : disk :=
  with_contents
    (<[i := match dk_contents d !! i with
            | Some c => mk_cut_contents (ct_safe c) (ct_recent c +:+ data) (ct_cut c)
            | None => mk_contents "" data
            end]> (dk_contents d)) d.

(** [file.Write] by the only writer of the file. *)
Definition Write (f : file) (data : string) : prog disk unit :=
  syscall "write" (fl_name f) (fun n => append (fl_inode f) (String.substring 0 n data))
    (fun d => (append (fl_inode f) data d, Ok tt)).

Definition Sync (f : file) : prog disk unit :=
  syscall "sync" (fl_name f) nothing (fun d =>
    (with_contents
       (alter (fun c => mk_contents (ct_text c) "") (fl_inode f) (dk_contents d)) d, Ok tt)).

Definition Close (f : file) : prog disk unit :=
  syscall "close" (fl_name f) nothing (fun d => (d, Ok tt)).

(** [file.Truncate(0)], and [file.Seek(0, 0)] after it: what is written next
    starts the file. *)
Definition Truncate (f : file) : prog disk unit :=
  syscall "truncate" (fl_name f) nothing (fun d =>
    (with_contents (<[fl_inode f := mk_cut_contents "" "" true]> (dk_contents d)) d, Ok tt)).

Definition Seek (f : file) : prog disk unit :=
  syscall "seek" (fl_name f) nothing (fun d => (d, Ok tt)).

(** [os.Open] for reading. *)
Definition Open (path : string) : prog disk file :=
  syscall "open" path nothing (fun d =>
    match inode_at (dk_table d) (path_key path) with
    | Some (i, _) => (d, Ok (mk_file i path))
    | None => (d, missing "open" path (dk_table d))
    end).

(** [os.OpenFile] with [O_WRONLY|O_CREATE|O_EXCL]. *)
Definition OpenNew (path : string) (mode : Z) : prog disk file :=
  i ← make "open" KFile path mode;
  mret (mk_file i path).

(** [os.OpenFile] with [O_CREATE|O_APPEND|O_WRONLY] of what is not a link or a
    device. *)
Definition OpenAppend (path : string) (mode : Z) : prog disk file :=
  syscall "open" path nothing (fun d =>
    let k := path_key path in
    match inode_at (dk_table d) k with
    | Some (i, n) =>
        if IsRegular n then (d, Ok (mk_file i path)) else (d, path_error "open" path "is a directory")
    | None =>
        if is_directory (dk_table d) (parent_key k)
        then (create k (mk_inode KFile (without_umask d mode)) d, Ok (mk_file (dk_next d) path))
        else (d, missing "open" path (dk_table d))
    end).

(** Reading an open file to its end: the bytes, and the error that broke it
    off. *)
Definition ReadAll (f : file) : prog disk (string * option goerror) := fun d =>
  let text := default "" (ct_text <$> dk_contents d !! fl_inode f) in
  let all := match tb_inodes (dk_table d) !! fl_inode f with
             | Some n => if IsRegular n then (text, None)
                         else (""%string, Some (Errorf "read %s: is a directory" [GStr (fl_name f)]))
             | None => (text, None)
             end in
  if dk_stopped d then (d, errf "process ended" [])
  else match dk_faults d with
       | [] => (d, Ok all)
       | Works :: faults => (with_faults faults false d, Ok all)
       | Fails n :: faults =>
           (with_faults faults false d,
            Ok (String.substring 0 n text, Some (Errorf "read %s: input/output error" [GStr (fl_name f)])))
       | Stops _ :: faults => (with_faults faults true d, errf "process ended" [])
       end.

(** [os.CreateTemp]: the pattern's last [*] is replaced by a random number
    until the name is free. *)
Definition next_random (d : disk) : disk * Z :=
  match dk_random d with
  | [] => (d, 0)
  | r :: random => (with_random random d, r mod 2 ^ 32)
  end.

Fixpoint last_star (pattern : string) : option (string * string) :=
  match pattern with
  | EmptyString => None
  | String c pattern' =>
      match last_star pattern' with
      | Some (before, after) => Some (String c before, after)
      | None => if is_char "*" c then Some (""%string, pattern') else None
      end
  end.

Definition prefixAndSuffix (pattern : string) : string * string :=
  default (pattern, ""%string) (last_star pattern).

Definition joinPath (directory name : string) : string :=
  if HasSuffix directory "/" then directory +:+ name else directory +:+ "/" +:+ name.

Fixpoint create_temp (tries : nat) (prefix suffix : string) : prog disk file :=
  match tries with
  | O => fail (Typed "ErrExist" (Errorf "createtemp %s*%s: file exists" [GStr prefix; GStr suffix]))
  | S tries' =>
      number ← (fun d => let '(d', r) := next_random d in (d', Ok r));
      let name := prefix +:+ FormatUint number +:+ suffix in
      opened ← attempt (make "open" KFile name mode_0600);
      match opened with
      | Ok i => mret (mk_file i name)
      | Err e => if IsExist e then create_temp tries' prefix suffix else fail e
      end
  end.

Definition CreateTemp (directory pattern : string) : prog disk file :=
  if some_char (is_char "/") pattern
  then fail (Errorf "createtemp %s: pattern contains path separator" [GStr pattern])
  else let '(prefix, suffix) := prefixAndSuffix pattern in
       create_temp (Z.to_nat 10000) (joinPath directory prefix) suffix.

(** ** Names *)

Definition Rename (source destination : string) : prog disk unit :=
  syscall "rename" source nothing (fun d =>
    let from := path_key source in
    let to := path_key destination in
    match inode_at (dk_table d) from with
    | None => (d, missing "rename" source (dk_table d))
    | Some (i, n) =>
        if is_directory (dk_table d) to then (d, exist_error "rename" source)
        else if negb (is_directory (dk_table d) (parent_key to))
             then (d, missing "rename" destination (dk_table d))
        else if decide (tb_names (dk_table d) !! to = Some i) then (d, Ok tt)
        else (with_table (bind_name to i (drop_name from (dk_table d))) d, Ok tt)
    end).

(** [os.Remove] of what is not a directory. *)
Definition Remove (path : string) : prog disk unit :=
  syscall "remove" path nothing (fun d =>
    match inode_at (dk_table d) (path_key path) with
    | None => (d, missing "remove" path (dk_table d))
    | Some (_, n) =>
        if IsDir n then (d, path_error "remove" path "directory not empty")
        else (with_table (drop_name (path_key path) (dk_table d)) d, Ok tt)
    end).
