(* ===== verification/FileProtection.v ===== *)
(** * FileProtection: [internal/fileprotection]

    [write.go] and [protection_unix.go] over the disk of [FileSystem], and what
    their calls leave alone. *)
From Stdlib Require Import ZArith Lia Ascii String.
From stdpp Require Import base list gmap strings option.
From S2P Require Import Prelude GoText Prog Paths FileSystem.

Local Open Scope Z_scope.

Definition ProtectFile (path : string) : prog disk unit :=
  info ← Lstat path;
  if negb (IsRegular info) then fail (Errorf "sensitive file is not a regular file" [])
  else Chmod path mode_0600.

Definition ProtectDirectory (path : string) : prog disk unit :=
  info ← Lstat path;
  if negb (IsDir info) then fail (Errorf "sensitive directory is not a directory" [])
  else Chmod path mode_0700.

Definition replaceFile (source destination : string) : prog disk unit := Rename source destination.

(** [Mode().Perm()] *)
Definition Perm (n : inode) : Z := Z.land (in_mode n) (Z.ones 9).

Definition ValidateDirectory (path : string) : prog disk unit :=
  info ← Lstat path;
  if negb (IsDir info) then fail (Errorf "sensitive directory is not a directory" [])
  else if negb (Perm info =? mode_0700)
  then fail (Errorf "sensitive directory mode is %04o, want 0700" [GInt (Perm info)])
  else mret tt.

Definition ValidateFile (path : string) : prog disk unit :=
  info ← Lstat path;
  if negb (IsRegular info) then fail (Errorf "sensitive file is not a regular file" [])
  else if negb (Perm info =? mode_0600)
  then fail (Errorf "sensitive file mode is %04o, want 0600" [GInt (Perm info)])
  else mret tt.

(** The deferred function of [WriteFile]: what is still open is closed and a
    file that was not published removed. *)
Definition clean_up (temporary : file) (closed published : bool) : prog disk unit :=
  (if closed then mret tt else attempt (Close temporary) ;; mret tt) ;;
  (if published then mret tt else attempt (Remove (fl_name temporary)) ;; mret tt).

(** [return err] with the deferred function. *)
Definition or_clean_up {A} (temporary : file) (closed : bool) (c : prog disk A) : prog disk A :=
  outcome ← attempt c;
  match outcome with
  | Ok a => mret a
  | Err e => clean_up temporary closed false ;; fail e
  end.

Definition WriteFile (path data : string) : prog disk unit :=
  let directory := filepath_Dir path in
  temporary ← CreateTemp directory ("." +:+ filepath_Base path +:+ "-staging-*");
  let temporaryPath := fl_name temporary in
  or_clean_up temporary false
    (wrap_error "protect sensitive-file staging file: %w" [] (ProtectFile temporaryPath) ;;
     Write temporary data ;;
     Sync temporary ;;
     Close temporary) ;;
  or_clean_up temporary true
    (wrap_error "publish protected file: %w" [] (replaceFile temporaryPath path)) ;;
  clean_up temporary true true.

(** ** what a file system call leaves alone

    [after]: what a loss of power may leave of a disk.  [drafts]: the states
    that differ from a first one by staging files only. *)

Definition tables (d : disk) : list table := dk_table d :: dk_earlier d.

(** Inode numbers are not used twice. *)
Definition disk_ok (d : disk) : Prop :=
  (forall t k i, t ∈ tables d -> tb_names t !! k = Some i -> i < dk_next d) /\
  (forall i c, dk_contents d !! i = Some c -> i < dk_next d).

(** What is found under a name. *)
Definition look (d : disk) (k : key) : option (inode * string) :=
  '(i, n) ← inode_at (dk_table d) k; Some (n, default "" (ct_text <$> dk_contents d !! i)).

(** What is found of a file after a loss of power: the safe bytes, and anything
    in place of the others; anything at all of a file that was cut. *)
Definition remains (c c' : contents) : Prop :=
  c' = c \/ (ct_recent c <> ""%string \/ ct_cut c = true) /\ exists rest, ct_text c' = (ct_safe c +:+ rest)%string.

Lemma remains_synced data c' : remains (mk_contents data "") c' -> c' = mk_contents data "".
Proof. by intros [->|[[H|H] _]]. Qed.

Definition contents_after (m m' : gmap Z contents) : Prop :=
  forall i c, m !! i = Some c -> exists c', m' !! i = Some c' /\ remains c c'.

(** A disk as it is, or as it is found after a loss of power. *)
Definition after (d d' : disk) : Prop :=
  dk_table d' ∈ tables d /\ contents_after (dk_contents d) (dk_contents d').

Lemma contents_after_refl m : contents_after m m.
Proof. intros i c H. exists c. split; [done|by left]. Qed.

Lemma after_refl d : after d d.
Proof. split; [by left|apply contents_after_refl]. Qed.

Lemma inode_at_Some t q i n :
  inode_at t q = Some (i, n) <-> tb_names t !! q = Some i /\ tb_inodes t !! i = Some n.
Proof.
  unfold inode_at. destruct (tb_names t !! q) as [j|]; cbn; [|naive_solver].
  destruct (tb_inodes t !! j) eqn:E; naive_solver.
Qed.

(** ** Calls *)

Section Calls.
Variable P : disk -> Prop.
Hypothesis P_faults : forall d f s, P d -> P (with_faults f s d).

Lemma keeps_syscall {A} op path partly (call : prog disk A) :
  (forall n d, P d -> P (partly n d)) -> keeps P call -> keeps P (syscall op path partly call).
Proof.
  intros Hp Hc d Hd. unfold syscall. destruct (dk_stopped d); [done|].
  destruct (dk_faults d) as [|[|n|n] faults]; try (by apply Hc, P_faults); cbn; auto.
Qed.
End Calls.

(** A call that succeeds was made. *)
Lemma syscall_ok {A} op path partly (call : prog disk A) d d' a :
  syscall op path partly call d = (d', Ok a) ->
  exists f, call (with_faults f false d) = (d', Ok a).
Proof.
  unfold syscall. destruct (dk_stopped d) eqn:Es; [done|].
  destruct (dk_faults d) as [|[|n|n] faults] eqn:Ef; try done; [|by eexists].
  intros H. exists []. destruct d; cbn in *. subst. done.
Qed.

(** A call that is not a write changes nothing unless it is made. *)
Lemma syscall_cases {A} op path (call : prog disk A) d d' r :
  syscall op path nothing call d = (d', r) ->
  (exists f s e, d' = with_faults f s d /\ r = Err e) \/
  exists f, call (with_faults f false d) = (d', r).
Proof.
  unfold syscall. destruct (dk_stopped d) eqn:Es.
  { intros [= <- <-]. left. exists (dk_faults d), true. eexists. split; [|done].
    destruct d; cbn in *. by subst. }
  destruct (dk_faults d) as [|[|n|n] faults] eqn:Ef; cbn.
  - intros H. right. exists []. destruct d; cbn in *. by subst.
  - eauto.
  - intros [= <- <-]. left. by eexists _, _, _.
  - intros [= <- <-]. left. by eexists _, _, _.
Qed.

(** ** Staging files *)

Section Drafts.
Variables (d0 : disk) (stage : key -> Prop).

Definition draft (t : table) : Prop :=
  (forall q, tb_names t !! q = tb_names (dk_table d0) !! q \/
     tb_names (dk_table d0) !! q = None /\ stage q /\
     exists i, tb_names t !! q = Some i /\ dk_next d0 <= i) /\
  (forall i, i < dk_next d0 -> tb_inodes t !! i = tb_inodes (dk_table d0) !! i).

Definition drafts (d : disk) : Prop :=
  draft (dk_table d) /\ dk_next d0 <= dk_next d /\
  (forall t, t ∈ tables d -> t ∈ tables d0 \/ draft t) /\
  (forall i, i < dk_next d0 -> dk_contents d !! i = dk_contents d0 !! i).

Lemma drafts_start : drafts d0.
Proof. split_and!; [split; auto|lia|by left|done]. Qed.

Lemma drafts_faults d f s : drafts d -> drafts (with_faults f s d).
Proof. done. Qed.

Lemma drafts_table d t : drafts d -> draft t -> drafts (with_table t d).
Proof.
  intros (H1 & H2 & H3 & H4) Ht. split_and!; [done|done| |done].
  intros u [->|Hu]%elem_of_cons; [by right|by apply H3].
Qed.

Lemma drafts_contents d i c :
  drafts d -> dk_next d0 <= i -> drafts (with_contents (<[i := c]> (dk_contents d)) d).
Proof.
  intros (H1 & H2 & H3 & H4) Hi. split_and!; [done..|]. intros j Hj. cbn.
  rewrite lookup_insert_ne by lia. by apply H4.
Qed.

(** A file of the run. *)
Definition staged (f : file) : Prop :=
  stage (path_key (fl_name f)) /\ tb_names (dk_table d0) !! path_key (fl_name f) = None /\
  dk_next d0 <= fl_inode f.

Lemma draft_new d k i :
  drafts d -> tb_names (dk_table d0) !! k = None -> tb_names (dk_table d) !! k = Some i ->
  dk_next d0 <= i.
Proof.
  intros ((H & _) & _) H0 Hk. destruct (H k) as [E|(_ & _ & j & E & Hj)]; [congruence|].
  rewrite E in Hk. by injection Hk as <-.
Qed.

Lemma draft_set_inode t i n : draft t -> dk_next d0 <= i -> draft (set_inode i n t).
Proof. intros [H1 H2] Hi. split; [done|]. intros j Hj. cbn. rewrite lookup_insert_ne by lia. auto. Qed.

Lemma draft_drop t k : draft t -> tb_names (dk_table d0) !! k = None -> draft (drop_name k t).
Proof.
  intros [H1 H2] Hk. split; [|done]. intros q. cbn. destruct (decide (q = k)) as [->|Hq].
  - left. by rewrite lookup_delete_eq.
  - rewrite lookup_delete_ne by done. apply H1.
Qed.

Lemma draft_bind t k i :
  draft t -> tb_names (dk_table d0) !! k = None -> stage k -> dk_next d0 <= i ->
  draft (bind_name k i t).
Proof.
  intros [H1 H2] Hk Hs Hi. split; [|done]. intros q. cbn. destruct (decide (q = k)) as [->|Hq].
  - right. split_and!; [done|done|]. exists i. by rewrite lookup_insert_eq.
  - rewrite lookup_insert_ne by done. apply H1.
Qed.

(** *** The calls of a run *)

Let keeps_call {A} := @keeps_syscall drafts drafts_faults A.

Lemma keeps_Lstat path : keeps drafts (Lstat path).
Proof. apply keeps_call; [done|]. intros d Hd. by destruct (inode_at _ _) as [[]|]. Qed.

Lemma keeps_Chmod path mode :
  tb_names (dk_table d0) !! path_key path = None -> keeps drafts (Chmod path mode).
Proof.
  intros H0. apply keeps_call; [done|]. intros d Hd. destruct (inode_at _ _) as [[i n]|] eqn:E; [|done].
  apply bind_Some in E as (j & Hj & E). apply fmap_Some in E as (n' & _ & [= -> ->]).
  apply drafts_table; [done|]. apply draft_set_inode; [by destruct Hd|]. by eapply draft_new.
Qed.

Lemma keeps_make path mode :
  stage (path_key path) -> keeps drafts (make "open" KFile path mode).
Proof.
  intros Hs. apply keeps_call; [done|]. intros d Hd. cbn zeta. destruct (tb_names (dk_table d) !! path_key path) eqn:E; [done|].
  destruct (is_directory _ _); [|done]. unfold create. cbn [fst].
  destruct Hd as (H1 & H2 & H3 & H4). destruct (drafts_table d
    (bind_name (path_key path) (dk_next d) (set_inode (dk_next d)
      (mk_inode KFile (without_umask d mode)) (dk_table d)))) as (G1 & G2 & G3 & G4).
  - by split_and!.
  - apply draft_bind; [by apply draft_set_inode| |done|done].
    destruct H1 as [H1 _]. destruct (H1 (path_key path)) as [G|(G & _)]; [by rewrite <- G|done].
  - split_and!; [done|cbn; lia|done|]. intros i Hi. cbn. rewrite lookup_insert_ne by lia. auto.
Qed.

Lemma keeps_append f data : dk_next d0 <= fl_inode f -> forall d, drafts d -> drafts (append (fl_inode f) data d).
Proof. intros Hf d Hd. by apply drafts_contents. Qed.

Lemma keeps_Write f data : dk_next d0 <= fl_inode f -> keeps drafts (Write f data).
Proof. intros Hf. apply keeps_call; [intros n|]; intros d Hd; by apply keeps_append. Qed.

Lemma keeps_Sync f : dk_next d0 <= fl_inode f -> keeps drafts (Sync f).
Proof.
  intros Hf. apply keeps_call; [done|]. intros d (H1 & H2 & H3 & H4). split_and!; [done..|].
  intros i Hi. cbn. rewrite lookup_alter_ne by lia. auto.
Qed.

Lemma keeps_Close f : keeps drafts (Close f).
Proof. apply keeps_call; [done|]. by intros d. Qed.

Lemma keeps_Remove path :
  tb_names (dk_table d0) !! path_key path = None -> keeps drafts (Remove path).
Proof.
  intros H0. apply keeps_call; [done|]. intros d Hd. destruct (inode_at _ _) as [[i n]|]; [|done].
  destruct (IsDir n); [done|]. apply drafts_table; [done|]. apply draft_drop; [by destruct Hd|done].
Qed.

Lemma keeps_ProtectFile path :
  tb_names (dk_table d0) !! path_key path = None -> keeps drafts (ProtectFile path).
Proof.
  intros H0. apply keeps_bind; [apply keeps_Lstat|]. intros n. case_match; [apply keeps_fail|].
  by apply keeps_Chmod.
Qed.

Lemma keeps_clean_up f closed published : staged f -> keeps drafts (clean_up f closed published).
Proof.
  intros (_ & H0 & _). unfold clean_up. destruct closed, published;
    keeps_cases; eauto using keeps_Close, keeps_Remove.
Qed.

Lemma keeps_or_clean_up {A} f closed (c : prog disk A) :
  staged f -> keeps drafts c -> keeps drafts (or_clean_up f closed c).
Proof.
  intros Hf Hc. apply keeps_bind; [by apply keeps_attempt|]. intros [a|e]; [by intros d|].
  apply keeps_bind; [by apply keeps_clean_up|]. intros _. apply keeps_fail.
Qed.


Lemma make_ok op what path mode d d' i :
  make op what path mode d = (d', Ok i) ->
  i = dk_next d /\ tb_names (dk_table d) !! path_key path = None /\
  tb_names (dk_table d') !! path_key path = Some i /\
  (exists m, tb_inodes (dk_table d') !! i = Some (mk_inode what m)) /\
  dk_contents d' !! i = Some (mk_contents "" "").
Proof.
  intros [f H]%syscall_ok. cbn zeta in H. cbn [dk_table with_faults] in H.
  destruct (tb_names (dk_table d) !! path_key path) eqn:E; [by injection H|].
  destruct (is_directory _ _); [|unfold missing in H; by case_match]. injection H as <- <-. cbn.
  rewrite !lookup_insert_eq. eauto 10.
Qed.

(** The file that [CreateTemp] opened. *)
Definition opened (f : file) (mode : option Z) (c : contents) (d : disk) : Prop :=
  tb_names (dk_table d) !! path_key (fl_name f) = Some (fl_inode f) /\
  (exists m, tb_inodes (dk_table d) !! fl_inode f = Some (mk_inode KFile m) /\
     default m mode = m) /\
  dk_contents d !! fl_inode f = Some c.

End Drafts.

Lemma drafts_weaken d0 (stage stage' : key -> Prop) d :
  (forall q, stage q -> stage' q) -> drafts d0 stage d -> drafts d0 stage' d.
Proof.
  intros Hs (H1 & H2 & H3 & H4).
  assert (forall t, draft d0 stage t -> draft d0 stage' t) as Hd.
  { intros t [G1 G2]. split; [|done]. intros q. destruct (G1 q) as [G|(G & Hq & i)]; auto. }
  split_and!; auto. intros t Ht. destruct (H3 t Ht); auto.
Qed.

Lemma make_error op what path mode d d' e :
  make op what path mode d = (d', Err e) -> exists f s, d' = with_faults f s d.
Proof.
  intros [(F & s & e' & -> & _)|[F H]]%syscall_cases; [eauto|]. cbn zeta in H.
  destruct (_ !! path_key path); [injection H as <- ?; eauto|].
  destruct (is_directory _ _); [done|]. injection H as <- ?. eauto.
Qed.

(** The file that [CreateTemp] makes is the only thing new. *)
Lemma create_temp_spec d0 tries prefix suffix d d' r :
  drafts d0 (fun _ => False) d -> create_temp tries prefix suffix d = (d', r) ->
  match r with
  | Ok f =>
      drafts d0 (eq (path_key (fl_name f))) d' /\ staged d0 (eq (path_key (fl_name f))) f /\
      opened f None (mk_contents "" "") d' /\
      exists n, 0 <= n < 2 ^ 32 /\ fl_name f = (prefix +:+ FormatUint n +:+ suffix)%string
  | Err _ => drafts d0 (fun _ => False) d'
  end.
Proof.
  revert d. induction tries as [|tries IH]; intros d Hd H; [by injection H as <- <-|].
  cbn [create_temp] in H. rewrite bind_run in H.
  assert (drafts d0 (fun _ => False) (next_random d).1 /\ 0 <= (next_random d).2 < 2 ^ 32) as [Hd1 Hn].
  { unfold next_random. destruct (dk_random d); [done|]. split; [done|]. by apply Z.mod_pos_bound. }
  destruct (next_random d) as [d1 n]. cbn [fst snd] in Hd1, Hn. rewrite bind_run in H. unfold attempt in H.
  destruct (make _ _ _ _ d1) as [d2 [i|e]] eqn:E.
  - injection H as <- <-. cbn [fl_name]. set (name := (prefix +:+ FormatUint n +:+ suffix)%string) in *.
    assert (drafts d0 (eq (path_key name)) d1) as Hd1' by (by apply (drafts_weaken _ (fun _ => False))).
    pose proof (keeps_make _ _ name mode_0600 eq_refl d1 Hd1') as Hk. rewrite E in Hk.
    apply make_ok in E as (-> & E1 & E2 & [m E3] & E4). split_and!; [done| | |by exists n].
    + split_and!; [done| |by destruct Hd1' as (_ & ? & _)].
      cbn. destruct Hd1' as ((G & _) & _). by destruct (G (path_key name)) as [<-|(? & _)].
    + split_and!; [done|by exists m|done].
  - apply make_error in E as (F & s & ->). destruct (IsExist e).
    + by eapply (IH (with_faults F s d1)).
    + by injection H as <- <-.
Qed.
