(* ===== verification/FileTexts.v ===== *)
(** * FileTexts: what is found of a file

    The text of a file ([text_at]), properties of it that hold whatever a loss of
    power leaves ([kept]), and the calls that preserve them. *)
From Stdlib Require Import ZArith Lia Ascii String.
From stdpp Require Import base list gmap strings option.
From S2P Require Import Prelude GoText Prog Paths FileSystem FileProtection.

Local Open Scope Z_scope.

(** ** The file *)

(** The text of a regular file. *)
Definition text_at (d : disk) (k : key) : option string :=
  '(n, text) ← look d k; if IsRegular n then Some text else None.

(** Whatever is found later, the text of a file has a property. *)
Definition kept (k : key) (P : option string -> Prop) (d : disk) : Prop :=
  disk_ok d /\ forall found, after d found -> P (text_at found k).

Lemma look_same d d' k :
  tb_names (dk_table d') !! k = tb_names (dk_table d) !! k ->
  dk_contents d' = dk_contents d ->
  (forall i, tb_names (dk_table d) !! k = Some i ->
     in_kind <$> tb_inodes (dk_table d') !! i = in_kind <$> tb_inodes (dk_table d) !! i) ->
  text_at d' k = text_at d k.
Proof.
  intros Hn Hc Hi. unfold text_at, look, inode_at. rewrite Hn, Hc.
  destruct (tb_names (dk_table d) !! k) as [i|]; [|done]. specialize (Hi i eq_refl). cbn.
  destruct (tb_inodes (dk_table d') !! i) as [n'|], (tb_inodes (dk_table d) !! i) as [n|]; try done.
  cbn in Hi. injection Hi as Hi. cbn. unfold IsRegular. by rewrite Hi.
Qed.

(** A change of the table that concerns other names, or modes. *)
Lemma kept_table k P d t :
  kept k P d -> disk_ok (with_table t d) ->
  tb_names t !! k = tb_names (dk_table d) !! k ->
  (forall i, tb_names (dk_table d) !! k = Some i ->
     in_kind <$> tb_inodes t !! i = in_kind <$> tb_inodes (dk_table d) !! i) ->
  kept k P (with_table t d).
Proof.
  intros [Hok HP] Hok' Hn Hi. split; [done|]. intros found [Ht Hc].
  apply elem_of_cons in Ht as [Ht|Ht].
  - cbn in Ht. rewrite (look_same (with_contents (dk_contents found) d) found).
    + apply HP. split; [by left|exact Hc].
    + by rewrite Ht.
    + done.
    + by rewrite Ht.
  - apply HP. by split.
Qed.

Section Kept.
Variables (k : key) (P : option string -> Prop).

Lemma kept_faults d f s : kept k P d -> kept k P (with_faults f s d).
Proof. done. Qed.

Let keeps_call {A} := @keeps_syscall (kept k P) kept_faults A.

Lemma kept_Lstat path : keeps (kept k P) (Lstat path).
Proof. apply keeps_call; [done|]. intros d Hd. by destruct (inode_at _ _) as [[]|]. Qed.

Lemma kept_Stat path : keeps (kept k P) (Stat_IsDir path).
Proof. apply keeps_call; [done|]. intros d Hd. by destruct (inode_at _ _) as [[]|]. Qed.

Lemma kept_Chmod path mode : keeps (kept k P) (Chmod path mode).
Proof.
  apply keeps_call; [done|]. intros d Hd. destruct (inode_at _ _) as [[i n]|] eqn:E; [|done].
  apply inode_at_Some in E as [_ En]. apply kept_table; [done| |done|].
  - destruct Hd as [[H1 H2] _]. split; [|done]. intros t q j [->|Ht]%elem_of_cons Hq; [|by eapply H1].
    eapply (H1 (dk_table d)); [by left|exact Hq].
  - intros j Hj. cbn. destruct (decide (j = i)) as [->|Hne].
    + by rewrite lookup_insert_eq, En.
    + by rewrite lookup_insert_ne.
Qed.

Lemma kept_create d q n :
  kept k P d -> q <> k -> kept k P (create q n d).
Proof.
  intros Hd Hq. pose proof Hd as [[H1 H2] _]. set (i := dk_next d).
  assert (disk_ok (create q n d)) as Hok.
  { split.
    - intros t q' j [->|Ht]%elem_of_cons Hj; cbn.
      + cbn in Hj. apply lookup_insert_Some in Hj as [[_ <-]|[_ Hj]]; [lia|].
        assert (j < dk_next d) by (eapply H1; [by left|exact Hj]). lia.
      + assert (j < dk_next d) by (by eapply H1). lia.
    - intros j c Hj. cbn in *. apply lookup_insert_Some in Hj as [[<- _]|[_ Hj]]; [lia|].
      apply H2 in Hj. lia. }
  split; [done|]. intros found [Ht Hc].
  assert (contents_after (dk_contents d) (dk_contents found)) as Hc'.
  { intros j c Hj. apply Hc. cbn. rewrite lookup_insert_ne; [done|]. apply H2 in Hj. lia. }
  destruct Hd as [_ HP]. apply elem_of_cons in Ht as [Ht|Ht]; [|by apply HP].
  rewrite (look_same (with_contents (dk_contents found) d) found); rewrite ?Ht; cbn.
  - apply HP. split; [by left|done].
  - by rewrite lookup_insert_ne.
  - done.
  - intros j Hj. rewrite lookup_insert_ne; [done|].
    assert (j < dk_next d) by (eapply H1; [by left|exact Hj]). lia.
Qed.

(** Bytes of another file. *)
Lemma kept_contents d i c :
  kept k P d -> i < dk_next d -> (forall t, t ∈ tables d -> tb_names t !! k <> Some i) ->
  kept k P (with_contents (<[i := c]> (dk_contents d)) d).
Proof.
  intros [[H1 H2] HP] Hi Hk. split.
  { split; [done|]. intros j c' Hj. cbn in Hj. apply lookup_insert_Some in Hj as [[<- _]|[_ Hj]]; [done|].
    by eapply H2. }
  intros found [Ht Hc]. cbn in Hc.
  set (m := partial_alter (fun _ => dk_contents d !! i) i (dk_contents found)).
  assert (m !! i = dk_contents d !! i /\ forall j, j <> i -> m !! j = dk_contents found !! j) as [Hm Hother].
  { split; [apply lookup_partial_alter_eq|]. intros j Hj. by apply lookup_partial_alter_ne. }
  assert (text_at found k = text_at (with_contents m found) k) as ->.
  { unfold text_at, look, inode_at. cbn. destruct (tb_names (dk_table found) !! k) as [j|] eqn:Ej; [|done].
    cbn. destruct (tb_inodes (dk_table found) !! j); [|done]. cbn. rewrite Hother; [done|]. intros ->. by eapply Hk. }
  apply HP. split; [done|]. cbn. intros j c' Hj. destruct (decide (j = i)) as [->|Hne].
  - exists c'. split; [by rewrite Hm|by left].
  - rewrite Hother by done. apply Hc. by rewrite lookup_insert_ne.
Qed.

Lemma kept_make op what path mode :
  path_key path <> k -> keeps (kept k P) (make op what path mode).
Proof.
  intros Hq. apply keeps_call; [done|]. intros d Hd. cbn zeta.
  destruct (tb_names (dk_table d) !! path_key path); [done|].
  destruct (is_directory _ _); [|done]. by apply kept_create.
Qed.

Lemma kept_ProtectDirectory path : keeps (kept k P) (ProtectDirectory path).
Proof.
  apply keeps_bind; [apply kept_Lstat|]. intros n. destruct (negb _); [apply keeps_fail|].
  apply kept_Chmod.
Qed.

(** The directories that are made are shorter than the path of the file. *)
Lemma fold_step_length rooted l stack :
  (length (fold_left (path_step rooted) l stack) <= length stack + length l)%nat.
Proof.
  revert stack. induction l as [|s l IH]; intros stack; cbn [fold_left length]; [lia|].
  etransitivity; [apply IH|]. assert (length (path_step rooted stack s) <= S (length stack))%nat; [|lia].
  unfold path_step. destruct (_ || _); [lia|]. case_decide; [|cbn; lia].
  destruct stack; [by destruct rooted; cbn; lia|]. case_decide; cbn; lia.
Qed.

Lemma key_text_length rooted l :
  Forall (fun s => without "/" s = true) l ->
  (length (path_key (key_text (rooted, l))).2 <= length l)%nat.
Proof.
  intros Hl. unfold path_key, key_text. cbn [fst snd]. rewrite length_rev.
  destruct l as [|s l]; [by destruct rooted|].
  assert (Split (Join (s :: l) "/") "/" = s :: l) as HS by by apply Split_Join.
  destruct rooted.
  - change ("/" +:+ ?t)%string with (String "/" t). cbn [Split]. rewrite decide_True, HS by done.
    cbn [fold_left]. etransitivity; [apply (fold_step_length _ (s :: l))|]. by cbn.
  - rewrite str_nil_app, HS. apply fold_step_length.
Qed.

(** What [MkdirAll] makes has a shorter path than the file. *)
Lemma keeps_mkdir_all (R : disk -> Prop) rooted reversed mode :
  (forall path, keeps R (Stat_IsDir path)) -> (forall path, keeps R (Lstat path)) ->
  (forall what path mode, path_key path <> k -> keeps R (make "mkdir" what path mode)) ->
  (length reversed < length k.2)%nat -> Forall (fun s => without "/" s = true) reversed ->
  keeps R (mkdir_all rooted reversed mode).
Proof.
  intros Hstat Hlstat Hmake Hlen Hw.
  assert (forall l, Forall (fun s => without "/" s = true) l -> (length l < length k.2)%nat ->
    path_key (key_text (rooted, rev l)) <> k) as Hk.
  { intros l Hl Hlt E. pose proof (key_text_length rooted (rev l) (List.Forall_rev Hl)) as H.
    rewrite length_rev, E in H. lia. }
  induction reversed as [|s l IH]; cbn [mkdir_all];
    (apply keeps_bind; [apply keeps_attempt, Hstat|]; intros [[]|e]; [by intros d|apply keeps_fail|]);
    (apply keeps_bind; [|intros _; apply keeps_bind;
       [by apply keeps_attempt, Hmake, Hk|intros [i|e']; [by intros d|]];
       apply keeps_bind; [apply keeps_attempt, Hlstat|intros [n|e'']; [|apply keeps_fail]];
       by destruct (IsDir n); [intros d|apply keeps_fail]]).
  - by intros d.
  - inversion_clear Hw. cbn [length] in Hlen. destruct l; [by intros d|]. apply IH; [lia|done].
Qed.

Lemma kept_mkdir_all rooted reversed mode :
  (length reversed < length k.2)%nat -> Forall (fun s => without "/" s = true) reversed ->
  keeps (kept k P) (mkdir_all rooted reversed mode).
Proof.
  apply keeps_mkdir_all; [apply kept_Stat|apply kept_Lstat|]. intros what path m. apply kept_make.
Qed.

Lemma disk_ok_drop d q : disk_ok d -> disk_ok (with_table (drop_name q (dk_table d)) d).
Proof.
  intros [H1 H2]. split; [|done]. intros t q' i [->|Ht]%elem_of_cons Hi; [|by eapply H1].
  cbn in Hi. apply lookup_delete_Some in Hi as [_ Hi]. eapply H1; [by left|exact Hi].
Qed.

Lemma kept_Remove path : path_key path <> k -> keeps (kept k P) (Remove path).
Proof.
  intros Hq. apply keeps_call; [done|]. intros d Hd. destruct (inode_at _ _) as [[i n]|]; [|done].
  destruct (IsDir n); [done|]. apply kept_table; [done|apply disk_ok_drop; by destruct Hd| |done].
  cbn. by rewrite lookup_delete_ne.
Qed.

Lemma kept_ReadFile path : keeps (kept k P) (ReadFile path).
Proof. apply keeps_call; [done|]. intros d Hd. by repeat case_match. Qed.

Lemma kept_ProtectFile path : keeps (kept k P) (ProtectFile path).
Proof.
  apply keeps_bind; [apply kept_Lstat|]. intros n. destruct (negb _); [apply keeps_fail|].
  apply kept_Chmod.
Qed.
End Kept.

(** A change of modes leaves the text. *)
Section Texts.
Variables (k : key) (t : option string).

Notation has_text := (fun d => text_at d k = t).

Lemma text_Lstat path : keeps has_text (Lstat path).
Proof. apply keeps_syscall; [done|done|]. intros d Hd. by destruct (inode_at _ _) as [[]|]. Qed.

Lemma text_Chmod path mode : keeps has_text (Chmod path mode).
Proof.
  apply keeps_syscall; [done|done|]. intros d Hd. destruct (inode_at _ _) as [[i n]|] eqn:E; [|done].
  apply inode_at_Some in E as [_ En]. rewrite <- Hd. apply look_same; [done|done|].
  intros j Hj. cbn. destruct (decide (j = i)) as [->|Hne].
  - by rewrite lookup_insert_eq, En.
  - by rewrite lookup_insert_ne.
Qed.

Lemma text_ProtectDirectory path : keeps has_text (ProtectDirectory path).
Proof.
  apply keeps_bind; [apply text_Lstat|]. intros n. destruct (negb _); [apply keeps_fail|].
  apply text_Chmod.
Qed.

Lemma text_ProtectFile path : keeps has_text (ProtectFile path).
Proof.
  apply keeps_bind; [apply text_Lstat|]. intros n. destruct (negb _); [apply keeps_fail|].
  apply text_Chmod.
Qed.

Lemma text_ReadFile path : keeps has_text (ReadFile path).
Proof. apply keeps_syscall; [done|done|]. intros d Hd. by repeat case_match. Qed.

Lemma text_Stat path : keeps has_text (Stat_IsDir path).
Proof. apply keeps_syscall; [done|done|]. intros d Hd. by destruct (inode_at _ _) as [[]|]. Qed.

(** A new name is another one. *)
Lemma text_make op what path mode :
  path_key path <> k -> keeps (fun d => disk_ok d /\ text_at d k = t) (make op what path mode).
Proof.
  intros Hq. apply keeps_syscall; [done|done|]. intros d [Hok Hd]. cbn zeta.
  destruct (tb_names (dk_table d) !! path_key path); [done|]. destruct (is_directory _ _); [|done].
  cbn [fst]. destruct (kept_create k (fun _ => True) d (path_key path)
    (mk_inode what (without_umask d mode)) ltac:(by split) Hq) as [Hok' _].
  split; [done|]. rewrite <- Hd. destruct Hok as [H1 H2]. unfold text_at, look, inode_at. cbn.
  rewrite lookup_insert_ne by done. destruct (tb_names (dk_table d) !! k) as [i|] eqn:E; [|done]. cbn.
  assert (i < dk_next d) by (eapply H1; [by left|exact E]).
  rewrite lookup_insert_ne by lia. destruct (tb_inodes (dk_table d) !! i); [|done]. cbn.
  by rewrite lookup_insert_ne by lia.
Qed.

Lemma ReadFile_text path d d' text :
  path_key path = k -> text_at d k = t -> ReadFile path d = (d', Ok text) -> t = Some text.
Proof.
  intros <- Ht [f H]%syscall_ok. cbn in H. unfold text_at, look in Ht. cbn in Ht.
  destruct (inode_at (dk_table d) (path_key path)) as [[i n]|]; [|unfold missing in H; by case_match].
  cbn in Ht. destruct (IsRegular n); [|done]. injection H as _ <-. by rewrite <- Ht.
Qed.

Lemma Lstat_absent path d d' e :
  path_key path = k -> Lstat path d = (d', Err e) -> IsNotExist e = true -> text_at d k = None.
Proof.
  intros <- H He. unfold Lstat, syscall in H. 
  destruct (dk_stopped d); [by injection H as <- <-|].
  assert (forall d1, dk_table d1 = dk_table d -> match inode_at (dk_table d1) (path_key path) with
    | Some (_, n) => (d1, Ok n) | None => (d1, missing "lstat" path (dk_table d1)) end = (d', Err e) ->
    text_at d (path_key path) = None) as Hm.
  { intros d1 -> H1. unfold text_at, look. by destruct (inode_at _ _) as [[]|]. }
  destruct (dk_faults d) as [|[|n|n] F]; [by eapply Hm|by eapply (Hm (with_faults F false d))|..];
    by injection H as <- <-.
Qed.
End Texts.

(** ** Names and directories *)

Lemma key_text_key path : path_key (key_text (path_key path)) = path_key path.
Proof.
  destruct (decide (key_text (path_key path) = ""%string)) as [E|E].
  - rewrite E, <- (path_key_Clean path). unfold Clean. by rewrite decide_True.
  - pose proof (path_key_normal path). destruct (path_key path). by apply path_key_text.
Qed.

Lemma mkdir_all_present rooted l mode d :
  Stat_IsDir (key_text (rooted, rev l)) d = (d, Ok true) -> mkdir_all rooted l mode d = (d, Ok tt).
Proof.
  intros H. destruct l; cbn [mkdir_all]; rewrite bind_run; unfold attempt; by rewrite H.
Qed.

Lemma is_directory_Some t q :
  is_directory t q = true <-> exists i n, inode_at t q = Some (i, n) /\ in_kind n = KDirectory.
Proof.
  unfold is_directory, IsDir. destruct (inode_at t q) as [[i n]|].
  - rewrite bool_decide_eq_true. naive_solver.
  - naive_solver.
Qed.

Lemma look_Some d q n t :
  look d q = Some (n, t) <->
  exists i, inode_at (dk_table d) q = Some (i, n) /\ default ""%string (ct_text <$> dk_contents d !! i) = t.
Proof. unfold look. destruct (inode_at (dk_table d) q) as [[i m]|]; cbn; naive_solver. Qed.

(** ** Kinds *)

Definition kind_at (d : disk) (k : key) : option kind := (fun x => in_kind x.1) <$> look d k.

Definition same_files (d d' : disk) : Prop :=
  (forall k, text_at d' k = text_at d k) /\ forall k, kind_at d' k = kind_at d k.

Lemma same_files_refl d : same_files d d.
Proof. done. Qed.

Lemma same_files_trans d1 d2 d3 : same_files d1 d2 -> same_files d2 d3 -> same_files d1 d3.
Proof. intros [H1 H2] [H3 H4]. split; intros k; [by rewrite H3|by rewrite H4]. Qed.

Lemma kind_at_Some d k what :
  kind_at d k = Some what <-> exists i n, inode_at (dk_table d) k = Some (i, n) /\ in_kind n = what.
Proof.
  unfold kind_at, look. destruct (inode_at (dk_table d) k) as [[i n]|]; cbn; [|naive_solver].
  split; [intros [= <-]; by eexists _, _|by intros (? & ? & [= <- <-] & <-)].
Qed.

Lemma text_at_Some d k t :
  text_at d k = Some t <-> exists i n, inode_at (dk_table d) k = Some (i, n) /\ in_kind n = KFile /\
    default ""%string (ct_text <$> dk_contents d !! i) = t.
Proof.
  unfold text_at, look. destruct (inode_at (dk_table d) k) as [[i n]|]; cbn; [|naive_solver].
  unfold IsRegular. destruct (bool_decide _) eqn:E; [apply bool_decide_eq_true in E|apply bool_decide_eq_false in E].
  - split; [intros [= <-]; by eexists _, _|by intros (? & ? & [= <- <-] & _ & <-)].
  - split; [done|]. by intros (? & ? & [= <- <-] & ? & _).
Qed.

(** A change of mode. *)
Lemma same_files_mode d k i n mode :
  inode_at (dk_table d) k = Some (i, n) ->
  same_files d (with_table (set_inode i (mk_inode (in_kind n) mode) (dk_table d)) d).
Proof.
  intros [_ En]%inode_at_Some.
  assert (forall j, in_kind <$> tb_inodes (set_inode i (mk_inode (in_kind n) mode) (dk_table d)) !! j =
    in_kind <$> tb_inodes (dk_table d) !! j) as Hk.
  { intros j. cbn. destruct (decide (j = i)) as [->|Hne].
    - by rewrite lookup_insert_eq, En.
    - by rewrite lookup_insert_ne. }
  split; intros q; [by apply look_same|]. unfold kind_at, look, inode_at. cbn [dk_table with_table].
  change (tb_names (set_inode i _ (dk_table d))) with (tb_names (dk_table d)).
  destruct (tb_names (dk_table d) !! q) as [j|]; [|done]. cbn. specialize (Hk j). cbn in Hk.
  destruct (<[i:=_]> _ !! j), (tb_inodes (dk_table d) !! j); done.
Qed.
