(* ===== verification/FileProtectionProps.v ===== *)
(** * FileProtectionProps: a protected file is replaced as a whole

    Whatever a call of the file system runs into while [WriteFile] works, and
    whatever a loss of power brings back afterwards, the file is the old one or
    the whole new one, and all other files are as they were. *)
From Stdlib Require Import ZArith Lia Ascii String.
From stdpp Require Import base list gmap strings option.
From S2P Require Import Prelude GoText Prog Paths FileSystem FileProtection FileTexts.

Local Open Scope Z_scope.

(** ** A run of [WriteFile] *)

Section Run.
Variables (d0 : disk) (stage : key -> Prop) (k : key).
Hypothesis d0_ok : disk_ok d0.
Hypothesis k_not_staged : ~ stage k.

Notation drafts := (drafts d0 stage).
Notation staged := (staged d0 stage).

(** The steps on the open file. *)
Lemma protect_opened f c :
  ensures (opened f None c) (ProtectFile (fl_name f)) (fun _ => opened f (Some mode_0600) c).
Proof.
  intros d d' [] (Hn & (m & Hi & _) & Hc) (d1 & n & H1 & H2)%bind_run_ok.
  apply syscall_ok in H1 as [f1 H1]. unfold inode_at in H1. cbn in H1. rewrite Hn in H1.
  cbn in H1. rewrite Hi in H1. injection H1 as <- <-. cbn in H2.
  apply syscall_ok in H2 as [f2 H2]. unfold inode_at in H2. cbn in H2. rewrite Hn in H2.
  cbn in H2. rewrite Hi in H2. injection H2 as <-. split_and!; [done| |done].
  exists mode_0600. cbn. by rewrite lookup_insert_eq.
Qed.

Lemma write_opened f m data :
  ensures (opened f m (mk_contents "" "")) (Write f data)
    (fun _ => opened f m (mk_contents "" data)).
Proof.
  intros d d' [] (Hn & Hi & Hc) [f1 H1]%syscall_ok. injection H1 as <-. split_and!; [done..|].
  cbn. by rewrite lookup_insert_eq, Hc.
Qed.

Lemma sync_opened f m data :
  ensures (opened f m (mk_contents "" data)) (Sync f) (fun _ => opened f m (mk_contents data "")).
Proof.
  intros d d' [] (Hn & Hi & Hc) [f1 H1]%syscall_ok. injection H1 as <-. split_and!; [done..|].
  cbn. by rewrite lookup_alter_eq, Hc.
Qed.

Lemma close_opened f m c : ensures (opened f m c) (Close f) (fun _ => opened f m c).
Proof. intros d d' [] Ho [f1 H1]%syscall_ok. by injection H1 as <-. Qed.

(** All steps up to the one that publishes the file. *)
Definition stage_file (f : file) (data : string) : prog disk unit :=
  wrap_error "protect sensitive-file staging file: %w" [] (ProtectFile (fl_name f)) ;;
  Write f data ;; Sync f ;; Close f.

Lemma stage_file_opened f data :
  ensures (opened f None (mk_contents "" "")) (stage_file f data)
    (fun _ => opened f (Some mode_0600) (mk_contents data "")).
Proof.
  eapply ensures_bind; [apply ensures_wrap_error, protect_opened|intros ?].
  eapply ensures_bind; [apply write_opened|intros ?].
  eapply ensures_bind; [apply sync_opened|intros ?]. apply close_opened.
Qed.

Lemma stage_file_keeps f data : staged f -> keeps drafts (stage_file f data).
Proof.
  intros (_ & H1 & H2). repeat (apply keeps_bind; [|intros _]).
  - by apply keeps_wrap_error, keeps_ProtectFile.
  - by apply keeps_Write.
  - by apply keeps_Sync.
  - apply keeps_Close.
Qed.

(** The file that replaced the old one. *)
Definition published (data : string) (d : disk) : Prop :=
  exists d1 f, drafts d1 /\ staged f /\ opened f (Some mode_0600) (mk_contents data "") d1 /\
    dk_table d = bind_name k (fl_inode f) (drop_name (path_key (fl_name f)) (dk_table d1)) /\
    dk_earlier d = tables d1 /\ dk_contents d = dk_contents d1.


Variable path : string.
Hypothesis path_key_k : path_key path = k.

(** The call that publishes the file does so or changes nothing. *)
Lemma publish_cases f data d d' r :
  drafts d -> staged f -> opened f (Some mode_0600) (mk_contents data "") d ->
  replaceFile (fl_name f) path d = (d', r) ->
  r = Ok tt /\ published data d' \/ (exists e, r = Err e) /\ drafts d'.
Proof.
  intros Hd Hf Ho [(F & s & e & -> & ->)|[F H]]%syscall_cases; [right; eauto|].
  pose proof Ho as (Hn & (m & Hi & _) & _). cbn zeta in H. unfold inode_at in H.
  cbn [dk_table with_faults] in H. rewrite Hn in H. cbn in H. rewrite Hi in H. cbn in H.
  rewrite path_key_k in H.
  destruct (is_directory _ k); [injection H as <- <-; right; unfold exist_error; eauto|].
  destruct (is_directory _ (parent_key k)); cbn [negb] in H;
    [|injection H as <- <-; right; unfold missing, path_error, absent_error, errf; split; [case_match; eauto|done]].
  destruct (decide _) as [E|E].
  - exfalso. destruct Hd as ((Hd & _) & _). destruct (Hd k) as [G|(_ & G & _)]; [|done].
    destruct Hf as (_ & _ & Hf). destruct d0_ok as [Hlt _].
    assert (fl_inode f < dk_next d0); [|lia].
    eapply (Hlt (dk_table d0) k); [by left|]. by rewrite <- G.
  - injection H as <- <-. left. split; [done|].
    exists (with_faults F false d), f. by split_and!.
Qed.

Lemma or_clean_up_cases {A} f closed (c : prog disk A) d d' r :
  or_clean_up f closed c d = (d', r) ->
  (exists a, r = Ok a /\ c d = (d', Ok a)) \/ (exists e, r = Err e).
Proof.
  unfold or_clean_up. rewrite bind_run. unfold attempt. destruct (c d) as [d1 [a|e]].
  - intros [= <- <-]. left. eauto.
  - rewrite bind_run. destruct (clean_up f closed false d1) as [d2 [[]|e2]]; cbn; intros [= <- <-]; eauto.
Qed.

Lemma or_clean_up_ok {A} f closed (c : prog disk A) d d' a :
  c d = (d', Ok a) -> or_clean_up f closed c d = (d', Ok a).
Proof. intros H. unfold or_clean_up. rewrite bind_run. unfold attempt. by rewrite H. Qed.

(** What follows once the staging file is open. *)
Definition finish (f : file) (data : string) : prog disk unit :=
  or_clean_up f false (stage_file f data) ;;
  or_clean_up f true
    (wrap_error "publish protected file: %w" [] (replaceFile (fl_name f) path)) ;;
  clean_up f true true.

Lemma finish_cases f data d1 d r :
  drafts d1 -> staged f -> opened f None (mk_contents "" "") d1 ->
  finish f data d1 = (d, r) ->
  r = Ok tt /\ published data d \/ (exists e, r = Err e) /\ drafts d.
Proof.
  intros Hd1 Hf Ho. unfold finish. rewrite bind_run.
  pose proof (keeps_or_clean_up _ _ f false _ Hf (stage_file_keeps f data Hf) d1 Hd1) as Hd2.
  destruct (or_clean_up f false _ d1) as [d2 r2] eqn:E2.
  destruct (or_clean_up_cases _ _ _ _ _ _ E2) as [([] & -> & E2')|[e ->]];
    [|intros [= <- <-]; right; eauto].
  pose proof (stage_file_opened _ _ _ _ _ Ho E2') as Ho2. cbn in Ho2, Hd2.
  rewrite bind_run. destruct (or_clean_up f true _ d2) as [d3 r3] eqn:E3.
  unfold or_clean_up, wrap_error in E3. rewrite bind_run in E3. unfold attempt in E3.
  destruct (replaceFile _ _ d2) as [d4 r4] eqn:E4.
  destruct (publish_cases _ _ _ _ _ Hd2 Hf Ho2 E4) as [[-> Hp]|[[e ->] Hd]]; cbn [wrapf] in E3.
  - injection E3 as <- <-. cbn. intros [= <- <-]. by left.
  - rewrite bind_run in E3. pose proof (keeps_clean_up _ _ f true false Hf d4 Hd) as Hd5.
    destruct (clean_up f true false d4) as [d5 [[]|e5]]; injection E3 as <- <-;
      intros H; injection H as <- <-; right; eauto.
Qed.

(** *** What a loss of power leaves *)

Lemma look_name d d' q :
  tb_names (dk_table d') !! q = tb_names (dk_table d) !! q ->
  (forall i, tb_names (dk_table d) !! q = Some i ->
     tb_inodes (dk_table d') !! i = tb_inodes (dk_table d) !! i /\
     dk_contents d' !! i = dk_contents d !! i) ->
  look d' q = look d q.
Proof.
  intros Hn Hi. unfold look, inode_at. rewrite Hn. destruct (tb_names (dk_table d) !! q) as [i|]; [|done].
  cbn. destruct (Hi i eq_refl) as [-> E]. destruct (tb_inodes (dk_table d) !! i); [|done]. cbn. by rewrite E.
Qed.

(** The first disk with the contents of a later one. *)
Definition with_contents_of (d : disk) : disk := with_contents (dk_contents d) d0.

Lemma after_drafts d d' :
  (forall i, i < dk_next d0 -> dk_contents d !! i = dk_contents d0 !! i) ->
  contents_after (dk_contents d) (dk_contents d') ->
  after d0 (with_contents_of d').
Proof.
  intros Hc Ha. split; [by left|]. intros i c Hi. apply Ha. rewrite Hc; [done|].
  destruct d0_ok as [_ Hlt]. by eapply Hlt.
Qed.

Lemma draft_look d q :
  draft d0 stage (dk_table d) ->
  look d q = look (with_contents_of d) q \/ look (with_contents_of d) q = None /\ stage q.
Proof.
  intros [H1 H2]. destruct (H1 q) as [E|(E & Hq & _)].
  - left. apply look_name; [done|]. intros i Hi. split; [|done]. apply H2.
    destruct d0_ok as [Hlt _]. eapply Hlt; [by left|exact Hi].
  - right. split; [|done]. unfold look, inode_at. cbn. by rewrite E.
Qed.

(** A disk whose table is that of a published file. *)
Lemma published_look data d d' :
  published data d -> dk_table d' = dk_table d ->
  contents_after (dk_contents d) (dk_contents d') ->
  look d' k = Some (mk_inode KFile mode_0600, data) /\
  exists f, stage (path_key (fl_name f)) /\ forall q, q <> k ->
    look d' q = look (with_contents_of d') q \/
    look (with_contents_of d') q = None /\ stage q /\ q <> path_key (fl_name f).
Proof.
  intros (d1 & f & Hd & (Hf & H0 & Hl) & (Hn & (m & Hi & Hm) & Hc) & Et & _ & Ec) E Ha. cbn in Hm. subst m.
  split.
  - unfold look, inode_at. rewrite E, Et. cbn. rewrite lookup_insert_eq. cbn. rewrite Hi. cbn.
    rewrite Ec in Ha. destruct (Ha _ _ Hc) as (c & -> & ->%remains_synced). cbn. unfold ct_text. cbn. by rewrite str_app_nil.
  - exists f. split; [done|]. intros q Hq. destruct (decide (q = path_key (fl_name f))) as [->|Hqf].
    + left. unfold look, inode_at. rewrite E, Et. cbn.
      by rewrite lookup_insert_ne, lookup_delete_eq, H0 by done.
    + destruct Hd as [[G1 G2] _]. destruct (G1 q) as [G|(G & Gs & _)].
      * left. apply look_name; rewrite E, Et; cbn.
        -- by rewrite lookup_insert_ne, lookup_delete_ne.
        -- intros i Hq'. split; [|done]. apply G2. destruct d0_ok as [Hlt _]. eapply Hlt; [by left|exact Hq'].
      * right. unfold look, inode_at. cbn. by rewrite G.
Qed.

(** What is found after a loss of power that follows a run. *)
Definition survives (data : string) (d' : disk) : Prop :=
  exists d2, after d0 d2 /\
    (forall q, q <> k -> look d' q = look d2 q \/ look d2 q = None /\ stage q) /\
    (look d' k = look d2 k \/ look d' k = Some (mk_inode KFile mode_0600, data)).

Lemma drafts_survive data d d' : drafts d -> after d d' -> survives data d'.
Proof.
  intros (H1 & H2 & H3 & H4) [Ht Ha]. destruct (H3 _ Ht) as [Hold|Hdraft].
  - exists d'. split; [|by auto]. split; [done|]. intros i c Hi. apply Ha. rewrite H4; [done|].
    destruct d0_ok as [_ Hlt]. by eapply Hlt.
  - exists (with_contents_of d'). split_and!; [by eapply after_drafts| |].
    + intros q _. by apply draft_look.
    + destruct (draft_look _ k Hdraft) as [E|[_ E]]; [by left|done].
Qed.

Lemma published_survives data d d' : published data d -> after d d' -> survives data d'.
Proof.
  intros Hp [Ht Ha]. pose proof Hp as (d1 & f & Hd & Hf & _ & _ & Ee & Ec).
  apply elem_of_cons in Ht as [Ht|Ht].
  - destruct (published_look _ _ _ Hp Ht Ha) as (Hk & f' & _ & Hq).
    exists (with_contents_of d'). split_and!; [|intros q Hne; destruct (Hq q Hne) as [|(? & ? & _)]; auto|auto].
    eapply after_drafts; [|exact Ha]. rewrite Ec. by destruct Hd as (_ & _ & _ & ?).
  - rewrite Ee in Ht. apply (drafts_survive _ d1); [done|]. split; [done|]. by rewrite <- Ec.
Qed.

End Run.

(** ** Names *)

Definition staging (k q : key) : Prop :=
  exists directory name n, k.2 = directory ++ [name] /\ 0 <= n < 2 ^ 32 /\
    q = (k.1, directory ++ ["." +:+ name +:+ "-staging-" +:+ FormatUint n]%string).

Lemma staging_plain name n : plain_segment name = true ->
  plain_segment ("." +:+ name +:+ "-staging-" +:+ FormatUint n) = true.
Proof.
  intros Hn%plain_without. unfold plain_segment.
  assert (without "/" ("." +:+ name +:+ "-staging-" +:+ FormatUint n) = true) as ->.
  { rewrite !without_app, Hn. cbn. destruct (FormatUint_digits n) as [Hd _].
    eapply all_chars_impl; [|exact Hd]. intros c. pattern c. apply ascii_cases.
    intros [] [] [] [] [] [] [] []; vm_compute; congruence. }
  assert (3 <= slen ("." +:+ name +:+ "-staging-" +:+ FormatUint n)) as Hl.
  { rewrite !slen_app. pose proof (slen_nonneg name). pose proof (slen_nonneg (FormatUint n)).
    change (slen ".") with 1. change (slen "-staging-") with 9. lia. }
  rewrite !bool_decide_eq_false_2; [done|intros E; rewrite E in Hl; vm_compute in Hl; by apply Hl..].
Qed.

(** The key of a file of a directory, as [CreateTemp] joins them. *)
Lemma joinPath_key directory name :
  directory <> ""%string -> plain_segment name = true ->
  path_key (joinPath directory name) = ((path_key directory).1, (path_key directory).2 ++ [name]).
Proof.
  intros Hd Hn. unfold joinPath. destruct (HasSuffix directory "/") eqn:E.
  - apply HasSuffix_spec in E as [a ->]. rewrite str_app_assoc. destruct (decide (a = ""%string)) as [->|Ha].
    + unfold path_key. cbn [fst snd]. rewrite !str_nil_app.
      change ("/" +:+ name)%string with (""%string +:+ String "/" name)%string.
      rewrite Split_last, fold_left_app by (by apply plain_without). cbn [fold_left].
      rewrite str_nil_app, HasPrefix_slash. cbn. by rewrite step_plain.
    + rewrite path_key_child, path_key_slash by done. done.
  - by apply path_key_child.
Qed.

Lemma staging_differs k : ~ staging k k.
Proof.
  intros (directory & name & n & E & _ & Ek). rewrite Ek in E. cbn in E.
  apply app_inj_tail in E as [_ E]. apply (f_equal slen) in E. rewrite !slen_app in E.
  pose proof (slen_nonneg (FormatUint n)). change (slen ".") with 1 in E.
  change (slen "-staging-") with 9 in E. lia.
Qed.

Lemma eq_staging_differs s k : staging k s -> s <> k.
Proof. intros H ->. by apply staging_differs in H. Qed.

(** A path to a file: clean, and its last segment a name. *)
Definition file_path (path : string) (rooted : bool) (directory : list string) (name : string) : Prop :=
  Clean path = path /\ path_key path = (rooted, directory ++ [name]) /\ plain_segment name = true.

Lemma Clean_nonempty path : Clean path <> ""%string.
Proof. unfold Clean. by destruct (decide _). Qed.

Lemma last_star_app s : last_star (s +:+ "*") = Some (s, ""%string).
Proof. induction s as [|c s IH]; [done|]. rewrite str_cons_app. cbn [last_star]. by rewrite IH. Qed.

Definition staging_segment (name : string) (n : Z) : string :=
  "." +:+ name +:+ "-staging-" +:+ FormatUint n.
Definition staging_prefix (path name : string) : string :=
  joinPath (filepath_Dir path) ("." +:+ name +:+ "-staging-").

Lemma staging_name_key path rooted directory name n :
  file_path path rooted directory name ->
  path_key (staging_prefix path name +:+ FormatUint n +:+ "") =
    (rooted, directory ++ [staging_segment name n]).
Proof.
  intros (Hclean & Hk & Hn). destruct (Clean_file _ _ _ _ Hk Hn) as [_ Hdir]. rewrite Hclean in Hdir.
  assert (staging_prefix path name +:+ FormatUint n +:+ "" =
    joinPath (filepath_Dir path) (staging_segment name n))%string as ->.
  { unfold staging_prefix, staging_segment, joinPath. rewrite str_app_nil.
    case_match; by rewrite !str_app_assoc. }
  rewrite joinPath_key, Hdir; [done| |by apply staging_plain].
  unfold filepath_Dir. apply Clean_nonempty.
Qed.

Lemma plain_no_slash name : plain_segment name = true -> some_char (is_char "/") name = false.
Proof.
  intros Hw%plain_without. induction name as [|c t IH]; [done|]. rewrite without_cons in Hw.
  apply andb_true_iff in Hw as [Hc%negb_true_iff Ht]. cbn [some_char]. rewrite Hc. by apply IH.
Qed.

(** [WriteFile] with its pattern taken apart. *)
Lemma WriteFile_run path rooted directory name data d :
  file_path path rooted directory name ->
  WriteFile path data d =
    (f ← create_temp (Z.to_nat 10000) (staging_prefix path name) ""; finish path f data) d.
Proof.
  intros (Hclean & Hk & Hn). destruct (Clean_file _ _ _ _ Hk Hn) as [Hbase _]. rewrite Hclean in Hbase.
  unfold WriteFile, CreateTemp. rewrite Hbase.
  assert (some_char (is_char "/") ("." +:+ name +:+ "-staging-*") = false) as ->.
  { by rewrite !some_char_app, (plain_no_slash name Hn). }
  assert (prefixAndSuffix ("." +:+ name +:+ "-staging-*") =
    ("." +:+ name +:+ "-staging-", "")%string) as ->; [|done].
  unfold prefixAndSuffix. change "-staging-*"%string with ("-staging-" +:+ "*")%string.
  by rewrite <- !str_app_assoc, last_star_app.
Qed.

(** A run ends with the new file in place or with the old one, and one staging
    file at most besides. *)
Lemma WriteFile_cases path rooted directory name data d0 d r :
  disk_ok d0 -> file_path path rooted directory name -> WriteFile path data d0 = (d, r) ->
  let k := (rooted, directory ++ [name]) in
  exists s, staging k s /\
    (r = Ok tt /\ published d0 (eq s) k data d \/ (exists e, r = Err e) /\ drafts d0 (eq s) d).
Proof.
  intros Hok Hp H k. rewrite (WriteFile_run _ _ _ _ _ _ Hp), bind_run in H.
  assert (forall n, 0 <= n < 2 ^ 32 ->
    staging k (path_key (staging_prefix path name +:+ FormatUint n +:+ ""))) as Hs.
  { intros n [Hr1 Hr2]. rewrite (staging_name_key _ _ _ _ _ Hp). by exists directory, name, n. }
  destruct (create_temp _ _ _ d0) as [d1 r1] eqn:E1.
  pose proof (create_temp_spec d0 _ _ _ _ _ _ (drafts_start _ _) E1) as Hc. destruct r1 as [f|e].
  - destruct Hc as (Hd1 & Hf & Ho & n & Hr & En). exists (path_key (fl_name f)).
    assert (staging k (path_key (fl_name f))) as Hst by (rewrite En; by apply Hs).
    split; [done|]. pose proof (eq_staging_differs _ _ Hst).
    eapply (finish_cases d0 _ k Hok); [by intros E|by destruct Hp as (_ & ? & _)|done..].
  - injection H as <- <-. exists (path_key (staging_prefix path name +:+ FormatUint 0 +:+ "")).
    split; [by apply Hs|]. right. split; [by eexists|]. by apply (drafts_weaken _ (fun _ => False)).
Qed.

(** ** Runs in which nothing fails *)

Definition live (d : disk) : Prop := dk_faults d = [] /\ dk_stopped d = false.

Lemma syscall_live {A} op path partly (call : prog disk A) d :
  live d -> syscall op path partly call d = call d.
Proof. intros [H1 H2]. unfold syscall. by rewrite H1, H2. Qed.

Lemma Lstat_live path d i n :
  live d -> inode_at (dk_table d) (path_key path) = Some (i, n) -> Lstat path d = (d, Ok n).
Proof. intros Hd Hi. unfold Lstat. by rewrite syscall_live, Hi. Qed.

Lemma Chmod_live path mode d i n :
  live d -> inode_at (dk_table d) (path_key path) = Some (i, n) ->
  Chmod path mode d = (with_table (set_inode i (mk_inode (in_kind n) mode) (dk_table d)) d, Ok tt).
Proof. intros Hd Hi. unfold Chmod. by rewrite syscall_live, Hi. Qed.

Lemma ProtectFile_live path d i n :
  live d -> inode_at (dk_table d) (path_key path) = Some (i, n) -> in_kind n = KFile ->
  ProtectFile path d = (with_table (set_inode i (mk_inode KFile mode_0600) (dk_table d)) d, Ok tt).
Proof.
  intros Hd Hi Hn. unfold ProtectFile. rewrite bind_run, (Lstat_live _ _ _ _ Hd Hi).
  unfold IsRegular. rewrite bool_decide_eq_true_2 by done. cbn [negb].
  by rewrite (Chmod_live _ _ _ _ _ Hd Hi), Hn.
Qed.

Lemma ProtectDirectory_live path d i n :
  live d -> inode_at (dk_table d) (path_key path) = Some (i, n) -> in_kind n = KDirectory ->
  ProtectDirectory path d =
    (with_table (set_inode i (mk_inode KDirectory mode_0700) (dk_table d)) d, Ok tt).
Proof.
  intros Hd Hi Hn. unfold ProtectDirectory. rewrite bind_run, (Lstat_live _ _ _ _ Hd Hi).
  unfold IsDir. rewrite bool_decide_eq_true_2 by done. cbn [negb].
  by rewrite (Chmod_live _ _ _ _ _ Hd Hi), Hn.
Qed.

Lemma opened_at f m c d :
  opened f m c d -> exists n, inode_at (dk_table d) (path_key (fl_name f)) = Some (fl_inode f, n) /\
    in_kind n = KFile.
Proof.
  intros (Hn & (x & Hi & _) & _). exists (mk_inode KFile x). unfold inode_at. rewrite Hn. cbn.
  by rewrite Hi.
Qed.

(** The staging file gets its data, and no other name or inode changes. *)
Lemma stage_file_live f data c d :
  live d -> opened f None c d ->
  exists d', stage_file f data d = (d', Ok tt) /\ live d' /\
    dk_table d' = set_inode (fl_inode f) (mk_inode KFile mode_0600) (dk_table d).
Proof.
  intros Hd (n & Hi & Hk)%opened_at. unfold stage_file, wrap_error. rewrite bind_run.
  rewrite (ProtectFile_live _ _ _ _ Hd Hi Hk). cbn [wrapf].
  unfold Write, Sync, Close. rewrite !bind_run, syscall_live by done.
  rewrite bind_run, syscall_live by done. rewrite syscall_live by done. by eexists.
Qed.

Lemma Rename_live source destination d i n :
  live d -> inode_at (dk_table d) (path_key source) = Some (i, n) ->
  is_directory (dk_table d) (path_key destination) = false ->
  is_directory (dk_table d) (parent_key (path_key destination)) = true ->
  exists d', Rename source destination d = (d', Ok tt) /\ live d'.
Proof.
  intros Hd Hi H1 H2. unfold Rename. rewrite syscall_live, Hi, H1, H2 by done. cbn [negb].
  destruct (decide _); by eexists.
Qed.

Lemma is_directory_same t t' q :
  tb_names t' !! q = tb_names t !! q ->
  (forall i, tb_names t !! q = Some i -> tb_inodes t' !! i = tb_inodes t !! i) ->
  is_directory t' q = is_directory t q.
Proof.
  intros Hn Hi. unfold is_directory, inode_at. rewrite Hn. destruct (tb_names t !! q) as [i|]; [|done].
  cbn. by rewrite Hi.
Qed.

(** The first number is free: the staging file is made at once. *)
Lemma create_temp_live prefix suffix d d0 n q :
  live d -> next_random d = (d0, n) -> path_key (prefix +:+ FormatUint n +:+ suffix) = q ->
  tb_names (dk_table d) !! q = None -> is_directory (dk_table d) (parent_key q) = true ->
  create_temp (Z.to_nat 10000) prefix suffix d =
    (create q (mk_inode KFile (without_umask d mode_0600)) d0,
     Ok (mk_file (dk_next d) (prefix +:+ FormatUint n +:+ suffix))).
Proof.
  intros Hd En Hk Hfree Hdir. assert (exists m, Z.to_nat 10000 = S m) as [m ->] by (exists (Z.to_nat 9999); lia).
  assert (live d0 /\ dk_table d0 = dk_table d /\ dk_next d0 = dk_next d /\ dk_umask d0 = dk_umask d)
    as (Hd0 & Et & Ex & Eu).
  { unfold next_random in En. destruct (dk_random d); injection En as <- _; done. }
  cbn [create_temp]. rewrite bind_run, En, bind_run. unfold attempt, make.
  rewrite syscall_live by done. cbv zeta. rewrite Hk, Et, Hfree, Hdir.
  unfold without_umask. by rewrite Ex, Eu.
Qed.

Lemma next_random_same d :
  dk_table (next_random d).1 = dk_table d /\ dk_next (next_random d).1 = dk_next d /\
  (live d -> live (next_random d).1) /\ 0 <= (next_random d).2 < 2 ^ 32.
Proof.
  unfold next_random. destruct (dk_random d); [done|]. split_and!; try done; by apply Z.mod_pos_bound.
Qed.

(** When nothing fails and the first number is free, the file is written. *)
Lemma WriteFile_live path rooted directory name data d :
  disk_ok d -> file_path path rooted directory name -> live d ->
  is_directory (dk_table d) (rooted, directory) = true ->
  is_directory (dk_table d) (rooted, directory ++ [name]) = false ->
  tb_names (dk_table d) !! (rooted, directory ++ [staging_segment name (next_random d).2]) = None ->
  exists d', WriteFile path data d = (d', Ok tt) /\ live d'.
Proof.
  intros Hok Hp Hd Hdir Hfile Hfree. rewrite (WriteFile_run _ _ _ _ _ _ Hp), bind_run.
  destruct (next_random_same d) as (Et & Ex & Hl & Hr). destruct (next_random d) as [d0 n] eqn:En.
  cbn [fst snd] in *. specialize (Hl Hd). set (sk := (rooted, directory ++ [staging_segment name n])) in *.
  assert (path_key (staging_prefix path name +:+ FormatUint n +:+ "") = sk) as Ek
    by by apply staging_name_key.
  assert (parent_key sk = (rooted, directory)) as Epar.
  { unfold parent_key, sk. cbn [fst snd]. by rewrite removelast_last. }
  rewrite (create_temp_live _ _ _ _ _ sk Hd En Ek Hfree) by by rewrite Epar.
  set (f := mk_file _ _). set (d1 := create sk _ d0). assert (live d1) as Hd1 by done.
  assert (opened f None (mk_contents "" "") d1) as Ho.
  { unfold opened, d1, f. cbn [fl_name fl_inode]. rewrite Ek. cbn. rewrite <- Ex, !lookup_insert_eq.
    split_and!; [done| |done]. by eexists. }
  unfold finish. rewrite bind_run.
  destruct (stage_file_live f data _ d1 Hd1 Ho) as (d2 & E2 & Hd2 & Et2).
  rewrite (or_clean_up_ok _ _ _ _ _ _ E2), bind_run.
  assert (forall q, q <> sk -> is_directory (dk_table d2) q = is_directory (dk_table d) q) as Hsame.
  { intros q Hq. apply is_directory_same; rewrite Et2; cbn; rewrite Et.
    - by rewrite lookup_insert_ne.
    - intros i Hi. assert (i < dk_next d) by (destruct Hok as [H1 _]; eapply H1; [by left|exact Hi]).
      rewrite !lookup_insert_ne by (rewrite ?Ex; cbn; lia). done. }
  assert ((rooted, directory ++ [name]) <> sk) as Hne.
  { intros E. apply (staging_differs (rooted, directory ++ [name])). rewrite E at 2.
    exists directory, name, n. by split_and!; try lia. }
  destruct (opened_at _ _ _ _ Ho) as (n1 & [Hn1 _]%inode_at_Some & _). destruct Hp as (_ & Hkey & _).
  destruct (Rename_live (fl_name f) path d2 (fl_inode f) (mk_inode KFile mode_0600) Hd2) as (d3 & E3 & Hd3).
  - rewrite Et2. apply inode_at_Some. split; [done|]. cbn. by rewrite lookup_insert_eq.
  - by rewrite Hkey, Hsame.
  - rewrite Hkey. unfold parent_key. cbn [fst snd]. rewrite removelast_last, Hsame; [done|].
    intros [= E]. apply (f_equal length) in E. rewrite length_app in E. cbn in E. lia.
  - exists d3. split; [|done]. rewrite (or_clean_up_ok f true _ d2 d3 tt); [done|].
    unfold wrap_error, replaceFile. by rewrite E3.
Qed.

Lemma write_file_found path rooted directory name data d d' r found :
  disk_ok d -> file_path path rooted directory name -> WriteFile path data d = (d', r) ->
  after d' found ->
  let k := (rooted, directory ++ [name]) in
  exists d0, after d d0 /\
    (forall q, q <> k -> look found q = look d0 q \/ look d0 q = None /\ staging k q) /\
    (look found k = look d0 k \/ look found k = Some (mk_inode KFile mode_0600, data)).
Proof.
  intros Hok Hp H Ha k. destruct (WriteFile_cases _ _ _ _ _ _ _ _ Hok Hp H) as (s & Hs & Hc).
  pose proof (eq_staging_differs _ _ Hs) as Hne.
  enough (survives d (eq s) k data found) as (d0 & Hd0 & Hq & Hk).
  { exists d0. split_and!; [done| |done]. intros q Hne'. destruct (Hq q Hne') as [|[? <-]]; auto. }
  destruct Hc as [[_ Hc]|[_ Hc]].
  - by eapply published_survives.
  - eapply drafts_survive; [done| |done|done]. by intros E.
Qed.

Lemma write_file_done path rooted directory name data d d' :
  disk_ok d -> file_path path rooted directory name -> WriteFile path data d = (d', Ok tt) ->
  let k := (rooted, directory ++ [name]) in
  look d' k = Some (mk_inode KFile mode_0600, data) /\ forall q, q <> k -> look d' q = look d q.
Proof.
  intros Hok Hp H k. destruct (WriteFile_cases _ _ _ _ _ _ _ _ Hok Hp H) as (s & Hs & Hc).
  pose proof (eq_staging_differs _ _ Hs) as Hne. destruct Hc as [[_ Hc]|[[e He] _]]; [|done].
  pose proof (contents_after_refl (dk_contents d')) as Hsame.
  destruct (published_look d (eq s) k Hok _ _ _ Hc eq_refl Hsame) as (Hk & f & <- & Hq).
  split; [done|]. intros q Hne'.
  destruct Hc as (d1 & f1 & (_ & _ & _ & Hc) & _ & _ & _ & _ & Ec).
  assert (look d q = look (with_contents_of d d') q) as ->.
  { symmetry. apply look_name; [done|]. intros i Hi. split; [done|]. cbn. rewrite Ec. apply Hc.
    destruct Hok as [Hlt _]. eapply Hlt; [by left|exact Hi]. }
  destruct (Hq q Hne') as [|(_ & -> & ?)]; done.
Qed.

Lemma keeps_same_files_Chmod d0 path mode : keeps (same_files d0) (Chmod path mode).
Proof.
  apply keeps_syscall; [done|done|]. intros d Hd. destruct (inode_at _ _) as [[i n]|] eqn:E; [|done].
  eapply same_files_trans; [exact Hd|]. by eapply same_files_mode.
Qed.

Lemma keeps_same_files_Lstat d0 path : keeps (same_files d0) (Lstat path).
Proof. apply keeps_syscall; [done|done|]. intros d Hd. by destruct (inode_at _ _) as [[]|]. Qed.

Lemma keeps_same_files_ReadFile d0 path : keeps (same_files d0) (ReadFile path).
Proof. apply keeps_syscall; [done|done|]. intros d Hd. by repeat case_match. Qed.

Lemma keeps_same_files_ProtectFile d0 path : keeps (same_files d0) (ProtectFile path).
Proof.
  apply keeps_bind; [apply keeps_same_files_Lstat|]. intros n. destruct (negb _); [apply keeps_fail|].
  apply keeps_same_files_Chmod.
Qed.

Lemma ProtectDirectory_done path d d' :
  ProtectDirectory path d = (d', Ok tt) -> kind_at d' (path_key path) = Some KDirectory.
Proof.
  intros H. apply bind_run_ok in H as (d1 & n & [f Hl]%syscall_ok & H).
  cbn [dk_table with_faults] in Hl.
  destruct (inode_at (dk_table d) (path_key path)) as [[i m]|] eqn:Ei;
    [|injection Hl as _ Hl; unfold missing in Hl; by destruct (blocked _ _)].
  injection Hl as <- <-. destruct (IsDir m) eqn:Er; [|done]. cbn [negb] in H.
  apply syscall_ok in H as [f2 H]. cbn [dk_table with_faults] in H. rewrite Ei in H. injection H as <-.
  unfold IsDir in Er. apply bool_decide_eq_true in Er.
  apply inode_at_Some in Ei as [E1 E2]. apply kind_at_Some. exists i, (mk_inode (in_kind m) mode_0700).
  split; [|done]. apply inode_at_Some. split; [done|]. cbn. by rewrite lookup_insert_eq.
Qed.

Lemma look_kind d q n t : look d q = Some (n, t) -> kind_at d q = Some (in_kind n).
Proof. unfold kind_at. by intros ->. Qed.

(** When nothing fails nothing fails afterwards. *)
Lemma live_syscall {A} op path partly (call : prog disk A) :
  (forall d, live d -> live (call d).1) -> keeps live (syscall op path partly call).
Proof. intros H d Hd. rewrite syscall_live by done. by apply H. Qed.

Lemma live_Lstat path : keeps live (Lstat path).
Proof. apply live_syscall. intros d Hd. by destruct (inode_at _ _) as [[]|]. Qed.
Lemma live_Stat path : keeps live (Stat_IsDir path).
Proof. apply live_syscall. intros d Hd. by destruct (inode_at _ _) as [[]|]. Qed.
Lemma live_Chmod path mode : keeps live (Chmod path mode).
Proof. apply live_syscall. intros d Hd. by destruct (inode_at _ _) as [[]|]. Qed.
Lemma live_ReadFile path : keeps live (ReadFile path).
Proof. apply live_syscall. intros d Hd. by repeat case_match. Qed.
Lemma live_make op what path mode : keeps live (make op what path mode).
Proof.
  apply live_syscall. intros d Hd. cbn zeta. destruct (tb_names _ !! _); [done|].
  by destruct (is_directory _ _).
Qed.
Lemma live_Write f data : keeps live (Write f data).
Proof. by apply live_syscall. Qed.
Lemma live_Sync f : keeps live (Sync f).
Proof. by apply live_syscall. Qed.
Lemma live_Close f : keeps live (Close f).
Proof. by apply live_syscall. Qed.
Lemma live_Remove path : keeps live (Remove path).
Proof. apply live_syscall. intros d Hd. destruct (inode_at _ _) as [[]|]; [|done]. by case_match. Qed.
Lemma live_Rename source destination : keeps live (Rename source destination).
Proof.
  apply live_syscall. intros d Hd. cbv zeta. destruct (inode_at _ _) as [[]|]; [|done].
  destruct (is_directory _ _); [done|]. destruct (negb _); [done|]. by destruct (decide _).
Qed.

Lemma live_ProtectFile path : keeps live (ProtectFile path).
Proof.
  apply keeps_bind; [apply live_Lstat|]. intros n. destruct (negb _); [apply keeps_fail|apply live_Chmod].
Qed.
Lemma live_ProtectDirectory path : keeps live (ProtectDirectory path).
Proof.
  apply keeps_bind; [apply live_Lstat|]. intros n. destruct (negb _); [apply keeps_fail|apply live_Chmod].
Qed.

Lemma live_mkdir_all rooted reversed mode : keeps live (mkdir_all rooted reversed mode).
Proof.
  induction reversed as [|s l IH]; cbn [mkdir_all];
    (apply keeps_bind; [apply keeps_attempt, live_Stat|]; intros [[]|e]; [by intros d|apply keeps_fail|]);
    (apply keeps_bind; [|intros _; apply keeps_bind;
       [apply keeps_attempt, live_make|intros [i|e']; [by intros d|]];
       apply keeps_bind; [apply keeps_attempt, live_Lstat|intros [n|e'']; [|apply keeps_fail]];
       by destruct (IsDir n); [intros d|apply keeps_fail]]).
  - by intros d.
  - by destruct l; [intros d|].
Qed.

Lemma live_create_temp tries prefix suffix : keeps live (create_temp tries prefix suffix).
Proof.
  induction tries as [|tries IH]; cbn [create_temp]; [apply keeps_fail|].
  apply keeps_bind; [intros d Hd; by pose proof (next_random_same d) as (_ & _ & H & _); destruct (next_random d); apply H|].
  intros number. apply keeps_bind; [apply keeps_attempt, live_make|]. intros [i|e]; [by intros d|].
  destruct (IsExist e); [done|apply keeps_fail].
Qed.

Lemma live_clean_up f closed published : keeps live (clean_up f closed published).
Proof. unfold clean_up. destruct closed, published; keeps_cases; eauto using live_Close, live_Remove. Qed.

Lemma live_or_clean_up {A} f closed (c : prog disk A) : keeps live c -> keeps live (or_clean_up f closed c).
Proof.
  intros Hc. apply keeps_bind; [by apply keeps_attempt|]. intros [a|e]; [by intros d|].
  apply keeps_bind; [apply live_clean_up|]. intros _. apply keeps_fail.
Qed.

Lemma live_WriteFile path data : keeps live (WriteFile path data).
Proof.
  apply keeps_bind.
  { unfold CreateTemp. destruct (some_char _ _); [apply keeps_fail|].
    destruct (prefixAndSuffix _). apply live_create_temp. }
  intros f. cbv zeta. apply keeps_bind; [|intros _; apply keeps_bind].
  - apply live_or_clean_up. apply keeps_bind; [apply keeps_wrap_error, live_ProtectFile|]. intros _.
    apply keeps_bind; [apply live_Write|]. intros _. apply keeps_bind; [apply live_Sync|]. intros _. apply live_Close.
  - apply live_or_clean_up, keeps_wrap_error, live_Rename.
  - intros _. apply live_clean_up.
Qed.

Lemma ProtectFile_done path d d' :
  ProtectFile path d = (d', Ok tt) ->
  exists text, look d' (path_key path) = Some (mk_inode KFile mode_0600, text).
Proof.
  intros H. apply bind_run_ok in H as (d1 & n & [f Hl]%syscall_ok & H).
  cbn [dk_table with_faults] in Hl.
  destruct (inode_at (dk_table d) (path_key path)) as [[i m]|] eqn:Ei;
    [|injection Hl as _ Hl; unfold missing in Hl; by destruct (blocked _ _)].
  injection Hl as <- <-. destruct (IsRegular m) eqn:Er; [|done]. cbn [negb] in H.
  apply syscall_ok in H as [f2 H]. cbn [dk_table with_faults] in H. rewrite Ei in H. injection H as <-.
  unfold IsRegular in Er. apply bool_decide_eq_true in Er. rewrite Er.
  unfold look. apply inode_at_Some in Ei as [E1 E2].
  assert (inode_at (set_inode i (mk_inode KFile mode_0600) (dk_table d)) (path_key path) =
    Some (i, mk_inode KFile mode_0600)) as E.
  { apply inode_at_Some. split; [done|]. cbn. by rewrite lookup_insert_eq. }
  cbn [dk_table with_table with_faults]. rewrite E. by eexists.
Qed.

(** The directory itself is no regular file once it is protected. *)
Lemma protected_directory path d d' r :
  ProtectDirectory path d = (d', r) -> (forall e, r = Err e -> IsNotExist e = true) ->
  text_at d (path_key path) = None.
Proof.
  unfold ProtectDirectory. rewrite bind_run. destruct (Lstat path d) as [d1 [n|e]] eqn:El.
  - intros H Hr. apply syscall_ok in El as [f El]. cbn [dk_table with_faults] in El.
    unfold text_at, look. destruct (inode_at (dk_table d) (path_key path)) as [[i m]|] eqn:Ei; [|done].
    injection El as _ <-. cbn. unfold IsRegular. destruct (IsDir m) eqn:Em; cbn [negb] in H.
    + unfold IsDir in Em. apply bool_decide_eq_true in Em. by rewrite Em.
    + injection H as _ <-. by specialize (Hr _ eq_refl).
  - intros [= <- <-] Hr. eapply Lstat_absent; [done|exact El|by apply Hr].
Qed.

(** What the calls do, in terms of texts and kinds. *)
Lemma ProtectDirectory_fine path d :
  live d -> kind_at d (path_key path) = Some KDirectory ->
  exists d', ProtectDirectory path d = (d', Ok tt) /\ live d' /\ same_files d d'.
Proof.
  intros Hd (i & n & Hi & Hn)%kind_at_Some. rewrite (ProtectDirectory_live _ _ _ _ Hd Hi Hn), <- Hn.
  eexists. split; [done|]. split; [done|]. by eapply same_files_mode.
Qed.

Lemma ProtectFile_fine path d t :
  live d -> text_at d (path_key path) = Some t ->
  exists d', ProtectFile path d = (d', Ok tt) /\ live d' /\ same_files d d'.
Proof.
  intros Hd (i & n & Hi & Hn & _)%text_at_Some. rewrite (ProtectFile_live _ _ _ _ Hd Hi Hn), <- Hn.
  eexists. split; [done|]. split; [done|]. by eapply same_files_mode.
Qed.

Lemma ReadFile_fine path d t :
  live d -> text_at d (path_key path) = Some t -> ReadFile path d = (d, Ok t).
Proof.
  intros Hd (i & n & Hi & Hn & Ht)%text_at_Some. unfold ReadFile. rewrite syscall_live, Hi by done.
  unfold IsRegular. by rewrite bool_decide_eq_true_2, Ht.
Qed.

Lemma Lstat_fine path d t :
  live d -> text_at d (path_key path) = Some t -> exists n, Lstat path d = (d, Ok n).
Proof. intros Hd (i & n & Hi & _)%text_at_Some. exists n. by eapply Lstat_live. Qed.

(** C34: [WriteFile] is atomic: whatever a call of the system runs into, and
    whatever a loss of power then leaves, every file is as it could have been
    without the call, except that the file itself may hold the new data, whole
    and with mode 0600, and that a staging file may be left; when [WriteFile]
    succeeds the file holds the new data and nothing else is different. *)
Theorem write_file_atomic path rooted directory name data d d' r :
  disk_ok d -> file_path path rooted directory name -> WriteFile path data d = (d', r) ->
  let k := (rooted, directory ++ [name]) in
  let new := Some (mk_inode KFile mode_0600, data) in
  (forall found, after d' found -> exists d0, after d d0 /\
    (forall q, q <> k -> look found q = look d0 q \/ look d0 q = None /\ staging k q) /\
    (look found k = look d0 k \/ look found k = new)) /\
  (r = Ok tt -> look d' k = new /\ forall q, q <> k -> look d' q = look d q).
Proof.
  intros Hok Hp H k new. split.
  - intros found. by eapply write_file_found.
  - intros ->. by eapply write_file_done.
Qed.
