(* ===== verification/Config.v ===== *)
(** * Config: [internal/config]

    [config.go]: the network profiles, the defaults, what is effective, and
    loading and saving [config.json] on the disk of [FileSystem].  The fields
    of [Config] that a profile owns and the deprecated ones are records of
    their own. *)
From Stdlib Require Import ZArith Lia Ascii String.
From stdpp Require Import base list gmap strings option.
From S2P Require Import Prelude GoText Prog I18n Json Ipfs EvmAddress Paths FileSystem FileProtection.

Local Open Scope Z_scope.

(** ** Data *)

(** The fields of [Config] that a network profile owns. *)
Record owned := mk_owned {
  ow_Network : string;
  ow_EVMSuiteDirectoryAddress : string;
  ow_EVMRPC : string;
  ow_EVMChainID : Z;
  ow_EVMExplorer : string;
  ow_ChainID : string;
  ow_LCDEndpoint : string;
  ow_Node : string }.

(** The deprecated fields, which are not part of the file. *)
Record legacy := mk_legacy {
  lg_ContractBackend : string;
  lg_ContractVersion : string;
  lg_ContractAddress : string;
  lg_EVMContractAddress : string;
  lg_EVMBadgeModuleAddress : string;
  lg_EVMEconomicModuleAddress : string;
  lg_EVMModerationModuleAddress : string }.

Record Upload := mk_Upload {
  up_Endpoint : string;
  up_AuthorizationEndpoint : string;
  up_Authorization : string;
  up_USPeer : string;
  up_HKPeer : string }.

Record Config := mk_Config {
  cf_owned : owned;
  cf_legacy : legacy;
  cf_EVMKeystoreDir : string;
  cf_KeyName : string;
  cf_KeyringBackend : string;
  cf_InjectivedBin : string;
  cf_GasPrices : string;
  cf_IPFSAPI : string;
  cf_IPFSBin : string;
  cf_IPFSGateway : string;
  cf_Gateways : slice Gateway;
  cf_Upload : Upload;
  cf_PublicGatewayFallbacks : slice string }.

#[export] Instance owned_eq_dec : EqDecision owned.
Proof. solve_decision. Defined.

Definition with_profile (o : owned) (l : legacy) (c : Config) : Config :=
  mk_Config o l (cf_EVMKeystoreDir c) (cf_KeyName c) (cf_KeyringBackend c) (cf_InjectivedBin c)
    (cf_GasPrices c) (cf_IPFSAPI c) (cf_IPFSBin c) (cf_IPFSGateway c) (cf_Gateways c) (cf_Upload c)
    (cf_PublicGatewayFallbacks c).

Definition DefaultUSUploadPeer : string :=
  "/ip4/162.35.187.224/tcp/4001/p2p/12D3KooWBGyxqNM3q6nHvacFfqnwoXP2uXxP36uSPab2p16ywfFS".
Definition DefaultHKUploadPeer : string :=
  "/dns4/igit-hk.haohanyh.ovh/tcp/4001/p2p/12D3KooWRfRoRqEyC4Qsb4ow2yfGsSAAymTFSxj6vr2SYQnxk55W".

Definition ErrorCodeMissingEVMSuiteDirectory : string := "config.evm_suite_directory_missing".
Definition ErrorCodeInvalidEVMSuiteDirectory : string := "config.evm_suite_directory_invalid".
Definition ErrorCodeMissingEVMRPC : string := "config.evm_rpc_missing".
Definition ErrorCodeMissingEVMChainID : string := "config.evm_chain_id_missing".

(** ** Network profiles *)

Record NetworkProfile := mk_NetworkProfile {
  np_Name : string;
  np_CosmosChainID : string;
  np_EVMChainID : Z;
  np_LCDEndpoint : string;
  np_CosmosRPC : string;
  np_EVMRPC : string;
  np_EVMExplorer : string;
  np_EVMSuiteDirectory : string }.

Definition testnet : NetworkProfile := {|
  np_Name := "injective-testnet";
  np_CosmosChainID := "injective-888";
  np_EVMChainID := 1439;
  np_LCDEndpoint := "https://k8s.testnet.lcd.injective.network";
  np_CosmosRPC := "https://k8s.testnet.tm.injective.network";
  np_EVMRPC := "https://k8s.testnet.json-rpc.injective.network";
  np_EVMExplorer := "https://testnet.blockscout.injective.network";
  np_EVMSuiteDirectory := "" |}.
Definition mainnet : NetworkProfile := {|
  np_Name := "injective-mainnet";
  np_CosmosChainID := "injective-1";
  np_EVMChainID := 1776;
  np_LCDEndpoint := "https://lcd.injective.network";
  np_CosmosRPC := "https://tm.injective.network";
  np_EVMRPC := "https://sentry.evm-rpc.injective.network/";
  np_EVMExplorer := "https://blockscout.injective.network";
  np_EVMSuiteDirectory := "" |}.

Definition networkProfiles : gmap string NetworkProfile :=
  {["injective-testnet" := testnet; "injective-mainnet" := mainnet]}%string.

(** A field that is filled unless it has a value. *)
Definition or_profile (value from_profile : string) : string :=
  if decide (value = ""%string) then from_profile else value.

Definition upgraded : legacy := mk_legacy "evm" "v3" "" "" "" "" "".

Section Configuration.
Context {UC : UnicodeCase}.

Definition network_name (name : string) : string := wide_ToLower (TrimSpace name).

Definition NetworkProfileFor (name : string) : option NetworkProfile :=
  networkProfiles !! network_name name.

Definition profile_owned (p : NetworkProfile) : owned := {|
  ow_Network := np_Name p;
  ow_EVMSuiteDirectoryAddress := np_EVMSuiteDirectory p;
  ow_EVMRPC := np_EVMRPC p;
  ow_EVMChainID := np_EVMChainID p;
  ow_EVMExplorer := np_EVMExplorer p;
  ow_ChainID := np_CosmosChainID p;
  ow_LCDEndpoint := np_LCDEndpoint p;
  ow_Node := np_CosmosRPC p |}.

Definition SelectNetworkProfile (cfg : Config) (name : string) : result Config :=
  match NetworkProfileFor name with
  | None => errf "unknown network profile %q" [GStr (TrimSpace name)]
  | Some profile => Ok (with_profile (profile_owned profile) upgraded cfg)
  end.

Definition fill_owned (p : NetworkProfile) (o : owned) : owned := {|
  ow_Network := np_Name p;
  ow_EVMSuiteDirectoryAddress := or_profile (ow_EVMSuiteDirectoryAddress o) (np_EVMSuiteDirectory p);
  ow_EVMRPC := or_profile (ow_EVMRPC o) (np_EVMRPC p);
  ow_EVMChainID := if ow_EVMChainID o =? 0 then np_EVMChainID p else ow_EVMChainID o;
  ow_EVMExplorer := or_profile (ow_EVMExplorer o) (np_EVMExplorer p);
  ow_ChainID := or_profile (ow_ChainID o) (np_CosmosChainID p);
  ow_LCDEndpoint := or_profile (ow_LCDEndpoint o) (np_LCDEndpoint p);
  ow_Node := or_profile (ow_Node o) (np_CosmosRPC p) |}.

Definition ApplyNetworkProfile (cfg : Config) : Config :=
  let name := network_name (ow_Network (cf_owned cfg)) in
  let name := if decide (name = ""%string) then "injective-testnet"%string else name in
  match NetworkProfileFor name with
  | None => cfg
  | Some profile =>
      let l := cf_legacy cfg in
      with_profile (fill_owned profile (cf_owned cfg))
        (mk_legacy "evm" "v3" (lg_ContractAddress l) (lg_EVMContractAddress l)
           (lg_EVMBadgeModuleAddress l) (lg_EVMEconomicModuleAddress l)
           (lg_EVMModerationModuleAddress l)) cfg
  end.

(** [Config{Network: name}] *)
Definition only_network (name : string) : Config :=
  mk_Config (mk_owned name "" "" 0 "" "" "" "") (mk_legacy "" "" "" "" "" "" "")
    "" "" "" "" "" "" "" "" None (mk_Upload "" "" "" "" "") None.

Definition Defaults : Config := ApplyNetworkProfile {|
  cf_owned := {|
    ow_Network := "injective-testnet";
    ow_EVMSuiteDirectoryAddress := "";
    ow_EVMRPC := "";
    ow_EVMChainID := 0;
    ow_EVMExplorer := "";
    ow_ChainID := "injective-888";
    ow_LCDEndpoint := "https://testnet.sentry.lcd.injective.network:443";
    ow_Node := "https://testnet.sentry.tm.injective.network:443" |};
  cf_legacy := mk_legacy "evm" "v3" "" "" "" "" "";
  cf_EVMKeystoreDir := "";
  cf_KeyName := "";
  cf_KeyringBackend := "test";
  cf_InjectivedBin := "injectived";
  cf_GasPrices := "500000000inj";
  cf_IPFSAPI := "http://127.0.0.1:5001";
  cf_IPFSBin := "ipfs";
  cf_IPFSGateway := "https://igit-hk.haohanyh.ovh";
  cf_Gateways := Some [mk_Gateway "hk" "https://igit-hk.haohanyh.ovh";
                       mk_Gateway "us" "https://igit-us.haohanyh.ovh"]%string;
  cf_Upload := {|
    up_Endpoint := "https://igit-us.haohanyh.ovh/v1/replications";
    up_AuthorizationEndpoint := "https://www.igit.xyz/api/upload-authorization";
    up_Authorization := "";
    up_USPeer := DefaultUSUploadPeer;
    up_HKPeer := DefaultHKUploadPeer |};
  cf_PublicGatewayFallbacks := Some ["https://ipfs.io"%string] |}.

(** ** What is effective *)

Definition EffectiveContractBackend (c : Config) : string := "evm".
Definition EffectiveContractVersion (c : Config) : string := "v3".

Definition EffectiveEVMRPC (c : Config) : string :=
  let value := TrimSpace (ow_EVMRPC (cf_owned c)) in
  if decide (value = ""%string) then
    match NetworkProfileFor (ow_Network (cf_owned c)) with
    | Some profile => TrimRight (np_EVMRPC profile) "/"
    | None => ""
    end
  else TrimRight value "/".

Definition EffectiveEVMContractAddress (c : Config) : string :=
  TrimSpace (lg_EVMContractAddress (cf_legacy c)).

Definition EffectiveEVMSuiteDirectoryAddress (c : Config) : string :=
  let value := TrimSpace (ow_EVMSuiteDirectoryAddress (cf_owned c)) in
  if decide (value = ""%string) then
    match NetworkProfileFor (ow_Network (cf_owned c)) with
    | Some profile => TrimSpace (np_EVMSuiteDirectory profile)
    | None => ""
    end
  else value.

Definition EffectiveEVMBadgeModuleAddress (c : Config) : string :=
  TrimSpace (lg_EVMBadgeModuleAddress (cf_legacy c)).
Definition EffectiveEVMEconomicModuleAddress (c : Config) : string :=
  TrimSpace (lg_EVMEconomicModuleAddress (cf_legacy c)).
Definition EffectiveEVMModerationModuleAddress (c : Config) : string :=
  TrimSpace (lg_EVMModerationModuleAddress (cf_legacy c)).

Definition EffectiveEVMChainID (c : Config) : Z :=
  if ow_EVMChainID (cf_owned c) =? 0 then
    match NetworkProfileFor (ow_Network (cf_owned c)) with
    | Some profile => np_EVMChainID profile
    | None => 0
    end
  else ow_EVMChainID (cf_owned c).

Definition EffectiveUploadPeers (c : Config) : list string :=
  let us := or_profile (TrimSpace (up_USPeer (cf_Upload c))) DefaultUSUploadPeer in
  let hk := or_profile (TrimSpace (up_HKPeer (cf_Upload c))) DefaultHKUploadPeer in
  if decide (hk = us) then [us] else [us; hk].

(** [strings.TrimRight(strings.TrimSpace(raw), "/")] *)
Definition gateway_url (raw : string) : string := TrimRight (TrimSpace raw) "/".

(** The loop of [EffectiveReadFallbacks] and of [EffectiveGateways]: the URLs
    seen and the items kept so far. *)
Definition add_unseen {A} (url : string) (item : A) (acc : gset string * list A)
  : gset string * list A :=
  let '(seen, items) := acc in
  if bool_decide (url = ""%string) || bool_decide (url ∈ seen) then acc
  else ({[url]} ∪ seen, items ++ [item]).

Definition EffectiveReadFallbacks (c : Config) : list string :=
  (fold_left (fun acc raw => add_unseen (gateway_url raw) (gateway_url raw) acc)
     (default [] (cf_PublicGatewayFallbacks c)) (∅, [])).2.

Definition trimmed (g : Gateway) : Gateway := mk_Gateway (gw_Name g) (gateway_url (gw_URL g)).

Definition EffectiveGateways (c : Config) : list Gateway :=
  let legacyURL := gateway_url (cf_IPFSGateway c) in
  let configured := default [] (cf_Gateways c) in
  let legacyNamed := existsb (fun g => bool_decide (gateway_url (gw_URL g) = legacyURL)) configured in
  let legacyPublic :=
    existsb (fun fallback => bool_decide (gateway_url fallback = legacyURL))
      (default [] (cf_PublicGatewayFallbacks c)) in
  let gateways :=
    (fold_left (fun acc g => add_unseen (gw_URL (trimmed g)) (trimmed g) acc) configured (∅, [])).2 in
  if negb legacyNamed && negb legacyPublic && negb (bool_decide (legacyURL = ""%string))
  then mk_Gateway "custom" (gateway_url legacyURL) :: gateways
  else gateways.

(** ** Validation *)

Definition validEVMAddress (value : string) : bool :=
  let value := TrimSpace value in
  if negb (slen value =? 42) || negb (HasPrefix value "0x" || HasPrefix value "0X") then false
  else bool_decide (is_Some (hex_decode (String.substring 2 40 value))).

Definition check_profile (entry : string * NetworkProfile) : result unit :=
  let '(name, profile) := entry in
  fail_if bool_decide (TrimSpace name = ""%string) || negb (bool_decide (np_Name profile = name))
    as Errorf "published profile map key %q does not match profile name %q" [GStr name; GStr (np_Name profile)] ;;
  let value := TrimSpace (np_EVMSuiteDirectory profile) in
  fail_if negb (bool_decide (value = ""%string))
    as Errorf "published profile %q has SuiteDirectory %q without deployment/cutover evidence verification" [GStr name; GStr value] ;;
  Ok tt.

Definition ValidatePublishedSuiteProfiles {MO : MapOrder} : result unit :=
  let cfg := Defaults in
  fail_if negb (bool_decide (EffectiveContractBackend cfg = "evm"%string)) ||
          negb (bool_decide (EffectiveContractVersion cfg = "v3"%string))
    as Errorf "published defaults select %s/%s, want evm/v3"
         [GStr (EffectiveContractBackend cfg); GStr (EffectiveContractVersion cfg)] ;;
  fail_if bool_decide (networkProfiles = ∅)
    as Errorf "no published network profiles are configured" [] ;;
  forM check_profile (map_order (map_to_list networkProfiles)).

Context {EN : Environment}.

Definition ValidateContract (c : Config) : result unit :=
  let address := TrimSpace (EffectiveEVMSuiteDirectoryAddress c) in
  fail_if bool_decide (address = ""%string)
    as ErrorfCode ErrorCodeMissingEVMSuiteDirectory
         "missing EVM SuiteDirectory address (deployment and cutover evidence must be approved before the profile is updated)"
         "缺少 EVM SuiteDirectory 地址（部署和切换证据获批后才能更新网络配置）" [] ;;
  fail_if negb (validEVMAddress address)
    as ErrorfCode ErrorCodeInvalidEVMSuiteDirectory
         "invalid EVM SuiteDirectory address %q (expected 0x followed by 40 hex characters)"
         "EVM SuiteDirectory 地址 %q 无效（应为 0x 后跟 40 个十六进制字符）" [GStr address] ;;
  fail_if bool_decide (EffectiveEVMRPC c = ""%string)
    as ErrorfCode ErrorCodeMissingEVMRPC "missing EVM RPC endpoint" "缺少 EVM RPC 端点" [] ;;
  fail_if EffectiveEVMChainID c =? 0
    as ErrorfCode ErrorCodeMissingEVMChainID "missing EVM chain ID" "缺少 EVM chain ID" [] ;;
  Ok tt.

Definition Validate (c : Config) : result unit :=
  check? ValidateContract c ;;
  fail_if bool_decide (cf_KeyName c = ""%string)
    as i18n_Errorf "missing config: key_name (run `igit config set <key> <value>`)"
         "缺少配置：key_name（运行 `igit config set <key> <value>`）" [] ;;
  Ok tt.

Definition ValidateBadgeModule (c : Config) : result unit := ValidateContract c.
Definition ValidateEconomicModule (c : Config) : result unit := ValidateContract c.
Definition ValidateModerationModule (c : Config) : result unit := ValidateContract c.

(** ** The file *)

Definition gateway_json (g : Gateway) : json :=
  JObject [text_member "name" (gw_Name g); text_member "url" (gw_URL g)].

Definition slice_json {T} (encode : T -> json) (s : slice T) : json :=
  match s with None => JNull | Some items => JArray (map encode items) end.

Definition upload_json (u : Upload) : json :=
  JObject ([text_member "endpoint" (up_Endpoint u);
            text_member "authorization_endpoint" (up_AuthorizationEndpoint u)] ++
           text_unless_empty "authorization" (up_Authorization u) ++
           [text_member "us_peer" (up_USPeer u); text_member "hk_peer" (up_HKPeer u)]).

Definition config_json (c : Config) : json :=
  let o := cf_owned c in
  JObject
    (text_unless_empty "network" (ow_Network o) ++
     text_unless_empty "evm_suite_directory_address" (ow_EVMSuiteDirectoryAddress o) ++
     text_unless_empty "evm_rpc" (ow_EVMRPC o) ++
     (if ow_EVMChainID o =? 0 then [] else [int_member "evm_chain_id" (ow_EVMChainID o)]) ++
     text_unless_empty "evm_explorer" (ow_EVMExplorer o) ++
     text_unless_empty "evm_keystore_dir" (cf_EVMKeystoreDir c) ++
     [text_member "chain_id" (ow_ChainID o);
      text_member "lcd_endpoint" (ow_LCDEndpoint o);
      text_member "node" (ow_Node o);
      text_member "key_name" (cf_KeyName c);
      text_member "keyring_backend" (cf_KeyringBackend c);
      text_member "injectived_bin" (cf_InjectivedBin c);
      text_member "gas_prices" (cf_GasPrices c);
      text_member "ipfs_api" (cf_IPFSAPI c);
      text_member "ipfs_bin" (cf_IPFSBin c);
      text_member "ipfs_gateway" (cf_IPFSGateway c);
      ("gateways"%string, slice_json gateway_json (cf_Gateways c));
      ("upload"%string, upload_json (cf_Upload c));
      ("public_gateway_fallbacks"%string, slice_json JString (cf_PublicGatewayFallbacks c))]).

Definition decode_gateway (v : json) (old : Gateway) : result Gateway :=
  let? ms := struct_members v in
  let? name := string_field "name" (gw_Name old) ms in
  let? url := string_field "url" (gw_URL old) ms in
  Ok (mk_Gateway name url).

Definition decode_upload (v : json) (old : Upload) : result Upload :=
  let? ms := struct_members v in
  let? endpoint := string_field "endpoint" (up_Endpoint old) ms in
  let? authorization_endpoint :=
    string_field "authorization_endpoint" (up_AuthorizationEndpoint old) ms in
  let? authorization := string_field "authorization" (up_Authorization old) ms in
  let? us := string_field "us_peer" (up_USPeer old) ms in
  let? hk := string_field "hk_peer" (up_HKPeer old) ms in
  Ok (mk_Upload endpoint authorization_endpoint authorization us hk).

Definition decode_owned (ms : list (string * json)) (old : owned) : result owned :=
  let? network := string_field "network" (ow_Network old) ms in
  let? directory :=
    string_field "evm_suite_directory_address" (ow_EVMSuiteDirectoryAddress old) ms in
  let? rpc := string_field "evm_rpc" (ow_EVMRPC old) ms in
  let? chain := uint64_field "evm_chain_id" (ow_EVMChainID old) ms in
  let? explorer := string_field "evm_explorer" (ow_EVMExplorer old) ms in
  let? chain_id := string_field "chain_id" (ow_ChainID old) ms in
  let? lcd := string_field "lcd_endpoint" (ow_LCDEndpoint old) ms in
  let? node := string_field "node" (ow_Node old) ms in
  Ok (mk_owned network directory rpc chain explorer chain_id lcd node).

(** [json.Unmarshal(data, &cfg)], from the members of the text; what a failed
    call leaves in [cfg] is not modelled. *)
Definition decode_config (ms : list (string * json)) (old : Config) : result Config :=
  let? o := decode_owned ms (cf_owned old) in
  let? keystore := string_field "evm_keystore_dir" (cf_EVMKeystoreDir old) ms in
  let? key := string_field "key_name" (cf_KeyName old) ms in
  let? backend := string_field "keyring_backend" (cf_KeyringBackend old) ms in
  let? bin := string_field "injectived_bin" (cf_InjectivedBin old) ms in
  let? gas := string_field "gas_prices" (cf_GasPrices old) ms in
  let? api := string_field "ipfs_api" (cf_IPFSAPI old) ms in
  let? ipfs := string_field "ipfs_bin" (cf_IPFSBin old) ms in
  let? gateway := string_field "ipfs_gateway" (cf_IPFSGateway old) ms in
  let? gateways := slice_field decode_gateway (mk_Gateway "" "") "gateways" (cf_Gateways old) ms in
  let? upload := field decode_upload "upload" (cf_Upload old) ms in
  let? public :=
    slice_field decode_string ""%string "public_gateway_fallbacks"
      (cf_PublicGatewayFallbacks old) ms in
  Ok (mk_Config o (cf_legacy old) keystore key backend bin gas api ipfs gateway gateways upload public).

(** [_, ok := raw[key]]: the key as it is spelled. *)
Definition raw_has (ms : list (string * json)) (name : string) : bool :=
  existsb (fun '(k, _) => bool_decide (k = name)) ms.

(** The fields of a profile other than the default one, unless the file has
    them. *)
Definition switch_owned (ms : list (string * json)) (base o : owned) : owned :=
  let pick {T} (name : string) (field : owned -> T) := field (if raw_has ms name then o else base) in
  {| ow_Network := ow_Network o;
     ow_EVMSuiteDirectoryAddress := pick "evm_suite_directory_address" ow_EVMSuiteDirectoryAddress;
     ow_EVMRPC := pick "evm_rpc" ow_EVMRPC;
     ow_EVMChainID := pick "evm_chain_id" ow_EVMChainID;
     ow_EVMExplorer := pick "evm_explorer" ow_EVMExplorer;
     ow_ChainID := pick "chain_id" ow_ChainID;
     ow_LCDEndpoint := pick "lcd_endpoint" ow_LCDEndpoint;
     ow_Node := pick "node" ow_Node |}%string.

Definition legacyKeys : list string :=
  ["contract_backend"; "contract_version"; "contract_address"; "evm_contract_address";
   "evm_badge_module_address"; "evm_economic_module_address"; "evm_moderation_module_address"].

(** What [Load] makes of the text of the file: the configuration, and whether
    the file has deprecated keys. *)
Definition load_config (path data : string) : result (Config * bool) :=
  let? ms := wrapf "parse %s: %w" [GStr path] (let? v := Unmarshal data in struct_members v) in
  let? cfg := wrapf "parse %s: %w" [GStr path] (decode_config ms Defaults) in
  let cfg := ApplyNetworkProfile cfg in
  let o := cf_owned cfg in
  let o :=
    if decide (ow_Network o = ow_Network (cf_owned Defaults)) then o
    else switch_owned ms (cf_owned (ApplyNetworkProfile (only_network (ow_Network o)))) o in
  Ok (with_profile o upgraded cfg, existsb (raw_has ms) legacyKeys).

(** ** Loading and saving *)

Definition UserHomeDir : result string :=
  let home := Getenv "HOME" in
  if decide (home = ""%string) then errf "$HOME is not defined" [] else Ok home.

Definition Dir : result string :=
  let custom := Getenv "IGIT_HOME" in
  if decide (custom = ""%string) then
    let? home := UserHomeDir in Ok (filepath_Join home ".igit")
  else Ok custom.

Definition Path : result string :=
  let? dir := Dir in Ok (filepath_Join dir "config.json").

Definition Save (cfg : Config) : prog disk unit :=
  dir ← of_result Dir;
  MkdirAll dir mode_0700 ;;
  wrap_error "protect config directory: %w" [] (ProtectDirectory dir) ;;
  let path := filepath_Join dir "config.json" in
  wrap_error "write protected config file: %w" [] (WriteFile path (MarshalIndent (config_json cfg))).

(** What [Load] does with the file once it is there. *)
Definition load_file (path : string) : prog disk Config :=
  wrap_error "protect config directory before read: %w" []
    (ProtectDirectory (filepath_Dir path)) ;;
  wrap_error "protect config file before read: %w" [] (ProtectFile path) ;;
  data ← ReadFile path;
  '(cfg, legacyConfig) ← of_result (load_config path data);
  if (legacyConfig : bool) then
    wrap_error "upgrade legacy config to EVM suite profile: %w" [] (Save cfg) ;; mret cfg
  else mret cfg.

Definition Load : prog disk Config :=
  path ← of_result Path;
  found ← attempt (Lstat path);
  match found with
  | Err e => if IsNotExist e then mret Defaults else fail e
  | Ok _ => load_file path
  end.

End Configuration.
