(* ===== verification/ConfigSpec.v ===== *)
(** * ConfigSpec: reading the configuration file

    Printed structs with omitted members ([members_of]), what a field takes its
    value from, and the configurations that loading leaves as they are
    ([settled]). *)
From Stdlib Require Import ZArith Lia Ascii String.
From stdpp Require Import base list gmap strings option.
From S2P Require Import Prelude GoText Prog I18n Json JsonSpec Ipfs EvmAddress Paths FileSystem FileProtection Config.

Local Open Scope Z_scope.

(** ** Slices *)

Section Slices.
Context {T : Type} (decode : json -> T -> result T) (encode : T -> json) (zero : T).
Hypothesis read_item : forall x old, decode (encode x) old = Ok x.

Lemma decode_items_printed xs memory :
  exists rest, decode_items decode zero (map encode xs) memory = Ok (xs ++ rest).
Proof.
  revert memory. induction xs as [|x xs IH]; intros memory; [by exists memory|].
  cbn [map decode_items]. rewrite read_item. destruct (IH (tl memory)) as [rest ->]. by exists rest.
Qed.

Lemma decode_reusing_printed s old :
  exists rest, decode_reusing decode zero (slice_json encode s) old =
    Ok ((fun l => (length l, l ++ rest)) <$> s).
Proof.
  destruct s as [[|x xs]|]; [by exists []| |by exists []].
  destruct (decode_items_printed (x :: xs) (default [] (snd <$> old))) as [rest E].
  exists rest. cbn [slice_json map decode_reusing].
  change (encode x :: map encode xs) with (map encode (x :: xs)). rewrite E. by rewrite length_map.
Qed.

Lemma slice_field_printed name s old l :
  unique_key name (map fst l) = true -> (name, Some (slice_json encode s)) ∈ l ->
  slice_field decode zero name old (members_of l) = Ok s.
Proof.
  intros Hu Hin. unfold slice_field. rewrite (field_members _ _ _ _ _ Hu Hin).
  destruct (decode_reusing_printed s ((fun l => (length l, l)) <$> old)) as [rest ->].
  destruct s as [xs|]; [|done]. cbn. by rewrite take_app_length.
Qed.
End Slices.

Lemma decode_gateway_printed g old : decode_gateway (gateway_json g) old = Ok g.
Proof. unfold decode_gateway. cbn [struct_members gateway_json]. read_fields. by destruct g. Qed.

Lemma decode_string_printed s old : decode_string (JString s) old = Ok s.
Proof. done. Qed.

Lemma decode_upload_printed u old :
  up_Authorization old = ""%string -> decode_upload (upload_json u) old = Ok u.
Proof.
  intros Ho. unfold decode_upload, upload_json, text_unless_empty. cbn [struct_members].
  destruct u as [e ae a us hk]. cbn [up_Endpoint up_AuthorizationEndpoint up_Authorization up_USPeer up_HKPeer].
  case_decide as Ha; cbn [app]; read_fields; rewrite ?Ho; by subst.
Qed.

(** ** The printed configuration *)

Definition config_members (c : Config) : list (string * option json) :=
  let o := cf_owned c in
  [("network"%string, unless_empty (ow_Network o));
   ("evm_suite_directory_address"%string, unless_empty (ow_EVMSuiteDirectoryAddress o));
   ("evm_rpc"%string, unless_empty (ow_EVMRPC o));
   ("evm_chain_id"%string, if ow_EVMChainID o =? 0 then None else Some (JInt (ow_EVMChainID o)));
   ("evm_explorer"%string, unless_empty (ow_EVMExplorer o));
   ("evm_keystore_dir"%string, unless_empty (cf_EVMKeystoreDir c));
   ("chain_id"%string, Some (JString (ow_ChainID o)));
   ("lcd_endpoint"%string, Some (JString (ow_LCDEndpoint o)));
   ("node"%string, Some (JString (ow_Node o)));
   ("key_name"%string, Some (JString (cf_KeyName c)));
   ("keyring_backend"%string, Some (JString (cf_KeyringBackend c)));
   ("injectived_bin"%string, Some (JString (cf_InjectivedBin c)));
   ("gas_prices"%string, Some (JString (cf_GasPrices c)));
   ("ipfs_api"%string, Some (JString (cf_IPFSAPI c)));
   ("ipfs_bin"%string, Some (JString (cf_IPFSBin c)));
   ("ipfs_gateway"%string, Some (JString (cf_IPFSGateway c)));
   ("gateways"%string, Some (slice_json gateway_json (cf_Gateways c)));
   ("upload"%string, Some (upload_json (cf_Upload c)));
   ("public_gateway_fallbacks"%string, Some (slice_json JString (cf_PublicGatewayFallbacks c)))].

Lemma config_json_members c : config_json c = JObject (members_of (config_members c)).
Proof.
  unfold config_json, config_members, text_unless_empty, unless_empty. f_equal.
  by repeat case_match.
Qed.

Definition field_names : list string :=
  ["network"; "evm_suite_directory_address"; "evm_rpc"; "evm_chain_id"; "evm_explorer";
   "evm_keystore_dir"; "chain_id"; "lcd_endpoint"; "node"; "key_name"; "keyring_backend";
   "injectived_bin"; "gas_prices"; "ipfs_api"; "ipfs_bin"; "ipfs_gateway"; "gateways"; "upload";
   "public_gateway_fallbacks"]%string.

Lemma config_members_names c : map fst (config_members c) = field_names.
Proof. done. Qed.

Lemma field_names_unique : forallb (fun name => unique_key name field_names) field_names = true.
Proof. by vm_compute. Qed.

Ltac in_list := repeat first [apply list_elem_of_here | apply list_elem_of_further].

Lemma unique_name c name : name ∈ field_names -> unique_key name (map fst (config_members c)) = true.
Proof.
  intros H. rewrite config_members_names. pose proof field_names_unique as Hu.
  rewrite forallb_forall in Hu. by apply Hu, list_elem_of_In.
Qed.

(** The fields of a printed text: a member that is left out is as it was. *)
Definition or_old (v old : string) : string := if decide (v = ""%string) then old else v.

Lemma or_old_empty v : or_old v "" = v.
Proof. unfold or_old. by case_decide. Qed.

Lemma string_member c name v old :
  name ∈ field_names -> (name, Some (JString v)) ∈ config_members c ->
  string_field name old (members_of (config_members c)) = Ok v.
Proof. intros Hn Hin. unfold string_field. by rewrite (field_members _ _ _ _ _ (unique_name c _ Hn) Hin). Qed.

Lemma optional_member c name v old :
  name ∈ field_names -> (name, unless_empty v) ∈ config_members c ->
  string_field name old (members_of (config_members c)) = Ok (or_old v old).
Proof.
  intros Hn Hin. unfold string_field. rewrite (field_members _ _ _ _ _ (unique_name c _ Hn) Hin).
  unfold unless_empty, or_old. by case_decide.
Qed.

Lemma decode_owned_printed c old :
  0 <= ow_EVMChainID (cf_owned c) < 2 ^ 64 ->
  decode_owned (members_of (config_members c)) old =
  let o := cf_owned c in
  Ok {| ow_Network := or_old (ow_Network o) (ow_Network old);
        ow_EVMSuiteDirectoryAddress :=
          or_old (ow_EVMSuiteDirectoryAddress o) (ow_EVMSuiteDirectoryAddress old);
        ow_EVMRPC := or_old (ow_EVMRPC o) (ow_EVMRPC old);
        ow_EVMChainID := if ow_EVMChainID o =? 0 then ow_EVMChainID old else ow_EVMChainID o;
        ow_EVMExplorer := or_old (ow_EVMExplorer o) (ow_EVMExplorer old);
        ow_ChainID := ow_ChainID o;
        ow_LCDEndpoint := ow_LCDEndpoint o;
        ow_Node := ow_Node o |}.
Proof.
  intros Hz. unfold decode_owned.
  assert (forall z, uint64_field "evm_chain_id" z (members_of (config_members c)) =
    Ok (if ow_EVMChainID (cf_owned c) =? 0 then z else ow_EVMChainID (cf_owned c))) as Hc.
  { intros z. unfold uint64_field. erewrite field_members; [|apply unique_name; in_list|in_list].
    destruct (_ =? 0); [done|]. by apply decode_uint64_JInt. }
  repeat (erewrite optional_member; [|solve [in_list]|solve [in_list]]).
  rewrite Hc. repeat (erewrite string_member; [|solve [in_list]|solve [in_list]]). done.
Qed.

Lemma decode_config_printed c old :
  0 <= ow_EVMChainID (cf_owned c) < 2 ^ 64 -> up_Authorization (cf_Upload old) = ""%string ->
  cf_EVMKeystoreDir old = ""%string ->
  decode_config (members_of (config_members c)) old =
  (let? o := decode_owned (members_of (config_members c)) (cf_owned old) in
   Ok (with_profile o (cf_legacy old) c)).
Proof.
  intros Hz Ha Hk. unfold decode_config. rewrite decode_owned_printed by done. cbv zeta.
  repeat (erewrite optional_member; [|solve [in_list]|solve [in_list]]).
  repeat (erewrite string_member; [|solve [in_list]|solve [in_list]]).
  erewrite slice_field_printed; [|apply decode_gateway_printed|apply unique_name; in_list|in_list].
  erewrite field_members; [|apply unique_name; in_list|in_list].
  cbv beta iota. rewrite decode_upload_printed by done.
  erewrite slice_field_printed; [|apply decode_string_printed|apply unique_name; in_list|in_list].
  by rewrite Hk, or_old_empty.
Qed.

Section Settled.
Context {UC : UnicodeCase}.

(** What reading a printed field does with a profile: the value is filled, and
    dropped when it was not printed. *)
Definition settled_owned (o : owned) : Prop :=
  (exists p, networkProfiles !! ow_Network o = Some p /\
    ow_EVMRPC o <> ""%string /\ ow_EVMChainID o <> 0 /\ ow_EVMExplorer o <> ""%string /\
    ow_ChainID o <> ""%string /\ ow_LCDEndpoint o <> ""%string /\ ow_Node o <> ""%string) \/
  network_name (ow_Network o) <> ""%string /\
    NetworkProfileFor (network_name (ow_Network o)) = None.

Definition settled (c : Config) : Prop :=
  cf_legacy c = upgraded /\ 0 <= ow_EVMChainID (cf_owned c) < 2 ^ 64 /\
  json_ok (config_json c) = true /\ settled_owned (cf_owned c).

Lemma networkProfiles_cases name p :
  networkProfiles !! name = Some p ->
  name = np_Name p /\ (p = testnet \/ p = mainnet).
Proof.
  unfold networkProfiles. intros [[<- <-]|[_ [<- <-]%lookup_singleton_Some]]%lookup_insert_Some; auto.
Qed.

Lemma NetworkProfileFor_name p :
  p = testnet \/ p = mainnet -> NetworkProfileFor (network_name (np_Name p)) = Some p /\
    NetworkProfileFor (np_Name p) = Some p /\ network_name (np_Name p) = np_Name p.
Proof. by intros [->| ->]. Qed.

Lemma max_of_le l n : Forall (fun m => (m <= n)%nat) l -> (max_of l <= n)%nat.
Proof. unfold max_of. induction 1; cbn [fold_right]; lia. Qed.

Lemma slice_nesting {T} (encode : T -> json) n s :
  (forall x, (nesting (encode x) <= n)%nat) -> (nesting (slice_json encode s) <= S n)%nat.
Proof.
  intros H. destruct s as [l|]; cbn; [|lia]. apply le_n_S, max_of_le. rewrite map_map.
  by apply List.Forall_map, Forall_true.
Qed.

Lemma upload_nesting u : (nesting (upload_json u) <= 1)%nat.
Proof. unfold upload_json, text_unless_empty. case_decide; cbn; lia. Qed.

Lemma nesting_config c : (nesting (config_json c) <= max_depth)%nat.
Proof.
  assert (forall g, (nesting (gateway_json g) <= 1)%nat) as Hg by (intros g; cbn; lia).
  pose proof (slice_nesting gateway_json 1 (cf_Gateways c) Hg) as H1.
  pose proof (slice_nesting JString 0 (cf_PublicGatewayFallbacks c) (fun _ => le_n 0)) as H2.
  pose proof (upload_nesting (cf_Upload c)) as H3.
  rewrite config_json_members. transitivity 4%nat; [|unfold max_depth; lia]. cbn [nesting].
  apply le_n_S, max_of_le, List.Forall_map, list.Forall_forall. intros [k x] Hx.
  unfold members_of in Hx. apply list_elem_of_omap in Hx as ([k' o] & Hin & Ho).
  destruct o as [y|]; [|done]. injection Ho as -> ->.
  assert (forall v y, unless_empty v = Some y -> (nesting y <= 3)%nat) as Hu.
  { intros v y'. unfold unless_empty. case_decide; [done|]. intros [= <-]. cbn. lia. }
  unfold config_members in Hin.
  repeat (apply elem_of_cons in Hin as [Hin|Hin];
    [injection Hin; intros E _;
     first [symmetry in E; eapply Hu; exact E | destruct (_ =? 0); [done|]; injection E as ->; cbn; lia
           | rewrite E; lia | rewrite E; cbn; lia]|]).
  by apply elem_of_nil in Hin.
Qed.

Lemma raw_has_in ms name : raw_has ms name = true <-> exists x, (name, x) ∈ ms.
Proof.
  unfold raw_has. rewrite existsb_exists. split.
  - intros ([k x] & Hin & E%bool_decide_eq_true). subst. exists x. by apply list_elem_of_In.
  - intros [x Hin]. exists (name, x). split; [by apply list_elem_of_In|]. by apply bool_decide_eq_true.
Qed.

Lemma members_of_in l name x : (name, x) ∈ members_of l <-> (name, Some x) ∈ l.
Proof.
  unfold members_of. rewrite list_elem_of_omap. split.
  - intros ([k [y|]] & Hin & E); [|done]. by injection E as -> ->.
  - intros Hin. by exists (name, Some x).
Qed.

(** A printed member is in the text. *)
Lemma raw_has_printed c name x :
  (name, Some x) ∈ config_members c -> raw_has (members_of (config_members c)) name = true.
Proof. intros H. apply raw_has_in. exists x. by apply members_of_in. Qed.

Lemma raw_has_optional c name v :
  (name, unless_empty v) ∈ config_members c ->
  raw_has (members_of (config_members c)) name = false -> v = ""%string.
Proof.
  intros H Hf. destruct (decide (v = ""%string)) as [|E]; [done|]. unfold unless_empty in H.
  rewrite decide_False in H by done. apply raw_has_printed in H. congruence.
Qed.

Lemma members_unique c name o o' :
  (name, o) ∈ config_members c -> (name, o') ∈ config_members c -> o = o'.
Proof.
  assert (NoDup ((config_members c).*1)) as Hn.
  { change (NoDup field_names). by apply (bool_decide_unpack _). }
  intros H%(elem_of_list_to_map_1 _ _ _ Hn) H'%(elem_of_list_to_map_1 _ _ _ Hn). congruence.
Qed.

Lemma raw_has_optional_true c name v :
  (name, unless_empty v) ∈ config_members c ->
  raw_has (members_of (config_members c)) name = true -> v <> ""%string.
Proof.
  intros H [x Hx%members_of_in]%raw_has_in E. pose proof (members_unique _ _ _ _ H Hx) as Hv.
  unfold unless_empty in Hv. by rewrite decide_True in Hv.
Qed.

Lemma raw_has_unprinted c name :
  name ∉ field_names -> raw_has (members_of (config_members c)) name = false.
Proof.
  intros H. apply not_true_is_false. intros [x Hx%members_of_in]%raw_has_in. apply H.
  rewrite <- (config_members_names c). apply list_elem_of_fmap. by exists (name, Some x).
Qed.

Lemma Defaults_owned : cf_owned Defaults =
  {| ow_Network := "injective-testnet"; ow_EVMSuiteDirectoryAddress := "";
     ow_EVMRPC := np_EVMRPC testnet; ow_EVMChainID := np_EVMChainID testnet;
     ow_EVMExplorer := np_EVMExplorer testnet; ow_ChainID := np_CosmosChainID testnet;
     ow_LCDEndpoint := "https://testnet.sentry.lcd.injective.network:443";
     ow_Node := "https://testnet.sentry.tm.injective.network:443" |}%string.
Proof. done. Qed.

Lemma Defaults_others :
  cf_EVMKeystoreDir Defaults = ""%string /\ up_Authorization (cf_Upload Defaults) = ""%string.
Proof. done. Qed.

End Settled.
