(* ===== verification/ConfigLoad.v ===== *)
(** * ConfigLoad: what loading a configuration gives

    Printing and reading a settled configuration; every loaded configuration is
    settled and its texts are UTF-8. *)
From Stdlib Require Import ZArith Lia Ascii String.
From stdpp Require Import base list gmap strings option.
From S2P Require Import Prelude GoText Prog I18n Json JsonSpec Ipfs EvmAddress Paths FileSystem FileProtection Config ConfigSpec.

Local Open Scope Z_scope.

Section Loading.
Context {UC : UnicodeCase}.

(** ** Printing and reading *)

Lemma decode_owned_settled c o :
  settled_owned (cf_owned c) -> 0 <= ow_EVMChainID (cf_owned c) < 2 ^ 64 ->
  decode_owned (members_of (config_members c)) (cf_owned Defaults) = Ok o ->
  ow_Network o = ow_Network (cf_owned c) /\
  ow_EVMSuiteDirectoryAddress o = ow_EVMSuiteDirectoryAddress (cf_owned c) /\
  (ow_EVMRPC (cf_owned c) <> ""%string -> ow_EVMRPC o = ow_EVMRPC (cf_owned c)) /\
  (ow_EVMChainID (cf_owned c) <> 0 -> ow_EVMChainID o = ow_EVMChainID (cf_owned c)) /\
  (ow_EVMExplorer (cf_owned c) <> ""%string -> ow_EVMExplorer o = ow_EVMExplorer (cf_owned c)) /\
  ow_ChainID o = ow_ChainID (cf_owned c) /\ ow_LCDEndpoint o = ow_LCDEndpoint (cf_owned c) /\
  ow_Node o = ow_Node (cf_owned c).
Proof.
  intros Hs Hz. rewrite decode_owned_printed by done. cbv zeta. intros [= <-]. cbn.
  assert (ow_Network (cf_owned c) <> ""%string) as Hn.
  { intros E. destruct Hs as [(p & Hp & _)|[H _]]; [by rewrite E in Hp|by rewrite E in H]. }
  assert (forall v old, v <> ""%string -> or_old v old = v) as Ho.
  { intros v old Hv. unfold or_old. by rewrite decide_False. }
  rewrite Ho, or_old_empty by done. split_and!; auto.
  intros H. by rewrite (proj2 (Z.eqb_neq _ _) H).
Qed.

Lemma or_profile_value v p : v <> ""%string -> or_profile v p = v.
Proof. intros H. unfold or_profile. by rewrite decide_False. Qed.

Lemma or_profile_empty v : or_profile v "" = v.
Proof. unfold or_profile. by case_decide. Qed.

Lemma owned_eta o :
  {| ow_Network := ow_Network o; ow_EVMSuiteDirectoryAddress := ow_EVMSuiteDirectoryAddress o;
     ow_EVMRPC := ow_EVMRPC o; ow_EVMChainID := ow_EVMChainID o; ow_EVMExplorer := ow_EVMExplorer o;
     ow_ChainID := ow_ChainID o; ow_LCDEndpoint := ow_LCDEndpoint o; ow_Node := ow_Node o |} = o.
Proof. by destruct o. Qed.

Lemma fill_owned_id p o :
  p = testnet \/ p = mainnet -> ow_Network o = np_Name p -> ow_EVMRPC o <> ""%string ->
  ow_EVMChainID o <> 0 -> ow_EVMExplorer o <> ""%string -> ow_ChainID o <> ""%string ->
  ow_LCDEndpoint o <> ""%string -> ow_Node o <> ""%string -> fill_owned p o = o.
Proof.
  intros Hp Hn H1 H2 H3 H4 H5 H6. unfold fill_owned. rewrite <- Hn, (or_profile_value (ow_EVMRPC o)),
    (or_profile_value (ow_EVMExplorer o)), (or_profile_value (ow_ChainID o)),
    (or_profile_value (ow_LCDEndpoint o)), (or_profile_value (ow_Node o)) by done.
  rewrite (proj2 (Z.eqb_neq _ _) H2).
  assert (np_EVMSuiteDirectory p = ""%string) as -> by by destruct Hp as [->| ->].
  rewrite or_profile_empty. by destruct o.
Qed.

(** The profile that applying finds. *)
Definition profile_of (o : owned) : option NetworkProfile :=
  let name := network_name (ow_Network o) in
  NetworkProfileFor (if decide (name = ""%string) then "injective-testnet"%string else name).

Lemma ApplyNetworkProfile_owned c :
  cf_owned (ApplyNetworkProfile c) =
  match profile_of (cf_owned c) with None => cf_owned c | Some p => fill_owned p (cf_owned c) end.
Proof. unfold ApplyNetworkProfile, profile_of. cbv zeta. by destruct (NetworkProfileFor _). Qed.

Lemma ApplyNetworkProfile_rest c o l :
  with_profile o l (ApplyNetworkProfile c) = with_profile o l c.
Proof. unfold ApplyNetworkProfile. cbv zeta. by destruct (NetworkProfileFor _). Qed.

Lemma apply_known c p :
  p = testnet \/ p = mainnet -> ow_Network (cf_owned c) = np_Name p ->
  cf_owned (ApplyNetworkProfile c) = fill_owned p (cf_owned c).
Proof.
  intros Hp Hn. rewrite ApplyNetworkProfile_owned. unfold profile_of. rewrite Hn.
  destruct (NetworkProfileFor_name _ Hp) as (E1 & E2 & E3). cbv zeta. rewrite E3.
  rewrite decide_False by (by destruct Hp as [->| ->]). by rewrite E2.
Qed.

Lemma apply_unknown c :
  network_name (ow_Network (cf_owned c)) <> ""%string ->
  NetworkProfileFor (network_name (ow_Network (cf_owned c))) = None ->
  cf_owned (ApplyNetworkProfile c) = cf_owned c.
Proof.
  intros H1 H2. rewrite ApplyNetworkProfile_owned. unfold profile_of. cbv zeta.
  by rewrite decide_False, H2.
Qed.

(** What [Load] makes of the profile's fields after decoding. *)
Definition finish_owned (ms : list (string * json)) (o : owned) : owned :=
  if decide (ow_Network o = ow_Network (cf_owned Defaults)) then o
  else switch_owned ms (cf_owned (ApplyNetworkProfile (only_network (ow_Network o)))) o.

Lemma load_config_inv path data c l :
  load_config path data = Ok (c, l) ->
  exists v ms c1, Unmarshal data = Ok v /\ struct_members v = Ok ms /\
    decode_config ms Defaults = Ok c1 /\
    c = with_profile (finish_owned ms (cf_owned (ApplyNetworkProfile c1))) upgraded c1 /\
    l = existsb (raw_has ms) legacyKeys.
Proof.
  unfold load_config. intros (ms & (v & Hv & Hms)%wrapf_ok%bind_ok & H)%bind_ok.
  apply bind_ok in H as (c1 & Hc%wrapf_ok & H). cbv zeta in H. injection H as <- <-.
  exists v, ms, c1. by rewrite ApplyNetworkProfile_rest.
Qed.

Lemma load_config_members path data v ms c1 :
  Unmarshal data = Ok v -> struct_members v = Ok ms -> decode_config ms Defaults = Ok c1 ->
  load_config path data =
    Ok (with_profile (finish_owned ms (cf_owned (ApplyNetworkProfile c1))) upgraded c1,
        existsb (raw_has ms) legacyKeys).
Proof.
  intros Hv Hms Hc. unfold load_config. rewrite Hv. cbn [wrapf]. rewrite Hms. cbn [wrapf].
  rewrite Hc. cbn [wrapf]. cbv zeta. by rewrite ApplyNetworkProfile_rest.
Qed.

Lemma decode_config_owned ms old c :
  decode_config ms old = Ok c -> decode_owned ms (cf_owned old) = Ok (cf_owned c).
Proof. unfold decode_config. intros (o & Ho & H)%bind_ok. go_inv H. by subst c. Qed.

(** A printed configuration of a known network, and one of an unknown one. *)
Lemma finish_settled c o :
  settled_owned (cf_owned c) -> 0 <= ow_EVMChainID (cf_owned c) < 2 ^ 64 ->
  decode_owned (members_of (config_members c)) (cf_owned Defaults) = Ok o ->
  finish_owned (members_of (config_members c))
    (cf_owned (ApplyNetworkProfile (with_profile o (cf_legacy Defaults) c))) = cf_owned c.
Proof.
  intros Hs Hz Hd. destruct (decode_owned_settled _ _ Hs Hz Hd) as (E1 & E2 & E3 & E4 & E5 & E6 & E7 & E8).
  assert (Hmust : forall (T : Type) name (get : owned -> T) base x, (name, Some x) ∈ config_members c ->
    get o = get (cf_owned c) ->
    get (if raw_has (members_of (config_members c)) name then o else base) = get (cf_owned c)).
  { intros T name get base x Hin Hg. by rewrite (raw_has_printed _ _ _ Hin). }
  assert (Hmay : forall name (get : owned -> string) base,
    (name, unless_empty (get (cf_owned c))) ∈ config_members c ->
    (get (cf_owned c) <> ""%string -> get o = get (cf_owned c)) ->
    (get (cf_owned c) = ""%string -> get base = ""%string) ->
    get (if raw_has (members_of (config_members c)) name then o else base) = get (cf_owned c)).
  { intros name get base Hin Hg Hb. destruct (raw_has _ name) eqn:E.
    - by eapply Hg, raw_has_optional_true.
    - pose proof (raw_has_optional _ _ _ Hin E) as Hc. by rewrite Hb, Hc. }
  assert (Hchain : forall base, (ow_EVMChainID (cf_owned c) = 0 -> ow_EVMChainID base = 0) ->
    ow_EVMChainID (if raw_has (members_of (config_members c)) "evm_chain_id" then o else base) =
    ow_EVMChainID (cf_owned c)).
  { intros base Hb. assert (("evm_chain_id"%string, if ow_EVMChainID (cf_owned c) =? 0 then None
      else Some (JInt (ow_EVMChainID (cf_owned c)))) ∈ config_members c) as Hin by in_list.
    destruct (Z.eqb_spec (ow_EVMChainID (cf_owned c)) 0) as [Ez|Ez].
    - destruct (raw_has _ _) eqn:E; [|by rewrite Hb, Ez].
      apply raw_has_in in E as [x Hx%members_of_in]. by pose proof (members_unique _ _ _ _ Hin Hx).
    - rewrite (raw_has_printed _ _ _ Hin). auto. }
  assert (Hswitch : forall base,
    ow_EVMSuiteDirectoryAddress base = ""%string ->
    (ow_EVMRPC (cf_owned c) = ""%string -> ow_EVMRPC base = ""%string) ->
    (ow_EVMChainID (cf_owned c) = 0 -> ow_EVMChainID base = 0) ->
    (ow_EVMExplorer (cf_owned c) = ""%string -> ow_EVMExplorer base = ""%string) ->
    switch_owned (members_of (config_members c)) base o = cf_owned c).
  { intros base B1 B2 B3 B4. rewrite <- (owned_eta (cf_owned c)). unfold switch_owned. cbv zeta. f_equal.
    - done.
    - apply Hmay; [in_list|auto..].
    - apply Hmay; [in_list|auto..].
    - by apply Hchain.
    - apply Hmay; [in_list|auto..].
    - eapply Hmust; [in_list|done].
    - eapply Hmust; [in_list|done].
    - eapply Hmust; [in_list|done]. }
  destruct Hs as [(p & [Hn Hp]%networkProfiles_cases & H1 & H2 & H3 & H4 & H5 & H6)|[H1 H2]].
  - assert (o = cf_owned c) as Ho.
    { rewrite <- (owned_eta o), <- (owned_eta (cf_owned c)). f_equal; auto. }
    rewrite (apply_known _ p) by (cbn; congruence). cbn [cf_owned with_profile].
    rewrite Ho, fill_owned_id by done. unfold finish_owned. destruct (decide _); [done|].
    rewrite Ho in Hswitch. apply Hswitch; [|done..].
    rewrite Hn, (apply_known _ p) by done. by destruct Hp as [->| ->].
  - rewrite <- E1 in H1, H2. rewrite apply_unknown by done. cbn [cf_owned with_profile].
    unfold finish_owned. rewrite decide_False.
    + apply Hswitch; by rewrite apply_unknown.
    + intros E. by rewrite E in H2.
Qed.

(** Reading what was printed of a settled configuration. *)
Lemma settled_reads path c :
  settled c -> load_config path (MarshalIndent (config_json c)) = Ok (c, false).
Proof.
  intros (Hl & Hz & Hok & Ho).
  assert (exists o, decode_owned (members_of (config_members c)) (cf_owned Defaults) = Ok o) as [o Hd].
  { rewrite decode_owned_printed by done. by eexists. }
  erewrite load_config_members; [|by apply Unmarshal_MarshalIndent, nesting_config| |].
  2: { by rewrite config_json_members. }
  2: { rewrite decode_config_printed by done. rewrite Hd. done. }
  rewrite (finish_settled c o) by done. f_equal. f_equal.
  - rewrite <- Hl. by destruct c.
  - apply not_true_is_false. intros (k & Hk & Hr)%existsb_exists.
    rewrite raw_has_unprinted in Hr; [done|]. intros Hin. clear -Hk Hin.
    assert (forallb (fun k => negb (bool_decide (k ∈ field_names))) legacyKeys = true) as H by done.
    rewrite forallb_forall in H. specialize (H k Hk). apply negb_true_iff, bool_decide_eq_false in H. done.
Qed.

(** ** What loading gives is settled *)

Lemma field_keeps {T} (P : T -> Prop) (decode : json -> T -> result T) name zero ms v :
  field decode name zero ms = Ok v -> P zero -> strings_ok (JObject ms) = true ->
  (forall x old v, strings_ok x = true -> P old -> decode x old = Ok v -> P v) -> P v.
Proof.
  intros H H0 Hok Hd. revert zero H H0. induction ms as [|[k x] ms IH]; intros z H Hz;
    unfold field in H; cbn [foldM] in H; [by injection H as <-|].
  cbn [strings_ok forallb] in Hok. apply andb_true_iff in Hok as [[_ Hx]%andb_true_iff Hok].
  destruct (key_matches name k); [|by apply (IH Hok z)].
  destruct (decode x z) as [z'|] eqn:E; [|done]. apply (IH Hok z'); [done|]. by eapply Hd.
Qed.

Lemma string_field_keeps name old ms v :
  string_field name old ms = Ok v -> valid_utf8 old = true -> strings_ok (JObject ms) = true ->
  valid_utf8 v = true.
Proof.
  intros H Ho Hok. apply (field_keeps (fun v => valid_utf8 v = true) _ _ _ _ _ H); [done|done|].
  intros [] o w Hx Hw E; try discriminate E; by injection E as <-.
Qed.

Lemma uint64_field_range name old ms v :
  uint64_field name old ms = Ok v -> 0 <= old < 2 ^ 64 -> strings_ok (JObject ms) = true ->
  0 <= v < 2 ^ 64.
Proof.
  intros H Ho Hok. apply (field_keeps (fun v => 0 <= v < 2 ^ 64) _ _ _ _ _ H); [done|done|].
  intros [] o w Hx Hw E; try discriminate E; [by injection E as <-|].
  cbn [decode_uint64] in E. destruct (ParseUint literal) as [z|] eqn:Ez; [|done]. injection E as <-.
  by apply ParseUint_range in Ez.
Qed.

Section ValidSlices.
Context {T : Type} (P : T -> Prop) (decode : json -> T -> result T) (zero : T).
Hypothesis P_zero : P zero.
Hypothesis P_decode : forall x old v, strings_ok x = true -> P old -> decode x old = Ok v -> P v.

Lemma decode_items_keeps items memory l :
  decode_items decode zero items memory = Ok l -> Forall P memory ->
  forallb strings_ok items = true -> Forall P l.
Proof.
  revert memory l. induction items as [|x items IH]; intros memory l H Hm Hx; [by injection H as <-|].
  cbn [decode_items] in H. cbn [forallb] in Hx. apply andb_true_iff in Hx as [Hx Hi].
  apply bind_ok in H as (e & He & H). apply bind_ok in H as (l' & Hl & H). injection H as <-.
  constructor.
  - eapply P_decode; [exact Hx| |exact He]. destruct Hm; [done|]. done.
  - eapply IH; [exact Hl| |done]. destruct Hm; [done|]. done.
Qed.

Definition slice_ok (s : slice T) : Prop := Forall P (default [] s).

Lemma slice_field_keeps name old ms v :
  slice_field decode zero name old ms = Ok v -> slice_ok old -> strings_ok (JObject ms) = true ->
  slice_ok v.
Proof.
  unfold slice_field. intros (s & Hs & H)%bind_ok Ho Hok. injection H as <-.
  assert (Forall P (default [] (snd <$> s))) as Hl.
  { apply (field_keeps (fun s => Forall P (default [] (snd <$> s))) _ _ _ _ _ Hs).
    - by destruct old.
    - done.
    - intros x m v Hx Hm E. destruct x as [| | | |[|x items]|]; try discriminate E;
        try (injection E as <-; constructor).
      cbn [decode_reusing] in E. apply bind_ok in E as (l & El & E). injection E as <-. cbn.
      eapply decode_items_keeps; [exact El|done|done]. }
  unfold slice_ok. destruct s as [[n l]|]; [|constructor]. cbn in *. by apply Forall_take.
Qed.
End ValidSlices.

Definition text_ok (s : string) : Prop := valid_utf8 s = true.
Definition gateway_ok (g : Gateway) : Prop := text_ok (gw_Name g) /\ text_ok (gw_URL g).
Definition upload_ok (u : Upload) : Prop :=
  text_ok (up_Endpoint u) /\ text_ok (up_AuthorizationEndpoint u) /\ text_ok (up_Authorization u) /\
  text_ok (up_USPeer u) /\ text_ok (up_HKPeer u).
Definition owned_ok (o : owned) : Prop :=
  text_ok (ow_Network o) /\ text_ok (ow_EVMSuiteDirectoryAddress o) /\ text_ok (ow_EVMRPC o) /\
  0 <= ow_EVMChainID o < 2 ^ 64 /\ text_ok (ow_EVMExplorer o) /\ text_ok (ow_ChainID o) /\
  text_ok (ow_LCDEndpoint o) /\ text_ok (ow_Node o).
Definition config_ok (c : Config) : Prop :=
  owned_ok (cf_owned c) /\
  (text_ok (cf_EVMKeystoreDir c) /\ text_ok (cf_KeyName c) /\ text_ok (cf_KeyringBackend c) /\
   text_ok (cf_InjectivedBin c) /\ text_ok (cf_GasPrices c) /\ text_ok (cf_IPFSAPI c) /\
   text_ok (cf_IPFSBin c) /\ text_ok (cf_IPFSGateway c)) /\
  slice_ok gateway_ok (cf_Gateways c) /\ upload_ok (cf_Upload c) /\
  slice_ok text_ok (cf_PublicGatewayFallbacks c).

Lemma struct_members_ok v ms :
  strings_ok v = true -> struct_members v = Ok ms -> strings_ok (JObject ms) = true.
Proof. destruct v; intros H E; try discriminate E; by injection E as <-. Qed.

Lemma decode_gateway_ok x old g :
  strings_ok x = true -> gateway_ok old -> decode_gateway x old = Ok g -> gateway_ok g.
Proof.
  intros Hx [H1 H2]. unfold decode_gateway. intros (ms & Hms & H)%bind_ok.
  pose proof (struct_members_ok _ _ Hx Hms). apply bind_ok in H as (n & Hn & H).
  apply bind_ok in H as (u & Hu & H). injection H as <-.
  split; by eapply string_field_keeps.
Qed.

Lemma decode_upload_ok x old u :
  strings_ok x = true -> upload_ok old -> decode_upload x old = Ok u -> upload_ok u.
Proof.
  intros Hx (H1 & H2 & H3 & H4 & H5). unfold decode_upload. intros (ms & Hms & H)%bind_ok.
  pose proof (struct_members_ok _ _ Hx Hms). go_inv H. subst u.
  split_and!; by eapply string_field_keeps.
Qed.

Lemma decode_owned_ok ms old o :
  strings_ok (JObject ms) = true -> owned_ok old -> decode_owned ms old = Ok o -> owned_ok o.
Proof.
  intros Hok (H1 & H2 & H3 & H4 & H5 & H6 & H7 & H8) H. unfold decode_owned in H. go_inv H. subst o.
  unfold owned_ok. cbn. repeat split; first [by eapply string_field_keeps | by eapply (uint64_field_range "evm_chain_id")].
Qed.

Lemma decode_config_ok ms old c :
  strings_ok (JObject ms) = true -> config_ok old -> decode_config ms old = Ok c -> config_ok c.
Proof.
  intros Hok (H1 & (K1 & K2 & K3 & K4 & K5 & K6 & K7 & K8) & H2 & H3 & H4) H.
  unfold decode_config in H. go_inv H. subst c. unfold config_ok. cbn.
  split; [by eapply decode_owned_ok|]. split; [split_and!; by eapply string_field_keeps|].
  assert (text_ok "") as Ht by done.
  split_and!.
  - eapply (slice_field_keeps gateway_ok decode_gateway (mk_Gateway "" ""));
      [by split|apply decode_gateway_ok|done|exact H2|exact Hok].
  - eapply (field_keeps upload_ok); [done|exact H3|exact Hok|]. apply decode_upload_ok.
  - eapply (slice_field_keeps text_ok decode_string ""%string); [done| |done|exact H4|exact Hok].
    intros [] o w Hx Hw E; try discriminate E; by injection E as <-.
Qed.

Lemma config_text_ok v x : text_ok v -> unless_empty v = Some x -> json_ok x = true.
Proof. intros Hv. unfold unless_empty. case_decide; [done|]. by intros [= <-]. Qed.

Lemma config_members_ok l :
  Forall (fun '(k, o) => text_ok k /\ forall x, o = Some x -> json_ok x = true) l ->
  json_ok (JObject (members_of l)) = true.
Proof.
  intros H. cbn [json_ok]. apply forallb_forall. intros [k x] Hin%list_elem_of_In%members_of_in.
  rewrite list.Forall_forall in H. destruct (H _ Hin) as [-> Hx]. by apply Hx.
Qed.

Lemma slice_json_ok {T} (P : T -> Prop) (encode : T -> json) s :
  slice_ok P s -> (forall x, P x -> json_ok (encode x) = true) -> json_ok (slice_json encode s) = true.
Proof.
  intros Hs He. destruct s as [l|]; [|done]. cbn [slice_json json_ok]. apply forallb_forall.
  intros y (x & <- & Hx%list_elem_of_In)%in_map_iff. apply He. unfold slice_ok in Hs. cbn in Hs.
  rewrite list.Forall_forall in Hs. by apply Hs.
Qed.

Lemma upload_json_members u : upload_json u = JObject (members_of
  [("endpoint"%string, Some (JString (up_Endpoint u)));
   ("authorization_endpoint"%string, Some (JString (up_AuthorizationEndpoint u)));
   ("authorization"%string, unless_empty (up_Authorization u));
   ("us_peer"%string, Some (JString (up_USPeer u))); ("hk_peer"%string, Some (JString (up_HKPeer u)))]).
Proof. unfold upload_json, text_unless_empty, unless_empty. f_equal. by case_match. Qed.

Lemma upload_ok_json u : upload_ok u -> json_ok (upload_json u) = true.
Proof.
  intros (U1 & U2 & U3 & U4 & U5). rewrite upload_json_members. apply config_members_ok.
  repeat apply list.Forall_cons_2; [..|constructor]; (split; [done|]); intros x E;
    first [eapply config_text_ok; [|exact E]; assumption | injection E as <-; assumption].
Qed.

Lemma config_ok_json c : config_ok c -> json_ok (config_json c) = true.
Proof.
  intros ((H1 & H2 & H3 & H4 & H5 & H6 & H7 & H8) & (K1 & K2 & K3 & K4 & K5 & K6 & K7 & K8) & G & U & P).
  rewrite config_json_members. apply config_members_ok. unfold config_members.
  repeat apply list.Forall_cons_2; [..|constructor]; (split; [done|]); intros x E;
    first [eapply config_text_ok; [|exact E]; assumption | injection E as <-; assumption | idtac].
  - destruct (_ =? 0); [done|]. injection E as <-. apply json_ok_JInt.
  - injection E as <-. apply (slice_json_ok gateway_ok); [done|]. intros g [Hn Hu]. cbn. unfold text_ok in *.
    by rewrite Hn, Hu.
  - injection E as <-. by apply upload_ok_json.
  - injection E as <-. by apply (slice_json_ok text_ok).
Qed.

Lemma profile_ok p : p = testnet \/ p = mainnet -> owned_ok (profile_owned p).
Proof. by intros [->| ->]. Qed.

Lemma fill_owned_ok p o : p = testnet \/ p = mainnet -> owned_ok o -> owned_ok (fill_owned p o).
Proof.
  intros (P1 & P2 & P3 & [P4 P9] & P5 & P6 & P7 & P8)%profile_ok (H1 & H2 & H3 & [H4 H9] & H5 & H6 & H7 & H8).
  unfold owned_ok, fill_owned, or_profile. cbn. cbn in P1, P2, P3, P4, P5, P6, P7, P8, P9.
  split_and!; first [assumption | by case_decide | by destruct (_ =? 0)].
Qed.

Lemma switch_owned_ok ms base o : owned_ok base -> owned_ok o -> owned_ok (switch_owned ms base o).
Proof.
  intros (P1 & P2 & P3 & [P4 P9] & P5 & P6 & P7 & P8) (H1 & H2 & H3 & [H4 H9] & H5 & H6 & H7 & H8).
  unfold owned_ok, switch_owned. cbv zeta. cbn.
  split_and!; first [assumption | by destruct (raw_has _ _)].
Qed.

Lemma profile_of_cases o p :
  profile_of o = Some p -> p = testnet \/ p = mainnet.
Proof. unfold profile_of, NetworkProfileFor. intros H. by apply networkProfiles_cases in H as [_ H]. Qed.

Lemma profile_of_none o :
  profile_of o = None ->
  network_name (ow_Network o) <> ""%string /\ NetworkProfileFor (network_name (ow_Network o)) = None.
Proof. unfold profile_of. cbv zeta. by case_decide. Qed.

Lemma or_profile_nonempty v q : q <> ""%string -> or_profile v q <> ""%string.
Proof. intros H. unfold or_profile. by case_decide. Qed.

Lemma known_base p : p = testnet \/ p = mainnet ->
  cf_owned (ApplyNetworkProfile (only_network (np_Name p))) = profile_owned p.
Proof. by intros [->| ->]. Qed.

Definition complete_owned (o : owned) : Prop :=
  ow_EVMRPC o <> ""%string /\ ow_EVMChainID o <> 0 /\ ow_EVMExplorer o <> ""%string /\
  ow_ChainID o <> ""%string /\ ow_LCDEndpoint o <> ""%string /\ ow_Node o <> ""%string.

Lemma profile_complete p : p = testnet \/ p = mainnet -> complete_owned (profile_owned p).
Proof. by intros [->| ->]. Qed.

Lemma fill_complete p o : p = testnet \/ p = mainnet -> complete_owned (fill_owned p o).
Proof.
  intros (H1 & H2 & H3 & H4 & H5 & H6)%profile_complete. unfold complete_owned, fill_owned. cbn.
  split_and!; try by apply or_profile_nonempty. by destruct (Z.eqb_spec (ow_EVMChainID o) 0).
Qed.

Lemma switch_complete ms base o :
  complete_owned base -> complete_owned o -> complete_owned (switch_owned ms base o).
Proof.
  intros (H1 & H2 & H3 & H4 & H5 & H6) (G1 & G2 & G3 & G4 & G5 & G6).
  unfold complete_owned, switch_owned. cbv zeta. cbn. split_and!; by destruct (raw_has _ _).
Qed.

(** The profile's fields of a loaded configuration. *)
Lemma finish_owned_spec ms c :
  let o := cf_owned (ApplyNetworkProfile c) in
  (owned_ok (cf_owned c) -> owned_ok (finish_owned ms o)) /\ settled_owned (finish_owned ms o).
Proof.
  cbv zeta. rewrite ApplyNetworkProfile_owned.
  destruct (profile_of (cf_owned c)) as [p|] eqn:Ep.
  - pose proof (profile_of_cases _ _ Ep) as Hp. unfold finish_owned. cbn [ow_Network fill_owned].
    change (ow_Network (fill_owned p (cf_owned c))) with (np_Name p). rewrite known_base by done.
    assert (networkProfiles !! np_Name p = Some p) as Hl by by destruct Hp as [->| ->].
    split.
    + intros Ho. destruct (decide _); [by apply fill_owned_ok|].
      apply switch_owned_ok; [by apply profile_ok|by apply fill_owned_ok].
    + left. exists p. destruct (decide _).
      * split; [done|]. by apply fill_complete.
      * split; [done|]. apply switch_complete; [by apply profile_complete|by apply fill_complete].
  - apply profile_of_none in Ep as [E1 E2]. unfold finish_owned. split.
    + intros Ho. destruct (decide _); [done|]. apply switch_owned_ok; [|done].
      rewrite apply_unknown by done. destruct Ho as (Hn & _). by split_and!.
    + right. by destruct (decide _).
Qed.

Lemma Defaults_ok : config_ok Defaults.
Proof. unfold config_ok, slice_ok. cbn. split_and!; try done; repeat constructor. Qed.

Lemma loaded_settled path data c l : load_config path data = Ok (c, l) -> settled c.
Proof.
  intros (v & ms & c1 & Hv & Hms & Hc & -> & _)%load_config_inv.
  pose proof (struct_members_ok _ _ (Unmarshal_strings_ok _ _ Hv) Hms) as Hok.
  destruct (decode_config_ok _ _ _ Hok Defaults_ok Hc) as (H1 & H2).
  destruct (finish_owned_spec ms c1) as [H3 H4]. specialize (H3 H1).
  split; [done|]. split; [by destruct H3 as (_ & _ & _ & ? & _)|]. split; [|done].
  apply config_ok_json. by split.
Qed.
End Loading.
