(* ===== verification/ConfigProps.v ===== *)
(** * ConfigProps: the configuration is what was saved

    What loading takes from the file and what from the profile of its network;
    saving and loading; saving and the loss of power. *)
From Stdlib Require Import ZArith Lia Ascii String.
From stdpp Require Import base list gmap strings option.
From S2P Require Import Prelude GoText Prog I18n Json JsonSpec Ipfs EvmAddress Paths FileSystem FileProtection FileTexts FileProtectionProps Config ConfigSpec ConfigLoad.

Local Open Scope Z_scope.

(** ** Networks *)

(** The members of the file that a profile stands in for. *)
Definition profile_fields : list (string * (owned -> string + Z)) :=
  [("evm_suite_directory_address"%string, fun o => inl (ow_EVMSuiteDirectoryAddress o));
   ("evm_rpc"%string, fun o => inl (ow_EVMRPC o));
   ("evm_chain_id"%string, fun o => inr (ow_EVMChainID o));
   ("evm_explorer"%string, fun o => inl (ow_EVMExplorer o));
   ("chain_id"%string, fun o => inl (ow_ChainID o));
   ("lcd_endpoint"%string, fun o => inl (ow_LCDEndpoint o));
   ("node"%string, fun o => inl (ow_Node o))].

(** The text has a member with this value. *)
Definition says (ms : list (string * json)) (name : string) (v : string + Z) : Prop :=
  match v with
  | inl t => (name, JString t) ∈ ms
  | inr z => exists literal, (name, JNumber literal) ∈ ms /\ ParseUint literal = Some z
  end.

(** Members that a profile stands in for are spelled as they are printed and
    are not [null]. *)
Definition spelled (ms : list (string * json)) : Prop :=
  forall name get k x, (name, get) ∈ profile_fields -> (k, x) ∈ ms -> key_matches name k = true ->
    k = name /\ x <> JNull.

Section Networks.
Context {UC : UnicodeCase}.

(** A field has its old value or one that the text says. *)
Lemma field_source {T} (decode : json -> T -> result T) (inj : T -> string + Z) name old ms v :
  (forall k x, (k, x) ∈ ms -> key_matches name k = true -> k = name /\ x <> JNull) ->
  (forall x o v, x <> JNull -> decode x o = Ok v -> forall ms, (name, x) ∈ ms -> says ms name (inj v)) ->
  field decode name old ms = Ok v ->
  v = old /\ raw_has ms name = false \/ says ms name (inj v).
Proof.
  intros Hs Hd. revert old. induction ms as [|[k x] ms IH]; intros old H; unfold field in H; cbn [foldM] in H.
  { injection H as <-. by left. }
  assert (says ms name (inj v) -> says ((k, x) :: ms) name (inj v)) as Hcons.
  { unfold says. destruct (inj v); [by right|]. intros (l & Hl & Hp). exists l. split; [by right|done]. }
  assert (forall k x, (k, x) ∈ ms -> key_matches name k = true -> k = name /\ x <> JNull) as Hs'.
  { intros k' x' Hin. apply Hs. by right. }
  destruct (key_matches name k) eqn:E.
  - destruct (Hs k x ltac:(by left) E) as [-> Hx]. destruct (decode x old) as [o|] eqn:Ed; [|done].
    destruct (IH Hs' o H) as [[-> _]|Hsay]; [|by right; apply Hcons]. right.
    eapply Hd; [exact Hx|exact Ed|by left].
  - destruct (IH Hs' old H) as [[-> Hr]|Hsay]; [|by right; apply Hcons]. left. split; [done|].
    unfold raw_has. cbn [existsb]. rewrite bool_decide_eq_false_2; [exact Hr|]. intros ->.
    unfold key_matches in E. by apply bool_decide_eq_false in E.
Qed.
Lemma string_source name old ms v :
  (forall k x, (k, x) ∈ ms -> key_matches name k = true -> k = name /\ x <> JNull) ->
  string_field name old ms = Ok v ->
  v = old /\ raw_has ms name = false \/ says ms name (inl v).
Proof.
  intros Hs. apply (field_source decode_string inl _ _ _ _ Hs).
  intros [] o w Hx E l Hin; try discriminate E; [done|]. by injection E as <-.
Qed.

Lemma uint64_source name old ms v :
  (forall k x, (k, x) ∈ ms -> key_matches name k = true -> k = name /\ x <> JNull) ->
  uint64_field name old ms = Ok v ->
  v = old /\ raw_has ms name = false \/ says ms name (inr v).
Proof.
  intros Hs. apply (field_source decode_uint64 inr _ _ _ _ Hs).
  intros [] o w Hx E l Hin; try discriminate E; [done|]. exists literal. split; [done|].
  cbn [decode_uint64] in E. destruct (ParseUint literal); [|done]. by injection E as <-.
Qed.

Notation each_field P := (Forall P profile_fields).

Lemma decode_owned_source ms old o :
  spelled ms -> decode_owned ms old = Ok o ->
  each_field (fun '(name, get) => get o = get old /\ raw_has ms name = false \/ says ms name (get o)).
Proof.
  intros Hs H. unfold decode_owned in H. go_inv H. subst o.
  assert (forall name get, (name, get) ∈ profile_fields -> forall k x, (k, x) ∈ ms ->
    key_matches name k = true -> k = name /\ x <> JNull) as Hf by (intros; by eapply Hs).
  repeat match goal with
  | E : string_field _ _ ms = Ok _ |- _ =>
      first [apply string_source in E; [|solve [eapply Hf; unfold profile_fields; in_list]] | clear E]
  | E : uint64_field _ _ ms = Ok _ |- _ =>
      apply uint64_source in E; [|solve [eapply Hf; unfold profile_fields; in_list]]
  end.
  unfold profile_fields. repeat apply list.Forall_cons_2; [..|constructor];
    match goal with E : _ \/ says ms _ _ |- _ =>
      solve [destruct E as [[E Hr]|Hr]; [left; split; [cbn; congruence|exact Hr]|right; exact Hr]]
    end.
Qed.

Lemma fill_owned_source p o :
  each_field (fun '(_, get) => get (fill_owned p o) = get (profile_owned p) \/ get (fill_owned p o) = get o).
Proof.
  unfold profile_fields, fill_owned, or_profile.
  repeat apply list.Forall_cons_2; [..|constructor]; cbn;
    first [case_decide | destruct (_ =? 0)]; auto.
Qed.

Lemma switch_owned_source ms base o :
  each_field (fun '(name, get) => get (switch_owned ms base o) = get (if raw_has ms name then o else base)).
Proof. unfold profile_fields. repeat apply list.Forall_cons_2; [..|constructor]; cbn; by destruct (raw_has _ _). Qed.

(** In a configuration of a known network, every field that a profile
    stands in for has the value of that profile or one that the file says,
    except that for the default network it may be a default. *)
Theorem loaded_network_consistent path data v ms c l p :
  Unmarshal data = Ok v -> struct_members v = Ok ms -> spelled ms ->
  load_config path data = Ok (c, l) ->
  networkProfiles !! ow_Network (cf_owned c) = Some p ->
  each_field (fun '(name, get) =>
    get (cf_owned c) = get (profile_owned p) \/ says ms name (get (cf_owned c)) \/
    p = testnet /\ get (cf_owned c) = get (cf_owned Defaults)).
Proof.
  intros Hv Hms Hs (v' & ms' & c1 & Hv' & Hms' & Hc & -> & _)%load_config_inv Hp.
  rewrite Hv in Hv'. injection Hv' as <-. rewrite Hms in Hms'. injection Hms' as <-.
  apply networkProfiles_cases in Hp as [Hn Hp]. cbn [cf_owned with_profile] in *.
  rewrite ApplyNetworkProfile_owned in *.
  assert (decode_owned ms (cf_owned Defaults) = Ok (cf_owned c1)) as Hd by by apply decode_config_owned.
  destruct (profile_of (cf_owned c1)) as [q|] eqn:Eq.
  2: { exfalso. apply profile_of_none in Eq as [_ Eq].
       assert (ow_Network (finish_owned ms (cf_owned c1)) = ow_Network (cf_owned c1)) as En.
       { unfold finish_owned. by destruct (decide _). }
       rewrite En in Hn. rewrite Hn in Eq. by destruct Hp as [->| ->]. }
  assert (ow_Network (finish_owned ms (fill_owned q (cf_owned c1))) = np_Name q) as En.
  { unfold finish_owned. by destruct (decide _). }
  assert (q = p) as ->.
  { apply profile_of_cases in Eq. rewrite En in Hn. by destruct Hp as [->| ->], Eq as [->| ->]. }
  apply list.Forall_forall. intros [name get] Hin.
  pose proof (decode_owned_source _ _ _ Hs Hd) as H1. pose proof (fill_owned_source p (cf_owned c1)) as H2.
  pose proof (switch_owned_source ms (profile_owned p) (fill_owned p (cf_owned c1))) as H3.
  rewrite list.Forall_forall in H1, H2, H3. specialize (H1 _ Hin). specialize (H2 _ Hin).
  specialize (H3 _ Hin). cbn beta iota in H1, H2, H3. unfold finish_owned.
  change (ow_Network (fill_owned p (cf_owned c1))) with (np_Name p). rewrite known_base by done.
  destruct (decide _) as [Et|Et].
  - assert (p = testnet) as Hpt by by destruct Hp as [->| ->].
    destruct H2 as [H2|H2]; rewrite H2; [by left|]. destruct H1 as [[H1 _]|H1]; auto.
  - rewrite H3. destruct (raw_has ms name) eqn:Er; [|by left].
    destruct H2 as [H2|H2]; rewrite H2; [by left|]. destruct H1 as [[_ H1]|H1]; [done|auto].
Qed.
End Networks.

(** ** Saving *)

Section Saving.
Context {UC : UnicodeCase} {EN : Environment} (dir : string).
Hypothesis dir_known : Dir = Ok dir.

Definition config_path : string := filepath_Join dir "config.json".
Definition config_key : key := ((path_key dir).1, (path_key dir).2 ++ ["config.json"%string]).

Lemma dir_nonempty : dir <> ""%string.
Proof.
  revert dir_known. unfold Dir. destruct (decide (Getenv "IGIT_HOME" = ""%string)).
  - unfold UserHomeDir. destruct (decide (Getenv "HOME" = ""%string)) as [|Hh]; [done|].
    intros [= <-]. unfold filepath_Join. rewrite !decide_False by done. apply Clean_nonempty.
  - by intros [= <-].
Qed.

Lemma config_path_key : path_key config_path = config_key.
Proof. apply Join_key; [apply dir_nonempty|done]. Qed.

Lemma config_file_path : file_path config_path (path_key dir).1 (path_key dir).2 "config.json".
Proof.
  split; [|split; [apply config_path_key|done]]. unfold config_path, filepath_Join.
  rewrite !decide_False by (done || apply dir_nonempty).
  unfold Clean at 1. rewrite path_key_Clean. done.
Qed.

Lemma Path_known : Path = Ok config_path.
Proof. unfold Path. by rewrite dir_known. Qed.

(** What [Save] does before it writes. *)
Definition save_directory : prog disk unit :=
  MkdirAll dir mode_0700 ;;
  wrap_error "protect config directory: %w" [] (ProtectDirectory dir).

Lemma kept_save_directory P : keeps (kept config_key P) save_directory.
Proof.
  apply keeps_bind; [|intros _; apply keeps_wrap_error, kept_ProtectDirectory].
  apply kept_mkdir_all.
  - cbn. rewrite length_rev, length_app. cbn. lia.
  - apply List.Forall_rev; eapply normal_without, path_key_normal.
Qed.

Lemma Save_run cfg d : Save cfg d =
  match save_directory d with
  | (d1, Ok _) =>
      wrap_error "write protected config file: %w" []
        (WriteFile config_path (MarshalIndent (config_json cfg))) d1
  | (d1, Err e) => (d1, Err e)
  end.
Proof.
  unfold Save, save_directory. rewrite dir_known. rewrite !bind_run. cbn [of_result].
  unfold of_result. rewrite bind_run.
  destruct (MkdirAll dir mode_0700 d) as [d1 [[]|e]]; [|done]. rewrite bind_run.
  by destruct (wrap_error _ _ (ProtectDirectory dir) d1) as [d2 [[]|e]].
Qed.

Lemma text_at_look d d' q : look d q = look d' q -> text_at d q = text_at d' q.
Proof. unfold text_at. by intros ->. Qed.

(** What the file may hold after [Save], or after a loss of power. *)
Lemma Save_file cfg d d' r :
  disk_ok d -> Save cfg d = (d', r) ->
  let text := MarshalIndent (config_json cfg) in
  (forall found, after d' found -> text_at found config_key = Some text \/
     exists d0, after d d0 /\ text_at found config_key = text_at d0 config_key) /\
  (r = Ok tt -> look d' config_key = Some (mk_inode KFile mode_0600, text)).
Proof.
  intros Hok H text. rewrite Save_run in H. fold text in H.
  set (P := fun t => t = Some text \/ exists d0, after d d0 /\ t = text_at d0 config_key).
  assert (kept config_key P d) as Hk by (split; [done|]; intros found Hf; right; eauto).
  pose proof (kept_save_directory P d Hk) as Hk1. destruct (save_directory d) as [d1 [[]|e]]; cbn in Hk1.
  2: { injection H as <- <-. split; [|done]. by destruct Hk1. }
  unfold wrap_error in H. destruct (WriteFile _ _ d1) as [d2 r2] eqn:Ew. injection H as <- <-.
  destruct Hk1 as [Hok1 HP].
  split.
  - intros found Hf.
    destruct (write_file_found _ _ _ _ _ _ _ _ found Hok1 config_file_path Ew Hf) as (d0 & Hd0 & _ & [E|E]).
    + rewrite (text_at_look found d0) by done. by apply HP.
    + left. fold config_key in E. unfold text_at. by rewrite E.
  - intros Hr. apply wrapf_ok in Hr as ->.
    by destruct (write_file_done _ _ _ _ _ _ _ Hok1 config_file_path Ew).
Qed.
(** What a configuration that was loaded is made of. *)
Definition loadable (t : option string) (c : Config) : Prop :=
  match t with
  | None => c = Defaults
  | Some text => exists l, load_config config_path text = Ok (c, l)
  end.

Lemma Load_reads d d' c : Load d = (d', Ok c) -> loadable (text_at d config_key) c.
Proof.
  unfold Load. rewrite Path_known, bind_run. cbn. rewrite bind_run. unfold attempt. pose proof (text_Lstat config_key _ config_path d eq_refl) as Ht.
  destruct (Lstat config_path d) as [d1 [n|e]] eqn:El; cbn [fst] in Ht.
  2: { destruct (IsNotExist e) eqn:Ee; [|done]. intros [= _ <-].
       by rewrite (Lstat_absent config_key _ _ _ _ config_path_key El Ee). }
  unfold load_file. intros H. run_ok H.
  assert (text_at s config_key = text_at d config_key) as H1.
  { pose proof (keeps_wrap_error _ "protect config directory before read: %w" [] _
      (text_ProtectDirectory config_key (text_at d config_key) (filepath_Dir config_path)) d1 Ht) as G.
    by rewrite Hc in G. }
  assert (text_at s0 config_key = text_at d config_key) as H2.
  { pose proof (keeps_wrap_error _ "protect config file before read: %w" [] _
      (text_ProtectFile config_key (text_at d config_key) config_path) s H1) as G.
    by rewrite Hc0 in G. }
  rewrite (ReadFile_text _ _ _ _ _ _ config_path_key H2 Hc1). cbn [loadable].
  unfold of_result in Hc2. injection Hc2 as _ Hl.
  match type of Hl with _ = Ok ?p => destruct p as [c1 l] end. exists l. rewrite Hl.
  destruct l; [|by injection H as _ ->]. run_ok H. by injection H as _ ->.
Qed.

(** *** When nothing fails *)

Lemma save_directory_live d i n :
  live d -> inode_at (dk_table d) (path_key dir) = Some (i, n) -> in_kind n = KDirectory ->
  save_directory d =
    (with_table (set_inode i (mk_inode KDirectory mode_0700) (dk_table d)) d, Ok tt).
Proof.
  intros Hd Hi Hn. unfold save_directory, MkdirAll. rewrite bind_run, mkdir_all_present.
  - unfold wrap_error. by rewrite (ProtectDirectory_live _ _ _ _ Hd Hi Hn).
  - rewrite List.rev_involutive, <- surjective_pairing. unfold Stat_IsDir.
    by rewrite syscall_live, key_text_key, Hi, Hn.
Qed.

Lemma load_file_live cfg d i n j m :
  live d -> settled cfg ->
  inode_at (dk_table d) (path_key dir) = Some (i, n) -> in_kind n = KDirectory ->
  inode_at (dk_table d) config_key = Some (j, m) -> in_kind m = KFile -> i <> j ->
  default ""%string (ct_text <$> dk_contents d !! j) = MarshalIndent (config_json cfg) ->
  exists d', Load d = (d', Ok cfg).
Proof.
  intros Hd Hs Hi Hn Hj Hm Hij Hc. unfold Load. rewrite Path_known, bind_run. cbn. rewrite bind_run.
  rewrite <- config_path_key in Hj. unfold attempt. rewrite (Lstat_live _ _ _ _ Hd Hj).
  unfold load_file, wrap_error. rewrite bind_run.
  destruct config_file_path as (Hclean & Hk & _). pose proof (Clean_file _ _ _ _ Hk eq_refl) as [_ Hdir].
  rewrite Hclean in Hdir. rewrite <- surjective_pairing in Hdir.
  rewrite <- Hdir in Hi. rewrite (ProtectDirectory_live _ _ _ _ Hd Hi Hn). cbn [wrapf].
  set (d1 := with_table _ d). assert (live d1) as Hd1 by done.
  assert (inode_at (dk_table d1) (path_key config_path) = Some (j, m)) as Hj1.
  { apply inode_at_Some in Hj as [J1 J2]. apply inode_at_Some. split; [done|]. cbn.
    by rewrite lookup_insert_ne. }
  rewrite bind_run, (ProtectFile_live _ _ _ _ Hd1 Hj1 Hm). cbn [wrapf].
  set (d2 := with_table _ d1). assert (live d2) as Hd2 by done.
  assert (inode_at (dk_table d2) (path_key config_path) = Some (j, mk_inode KFile mode_0600)) as Hj2.
  { apply inode_at_Some in Hj1 as [J1 J2]. apply inode_at_Some. split; [done|]. cbn.
    by rewrite lookup_insert_eq. }
  rewrite bind_run. unfold ReadFile. rewrite syscall_live, Hj2 by done. cbn [IsRegular in_kind].
  unfold IsRegular. cbn [in_kind]. rewrite bool_decide_eq_true_2 by done.
  change (dk_contents d2) with (dk_contents d). rewrite Hc.
  rewrite bind_run. unfold of_result. rewrite settled_reads by done. by eexists.
Qed.

(** C35: A configuration that [Load] gives after an interrupted [Save], be it by
    an error, by the end of the process or by a loss of power, is the one that
    the saved text stands for or one that could have been loaded without the
    call.  The saved text stands for the saved configuration when that is
    [settled], as every loaded one is: a setting that [Load] fills in when it is
    blank must not be blank. *)
Theorem interrupted_save_loads cfg d d' r found d'' c :
  disk_ok d -> Save cfg d = (d', r) -> after d' found ->
  Load found = (d'', Ok c) ->
  (loadable (Some (MarshalIndent (config_json cfg))) c /\ (settled cfg -> c = cfg)) \/
  exists d0, after d d0 /\ loadable (text_at d0 config_key) c.
Proof.
  intros Hok H Hf Hl. destruct (Save_file _ _ _ _ Hok H) as [H1 _]. apply Load_reads in Hl.
  destruct (H1 found Hf) as [E|(d0 & Hd0 & E)]; rewrite E in Hl.
  - left. split; [done|]. intros Hs. destruct Hl as [l Hl]. rewrite settled_reads in Hl by done.
    by injection Hl as <-.
  - right. by exists d0.
Qed.


Lemma Save_live cfg d i n :
  disk_ok d -> live d -> inode_at (dk_table d) (path_key dir) = Some (i, n) -> in_kind n = KDirectory ->
  is_directory (dk_table d) config_key = false ->
  tb_names (dk_table d) !! ((path_key dir).1, (path_key dir).2 ++
    [staging_segment "config.json" (next_random d).2]) = None ->
  exists d', Save cfg d = (d', Ok tt) /\ live d' /\
    look d' config_key = Some (mk_inode KFile mode_0600, MarshalIndent (config_json cfg)) /\
    fst <$> look d' (path_key dir) = Some (mk_inode KDirectory mode_0700).
Proof.
  intros Hok Hd Hi Hn Hfile Hfree.
  destruct (kept_save_directory (fun _ => True) d ltac:(by split)) as [Hok1 _].
  pose proof (save_directory_live _ _ _ Hd Hi Hn) as Hsd. rewrite Hsd in Hok1. cbn [fst] in Hok1.
  set (d1 := with_table _ d) in *. apply inode_at_Some in Hi as [I1 I2].
  assert (inode_at (dk_table d1) (path_key dir) = Some (i, mk_inode KDirectory mode_0700)) as Hi1.
  { apply inode_at_Some. split; [done|]. cbn. by rewrite lookup_insert_eq. }
  assert (is_directory (dk_table d1) ((path_key dir).1, (path_key dir).2) = true) as Hdir1.
  { rewrite <- surjective_pairing. apply is_directory_Some. by eexists _, _. }
  assert (is_directory (dk_table d1) config_key = false) as Hfile1.
  { rewrite <- Hfile. apply is_directory_same; [done|]. intros j Hj. cbn. apply lookup_insert_ne. intros <-.
    apply not_true_iff_false in Hfile. apply Hfile, is_directory_Some. exists i, n.
    split; [|done]. by apply inode_at_Some. }
  destruct (WriteFile_live _ _ _ _ (MarshalIndent (config_json cfg)) d1 Hok1 config_file_path)
    as (d2 & Hw & Hd2); [done|exact Hdir1|exact Hfile1| |].
  { assert ((next_random d1).2 = (next_random d).2) as ->; [|exact Hfree].
    unfold next_random. cbn. by destruct (dk_random d). }
  exists d2. destruct (write_file_done _ _ _ _ _ _ _ Hok1 config_file_path Hw) as [H1 H2].
  split_and!; [|done|exact H1|].
  - rewrite Save_run, Hsd. unfold wrap_error. by rewrite Hw.
  - rewrite H2. 
    + by rewrite (proj2 (look_Some d1 _ _ _) (ex_intro _ i (conj Hi1 eq_refl))).
    + intros E. apply (f_equal (fun q => length q.2)) in E. cbn in E. rewrite length_app in E. cbn in E. lia.
Qed.

(** C36: Saving a configuration that was loaded, and loading it again, gives the
    same configuration, from a file of mode 0600 in a directory of mode 0700. *)
Theorem saved_configuration_loads path data cfg l d :
  load_config path data = Ok (cfg, l) -> disk_ok d -> live d ->
  is_directory (dk_table d) (path_key dir) = true ->
  is_directory (dk_table d) config_key = false ->
  tb_names (dk_table d) !! ((path_key dir).1, (path_key dir).2 ++
    [staging_segment "config.json" (next_random d).2]) = None ->
  exists d1 d2, Save cfg d = (d1, Ok tt) /\ Load d1 = (d2, Ok cfg) /\
    look d1 config_key = Some (mk_inode KFile mode_0600, MarshalIndent (config_json cfg)) /\
    fst <$> look d1 (path_key dir) = Some (mk_inode KDirectory mode_0700).
Proof.
  intros Hs%loaded_settled Hok Hd (i & n & Hi & Hn)%is_directory_Some Hfile Hfree.
  destruct (Save_live cfg d i n) as (d1 & H1 & Hd1 & H2 & H3); [done..|].
  pose proof (proj1 (look_Some _ _ _ _) H2) as (j & Hj & Hc).
  pose proof H3 as ([n' t] & Hlook & E)%fmap_Some. cbn in E. subst n'.
  apply look_Some in Hlook as (i' & Hi' & _).
  destruct (load_file_live cfg d1 i' _ j _ Hd1 Hs Hi' eq_refl Hj eq_refl) as [d2 Hl]; [|done|by exists d1, d2].
  intros <-. apply inode_at_Some in Hi' as [_ Hi'], Hj as [_ Hj]. by rewrite Hi' in Hj.
Qed.
End Saving.
