(* ===== verification/ConfigEffective.v ===== *)
(** * ConfigEffective: the effective configuration

    The gateways and fallbacks without duplicates, the profiles that are
    published, and concrete configuration files. *)
From Stdlib Require Import ZArith Lia Ascii String.
From stdpp Require Import base list gmap strings option.
From S2P Require Import Prelude GoText Prog I18n Json JsonSpec Ipfs EvmAddress Paths FileSystem FileProtection FileTexts FileProtectionProps Config ConfigSpec ConfigLoad ConfigProps.

Local Open Scope Z_scope.

(** ** Lists without duplicates *)

Section Unseen.
Context {A B : Type} (url : A -> string) (item : A -> B) (key : B -> string).
Hypothesis key_item : forall a, key (item a) = url a.

Definition unseen_inv (l : list A) (acc : gset string * list B) : Prop :=
  (forall u, u ∈ acc.1 <-> u ∈ map key acc.2) /\ NoDup (map key acc.2) /\
  (forall u, u ∈ map key acc.2 <-> u <> ""%string /\ exists a, a ∈ l /\ url a = u).

Lemma add_unseen_inv l a acc :
  unseen_inv l acc -> unseen_inv (l ++ [a]) (add_unseen (url a) (item a) acc).
Proof.
  destruct acc as [seen items]. intros (H1 & H2 & H3). unfold add_unseen, unseen_inv in *. cbn in *.
  assert (forall u, (exists b, b ∈ l ++ [a] /\ url b = u) <-> (exists b, b ∈ l /\ url b = u) \/ url a = u) as Hl.
  { intros u. setoid_rewrite elem_of_app. setoid_rewrite list_elem_of_singleton. naive_solver. }
  destruct (bool_decide (url a = ""%string)) eqn:E0; cbn [orb].
  { apply bool_decide_eq_true in E0. cbn. split_and!; [done..|]. intros u. rewrite H3, Hl. naive_solver. }
  apply bool_decide_eq_false in E0. destruct (bool_decide (url a ∈ seen)) eqn:E1; cbn.
  - apply bool_decide_eq_true in E1. split_and!; [done..|]. intros u. rewrite Hl.
    split; [|naive_solver]. rewrite H3. naive_solver.
  - apply bool_decide_eq_false in E1. rewrite map_app. cbn [map]. rewrite key_item.
    split_and!.
    + intros u. rewrite elem_of_union, elem_of_singleton, elem_of_app, list_elem_of_singleton, H1. tauto.
    + apply list.NoDup_app. split_and!; [done| |apply NoDup_singleton].
      intros u Hu ->%list_elem_of_singleton. by apply E1, H1.
    + intros u. rewrite elem_of_app, list_elem_of_singleton, Hl, H3. naive_solver.
Qed.

Lemma add_unseen_fold l :
  unseen_inv l (fold_left (fun acc a => add_unseen (url a) (item a) acc) l (∅, [])).
Proof.
  induction l as [|a l IH] using rev_ind.
  - split_and!; [set_solver|constructor|set_solver].
  - rewrite fold_left_app. by apply add_unseen_inv.
Qed.
End Unseen.

(** [EffectiveGateways] lists every configured gateway once, and the
    deprecated one when it is no public fallback; no address appears twice,
    unless a blank before its last slash changes the deprecated one. *)
Theorem effective_gateways_distinct c :
  let legacyURL := gateway_url (cf_IPFSGateway c) in
  let configured := default [] (cf_Gateways c) in
  let public := default [] (cf_PublicGatewayFallbacks c) in
  gateway_url legacyURL = legacyURL ->
  NoDup (map gw_URL (EffectiveGateways c)) /\
  forall url, url ∈ map gw_URL (EffectiveGateways c) <-> url <> ""%string /\
    ((exists g, g ∈ configured /\ gateway_url (gw_URL g) = url) \/
     url = legacyURL /\ ~ exists raw, raw ∈ public /\ gateway_url raw = url).
Proof.
  intros legacyURL configured public Hfix. unfold EffectiveGateways. fold legacyURL configured public.
  pose proof (add_unseen_fold (fun g => gw_URL (trimmed g)) trimmed gw_URL (fun g => eq_refl) configured)
    as (_ & Hnd & Hin).
  set (gateways := (fold_left _ _ _).2) in *.
  assert (Hnamed : existsb (fun g => bool_decide (gateway_url (gw_URL g) = legacyURL)) configured = true <->
    exists g, g ∈ configured /\ gateway_url (gw_URL g) = legacyURL).
  { rewrite existsb_exists. setoid_rewrite bool_decide_eq_true. by setoid_rewrite <- list_elem_of_In. }
  assert (Hpublic : existsb (fun f => bool_decide (gateway_url f = legacyURL)) public = true <->
    exists raw, raw ∈ public /\ gateway_url raw = legacyURL).
  { rewrite existsb_exists. setoid_rewrite bool_decide_eq_true. by setoid_rewrite <- list_elem_of_In. }
  destruct (existsb _ configured); cbn [negb andb].
  { split; [done|]. intros url. rewrite Hin. naive_solver. }
  destruct (existsb _ public); cbn [negb andb].
  { split; [done|]. intros url. rewrite Hin. naive_solver. }
  destruct (bool_decide (legacyURL = ""%string)) eqn:E; cbn [negb map gw_URL].
  { apply bool_decide_eq_true in E. split; [done|]. intros url. rewrite Hin. naive_solver. }
  apply bool_decide_eq_false in E. rewrite Hfix. split.
  - apply list.NoDup_cons. split; [|done]. rewrite Hin. naive_solver.
  - assert (~ exists raw, raw ∈ public /\ gateway_url raw = legacyURL) as Hnp by by rewrite <- Hpublic.
    intros url. rewrite elem_of_cons, Hin. split.
    + intros [->|[Hne Hg]]; [|by auto]. split; [done|]. by right.
    + intros [Hne [Hg|[-> _]]]; [by right|by left].
Qed.

(** ** Concrete files *)

Section Files.
Context {UC : UnicodeCase}.

(** A blank before the last slash of the deprecated address gives the same
    address twice. *)
Definition blank_config : Config :=
  mk_Config (cf_owned Defaults) upgraded "" "" "test" "injectived" "500000000inj" "" "ipfs"
    "https://gateway.example /" (Some [mk_Gateway "own" "https://gateway.example"])
    (cf_Upload Defaults) (Some []).

Lemma blank_gateway_twice :
  map gw_URL (EffectiveGateways blank_config) =
    ["https://gateway.example"; "https://gateway.example"]%string.
Proof. by vm_compute. Qed.

(** A file that switches the network and has a [null] member. *)
Definition null_member : string :=
  Marshal (JObject [("network", JString "injective-mainnet"); ("evm_rpc", JNull)]%string).

(** A member that is [null] counts as set, though it sets nothing: the
    configuration is of the main network, with its chain, and calls the node of
    the test network. *)
Theorem null_member_mixes_networks path :
  exists c, load_config path null_member = Ok (c, false) /\
    ow_Network (cf_owned c) = np_Name mainnet /\ EffectiveEVMChainID c = np_EVMChainID mainnet /\
    EffectiveEVMRPC c = np_EVMRPC testnet.
Proof. eexists. split; [vm_compute; reflexivity|]. by vm_compute. Qed.

(** A member in another case is decoded, and then replaced. *)
Definition shouted_member : string :=
  Marshal (JObject [("network", JString "injective-mainnet");
                    ("EVM_RPC", JString "https://node.example")]%string).

Lemma shouted_member_replaced path :
  exists c, load_config path shouted_member = Ok (c, false) /\
    EffectiveEVMRPC c = TrimRight (np_EVMRPC mainnet) "/".
Proof. eexists. split; [vm_compute; reflexivity|]. by vm_compute. Qed.

(** A gateway without an address takes the one of the default in its place. *)
Definition partial_gateway : string :=
  Marshal (JObject [("gateways", JArray [JObject [("name", JString "mine")]])]%string).

Lemma partial_gateway_filled path :
  exists c, load_config path partial_gateway = Ok (c, false) /\
    cf_Gateways c = Some [mk_Gateway "mine" "https://igit-hk.haohanyh.ovh"].
Proof. eexists. split; [vm_compute; reflexivity|]. by vm_compute. Qed.

(** The profiles that are published are in order. *)
Lemma published_profiles_valid {MO : MapOrder} : ValidatePublishedSuiteProfiles = Ok tt.
Proof.
  unfold ValidatePublishedSuiteProfiles. cbn [EffectiveContractBackend EffectiveContractVersion].
  assert (forall l, Forall (fun e => check_profile e = Ok tt) l -> forM check_profile l = Ok tt) as H.
  { induction 1 as [|e l He _ IH]; [done|]. cbn [forM]. by rewrite He. }
  rewrite !bool_decide_eq_true_2 by done. cbn [negb orb].
  rewrite bool_decide_eq_false_2 by done. apply H, list.Forall_forall.
  intros [name p] Hin. rewrite map_order_perm in Hin. apply elem_of_map_to_list in Hin.
  apply networkProfiles_cases in Hin as [-> [->| ->]]; done.
Qed.
End Files.

(** ** a home directory

    A disk with a configuration file, sessions on it, and the theorems of
    [FileProtectionProps], [ConfigProps] and [ConfigEffective] applied to them. *)

#[local] Instance home_environment : Environment :=
  { Getenv name := if decide (name = "HOME"%string) then "/home/ann" else "" }.
#[local] Instance ascii_only : UnicodeCase := { wide_lower s := s }.

(** ** The disk *)

Definition at_root (names : list string) : key := (true, names).
Definition home_dir : key := at_root ["home"; "ann"; ".igit"]%string.

(** The text of the main network with a node of one's own. *)
Definition own_node : string :=
  Marshal (JObject [("network", JString "injective-mainnet");
                    ("evm_rpc", JString "https://node.example");
                    ("key_name", JString "ann")]%string).

Definition home_table : table := {|
  tb_names := {[at_root [] := 1; at_root ["home"] := 2; at_root ["home"; "ann"] := 3;
                home_dir := 4; at_root ["home"; "ann"; ".igit"; "config.json"] := 5]}%string;
  tb_inodes := {[1 := mk_inode KDirectory 493; 2 := mk_inode KDirectory 493;
                 3 := mk_inode KDirectory 493; 4 := mk_inode KDirectory 493;
                 5 := mk_inode KFile 420]} |}.

(** A disk on which calls run into [faults]. *)
Definition home_disk (faults : list fault) : disk := {|
  dk_table := home_table; dk_earlier := []; dk_contents := {[5 := mk_contents own_node ""]};
  dk_next := 6; dk_umask := 18; dk_random := [77; 78]; dk_faults := faults; dk_stopped := false |}.

Lemma home_disk_ok faults : disk_ok (home_disk faults).
Proof.
  split.
  - intros t k i [->|Ht]%elem_of_cons Hi; [|by apply elem_of_nil in Ht].
    unfold home_disk, home_table in Hi. cbn [dk_table tb_names] in Hi. change (dk_next _) with 6.
    repeat (apply lookup_insert_Some in Hi as [[_ <-]|[_ Hi]]; [lia|]).
    by apply lookup_singleton_Some in Hi as [_ <-].
  - intros i c Hi. cbn in Hi. by apply lookup_singleton_Some in Hi as [<- _].
Qed.

Definition home_path : string := "/home/ann/.igit/config.json".

(** ** The theorems at work *)

(** The fifth call, the one that writes, ends the process after three bytes:
    the old file is still there. *)
Lemma write_file_atomic_witness :
  let d := home_disk [Works; Works; Works; Stops 3] in
  (WriteFile home_path "new" d).2 = errf "process ended" [] /\
  exists d0, after d d0 /\
    (look (WriteFile home_path "new" d).1 (path_key home_path) = look d0 (path_key home_path) \/
     look (WriteFile home_path "new" d).1 (path_key home_path) =
       Some (mk_inode KFile mode_0600, "new"%string)).
Proof.
  split; [by vm_compute|].
  destruct (write_file_atomic home_path true ["home"; "ann"; ".igit"]%string "config.json" "new"
    (home_disk [Works; Works; Works; Stops 3])
    (WriteFile home_path "new" (home_disk [Works; Works; Works; Stops 3])).1
    (WriteFile home_path "new" (home_disk [Works; Works; Works; Stops 3])).2) as [H _].
  - apply home_disk_ok.
  - by vm_compute.
  - apply surjective_pairing.
  - destruct (H _ (after_refl _)) as (d0 & Hd0 & _ & Hk). exists d0. by split.
Defined.

(** What the file says is loaded, and the rest is of the main network. *)
Lemma loaded_network_consistent_witness :
  exists c l, load_config home_path own_node = Ok (c, l) /\
    ow_EVMRPC (cf_owned c) = "https://node.example"%string /\
    Forall (fun '(name, get) =>
      get (cf_owned c) = get (profile_owned mainnet) \/
      says [("network", JString "injective-mainnet"); ("evm_rpc", JString "https://node.example");
            ("key_name", JString "ann")]%string name (get (cf_owned c)) \/
      mainnet = testnet /\ get (cf_owned c) = get (cf_owned Defaults)) profile_fields.
Proof.
  destruct (load_config home_path own_node) as [[c l]|e] eqn:E; [|by vm_compute in E].
  exists c, l. split; [done|]. split.
  - vm_compute in E. by injection E as <- _.
  - eapply (loaded_network_consistent home_path own_node _ _ c l mainnet);
      [by vm_compute|done| |exact E|].
    + intros name get k x Hn Hk Hm. unfold profile_fields in Hn.
      repeat (apply elem_of_cons in Hk as [[= -> ->]|Hk];
        [repeat (apply elem_of_cons in Hn as [[= -> _]|Hn];
           [first [by split | by vm_compute in Hm]|]); by apply elem_of_nil in Hn|]).
      by apply elem_of_nil in Hk.
    + vm_compute in E. by injection E as <- _.
Defined.

Definition igit_dir : string := "/home/ann/.igit".

Lemma igit_dir_known : Dir = Ok igit_dir.
Proof. by vm_compute. Qed.

Definition loaded (text : string) : Config :=
  match load_config home_path text with Ok (c, _) => c | Err _ => Defaults end.

Lemma after_restart d : after d (with_faults [] false d).
Proof. split; [by left|apply contents_after_refl]. Qed.

Lemma run_pair {S A} (c : prog S A) s r : (c s).2 = r -> c s = ((c s).1, r).
Proof. intros <-. apply surjective_pairing. Qed.

(** Saving a configuration of the test network is cut off in the middle of
    writing the staging file. *)
Definition bob_config : Config :=
  loaded (Marshal (JObject [("key_name", JString "bob")]%string)).
Definition cut_off_disk : disk := home_disk [Works; Works; Works; Works; Works; Works; Stops 10].
Definition cut_off : disk := with_faults [] false (Save bob_config cut_off_disk).1.

Lemma interrupted_save_loads_witness :
  is_ok (Save bob_config cut_off_disk).2 = false /\
  (Load cut_off).2 = Ok (loaded own_node) /\
  ((loadable igit_dir (Some (MarshalIndent (config_json bob_config))) (loaded own_node) /\
    (settled bob_config -> loaded own_node = bob_config)) \/
   exists d0, after cut_off_disk d0 /\
     loadable igit_dir (text_at d0 (config_key igit_dir)) (loaded own_node)).
Proof.
  assert ((Load cut_off).2 = Ok (loaded own_node)) as Hl by (vm_compute; reflexivity).
  split; [by vm_compute|]. split; [exact Hl|].
  eapply (interrupted_save_loads igit_dir igit_dir_known bob_config cut_off_disk
    (Save bob_config cut_off_disk).1 (Save bob_config cut_off_disk).2 cut_off (Load cut_off).1).
  - apply home_disk_ok.
  - apply surjective_pairing.
  - unfold cut_off. apply after_restart.
  - exact (run_pair _ _ _ Hl).
Defined.

Lemma saved_configuration_loads_witness :
  exists d1 d2, Save (loaded own_node) (home_disk []) = (d1, Ok tt) /\
    Load d1 = (d2, Ok (loaded own_node)).
Proof.
  destruct (saved_configuration_loads igit_dir igit_dir_known home_path own_node (loaded own_node) false
    (home_disk [])) as (d1 & d2 & H1 & H2 & _).
  - vm_compute. reflexivity.
  - apply home_disk_ok.
  - by split.
  - vm_compute. reflexivity.
  - vm_compute. reflexivity.
  - vm_compute. reflexivity.
  - exists d1, d2. split; [exact H1|exact H2].
Defined.

Lemma effective_gateways_distinct_witness :
  gateway_url (gateway_url (cf_IPFSGateway Defaults)) = gateway_url (cf_IPFSGateway Defaults) /\
  NoDup (map gw_URL (EffectiveGateways Defaults)).
Proof.
  split; [by vm_compute|]. by apply (effective_gateways_distinct Defaults); vm_compute.
Defined.
