(* ===== verification/Journal.v ===== *)
(** * Journal: the operator's log ([cmd/igit-suite-operator])

    [journal.go] over the disk of [FileSystem], and [manifest.go].  Times and
    keys are parameters: the JSON text of a [time.Time] and the signature of a
    hash. *)
From Stdlib Require Import ZArith Lia Ascii String.
From stdpp Require Import base list gmap strings option.
From S2P Require Import Prelude GoText Prog GoIo Json Geth Paths FileSystem.

Local Open Scope Z_scope.

(** [time.Time] as the journal uses it: its JSON value and seconds. *)
Class Times := {
  time : Type;
  zero_time : time;
  Unix : time -> Z;
  time_json : time -> result json;              (* MarshalJSON *)
  time_of_json : json -> time -> result time    (* UnmarshalJSON *)
}.

(** [crypto.Sign] *)
Class Signing := { private_key : Type; Sign : bytes -> private_key -> result bytes }.

(** ** Entries *)

Definition StatusPrepared : string := "prepared".
Definition StatusBroadcast : string := "broadcast".
Definition StatusConfirmed : string := "confirmed".
Definition StatusUncertain : string := "uncertain".
Definition StatusFailed : string := "failed".

Section Journal.
Context {TM : Times} {SG : Signing} {GE : Geth}.

Record JournalEntry := mk_JournalEntry {
  je_Timestamp : time;
  je_BatchIndex : Z;
  je_CallData : string;
  je_GasEstimate : Z;
  je_GasPrice : Z;
  je_TxHash : string;
  je_Status : string;
  je_BlockNumber : Z;
  je_GasUsed : Z;
  je_Error : string;
  je_Signature : string }.

Definition zero_entry : JournalEntry := mk_JournalEntry zero_time 0 "" 0 0 "" "" 0 0 "" "".

Definition with_signature (signature : string) (e : JournalEntry) : JournalEntry :=
  mk_JournalEntry (je_Timestamp e) (je_BatchIndex e) (je_CallData e) (je_GasEstimate e)
    (je_GasPrice e) (je_TxHash e) (je_Status e) (je_BlockNumber e) (je_GasUsed e) (je_Error e) signature.

Definition int_unless_zero (k : string) (z : Z) : list (string * json) :=
  if z =? 0 then [] else [int_member k z].

(** [json.Marshal(entry)] *)
Definition entry_json (e : JournalEntry) : result json :=
  let? timestamp := time_json (je_Timestamp e) in
  Ok (JObject
    ([("timestamp"%string, timestamp);
      int_member "batchIndex" (je_BatchIndex e);
      text_member "callData" (je_CallData e);
      int_member "gasEstimate" (je_GasEstimate e);
      int_member "gasPrice" (je_GasPrice e)] ++
     text_unless_empty "txHash" (je_TxHash e) ++
     [text_member "status" (je_Status e)] ++
     int_unless_zero "blockNumber" (je_BlockNumber e) ++
     int_unless_zero "gasUsed" (je_GasUsed e) ++
     text_unless_empty "error" (je_Error e) ++
     [text_member "signature" (je_Signature e)])).

(** [json.Unmarshal(line, &entry)] into a new entry. *)
Definition decode_entry (text : string) : result JournalEntry :=
  let? v := Unmarshal text in
  let? ms := struct_members v in
  let? timestamp := field time_of_json "timestamp" zero_time ms in
  let? batch := int64_field "batchIndex" 0 ms in
  let? data := string_field "callData" "" ms in
  let? estimate := uint64_field "gasEstimate" 0 ms in
  let? price := uint64_field "gasPrice" 0 ms in
  let? hash := string_field "txHash" "" ms in
  let? status := string_field "status" "" ms in
  let? block := uint64_field "blockNumber" 0 ms in
  let? used := uint64_field "gasUsed" 0 ms in
  let? error := string_field "error" "" ms in
  let? signature := string_field "signature" "" ms in
  Ok (mk_JournalEntry timestamp batch data estimate price hash status block used error signature).

(** The map that is signed. *)
Definition positive_member (k : string) (z : Z) : list (string * json) :=
  if 0 <? z then [int_member k z] else [].

Definition entryData (e : JournalEntry) : json :=
  JObject (sorted_members
    ([int_member "timestamp" (Unix (je_Timestamp e));
      int_member "batchIndex" (je_BatchIndex e);
      text_member "callData" (je_CallData e);
      int_member "gasEstimate" (je_GasEstimate e);
      int_member "gasPrice" (je_GasPrice e);
      text_member "status" (je_Status e)] ++
     text_unless_empty "txHash" (je_TxHash e) ++
     positive_member "blockNumber" (je_BlockNumber e) ++
     positive_member "gasUsed" (je_GasUsed e) ++
     text_unless_empty "error" (je_Error e))).

(** ** The journal *)

Record Journal := mk_Journal {
  jn_path : string; jn_file : file; jn_entries : list JournalEntry }.

(** [bufio.MaxScanTokenSize] *)
Definition max_line : nat := Z.to_nat (64 * 1024).

(** The scanning loop from a line on, with fuel for one line of each byte. *)
Fixpoint scan_entries (fuel : nat) (sc : scanner) (lineNum : Z)
  : result (list JournalEntry * scanner) :=
  match fuel with
  | O => errf "out of fuel" []
  | S fuel' =>
      match Scan sc with
      | (sc', None) => Ok ([], sc')
      | (sc', Some line) =>
          let? entry := wrapf "parse journal line %d: %w" [GInt (lineNum + 1)] (decode_entry line) in
          let? (entries, final) := scan_entries fuel' sc' (lineNum + 1) in
          Ok (entry :: entries, final)
      end
  end.

Definition read_entries (text : string) (stop : option goerror) : result (list JournalEntry) :=
  let ending := match stop with Some e => ReadError e | None => EndOfFile end in
  let? (entries, final) :=
    scan_entries (S (S (String.length text))) (NewScanner text ending max_line) 0 in
  match scanner_Err final with
  | Some e => Err (Wrapf "read journal: %w" [] e)
  | None => Ok entries
  end.

Definition OpenJournal (path : string) : prog disk Journal :=
  opened ← attempt (Open path);
  entries ← match opened with
            | Ok file =>
                '(text, stop) ← ReadAll file;
                outcome ← attempt (of_result (read_entries text stop));
                attempt (Close file) ;;
                of_result outcome
            | Err _ => mret []
            end;
  file ← wrap_error "open journal: %w" [] (OpenAppend path mode_0600);
  mret (mk_Journal path file entries).

(** The line that [Append] writes for an entry, and the entry with its
    signature. *)
Definition sign_entry (entry : JournalEntry) (key : private_key) : result (JournalEntry * string) :=
  let? signature := wrapf "sign entry: %w" []
    (Sign (keccak256 (string_bytes (Marshal (entryData entry)))) key) in
  let entry := with_signature ("0x" +:+ hex_encode signature) entry in
  let? v := wrapf "marshal signed entry: %w" [] (entry_json entry) in
  Ok (entry, Marshal v +:+ str1 newline_char).

(** The journal is a value that [Append] changes when it succeeds. *)
Definition Append (j : Journal) (entry : JournalEntry) (key : private_key) : prog disk Journal :=
  '(entry, line) ← of_result (sign_entry entry key);
  wrap_error "write journal: %w" [] (Write (jn_file j) line) ;;
  wrap_error "sync journal: %w" [] (Sync (jn_file j)) ;;
  mret (mk_Journal (jn_path j) (jn_file j) (jn_entries j ++ [entry])).

Definition LastEntry (j : Journal) : option JournalEntry := list.last (jn_entries j).

Definition GetConfirmedBatches {MO : MapOrder} (j : Journal) : list Z :=
  map_order (elements
    (fold_left (fun confirmed e =>
       if decide (je_Status e = StatusConfirmed) then {[je_BatchIndex e]} ∪ confirmed else confirmed)
       (jn_entries j) (∅ : gset Z))).

Definition CloseJournal (j : Journal) : prog disk unit := Close (jn_file j).
End Journal.

(** ** The manifest *)

Record Batch := mk_Batch {
  bt_Index : Z; bt_CallData : string; bt_GasLimit : Z; bt_Comment : string }.
#[export] Instance Batch_eq_dec : EqDecision Batch.
Proof. solve_decision. Defined.

Record Manifest := mk_Manifest {
  mf_ChainID : Z; mf_Directory : string; mf_Coordinator : string; mf_Batches : slice Batch }.

Definition decode_batch (v : json) (old : Batch) : result Batch :=
  let? ms := struct_members v in
  let? index := int64_field "index" (bt_Index old) ms in
  let? data := string_field "callData" (bt_CallData old) ms in
  let? gas := uint64_field "gasLimit" (bt_GasLimit old) ms in
  let? comment := string_field "comment" (bt_Comment old) ms in
  Ok (mk_Batch index data gas comment).

Definition decode_manifest (text : string) : result Manifest :=
  let? v := Unmarshal text in
  let? ms := struct_members v in
  let? chain := uint64_field "chainId" 0 ms in
  let? directory := string_field "directory" "" ms in
  let? coordinator := string_field "coordinator" "" ms in
  let? batches := slice_field decode_batch (mk_Batch 0 "" 0 "") "batches" None ms in
  Ok (mk_Manifest chain directory coordinator batches).

Definition check_operator_batch (i : Z) (s : unit) (b : Batch) : result unit :=
  fail_if negb (bt_Index b =? i)
    as Errorf "invalid manifest: batch %d has wrong index (expected %d)" [GInt (bt_Index b); GInt i] ;;
  fail_if bool_decide (bt_CallData b = ""%string)
    as Errorf "invalid manifest: batch %d has no callData" [GInt i] ;;
  Ok tt.

Definition LoadManifest (path : string) : prog disk Manifest :=
  data ← wrap_error "read manifest: %w" [] (ReadFile path);
  manifest ← of_result (wrapf "parse manifest: %w" [] (decode_manifest data));
  of_result (
    fail_if mf_ChainID manifest =? 0
      as Errorf "invalid manifest: chainId is required" [] ;;
    fail_if bool_decide (mf_Directory manifest = ""%string)
      as Errorf "invalid manifest: directory is required" [] ;;
    fail_if bool_decide (mf_Coordinator manifest = ""%string)
      as Errorf "invalid manifest: coordinator is required" [] ;;
    fail_if bool_decide (default [] (mf_Batches manifest) = [])
      as Errorf "invalid manifest: no batches" [] ;;
    check? foldMi check_operator_batch 0 (default [] (mf_Batches manifest)) tt ;;
    Ok manifest).
