(* ===== verification/JournalProps.v ===== *)
(** * JournalProps: what the operator's journal keeps

    What an entry is read back as ([reread]), the scan of a file that begins with
    the lines of entries, and the disk under an open journal ([logged],
    [holds]); then: acknowledged entries survive, and a signature covers what an
    entry says. *)
From Stdlib Require Import ZArith Lia Ascii String.
From stdpp Require Import base list gmap strings option.
From S2P Require Import Prelude GoText Prog GoIo Json JsonSpec Geth Paths FileSystem FileProtection FileProtectionProps Journal.

Local Open Scope Z_scope.

(** [time.Time] through its JSON text: the wall clock is what is left. *)
Class TimesLaws `{!Times} := {
  wall : time -> time;
  Unix_range t : - 2 ^ 63 <= Unix t < 2 ^ 63;
  wall_Unix t : Unix (wall t) = Unix t;
  time_json_ok t v : time_json t = Ok v -> json_ok v = true /\ (nesting v < 100)%nat;
  time_read_back t v old : time_json t = Ok v -> time_of_json v old = Ok (wall t) }.

Section JournalSpec.
Context {TM : Times} {TL : TimesLaws} {SG : Signing} {GE : Geth}.

(** ** Entries *)

(** The values of the Go types whose strings are UTF-8. *)
Record entry_ok (e : JournalEntry) : Prop := {
  ok_batch : - 2 ^ 63 <= je_BatchIndex e < 2 ^ 63;
  ok_numbers : Forall (fun z => 0 <= z < 2 ^ 64)
    [je_GasEstimate e; je_GasPrice e; je_BlockNumber e; je_GasUsed e];
  ok_texts : Forall (fun s => valid_utf8 s = true)
    [je_CallData e; je_TxHash e; je_Status e; je_Error e; je_Signature e] }.

Definition reread (e : JournalEntry) : JournalEntry :=
  mk_JournalEntry (wall (je_Timestamp e)) (je_BatchIndex e) (je_CallData e) (je_GasEstimate e)
    (je_GasPrice e) (je_TxHash e) (je_Status e) (je_BlockNumber e) (je_GasUsed e) (je_Error e)
    (je_Signature e).

Definition entry_line (e : JournalEntry) : string :=
  match entry_json e with Ok v => Marshal v | Err _ => "" end.

(** The text of a journal that holds the entries. *)
Definition journal_text (es : list JournalEntry) : string := unlines (map entry_line es).

Definition printable (e : JournalEntry) : Prop :=
  (exists v, time_json (je_Timestamp e) = Ok v) /\ entry_ok e.

Definition unless_zero (z : Z) : option json := if z =? 0 then None else Some (JInt z).

Definition entry_members (v : json) (e : JournalEntry) : list (string * option json) :=
  [("timestamp"%string, Some v);
   ("batchIndex"%string, Some (JInt (je_BatchIndex e)));
   ("callData"%string, Some (JString (je_CallData e)));
   ("gasEstimate"%string, Some (JInt (je_GasEstimate e)));
   ("gasPrice"%string, Some (JInt (je_GasPrice e)));
   ("txHash"%string, unless_empty (je_TxHash e));
   ("status"%string, Some (JString (je_Status e)));
   ("blockNumber"%string, unless_zero (je_BlockNumber e));
   ("gasUsed"%string, unless_zero (je_GasUsed e));
   ("error"%string, unless_empty (je_Error e));
   ("signature"%string, Some (JString (je_Signature e)))].

Lemma entry_json_ok e : entry_json e = (let? v := time_json (je_Timestamp e) in
  Ok (JObject (members_of (entry_members v e)))).
Proof.
  unfold entry_json, text_unless_empty, int_unless_zero, entry_members, unless_empty, unless_zero.
  destruct (time_json _) as [v|]; [|done]. do 2 f_equal. by repeat case_match.
Qed.

Lemma entry_json_wf e v :
  entry_ok e -> entry_json e = Ok v -> json_ok v = true /\ (nesting v <= max_depth)%nat.
Proof.
  intros [Hb Hn Ht]. rewrite entry_json_ok. destruct (time_json _) as [t|] eqn:Et; [|done].
  intros E. apply Ok_eq in E as <-. apply time_json_ok in Et as [Ho Hd]. decompose_Forall_hyps.
  assert (max_depth = S (99 + Z.to_nat 9900))%nat as -> by done.
  apply (members_ok (99 + Z.to_nat 9900) (entry_members t e)).
  assert (forall k z, valid_utf8 k = true -> member_ok (99 + Z.to_nat 9900) (k, Some (JInt z))) as Hz.
  { intros k z Hk. split; [done|]. cbn [snd]. split; [apply json_ok_JInt|cbn; lia]. }
  assert (forall k z, valid_utf8 k = true -> member_ok (99 + Z.to_nat 9900) (k, unless_zero z)) as Hu.
  { intros k z Hk. unfold unless_zero. case_match; [by split|by apply Hz]. }
  unfold entry_members. repeat apply list.Forall_cons_2; try apply list.Forall_nil_2;
    first [ by apply Hz | by apply Hu | by apply unless_empty_ok
          | split; [done|]; cbn [snd]; split; [done|cbn [nesting]; lia] ].
Qed.

Definition entry_names : list string :=
  ["timestamp"; "batchIndex"; "callData"; "gasEstimate"; "gasPrice"; "txHash"; "status";
   "blockNumber"; "gasUsed"; "error"; "signature"]%string.

Lemma entry_names_unique : forallb (fun name => unique_key name entry_names) entry_names = true.
Proof. by vm_compute. Qed.

Section Reading.
Variables (v : json) (e : JournalEntry).
Let ms := members_of (entry_members v e).

Lemma entry_member {T} (decode : json -> T -> result T) name zero o :
  (name, o) ∈ entry_members v e ->
  field decode name zero ms = match o with Some x => decode x zero | None => Ok zero end.
Proof.
  intros Hin. apply field_members; [|done]. pose proof entry_names_unique as Hu.
  rewrite forallb_forall in Hu. apply Hu, list_elem_of_In.
  change entry_names with (map fst (entry_members v e)). apply list_elem_of_fmap.
  by exists (name, o).
Qed.

Lemma entry_text name s :
  (name, Some (JString s)) ∈ entry_members v e -> string_field name "" ms = Ok s.
Proof. intros H. unfold string_field. by rewrite (entry_member _ _ _ _ H). Qed.

Lemma entry_optional name s :
  (name, unless_empty s) ∈ entry_members v e -> string_field name "" ms = Ok s.
Proof.
  intros H. unfold string_field. rewrite (entry_member _ _ _ _ H). unfold unless_empty.
  by case_decide; subst.
Qed.

Lemma entry_number name z :
  0 <= z < 2 ^ 64 -> (name, Some (JInt z)) ∈ entry_members v e -> uint64_field name 0 ms = Ok z.
Proof.
  intros Hz H. unfold uint64_field. rewrite (entry_member _ _ _ _ H). by apply decode_uint64_JInt.
Qed.

Lemma entry_optional_number name z :
  0 <= z < 2 ^ 64 -> (name, unless_zero z) ∈ entry_members v e -> uint64_field name 0 ms = Ok z.
Proof.
  intros Hz H. unfold uint64_field. rewrite (entry_member _ _ _ _ H). unfold unless_zero.
  destruct (Z.eqb_spec z 0) as [->|]; [done|]. by apply decode_uint64_JInt.
Qed.
End Reading.

Ltac in_members :=
  unfold entry_members; repeat first [apply list_elem_of_here | apply list_elem_of_further].

(** A line is read back as the entry. *)
Lemma decode_entry_line e : printable e -> decode_entry (entry_line e) = Ok (reread e).
Proof.
  intros [[v Ev] Hok]. unfold entry_line. destruct (entry_json e) as [x|] eqn:Ex.
  2: { rewrite entry_json_ok, Ev in Ex. done. }
  destruct (entry_json_wf _ _ Hok Ex) as [Hj Hd].
  destruct Hok as [Hb Hn Ht]. decompose_Forall_hyps. unfold decode_entry.
  rewrite Unmarshal_Marshal by done. rewrite entry_json_ok, Ev in Ex.
  assert (x = JObject (members_of (entry_members v e))) as -> by congruence.
  unfold struct_members. cbv beta iota.
  rewrite (entry_member v e time_of_json "timestamp" zero_time (Some v)) by in_members.
  rewrite (time_read_back _ _ _ Ev).
  unfold int64_field. rewrite (entry_member v e decode_int64 _ _ (Some (JInt (je_BatchIndex e)))) by in_members.
  rewrite decode_int64_JInt by lia.
  rewrite (entry_text v e "callData" (je_CallData e)) by in_members.
  rewrite (entry_number v e "gasEstimate" (je_GasEstimate e)) by (done || in_members).
  rewrite (entry_number v e "gasPrice" (je_GasPrice e)) by (done || in_members).
  rewrite (entry_optional v e "txHash" (je_TxHash e)) by in_members.
  rewrite (entry_text v e "status" (je_Status e)) by in_members.
  rewrite (entry_optional_number v e "blockNumber" (je_BlockNumber e)) by (done || in_members).
  rewrite (entry_optional_number v e "gasUsed" (je_GasUsed e)) by (done || in_members).
  rewrite (entry_optional v e "error" (je_Error e)) by in_members.
  by rewrite (entry_text v e "signature" (je_Signature e)) by in_members.
Qed.

(** ** Scanning *)

Lemma graphic_no_newline s : all_chars graphic s = true -> no_newline s = true.
Proof.
  unfold no_newline. induction s as [|c s IH]; [done|]. cbn [all_chars some_char].
  intros [Hc Hs]%andb_true_iff. rewrite negb_orb, IH by done.
  rewrite (proj2 (is_char_false newline_char c)); [done|]. by intros ->.
Qed.

Lemma graphic_no_cr s : all_chars graphic s = true -> drop_cr s = s.
Proof.
  intros H. unfold drop_cr. destruct (cut_suffix _ _) as [l|] eqn:E; [|done].
  apply cut_suffix_spec in E. rewrite E, all_chars_app, andb_comm in H. done.
Qed.

Lemma entry_line_graphic e : printable e -> all_chars graphic (entry_line e) = true.
Proof.
  intros [[v Ev] Hok]. unfold entry_line. destruct (entry_json e) as [x|] eqn:Ex; [|done].
  by apply Marshal_graphic, (entry_json_wf _ _ Hok Ex).
Qed.

Definition fits (e : JournalEntry) : bool := (String.length (entry_line e) <? max_line)%nat.

Lemma scan_entry fuel e text ending n :
  printable e ->
  scan_entries (S fuel) (mk_scanner (entry_line e +:+ String newline_char text) ending max_line None) n =
    if fits e
    then let? (entries, final) := scan_entries fuel (mk_scanner text ending max_line None) (n + 1) in
         Ok (reread e :: entries, final)
    else Ok ([], mk_scanner (String.substring 0 max_line (entry_line e +:+ String newline_char text))
                   ending max_line (Some (Some (Errorf "bufio.Scanner: token too long" [])))).
Proof.
  intros He. pose proof (entry_line_graphic e He) as Hg. cbn [scan_entries].
  rewrite Scan_line by by apply graphic_no_newline. unfold fits.
  destruct (_ <? _)%nat; [|done]. by rewrite graphic_no_cr, decode_entry_line.
Qed.

(** A file that begins with the lines of entries yields these first, unless a
    line is too long. *)
Lemma scan_journal es rest fuel ending n es' final :
  Forall printable es ->
  scan_entries fuel (mk_scanner (journal_text es +:+ rest) ending max_line None) n = Ok (es', final) ->
  (exists more, es' = map reread es ++ more) \/ is_Some (scanner_Err final).
Proof.
  intros Hes. revert fuel n es'. induction Hes as [|e es He Hes IH]; intros fuel n es' H;
    [left; by exists es'|].
  destruct fuel as [|fuel]; [done|]. unfold journal_text in H. cbn [map unlines] in H.
  rewrite str_app_assoc, str_cons_app, scan_entry in H by done. destruct (fits e).
  2: { injection H as <- <-. right. by eexists. }
  destruct (scan_entries fuel _ _) as [[entries f]|] eqn:E; [|done]. injection H as <- <-.
  destruct (IH _ _ _ E) as [[more ->]|Hf]; [|by right]. left. by exists more.
Qed.

(** The whole journal is read when every line fits. *)
Lemma scan_whole_journal es fuel n :
  Forall printable es -> forallb fits es = true -> (length es < fuel)%nat ->
  scan_entries fuel (mk_scanner (journal_text es) EndOfFile max_line None) n =
    Ok (map reread es, mk_scanner "" EndOfFile max_line (Some None)).
Proof.
  intros Hes. revert fuel n. induction Hes as [|e es He Hes IH]; intros [|fuel] n Hf Hl; cbn in Hl; try lia;
    [done|].
  cbn [forallb] in Hf. bool_prop. unfold journal_text. cbn [map unlines].
  rewrite scan_entry by done.
  destruct (fits e); [|done]. unfold journal_text in IH. by rewrite IH by (done || lia).
Qed.

(** ** The file under a journal *)

(** Every table has the file under its name, and its bytes begin with [text];
    [logged]: they are [text], and safe. *)
Definition named (d : disk) (k : key) (i : Z) : Prop :=
  forall t, t ∈ tables d -> exists m, inode_at t k = Some (i, mk_inode KFile m).
Definition holds (k : key) (i : Z) (text : string) (d : disk) : Prop :=
  named d k i /\ exists more rest, dk_contents d !! i = Some (mk_contents (text +:+ more) rest).
Definition logged (k : key) (i : Z) (text : string) (d : disk) : Prop :=
  named d k i /\ dk_contents d !! i = Some (mk_contents text "").

Lemma logged_holds k i text d : logged k i text d -> holds k i text d.
Proof. intros [H1 H2]. split; [done|]. exists ""%string, ""%string. by rewrite str_app_nil. Qed.

Lemma logged_faults k i text f s d : logged k i text d -> logged k i text (with_faults f s d).
Proof. done. Qed.

Lemma named_now d k i : named d k i -> exists m, inode_at (dk_table d) k = Some (i, mk_inode KFile m).
Proof. intros H. apply H. by left. Qed.

Lemma append_contents i data d safe recent :
  dk_contents d !! i = Some (mk_contents safe recent) ->
  dk_contents (append i data d) !! i = Some (mk_contents safe (recent +:+ data)).
Proof. intros H. unfold append. rewrite H. cbn. by rewrite lookup_insert_eq. Qed.

(** What the calls of [Append] do to it. *)
Lemma keeps_holds_Write k i text name data : keeps (holds k i text) (Write (mk_file i name) data).
Proof.
  assert (forall s d, holds k i text d -> holds k i text (append i s d)) as H.
  { intros s d (Hn & more & rest & Hc). split; [done|].
    rewrite (append_contents _ _ _ _ _ Hc). by eexists _, _. }
  apply keeps_syscall; [done|intros n d; apply H|intros d; apply H].
Qed.

Lemma keeps_holds_Sync k i text name : keeps (holds k i text) (Sync (mk_file i name)).
Proof.
  apply keeps_syscall; [done..|]. intros d (Hn & more & rest & Hc). split; [done|].
  exists (more +:+ rest)%string, ""%string. cbn. rewrite lookup_alter_eq, Hc. cbn. unfold ct_text. cbn.
  by rewrite str_app_assoc.
Qed.

Lemma keeps_holds_Append k i text j e key :
  fl_inode (jn_file j) = i -> keeps (holds k i text) (Append j e key).
Proof.
  intros <-. destruct (jn_file j) as [i name] eqn:Ej. unfold Append. rewrite Ej.
  apply keeps_bind; [apply keeps_of_result|]. intros [e' line].
  apply keeps_bind; [apply keeps_wrap_error, keeps_holds_Write|]. intros _.
  apply keeps_bind; [apply keeps_wrap_error, keeps_holds_Sync|]. intros _. apply keeps_ret.
Qed.

Lemma Write_logged k i text name data d d' u :
  logged k i text d -> Write (mk_file i name) data d = (d', Ok u) ->
  named d' k i /\ dk_contents d' !! i = Some (mk_contents text data).
Proof.
  intros [Hn Hc] [f H]%syscall_ok. injection H as <-. split; [done|].
  by rewrite (append_contents _ _ _ text "").
Qed.

Lemma Sync_logged k i name d d' u safe recent :
  named d k i -> dk_contents d !! i = Some (mk_contents safe recent) ->
  Sync (mk_file i name) d = (d', Ok u) -> logged k i (safe +:+ recent) d'.
Proof.
  intros Hn Hc [f H]%syscall_ok. injection H as <-. split; [done|].
  cbn. by rewrite lookup_alter_eq, Hc.
Qed.

(** The entry that is written in place of the one that was given. *)
Definition signed (e : JournalEntry) (key : private_key) (e' : JournalEntry) : Prop :=
  exists signature, Sign (keccak256 (string_bytes (Marshal (entryData e)))) key = Ok signature /\
    e' = with_signature ("0x" +:+ hex_encode signature) e.

Lemma sign_entry_ok e key e' line :
  sign_entry e key = Ok (e', line) ->
  signed e key e' /\ (exists v, time_json (je_Timestamp e') = Ok v) /\
  line = (entry_line e' +:+ str1 newline_char)%string.
Proof.
  unfold sign_entry. intros H. go_inv H. apply wrapf_ok in Hc, Hc0. injection H as <- <-.
  split_and!; [by eexists| |unfold entry_line; by rewrite Hc0].
  rewrite entry_json_ok in Hc0. destruct (time_json _) as [v|]; [by exists v|done].
Qed.

Lemma Append_ok k i text j e key d d' j' :
  fl_inode (jn_file j) = i -> logged k i text d -> Append j e key d = (d', Ok j') ->
  exists e', signed e key e' /\ (exists v, time_json (je_Timestamp e') = Ok v) /\
    logged k i (text +:+ entry_line e' +:+ str1 newline_char) d' /\
    j' = mk_Journal (jn_path j) (jn_file j) (jn_entries j ++ [e']).
Proof.
  intros <- Hd H. unfold Append in H. apply bind_run_ok in H as (d1 & [e' line] & Hs & H).
  injection Hs as <- Hs. apply sign_entry_ok in Hs as (Hs & Ht & ->).
  apply bind_run_ok in H as (d2 & [] & Hw%wrap_error_ok & H).
  apply bind_run_ok in H as (d3 & [] & Hy%wrap_error_ok & H). injection H as <- <-.
  destruct (jn_file j) as [i name]. apply (Write_logged k i text) in Hw as [Hn Hc]; [|done].
  exists e'. split_and!; [done..| |done]. by eapply Sync_logged.
Qed.

(** Reopening when nothing fails. *)
Lemma OpenJournal_live path k i d m c :
  live d -> path_key path = k -> inode_at (dk_table d) k = Some (i, mk_inode KFile m) ->
  dk_contents d !! i = Some c ->
  OpenJournal path d =
    (d, let? es := read_entries (ct_text c) None in Ok (mk_Journal path (mk_file i path) es)).
Proof.
  intros Hd Hk Hi Hc. unfold OpenJournal. rewrite bind_run. unfold attempt at 1, Open.
  rewrite syscall_live by done. rewrite Hk, Hi, !bind_run. unfold ReadAll.
  pose proof Hd as [Hf Hs]. rewrite Hs, Hf. cbn [fl_inode fl_name]. rewrite Hc.
  assert (tb_inodes (dk_table d) !! i = Some (mk_inode KFile m)) as ->
    by by apply inode_at_Some in Hi as [_ ?].
  change (IsRegular (mk_inode KFile m)) with true. cbv iota. cbn [default fmap option_fmap option_map].
  unfold attempt, of_result. rewrite !bind_run. unfold Close. rewrite syscall_live by done.
  destruct (read_entries (ct_text c) None) as [es|e] eqn:E; cbn; rewrite E; [|done].
  rewrite bind_run. unfold wrap_error, OpenAppend. rewrite syscall_live by done. by rewrite Hk, Hi.
Qed.

End JournalSpec.


Section JournalProps.
Context {TM : Times} {TL : TimesLaws} {SG : Signing} {GE : Geth}.

(** A session that appends entries until one fails. *)
Definition append_all (batch : list (JournalEntry * private_key)) (j : Journal) : prog disk Journal :=
  foldP (fun j '(e, key) => Append j e key) batch j.

Definition written_for (request : JournalEntry * private_key) (e' : JournalEntry) : Prop :=
  signed request.1 request.2 e'.

Lemma journal_text_app es es' : journal_text (es ++ es') = (journal_text es +:+ journal_text es')%string.
Proof. unfold journal_text. by rewrite map_app, unlines_app. Qed.

Lemma signed_printable e key e' v :
  entry_ok e -> signed e key e' -> time_json (je_Timestamp e') = Ok v -> printable e'.
Proof.
  intros [Hb Hn Ht] (signature & _ & ->) Hv. split; [by exists v|]. split; [done|done|].
  decompose_Forall_hyps. repeat apply list.Forall_cons_2; try done. apply hex_text_valid.
Qed.

Lemma append_all_ok k i text batch j d d' j' :
  fl_inode (jn_file j) = i -> logged k i text d -> Forall (fun r => entry_ok r.1) batch ->
  append_all batch j d = (d', Ok j') ->
  exists acknowledged, Forall2 written_for batch acknowledged /\ Forall printable acknowledged /\
    logged k i (text +:+ journal_text acknowledged) d' /\ jn_file j' = jn_file j /\
    jn_entries j' = jn_entries j ++ acknowledged.
Proof.
  revert text j d. induction batch as [|[e key] batch IH]; intros text j d Hi Hd Hok H.
  { injection H as <- <-. exists []. unfold journal_text. cbn. by rewrite str_app_nil, app_nil_r. }
  apply list.Forall_cons in Hok as [Hok1 Hok]. cbn [append_all foldP] in H.
  apply bind_run_ok in H as (d1 & j1 & H1 & H).
  destruct (Append_ok _ _ _ _ _ _ _ _ _ Hi Hd H1) as (e' & Hs & [v Hv] & Hd1 & ->).
  eapply IH in H as (acks & Hacks & Hp & Hl & Hf & He); [|exact Hi|exact Hd1|exact Hok].
  exists (e' :: acks). split_and!.
  - by constructor.
  - constructor; [by eapply signed_printable|done].
  - unfold journal_text in *. cbn [map unlines]. by rewrite !str_app_assoc in Hl.
  - done.
  - rewrite He. cbn. by rewrite <- app_assoc.
Qed.

(** What is found under the name after a loss of power. *)
Lemma found_after k i text d found :
  holds k i text d -> after d found ->
  exists m c rest, inode_at (dk_table found) k = Some (i, mk_inode KFile m) /\
    dk_contents found !! i = Some c /\ ct_text c = (text +:+ rest)%string.
Proof.
  intros (Hn & more & recent & Hc) [Ht Ha]. destruct (Hn _ Ht) as [m Hm].
  destruct (Ha _ _ Hc) as (c & Hc' & [->|[_ [rest Hr]]]).
  - exists m, (mk_contents (text +:+ more) recent), (more +:+ recent)%string.
    split_and!; [done..|]. unfold ct_text. cbn [ct_safe ct_recent]. by apply str_app_assoc.
  - exists m, c, (more +:+ rest)%string. split_and!; [done..|]. rewrite Hr. by apply str_app_assoc.
Qed.

Lemma logged_after k i text d found :
  logged k i text d -> after d found ->
  exists m, inode_at (dk_table found) k = Some (i, mk_inode KFile m) /\
    dk_contents found !! i = Some (mk_contents text "").
Proof.
  intros [Hn Hc] [Ht Ha]. destruct (Hn _ Ht) as [m Hm]. exists m. split; [done|].
  destruct (Ha _ _ Hc) as (c & Hc' & H). by apply remains_synced in H as ->.
Qed.

Lemma OpenJournal_logged k i text path d d' j :
  path_key path = k -> logged k i text d -> OpenJournal path d = (d', Ok j) ->
  jn_file j = mk_file i path /\ logged k i text d'.
Proof.
  intros Hk Hd H. set (P := logged k i text) in *.
  assert (forall d f s, P d -> P (with_faults f s d)) as HP by by intros.
  assert (forall A op p (f : disk -> disk * result A), (forall d, (f d).1 = d) ->
    keeps P (syscall op p nothing f)) as Hsame.
  { intros A op p f Hf. apply keeps_syscall; [done..|]. intros d2. by rewrite Hf. }
  assert (keeps P (opened ← attempt (Open path);
    match opened with
    | Ok file =>
        '(text, stop) ← ReadAll file;
        outcome ← attempt (of_result (read_entries text stop));
        attempt (Close file) ;;
        of_result outcome
    | Err _ => mret []
    end)) as Hread.
  { apply keeps_bind; [apply keeps_attempt, Hsame; intros d2; by repeat case_match|].
    intros [f|]; [|apply keeps_ret]. apply keeps_bind.
    - intros d2 H2. unfold ReadAll. by repeat case_match.
    - intros [s stop]. apply keeps_bind; [apply keeps_attempt, keeps_of_result|]. intros r.
      apply keeps_bind; [apply keeps_attempt, Hsame; by intros d2|]. intros _. apply keeps_of_result. }
  unfold OpenJournal in H. rewrite <- bind_assoc in H.
  apply bind_run_ok in H as (d1 & es & H1 & H). specialize (Hread d Hd). rewrite H1 in Hread.
  apply bind_run_ok in H as (d2 & f & H2%wrap_error_ok & H). injection H as <- <-.
  apply syscall_ok in H2 as [F H2]. cbn zeta in H2. cbn [dk_table with_faults] in H2. rewrite Hk in H2.
  destruct Hread as [Hn Hc]. cbn [fst] in Hn, Hc. destruct (named_now _ _ _ Hn) as [m Hm]. rewrite Hm in H2.
  injection H2 as <- <-. done.
Qed.

Lemma read_journal es rest es' :
  Forall printable es -> read_entries (journal_text es +:+ rest) None = Ok es' ->
  exists more, es' = map reread es ++ more.
Proof.
  intros Hp H. unfold read_entries in H. cbv zeta in H. destruct (scan_entries _ _ _) as [[l f]|] eqn:E; [|done].
  destruct (scanner_Err f) eqn:Ef; [done|]. injection H as <-.
  apply scan_journal in E as [?|[e He]]; [done| |done]. congruence.
Qed.

Lemma journal_length es : (length es <= String.length (journal_text es))%nat.
Proof.
  unfold journal_text. induction es as [|e es IH]; [done|]. cbn [map unlines length].
  rewrite length_app_string. cbn [String.length]. lia.
Qed.

Lemma read_whole_journal es :
  Forall printable es -> forallb fits es = true ->
  read_entries (journal_text es) None = Ok (map reread es).
Proof.
  intros Hp Hf. unfold read_entries, NewScanner. cbv zeta.
  rewrite scan_whole_journal; [done..|]. pose proof (journal_length es). lia.
Qed.

(** ** What a signature covers *)

Definition unless_positive (z : Z) : option json := if 0 <? z then Some (JInt z) else None.

Definition signed_members (e : JournalEntry) : list (string * option json) :=
  [("timestamp"%string, Some (JInt (Unix (je_Timestamp e))));
   ("batchIndex"%string, Some (JInt (je_BatchIndex e)));
   ("callData"%string, Some (JString (je_CallData e)));
   ("gasEstimate"%string, Some (JInt (je_GasEstimate e)));
   ("gasPrice"%string, Some (JInt (je_GasPrice e)));
   ("status"%string, Some (JString (je_Status e)));
   ("txHash"%string, unless_empty (je_TxHash e));
   ("blockNumber"%string, unless_positive (je_BlockNumber e));
   ("gasUsed"%string, unless_positive (je_GasUsed e));
   ("error"%string, unless_empty (je_Error e))].

Definition signed_names : list string :=
  ["timestamp"; "batchIndex"; "callData"; "gasEstimate"; "gasPrice"; "status"; "txHash";
   "blockNumber"; "gasUsed"; "error"]%string.

Lemma entryData_members e : entryData e = JObject (sorted_members (members_of (signed_members e))).
Proof.
  unfold entryData, text_unless_empty, positive_member, signed_members, unless_empty, unless_positive.
  do 2 f_equal. by repeat case_match.
Qed.

Lemma signed_members_flat e :
  entry_ok e -> Forall (member_ok 0) (signed_members e).
Proof.
  intros [Hb Hn Ht]. decompose_Forall_hyps.
  assert (forall k z, valid_utf8 k = true -> member_ok 0 (k, Some (JInt z))) as Hz.
  { intros k z Hk. split; [done|]. split; [apply json_ok_JInt|cbn; lia]. }
  assert (forall k z, valid_utf8 k = true -> member_ok 0 (k, unless_positive z)) as Hu.
  { intros k z Hk. unfold unless_positive. case_match; [by apply Hz|by split]. }
  unfold signed_members. repeat apply list.Forall_cons_2; try apply list.Forall_nil_2;
    first [ by apply Hz | by apply Hu | by apply unless_empty_ok
          | split; [done|]; cbn [snd]; split; [done|cbn [nesting]; lia] ].
Qed.

Lemma entryData_wf e :
  entry_ok e -> json_ok (entryData e) = true /\ (nesting (entryData e) <= max_depth)%nat.
Proof.
  intros He. rewrite entryData_members. pose proof (signed_members_flat e He) as Hm.
  rewrite list.Forall_forall in Hm.
  assert (forall k x, (k, x) ∈ sorted_members (members_of (signed_members e)) ->
    valid_utf8 k = true /\ json_ok x = true /\ nesting x = 0%nat) as H.
  { intros k x Hin%elem_of_sorted_members%elem_of_members. destruct (Hm _ Hin) as [Hk [Hx Hn]].
    split_and!; [done..|lia]. }
  split.
  - apply json_ok_object. intros k x Hin. by apply H in Hin as (? & ? & _).
  - transitivity 1%nat; [|unfold max_depth; lia]. apply flat_object. intros k x Hin. by apply (H k).
Qed.

(** The operation that an entry describes. *)
Definition operation (e : JournalEntry) :=
  (Unix (je_Timestamp e), je_BatchIndex e, je_CallData e, je_GasEstimate e, je_GasPrice e,
   je_TxHash e, je_Status e, je_BlockNumber e, je_GasUsed e, je_Error e).

Definition entry_hash (e : JournalEntry) : bytes := keccak256 (string_bytes (Marshal (entryData e))).

Lemma unless_empty_inj a b : unless_empty a = unless_empty b -> a = b.
Proof. unfold unless_empty. repeat case_decide; naive_solver. Qed.

Lemma unless_positive_inj a b :
  0 <= a < 2 ^ 64 -> 0 <= b < 2 ^ 64 -> unless_positive a = unless_positive b -> a = b.
Proof.
  unfold unless_positive. intros Ha Hb.
  destruct (Z.ltb_spec 0 a), (Z.ltb_spec 0 b); intros E; try done; [|lia].
  injection E as E. apply JInt_inj_unsigned; [done..|]. unfold JInt. by f_equal.
Qed.

Ltac pick := repeat first [apply list_elem_of_here | apply list_elem_of_further].

Lemma entryData_operation e1 e2 :
  entry_ok e1 -> entry_ok e2 -> Marshal (entryData e1) = Marshal (entryData e2) ->
  operation e1 = operation e2.
Proof.
  intros H1 H2 E. destruct (entryData_wf _ H1) as [Hj1 Hn1], (entryData_wf _ H2) as [Hj2 Hn2].
  pose proof (Unmarshal_Marshal _ Hj1 Hn1) as U. rewrite E, Unmarshal_Marshal in U by done.
  rewrite !entryData_members in U.
  assert (sorted_members (members_of (signed_members e2)) =
    sorted_members (members_of (signed_members e1))) as Us by congruence.
  clear U.
  assert (forall m, m ∈ members_of (signed_members e1) <-> m ∈ members_of (signed_members e2)) as Hs.
  { intros m. by rewrite <- (elem_of_sorted_members m (members_of (signed_members e1))),
      <- Us, elem_of_sorted_members. }
  assert (forall e, NoDup (map fst (signed_members e))) as Hd.
  { intros e. exact (proj1 (bool_decide_eq_true _) (eq_refl : bool_decide (NoDup signed_names) = true)). }
  assert (forall k o1 o2, (k, o1) ∈ signed_members e1 -> (k, o2) ∈ signed_members e2 -> o1 = o2) as Hk.
  { intros k o1 o2. by apply same_members. }
  clear Hj1 Hn1 Hj2 Hn2 E Us Hs Hd.
  destruct H1 as [Hb1 Hz1 _], H2 as [Hb2 Hz2 _]. decompose_Forall_hyps.
  pose proof (Unix_range (je_Timestamp e1)). pose proof (Unix_range (je_Timestamp e2)).
  unfold operation, signed_members in *.
  assert (forall a b : json, Some a = Some b -> a = b) as Hsome by congruence.
  assert (forall a b, JString a = JString b -> a = b) as Hstr by congruence.
  f_equal; [f_equal; [f_equal; [f_equal; [f_equal; [f_equal; [f_equal; [f_equal; [f_equal|]|]|]|]|]|]|]|].
  - apply JInt_inj; [done..|]. apply Hsome. eapply (Hk "timestamp"%string); pick.
  - apply JInt_inj; [done..|]. apply Hsome. eapply (Hk "batchIndex"%string); pick.
  - apply Hstr, Hsome. eapply (Hk "callData"%string); pick.
  - apply JInt_inj_unsigned; [done..|]. apply Hsome. eapply (Hk "gasEstimate"%string); pick.
  - apply JInt_inj_unsigned; [done..|]. apply Hsome. eapply (Hk "gasPrice"%string); pick.
  - apply unless_empty_inj. eapply (Hk "txHash"%string); pick.
  - apply Hstr, Hsome. eapply (Hk "status"%string); pick.
  - apply unless_positive_inj; [done..|]. eapply (Hk "blockNumber"%string); pick.
  - apply unless_positive_inj; [done..|]. eapply (Hk "gasUsed"%string); pick.
  - apply unless_empty_inj. eapply (Hk "error"%string); pick.
Qed.

(** C30: the signature covers the whole operation.  For entries whose numbers are
    in the range of their Go types and whose texts are UTF-8: entries with the
    same signed text describe the same operation; and whoever reads the line
    that [Append] writes with the decoder of [OpenJournal] gets an entry with
    this operation and the signature, which is one of the hash that the entry
    read has. *)
Theorem signature_covers_operation e1 e2 :
  entry_ok e1 -> entry_ok e2 ->
  (Marshal (entryData e1) = Marshal (entryData e2) -> operation e1 = operation e2) /\
  (forall key written line, sign_entry e1 key = Ok (written, line) ->
     exists text signature found, line = (text +:+ str1 newline_char)%string /\
       decode_entry text = Ok found /\ operation found = operation e1 /\
       je_Signature found = ("0x" +:+ hex_encode signature)%string /\
       Sign (entry_hash found) key = Ok signature).
Proof.
  intros H1 H2. split; [by apply entryData_operation|]. intros key written line Hs.
  apply sign_entry_ok in Hs as (Hsigned & [v Hv] & ->).
  pose proof (signed_printable _ _ _ _ H1 Hsigned Hv) as Hp.
  destruct Hsigned as (signature & Hsig & ->). eexists _, signature, _.
  split; [reflexivity|]. split; [by apply decode_entry_line|].
  unfold operation, entry_hash. cbn [reread with_signature je_Timestamp]. rewrite wall_Unix.
  split; [done|]. split; [done|]. rewrite !entryData_members.
  assert (signed_members (reread (with_signature ("0x" +:+ hex_encode signature) e1)) =
          signed_members e1) as ->.
  { unfold signed_members. cbn [reread with_signature je_Timestamp]. by rewrite wall_Unix. }
  by rewrite <- entryData_members.
Qed.

(** C29: an entry that [Append] acknowledged stays in the journal.  Let a journal
    be opened whose file is durable and holds exactly the lines of earlier
    entries, and let appends be acknowledged.  Whatever a last append runs into
    and whatever a loss of power then leaves of the disk, if the journal can be
    opened again it begins with the earlier entries and all the acknowledged
    ones, each signed as it was appended; and it can be opened, and holds nothing
    else, when no append was broken off and every line is shorter than 64 KiB. *)
Theorem acknowledged_entries_survive path k i es0 batch d0 d1 j1 d found :
  path_key path = k -> logged k i (journal_text es0) d0 -> Forall printable es0 ->
  Forall (fun r => entry_ok r.1) batch ->
  (j ← OpenJournal path; append_all batch j) d0 = (d1, Ok j1) ->
  d = d1 \/ (exists e key r, Append j1 e key d1 = (d, r)) ->
  after d found -> live found ->
  exists acknowledged, Forall2 written_for batch acknowledged /\
    let kept := map reread (es0 ++ acknowledged) in
    (forall found' j, OpenJournal path found = (found', Ok j) ->
       exists rest, jn_entries j = kept ++ rest) /\
    (d = d1 -> forallb fits (es0 ++ acknowledged) = true ->
       exists j, OpenJournal path found = (found, Ok j) /\ jn_entries j = kept).
Proof.
  intros Hk Hd0 Hes0 Hbatch Hrun Hd Ha Hl.
  apply bind_run_ok in Hrun as (d' & j0 & Hopen & Hrun).
  destruct (OpenJournal_logged _ _ _ _ _ _ _ Hk Hd0 Hopen) as [Hfile Hd'].
  destruct (append_all_ok k i _ _ _ _ _ _ ltac:(by rewrite Hfile) Hd' Hbatch Hrun)
    as (acks & Hacks & Hp & Hd1 & Hfile1 & _).
  rewrite <- journal_text_app in Hd1. exists acks. split; [done|]. intros kept.
  assert (Forall printable (es0 ++ acks)) as Hall by by apply list.Forall_app_2.
  split.
  - intros found' j Hj.
    assert (holds k i (journal_text (es0 ++ acks)) d) as Hh.
    { apply logged_holds in Hd1. destruct Hd as [->|(e & key & r & He)]; [done|].
      pose proof (keeps_holds_Append k i (journal_text (es0 ++ acks)) j1 e key) as Hkeep.
      rewrite Hfile1, Hfile in Hkeep. specialize (Hkeep eq_refl _ Hd1). by rewrite He in Hkeep. }
    destruct (found_after _ _ _ _ _ Hh Ha) as (m & c & rest & Hi & Hc & Ht).
    rewrite (OpenJournal_live _ _ _ _ _ _ Hl Hk Hi Hc), Ht in Hj.
    destruct (read_entries _ _) as [es|] eqn:E; [|done]. injection Hj as <- <-.
    by apply read_journal in E.
  - intros -> Hf. destruct (logged_after _ _ _ _ _ Hd1 Ha) as (m & Hi & Hc).
    rewrite (OpenJournal_live _ _ _ _ _ _ Hl Hk Hi Hc). unfold ct_text, mk_contents. cbn [ct_safe ct_recent].
    rewrite str_app_nil, read_whole_journal by done. by eexists.
Qed.
End JournalProps.

(** ** A session *)

Module Session.
Import SampleGeth.

#[local] Instance clock_times : Times := {
  time := Z;
  zero_time := 0;
  Unix t := i64 t;
  time_json t := if (- 2 ^ 63 <=? t) && (t <? 2 ^ 63) then Ok (JInt t)
                 else errf "year outside of range [0,9999]" [];
  time_of_json v old := decode_int64 v old }.

#[local] Instance clock_laws : TimesLaws.
Proof.
  unshelve econstructor; [exact (fun t => t)|..].
  - intros t. unfold Unix, clock_times, i64. pose proof (Z.mod_pos_bound (t + 2 ^ 63) (2 ^ 64)). lia.
  - done.
  - intros t v. cbn [time_json clock_times]. destruct (_ && _); [|done]. intros [= <-].
    split; [apply json_ok_JInt|cbn; lia].
  - intros t v old. cbn [time_json time_of_json clock_times]. destruct (_ && _) eqn:E; [|done].
    intros [= <-]. bool_prop. apply decode_int64_JInt. lia.
Defined.

#[local] Instance hash_signing : Signing := { private_key := unit; Sign h _ := Ok h }.

Definition journal_path : string := "/journal".

(** A root directory with an empty journal. *)
Definition fresh (faults : list fault) : disk :=
  mk_disk
    (mk_table {[ (true, []) := 0; (true, ["journal"%string]) := 1 ]}
       {[ 0 := mk_inode KDirectory mode_0700; 1 := mk_inode KFile mode_0600 ]})
    [] {[ 0 := mk_contents "" ""; 1 := mk_contents "" "" ]} 2 0 [] faults false.

Definition entry (batch : Z) : JournalEntry :=
  mk_JournalEntry 1700000000 batch "0x00" 21000 160000000 "" StatusPrepared 0 0 "" "".

Lemma entry_fine batch : - 2 ^ 63 <= batch < 2 ^ 63 -> entry_ok (entry batch).
Proof. intros H. split; [done| |]; repeat apply list.Forall_cons_2; try apply list.Forall_nil_2; (done || cbn; lia). Qed.

Lemma fresh_logged faults : logged (true, ["journal"%string]) 1 (journal_text []) (fresh faults).
Proof.
  split; [|by vm_compute]. intros t [->|H]%elem_of_cons; [|by apply elem_of_nil in H].
  exists mode_0600. by vm_compute.
Qed.

Definition requests : list (JournalEntry * private_key) := [(entry 0, tt); (entry 1, tt)].

Definition first_run : disk * result Journal :=
  (j ← OpenJournal journal_path; append_all requests j) (fresh []).

Lemma acknowledged_entries_survive_witness :
  exists d1 j1, first_run = (d1, Ok j1) /\
  exists acknowledged, Forall2 written_for requests acknowledged /\
    (forall found' j, OpenJournal journal_path d1 = (found', Ok j) ->
       exists rest, jn_entries j = map reread acknowledged ++ rest) /\
    (d1 = d1 -> forallb fits acknowledged = true ->
       exists j, OpenJournal journal_path d1 = (d1, Ok j) /\ jn_entries j = map reread acknowledged).
Proof.
  assert (is_ok first_run.2 && bool_decide (length (dk_faults first_run.1) = 0%nat) &&
    negb (dk_stopped first_run.1) = true) as Hrun by (vm_compute; reflexivity).
  destruct first_run as [d1 [j1|]] eqn:E; [|discriminate].
  assert (live d1) as Hl.
  { cbn [fst snd is_ok] in Hrun. bool_prop. split; [by apply nil_length_inv|done]. }
  exists d1, j1. split; [reflexivity|].
  apply (acknowledged_entries_survive journal_path (true, ["journal"%string]) 1 [] requests
    (fresh []) d1 j1 d1 d1).
  - vm_compute; reflexivity.
  - apply fresh_logged.
  - constructor.
  - apply list.Forall_cons_2; [apply entry_fine; lia|].
    apply list.Forall_cons_2; [apply entry_fine; lia|apply list.Forall_nil_2].
  - exact E.
  - by left.
  - apply after_refl.
  - exact Hl.
Defined.

Definition first_line : result (JournalEntry * string) := sign_entry (entry 0) tt.

Lemma signature_covers_operation_witness :
  exists written line, first_line = Ok (written, line) /\
  (Marshal (entryData (entry 0)) = Marshal (entryData (entry 1)) ->
   operation (entry 0) = operation (entry 1)) /\
  exists text signature found, line = (text +:+ str1 newline_char)%string /\
    decode_entry text = Ok found /\ operation found = operation (entry 0) /\
    je_Signature found = ("0x" +:+ hex_encode signature)%string /\
    Sign (entry_hash found) tt = Ok signature.
Proof.
  destruct (signature_covers_operation (entry 0) (entry 1)) as [Hop Hline];
    [apply entry_fine; lia..|].
  assert (is_ok first_line = true) as Hs by (vm_compute; reflexivity).
  destruct first_line as [[written line]|] eqn:E; [|discriminate].
  exists written, line. split; [reflexivity|]. split; [exact Hop|]. exact (Hline _ _ _ E).
Defined.

(** A new process: nothing fails any more. *)
Definition restarted (d : disk) : disk := with_faults [] false d.

(** The process ends in the middle of the second append, when all of the line but
    its line feed is written.  The next process opens the journal and appends;
    the one after that cannot open it. *)
Definition second_line : nat :=
  match sign_entry (entry 1) tt with Ok (_, line) => String.length line | Err _ => 0%nat end.

Definition cut_short : disk :=
  ((j ← OpenJournal journal_path; append_all requests j)
     (fresh [Works; Works; Works; Works; Works; Works; Stops (second_line - 1)])).1.

Definition second_run : disk * result Journal :=
  (j ← OpenJournal journal_path; Append j (entry 2) tt) (restarted cut_short).

Definition third_run : result Journal := (OpenJournal journal_path (restarted second_run.1)).2.

(** A torn last line is a trap: after a write that lost only its line feed the
    journal opens and [Append] acknowledges another entry, but both entries are
    then on one line, and the journal with the acknowledged entry can never be
    opened again. *)
Theorem torn_line_spoils_journal :
  (exists j, second_run.2 = Ok j /\ map je_BatchIndex (jn_entries j) = [0; 1; 2]) /\
  exists e, third_run = Err (Wrapf "parse journal line %d: %w" [GInt 2] e).
Proof.
  split.
  - assert (match second_run.2 with
            | Ok j => map je_BatchIndex (jn_entries j) = [0; 1; 2] | Err _ => False end) as H
      by (vm_compute; reflexivity).
    destruct second_run.2 as [j|]; [by exists j|done].
  - assert (match third_run with
            | Err (Wrapf f a e) => (f, a) = ("parse journal line %d: %w"%string, [GInt 2])
            | _ => False end) as H by (vm_compute; reflexivity).
    destruct third_run as [|[|f a e| |]]; try done. injection H as -> ->. by exists e.
Qed.
End Session.
