(* ===== verification/Keystore.v ===== *)
(** * Keystore: [internal/chain/evm_keystore.go]

    The signer over encrypted key files.  The keystore, the curve and the
    transactions of go-ethereum are the class [Keys]: its calls that work on
    the disk are programs over it.  Besides the disk there is the terminal. *)
From Stdlib Require Import ZArith Lia Ascii String.
From stdpp Require Import base list gmap strings option.
From S2P Require Import Prelude GoText Prog I18n Json Geth Paths FileSystem FileProtection EvmAddress EvmRpc EvmTx Config.

Local Open Scope Z_scope.

(** ** The outside *)

(** [os.Getwd] *)
Class WorkingDirectory := { Getwd : result string }.

(** [types.LegacyTx] *)
Record LegacyTx := mk_LegacyTx {
  lt_Nonce : Z; lt_To : option bytes; lt_Value : Z; lt_Gas : Z; lt_GasPrice : Z; lt_Data : bytes }.

Class Keys := {
  ecdsa_key : Type;
  HexToECDSA : string -> result ecdsa_key;                         (* crypto.HexToECDSA *)
  PubkeyToAddress : ecdsa_key -> bytes;                            (* of its public key *)
  NewAccount : string -> string -> prog disk string;               (* the path of the file *)
  ImportECDSA : string -> ecdsa_key -> string -> prog disk string;
  DecryptKey : string -> string -> result (option ecdsa_key);      (* key.PrivateKey *)
  signed_tx : Type;
  SignTx : LegacyTx -> Z -> ecdsa_key -> result signed_tx;         (* LatestSignerForChainID *)
  MarshalBinary : signed_tx -> result bytes }.

(** What the next use of the controlling terminal meets. *)
Inductive prompt : Type :=
| NoTerminal (e : goerror)
| NotATerminal
| PromptFails (e : goerror)
| ReadFails (e : goerror)
| Typed_in (text : string).

Record machine := mk_machine { mc_disk : disk; mc_terminal : list prompt }.

Definition on_disk {A} (c : prog disk A) : prog machine A := fun m =>
  let '(d, r) := c (mc_disk m) in (mk_machine d (mc_terminal m), r).

Definition next_prompt : prog machine prompt := fun m =>
  match mc_terminal m with
  | p :: rest => (mk_machine (mc_disk m) rest, Ok p)
  | [] => (m, Ok (NoTerminal (Errorf "open /dev/tty: no such device or address" [])))
  end.

(** ** Paths *)

Definition IsAbs (path : string) : bool := HasPrefix path "/".

Section Keystore.
Context {EN : Environment} {UC : UnicodeCase} {WD : WorkingDirectory} {GE : Geth} {KS : Keys}.

(** [filepath.Abs] *)
Definition filepath_Abs (path : string) : result string :=
  if IsAbs path then Ok (Clean path)
  else let? wd := Getwd in Ok (filepath_Join wd path).

Definition evmKeyIndexFile : string := "index.json".

(** [EVMKeystoreSigner] *)
Variable cfg : Config.

Definition keyDir : result string :=
  let value := TrimSpace (cf_EVMKeystoreDir cfg) in
  let? dir := if decide (value = ""%string) then Config.Dir else Ok (Clean value) in
  let? dir := filepath_Abs dir in
  let dir := if decide (value = ""%string) then filepath_Join dir "keystore" else dir in
  Ok (Clean dir).

Definition indexPath : result string :=
  let? dir := keyDir in Ok (filepath_Join dir evmKeyIndexFile).

(** ** The index *)

(** [json.Unmarshal] into a [map[string]string] that is [nil]. *)
Definition decode_index (text : string) : result (option (gmap string string)) :=
  let? v := Unmarshal text in
  match v with
  | JNull => Ok None
  | JObject members =>
      let? index := foldM (fun index '(name, x) =>
        let? path := decode_string x "" in Ok (<[name := path]> index)) members ∅ in
      Ok (Some index)
  | _ => type_error
  end.

Definition readEVMKeyIndex (path : string) : prog disk (gmap string string) :=
  found ← attempt (Lstat path);
  match found with
  | Err e => if IsNotExist e then mret ∅ else fail e
  | Ok _ =>
      wrap_error "protect EVM keystore index before read: %w" [] (ProtectFile path) ;;
      data ← ReadFile path;
      index ← of_result (wrapf "parse EVM keystore index: %w" [] (decode_index data));
      mret (default ∅ index)
  end.

Definition index_json (index : gmap string string) : json :=
  JObject (sorted_members (map (fun '(name, path) => text_member name path) (map_to_list index))).

Definition writeEVMKeyIndex (path : string) (index : gmap string string) : prog disk unit :=
  WriteFile path (MarshalIndent (index_json index)).

Definition validEVMKeyName (name : string) : bool :=
  negb (bool_decide (TrimSpace name = ""%string) || bool_decide (name = "."%string) ||
        bool_decide (name = ".."%string)) &&
  negb (some_char (fun c => is_char "/" c || is_char backslash c || is_char ":" c) name).

(** ** Secrets *)

(** A terminal that is opened, and the prompt and answer on it. *)
Definition keyPassword (p : prompt) : result string :=
  let password := Getenv "IGIT_EVM_KEY_PASSWORD" in
  if decide (password <> ""%string) then Ok password
  else match p with
       | NoTerminal _ | NotATerminal =>
           errf "EVM keystore password is required; set IGIT_EVM_KEY_PASSWORD only for non-interactive automation" []
       | PromptFails e => Err e
       | ReadFails e => Err (Wrapf "read EVM keystore password: %w" [] e)
       | Typed_in text =>
           fail_if bool_decide (text = ""%string)
             as Errorf "EVM keystore password cannot be empty" [] ;;
           Ok text
       end.

Definition readEVMKeystorePassword : prog machine string :=
  let password := Getenv "IGIT_EVM_KEY_PASSWORD" in
  if decide (password <> ""%string) then mret password
  else
    p ← next_prompt;
    match p with
    | NoTerminal e =>
        fail (Wrapf "EVM keystore password is required; %w" []
                (Wrapf "open controlling terminal: %w" [] e))
    | _ => of_result (keyPassword p)
    end.

Definition readEVMPrivateKey : prog machine string :=
  p ← next_prompt;
  of_result (match p with
  | NoTerminal e =>
      Err (Wrapf "open terminal for private key import: %w" []
             (Wrapf "open controlling terminal: %w" [] e))
  | NotATerminal => errf "private key import requires an interactive terminal" []
  | PromptFails e => Err e
  | ReadFails e => Err (Wrapf "read EVM private key: %w" [] e)
  | Typed_in text => Ok text
  end).

(** ** Creating keys *)

Definition confirmed_password : prog machine string :=
  password ← readEVMKeystorePassword;
  (if decide (Getenv "IGIT_EVM_KEY_PASSWORD" = ""%string) then
     confirm ← readEVMKeystorePassword;
     if bool_decide (password = confirm) then mret tt
     else fail (Errorf "EVM keystore passwords do not match" [])
   else mret tt) ;;
  mret password.

(** What [CreateKey] and [importKey] share: [store] encrypts the key. *)
Definition store_key (name failure : string) (store : string -> string -> prog disk string)
  : prog machine unit :=
  dir ← of_result keyDir;
  on_disk (wrap_error "create EVM keystore directory: %w" [] (MkdirAll dir mode_0700)) ;;
  on_disk (wrap_error "protect EVM keystore directory: %w" [] (ProtectDirectory dir)) ;;
  indexPath ← of_result indexPath;
  index ← on_disk (readEVMKeyIndex indexPath);
  match index !! name with
  | Some _ => fail (Errorf "EVM key %q already exists" [GStr name])
  | None =>
      password ← confirmed_password;
      path ← on_disk (wrap_error failure [] (store dir password));
      protected ← attempt (on_disk (ProtectFile path));
      match protected with
      | Err e =>
          attempt (on_disk (Remove path)) ;;
          fail (Wrapf "protect encrypted EVM key: %w" [] e)
      | Ok _ =>
          on_disk (wrap_error "write EVM keystore index: %w" []
            (writeEVMKeyIndex indexPath (<[name := path]> index)))
      end
  end.

Definition CreateKey (name : string) : prog machine unit :=
  if negb (validEVMKeyName name) then fail (Errorf "invalid EVM key name %q" [GStr name])
  else store_key name "create encrypted EVM key: %w" NewAccount.

Definition importKey (name secret : string) : prog machine unit :=
  if negb (validEVMKeyName name) then fail (Errorf "invalid EVM key name %q" [GStr name])
  else
    let raw := trim_0x (TrimSpace secret) in
    if negb (slen raw =? 64)
    then fail (Errorf "EVM private key must contain exactly 64 hexadecimal characters" [])
    else
      privateKey ← of_result (wrapf "invalid EVM private key: %w" [] (HexToECDSA raw));
      store_key name "import encrypted EVM key: %w" (fun dir => ImportECDSA dir privateKey).

Definition ImportKey (name : string) : prog machine unit :=
  secret ← readEVMPrivateKey;
  importKey name secret.

(** ** Using a key *)

Definition keyPath : prog disk string :=
  if negb (validEVMKeyName (cf_KeyName cfg))
  then fail (Errorf "invalid or missing EVM key_name %q" [GStr (cf_KeyName cfg)])
  else
    dir ← of_result keyDir;
    protected ← attempt (ProtectDirectory dir);
    (match protected with
     | Err e =>
         if IsNotExist e then mret tt
         else fail (Wrapf "protect EVM keystore directory before read: %w" [] e)
     | Ok _ => mret tt
     end) ;;
    index ← readEVMKeyIndex (filepath_Join dir evmKeyIndexFile);
    let path := default "" (index !! cf_KeyName cfg) in
    if decide (TrimSpace path = ""%string)
    then fail (Errorf "EVM key %q was not found; run `igit key new %s`"
                 [GStr (cf_KeyName cfg); GStr (cf_KeyName cfg)])
    else
      let path := if IsAbs path then path else filepath_Join dir path in
      abs ← of_result (filepath_Abs path);
      dirAbs ← of_result (filepath_Abs dir);
      if negb (bool_decide (filepath_Dir abs = dirAbs))
      then fail (Errorf "EVM keystore index points outside or below the keystore directory; key files must be directly inside" [])
      else
        wrap_error "protect encrypted EVM key before read: %w" [] (ProtectFile abs) ;;
        mret abs.

(** [strings.Split(s, [--])] *)
Fixpoint split_dashes (s : string) : list string :=
  match s with
  | EmptyString => [""%string]
  | String c s1 =>
      let other := match split_dashes s1 with
                   | part :: parts => String c part :: parts
                   | [] => [str1 c]
                   end in
      match s1 with
      | String d s2 => if is_char "-" c && is_char "-" d then ""%string :: split_dashes s2 else other
      | EmptyString => other
      end
  end.

(** [metadata.Address] *)
Definition metadata_address (data : string) : result string :=
  let? v := Unmarshal data in
  let? ms := struct_members v in
  string_field "address" "" ms.

Definition indexedEVMAddress (path : string) : prog disk string :=
  let parts := split_dashes (filepath_Base path) in
  if (length parts <? 3)%nat then fail (Errorf "invalid EVM keystore filename" [])
  else
    let filenameAddress := wide_ToLower (default "" (list.last parts)) in
    if negb (slen filenameAddress =? 40)
    then fail (Errorf "invalid EVM keystore address filename" [])
    else
      of_result (wrapf "invalid EVM keystore address filename: %w" []
        (decodeHexBytes ("0x" +:+ filenameAddress))) ;;
      data ← wrap_error "read EVM keystore metadata: %w" [] (ReadFile path);
      address ← of_result (wrapf "parse EVM keystore metadata: %w" [] (metadata_address data));
      let stored := trim_0x (wide_ToLower (TrimSpace address)) in
      if negb (slen stored =? 40) then fail (Errorf "invalid EVM keystore address metadata" [])
      else
        of_result (wrapf "invalid EVM keystore address metadata: %w" []
          (decodeHexBytes ("0x" +:+ stored))) ;;
        if negb (bool_decide (stored = filenameAddress))
        then fail (Errorf "EVM keystore filename and metadata addresses do not match" [])
        else mret filenameAddress.

Definition keystore_OwnerAddress : prog disk string :=
  path ← keyPath;
  hexAddress ← indexedEVMAddress path;
  of_result (userAddressFromEVM ("0x" +:+ hexAddress)).

(** [new(big.Int).SetString(s, 16)] *)
Fixpoint hex_digits (acc : Z) (s : string) : option Z :=
  match s with
  | EmptyString => Some acc
  | String c s' => match hex_value c with
                   | Some v => hex_digits (acc * 16 + Z.of_N v) s'
                   | None => None
                   end
  end.
Definition some_hex_digits (s : string) : option Z :=
  if decide (s = ""%string) then None else hex_digits 0 s.
Definition big_SetString_hex (s : string) : option Z :=
  match s with
  | String c s' =>
      if is_char "-" c then Z.opp <$> some_hex_digits s'
      else if is_char "+" c then some_hex_digits s'
      else some_hex_digits s
  | EmptyString => None
  end.

(** What [SignTransaction] makes of the fields of the transaction. *)
Definition tx_destination (to : string) : result (option bytes) :=
  if decide (TrimSpace to = ""%string) then Ok None
  else
    let? toValue := wrapf "invalid EVM transaction destination: %w" [] (normalizeEVMAddress to) in
    Ok (Some (HexToAddress (TrimPrefix toValue "0x"))).

Definition tx_value (value : string) : result Z :=
  if decide (TrimSpace value = ""%string) then Ok 0
  else
    let valueText := trim_0x (TrimSpace value) in
    let valueText := if decide (valueText = ""%string) then "0"%string else valueText in
    match big_SetString_hex valueText with
    | Some parsed => Ok parsed
    | None => errf "invalid EVM transaction value" []
    end.

Definition unsigned_tx (tx : EVMTransaction) : result LegacyTx :=
  let? to := tx_destination (et_To tx) in
  let? dataBytes := decodeHexBytes (et_Data tx) in
  let? gasPrice := wrapf "invalid EVM gas price: %w" [] (parseHexUint (et_GasPrice tx)) in
  let? value := tx_value (et_Value tx) in
  Ok (mk_LegacyTx (et_Nonce tx) to value (et_GasLimit tx) gasPrice dataBytes).

(** [evmKeyAddress(key.PrivateKey).Hex()] in lower case, without its prefix. *)
Definition derived_address (key : ecdsa_key) : string :=
  TrimPrefix (ToLower (AddressHex (PubkeyToAddress key))) "0x".

(** [cancelled]: [ctx.Err()] of a context that is done. *)
Definition keystore_SignTransaction (cancelled : option goerror) (tx : EVMTransaction)
  : prog machine string :=
  match cancelled with
  | Some e => fail e
  | None =>
      path ← on_disk keyPath;
      expectedAddress ← on_disk (indexedEVMAddress path);
      password ← readEVMKeystorePassword;
      data ← on_disk (wrap_error "read EVM keystore: %w" [] (ReadFile path));
      decrypted ← of_result (wrapf "decrypt EVM keystore: %w" [] (DecryptKey data password));
      match decrypted with
      | None => fail (Errorf "EVM keystore has no private key" [])
      | Some key =>
          if negb (bool_decide (derived_address key = expectedAddress))
          then fail (Errorf "EVM keystore private key does not match its address metadata" [])
          else
            unsigned ← of_result (unsigned_tx tx);
            signed ← of_result (wrapf "sign EVM transaction: %w" [] (SignTx unsigned (et_ChainID tx) key));
            raw ← of_result (wrapf "encode signed EVM transaction: %w" [] (MarshalBinary signed));
            mret ("0x" +:+ hex_encode raw)
      end
  end.

End Keystore.
