(* ===== verification/KeystoreProps.v ===== *)
(** * KeystoreProps: what the keystore guarantees

    What go-ethereum promises ([KeysLaws]), where the files of the keystore are,
    and the index as it is written and read; then: the index never loses a key, a
    key file is never outside the keystore directory, and what is signed is signed
    by the key of the account that the signer reports. *)
From Stdlib Require Import ZArith Lia Ascii String.
From stdpp Require Import base list gmap strings option.
From S2P Require Import Prelude GoText Prog I18n Json JsonSpec Geth EvmAddress EvmRpc EvmTx Paths FileSystem FileProtection FileTexts FileProtectionProps Config Keystore.

Local Open Scope Z_scope.

(** ** What the libraries promise *)

Class WorkingDirectoryLaws `{!WorkingDirectory} := {
  Getwd_absolute wd : Getwd = Ok wd -> IsAbs wd = true }.

(** The names of key files and of their staging files. *)
Definition key_file (name : string) : bool := HasPrefix name "UTC--" || HasPrefix name ".UTC--".

(** An account that was stored: its file has the address in its name and in its
    text, and the password opens it; what was there before is still there. *)
Record stored `{!Keys} (dir password : string) (key : ecdsa_key) (d d' : disk) (path : string) := {
  st_name : exists time name, path = filepath_Join dir name /\ plain_segment name = true /\
    valid_utf8 name = true /\
    split_dashes name = ["UTC"%string; time; hex_encode (PubkeyToAddress key)];
  st_file : exists mode text, look d' (path_key path) = Some (mk_inode KFile mode, text) /\
    DecryptKey text password = Ok (Some key) /\
    metadata_address text = Ok (hex_encode (PubkeyToAddress key));
  st_others : forall q x, look d q = Some x -> look d' q = Some x;
  st_live : live d -> live d' }.

Class KeysLaws `{!Keys} := {
  length_PubkeyToAddress key : length (PubkeyToAddress key) = 20%nat;
  NewAccount_keeps dir password k P :
    key_file (List.last k.2 "") = false -> keeps (kept k P) (NewAccount dir password);
  ImportECDSA_keeps dir key password k P :
    key_file (List.last k.2 "") = false -> keeps (kept k P) (ImportECDSA dir key password);
  NewAccount_stored dir password d d' path :
    NewAccount dir password d = (d', Ok path) -> exists key, stored dir password key d d' path;
  ImportECDSA_stored dir key password d d' path :
    ImportECDSA dir key password d = (d', Ok path) -> stored dir password key d d' path;
  Sender : bytes -> option (LegacyTx * Z * bytes);   (* UnmarshalBinary and types.Sender *)
  Sender_signed tx chain key s raw :
    0 < chain -> SignTx tx chain key = Ok s -> MarshalBinary s = Ok raw ->
    Sender raw = Some (tx, chain, PubkeyToAddress key) }.

(** ** Absolute paths *)

Lemma IsAbs_key path : IsAbs path = (path_key path).1.
Proof. done. Qed.

Lemma IsAbs_Clean path : IsAbs (Clean path) = IsAbs path.
Proof. by rewrite !IsAbs_key, path_key_Clean. Qed.

Lemma Clean_idem path : Clean (Clean path) = Clean path.
Proof. unfold Clean at 1 3. by rewrite path_key_Clean. Qed.

Lemma IsAbs_app path rest : path <> ""%string -> IsAbs (path +:+ rest) = IsAbs path.
Proof. destruct path as [|c path]; [done|]. intros _. unfold IsAbs. by rewrite str_cons_app, !HasPrefix_slash. Qed.

Lemma Join_absolute wd path : IsAbs wd = true -> IsAbs (filepath_Join wd path) = true.
Proof.
  intros Hw. assert (wd <> ""%string) as Hne by by intros ->. unfold filepath_Join.
  rewrite decide_False by done. destruct (decide (path = ""%string)); by rewrite IsAbs_Clean, IsAbs_app.
Qed.

Lemma Join_clean first second : first <> ""%string -> Clean (filepath_Join first second) = filepath_Join first second.
Proof.
  intros H. unfold filepath_Join. rewrite decide_False by done.
  destruct (decide (second = ""%string)); apply Clean_idem.
Qed.

Section Directory.
Context {EN : Environment} {WD : WorkingDirectory} {WL : WorkingDirectoryLaws}.

Lemma filepath_Abs_clean path abs :
  filepath_Abs path = Ok abs -> Clean abs = abs /\ IsAbs abs = true.
Proof.
  unfold filepath_Abs. destruct (IsAbs path) eqn:E.
  - intros [= <-]. by rewrite Clean_idem, IsAbs_Clean.
  - destruct Getwd as [wd|] eqn:Ew; [|done]. intros [= <-]. apply Getwd_absolute in Ew.
    split; [|by apply Join_absolute]. apply Join_clean. by intros ->.
Qed.

Lemma filepath_Abs_id path : Clean path = path -> IsAbs path = true -> filepath_Abs path = Ok path.
Proof. intros Hc Ha. unfold filepath_Abs. by rewrite Ha, Hc. Qed.

Lemma keyDir_clean cfg dir : keyDir cfg = Ok dir -> Clean dir = dir /\ IsAbs dir = true.
Proof.
  unfold keyDir. cbv zeta. intros H. go_inv H. apply filepath_Abs_clean in Hc0 as [Hc1 Ha].
  subst dir. rewrite Clean_idem, IsAbs_Clean. split; [done|]. case_decide; [|done].
  by apply Join_absolute.
Qed.
End Directory.

(** ** A file of a directory *)

Definition child (dir name : string) : key := ((path_key dir).1, (path_key dir).2 ++ [name]).

Lemma Join_file_path dir name :
  dir <> ""%string -> plain_segment name = true ->
  file_path (filepath_Join dir name) (path_key dir).1 (path_key dir).2 name.
Proof.
  intros Hd Hn. split; [|split; [by apply Join_key|done]].
  by apply Join_clean.
Qed.

Lemma kept_MkdirAll dir name mode P : keeps (kept (child dir name) P) (MkdirAll dir mode).
Proof.
  apply kept_mkdir_all.
  - cbn. rewrite length_rev, length_app. cbn. lia.
  - apply List.Forall_rev; eapply normal_without, path_key_normal.
Qed.

(** A clean absolute path is a name in its directory, or the root. *)
Lemma path_in_directory path dir :
  Clean path = path -> IsAbs path = true -> filepath_Dir path = dir ->
  path_key path = path_key dir \/
  exists name, plain_segment name = true /\ path_key path = child dir name.
Proof.
  intros Hc Ha Hd. rewrite IsAbs_key in Ha.
  pose proof (path_key_normal path) as (ups & names & E & Hn & Hu). specialize (Hu Ha). subst ups.
  cbn [replicate app] in E. destruct (path_key path) as [rooted segments] eqn:Ek. cbn [fst snd] in *. subst.
  destruct names as [|name names _] using rev_ind.
  - left. rewrite <- Hc. unfold Clean. by rewrite Ek.
  - right. exists name. apply Forall_app in Hn as [_ Hn]. inversion_clear Hn as [|?? Hp _].
    split; [done|]. destruct (Clean_file _ _ _ _ Ek Hp) as [_ Hk]. rewrite Hc in Hk.
    unfold child. by rewrite Hk.
Qed.

(** ** The index *)

(** What the text of the index file says; [None] where there is no file. *)
Definition index_in (text : option string) (index : gmap string string) : Prop :=
  match text with
  | None => index = ∅
  | Some s => exists o, decode_index s = Ok o /\ index = default ∅ o
  end.

Definition index_utf8 (index : gmap string string) : Prop :=
  map_Forall (fun name path => valid_utf8 name = true /\ valid_utf8 path = true) index.

Lemma decode_index_utf8 s o : decode_index s = Ok o -> index_utf8 (default ∅ o).
Proof.
  unfold decode_index. destruct (Unmarshal s) as [v|] eqn:Ev; [|done].
  apply Unmarshal_strings_ok in Ev. destruct v as [| | | |items|ms]; try done; [by intros [= <-]|].
  intros H. go_inv H. subst o. cbn [default]. cbn [strings_ok] in Ev. unfold id. revert Hc Ev.
  assert (index_utf8 ∅) as H0 by apply map_Forall_empty. revert H0. generalize (∅ : gmap string string).
  induction ms as [|[name x] ms IH]; intros acc Hacc Hc Ev; cbn [foldM] in Hc; [by injection Hc as <-|].
  cbn [forallb] in Ev. apply andb_true_iff in Ev as [[Hn Hx]%andb_true_iff Ev].
  destruct (decode_string x "") as [path|] eqn:Ep; [|done]. eapply IH; [|exact Hc|exact Ev].
  apply map_Forall_insert_2; [|done]. split; [done|].
  destruct x; try done; by injection Ep as <-.
Qed.

Lemma index_in_utf8 t index : index_in t index -> index_utf8 index.
Proof.
  destruct t as [s|]; [|intros ->; apply map_Forall_empty].
  intros (o & Ho & ->). by eapply decode_index_utf8.
Qed.

Lemma insert_member_texts m l :
  exists l', insert_member (text_member m.1 m.2) (map (fun '(n, p) => text_member n p) l) =
    map (fun '(n, p) => text_member n p) l' /\ l' ≡ₚ m :: l.
Proof.
  induction l as [|[n p] l IH]; cbn [map insert_member].
  - exists [m]. by destruct m.
  - destruct (String.leb _ _).
    + exists (m :: (n, p) :: l). by destruct m.
    + destruct IH as (l' & -> & Hp). exists ((n, p) :: l'). split; [done|]. rewrite Hp. apply perm_swap.
Qed.

Lemma sorted_members_texts l :
  exists l', sorted_members (map (fun '(n, p) => text_member n p) l) =
    map (fun '(n, p) => text_member n p) l' /\ l' ≡ₚ l.
Proof.
  induction l as [|[n p] l IH]; [by exists []|]. destruct IH as (l1 & E & H1).
  destruct (insert_member_texts (n, p) l1) as (l2 & E2 & H2). exists l2.
  split; [|by rewrite H2, H1]. rewrite <- E2, <- E. done.
Qed.

Lemma foldM_texts l acc :
  foldM (fun index '(name, x) => let? path := decode_string x "" in Ok (<[name := path]> index))
    (map (fun '(n, p) => text_member n p) l) acc =
  Ok (fold_left (fun (index : gmap string string) '(n, p) => <[n := p]> index) l acc).
Proof. revert acc. induction l as [|[n p] l IH]; intros acc; [done|]. cbn. apply IH. Qed.

Lemma fold_left_insert (l : list (string * string)) acc :
  NoDup l.*1 -> fold_left (fun (index : gmap string string) '(n, p) => <[n := p]> index) l acc =
    list_to_map l ∪ acc.
Proof.
  revert acc. induction l as [|[n p] l IH]; intros acc Hd; cbn; [by rewrite (left_id_L ∅ (∪))|].
  apply list.NoDup_cons in Hd as [Hn Hd]. rewrite IH by done.
  rewrite <- insert_union_r by by apply not_elem_of_list_to_map_1.
  by apply insert_union_l.
Qed.

(** The index is read back as it was written. *)
Lemma decode_index_printed index :
  index_utf8 index -> decode_index (MarshalIndent (index_json index)) = Ok (Some index).
Proof.
  intros Hu. unfold index_json. destruct (sorted_members_texts (map_to_list index)) as (l & E & Hp).
  rewrite E.
  assert (forall k x, (k, x) ∈ map (fun '(n, p) => text_member n p) l ->
    valid_utf8 k = true /\ json_ok x = true /\ nesting x = 0%nat) as Hm.
  { intros k x ([n p] & [= -> ->] & Hin)%list_elem_of_fmap. rewrite Hp in Hin.
    apply elem_of_map_to_list in Hin. by destruct (Hu _ _ Hin). }
  unfold decode_index. rewrite Unmarshal_MarshalIndent.
  - rewrite foldM_texts, fold_left_insert.
    + rewrite (right_id_L ∅ (∪)), (list_to_map_proper l (map_to_list index)).
      * by rewrite list_to_map_to_list.
      * rewrite Hp. apply NoDup_fst_map_to_list.
      * done.
    + rewrite Hp. apply NoDup_fst_map_to_list.
  - apply json_ok_object. intros k x Hin. by destruct (Hm _ _ Hin) as (? & ? & _).
  - transitivity 1%nat; [|unfold max_depth; lia]. apply flat_object. intros k x Hin.
    by destruct (Hm _ _ Hin) as (_ & _ & ?).
Qed.

Lemma index_printed_in index :
  index_utf8 index -> index_in (Some (MarshalIndent (index_json index))) index.
Proof. intros H. exists (Some index). by rewrite decode_index_printed. Qed.

(** Reading the index changes modes only. *)
Lemma keeps_readEVMKeyIndex P path :
  keeps P (Lstat path) -> keeps P (ProtectFile path) -> keeps P (ReadFile path) ->
  keeps P (readEVMKeyIndex path).
Proof.
  intros H1 H2 H3. apply keeps_bind; [by apply keeps_attempt|]. intros [n|e].
  - apply keeps_bind; [by apply keeps_wrap_error|]. intros _. apply keeps_bind; [done|]. intros data.
    apply keeps_bind; [apply keeps_of_result|]. intros o. apply keeps_ret.
  - destruct (IsNotExist e); [apply keeps_ret|apply keeps_fail].
Qed.

Lemma text_readEVMKeyIndex k t path : keeps (fun d => text_at d k = t) (readEVMKeyIndex path).
Proof. apply keeps_readEVMKeyIndex; [apply text_Lstat|apply text_ProtectFile|apply text_ReadFile]. Qed.

Lemma kept_readEVMKeyIndex k P path : keeps (kept k P) (readEVMKeyIndex path).
Proof. apply keeps_readEVMKeyIndex; [apply kept_Lstat|apply kept_ProtectFile|apply kept_ReadFile]. Qed.

Lemma readEVMKeyIndex_ok k t path d d' index :
  path_key path = k -> text_at d k = t -> readEVMKeyIndex path d = (d', Ok index) -> index_in t index.
Proof.
  intros Hk Ht H. unfold readEVMKeyIndex in H. apply bind_run_ok in H as (d1 & found & H1 & H).
  unfold attempt in H1. destruct (Lstat path d) as [d1' r] eqn:El. injection H1 as <- <-.
  pose proof (text_Lstat k t path d Ht) as Ht1. rewrite El in Ht1. cbn in Ht1.
  destruct r as [n|e].
  - apply bind_run_ok in H as (d2 & [] & H2 & H). unfold wrap_error in H2.
    destruct (ProtectFile path d1') as [d2' r2] eqn:Ep. injection H2 as <- H2.
    pose proof (text_ProtectFile k t path d1' Ht1) as Ht2. rewrite Ep in Ht2. cbn in Ht2.
    apply bind_run_ok in H as (d3 & data & H3 & H).
    apply (ReadFile_text k t _ _ _ _ Hk Ht2) in H3 as ->.
    apply bind_run_ok in H as (d4 & o & H4 & H). injection H4 as <- H4. apply wrapf_ok in H4.
    injection H as <- <-. by exists o.
  - destruct (IsNotExist e) eqn:Ee; [|done]. injection H as <- <-.
    rewrite <- Ht, (Lstat_absent k _ _ _ _ Hk El Ee). done.
Qed.

Lemma readEVMKeyIndex_fine path d s o :
  live d -> text_at d (path_key path) = Some s -> decode_index s = Ok o ->
  exists d', readEVMKeyIndex path d = (d', Ok (default ∅ o)) /\ live d' /\ same_files d d'.
Proof.
  intros Hd Ht Ho. unfold readEVMKeyIndex. rewrite bind_run. unfold attempt.
  destruct (Lstat_fine _ _ _ Hd Ht) as [n ->]. rewrite bind_run, wrap_error_run.
  destruct (ProtectFile_fine _ _ _ Hd Ht) as (d' & -> & Hd' & Hs). cbn [fst snd wrapf].
  exists d'. rewrite bind_run, (ReadFile_fine _ _ s) by (done || by rewrite (proj1 Hs)).
  rewrite bind_run. unfold of_result. by rewrite Ho.
Qed.

(** ** Texts *)

Lemma valid_utf8_go_app k a b :
  valid_utf8_go k a = true -> valid_utf8 b = true -> valid_utf8_go k (a +:+ b) = true.
Proof.
  intros Ha Hb. revert k Ha. induction a as [|c a IH]; intros k Ha.
  - cbn in Ha. bool_prop. by subst.
  - rewrite str_cons_app. destruct k as [|k]; cbn [valid_utf8_go] in *; [|by apply IH].
    destruct (rune_tail c a) as [n|] eqn:E; [|done]. rewrite (rune_tail_app _ _ _ _ E). by apply IH.
Qed.

Lemma valid_utf8_app a b : valid_utf8 a = true -> valid_utf8 b = true -> valid_utf8 (a +:+ b) = true.
Proof. apply valid_utf8_go_app. Qed.

(** The path of a file of a clean absolute directory. *)
Lemma Join_text dir name :
  Clean dir = dir -> IsAbs dir = true -> plain_segment name = true ->
  filepath_Join dir name = (if decide ((path_key dir).2 = []) then "/" +:+ name else dir +:+ "/" +:+ name)%string.
Proof.
  intros Hc Ha Hn. assert (dir <> ""%string) as Hne by by intros ->.
  rewrite <- (Join_clean dir name Hne). unfold Clean. rewrite (Join_key dir name Hne Hn).
  rewrite IsAbs_key in Ha. rewrite Ha.
  assert (dir = key_text (true, (path_key dir).2)) as Hd.
  { rewrite <- Hc at 1. unfold Clean. rewrite (surjective_pairing (path_key dir)), Ha. cbn [snd].
    by rewrite decide_False. }
  case_decide as E1; [done|]. unfold key_text. cbn [fst snd]. case_decide as E2.
  - by rewrite E2.
  - rewrite Join_snoc by done. rewrite Hd at 2. unfold key_text. cbn [fst snd]. by rewrite !str_app_assoc.
Qed.

Lemma Join_utf8 dir name :
  Clean dir = dir -> IsAbs dir = true -> plain_segment name = true ->
  valid_utf8 dir = true -> valid_utf8 name = true -> valid_utf8 (filepath_Join dir name) = true.
Proof.
  intros Hc Ha Hp Hd Hn. rewrite Join_text by done.
  assert (valid_utf8 ("/" +:+ name) = true) as Hs by by apply (valid_utf8_app "/").
  case_decide; [done|]. by apply valid_utf8_app.
Qed.

(** The directory of such a file. *)
Lemma Dir_Join dir name :
  Clean dir = dir -> IsAbs dir = true -> plain_segment name = true ->
  filepath_Dir (filepath_Join dir name) = dir /\ filepath_Base (filepath_Join dir name) = name.
Proof.
  intros Hc Ha Hn. assert (dir <> ""%string) as Hne by by intros ->.
  pose proof (Join_key dir name Hne Hn) as Hk. destruct (Clean_file _ _ _ _ Hk Hn) as [Hb Hd].
  rewrite Join_clean in * by done. split; [|done]. rewrite <- surjective_pairing in Hd.
  unfold filepath_Dir in *. rewrite path_key_Clean in Hd.
  transitivity (Clean dir); [|done]. unfold Clean. by rewrite Hd.
Qed.

Lemma blank_absolute path : IsAbs path = true -> TrimSpace path <> ""%string.
Proof.
  intros Ha. apply TrimSpace_visible. destruct path as [|c path]; [done|].
  unfold IsAbs in Ha. rewrite HasPrefix_slash in Ha. apply is_char_spec in Ha as ->. done.
Qed.

(** The texts of addresses. *)
Lemma hex_no_prefix b : trim_0x (hex_encode b) = hex_encode b.
Proof.
  assert (forall p, p = "0x"%string \/ p = "0X"%string -> TrimPrefix (hex_encode b) p = hex_encode b) as H.
  { intros p Hp. unfold TrimPrefix. destruct (cut_prefix p (hex_encode b)) as [r|] eqn:E; [|done].
    apply cut_prefix_spec in E. pose proof (all_hex_encode b) as Hh. rewrite E in Hh.
    by destruct Hp as [-> | ->]. }
  unfold trim_0x. by rewrite !H by auto.
Qed.


Section KeystoreProps.
Context {EN : Environment} {UC : UnicodeCase} {WD : WorkingDirectory} {WL : WorkingDirectoryLaws}.
Context {GE : Geth} {GL : GethLaws} {KS : Keys} {KL : KeysLaws}.

(** ** Where keys are *)

Lemma absolute_nonempty path : IsAbs path = true -> path <> ""%string.
Proof. by intros H ->. Qed.

Lemma keeps_wrap_text k t f args path : keeps (fun d => text_at d k = t) (wrap_error f args (ProtectFile path)).
Proof. apply keeps_wrap_error, text_ProtectFile. Qed.

(** [keyPath] gives a regular file that is directly inside the keystore
    directory, of mode 0600, that the index names for the configured key,
    whatever the index says and whatever fails; and no file's text changes. *)
Theorem key_path_inside cfg dir d d' path :
  keyDir cfg = Ok dir -> keyPath cfg d = (d', Ok path) ->
  (exists name, plain_segment name = true /\ path_key path = child dir name) /\
  (exists text, look d' (path_key path) = Some (mk_inode KFile mode_0600, text)) /\
  (exists index entry, index_in (text_at d (child dir "index.json")) index /\
     index !! cf_KeyName cfg = Some entry /\
     filepath_Abs (if IsAbs entry then entry else filepath_Join dir entry) = Ok path) /\
  forall q, text_at d' q = text_at d q.
Proof.
  intros Hdir H. destruct (keyDir_clean _ _ Hdir) as [Hc Ha]. pose proof (absolute_nonempty _ Ha) as Hne.
  unfold keyPath in H. destruct (validEVMKeyName _); [|done]. cbn [negb] in H. rewrite Hdir in H.
  apply bind_run_ok in H as (d0 & dir0 & Hd0 & H). injection Hd0 as <- <-.
  apply bind_run_ok in H as (d1 & protected & Hp & H). unfold attempt in Hp.
  destruct (ProtectDirectory dir d) as [d1' r] eqn:Ep. injection Hp as <- <-.
  apply bind_run_ok in H as (d2 & [] & Hr & H).
  assert (d2 = d1' /\ forall e, r = Err e -> IsNotExist e = true) as [-> Hnot].
  { destruct r as [a|e]; [by injection Hr as <-|]. destruct (IsNotExist e) eqn:Ee; [|done].
    injection Hr as <-. split; [done|]. by intros ? [= <-]. }
  pose proof (protected_directory _ _ _ _ Ep Hnot) as Hroot.
  apply bind_run_ok in H as (d3 & index & Hi & H).
  assert (forall q, text_at d1' q = text_at d q) as Ht1.
  { intros q. pose proof (text_ProtectDirectory q (text_at d q) dir d eq_refl) as Hq. by rewrite Ep in Hq. }
  assert (forall q, text_at d3 q = text_at d q) as Ht3.
  { intros q. pose proof (text_readEVMKeyIndex q (text_at d q) (filepath_Join dir evmKeyIndexFile) d1' (Ht1 q)) as Hq.
    by rewrite Hi in Hq. }
  eapply (readEVMKeyIndex_ok (child dir "index.json")) in Hi; [|by apply Join_key|apply Ht1].
  cbv zeta in H. destruct (decide _) as [|Hblank]; [done|].
  destruct (index !! cf_KeyName cfg) as [entry|] eqn:Ee; [|by destruct Hblank]. cbn [default] in H.
  apply bind_run_ok in H as (d4 & abs & Habs & H). injection Habs as <- Habs.
  apply bind_run_ok in H as (d5 & dirAbs & Hda & H). rewrite filepath_Abs_id in Hda by done.
  injection Hda as <- <-.
  destruct (bool_decide (filepath_Dir abs = dir)) eqn:Ed; [|done]. cbn [negb] in H.
  apply bool_decide_eq_true in Ed. apply bind_run_ok in H as (d6 & [] & Hpf & H). injection H as <- <-.
  assert (forall q, text_at d6 q = text_at d q) as Ht6.
  { intros q. pose proof (keeps_wrap_text q (text_at d q) "protect encrypted EVM key before read: %w" [] abs d3 (Ht3 q)) as Hq.
    by rewrite Hpf in Hq. }
  unfold wrap_error in Hpf. destruct (ProtectFile abs d3) as [d6' r6] eqn:E6. injection Hpf as -> Hr6.
  apply wrapf_ok in Hr6 as ->. pose proof (ProtectFile_done _ _ _ E6) as [text Hlook].
  destruct (filepath_Abs_clean _ _ Habs) as [Hac Haa].
  split_and!; [|by exists text|by exists index, entry|done].
  destruct (path_in_directory _ _ Hac Haa Ed) as [Ek|Ek]; [|done].
  exfalso. rewrite <- Ek, <- Ht6 in Hroot. unfold text_at in Hroot. by rewrite Hlook in Hroot.
Qed.

(** ** Storing a key *)

Lemma on_disk_run {A} (c : prog disk A) m :
  on_disk c m = (mk_machine (c (mc_disk m)).1 (mc_terminal m), (c (mc_disk m)).2).
Proof. unfold on_disk. by destruct (c (mc_disk m)). Qed.

Lemma on_disk_ok {A} (c : prog disk A) m m' r :
  on_disk c m = (m', r) <-> c (mc_disk m) = (mc_disk m', r) /\ mc_terminal m' = mc_terminal m.
Proof.
  rewrite on_disk_run. destruct (c (mc_disk m)) as [d r'], m' as [d' t']. cbn. naive_solver.
Qed.

(** Programs that are done with the disk. *)
Definition same_disk {A} (c : prog machine A) : Prop := forall m, mc_disk (c m).1 = mc_disk m.

Lemma same_disk_bind {A B} (c : prog machine A) (f : A -> prog machine B) :
  same_disk c -> (forall a, same_disk (f a)) -> same_disk (c ≫= f).
Proof.
  intros Hc Hf m. rewrite bind_run. specialize (Hc m). destruct (c m) as [m' [a|e]]; [|done].
  by rewrite Hf.
Qed.

Lemma same_disk_password : same_disk readEVMKeystorePassword.
Proof.
  unfold readEVMKeystorePassword. cbv zeta. case_decide; [by intros m|].
  apply same_disk_bind.
  - intros m. unfold next_prompt. by destruct (mc_terminal m).
  - intros p m. by destruct p.
Qed.

Lemma same_disk_confirmed : same_disk confirmed_password.
Proof.
  apply same_disk_bind; [apply same_disk_password|]. intros pw. apply same_disk_bind; [|by intros _ m].
  case_decide; [|by intros m]. apply same_disk_bind; [apply same_disk_password|]. intros c m.
  by case_match.
Qed.

Section Index.
Variables (cfg : Config) (dir : string).
Hypothesis dir_known : keyDir cfg = Ok dir.

Let ik := child dir "index.json".

Lemma dir_fine : Clean dir = dir /\ IsAbs dir = true /\ dir <> ""%string.
Proof.
  destruct (keyDir_clean _ _ dir_known) as [Hc Ha]. split_and!; [done..|by apply absolute_nonempty].
Qed.

Lemma index_file_path : file_path (filepath_Join dir evmKeyIndexFile) (path_key dir).1 (path_key dir).2 "index.json".
Proof. apply Join_file_path; [apply dir_fine|done]. Qed.

Lemma indexPath_known : indexPath cfg = Ok (filepath_Join dir evmKeyIndexFile).
Proof. unfold indexPath. by rewrite dir_known. Qed.

(** What is done before the index is read. *)
Definition prepare_directory : prog disk unit :=
  wrap_error "create EVM keystore directory: %w" [] (MkdirAll dir mode_0700) ;;
  wrap_error "protect EVM keystore directory: %w" [] (ProtectDirectory dir).

Lemma kept_prepare P : keeps (kept ik P) prepare_directory.
Proof.
  apply keeps_bind; [apply keeps_wrap_error, kept_MkdirAll|]. intros _.
  apply keeps_wrap_error, kept_ProtectDirectory.
Qed.

Lemma text_prepare t : keeps (fun d => disk_ok d /\ text_at d ik = t) prepare_directory.
Proof.
  apply keeps_bind.
  - apply keeps_wrap_error, (keeps_mkdir_all ik).
    + intros path d [Hok Ht]. split; [|by apply text_Stat].
      by destruct (kept_Stat ik (fun _ => True) path d ltac:(by split)).
    + intros path d [Hok Ht]. split; [|by apply text_Lstat].
      by destruct (kept_Lstat ik (fun _ => True) path d ltac:(by split)).
    + intros what path mode. apply text_make.
    + cbn. rewrite length_rev, length_app. cbn. lia.
    + apply List.Forall_rev; eapply normal_without, path_key_normal.
  - intros _ d [Hok Ht].
    pose proof (kept_ProtectDirectory ik (fun _ => True) dir d ltac:(by split)) as [Hok' _].
    pose proof (text_ProtectDirectory ik t dir d Ht) as Ht'. unfold wrap_error.
    by destruct (ProtectDirectory dir d).
Qed.

(** What may be found in the index after a run from [d]. *)
Definition kept_index (d : disk) (t : option string) : Prop :=
  exists d0, after d d0 /\ t = text_at d0 ik.
Definition new_index (d : disk) (name path : string) (t : option string) : Prop :=
  exists index, index_in (text_at d ik) index /\ index !! name = None /\
    t = Some (MarshalIndent (index_json (<[name := path]> index))).

Variables (name failure : string) (store : string -> string -> prog disk string).
Hypothesis store_keeps : forall password P, keeps (kept ik P) (store dir password).
Hypothesis store_elsewhere : forall password d d' path,
  store dir password d = (d', Ok path) -> path_key path <> ik.

Lemma store_key_run m m' r :
  store_key cfg name failure store m = (m', r) -> disk_ok (mc_disk m) ->
  kept ik (kept_index (mc_disk m)) (mc_disk m') /\ (exists e, r = Err e) \/
  exists index password path d1 d2 m1 m2,
    prepare_directory (mc_disk m) = (d1, Ok tt) /\
    readEVMKeyIndex (filepath_Join dir evmKeyIndexFile) d1 = (d2, Ok index) /\
    index !! name = None /\
    confirmed_password (mk_machine d2 (mc_terminal m)) = (m1, Ok password) /\
    (exists d3, store dir password d2 = (d3, Ok path) /\ ProtectFile path d3 = (mc_disk m2, Ok tt)) /\
    kept ik (kept_index (mc_disk m)) (mc_disk m2) /\
    on_disk (wrap_error "write EVM keystore index: %w" []
      (writeEVMKeyIndex (filepath_Join dir evmKeyIndexFile) (<[name := path]> index))) m2 = (m', r).
Proof.
  intros H Hok. set (Q := kept_index (mc_disk m)).
  assert (kept ik Q (mc_disk m)) as H0 by (split; [done|]; intros found Hf; by exists found).
  unfold store_key, of_result in H. rewrite dir_known, indexPath_known in H.
  rewrite bind_run in H. cbv beta iota in H. rewrite bind_run, on_disk_run in H. cbn [mc_disk mc_terminal] in H.
  pose proof (kept_prepare Q (mc_disk m) H0) as H1. unfold prepare_directory in *. rewrite bind_run in H1.
  rewrite bind_run.
  destruct (wrap_error "create EVM keystore directory: %w" [] (MkdirAll dir mode_0700) (mc_disk m))
    as [da [[]|e]] eqn:Ea; cbn [fst snd] in *.
  2: { injection H as <- <-. left. by split; [|exists e]. }
  rewrite bind_run, on_disk_run in H. cbn [mc_disk mc_terminal] in H.
  destruct (wrap_error "protect EVM keystore directory: %w" [] (ProtectDirectory dir) da)
    as [d1 [[]|e]] eqn:Eb; cbn [fst snd] in *.
  2: { injection H as <- <-. left. by split; [|exists e]. }
  rewrite bind_run in H. cbv beta iota in H. rewrite bind_run, on_disk_run in H.
  cbn [mc_disk mc_terminal] in H.
  pose proof (kept_readEVMKeyIndex ik Q (filepath_Join dir evmKeyIndexFile) d1 H1) as H2.
  destruct (readEVMKeyIndex _ d1) as [d2 [index|e]] eqn:Ei; cbn [fst snd] in *.
  2: { injection H as <- <-. left. by split; [|exists e]. }
  destruct (index !! name) eqn:En.
  { injection H as <- <-. left. by split; [|eexists]. }
  rewrite bind_run in H. pose proof (same_disk_confirmed (mk_machine d2 (mc_terminal m))) as Hs.
  destruct (confirmed_password (mk_machine d2 (mc_terminal m))) as [m1 [password|e]] eqn:Epw; cbn [fst mc_disk] in Hs.
  2: { injection H as <- <-. left. rewrite Hs. by split; [|eexists]. }
  rewrite bind_run, on_disk_run in H. cbn [mc_disk mc_terminal] in H. rewrite Hs in H.
  pose proof (store_keeps password Q d2 H2) as H3. rewrite (wrap_error_run failure) in H.
  destruct (store dir password d2) as [d3 [path|e]] eqn:Est; cbn [fst snd wrapf] in *.
  2: { injection H as <- <-. left. by split; [|eexists]. }
  rewrite bind_run in H. unfold attempt in H at 1. rewrite on_disk_run in H. cbn [mc_disk mc_terminal] in H.
  pose proof (kept_ProtectFile ik Q path d3 H3) as H4.
  destruct (ProtectFile path d3) as [d4 [[]|e]] eqn:Epr; cbn [fst snd] in *.
  - right. exists index, password, path, d1, d2, m1, (mk_machine d4 (mc_terminal m1)).
    split_and!; [done..| |done|exact H]. by exists d3.
  - rewrite bind_run in H. unfold attempt in H. rewrite on_disk_run in H. cbn [mc_disk mc_terminal] in H.
    pose proof (kept_Remove ik Q path (store_elsewhere _ _ _ _ Est) d4 H4) as H5.
    destruct (Remove path d4) as [d5 r5]. cbn [fst snd] in *. injection H as <- <-. left. by split; [|eexists].
Qed.

Lemma store_key_index m m' r :
  store_key cfg name failure store m = (m', r) -> disk_ok (mc_disk m) ->
  (forall found, after (mc_disk m') found ->
     kept_index (mc_disk m) (text_at found ik) \/
     exists path, new_index (mc_disk m) name path (text_at found ik)) /\
  (r = Ok tt -> exists path, new_index (mc_disk m) name path (text_at (mc_disk m') ik)).
Proof.
  intros H Hok. destruct (store_key_run _ _ _ H Hok) as [[[_ HQ] [e ->]]|Hrun].
  { split; [|done]. intros found Hf. left. by apply HQ. }
  destruct Hrun as (index & password & path & d1 & d2 & m1 & m2 & Hp & Hi & En & _ & _ & [Hok2 HQ] & Hw).
  destruct (text_prepare (text_at (mc_disk m) ik) (mc_disk m) ltac:(by split)) as [_ Ht1].
  rewrite Hp in Ht1. cbn [fst] in Ht1.
  eapply (readEVMKeyIndex_ok ik) in Hi; [|apply index_file_path|exact Ht1].
  rewrite on_disk_run in Hw. unfold wrap_error, writeEVMKeyIndex in Hw.
  destruct (WriteFile _ _ (mc_disk m2)) as [d' rw] eqn:Ew. cbn [fst snd] in Hw. injection Hw as <- <-.
  cbn [mc_disk].
  assert (forall d', look d' ik = Some (mk_inode KFile mode_0600,
    MarshalIndent (index_json (<[name:=path]> index))) ->
    new_index (mc_disk m) name path (text_at d' ik)) as Hnew.
  { intros d0 E. exists index. split_and!; [done..|]. unfold text_at. by rewrite E. }
  split.
  - intros found Hf. destruct (write_file_found _ _ _ _ _ _ _ _ found Hok2 index_file_path Ew Hf)
      as (d0 & Hd0 & _ & [E|E]).
    + left. apply HQ in Hd0. change (look found ik = look d0 ik) in E. unfold text_at in *. by rewrite E.
    + right. exists path. by apply Hnew.
  - intros Hr. apply wrapf_ok in Hr as ->. exists path. apply Hnew.
    by destruct (write_file_done _ _ _ _ _ _ _ Hok2 index_file_path Ew).
Qed.
End Index.

Lemma last_app {A} (l : list A) x y : List.last (l ++ [x]) y = x.
Proof. apply List.last_last. Qed.

(** The programs that store a key. *)
Lemma stored_elsewhere dir password key d d' path :
  Clean dir = dir -> IsAbs dir = true ->
  stored dir password key d d' path -> path_key path <> child dir "index.json".
Proof.
  intros Hc Ha [(time & n & -> & Hn & _ & Hs) _ _ _]. rewrite Join_key by (done || by apply absolute_nonempty).
  unfold child. intros [= E]. apply app_inj_tail in E as [_ ->]. vm_compute in Hs. discriminate.
Qed.

(** Both ways to add a key. *)
Definition adds_key (cfg : Config) (name : string) (m m' : machine) (r : result unit) : Prop :=
  CreateKey cfg name m = (m', r) \/ exists secret, importKey cfg name secret m = (m', r).

Lemma adds_key_index cfg dir name m m' r :
  keyDir cfg = Ok dir -> disk_ok (mc_disk m) -> adds_key cfg name m m' r ->
  (forall found, after (mc_disk m') found ->
     kept_index dir (mc_disk m) (text_at found (child dir "index.json")) \/
     exists path, new_index dir (mc_disk m) name path (text_at found (child dir "index.json"))) /\
  (r = Ok tt -> exists path, new_index dir (mc_disk m) name path (text_at (mc_disk m') (child dir "index.json"))).
Proof.
  intros Hdir Hok H. destruct (keyDir_clean _ _ Hdir) as [Hc Ha].
  assert (forall e, (m, Err e) = (m', r) ->
    (forall found, after (mc_disk m') found ->
       kept_index dir (mc_disk m) (text_at found (child dir "index.json")) \/
       exists path, new_index dir (mc_disk m) name path (text_at found (child dir "index.json"))) /\
    (r = Ok tt -> exists path, new_index dir (mc_disk m) name path (text_at (mc_disk m') (child dir "index.json"))))
    as Hsame.
  { intros e [= <- <-]. split; [|done]. intros found Hf. left. by exists found. }
  assert (key_file (List.last (child dir "index.json").2 "") = false) as Hik.
  { unfold child. cbn [snd]. by rewrite last_app. }
  destruct H as [H|[secret H]].
  - unfold CreateKey in H. destruct (validEVMKeyName name); cbn [negb] in H; [|by eapply Hsame].
    eapply (store_key_index cfg dir Hdir); [| |exact H|done].
    + intros pw P. by apply NewAccount_keeps.
    + intros pw d d' path Hs. apply NewAccount_stored in Hs as [key Hs]. by eapply stored_elsewhere.
  - unfold importKey in H. destruct (validEVMKeyName name); cbn [negb] in H; [|by eapply Hsame].
    cbv zeta in H. destruct (slen _ =? 64); cbn [negb] in H; [|by eapply Hsame].
    rewrite bind_run in H. unfold of_result in H at 1. destruct (wrapf _ _ _) as [key|e]; [|by eapply Hsame].
    eapply (store_key_index cfg dir Hdir); [| |exact H|done].
    + intros pw P. by apply ImportECDSA_keeps.
    + intros pw d d' path Hs. apply ImportECDSA_stored in Hs. by eapply stored_elsewhere.
Qed.

(** C31: creating or importing a key never loses or redirects another one: however
    the call ends and whatever a loss of power then leaves, the index file is as
    it could have been without the call, or it is the index that was read with the
    one new name, which was not in it; and it is the latter when the call
    succeeds. *)
Theorem index_keeps_keys cfg dir name m m' r :
  keyDir cfg = Ok dir -> disk_ok (mc_disk m) -> adds_key cfg name m m' r ->
  let index_file d := text_at d (child dir "index.json") in
  let extended t := exists index path,
    index_in (index_file (mc_disk m)) index /\ index !! name = None /\
    t = Some (MarshalIndent (index_json (<[name := path]> index))) /\
    (valid_utf8 name = true -> valid_utf8 path = true -> index_in t (<[name := path]> index)) in
  (forall found, after (mc_disk m') found ->
     (exists d0, after (mc_disk m) d0 /\ index_file found = index_file d0) \/ extended (index_file found)) /\
  (r = Ok tt -> extended (index_file (mc_disk m'))).
Proof.
  intros Hdir Hok H index_file extended.
  assert (forall path t, new_index dir (mc_disk m) name path t -> extended t) as Hext.
  { intros path t (index & Hi & En & Et). exists index, path. split_and!; [done..|]. intros Hn Hp. rewrite Et.
    apply index_printed_in, map_Forall_insert_2; [done|]. by eapply index_in_utf8. }
  destruct (adds_key_index _ _ _ _ _ _ Hdir Hok H) as [H1 H2]. split.
  - intros found Hf. destruct (H1 found Hf) as [?|[path Hp]]; [by left|right; by eapply Hext].
  - intros Hr. destruct (H2 Hr) as [path Hp]. by eapply Hext.
Qed.

(** ** Signing *)

Lemma user_address_text a :
  length a = 20%nat -> userAddressFromEVM ("0x" +:+ hex_encode a) = Ok (encodeBech32Address "inj" a).
Proof.
  intros Ha. unfold userAddressFromEVM. rewrite (parse_hex_text _ a); [done| |done].
  by rewrite ToLower_app, hex_encode_lower.
Qed.

Lemma derived_address_hex key : derived_address key = hex_encode (PubkeyToAddress key).
Proof.
  unfold derived_address. rewrite AddressHex_spec by apply length_PubkeyToAddress.
  by rewrite TrimPrefix_app.
Qed.

(** What [SignTransaction] makes with a key. *)
Definition sign_with (key : ecdsa_key) (tx : EVMTransaction) : result string :=
  let? unsigned := unsigned_tx tx in
  let? signed := wrapf "sign EVM transaction: %w" [] (SignTx unsigned (et_ChainID tx) key) in
  let? raw := wrapf "encode signed EVM transaction: %w" [] (MarshalBinary signed) in
  Ok ("0x" +:+ hex_encode raw).

(** The number that hexadecimal digits denote, by the place of each digit. *)
Definition place (c : ascii) : Z := match hex_value c with Some v => Z.of_N v | None => 0 end.
Fixpoint hex_number (digits : string) : Z :=
  match digits with
  | EmptyString => 0
  | String c rest => place c * 16 ^ Z.of_nat (String.length rest) + hex_number rest
  end.

Lemma hex_char_value c : is_hex_char c = true -> exists v, hex_value c = Some v /\ (v < 16)%N.
Proof.
  intros H. destruct (hex_value c) as [v|] eqn:E; [exists v; split; [done|by eapply hex_value_bound]|].
  unfold hex_value, is_hex_char in *. by destruct (is_digit c), (between 97 102 c), (between 65 70 c).
Qed.

Lemma hex_char_facts : forall c, is_hex_char c = true ->
  visible c = true /\ is_char "x" c = false /\ is_char "X" c = false /\
  is_char "-" c = false /\ is_char "+" c = false.
Proof.
  intros c. assert (implb (is_hex_char c) (visible c && negb (is_char "x" c) && negb (is_char "X" c) &&
    negb (is_char "-" c) && negb (is_char "+" c)) = true) as H by (revert c; all_ascii).
  intros Hc. rewrite Hc in H. cbn [implb] in H. bool_prop. done.
Qed.

Lemma hex_digits_number digits acc :
  all_chars is_hex_char digits = true ->
  hex_digits acc digits = Some (acc * 16 ^ Z.of_nat (String.length digits) + hex_number digits).
Proof.
  revert acc. induction digits as [|c digits IH]; intros acc Hd.
  - cbn. f_equal. lia.
  - cbn [all_chars] in Hd. apply andb_true_iff in Hd as [Hc Hd].
    destruct (hex_char_value _ Hc) as (v & Hv & _). cbn [hex_digits hex_number String.length].
    unfold place. rewrite Hv, IH by done. f_equal.
    rewrite Nat2Z.inj_succ, Z.pow_succ_r by lia. lia.
Qed.

Lemma be_value_fold b acc :
  fold_left (fun acc x => 256 * acc + Z.of_N (Byte.to_N x)) b acc =
    acc * 256 ^ Z.of_nat (length b) + be_value b.
Proof.
  unfold be_value. revert acc. induction b as [|x b IH]; intros acc; cbn [fold_left length]; [lia|].
  rewrite IH, (IH (256 * 0 + _)). rewrite Nat2Z.inj_succ, Z.pow_succ_r by lia. lia.
Qed.

Lemma be_value_range b : 0 <= be_value b < 256 ^ Z.of_nat (length b).
Proof.
  induction b as [|x b IH]; [done|]. unfold be_value. cbn [fold_left length].
  rewrite be_value_fold, Nat2Z.inj_succ, Z.pow_succ_r by lia.
  pose proof (Byte.to_N_bounded x). nia.
Qed.

Lemma hex_decode_number s b :
  hex_decode s = Some b -> be_value b = hex_number s /\ String.length s = (2 * length b)%nat.
Proof.
  revert b. remember (String.length s) as n eqn:Hn. revert s Hn.
  induction (lt_wf n) as [n _ IH]. intros [|a [|c s]] -> b; cbn [hex_decode]; [by intros [= <-]|done|].
  destruct (hex_value a) as [h|] eqn:Ha; [|done]. destruct (hex_value c) as [l|] eqn:Hc; [|done].
  destruct (hex_decode s) as [r|] eqn:Hr; [|done].
  destruct (Byte.of_N _) as [x|] eqn:Hx; [|done]. intros [= <-].
  destruct (IH (String.length s) ltac:(cbn; lia) s eq_refl r Hr) as [Hv Hl].
  apply Byte.to_of_N in Hx. unfold be_value. cbn [fold_left]. rewrite be_value_fold, Hv, Hx.
  cbn [hex_number String.length length]. unfold place. rewrite Ha, Hc. split; [|lia].
  rewrite Nat2Z.inj_succ, Z.pow_succ_r by lia.
  replace (Z.of_nat (String.length s)) with (2 * Z.of_nat (length r)) by lia.
  change 256 with (16 ^ 2). rewrite <- Z.pow_mul_r by lia. lia.
Qed.

(** What a quantity looks like: digits, with or without a prefix. *)
Definition quantity (text digits : string) : Prop :=
  all_chars is_hex_char digits = true /\
  exists prefix, prefix ∈ [""; "0x"; "0X"]%string /\ text = (prefix +:+ digits)%string.

Lemma prefixed_quantity digits :
  all_chars is_hex_char digits = true -> quantity ("0x" +:+ digits) digits.
Proof. intros H. split; [done|]. exists "0x"%string. split; [set_solver|done]. Qed.

Lemma all_hex_visible digits : all_chars is_hex_char digits = true -> all_chars visible digits = true.
Proof.
  induction digits as [|c digits IH]; [done|]. cbn [all_chars]. intros [Hc Hd]%andb_true_iff.
  apply andb_true_iff. split; [by apply hex_char_facts|by apply IH].
Qed.

Lemma no_prefix digits :
  all_chars is_hex_char digits = true ->
  TrimPrefix digits "0x" = digits /\ TrimPrefix digits "0X" = digits.
Proof.
  unfold TrimPrefix. destruct digits as [|a [|c s]]; [done| |].
  - intros _. cbn [cut_prefix]. by repeat case_match.
  - cbn [all_chars]. rewrite !andb_true_iff. intros (_ & Hc & _).
    destruct (hex_char_facts _ Hc) as (_ & Hx & HX & _). unfold is_char in *.
    split; destruct (cut_prefix _ _) as [t|] eqn:E; try done; apply cut_prefix_spec in E;
      injection E as _ -> _; done.
Qed.

Lemma quantity_trimmed text digits : quantity text digits -> trim_0x (TrimSpace text) = digits.
Proof.
  intros [Hd (prefix & Hp & ->)]. pose proof (all_hex_visible _ Hd) as Hv.
  destruct (no_prefix _ Hd) as [Hx HX]. unfold trim_0x.
  rewrite !elem_of_cons, elem_of_nil in Hp. destruct Hp as [->|[->|[->|[]]]].
  - rewrite TrimSpace_all_visible by done. change ("" +:+ digits)%string with digits. by rewrite Hx.
  - rewrite TrimSpace_all_visible by done. by rewrite TrimPrefix_app.
  - rewrite TrimSpace_all_visible by done.
    assert (TrimPrefix ("0X" +:+ digits) "0x" = ("0X" +:+ digits)%string) as -> by done.
    apply TrimPrefix_app.
Qed.

Lemma hex_char_zero : is_hex_char "0" = true.
Proof. done. Qed.

Lemma tx_value_number text digits :
  quantity text digits -> tx_value text = Ok (hex_number digits).
Proof.
  intros Hq. pose proof (quantity_trimmed _ _ Hq) as Ht. destruct Hq as [Hd _]. unfold tx_value.
  case_decide as Hb; [rewrite Hb in Ht; by rewrite <- Ht|]. cbv zeta. rewrite Ht.
  assert (forall s, s <> ""%string -> all_chars is_hex_char s = true ->
            big_SetString_hex s = Some (hex_number s)) as Hbig.
  { intros [|c s] Hs Ha; [done|]. unfold big_SetString_hex. cbn [all_chars] in Ha.
    pose proof Ha as [Hc _]%andb_true_iff. destruct (hex_char_facts _ Hc) as (_ & _ & _ & -> & ->).
    unfold some_hex_digits. rewrite decide_False by done. by rewrite hex_digits_number. }
  case_decide as He; [by rewrite He|]. by rewrite Hbig.
Qed.

Lemma parseHexUint_number text digits price :
  quantity text digits -> parseHexUint text = Ok price -> price = hex_number digits.
Proof.
  intros Hq. pose proof (quantity_trimmed _ _ Hq) as Ht. unfold parseHexUint. rewrite Ht.
  cbv zeta. case_decide as He; [intros [= <-]; by rewrite He|].
  destruct (16 <? slen digits) eqn:Hl; [done|]. apply Z.ltb_ge in Hl. cbv beta iota.
  destruct (hex_decode (normalizeOddHex digits)) as [b|] eqn:Eb; [|done]. intros [= <-].
  assert (hex_number (normalizeOddHex digits) = hex_number digits) as Hn.
  { unfold normalizeOddHex. destruct (_ =? 1); [|done].
    change (0 * 16 ^ Z.of_nat (String.length digits) + hex_number digits = hex_number digits). lia. }
  apply hex_decode_number in Eb as [Hb Hlen]. rewrite Hn in Hb. rewrite Hb. apply u64_small.
  rewrite <- Hb. assert (length b <= 8)%nat as H8.
  { unfold normalizeOddHex in Hlen. destruct (Z.eqb_spec (slen digits mod 2) 1) as [Ho|Ho].
    - change (S (String.length digits) = (2 * length b)%nat) in Hlen. unfold slen in *.
      assert (String.length digits <> 16%nat) by (intros E; rewrite E in Ho; done). lia.
    - unfold slen in *. lia. }
  pose proof (be_value_range b) as Hr. split; [lia|].
  apply Z.lt_le_trans with (256 ^ Z.of_nat (length b)); [lia|].
  change (2 ^ 64) with (256 ^ 8). apply Z.pow_le_mono_r; lia.
Qed.

(** What becomes of the texts that the transactor prepares: value and price are
    the numbers that their hexadecimal digits denote. *)
Definition carries (tx : EVMTransaction) (unsigned : LegacyTx) : Prop :=
  lt_Nonce unsigned = et_Nonce tx /\ lt_Gas unsigned = et_GasLimit tx /\
  (forall data, et_Data tx = ("0x" +:+ hex_encode data)%string -> lt_Data unsigned = data) /\
  (forall a, length a = 20%nat -> ToLower (et_To tx) = ("0x" +:+ hex_encode a)%string ->
     lt_To unsigned = Some a) /\
  (TrimSpace (et_To tx) = ""%string -> lt_To unsigned = None) /\
  (TrimSpace (et_Value tx) = ""%string -> lt_Value unsigned = 0) /\
  (forall digits, quantity (et_Value tx) digits -> lt_Value unsigned = hex_number digits) /\
  (forall digits, quantity (et_GasPrice tx) digits -> lt_GasPrice unsigned = hex_number digits).

Lemma unsigned_carries tx unsigned : unsigned_tx tx = Ok unsigned -> carries tx unsigned.
Proof.
  unfold unsigned_tx. intros H. go_inv H. subst unsigned. apply wrapf_ok in Hc1. unfold carries.
  cbn [lt_Nonce lt_Gas lt_Data lt_To lt_Value lt_GasPrice]. split_and!; try done.
  - intros data E. rewrite E, decodeHexBytes_text in Hc0. by injection Hc0.
  - intros b Hb E. unfold tx_destination in Hc. destruct (decide _) as [Et|_].
    + exfalso. revert Et. apply TrimSpace_visible. apply lower_0x in E as (d & [-> | ->] & _); done.
    + rewrite (normalize_hex_text _ _ E Hb) in Hc. cbn [wrapf] in Hc. rewrite TrimPrefix_app in Hc.
      injection Hc as <-. f_equal. apply HexToAddress_bare; [apply hex_decode_encode|done].
  - intros E. unfold tx_destination in Hc. rewrite E in Hc. by injection Hc.
  - intros E. unfold tx_value in Hc2. rewrite E in Hc2. by injection Hc2.
  - intros digits Hq. rewrite (tx_value_number _ _ Hq) in Hc2. by injection Hc2.
  - intros digits Hq. by eapply parseHexUint_number.
Qed.

(** C33: what [SignTransaction] returns is signed with the key of the account that
    [OwnerAddress] reports from the same files, for the chain, nonce and gas limit
    of the transaction that was asked for and for what its texts denote: the
    bytes of the data, the address of the destination (none when it is blank) and
    the numbers whose hexadecimal digits the value and the gas price are. *)
Theorem signed_by_owner cfg cancelled tx m m' text :
  0 < et_ChainID tx -> keystore_SignTransaction cfg cancelled tx m = (m', Ok text) ->
  cancelled = None /\
  exists raw unsigned sender owner d,
    text = ("0x" +:+ hex_encode raw)%string /\ carries tx unsigned /\
    Sender raw = Some (unsigned, et_ChainID tx, sender) /\
    keystore_OwnerAddress cfg (mc_disk m) = (d, Ok owner) /\
    owner = encodeBech32Address "inj" sender.
Proof.
  intros Hchain H. unfold keystore_SignTransaction in H. destruct cancelled; [done|]. split; [done|].
  apply bind_run_ok in H as (m1 & path & [Hpath _]%on_disk_ok & H).
  apply bind_run_ok in H as (m2 & expected & [Hexp _]%on_disk_ok & H).
  apply bind_run_ok in H as (m3 & password & _ & H). apply bind_run_ok in H as (m4 & data & _ & H).
  apply bind_run_ok in H as (m5 & decrypted & _ & H). destruct decrypted as [key|]; [|done].
  destruct (bool_decide _) eqn:Ea; [|done]. cbn [negb] in H. apply bool_decide_eq_true in Ea.
  apply bind_run_ok in H as (m6 & unsigned & Hu & H). injection Hu as _ Hu.
  apply bind_run_ok in H as (m7 & signed & Hs & H). injection Hs as _ Hs. apply wrapf_ok in Hs.
  apply bind_run_ok in H as (m8 & raw & Hr & H). injection Hr as _ Hr. apply wrapf_ok in Hr.
  injection H as _ <-. exists raw, unsigned, (PubkeyToAddress key), (encodeBech32Address "inj" (PubkeyToAddress key)), (mc_disk m2).
  split_and!; [done|by apply unsigned_carries|by eapply Sender_signed| |done].
  unfold keystore_OwnerAddress. rewrite bind_run, Hpath, bind_run, Hexp. unfold of_result.
  rewrite <- Ea, derived_address_hex. by rewrite user_address_text by apply length_PubkeyToAddress.
Qed.

(** ** Using a key that was created *)

(** The next [n] times the password is [password]. *)
Definition answers (password : string) (n : nat) (terminal : list prompt) : Prop :=
  password <> ""%string /\
  (Getenv "IGIT_EVM_KEY_PASSWORD" = password \/
   Getenv "IGIT_EVM_KEY_PASSWORD" = ""%string /\
   exists rest, terminal = repeat (Typed_in password) n ++ rest).

Lemma password_read password n m :
  answers password (S n) (mc_terminal m) ->
  exists m', readEVMKeystorePassword m = (m', Ok password) /\ mc_disk m' = mc_disk m /\
    answers password n (mc_terminal m').
Proof.
  intros [Hp [He|[He [rest Ht]]]]; unfold readEVMKeystorePassword; cbv zeta; rewrite He.
  - rewrite decide_True by done. exists m. split_and!; [done|done|]. split; [done|by left].
  - rewrite decide_False by (by intros H; apply H). rewrite bind_run. unfold next_prompt. rewrite Ht. cbn [repeat app].
    exists (mk_machine (mc_disk m) (repeat (Typed_in password) n ++ rest)). unfold of_result, keyPassword.
    rewrite He, decide_False by (by intros H; apply H). cbv zeta. rewrite bool_decide_eq_false_2 by done.
    split_and!; [done|done|]. split; [done|]. right. split; [done|by exists rest].
Qed.

Lemma password_confirmed password m m' p :
  answers password 2 (mc_terminal m) -> confirmed_password m = (m', Ok p) -> p = password.
Proof.
  intros Ha H. destruct (password_read _ _ _ Ha) as (m1 & E & _). unfold confirmed_password in H.
  rewrite bind_run, E in H. apply bind_run_ok in H as (m2 & [] & _ & H). by injection H.
Qed.

(** A key file in the keystore directory that the index names. *)
Record installed (dir name password : string) (key : ecdsa_key) (d : disk) : Prop := {
  in_directory : kind_at d (path_key dir) = Some KDirectory;
  in_key : exists time base text index,
    plain_segment base = true /\
    split_dashes base = ["UTC"%string; time; hex_encode (PubkeyToAddress key)] /\
    text_at d (child dir base) = Some text /\
    DecryptKey text password = Ok (Some key) /\
    metadata_address text = Ok (hex_encode (PubkeyToAddress key)) /\
    index_utf8 index /\ index !! name = Some (filepath_Join dir base) /\
    text_at d (child dir "index.json") = Some (MarshalIndent (index_json index)) }.

Section Use.
Variables (cfg : Config) (dir password : string) (key : ecdsa_key).
Hypothesis dir_known : keyDir cfg = Ok dir.
Hypothesis name_valid : validEVMKeyName (cf_KeyName cfg) = true.

Lemma keyPath_fine d :
  live d -> installed dir (cf_KeyName cfg) password key d ->
  exists base time text d', keyPath cfg d = (d', Ok (filepath_Join dir base)) /\
    live d' /\ same_files d d' /\ plain_segment base = true /\
    split_dashes base = ["UTC"%string; time; hex_encode (PubkeyToAddress key)] /\
    text_at d' (path_key (filepath_Join dir base)) = Some text /\
    DecryptKey text password = Ok (Some key) /\
    metadata_address text = Ok (hex_encode (PubkeyToAddress key)).
Proof.
  intros Hd [Hk (time & base & text & index & Hb & Hs & Ht & Hdec & Hm & Hu & Hi & Htext)].
  destruct (dir_fine cfg dir dir_known) as (Hc & Ha & Hne).
  exists base, time, text. unfold keyPath. rewrite name_valid, dir_known. cbn [negb].
  rewrite bind_run. unfold of_result at 1. rewrite bind_run. unfold attempt.
  destruct (ProtectDirectory_fine _ _ Hd Hk) as (d1 & -> & Hd1 & Hs1). rewrite bind_run.
  change ((mret tt : prog disk unit) d1) with (d1, @Ok unit tt). cbv beta iota.
  destruct (readEVMKeyIndex_fine (filepath_Join dir evmKeyIndexFile) d1 (MarshalIndent (index_json index)) (Some index) Hd1)
    as (d2 & E2 & Hd2 & Hs2).
  { rewrite Join_key by done. rewrite (proj1 Hs1). exact Htext. }
  { by apply decode_index_printed. }
  rewrite bind_run, E2. cbn [default]. unfold id. rewrite Hi. cbn [default]. cbv zeta. unfold id.
  assert (IsAbs (filepath_Join dir base) = true) as Habs by by apply Join_absolute.
  rewrite decide_False by by apply blank_absolute. rewrite Habs.
  rewrite bind_run. unfold of_result at 1. rewrite filepath_Abs_id by (done || by apply Join_clean).
  rewrite bind_run. unfold of_result. rewrite filepath_Abs_id by done.
  rewrite (proj1 (Dir_Join dir base Hc Ha Hb)), bool_decide_eq_true_2 by done. cbn [negb].
  rewrite bind_run, wrap_error_run.
  destruct (ProtectFile_fine (filepath_Join dir base) d2 text Hd2) as (d3 & -> & Hd3 & Hs3).
  { rewrite Join_key by done. rewrite (proj1 Hs2), (proj1 Hs1). exact Ht. }
  exists d3. split; [done|]. split; [done|].
  assert (same_files d d3) as Hall by (eapply same_files_trans; [|exact Hs3]; by eapply same_files_trans).
  split_and!; [exact Hall|done|done| |done|done].
  rewrite Join_key by done. rewrite (proj1 Hall). exact Ht.
Qed.

Lemma indexedEVMAddress_fine d base time text :
  live d -> plain_segment base = true ->
  split_dashes base = ["UTC"%string; time; hex_encode (PubkeyToAddress key)] ->
  text_at d (path_key (filepath_Join dir base)) = Some text ->
  metadata_address text = Ok (hex_encode (PubkeyToAddress key)) ->
  indexedEVMAddress (filepath_Join dir base) d = (d, Ok (hex_encode (PubkeyToAddress key))).
Proof.
  intros Hd Hb Hs Ht Hm. destruct (dir_fine cfg dir dir_known) as (Hc & Ha & Hne).
  pose proof (length_PubkeyToAddress key) as Hl. set (a := PubkeyToAddress key) in *.
  assert (wide_ToLower (hex_encode a) = hex_encode a) as Hw.
  { unfold wide_ToLower. rewrite (all_chars_impl visible); [apply hex_encode_lower| |apply hex_encode_visible].
    intros c. revert c. assert (forall c, negb (visible c) || ascii_char c = true) as Hv by all_ascii.
    intros c Hcc. specialize (Hv c). by rewrite Hcc in Hv. }
  assert (slen (hex_encode a) =? 40 = true) as H40 by (rewrite slen_hex_encode; unfold llen; lia).
  unfold indexedEVMAddress. rewrite (proj2 (Dir_Join dir base Hc Ha Hb)), Hs.
  cbn [length Nat.ltb Nat.leb list.last default]. unfold id. cbv zeta. rewrite Hw, H40. cbn [negb].
  rewrite bind_run. unfold of_result at 1. rewrite decodeHexBytes_text. cbn [wrapf].
  rewrite bind_run, wrap_error_run, (ReadFile_fine _ _ _ Hd Ht). cbn [fst snd wrapf].
  rewrite bind_run. unfold of_result at 1. rewrite Hm. cbn [wrapf].
  rewrite TrimSpace_all_visible by apply hex_encode_visible. rewrite Hw, hex_no_prefix, H40. cbn [negb].
  rewrite bind_run. unfold of_result. rewrite decodeHexBytes_text. cbn [wrapf].
  by rewrite bool_decide_eq_true_2.
Qed.

Lemma OwnerAddress_fine d :
  live d -> installed dir (cf_KeyName cfg) password key d ->
  exists d', keystore_OwnerAddress cfg d = (d', Ok (encodeBech32Address "inj" (PubkeyToAddress key))).
Proof.
  intros Hd Hi. destruct (keyPath_fine d Hd Hi) as (base & time & text & d1 & E & Hd1 & _ & Hb & Hs & Ht & _ & Hm).
  exists d1. unfold keystore_OwnerAddress.
  rewrite bind_run, E, bind_run, (indexedEVMAddress_fine d1 base time text) by done. unfold of_result.
  by rewrite user_address_text by apply length_PubkeyToAddress.
Qed.

Lemma SignTransaction_fine m tx :
  live (mc_disk m) -> installed dir (cf_KeyName cfg) password key (mc_disk m) ->
  answers password 1 (mc_terminal m) ->
  exists m', keystore_SignTransaction cfg None tx m = (m', sign_with key tx).
Proof.
  intros Hd Hi Hp.
  destruct (keyPath_fine _ Hd Hi) as (base & time & text & d1 & E & Hd1 & _ & Hb & Hs & Ht & Hdec & Hm).
  unfold keystore_SignTransaction. rewrite bind_run, on_disk_run, E. cbn [fst snd].
  rewrite bind_run, on_disk_run. cbn [mc_disk mc_terminal].
  rewrite (indexedEVMAddress_fine d1 base time text) by done. cbn [fst snd].
  destruct (password_read password 0 (mk_machine d1 (mc_terminal m)) Hp) as (m1 & E1 & Hm1 & _).
  cbn [mc_disk] in Hm1. rewrite bind_run, E1, bind_run, on_disk_run, wrap_error_run, Hm1.
  rewrite (ReadFile_fine _ _ _ Hd1 Ht). cbn [fst snd wrapf].
  rewrite bind_run. unfold of_result at 1. rewrite Hdec. cbn [wrapf].
  rewrite derived_address_hex, bool_decide_eq_true_2 by done. cbn [negb].
  unfold sign_with, of_result. rewrite bind_run. destruct (unsigned_tx tx) as [u|]; [|by eexists].
  rewrite bind_run. destruct (wrapf _ _ (SignTx _ _ _)) as [s|]; [|by eexists].
  rewrite bind_run. destruct (wrapf _ _ (MarshalBinary _)) as [raw|]; by eexists.
Qed.
End Use.

(** *** The run that creates it *)

Lemma live_readEVMKeyIndex path : keeps live (readEVMKeyIndex path).
Proof. apply keeps_readEVMKeyIndex; [apply live_Lstat|apply live_ProtectFile|apply live_ReadFile]. Qed.

Lemma same_files_readEVMKeyIndex d0 path : keeps (same_files d0) (readEVMKeyIndex path).
Proof.
  apply keeps_readEVMKeyIndex; [apply keeps_same_files_Lstat|apply keeps_same_files_ProtectFile|
    apply keeps_same_files_ReadFile].
Qed.

Lemma keeps_ok {S A} (P : S -> Prop) (c : prog S A) s s' a : keeps P c -> P s -> c s = (s', Ok a) -> P s'.
Proof. intros Hc Hs E. specialize (Hc s Hs). by rewrite E in Hc. Qed.

Section Created.
Variables (cfg : Config) (dir : string).
Hypothesis dir_known : keyDir cfg = Ok dir.
Variables (name failure : string) (store : string -> string -> prog disk string) (which : ecdsa_key -> Prop).
Hypothesis store_keeps : forall password P, keeps (kept (child dir "index.json") P) (store dir password).
Hypothesis store_stored : forall password d d' path,
  store dir password d = (d', Ok path) -> exists key, which key /\ stored dir password key d d' path.

Lemma stored_installed password m m1 :
  valid_utf8 dir = true -> valid_utf8 name = true -> disk_ok (mc_disk m) -> live (mc_disk m) ->
  answers password 2 (mc_terminal m) -> store_key cfg name failure store m = (m1, Ok tt) ->
  exists key, which key /\ live (mc_disk m1) /\ installed dir name password key (mc_disk m1).
Proof.
  intros Hud Hun Hok Hl Hp H. destruct (dir_fine cfg dir dir_known) as (Hc & Ha & Hne).
  assert (forall pw d d' path, store dir pw d = (d', Ok path) -> path_key path <> child dir "index.json") as Helse.
  { intros pw d d' path (key & _ & Hs)%store_stored. by eapply stored_elsewhere. }
  destruct (store_key_run cfg dir dir_known name failure store store_keeps Helse _ _ _ H Hok)
    as [[_ [e He]]|(index & pw & path & d1 & d2 & m0 & m2 & Hprep & Hi & _ & Hpw & (d3 & Hst & Hpr) & [Hok2 _] & Hw)];
    [done|].
  apply (password_confirmed password) in Hpw as ->; [|exact Hp].
  apply bind_run_ok in Hprep as (da & [] & Hmk%wrap_error_ok & Hpd%wrap_error_ok).
  pose proof (keeps_ok live _ _ _ _ (live_mkdir_all _ _ _) Hl Hmk) as Hla.
  pose proof (keeps_ok live _ _ _ _ (live_ProtectDirectory _) Hla Hpd) as Hl1.
  pose proof (keeps_ok live _ _ _ _ (live_readEVMKeyIndex _) Hl1 Hi) as Hl2.
  apply ProtectDirectory_done in Hpd.
  pose proof (keeps_ok _ _ _ _ _ (same_files_readEVMKeyIndex d1 _) (same_files_refl d1) Hi) as Hs2.
  destruct (store_stored _ _ _ _ Hst) as (key & Hkey & Hstored).
  destruct Hstored as [(time & base & -> & Hb & Hub & Hsplit) (mode & text & Hlook & Hdec & Hm) Hothers Hlive].
  pose proof (keeps_ok live _ _ _ _ (live_ProtectFile _) (Hlive Hl2) Hpr) as Hl4.
  pose proof (keeps_ok _ _ _ _ _ (keeps_same_files_ProtectFile d3 _) (same_files_refl d3) Hpr) as Hs4.
  assert (index_utf8 index) as Hui by (eapply (index_in_utf8 _), readEVMKeyIndex_ok; [reflexivity|reflexivity|exact Hi]).
  apply on_disk_ok in Hw as [Hw%wrap_error_ok _].
  pose proof (keeps_ok live _ _ _ _ (live_WriteFile _ _) Hl4 Hw) as Hl5.
  destruct (write_file_done _ _ _ _ _ _ _ Hok2 (index_file_path cfg dir dir_known) Hw) as [Hnew Hsame].
  exists key. split; [done|]. split; [done|]. split.
  - assert (kind_at d2 (path_key dir) = Some KDirectory) as Hk2 by by rewrite (proj2 Hs2).
    unfold kind_at in Hk2. destruct (look d2 (path_key dir)) as [x|] eqn:El2; [|done].
    assert (kind_at d3 (path_key dir) = Some KDirectory) as Hk3.
    { unfold kind_at. by rewrite (Hothers _ _ El2). }
    unfold kind_at. rewrite Hsame.
    + rewrite <- Hk3, <- (proj2 Hs4). done.
    + intros E. apply (f_equal (fun q => length q.2)) in E. cbn in E. rewrite length_app in E. cbn in E. lia.
  - exists time, base, text, (<[name := filepath_Join dir base]> index).
    split_and!; [done|done| |done|done| |by rewrite lookup_insert_eq|].
    + assert (child dir base <> child dir "index.json") as Hne'.
      { unfold child at 1. rewrite <- (Join_key dir base) by done. exact (Helse _ _ _ _ Hst). }
      assert (text_at (mc_disk m2) (child dir base) = Some text) as Ht.
      { rewrite (proj1 Hs4). rewrite Join_key in Hlook by done. unfold text_at, child. by rewrite Hlook. }
      rewrite <- Ht. unfold text_at, child. by rewrite Hsame.
    + apply map_Forall_insert_2; [|done]. split; [done|]. by apply Join_utf8.
    + unfold text_at, child. by rewrite Hnew.
Qed.
End Created.

(** C32: a key that was created or imported can be used: the signer then reports
    the account of the key, and with the same password it signs every transaction
    with it. *)
Theorem created_key_signs cfg dir name password m m1 :
  keyDir cfg = Ok dir -> valid_utf8 dir = true -> valid_utf8 name = true -> cf_KeyName cfg = name ->
  disk_ok (mc_disk m) -> live (mc_disk m) -> answers password 2 (mc_terminal m) ->
  adds_key cfg name m m1 (Ok tt) ->
  exists key,
    (CreateKey cfg name m = (m1, Ok tt) \/
     exists secret, HexToECDSA (trim_0x (TrimSpace secret)) = Ok key /\
       importKey cfg name secret m = (m1, Ok tt)) /\
    (exists d, keystore_OwnerAddress cfg (mc_disk m1) =
       (d, Ok (encodeBech32Address "inj" (PubkeyToAddress key)))) /\
    forall m2 tx, mc_disk m2 = mc_disk m1 -> answers password 1 (mc_terminal m2) ->
      exists m3, keystore_SignTransaction cfg None tx m2 = (m3, sign_with key tx).
Proof.
  intros Hdir Hud Hun Hname Hok Hl Hp H.
  assert (key_file (List.last (child dir "index.json").2 "") = false) as Hik.
  { unfold child. cbn [snd]. by rewrite last_app. }
  enough (exists key, (CreateKey cfg name m = (m1, Ok tt) \/
     exists secret, HexToECDSA (trim_0x (TrimSpace secret)) = Ok key /\
       importKey cfg name secret m = (m1, Ok tt)) /\
     live (mc_disk m1) /\ installed dir name password key (mc_disk m1) /\ validEVMKeyName name = true)
    as (key & Hkey & Hl1 & Hi & Hv).
  { subst name. exists key. split; [done|]. split; [by eapply OwnerAddress_fine|].
    intros m2 tx Hd Ha. apply (SignTransaction_fine cfg dir password key Hdir Hv); by rewrite ?Hd. }
  destruct H as [H|[secret H]].
  - pose proof H as Hc. unfold CreateKey in H. destruct (validEVMKeyName name) eqn:Hv; [|done]. cbn [negb] in H.
    destruct (stored_installed cfg dir Hdir name "create encrypted EVM key: %w" NewAccount (fun _ => True))
      with (password := password) (m := m) (m1 := m1) as (key & _ & Hl1 & Hi); try done.
    + intros pw P. by apply NewAccount_keeps.
    + intros pw d d' path (key & Hs)%NewAccount_stored. by exists key.
    + exists key. split_and!; [by left|done..].
  - pose proof H as Hc. unfold importKey in H. destruct (validEVMKeyName name) eqn:Hv; [|done]. cbn [negb] in H.
    cbv zeta in H. destruct (slen _ =? 64); [|done]. cbn [negb] in H.
    apply bind_run_ok in H as (m' & key & Hk & H). injection Hk as <- Hk. apply wrapf_ok in Hk.
    destruct (stored_installed cfg dir Hdir name "import encrypted EVM key: %w" (fun dir => ImportECDSA dir key) (eq key))
      with (password := password) (m := m) (m1 := m1) as (key' & <- & Hl1 & Hi); try done.
    + intros pw P. by apply ImportECDSA_keeps.
    + intros pw d d' path Hs%ImportECDSA_stored. by exists key.
    + exists key. split_and!; [right; by exists secret|done..].
Qed.

End KeystoreProps.

(** ** A keystore

    Two keys and the files they are stored in: a file has the address, and the
    password in the place of what it encrypts. *)

Module Wallet.
Import SampleGeth.

#[local] Instance wallet_environment : Environment :=
  { Getenv name := if decide (name = "IGIT_HOME"%string) then "/home" else "" }.
#[local] Instance wallet_case : UnicodeCase := { wide_lower s := s }.
#[local] Instance wallet_directory : WorkingDirectory := { Getwd := Ok "/"%string }.
#[local] Instance wallet_directory_laws : WorkingDirectoryLaws.
Proof. split. by intros wd [= <-]. Qed.

Definition wallet_address (key : bool) : bytes := repeat (if key then Byte.x0a else Byte.x0b) 20.
Definition wallet_file (key : bool) : string := "UTC--2024-01-01--" +:+ hex_encode (wallet_address key).
Definition wallet_text (key : bool) (password : string) : string :=
  MarshalIndent (JObject [text_member "address" (hex_encode (wallet_address key)); text_member "crypto" password]).

Definition open_text (text password : string) : result (option bool) :=
  let? v := Unmarshal text in
  let? ms := struct_members v in
  let? address := string_field "address" "" ms in
  let? crypto := string_field "crypto" "" ms in
  if decide (crypto = password)
  then Ok (list_find (fun key => hex_encode (wallet_address key) = address) [true; false] ≫= fun x => Some (snd x))
  else errf "could not decrypt key with given password" [].

(** The file is written under its name at once, and only when it can be opened. *)
Definition store_text (dir : string) (key : bool) (password : string) : prog disk string := fun d =>
  let path := filepath_Join dir (wallet_file key) in
  let text := wallet_text key password in
  let i := dk_next d in
  if bool_decide (dir = ""%string) || bool_decide (tb_names (dk_table d) !! path_key path <> None) ||
     negb (is_directory (dk_table d) (parent_key (path_key path))) ||
     negb (bool_decide (map_Forall (fun _ j => j < i) (tb_names (dk_table d)))) ||
     negb (match open_text text password with Ok (Some k) => Bool.eqb k key | _ => false end) ||
     negb (match metadata_address text with
           | Ok a => bool_decide (a = hex_encode (wallet_address key)) | Err _ => false end)
  then (d, errf "cannot store %s" [GStr path])
  else let d' := create (path_key path) (mk_inode KFile mode_0600) d in
       (with_contents (<[i := mk_contents text ""]> (dk_contents d')) d', Ok path).

(** A signed transaction: its fields, the chain and who signed it. *)
#[local] Instance LegacyTx_eq_dec : EqDecision LegacyTx.
Proof. solve_decision. Defined.

Definition signed_fields : list abi_type :=
  [TUint 64; TBool; TBytes; TUint 256; TUint 64; TUint 256; TBytes; TUint 256; TBytes].

Definition sign_text (tx : LegacyTx) (chain : Z) (signer : bytes) : bytes :=
  put_all signed_fields
    [VUint (lt_Nonce tx); VBool (bool_decide (is_Some (lt_To tx))); VBytes (default [] (lt_To tx));
     VUint (lt_Value tx); VUint (lt_Gas tx); VUint (lt_GasPrice tx); VBytes (lt_Data tx);
     VUint chain; VBytes signer].

Definition read_signed (raw : bytes) : option (LegacyTx * Z * bytes) :=
  match get_all signed_fields raw with
  | Some ([VUint nonce; VBool to; VBytes a; VUint value; VUint gas; VUint price; VBytes data;
           VUint chain; VBytes signer], _) =>
      Some (mk_LegacyTx nonce (if to then Some a else None) value gas price data, chain, signer)
  | _ => None
  end.

#[local] Instance wallet_keys : Keys := {
  ecdsa_key := bool;
  HexToECDSA raw := Ok (HasPrefix raw "1");
  PubkeyToAddress := wallet_address;
  NewAccount dir password := store_text dir true password;
  ImportECDSA dir key password := store_text dir key password;
  DecryptKey := open_text;
  signed_tx := bytes;
  SignTx tx chain key :=
    let raw := sign_text tx chain (wallet_address key) in
    if bool_decide (read_signed raw = Some (tx, chain, wallet_address key)) then Ok raw
    else errf "value out of range" [];
  MarshalBinary raw := Ok raw }.

Lemma wallet_file_ok key :
  plain_segment (wallet_file key) = true /\ valid_utf8 (wallet_file key) = true /\
  key_file (wallet_file key) = true /\
  split_dashes (wallet_file key) = ["UTC"; "2024-01-01"; hex_encode (wallet_address key)]%string.
Proof. by destruct key. Qed.

Lemma store_text_run dir key password d :
  (exists e, store_text dir key password d = (d, Err e)) \/
  let path := filepath_Join dir (wallet_file key) in
  let k := path_key path in
  let text := wallet_text key password in
  let d' := create k (mk_inode KFile mode_0600) d in
  store_text dir key password d =
    (with_contents (<[dk_next d := mk_contents text ""]> (dk_contents d')) d', Ok path) /\
  dir <> ""%string /\ tb_names (dk_table d) !! k = None /\
  map_Forall (fun _ j => j < dk_next d) (tb_names (dk_table d)) /\
  open_text text password = Ok (Some key) /\
  metadata_address text = Ok (hex_encode (wallet_address key)).
Proof.
  unfold store_text. cbv zeta. case_match eqn:E; [left; by eexists|]. right.
  apply orb_false_iff in E as [E Em%negb_false_iff]. apply orb_false_iff in E as [E Eo%negb_false_iff].
  apply orb_false_iff in E as [E Ef%negb_false_iff]. apply orb_false_iff in E as [E _].
  apply orb_false_iff in E as [Ed En]. apply bool_decide_eq_false in Ed, En. apply bool_decide_eq_true in Ef.
  destruct (open_text _ _) as [[k|]|]; try done. apply Bool.eqb_prop in Eo as ->.
  destruct (metadata_address _); [|done]. apply bool_decide_eq_true in Em as ->.
  split_and!; try done. apply dec_stable. done.
Qed.

Lemma wallet_child dir key : dir <> ""%string ->
  path_key (filepath_Join dir (wallet_file key)) = child dir (wallet_file key).
Proof. intros H. apply Join_key; [done|apply wallet_file_ok]. Qed.

Lemma store_text_keeps dir key password k P :
  key_file (List.last k.2 "") = false -> keeps (kept k P) (store_text dir key password).
Proof.
  intros Hk d Hd. destruct (store_text_run dir key password d) as [[e ->]|(-> & Hne & _)]; [done|]. cbn [fst].
  assert (path_key (filepath_Join dir (wallet_file key)) <> k) as Hq.
  { rewrite wallet_child by done. intros <-. unfold child in Hk. cbn [snd] in Hk. rewrite last_app in Hk.
    destruct (wallet_file_ok key) as (_ & _ & Hkf & _). congruence. }
  apply kept_contents.
  - by apply kept_create.
  - cbn. lia.
  - intros t [->|Ht]%elem_of_cons; cbn; rewrite ?lookup_insert_ne by done; intros Hi.
    + destruct Hd as [[H1 _] _]. apply (H1 (dk_table d)) in Hi; [lia|by left].
    + destruct Hd as [[H1 _] _]. apply (H1 t) in Hi; [lia|done].
Qed.

Lemma store_text_stored dir key password d d' path :
  store_text dir key password d = (d', Ok path) -> stored dir password key d d' path.
Proof.
  destruct (store_text_run dir key password d) as [[e ->]|(-> & Hne & Hn & Hf & Ho & Hm)]; [done|].
  intros [= <- <-]. destruct (wallet_file_ok key) as (Hp & Hu & _ & Hs). split.
  - exists "2024-01-01"%string, (wallet_file key). done.
  - exists mode_0600, (wallet_text key password). split; [|done].
    generalize (wallet_text key password). intros text.
    unfold look, inode_at. cbn. rewrite lookup_insert_eq. cbn. rewrite lookup_insert_eq. cbn.
    rewrite lookup_insert_eq. cbn. unfold ct_text. cbn. by rewrite str_app_nil.
  - intros q x. unfold look, inode_at. cbn. intros Hx.
    destruct (tb_names (dk_table d) !! q) as [j|] eqn:Eq; [|done].
    rewrite lookup_insert_ne by congruence. rewrite Eq. cbn in *.
    assert (j < dk_next d) by (by eapply Hf). rewrite lookup_insert_ne by lia.
    destruct (tb_inodes (dk_table d) !! j) as [n|]; [|done]. cbn in *. by rewrite !lookup_insert_ne by lia.
  - done.
Qed.

#[local] Instance wallet_keys_laws : KeysLaws.
Proof.
  unshelve econstructor; [exact read_signed|..].
  - by intros [].
  - intros. by apply store_text_keeps.
  - intros. by apply store_text_keeps.
  - intros dir password d d' path H. exists true. by apply store_text_stored.
  - intros. by apply store_text_stored.
  - intros tx chain key s raw _ Hs [= <-]. unfold SignTx, wallet_keys in Hs.
    case_bool_decide as E; [|done]. by injection Hs as <-.
Defined.

Definition wallet_config : Config := {|
  cf_owned := cf_owned Defaults; cf_legacy := cf_legacy Defaults; cf_EVMKeystoreDir := "/keys";
  cf_KeyName := "alice"; cf_KeyringBackend := ""; cf_InjectivedBin := ""; cf_GasPrices := "";
  cf_IPFSAPI := ""; cf_IPFSBin := ""; cf_IPFSGateway := ""; cf_Gateways := None;
  cf_Upload := cf_Upload Defaults; cf_PublicGatewayFallbacks := None |}.

(** A root directory, and a terminal on which a password is typed. *)
Definition new_home : disk :=
  mk_disk (mk_table {[ (true, []) := 0 ]} {[ 0 := mk_inode KDirectory mode_0700 ]})
    [] {[ 0 := mk_contents "" "" ]} 1 0 [] [] false.
Definition at_terminal (d : disk) : machine := mk_machine d (repeat (Typed_in "correct horse") 3).

Definition creation : machine * result unit := CreateKey wallet_config "alice" (at_terminal new_home).

Definition payment : EVMTransaction :=
  mk_EVMTransaction 1776 7 "0x00000000000000000000000000000000000000aa" "0x0102" 21000 "0x9" "0x1F".

Lemma new_home_ok : disk_ok new_home /\ live new_home.
Proof.
  split; [|done]. split.
  - intros t k i [->|H]%elem_of_cons Hi; [|by apply elem_of_nil in H].
    cbn in Hi. change (({[ (true, []) := 0 ]} : gmap FileSystem.key Z) !! k = Some i) in Hi.
    apply lookup_singleton_Some in Hi as [_ <-]. done.
  - intros i c Hi. change (({[ 0 := mk_contents "" "" ]} : gmap Z contents) !! i = Some c) in Hi.
    apply lookup_singleton_Some in Hi as [<- _]. done.
Qed.

Lemma keys_directory : keyDir wallet_config = Ok "/keys"%string.
Proof. by vm_compute. Qed.

Lemma created : creation.2 = Ok tt.
Proof.
  assert (is_ok creation.2 = true) as H by (vm_compute; reflexivity).
  by destruct creation.2 as [[]|].
Qed.

Lemma index_keeps_keys_witness :
  exists index path, index_in None index /\ index !! "alice"%string = None /\
    text_at (mc_disk creation.1) (child "/keys" "index.json") =
      Some (MarshalIndent (index_json (<["alice"%string := path]> index))).
Proof.
  destruct (index_keeps_keys wallet_config "/keys" "alice" (at_terminal new_home) creation.1 creation.2
    keys_directory (proj1 new_home_ok)) as [_ H].
  - left. unfold creation. by destruct (CreateKey _ _ _).
  - destruct (H created) as (index & path & Hi & Hn & Ht & _). exists index, path.
    split; [exact Hi|]. by split.
Defined.

Lemma created_key_signs_witness :
  exists key, CreateKey wallet_config "alice" (at_terminal new_home) = (creation.1, Ok tt) /\
    forall m, mc_disk m = mc_disk creation.1 -> mc_terminal m = [Typed_in "correct horse"] ->
      exists m', keystore_SignTransaction wallet_config None payment m = (m', sign_with key payment).
Proof.
  assert (CreateKey wallet_config "alice" (at_terminal new_home) = (creation.1, Ok tt)) as Hc.
  { rewrite <- created. unfold creation. by destruct (CreateKey _ _ _). }
  destruct (created_key_signs wallet_config "/keys" "alice" "correct horse" (at_terminal new_home) creation.1)
    as (key & _ & _ & H).
  - exact keys_directory.
  - reflexivity.
  - reflexivity.
  - reflexivity.
  - apply new_home_ok.
  - apply new_home_ok.
  - split; [done|]. right. split; [reflexivity|]. by exists [Typed_in "correct horse"].
  - left. exact Hc.
  - exists key. split; [exact Hc|]. intros m Hd Ht. apply H; [exact Hd|].
    split; [done|]. right. split; [reflexivity|]. exists []. by rewrite Ht.
Defined.

Definition key_use : disk * result string := keyPath wallet_config (mc_disk creation.1).

Lemma key_path_inside_witness :
  exists d path, key_use = (d, Ok path) /\
    (exists name, plain_segment name = true /\ path_key path = child "/keys" name) /\
    exists text, look d (path_key path) = Some (mk_inode KFile mode_0600, text).
Proof.
  assert (is_ok key_use.2 = true) as H by (vm_compute; reflexivity).
  destruct key_use as [d [path|]] eqn:E; [|discriminate]. exists d, path. split; [reflexivity|].
  destruct (key_path_inside wallet_config "/keys" (mc_disk creation.1) d path keys_directory E)
    as (H1 & H2 & _).
  by split.
Defined.

Definition signing : machine * result string :=
  keystore_SignTransaction wallet_config None payment (at_terminal (mc_disk creation.1)).

Lemma signed_by_owner_witness :
  exists m text, signing = (m, Ok text) /\
    exists raw unsigned sender owner d,
      text = ("0x" +:+ hex_encode raw)%string /\
      lt_Nonce unsigned = 7 /\ lt_Value unsigned = 31 /\ lt_GasPrice unsigned = 9 /\
      read_signed raw = Some (unsigned, 1776, sender) /\
      keystore_OwnerAddress wallet_config (mc_disk (at_terminal (mc_disk creation.1))) = (d, Ok owner) /\
      owner = encodeBech32Address "inj" sender.
Proof.
  assert (is_ok signing.2 = true) as H by (vm_compute; reflexivity).
  destruct signing as [m [text|]] eqn:E; [|discriminate]. exists m, text. split; [reflexivity|].
  destruct (signed_by_owner wallet_config None payment (at_terminal (mc_disk creation.1)) m text)
    as (_ & raw & unsigned & sender & owner & d & H1 & H2 & H3 & H4 & H5).
  - reflexivity.
  - exact E.
  - exists raw, unsigned, sender, owner, d. split; [exact H1|].
    destruct H2 as (Hn & _ & _ & _ & _ & _ & Hv & Hp).
    split; [exact Hn|]. split; [|split].
    + exact (Hv "1F"%string (prefixed_quantity "1F" eq_refl)).
    + exact (Hp "9"%string (prefixed_quantity "9" eq_refl)).
    + split; [exact H3|]. split; [exact H4|exact H5].
Defined.
End Wallet.
