(* ===== verification/DeployArtifact.v ===== *)
(** * DeployArtifact: [internal/suitedeploy/artifact.go]

    The compiled contracts that a deployment sends, as they are checked in:
    reading, checking and summarising them, and the comparison of deployed code
    with its template ([compareRuntimeTemplate] of [deploy.go]).  Parsing an ABI
    is go-ethereum's ([AbiFiles]). *)
From Stdlib Require Import ZArith Lia Ascii String.
From stdpp Require Import base list gmap strings option sorting.
From S2P Require Import Prelude GoText Prog Json Encodings Geth Paths FileSystem EvmRpc SuiteAbi Keystore.

Local Open Scope Z_scope.

Definition artifactSchema : string := "igit.evm-suite.solc-artifact.v1".
Definition requiredSolcVersion : string := "0.8.24".
Definition maximumInitcodeBytes : Z := 49152.
Definition maximumRuntimeBytes : Z := 24576.

Definition contractOrder : list string := [
  "SuiteDirectory"; "BootstrapCoordinator"; "RepositoryCore"; "RecoveryModule"; "ModerationModule";
  "EconomicModule"; "UsernameModule"; "BadgeModule"; "ReleaseModule"]%string.

(** ** Artifacts *)

(** [abi.ABI] as far as the package uses it. *)
Record contract_abi := mk_contract_abi {
  ca_Constructor : list abi_type;
  ca_Methods : list suite_method }.

(** [abi.JSON] of a raw message, which may be missing. *)
Class AbiFiles := { abi_JSON : option json -> result contract_abi }.

Record compilerSettings := mk_compilerSettings {
  cs_Enabled : bool; cs_Runs : Z; cs_ViaIR : bool; cs_EVMVersion : string }.
Record compilerMetadata := mk_compilerMetadata { cm_Version : string; cm_Settings : compilerSettings }.

Record ImmutableReference := mk_ImmutableReference { ir_Length : Z; ir_Start : Z }.
Notation references := (gmap string (list ImmutableReference)).

(** The fields of the file. *)
Record artifact_text := mk_artifact_text {
  ka_Schema : string;
  ka_ContractName : string;
  ka_SourceName : string;
  ka_SourceSHA256 : string;
  ka_Compiler : compilerMetadata;
  ka_ABI : option json;
  ka_CreationBytecode : string;
  ka_CreationBytecodeSHA256 : string;
  ka_RuntimeTemplate : string;
  ka_RuntimeTemplateSHA256 : string;
  ka_ImmutableReferences : references }.

Record checkedArtifact := mk_checkedArtifact {
  ka_text : artifact_text;
  ka_parsedABI : contract_abi;
  ka_creation : bytes;
  ka_runtime : bytes }.

(** ** Decoding *)

(** [DisallowUnknownFields] *)
Definition known_members (names : list string) (v : json) : result (list (string * json)) :=
  let? ms := struct_members v in
  match List.find (fun '(k, _) => negb (existsb (fun name => key_matches name k) names)) ms with
  | Some (k, _) => errf "json: unknown field %q" [GStr k]
  | None => Ok ms
  end.

Definition decode_settings (v : json) (old : compilerSettings) : result compilerSettings :=
  let? ms := known_members ["optimizer"; "via_ir"; "evm_version"]%string v in
  let? optimizer := field (fun v old =>
    let? ms := known_members ["enabled"; "runs"]%string v in
    let? enabled := bool_field "enabled" (fst old) ms in
    let? runs := uint64_field "runs" (snd old) ms in
    Ok (enabled, runs)) "optimizer" (cs_Enabled old, cs_Runs old) ms in
  let? viaIR := bool_field "via_ir" (cs_ViaIR old) ms in
  let? version := string_field "evm_version" (cs_EVMVersion old) ms in
  Ok (mk_compilerSettings (fst optimizer) (snd optimizer) viaIR version).

Definition decode_compiler (v : json) (old : compilerMetadata) : result compilerMetadata :=
  let? ms := known_members ["version"; "settings"]%string v in
  let? version := string_field "version" (cm_Version old) ms in
  let? settings := field decode_settings "settings" (cm_Settings old) ms in
  Ok (mk_compilerMetadata version settings).

Definition decode_reference (v : json) : result ImmutableReference :=
  let? ms := known_members ["length"; "start"]%string v in
  let? length := uint64_field "length" 0 ms in
  let? start := uint64_field "start" 0 ms in
  Ok (mk_ImmutableReference length start).

Definition decode_references (v : json) (old : references) : result references :=
  match v with
  | JNull => Ok ∅
  | JObject members =>
      foldM (fun m '(key, x) => let? l := decode_slice decode_reference x [] in Ok (<[key := l]> m))
        members old
  | _ => type_error
  end.

Definition artifact_members : list string := [
  "schema"; "contract_name"; "source_name"; "source_sha256"; "compiler"; "abi"; "creation_bytecode";
  "creation_bytecode_sha256"; "runtime_template"; "runtime_template_sha256";
  "immutable_references"]%string.

(** What [Decoder.Decode] reads; what follows the value is not looked at. *)
Definition decode_artifact (data : string) : result artifact_text :=
  let? vr := Decode data in
  let? ms := known_members artifact_members (fst vr) in
  let? schema := string_field "schema" "" ms in
  let? name := string_field "contract_name" "" ms in
  let? source := string_field "source_name" "" ms in
  let? sourceSHA := string_field "source_sha256" "" ms in
  let? compiler := field decode_compiler "compiler"
    (mk_compilerMetadata "" (mk_compilerSettings false 0 false "")) ms in
  let? raw := field (fun v _ => Ok (Some v)) "abi" None ms in
  let? creation := string_field "creation_bytecode" "" ms in
  let? creationSHA := string_field "creation_bytecode_sha256" "" ms in
  let? runtime := string_field "runtime_template" "" ms in
  let? runtimeSHA := string_field "runtime_template_sha256" "" ms in
  let? refs := field decode_references "immutable_references" ∅ ms in
  Ok (mk_artifact_text schema name source sourceSHA compiler raw creation creationSHA runtime
        runtimeSHA refs).

(** ** Checks *)

Definition strip_0x (value : string) : string := substring 2 (String.length value - 2) value.

Definition hex_DecodeString (value : string) : result bytes :=
  match hex_decode value with
  | Some decoded => Ok decoded
  | None => errf "encoding/hex: invalid byte or odd length" []
  end.

Definition decodeBytecode (name value : string) : result bytes :=
  fail_if negb (HasPrefix value "0x") || negb (bool_decide (value = ToLower value))
    as Errorf "%s must be lower-case 0x-prefixed hex" [GStr name] ;;
  wrapf "decode %s: %w" [GStr name] (hex_DecodeString (strip_0x value)).

Definition all_zero (decoded : bytes) : bool := forallb (fun b => Byte.eqb b Byte.x00) decoded.

Definition validateDigest (name value : string) : result unit :=
  fail_if negb (slen value =? 64) || negb (bool_decide (value = ToLower value))
    as Errorf "%s must be 64 lower-case hex characters" [GStr name] ;;
  let? decoded := wrapf "decode %s: %w" [GStr name] (hex_DecodeString value) in
  fail_if all_zero decoded as Errorf "%s cannot be zero" [GStr name] ;;
  Ok tt.

Definition verifyBytecodeDigest (name expected : string) (value : bytes) : result unit :=
  let? _ := validateDigest name expected in
  fail_if negb (bool_decide (sha256_hex value = expected)) as Errorf "%s mismatch" [GStr name] ;;
  Ok tt.

(** An access past the end of a slice stops the program. *)
Definition out_of_range {A} : result A := errf "runtime error: index out of range" [].

(** [sort.Strings] of the keys of a map *)
Definition sorted_keys {A} (m : gmap string A) : list string :=
  merge_sort String.le (map fst (map_to_list m)).

Definition reference_error (key : string) (r : ImmutableReference) (size : Z) : goerror :=
  Errorf "immutable reference %q [%d,%d) is invalid for %d-byte runtime"
    [GStr key; GInt (ir_Start r); GInt (u64 (ir_Start r + ir_Length r)); GInt size].

(** The bytes of one reference are marked. *)
Definition occupy (key : string) (occupied : list bool) (index : nat) : result (list bool) :=
  match occupied !! index with
  | Some true =>
      errf "immutable reference %q overlaps another reference at byte %d" [GStr key; GInt (Z.of_nat index)]
  | Some false => Ok (<[index := true]> occupied)
  | None => out_of_range
  end.

Definition check_reference (size : Z) (key : string) (occupied : list bool) (r : ImmutableReference)
  : result (list bool) :=
  fail_if negb (ir_Length r =? 32) || (size <? ir_Start r) || (size <? u64 (ir_Start r + ir_Length r))
    as reference_error key r size ;;
  foldM (occupy key) (seq (Z.to_nat (ir_Start r)) (Z.to_nat (u64 (ir_Start r + ir_Length r) - ir_Start r))) occupied.

Definition check_group (size : Z) (refs : references) (occupied : list bool) (key : string)
  : result (list bool) :=
  let group := default [] (refs !! key) in
  fail_if bool_decide (TrimSpace key = ""%string) || bool_decide (length group = 0%nat)
    as Errorf "immutable reference group %q is empty" [GStr key] ;;
  foldM (check_reference size key) group occupied.

Definition validateImmutableReferences (runtime : bytes) (refs : references) : result unit :=
  fail_if bool_decide (size refs = 0%nat) as Errorf "immutable_references is empty" [] ;;
  let? _ := foldM (check_group (llen runtime) refs) (sorted_keys refs) (repeat false (length runtime)) in
  Ok tt.

Section Artifacts.
Context {AF : AbiFiles}.

Definition locked_compiler (c : compilerMetadata) : bool :=
  bool_decide (cm_Version c = requiredSolcVersion) && cs_Enabled (cm_Settings c) &&
  (cs_Runs (cm_Settings c) =? 1) && cs_ViaIR (cm_Settings c) &&
  bool_decide (cs_EVMVersion (cm_Settings c) = "default"%string).

Definition parseCheckedArtifact (expectedName data : string) : result checkedArtifact :=
  let? a := wrapf "decode artifact: %w" [] (decode_artifact data) in
  fail_if negb (bool_decide (ka_Schema a = artifactSchema))
    as Errorf "schema %q, want %q" [GStr (ka_Schema a); GStr artifactSchema] ;;
  fail_if negb (bool_decide (ka_ContractName a = expectedName))
    as Errorf "contract_name %q, want %q" [GStr (ka_ContractName a); GStr expectedName] ;;
  fail_if bool_decide (TrimSpace (ka_SourceName a) = ""%string) || IsAbs (ka_SourceName a) ||
          Contains (Clean (ka_SourceName a)) ".."
    as Errorf "invalid source_name %q" [GStr (ka_SourceName a)] ;;
  let? _ := validateDigest "source_sha256" (ka_SourceSHA256 a) in
  fail_if negb (locked_compiler (ka_Compiler a))
    as Errorf "compiler settings are not locked to solc 0.8.24, optimizer runs 1, viaIR, default EVM" [] ;;
  let? parsed := wrapf "parse ABI with go-ethereum: %w" [] (abi_JSON (ka_ABI a)) in
  let? creation := decodeBytecode "creation_bytecode" (ka_CreationBytecode a) in
  let? runtime := decodeBytecode "runtime_template" (ka_RuntimeTemplate a) in
  fail_if (llen creation =? 0) || (maximumInitcodeBytes <? llen creation)
    as Errorf "creation bytecode length %d is outside 1..%d" [GInt (llen creation); GInt maximumInitcodeBytes] ;;
  fail_if (llen runtime =? 0) || (maximumRuntimeBytes <? llen runtime)
    as Errorf "runtime bytecode length %d is outside 1..%d" [GInt (llen runtime); GInt maximumRuntimeBytes] ;;
  let? _ := verifyBytecodeDigest "creation_bytecode_sha256" (ka_CreationBytecodeSHA256 a) creation in
  let? _ := verifyBytecodeDigest "runtime_template_sha256" (ka_RuntimeTemplateSHA256 a) runtime in
  let? _ := validateImmutableReferences runtime (ka_ImmutableReferences a) in
  Ok (mk_checkedArtifact a parsed creation runtime).

(** ** The set *)

Record artifactSet := mk_artifactSet {
  as_byName : gmap string checkedArtifact;
  as_digest : string }.

(** What is written to the hash for one file. *)
Definition hashed_file (name data : string) : bytes :=
  string_bytes name ++ [Byte.x00] ++ string_bytes data ++ [Byte.x00].

Definition load_artifact (directory contractDirectory : string)
    (acc : gmap string checkedArtifact * bytes) (name : string)
  : prog disk (gmap string checkedArtifact * bytes) :=
  let path := filepath_Join directory (name +:+ ".json") in
  data ← wrap_error "read checked-in artifact %s: %w" [GStr path] (ReadFile path);
  artifact ← of_result (wrapf "validate checked-in artifact %s: %w" [GStr path]
    (parseCheckedArtifact name data));
  let sourcePath := filepath_Join contractDirectory (ka_SourceName (ka_text artifact)) in
  source ← wrap_error "read artifact-bound source %s: %w" [GStr sourcePath] (ReadFile sourcePath);
  if negb (bool_decide (sha256_hex (string_bytes source) = ka_SourceSHA256 (ka_text artifact)))
  then fail (Errorf "artifact source hash does not match %s" [GStr sourcePath])
  else mret (<[name := artifact]> (fst acc), snd acc ++ hashed_file name data).

Definition loadArtifactSet (directory : string) : prog disk artifactSet :=
  let directory := Clean (TrimSpace directory) in
  if bool_decide (directory = "."%string) || bool_decide (directory = ""%string)
  then fail (Errorf "suite artifact directory is required" [])
  else
    let contractDirectory := filepath_Dir directory in
    acc ← foldP (load_artifact directory contractDirectory) contractOrder (∅, []);
    mret (mk_artifactSet (fst acc) (sha256_hex (snd acc))).
End Artifacts.

Record ArtifactSummary := mk_ArtifactSummary {
  su_ContractName : string;
  su_SourceName : string;
  su_SourceSHA256 : string;
  su_CreationBytecodeSHA256 : string;
  su_RuntimeTemplateSHA256 : string;
  su_CreationBytes : Z;
  su_RuntimeBytes : Z }.

Record CompilerEvidence := mk_CompilerEvidence {
  ce_Version : string; ce_Enabled : bool; ce_Runs : Z; ce_ViaIR : bool; ce_EVMVersion : string }.
Definition requiredCompilerEvidence : CompilerEvidence :=
  mk_CompilerEvidence requiredSolcVersion true 1 true "default".

Record ArtifactInspection := mk_ArtifactInspection {
  ai_Schema : string;
  ai_Compiler : CompilerEvidence;
  ai_ArtifactSetSHA256 : string;
  ai_Contracts : list ArtifactSummary }.

(** A contract that is not in the set is a nil pointer. *)
Definition summary (set : artifactSet) (name : string) : result ArtifactSummary :=
  match as_byName set !! name with
  | Some a => Ok (mk_ArtifactSummary (ka_ContractName (ka_text a)) (ka_SourceName (ka_text a)) (ka_SourceSHA256 (ka_text a))
                    (ka_CreationBytecodeSHA256 (ka_text a)) (ka_RuntimeTemplateSHA256 (ka_text a))
                    (llen (ka_creation a)) (llen (ka_runtime a)))
  | None => errf "runtime error: invalid memory address or nil pointer dereference" []
  end.

Definition inspection (set : artifactSet) : result ArtifactInspection :=
  let? contracts := foldM (fun l name => let? s := summary set name in Ok (l ++ [s])) contractOrder [] in
  Ok (mk_ArtifactInspection "igit.evm-suite.artifact-inspection.v1" requiredCompilerEvidence
        (as_digest set) contracts).

Definition InspectArtifacts {AF : AbiFiles} (directory : string) : prog disk ArtifactInspection :=
  set ← loadArtifactSet directory;
  of_result (inspection set).

(** ** Deployed code *)

(** [value[start:end]] *)
Definition slice_bytes (value : bytes) (start stop : Z) : result bytes :=
  if (0 <=? start) && (start <=? stop) && (stop <=? llen value)
  then Ok (take (Z.to_nat (stop - start)) (drop (Z.to_nat start) value))
  else out_of_range.

(** The bytes of one reference, compared with those of the earlier ones. *)
Definition read_reference (observed : bytes) (key : string) (acc : list bool * option bytes)
    (r : ImmutableReference) : result (list bool * option bytes) :=
  let '(mutable, expected) := acc in
  let start := ir_Start r in
  let stop := u64 (ir_Start r + ir_Length r) in
  let? value := slice_bytes observed start stop in
  let? expected := match expected with
                   | None => Ok (if decide (value = []) then None else Some value)
                   | Some e =>
                       fail_if negb (bool_decide (e = value))
                         as Errorf "immutable %s has inconsistent values across runtime references" [GStr key] ;;
                       Ok (Some e)
                   end in
  let? mutable := foldM (fun m index =>
      if decide (index < length m)%nat then Ok (<[index := true]> m) else out_of_range)
    (seq (Z.to_nat start) (Z.to_nat (stop - start))) mutable in
  Ok (mutable, expected).

Definition read_group (observed : bytes) (refs : references)
    (acc : list bool * gmap string string) (key : string) : result (list bool * gmap string string) :=
  let '(mutable, values) := acc in
  let? (mutable, expected) := foldM (read_reference observed key) (default [] (refs !! key)) (mutable, None) in
  Ok (mutable, <[key := ("0x" +:+ hex_encode (default [] expected))%string]> values).

(** The first byte outside the references that differs. *)
Fixpoint first_difference (index : Z) (mutable : list bool) (template observed : bytes) : option Z :=
  match mutable, template, observed with
  | m :: mutable', t :: template', o :: observed' =>
      if negb m && negb (Byte.eqb t o) then Some index
      else first_difference (index + 1) mutable' template' observed'
  | _, _, _ => None
  end.

Definition compareRuntimeTemplate (template observed : bytes) (refs : references)
  : result (gmap string string) :=
  fail_if negb (llen observed =? llen template)
    as Errorf "runtime length %d does not match %d-byte template" [GInt (llen observed); GInt (llen template)] ;;
  let? (mutable, values) := foldM (read_group observed refs) (sorted_keys refs)
    (repeat false (length template), ∅) in
  match first_difference 0 mutable template observed with
  | Some index =>
      errf "runtime differs from compiler template outside immutable references at byte %d" [GInt index]
  | None => Ok values
  end.
