(* ===== verification/Deploy.v ===== *)
(** * Deploy: [internal/suitedeploy]

    The deployment of the contract suite: [types.go], [deploy.go] and
    [verify.go].  The node and the transactor are the interfaces of the source
    ([Services]); the evidence is a file on a disk that may fail.  [dp_sent]
    records, for the theorems, every transaction that is handed to the
    transactor, with the disk at that time; no operation reads it. *)
From Stdlib Require Import ZArith Lia Ascii String.
From stdpp Require Import base list gmap strings option.
From S2P Require Import Prelude GoText GoIo Prog Json Encodings Geth Paths FileSystem EvmAddress EvmRpc EvmTx SuiteAbi Keystore DeployArtifact.

Local Open Scope Z_scope.

(** ** The outside *)

(** [rpcReader], [transactor] and the clock, whose times are printed as
    [time.RFC3339Nano] in UTC. *)
Class Services := {
  outside : Type;
  rpc_ChainID : prog outside Z;
  rpc_CodeAt : string -> string -> prog outside bytes;
  rpc_BlockByNumber : string -> prog outside EVMBlock;
  rpc_CallContractAt : string -> string -> string -> prog outside bytes;
  tx_Deploy : bytes -> string -> outside -> outside * (option EVMTransactionResult * option goerror);
  tx_Send : string -> bytes -> string -> outside -> outside * (option EVMTransactionResult * option goerror);
  clock_now : outside -> outside * string }.

(** [net/url] *)
Class Urls := {
  URL : Type;
  url_Parse : string -> result URL;
  without_User : URL -> URL;
  without_RawQuery : URL -> URL;
  without_Fragment : URL -> URL;
  url_String : URL -> string }.

(** ** The manifest *)

Definition manifestSchema : string := "igit.evm-suite.deployment.v1".

Record SourceEvidence := mk_SourceEvidence {
  so_Commit : string; so_ArtifactSetSHA256 : string; so_Contracts : list ArtifactSummary }.
Record ChainEvidence := mk_ChainEvidence {
  ch_Network : string; ch_ChainID : Z; ch_RPCEndpoint : string; ch_BlockExplorer : string }.
Record GovernanceEvidence := mk_GovernanceEvidence {
  gv_BootstrapOperator : string; gv_Admin : string; gv_Treasury : string; gv_Committee : string;
  gv_UsernamePolicy : string; gv_ReleaseAuthority : string; gv_ProductionReady : bool;
  gv_Warning : string }.
Record ConstructorArgument := mk_ConstructorArgument { ar_Name : string; ar_Type : string; ar_Value : string }.

Record RuntimeEvidence := mk_RuntimeEvidence {
  re_BlockNumber : string; re_BlockHash : string; re_ByteLength : Z; re_SHA256 : string;
  re_CodeHashKeccak256 : string; re_TemplateSHA256 : string;
  re_ImmutableValuesByID : gmap string string; re_TemplateMatchVerified : bool }.

Record ContractEvidence := mk_ContractEvidence {
  co_TransactionOrder : Z; co_ContractName : string; co_ModuleID : string; co_SourceName : string;
  co_SourceSHA256 : string; co_CreationBytecodeSHA256 : string; co_RuntimeTemplateSHA256 : string;
  co_ConstructorArguments : list ConstructorArgument; co_ConstructorArgsABI : string;
  co_InitcodeSHA256 : string; co_Address : string; co_TransactionHash : string;
  co_Receipt : option EVMReceipt; co_Runtime : option RuntimeEvidence }.

Record ConfigurationTransaction := mk_ConfigurationTransaction {
  ct_TransactionOrder : Z; ct_Purpose : string; ct_ModuleID : string; ct_Target : string;
  ct_Calldata : string; ct_CalldataSHA256 : string; ct_TransactionHash : string;
  ct_Receipt : option EVMReceipt }.

Record ModuleBindingEvidence := mk_ModuleBindingEvidence {
  mb_ModuleID : string; mb_ContractName : string; mb_Address : string; mb_DirectoryCodeHash : string;
  mb_ObservedCodeHash : string; mb_DirectoryVerified : bool; mb_ModuleDirectory : string;
  mb_ModuleCoordinator : string; mb_ObservedModuleID : string; mb_BootstrapFinalized : bool;
  mb_AuthorityRole : string; mb_AuthorityAddress : string }.

Record InitialGovernanceBinding := mk_InitialGovernanceBinding {
  ig_ModerationAdmin : string; ig_ModerationCommittee : string; ig_EconomicAdmin : string;
  ig_EconomicTreasury : string; ig_EconomicPlatformFeeBPS : Z; ig_UsernamePolicyAdmin : string;
  ig_ReleaseAuthority : string }.

Record DirectoryBindingEvidence := mk_DirectoryBindingEvidence {
  db_BlockNumber : string; db_BlockHash : string; db_SuiteVersion : Z; db_State : Z; db_Active : bool;
  db_ConfiguredChainID : Z; db_SnapshotRoot : string; db_BootstrapAuthority : string;
  db_BootstrapCoordinator : string; db_CoordinatorCodeHash : string; db_RegisteredModuleCount : Z;
  db_CoordinatorDirectory : string; db_CoordinatorSnapshotRoot : string; db_CoordinatorOperator : string;
  db_CoordinatorActivated : bool; db_CoordinatorNextModule : Z;
  db_Modules : list ModuleBindingEvidence; db_InitialGovernance : InitialGovernanceBinding }.

(** The source verification that this command never attempts. *)
Record BlockscoutVerification := mk_BlockscoutVerification {
  bv_Status : string; bv_Explorer : string; bv_Note : string }.

Record Manifest := mk_Manifest {
  mf_Schema : string; mf_Status : string; mf_CreatedAt : string; mf_UpdatedAt : string;
  mf_FailureStage : string; mf_Failure : string; mf_Compiler : CompilerEvidence;
  mf_Source : SourceEvidence; mf_Chain : ChainEvidence; mf_SnapshotRoot : string;
  mf_PlatformFeeBPS : Z; mf_Governance : GovernanceEvidence; mf_Contracts : list ContractEvidence;
  mf_ConfigurationTransactions : list ConfigurationTransaction;
  mf_DirectoryBindingVerification : option DirectoryBindingEvidence;
  mf_BlockscoutVerification : BlockscoutVerification }.

Record Options := mk_Options {
  op_ArtifactDirectory : string; op_SourceCommit : string; op_Network : string; op_ChainID : Z;
  op_RPCEndpoint : string; op_BlockExplorer : string; op_SnapshotRoot : string; op_Operator : string;
  op_PlatformFeeBPS : Z }.

(** *** Its text *)

(** A slice that only grows by [append] is [null] while it is empty. *)
Definition appended_json {T} (encode : T -> json) (l : list T) : json :=
  match l with [] => JNull | _ => JArray (map encode l) end.

(** A pointer with [omitempty] *)
Definition unless_nil {T} (k : string) (encode : T -> json) (o : option T) : list (string * json) :=
  match o with Some x => [(k, encode x)] | None => [] end.

Definition compiler_json (c : CompilerEvidence) : json := JObject [
  text_member "version" (ce_Version c);
  ("optimizer"%string, JObject [bool_member "enabled" (ce_Enabled c); int_member "runs" (ce_Runs c)]);
  bool_member "via_ir" (ce_ViaIR c); text_member "evm_version" (ce_EVMVersion c)].

Definition summary_json (s : ArtifactSummary) : json := JObject [
  text_member "contract_name" (su_ContractName s); text_member "source_name" (su_SourceName s);
  text_member "source_sha256" (su_SourceSHA256 s);
  text_member "creation_bytecode_sha256" (su_CreationBytecodeSHA256 s);
  text_member "runtime_template_sha256" (su_RuntimeTemplateSHA256 s);
  int_member "creation_bytes" (su_CreationBytes s); int_member "runtime_bytes" (su_RuntimeBytes s)].

Definition source_json (s : SourceEvidence) : json := JObject [
  text_member "commit" (so_Commit s); text_member "artifact_set_sha256" (so_ArtifactSetSHA256 s);
  ("contracts"%string, appended_json summary_json (so_Contracts s))].

Definition chain_json (c : ChainEvidence) : json := JObject (
  [text_member "network" (ch_Network c); int_member "chain_id" (ch_ChainID c);
   text_member "rpc_endpoint" (ch_RPCEndpoint c)] ++
  text_unless_empty "block_explorer" (ch_BlockExplorer c)).

Definition governance_json (g : GovernanceEvidence) : json := JObject [
  text_member "bootstrap_operator" (gv_BootstrapOperator g); text_member "admin" (gv_Admin g);
  text_member "treasury" (gv_Treasury g); text_member "committee" (gv_Committee g);
  text_member "username_policy_admin" (gv_UsernamePolicy g);
  text_member "release_authority" (gv_ReleaseAuthority g);
  bool_member "production_ready" (gv_ProductionReady g); text_member "warning" (gv_Warning g)].

Definition argument_json (a : ConstructorArgument) : json := JObject [
  text_member "name" (ar_Name a); text_member "type" (ar_Type a); text_member "value" (ar_Value a)].

Definition log_json (l : EVMLog) : json := JObject [
  text_member "address" (lg_Address l); ("topics"%string, JArray (map JString (lg_Topics l)));
  text_member "data" (lg_Data l); text_member "blockNumber" (lg_BlockNumber l);
  text_member "blockHash" (lg_BlockHash l); text_member "transactionHash" (lg_TransactionHash l);
  bool_member "removed" (lg_Removed l)].

(** Of a receipt whose lists were present in the answer. *)
Definition receipt_json (r : EVMReceipt) : json := JObject [
  text_member "transactionHash" (rc_TransactionHash r); text_member "blockNumber" (rc_BlockNumber r);
  text_member "blockHash" (rc_BlockHash r); text_member "to" (rc_To r);
  text_member "contractAddress" (rc_ContractAddress r); text_member "status" (rc_Status r);
  text_member "gasUsed" (rc_GasUsed r); ("logs"%string, JArray (map log_json (rc_Logs r)))].

Definition runtime_json (r : RuntimeEvidence) : json := JObject [
  text_member "block_number" (re_BlockNumber r); text_member "block_hash" (re_BlockHash r);
  int_member "byte_length" (re_ByteLength r); text_member "sha256" (re_SHA256 r);
  text_member "code_hash_keccak256" (re_CodeHashKeccak256 r);
  text_member "template_sha256" (re_TemplateSHA256 r);
  ("immutable_values_by_solc_id"%string, JObject (sorted_members
     (map (fun '(k, v) => text_member k v) (map_to_list (re_ImmutableValuesByID r)))));
  bool_member "template_match_verified" (re_TemplateMatchVerified r)].

Definition contract_json (c : ContractEvidence) : json := JObject (
  [int_member "transaction_order" (co_TransactionOrder c); text_member "contract_name" (co_ContractName c)] ++
  text_unless_empty "module_id" (co_ModuleID c) ++
  [text_member "source_name" (co_SourceName c); text_member "source_sha256" (co_SourceSHA256 c);
   text_member "creation_bytecode_sha256" (co_CreationBytecodeSHA256 c);
   text_member "runtime_template_sha256" (co_RuntimeTemplateSHA256 c);
   ("constructor_arguments"%string, JArray (map argument_json (co_ConstructorArguments c)));
   text_member "constructor_args_abi" (co_ConstructorArgsABI c);
   text_member "initcode_sha256" (co_InitcodeSHA256 c)] ++
  text_unless_empty "address" (co_Address c) ++
  text_unless_empty "transaction_hash" (co_TransactionHash c) ++
  unless_nil "receipt" receipt_json (co_Receipt c) ++ unless_nil "runtime" runtime_json (co_Runtime c)).

Definition configuration_json (c : ConfigurationTransaction) : json := JObject (
  [int_member "transaction_order" (ct_TransactionOrder c); text_member "purpose" (ct_Purpose c)] ++
  text_unless_empty "module_id" (ct_ModuleID c) ++
  [text_member "target" (ct_Target c); text_member "calldata" (ct_Calldata c);
   text_member "calldata_sha256" (ct_CalldataSHA256 c)] ++
  text_unless_empty "transaction_hash" (ct_TransactionHash c) ++
  unless_nil "receipt" receipt_json (ct_Receipt c)).

Definition module_binding_json (m : ModuleBindingEvidence) : json := JObject (
  [text_member "module_id" (mb_ModuleID m); text_member "contract_name" (mb_ContractName m);
   text_member "address" (mb_Address m); text_member "directory_code_hash" (mb_DirectoryCodeHash m);
   text_member "observed_code_hash" (mb_ObservedCodeHash m);
   bool_member "directory_verified" (mb_DirectoryVerified m);
   text_member "module_directory" (mb_ModuleDirectory m);
   text_member "module_coordinator" (mb_ModuleCoordinator m);
   text_member "observed_module_id" (mb_ObservedModuleID m);
   bool_member "bootstrap_finalized" (mb_BootstrapFinalized m)] ++
  text_unless_empty "authority_role" (mb_AuthorityRole m) ++
  text_unless_empty "authority_address" (mb_AuthorityAddress m)).

Definition initial_governance_json (g : InitialGovernanceBinding) : json := JObject [
  text_member "moderation_admin" (ig_ModerationAdmin g);
  text_member "moderation_committee" (ig_ModerationCommittee g);
  text_member "economic_admin" (ig_EconomicAdmin g);
  text_member "economic_treasury" (ig_EconomicTreasury g);
  int_member "economic_platform_fee_bps" (ig_EconomicPlatformFeeBPS g);
  text_member "username_policy_admin" (ig_UsernamePolicyAdmin g);
  text_member "release_authority" (ig_ReleaseAuthority g)].

Definition binding_json (b : DirectoryBindingEvidence) : json := JObject [
  text_member "block_number" (db_BlockNumber b); text_member "block_hash" (db_BlockHash b);
  int_member "suite_version" (db_SuiteVersion b); int_member "state" (db_State b);
  bool_member "active" (db_Active b); int_member "configured_chain_id" (db_ConfiguredChainID b);
  text_member "snapshot_root" (db_SnapshotRoot b);
  text_member "bootstrap_authority" (db_BootstrapAuthority b);
  text_member "bootstrap_coordinator" (db_BootstrapCoordinator b);
  text_member "coordinator_code_hash" (db_CoordinatorCodeHash b);
  int_member "registered_module_count" (db_RegisteredModuleCount b);
  text_member "coordinator_directory" (db_CoordinatorDirectory b);
  text_member "coordinator_snapshot_root" (db_CoordinatorSnapshotRoot b);
  text_member "coordinator_operator" (db_CoordinatorOperator b);
  bool_member "coordinator_activated" (db_CoordinatorActivated b);
  int_member "coordinator_next_module_index" (db_CoordinatorNextModule b);
  ("modules"%string, appended_json module_binding_json (db_Modules b));
  ("initial_governance"%string, initial_governance_json (db_InitialGovernance b))].

Definition blockscout_json (b : BlockscoutVerification) : json := JObject (
  [text_member "status" (bv_Status b)] ++ text_unless_empty "explorer" (bv_Explorer b) ++
  [("contracts"%string, JObject []); text_member "note" (bv_Note b)]).

Definition manifest_json (m : Manifest) : json := JObject (
  [text_member "schema" (mf_Schema m); text_member "status" (mf_Status m);
   text_member "created_at" (mf_CreatedAt m); text_member "updated_at" (mf_UpdatedAt m)] ++
  text_unless_empty "failure_stage" (mf_FailureStage m) ++ text_unless_empty "failure" (mf_Failure m) ++
  [("compiler"%string, compiler_json (mf_Compiler m)); ("source"%string, source_json (mf_Source m));
   ("chain"%string, chain_json (mf_Chain m)); text_member "snapshot_root" (mf_SnapshotRoot m);
   int_member "platform_fee_bps" (mf_PlatformFeeBPS m);
   ("governance"%string, governance_json (mf_Governance m));
   ("contracts"%string, appended_json contract_json (mf_Contracts m));
   ("configuration_transactions"%string, appended_json configuration_json (mf_ConfigurationTransactions m))] ++
  unless_nil "directory_binding_verification" binding_json (mf_DirectoryBindingVerification m) ++
  [("blockscout_verification"%string, blockscout_json (mf_BlockscoutVerification m))]).

Definition MarshalCanonical (m : Manifest) : string :=
  MarshalIndent (manifest_json m) +:+ str1 newline_char.

(** ** Small texts *)

Definition validHash (value : string) : bool :=
  (slen value =? 66) && HasPrefix value "0x" &&
  match hex_decode (strip_0x value) with
  | Some decoded => negb (all_zero decoded)
  | None => false
  end.

(** The texts are hexadecimal, so that case is ASCII case. *)
Definition equalHash (left right : string) : bool :=
  validHash left && validHash right && EqualFold left right.

Definition normalizeHash (value : string) : string :=
  if validHash value then ToLower value else TrimSpace value.

Definition hashHex (value : bytes) : string := "0x" +:+ hex_encode value.

Definition parseHexQuantity (value : string) : result Z :=
  let value := trim_0x (TrimSpace value) in
  fail_if bool_decide (value = ""%string) || (16 <? slen value) as Errorf "invalid hex quantity" [] ;;
  match some_hex_digits value with
  | Some n => Ok n
  | None => errf "strconv.ParseUint: parsing %q: invalid syntax" [GStr value]
  end.

Definition parseBytes32 (value : string) : result bytes :=
  fail_if negb (HasPrefix value "0x") || negb (bool_decide (value = ToLower value)) || negb (slen value =? 66)
    as Errorf "value must be 0x followed by 64 lower-case hex characters" [] ;;
  hex_DecodeString (strip_0x value).

Definition validateSourceCommit (value : string) : result unit :=
  let value := TrimSpace value in
  fail_if (negb (slen value =? 40) && negb (slen value =? 64)) || negb (bool_decide (value = ToLower value))
    as Errorf "source commit must be a 40- or 64-character lower-case Git object ID" [] ;;
  let? decoded := wrapf "decode source commit: %w" [] (hex_DecodeString value) in
  fail_if all_zero decoded as Errorf "source commit cannot be zero" [] ;;
  Ok tt.

Definition evidenceEndpoint {UR : Urls} (value : string) : string :=
  match url_Parse (TrimSpace value) with
  | Err _ => "redacted-invalid-endpoint"
  | Ok parsed => url_String (without_Fragment (without_RawQuery (without_User parsed)))
  end.

Section Texts.
Context {GE : Geth}.

Definition lowerAddress (value : bytes) : string := ToLower (AddressHex value).

Definition moduleLabels (name : string) : string :=
  default "" (assoc name [
    ("RepositoryCore", "igit.module.repository-core"); ("RecoveryModule", "igit.module.recovery");
    ("ModerationModule", "igit.module.moderation"); ("EconomicModule", "igit.module.economic");
    ("UsernameModule", "igit.module.username"); ("BadgeModule", "igit.module.badge");
    ("ReleaseModule", "igit.module.release")])%string.

Definition moduleIDHex (contractName : string) : string :=
  ToLower (HashHex (keccak256 (string_bytes (moduleLabels contractName)))).

(** [value, _ := parseBytes32(text)] *)
Definition bytes32_or_zero (text : string) : bytes :=
  match parseBytes32 text with Ok value => value | Err _ => zero_bytes 32 end.

Definition address_argument (name : string) (value : bytes) : ConstructorArgument :=
  mk_ConstructorArgument name "address" (lowerAddress value).

Definition moduleConstructorEvidence (name : string) (directory coordinator operator : bytes) (fee : Z)
  : list ConstructorArgument :=
  [address_argument "directory" directory; address_argument "coordinator" coordinator] ++
  (if decide (name = "ModerationModule"%string) then
     [address_argument "admin_" operator; address_argument "committee_" operator]
   else if decide (name = "EconomicModule"%string) then
     [address_argument "admin_" operator; address_argument "treasury_" operator;
      mk_ConstructorArgument "platformFeeBps_" "uint16" (FormatUint fee)]
   else if decide (name = "UsernameModule"%string) then [address_argument "policyAdmin_" operator]
   else if decide (name = "ReleaseModule"%string) then [address_argument "releaseAuthority_" operator]
   else []).

(** *** Receipts *)

Definition validateReceiptBlock (receipt : EVMReceipt) : result Z :=
  match parseHexQuantity (rc_BlockNumber receipt) with
  | Ok blockNumber =>
      fail_if blockNumber =? 0 as Errorf "invalid receipt block number %q" [GStr (rc_BlockNumber receipt)] ;;
      fail_if negb (validHash (rc_BlockHash receipt))
        as Errorf "invalid receipt block hash %q" [GStr (rc_BlockHash receipt)] ;;
      Ok blockNumber
  | Err _ => errf "invalid receipt block number %q" [GStr (rc_BlockNumber receipt)]
  end.

Context {UC : UnicodeCase}.

(** Of a transaction with the hash [hash]; no target for a creation. *)
Definition validateCallReceipt (hash : string) (receipt : EVMReceipt) (expectedHash expectedTarget : string)
  : result unit :=
  fail_if negb (equalHash hash expectedHash) || negb (equalHash (rc_TransactionHash receipt) expectedHash)
    as Errorf "transaction and receipt hashes do not match" [] ;;
  let status := wide_ToLower (TrimSpace (rc_Status receipt)) in
  fail_if negb (bool_decide (status = "0x1"%string)) && negb (bool_decide (status = "1"%string))
    as Errorf "transaction receipt status is %q, want success" [GStr (rc_Status receipt)] ;;
  let? _ := validateReceiptBlock receipt in
  if decide (expectedTarget = ""%string) then Ok tt
  else match normalizeEVMAddress (rc_To receipt) with
       | Ok normalized =>
           fail_if negb (bool_decide (normalized = ToLower expectedTarget))
             as Errorf "receipt destination %q does not match %s" [GStr (rc_To receipt); GStr expectedTarget] ;;
           Ok tt
       | Err _ => errf "receipt destination %q does not match %s" [GStr (rc_To receipt); GStr expectedTarget]
       end.

Definition validateDeploymentReceipt (hash : string) (receipt : EVMReceipt) (expectedHash : string)
  : result bytes :=
  let? _ := validateCallReceipt hash receipt expectedHash "" in
  let? normalized := wrapf "invalid receipt contractAddress: %w" []
    (normalizeEVMAddress (rc_ContractAddress receipt)) in
  let address := HexToAddress normalized in
  fail_if bool_decide (address = zero_bytes 20) as Errorf "receipt contractAddress is zero" [] ;;
  fail_if negb (bool_decide (TrimSpace (rc_To receipt) = ""%string)) &&
          negb (EqualFold (rc_To receipt) "0x0000000000000000000000000000000000000000")
    as Errorf "contract creation receipt unexpectedly has destination %q" [GStr (rc_To receipt)] ;;
  Ok address.
End Texts.

(** ** The evidence file *)

Definition newEvidenceWriter (path : string) : prog disk file :=
  let path := Clean (TrimSpace path) in
  if bool_decide (path = "."%string) || bool_decide (path = ""%string)
  then fail (Errorf "deployment evidence output path is required" [])
  else
    wrap_error "create deployment evidence directory: %w" [] (MkdirAll (filepath_Dir path) mode_0700) ;;
    opened ← attempt (OpenNew path mode_0600);
    match opened with
    | Ok f => mret f
    | Err e =>
        if IsExist e
        then fail (Errorf "deployment evidence already exists and will not be overwritten: %s" [GStr path])
        else fail (Wrapf "create deployment evidence: %w" [] e)
    end.

(** [writer.persist] *)
Definition write_evidence (f : file) (m : Manifest) : prog disk unit :=
  wrap_error "truncate deployment evidence: %w" [] (Truncate f) ;;
  wrap_error "seek deployment evidence: %w" [] (Seek f) ;;
  wrap_error "write deployment evidence: %w" [] (Write f (MarshalCanonical m)) ;;
  wrap_error "sync deployment evidence: %w" [] (Sync f).

(** ** A deployment *)

(** What is handed to the transactor. *)
Inductive request : Type :=
| Creation (initcode : bytes)
| Call (target : string) (calldata : bytes).

Section Deployment.
Context {GE : Geth} {UC : UnicodeCase} {SV : Services}.

Record deployment := mk_deployment {
  dp_disk : disk;
  dp_outside : outside;
  dp_manifest : Manifest;
  dp_addresses : gmap string bytes;
  dp_codeHash : gmap string bytes;
  dp_nextOrder : Z;
  dp_sent : list (request * disk) }.

Definition with_manifest (m : Manifest) (s : deployment) : deployment :=
  mk_deployment (dp_disk s) (dp_outside s) m (dp_addresses s) (dp_codeHash s) (dp_nextOrder s) (dp_sent s).
Definition with_outside (o : outside) (s : deployment) : deployment :=
  mk_deployment (dp_disk s) o (dp_manifest s) (dp_addresses s) (dp_codeHash s) (dp_nextOrder s) (dp_sent s).
Definition with_dp_disk (d : disk) (s : deployment) : deployment :=
  mk_deployment d (dp_outside s) (dp_manifest s) (dp_addresses s) (dp_codeHash s) (dp_nextOrder s) (dp_sent s).
Definition with_order (n : Z) (s : deployment) : deployment :=
  mk_deployment (dp_disk s) (dp_outside s) (dp_manifest s) (dp_addresses s) (dp_codeHash s) n (dp_sent s).
Definition with_contract (name : string) (address codeHash : bytes) (s : deployment) : deployment :=
  mk_deployment (dp_disk s) (dp_outside s) (dp_manifest s) (<[name := address]> (dp_addresses s))
    (<[name := codeHash]> (dp_codeHash s)) (dp_nextOrder s) (dp_sent s).
Definition with_sent (r : request) (s : deployment) : deployment :=
  mk_deployment (dp_disk s) (dp_outside s) (dp_manifest s) (dp_addresses s) (dp_codeHash s) (dp_nextOrder s)
    (dp_sent s ++ [(r, dp_disk s)]).

Definition asking {A} (c : prog outside A) : prog deployment A := fun s =>
  let '(o, r) := c (dp_outside s) in (with_outside o s, r).

(** The fields of the manifest that change. *)
Definition set_contracts (l : list ContractEvidence) (m : Manifest) : Manifest :=
  mk_Manifest (mf_Schema m) (mf_Status m) (mf_CreatedAt m) (mf_UpdatedAt m) (mf_FailureStage m) (mf_Failure m)
    (mf_Compiler m) (mf_Source m) (mf_Chain m) (mf_SnapshotRoot m) (mf_PlatformFeeBPS m) (mf_Governance m)
    l (mf_ConfigurationTransactions m) (mf_DirectoryBindingVerification m) (mf_BlockscoutVerification m).
Definition set_configuration (l : list ConfigurationTransaction) (m : Manifest) : Manifest :=
  mk_Manifest (mf_Schema m) (mf_Status m) (mf_CreatedAt m) (mf_UpdatedAt m) (mf_FailureStage m) (mf_Failure m)
    (mf_Compiler m) (mf_Source m) (mf_Chain m) (mf_SnapshotRoot m) (mf_PlatformFeeBPS m) (mf_Governance m)
    (mf_Contracts m) l (mf_DirectoryBindingVerification m) (mf_BlockscoutVerification m).
Definition set_updated (t : string) (m : Manifest) : Manifest :=
  mk_Manifest (mf_Schema m) (mf_Status m) (mf_CreatedAt m) t (mf_FailureStage m) (mf_Failure m)
    (mf_Compiler m) (mf_Source m) (mf_Chain m) (mf_SnapshotRoot m) (mf_PlatformFeeBPS m) (mf_Governance m)
    (mf_Contracts m) (mf_ConfigurationTransactions m) (mf_DirectoryBindingVerification m)
    (mf_BlockscoutVerification m).
Definition set_failed (stage failure : string) (m : Manifest) : Manifest :=
  mk_Manifest (mf_Schema m) "failed" (mf_CreatedAt m) (mf_UpdatedAt m) stage failure
    (mf_Compiler m) (mf_Source m) (mf_Chain m) (mf_SnapshotRoot m) (mf_PlatformFeeBPS m) (mf_Governance m)
    (mf_Contracts m) (mf_ConfigurationTransactions m) (mf_DirectoryBindingVerification m)
    (mf_BlockscoutVerification m).
Definition set_bound (b : DirectoryBindingEvidence) (m : Manifest) : Manifest :=
  mk_Manifest (mf_Schema m) "bootstrapping" (mf_CreatedAt m) (mf_UpdatedAt m) (mf_FailureStage m) (mf_Failure m)
    (mf_Compiler m) (mf_Source m) (mf_Chain m) (mf_SnapshotRoot m) (mf_PlatformFeeBPS m) (mf_Governance m)
    (mf_Contracts m) (mf_ConfigurationTransactions m) (Some b) (mf_BlockscoutVerification m).

Definition edit (f : Manifest -> Manifest) : prog deployment unit :=
  modify (fun s => with_manifest (f (dp_manifest s)) s).

(** An assignment through the pointer that was appended last. *)
Definition change_last {A} (f : A -> A) (l : list A) : list A :=
  match reverse l with x :: l' => reverse l' ++ [f x] | [] => [] end.

Definition set_transaction (hash : string) (receipt : option EVMReceipt) (c : ContractEvidence) : ContractEvidence :=
  mk_ContractEvidence (co_TransactionOrder c) (co_ContractName c) (co_ModuleID c) (co_SourceName c)
    (co_SourceSHA256 c) (co_CreationBytecodeSHA256 c) (co_RuntimeTemplateSHA256 c) (co_ConstructorArguments c)
    (co_ConstructorArgsABI c) (co_InitcodeSHA256 c) (co_Address c) hash receipt (co_Runtime c).
Definition set_address (address : string) (c : ContractEvidence) : ContractEvidence :=
  mk_ContractEvidence (co_TransactionOrder c) (co_ContractName c) (co_ModuleID c) (co_SourceName c)
    (co_SourceSHA256 c) (co_CreationBytecodeSHA256 c) (co_RuntimeTemplateSHA256 c) (co_ConstructorArguments c)
    (co_ConstructorArgsABI c) (co_InitcodeSHA256 c) address (co_TransactionHash c) (co_Receipt c) (co_Runtime c).
Definition set_runtime (runtime : RuntimeEvidence) (c : ContractEvidence) : ContractEvidence :=
  mk_ContractEvidence (co_TransactionOrder c) (co_ContractName c) (co_ModuleID c) (co_SourceName c)
    (co_SourceSHA256 c) (co_CreationBytecodeSHA256 c) (co_RuntimeTemplateSHA256 c) (co_ConstructorArguments c)
    (co_ConstructorArgsABI c) (co_InitcodeSHA256 c) (co_Address c) (co_TransactionHash c) (co_Receipt c)
    (Some runtime).
Definition set_call_transaction (hash : string) (receipt : option EVMReceipt) (c : ConfigurationTransaction)
  : ConfigurationTransaction :=
  mk_ConfigurationTransaction (ct_TransactionOrder c) (ct_Purpose c) (ct_ModuleID c) (ct_Target c)
    (ct_Calldata c) (ct_CalldataSHA256 c) hash receipt.

Definition last_contract (f : ContractEvidence -> ContractEvidence) (m : Manifest) : Manifest :=
  set_contracts (change_last f (mf_Contracts m)) m.
Definition last_call (f : ConfigurationTransaction -> ConfigurationTransaction) (m : Manifest) : Manifest :=
  set_configuration (change_last f (mf_ConfigurationTransactions m)) m.

(** *** Evidence *)

Variables (options : Options) (artifacts : artifactSet) (operator snapshot : bytes) (writer : file).

Definition now : prog deployment string := fun s =>
  let '(o, t) := clock_now (dp_outside s) in (with_outside o s, Ok t).

Definition persist : prog deployment unit := fun s =>
  let '(d, r) := write_evidence writer (dp_manifest s) (dp_disk s) in (with_dp_disk d s, r).

Definition persist_now : prog deployment unit :=
  t ← now;
  edit (set_updated t) ;;
  persist.

Definition deploy_fail {A} (stage : string) (cause : goerror) : prog deployment A :=
  edit (set_failed stage (Error cause)) ;;
  persisted ← attempt persist_now;
  match persisted with
  | Err persistErr =>
      fail (Errorf "%s: %v (also failed to persist evidence: %v)"
              [GStr stage; GStr (Error cause); GStr (Error persistErr)])
  | Ok _ => fail (Wrapf "%s: %w" [GStr stage] cause)
  end.

Definition or_fail {A} (stage : string) (c : prog deployment A) : prog deployment A :=
  r ← attempt c;
  match r with Ok a => mret a | Err cause => deploy_fail stage cause end.

Definition artifact_named (name : string) : prog deployment checkedArtifact :=
  match as_byName artifacts !! name with
  | Some a => mret a
  | None => fail (Errorf "runtime error: invalid memory address or nil pointer dereference" [])
  end.

Definition address_of (s : deployment) (name : string) : bytes := default (zero_bytes 20) (dp_addresses s !! name).
Definition codeHash_of (s : deployment) (name : string) : bytes := default (zero_bytes 32) (dp_codeHash s !! name).

(** The transactor; [dp_sent] is written before it is called. *)
Definition transact_with (r : request)
    (c : outside -> outside * (option EVMTransactionResult * option goerror))
  : prog deployment (option EVMTransactionResult * option goerror) := fun s =>
  let s := with_sent r s in
  let '(o, answer) := c (dp_outside s) in (with_outside o s, Ok answer).

(** The next entry of the manifest, written before its transaction is sent, and
    what the transactor said of it. *)
Definition announce (entry : Z -> Manifest -> Manifest) : prog deployment unit :=
  modify (fun s => with_order (u64 (dp_nextOrder s + 1)) s) ;;
  order ← gets dp_nextOrder;
  edit (entry order) ;;
  persist_now.

Definition record_result (result : option EVMTransactionResult)
    (change : string -> option EVMReceipt -> Manifest -> Manifest) : prog deployment unit :=
  match result with
  | Some r => edit (change (normalizeHash (tr_Hash r)) (tr_Receipt r)) ;; persist_now
  | None => mret tt
  end.

(** *** Contracts *)

Definition verifyRuntime (name : string) (address : bytes) (receipt : EVMReceipt)
  : prog deployment (RuntimeEvidence * bytes) :=
  of_result (validateReceiptBlock receipt) ;;
  block ← asking (rpc_BlockByNumber (rc_BlockNumber receipt));
  if negb (equalHash (bl_Hash block) (rc_BlockHash receipt)) ||
     negb (EqualFold (bl_Number block) (rc_BlockNumber receipt))
  then fail (Errorf "receipt block changed before runtime verification" [])
  else
    observed ← asking (rpc_CodeAt (lowerAddress address) (rc_BlockNumber receipt));
    artifact ← artifact_named name;
    immutableValues ← of_result
      (compareRuntimeTemplate (ka_runtime artifact) observed (ka_ImmutableReferences (ka_text artifact)));
    blockAfter ← asking (rpc_BlockByNumber (rc_BlockNumber receipt));
    if negb (equalHash (bl_Hash blockAfter) (rc_BlockHash receipt)) ||
       negb (equalHash (bl_Hash blockAfter) (bl_Hash block))
    then fail (Errorf "receipt block changed during runtime verification" [])
    else
      let codeHash := keccak256 observed in
      mret (mk_RuntimeEvidence (rc_BlockNumber receipt) (normalizeHash (rc_BlockHash receipt)) (llen observed)
              (sha256_hex observed) (ToLower (HashHex codeHash)) (ka_RuntimeTemplateSHA256 (ka_text artifact))
              immutableValues true, codeHash).

Record contractSpec := mk_contractSpec {
  sp_name : string; sp_moduleID : string; sp_args : list abi_value;
  sp_argument : list ConstructorArgument }.

Definition add_contract (spec : contractSpec) (artifact : artifact_text) (constructor initcode : bytes)
    (order : Z) (m : Manifest) : Manifest :=
  set_contracts (mf_Contracts m ++ [mk_ContractEvidence order (sp_name spec) (sp_moduleID spec)
    (ka_SourceName artifact) (ka_SourceSHA256 artifact) (ka_CreationBytecodeSHA256 artifact)
    (ka_RuntimeTemplateSHA256 artifact) (sp_argument spec) ("0x" +:+ hex_encode constructor)
    (sha256_hex initcode) "" "" None None]) m.

Definition deployContract (spec : contractSpec) : prog deployment unit :=
  let name := sp_name spec in
  artifact ← artifact_named name;
  constructor ← or_fail ("encode_" +:+ name +:+ "_constructor")
    (of_result (abi_Pack (ca_Constructor (ka_parsedABI artifact)) (sp_args spec)));
  let initcode := ka_creation artifact ++ constructor in
  if maximumInitcodeBytes <? llen initcode
  then deploy_fail ("encode_" +:+ name +:+ "_constructor")
         (Errorf "constructor produces %d-byte initcode, exceeding EIP-3860 maximum %d"
            [GInt (llen initcode); GInt maximumInitcodeBytes])
  else
    announce (add_contract spec (ka_text artifact) constructor initcode) ;;
    '(result, txErr) ← transact_with (Creation initcode) (tx_Deploy initcode "0x0");
    record_result result (fun hash receipt => last_contract (set_transaction hash receipt)) ;;
    match txErr, result with
    | Some e, _ => deploy_fail ("deploy_" +:+ name) e
    | None, Some (mk_EVMTransactionResult hash (Some receipt)) =>
        address ← or_fail ("validate_" +:+ name +:+ "_receipt")
          (of_result (validateDeploymentReceipt hash receipt (normalizeHash hash)));
        edit (last_contract (set_address (lowerAddress address))) ;;
        '(runtime, runtimeHash) ← or_fail ("verify_" +:+ name +:+ "_runtime") (verifyRuntime name address receipt);
        edit (last_contract (set_runtime runtime)) ;;
        modify (with_contract name address runtimeHash) ;;
        persist_now
    | None, _ => deploy_fail ("deploy_" +:+ name) (Errorf "transactor returned no confirmed receipt" [])
    end.

Definition add_call (purpose moduleID target : string) (calldata : bytes) (order : Z) (m : Manifest) : Manifest :=
  set_configuration (mf_ConfigurationTransactions m ++ [mk_ConfigurationTransaction order purpose moduleID target
    ("0x" +:+ hex_encode calldata) (sha256_hex calldata) "" None]) m.

Definition configure (purpose moduleID targetName method : string) (args : list abi_value)
  : prog deployment unit :=
  artifact ← artifact_named targetName;
  calldata ← or_fail ("encode_" +:+ purpose)
    (of_result (suite_Pack (ca_Methods (ka_parsedABI artifact)) method args));
  target ← gets (fun s => lowerAddress (address_of s targetName));
  announce (add_call purpose moduleID target calldata) ;;
  '(result, txErr) ← transact_with (Call target calldata) (tx_Send target calldata "0x0");
  record_result result (fun hash receipt => last_call (set_call_transaction hash receipt)) ;;
  match txErr, result with
  | Some e, _ => deploy_fail purpose e
  | None, Some (mk_EVMTransactionResult hash (Some receipt)) =>
      or_fail ("validate_" +:+ purpose +:+ "_receipt")
        (of_result (validateCallReceipt hash receipt (normalizeHash hash) target)) ;;
      block ← or_fail ("pin_" +:+ purpose +:+ "_block") (asking (rpc_BlockByNumber (rc_BlockNumber receipt)));
      if negb (equalHash (bl_Hash block) (rc_BlockHash receipt)) ||
         negb (EqualFold (bl_Number block) (rc_BlockNumber receipt))
      then deploy_fail ("pin_" +:+ purpose +:+ "_block")
             (Errorf "receipt block changed or returned inconsistent evidence" [])
      else mret tt
  | None, _ => deploy_fail purpose (Errorf "transactor returned no confirmed receipt" [])
  end.

(** *** Bindings *)

Definition suite_call (contractName : string) (address : bytes) (method : string) (args : list abi_value)
    (block : string) : prog deployment go_any :=
  match as_byName artifacts !! contractName with
  | None => fail (Errorf "missing ABI for %s" [GStr contractName])
  | Some artifact =>
      let methods := ca_Methods (ka_parsedABI artifact) in
      calldata ← of_result (wrapf "encode %s.%s: %w" [GStr contractName; GStr method]
        (suite_Pack methods method args));
      output ← wrap_error "call %s.%s at %s: %w" [GStr contractName; GStr method; GStr block]
        (asking (rpc_CallContractAt (lowerAddress address) ("0x" +:+ hex_encode calldata) block));
      match suite_method_named methods method with
      | None => fail (Errorf "ABI method %s.%s is missing" [GStr contractName; GStr method])
      | Some definition =>
          values ← of_result (wrapf "decode %s.%s: %w" [GStr contractName; GStr method]
            (let? values := abi_Unpack (sm_outputs definition) output in
             Ok (typed (sm_outputs definition) values)));
          match values with
          | [value] => mret value
          | _ => fail (Errorf "%s.%s returned %d values, want 1"
                         [GStr contractName; GStr method; GInt (llen values)])
          end
      end
  end.

Definition read_as {A} (assertion : go_any -> option A) (want contract : string) (address : bytes)
    (method : string) (args : list abi_value) (block : string) : prog deployment A :=
  value ← suite_call contract address method args block;
  match assertion value with
  | Some a => mret a
  | None => fail (Errorf ("%s.%s returned %T, want " +:+ want)
                    [GStr contract; GStr method; GStr (any_type_text value)])
  end.

Definition callAddress := read_as as_address "address".
Definition callBytes32 := read_as as_hash "bytes32".
Definition callBool := read_as as_bool "bool".

(** The type switch of [callUint]. *)
Definition as_any_uint (value : go_any) : option Z :=
  match as_big value with
  | Some n => Some n
  | None => match as_uint 64 value, as_uint 8 value, as_uint 16 value, as_uint 32 value with
            | Some n, _, _, _ | _, Some n, _, _ | _, _, Some n, _ | _, _, _, Some n => Some n
            | _, _, _, _ => None
            end
  end.
Definition callUint := read_as as_any_uint "uint".

Definition callUint64 (contract : string) (address : bytes) (method : string) (args : list abi_value)
    (block : string) : prog deployment Z :=
  value ← callUint contract address method args block;
  if (0 <=? value) && (value <? 2 ^ 64) then mret value
  else fail (Errorf "%s.%s overflows uint64" [GStr contract; GStr method]).

Definition callUint8 (contract : string) (address : bytes) (method : string) (args : list abi_value)
    (block : string) : prog deployment Z :=
  value ← callUint64 contract address method args block;
  if 255 <? value then fail (Errorf "%s.%s overflows uint8" [GStr contract; GStr method])
  else mret value.

(** The role and the function of a module's authority. *)
Definition authority_method (contractName : string) : option (string * string) :=
  if bool_decide (contractName = "ModerationModule"%string) || bool_decide (contractName = "EconomicModule"%string)
  then Some ("admin", "admin")%string
  else if decide (contractName = "UsernameModule"%string) then Some ("username_policy_admin", "policyAdmin")%string
  else if decide (contractName = "ReleaseModule"%string) then Some ("release_authority", "releaseAuthority")%string
  else None.

Definition verifyModuleAuthority (contractName : string) (address : bytes) (blockNumber : string)
  : prog deployment (string * string) :=
  match authority_method contractName with
  | None => mret (""%string, ""%string)
  | Some (role, method) =>
      value ← callAddress contractName address method [] blockNumber;
      if negb (bool_decide (value = operator))
      then fail (Errorf "%s %s does not match deployment operator" [GStr contractName; GStr role])
      else mret (role, lowerAddress value)
  end.

Definition verify_module_binding (directoryAddress coordinatorAddress : bytes) (blockNumber : string)
    (modules : list ModuleBindingEvidence) (contractName : string)
  : prog deployment (list ModuleBindingEvidence) :=
  let moduleID := bytes32_or_zero (moduleIDHex contractName) in
  moduleAddress ← callAddress "SuiteDirectory" directoryAddress "moduleAddress" [VBytes32 moduleID] blockNumber;
  directoryCodeHash ← callBytes32 "SuiteDirectory" directoryAddress "moduleCodeHash" [VBytes32 moduleID] blockNumber;
  directoryVerified ← callBool "SuiteDirectory" directoryAddress "verifyModule" [VBytes32 moduleID] blockNumber;
  moduleDirectory ← callAddress contractName moduleAddress "suiteDirectory" [] blockNumber;
  moduleCoordinator ← callAddress contractName moduleAddress "bootstrapCoordinator" [] blockNumber;
  observedModuleID ← callBytes32 contractName moduleAddress "moduleId" [] blockNumber;
  bootstrapFinalized ← callBool contractName moduleAddress "bootstrapFinalized" [] blockNumber;
  code ← asking (rpc_CodeAt (lowerAddress moduleAddress) blockNumber);
  let observedHash := keccak256 code in
  deployedAddress ← gets (fun s => address_of s contractName);
  deployedHash ← gets (fun s => codeHash_of s contractName);
  if negb (bool_decide (moduleAddress = deployedAddress)) ||
     negb (bool_decide (directoryCodeHash = deployedHash)) ||
     negb (bool_decide (directoryCodeHash = observedHash)) || negb directoryVerified ||
     negb (bool_decide (moduleDirectory = directoryAddress)) ||
     negb (bool_decide (moduleCoordinator = coordinatorAddress)) ||
     negb (bool_decide (observedModuleID = moduleID)) || bootstrapFinalized
  then fail (Errorf "module binding for %s is inconsistent" [GStr contractName])
  else
    '(authorityRole, authorityAddress) ← verifyModuleAuthority contractName moduleAddress blockNumber;
    mret (modules ++ [mk_ModuleBindingEvidence (hashHex moduleID) contractName (lowerAddress moduleAddress)
      (hashHex directoryCodeHash) (ToLower (HashHex observedHash)) directoryVerified
      (lowerAddress moduleDirectory) (lowerAddress moduleCoordinator) (hashHex observedModuleID)
      bootstrapFinalized authorityRole authorityAddress]).

(** The reads of the directory and the coordinator, and what they must say. *)
Record suite_reads := mk_suite_reads {
  sr_suiteVersion : Z; sr_state : Z; sr_configuredChainID : Z; sr_snapshotRoot : bytes;
  sr_bootstrapAuthority : bytes; sr_coordinator : bytes; sr_coordinatorCodeHash : bytes;
  sr_moduleCount : Z; sr_coordinatorDirectory : bytes; sr_coordinatorSnapshot : bytes;
  sr_coordinatorOperator : bytes; sr_activated : bool; sr_nextModule : Z }.

Definition read_suite (directoryAddress coordinatorAddress : bytes) (blockNumber : string)
  : prog deployment suite_reads :=
  let directory := "SuiteDirectory"%string in
  let coordinator := "BootstrapCoordinator"%string in
  suiteVersion ← callUint64 directory directoryAddress "suiteVersion" [] blockNumber;
  state ← callUint8 directory directoryAddress "state" [] blockNumber;
  configuredChainID ← callUint directory directoryAddress "configuredChainId" [] blockNumber;
  snapshotRoot ← callBytes32 directory directoryAddress "snapshotRoot" [] blockNumber;
  bootstrapAuthority ← callAddress directory directoryAddress "bootstrapAuthority" [] blockNumber;
  configuredCoordinator ← callAddress directory directoryAddress "bootstrapCoordinator" [] blockNumber;
  coordinatorCodeHash ← callBytes32 directory directoryAddress "bootstrapCoordinatorCodeHash" [] blockNumber;
  moduleCount ← callUint directory directoryAddress "registeredModuleCount" [] blockNumber;
  coordinatorDirectory ← callAddress coordinator coordinatorAddress "suiteDirectory" [] blockNumber;
  coordinatorSnapshot ← callBytes32 coordinator coordinatorAddress "snapshotRoot" [] blockNumber;
  coordinatorOperator ← callAddress coordinator coordinatorAddress "operator" [] blockNumber;
  activated ← callBool coordinator coordinatorAddress "activated" [] blockNumber;
  nextModule ← callUint coordinator coordinatorAddress "nextModuleIndex" [] blockNumber;
  mret (mk_suite_reads suiteVersion state configuredChainID snapshotRoot bootstrapAuthority
          configuredCoordinator coordinatorCodeHash moduleCount coordinatorDirectory coordinatorSnapshot
          coordinatorOperator activated nextModule).

Definition verifyBindings (blockNumber expectedBlockHash : string) : prog deployment DirectoryBindingEvidence :=
  match parseHexQuantity blockNumber with
  | Err _ => fail (Errorf "invalid binding verification block %q" [GStr blockNumber])
  | Ok _ =>
  before ← asking (rpc_BlockByNumber blockNumber);
  if negb (equalHash (bl_Hash before) expectedBlockHash) || negb (EqualFold (bl_Number before) blockNumber)
  then fail (Errorf "binding verification block does not match final configuration receipt" [])
  else
  directoryAddress ← gets (fun s => address_of s "SuiteDirectory");
  coordinatorAddress ← gets (fun s => address_of s "BootstrapCoordinator");
  directoryHash ← gets (fun s => codeHash_of s "SuiteDirectory");
  coordinatorHash ← gets (fun s => codeHash_of s "BootstrapCoordinator");
  r ← read_suite directoryAddress coordinatorAddress blockNumber;
  if negb (sr_suiteVersion r =? 3) || negb (sr_state r =? 0) ||
     negb (sr_configuredChainID r =? op_ChainID options) || negb (bool_decide (sr_snapshotRoot r = snapshot))
  then fail (Errorf "directory chain/version/state/snapshot binding is inconsistent" [])
  else if negb (bool_decide (sr_bootstrapAuthority r = zero_bytes 20)) ||
     negb (bool_decide (sr_coordinator r = coordinatorAddress)) ||
     negb (bool_decide (sr_coordinatorCodeHash r = coordinatorHash))
  then fail (Errorf "directory coordinator binding is inconsistent" [])
  else if negb (sr_moduleCount r =? 7)
  then fail (Errorf "directory registered module count is %s, want 7" [GInt (sr_moduleCount r)])
  else if negb (bool_decide (sr_coordinatorDirectory r = directoryAddress)) ||
     negb (bool_decide (sr_coordinatorSnapshot r = snapshot)) ||
     negb (bool_decide (sr_coordinatorOperator r = operator)) || sr_activated r || negb (sr_nextModule r =? 0)
  then fail (Errorf "coordinator immutable/bootstrap state binding is inconsistent" [])
  else
  coordinatorCode ← asking (rpc_CodeAt (lowerAddress coordinatorAddress) blockNumber);
  if negb (bool_decide (sr_coordinatorCodeHash r = keccak256 coordinatorCode))
  then fail (Errorf "coordinator code hash differs at binding verification block" [])
  else
  directoryCode ← asking (rpc_CodeAt (lowerAddress directoryAddress) blockNumber);
  if negb (bool_decide (keccak256 directoryCode = directoryHash))
  then fail (Errorf "directory code hash changed before binding verification" [])
  else
  modules ← foldP (verify_module_binding directoryAddress coordinatorAddress blockNumber) (drop 2 contractOrder) [];
  moderation ← gets (fun s => address_of s "ModerationModule");
  economic ← gets (fun s => address_of s "EconomicModule");
  moderationCommittee ← callAddress "ModerationModule" moderation "committee" [] blockNumber;
  economicTreasury ← callAddress "EconomicModule" economic "treasury" [] blockNumber;
  economicFee ← callUint64 "EconomicModule" economic "platformFeeBps" [] blockNumber;
  if negb (bool_decide (moderationCommittee = operator)) || negb (bool_decide (economicTreasury = operator)) ||
     negb (economicFee =? op_PlatformFeeBPS options)
  then fail (Errorf "mutable initial governance settings do not match deployment parameters" [])
  else
  after ← asking (rpc_BlockByNumber blockNumber);
  if negb (equalHash (bl_Hash after) expectedBlockHash) || negb (equalHash (bl_Hash after) (bl_Hash before)) ||
     negb (EqualFold (bl_Number after) blockNumber)
  then fail (Errorf "binding verification block changed during fixed-block reads" [])
  else
  let own := lowerAddress operator in
  mret (mk_DirectoryBindingEvidence blockNumber (normalizeHash expectedBlockHash) (sr_suiteVersion r)
    (sr_state r) (sr_state r =? 1) (u64 (sr_configuredChainID r)) (hashHex (sr_snapshotRoot r))
    (lowerAddress (sr_bootstrapAuthority r)) (lowerAddress (sr_coordinator r))
    (hashHex (sr_coordinatorCodeHash r)) (u64 (sr_moduleCount r)) (lowerAddress (sr_coordinatorDirectory r))
    (hashHex (sr_coordinatorSnapshot r)) (lowerAddress (sr_coordinatorOperator r)) (sr_activated r)
    (u64 (sr_nextModule r)) modules
    (mk_InitialGovernanceBinding own (lowerAddress moderationCommittee) own (lowerAddress economicTreasury)
       (economicFee mod 2 ^ 16) own own))
  end.

(** *** The sequence *)

Definition directory_spec : contractSpec := {|
  sp_name := "SuiteDirectory"; sp_moduleID := "";
  sp_args := [VAddress operator; VUint (op_ChainID options); VBytes32 snapshot];
  sp_argument := [address_argument "authority" operator;
    mk_ConstructorArgument "chainId" "uint256" (FormatUint (op_ChainID options));
    mk_ConstructorArgument "snapshotRoot_" "bytes32" (hashHex snapshot)] |}.

Definition coordinator_spec (directoryAddress : bytes) : contractSpec := {|
  sp_name := "BootstrapCoordinator"; sp_moduleID := "";
  sp_args := [VAddress directoryAddress; VAddress operator];
  sp_argument := [address_argument "directory" directoryAddress; address_argument "operator_" operator] |}.

Definition module_arguments (directory coordinator : bytes) : list (string * list abi_value) :=
  let d := VAddress directory in
  let c := VAddress coordinator in
  let o := VAddress operator in
  [("RepositoryCore", [d; c]); ("RecoveryModule", [d; c]); ("ModerationModule", [d; c; o; o]);
   ("EconomicModule", [d; c; o; o; VUint (op_PlatformFeeBPS options)]); ("UsernameModule", [d; c; o]);
   ("BadgeModule", [d; c]); ("ReleaseModule", [d; c; o])]%string.

Definition module_spec (directory coordinator : bytes) (m : string * list abi_value) : contractSpec :=
  mk_contractSpec (fst m) (moduleIDHex (fst m)) (snd m)
    (moduleConstructorEvidence (fst m) directory coordinator operator (op_PlatformFeeBPS options)).

Definition deploy_module (directory coordinator : bytes) (m : string * list abi_value) : prog deployment unit :=
  let spec := module_spec directory coordinator m in
  deployContract spec ;;
  address ← gets (fun s => address_of s (fst m));
  codeHash ← gets (fun s => codeHash_of s (fst m));
  configure ("register_" +:+ ToLower (fst m)) (sp_moduleID spec) "BootstrapCoordinator" "registerModule"
    [VBytes32 (bytes32_or_zero (sp_moduleID spec)); VAddress address; VBytes32 codeHash].

(** The block of the last configuration transaction: its receipt is there. *)
Definition last_receipt (m : Manifest) : result EVMReceipt :=
  match List.last (map Some (mf_ConfigurationTransactions m)) None with
  | Some c => match ct_Receipt c with
              | Some receipt => Ok receipt
              | None => errf "runtime error: invalid memory address or nil pointer dereference" []
              end
  | None => out_of_range
  end.

Definition deploy_suite : prog deployment unit :=
  persist ;;
  chainID ← or_fail "verify_chain" (asking rpc_ChainID);
  if negb (chainID =? op_ChainID options)
  then deploy_fail "verify_chain" (Errorf "RPC chain ID %d does not match requested chain ID %d"
         [GInt chainID; GInt (op_ChainID options)])
  else
    deployContract directory_spec ;;
    directoryAddress ← gets (fun s => address_of s "SuiteDirectory");
    deployContract (coordinator_spec directoryAddress) ;;
    coordinatorAddress ← gets (fun s => address_of s "BootstrapCoordinator");
    coordinatorHash ← gets (fun s => codeHash_of s "BootstrapCoordinator");
    configure "bind_bootstrap_coordinator" "" "SuiteDirectory" "setBootstrapCoordinator"
      [VAddress coordinatorAddress; VBytes32 coordinatorHash] ;;
    for_each (deploy_module directoryAddress coordinatorAddress)
      (module_arguments directoryAddress coordinatorAddress) ;;
    m ← gets dp_manifest;
    lastReceipt ← of_result (last_receipt m);
    binding ← or_fail "verify_directory_bindings"
      (verifyBindings (rc_BlockNumber lastReceipt) (rc_BlockHash lastReceipt));
    edit (set_bound binding) ;;
    persist_now.
End Deployment.

(** ** [Deploy] *)

Section Deploy.
Context {GE : Geth} {UC : UnicodeCase} {AF : AbiFiles} {SV : Services} {UR : Urls}.

Record world := mk_world { wd_disk : disk; wd_outside : outside }.

Record prepared := mk_prepared {
  pr_artifacts : artifactSet; pr_operator : bytes; pr_snapshot : bytes; pr_manifest : Manifest }.

Definition on_world_disk {A} (c : prog disk A) : prog world A := fun w =>
  let '(d, r) := c (wd_disk w) in (mk_world d (wd_outside w), r).

Definition new_manifest (options : Options) (operator snapshot : bytes) (i : ArtifactInspection) (now : string)
  : Manifest :=
  let own := lowerAddress operator in {|
  mf_Schema := manifestSchema; mf_Status := "preparing"; mf_CreatedAt := now; mf_UpdatedAt := now;
  mf_FailureStage := ""; mf_Failure := ""; mf_Compiler := requiredCompilerEvidence;
  mf_Source := mk_SourceEvidence (op_SourceCommit options) (ai_ArtifactSetSHA256 i) (ai_Contracts i);
  mf_Chain := mk_ChainEvidence (TrimSpace (op_Network options)) (op_ChainID options)
    (evidenceEndpoint (op_RPCEndpoint options)) (op_BlockExplorer options);
  mf_SnapshotRoot := hashHex snapshot; mf_PlatformFeeBPS := op_PlatformFeeBPS options;
  mf_Governance := mk_GovernanceEvidence own own own own own own false
    "testnet bootstrap uses one rotated encrypted-keystore EOA for operator, admin, treasury, committee, username policy, and release authority; production requires redesigned multisig/timelock governance";
  mf_Contracts := []; mf_ConfigurationTransactions := []; mf_DirectoryBindingVerification := None;
  mf_BlockscoutVerification := mk_BlockscoutVerification "not_attempted" (op_BlockExplorer options)
    "source verification is independent of deployment success and must be recorded by a separate evidence-producing command" |}.

Definition prepare (options : Options) : prog world prepared :=
  artifacts ← on_world_disk (loadArtifactSet (op_ArtifactDirectory options));
  '(operator, snapshot) ← of_result (
    fail_if op_ChainID options =? 0 as Errorf "deployment chain ID must be positive" [] ;;
    fail_if bool_decide (TrimSpace (op_RPCEndpoint options) = ""%string)
      as Errorf "deployment RPC endpoint is required" [] ;;
    fail_if 500 <? op_PlatformFeeBPS options
      as Errorf "platform fee %d exceeds contract maximum 500 bps" [GInt (op_PlatformFeeBPS options)] ;;
    let? _ := validateSourceCommit (op_SourceCommit options) in
    let? normalizedOperator := wrapf "normalize bootstrap operator: %w" []
      (normalizeEVMAddress (op_Operator options)) in
    let operator := HexToAddress normalizedOperator in
    fail_if bool_decide (operator = zero_bytes 20) as Errorf "bootstrap operator cannot be zero" [] ;;
    let? snapshot := wrapf "parse snapshot root: %w" [] (parseBytes32 (op_SnapshotRoot options)) in
    fail_if bool_decide (snapshot = zero_bytes 32) as Errorf "snapshot root cannot be zero" [] ;;
    Ok (operator, snapshot));
  now ← (fun w => let '(o, t) := clock_now (wd_outside w) in (mk_world (wd_disk w) o, Ok t));
  inspection ← of_result (inspection artifacts);
  mret (mk_prepared artifacts operator snapshot (new_manifest options operator snapshot inspection now)).

(** The world, the sent transactions, the manifest if it is not nil, and the
    error. *)
Definition outcome : Type := world * list (request * disk) * option Manifest * option goerror.

Definition close_evidence (writer : file) (r : result unit) (d : disk) : disk * option goerror :=
  match r, Close writer d with
  | Err e, (d', _) => (d', Some e)
  | Ok _, (d', Ok _) => (d', None)
  | Ok _, (d', Err e) => (d', Some (Wrapf "close deployment evidence: %w" [] e))
  end.

Definition Deploy (options : Options) (outputPath : string) (w : world) : outcome :=
  match (p ← prepare options; f ← on_world_disk (newEvidenceWriter outputPath); mret (p, f)) w with
  | (w1, Err e) => (w1, [], None, Some e)
  | (w1, Ok (p, writer)) =>
      let s := mk_deployment (wd_disk w1) (wd_outside w1) (pr_manifest p) ∅ ∅ 0 [] in
      let '(s', r) := deploy_suite options (pr_artifacts p) (pr_operator p) (pr_snapshot p) writer s in
      let '(d, e) := close_evidence writer r (dp_disk s') in
      (mk_world d (dp_outside s'), dp_sent s', Some (dp_manifest s'), e)
  end.
End Deploy.
