(* ===== verification/DeployProps.v ===== *)
(** * DeployProps: what a deployment guarantees

    The comparison of deployed code with its template is exact, the evidence on
    disk lists every transaction before it is sent and is never written over
    another file, and a deployment that succeeds is bound as it was asked for;
    [Launch] is such a deployment, evaluated. *)
From Stdlib Require Import ZArith Lia Ascii String.
From stdpp Require Import base list gmap strings option sorting.
From S2P Require Import Prelude GoText GoIo Prog Json JsonSpec Encodings Geth Paths FileSystem FileProtection FileTexts FileProtectionProps EvmAddress EvmRpc EvmTx SuiteAbi Keystore DeployArtifact Deploy.

Local Open Scope Z_scope.

(** ** Deployed code *)

Lemma lookup_repeat {A} (x : A) n i : (i < n)%nat -> repeat x n !! i = Some x.
Proof. revert i. induction n as [|n IH]; intros [|i] H; [lia|lia|done|apply IH; lia]. Qed.

(** Marking a range of a list. *)
Definition in_range (start n i : nat) : Prop := (start <= i < start + n)%nat.

#[export] Instance in_range_dec start n i : Decision (in_range start n i).
Proof. unfold in_range. apply _. Defined.

Definition mark_from (start n : nat) (m : list bool) : list bool :=
  imap (fun i b => if decide (in_range start n i) then true else b) m.

Lemma length_mark start n m : length (mark_from start n m) = length m.
Proof. apply length_imap. Qed.

Lemma lookup_mark start n m i :
  mark_from start n m !! i = (fun b => if decide (in_range start n i) then true else b) <$> m !! i.
Proof. apply list_lookup_imap. Qed.

Lemma mark_run start n m :
  (start + n <= length m)%nat ->
  foldM (fun m index => if decide (index < length m)%nat then Ok (<[index := true]> m) else out_of_range)
    (seq start n) m = Ok (mark_from start n m).
Proof.
  revert start m. induction n as [|n IH]; intros start m Hl; cbn [seq foldM].
  - f_equal. apply list_eq. intros i. rewrite lookup_mark. destruct (m !! i); [|done]. cbn.
    rewrite decide_False; [done|]. unfold in_range. lia.
  - rewrite decide_True by lia. cbn. rewrite IH by (rewrite length_insert; lia). f_equal.
    apply list_eq. intros i. rewrite !lookup_mark. destruct (decide (i = start)) as [->|Hne].
    + rewrite list_lookup_insert_eq by lia.
      destruct (lookup_lt_is_Some_2 m start) as [b ->]; [lia|]. cbn.
      rewrite (decide_True (P:=in_range start (S n) start)) by (unfold in_range; lia). by destruct (decide _).
    + rewrite list_lookup_insert_ne by done. destruct (m !! i); [|done]. cbn. f_equal.
      destruct (decide (in_range (S start) n i)), (decide (in_range start (S n) i)); unfold in_range in *; (done || lia).
Qed.

(** References that are inside code of [size] bytes. *)
Definition reference_fits (size : Z) (r : ImmutableReference) : Prop :=
  ir_Length r = 32 /\ 0 <= ir_Start r /\ ir_Start r + 32 <= size.
Definition fitting (size : Z) (refs : references) : Prop :=
  map_Forall (fun _ rs => rs <> [] /\ Forall (reference_fits size) rs) refs.

Definition start_of (r : ImmutableReference) : nat := Z.to_nat (ir_Start r).
(** The bytes at a reference. *)
Definition value_at (observed : bytes) (r : ImmutableReference) : bytes := take 32 (drop (start_of r) observed).

Definition covered (refs : references) (i : nat) : Prop :=
  exists key rs r, refs !! key = Some rs /\ r ∈ rs /\ in_range (start_of r) 32 i.

Section Comparison.
Variables (observed : bytes) (refs : references).
Hypothesis small : llen observed <= maximumRuntimeBytes.
Hypothesis refs_fit : fitting (llen observed) refs.

Lemma length_value r : reference_fits (llen observed) r -> length (value_at observed r) = 32%nat.
Proof.
  intros (_ & H0 & H1). unfold value_at, start_of. rewrite length_take, length_drop. unfold llen in H1. lia.
Qed.

Lemma stop_of r : reference_fits (llen observed) r -> u64 (ir_Start r + ir_Length r) = ir_Start r + 32.
Proof.
  intros (-> & H0 & H1). apply u64_small. unfold maximumRuntimeBytes in small. split; [lia|].
  assert (2 ^ 15 < 2 ^ 64) by (apply Z.pow_lt_mono_r; lia). lia.
Qed.

Lemma read_reference_run key mutable expected r :
  reference_fits (llen observed) r -> length mutable = length observed ->
  read_reference observed key (mutable, expected) r =
    let v := value_at observed r in
    if decide (expected = None \/ expected = Some v)
    then Ok (mark_from (start_of r) 32 mutable, Some v)
    else errf "immutable %s has inconsistent values across runtime references" [GStr key].
Proof.
  intros Hr Hl. pose proof (length_value r Hr) as Hv. unfold read_reference. rewrite (stop_of r Hr).
  pose proof Hr as (_ & H0 & H1). unfold slice_bytes.
  rewrite (proj2 (Z.leb_le 0 _)), (proj2 (Z.leb_le _ (ir_Start r + 32))), (proj2 (Z.leb_le (ir_Start r + 32) _)) by lia.
  cbn [andb]. replace (ir_Start r + 32 - ir_Start r) with 32 by lia.
  change (Z.to_nat 32) with 32%nat. fold (start_of r). fold (value_at observed r). cbv zeta.
  assert (value_at observed r <> []) as Hne by (intros E; rewrite E in Hv; done).
  assert ((start_of r + 32 <= length mutable)%nat) as Hm.
  { rewrite Hl. unfold start_of, llen in *. lia. }
  destruct expected as [e|].
  - destruct (decide (e = value_at observed r)) as [->|Hd].
    + rewrite bool_decide_eq_true_2, (decide_True (P := _ \/ _)) by (done || by right). cbn [negb].
      by rewrite mark_run by done.
    + rewrite bool_decide_eq_false_2, (decide_False (P := _ \/ _)) by (done || by intros [?|[= ?]]). done.
  - rewrite decide_False, (decide_True (P := _ \/ _)) by (done || by left). by rewrite mark_run by done.
Qed.

(** One group: all of its references hold the same bytes. *)
Definition mark_all (rs : list ImmutableReference) (m : list bool) : list bool :=
  fold_left (fun m r => mark_from (start_of r) 32 m) rs m.

Lemma length_mark_all rs m : length (mark_all rs m) = length m.
Proof. revert m. induction rs as [|r rs IH]; intros m; [done|]. cbn. by rewrite IH, length_mark. Qed.

Lemma lookup_mark_all rs m i :
  mark_all rs m !! i =
    (fun b => if decide (Exists (fun r => in_range (start_of r) 32 i) rs) then true else b) <$> m !! i.
Proof.
  revert m. induction rs as [|r rs IH]; intros m; cbn [mark_all fold_left].
  - destruct (m !! i); [|done]. cbn. rewrite decide_False; [done|]. by intros H%Exists_nil.
  - fold (mark_all rs (mark_from (start_of r) 32 m)). rewrite IH, lookup_mark. destruct (m !! i); [|done]. cbn. f_equal.
    clear IH. repeat case_decide; try done; exfalso; rewrite ?List.Exists_cons in *; tauto.
Qed.

Lemma read_references_run key rs mutable expected :
  Forall (reference_fits (llen observed)) rs -> length mutable = length observed ->
  match foldM (read_reference observed key) rs (mutable, expected) with
  | Ok (m, e) => m = mark_all rs mutable /\
      match e with
      | Some v => Forall (fun r => value_at observed r = v) rs /\ (expected = None \/ expected = Some v)
      | None => rs = [] /\ expected = None
      end
  | Err _ => ~ exists v, Forall (fun r => value_at observed r = v) rs /\ (expected = None \/ expected = Some v)
  end.
Proof.
  intros Hrs. revert mutable expected. induction Hrs as [|r rs Hr Hrs IH]; intros mutable expected Hl; cbn [foldM].
  - destruct expected; naive_solver.
  - rewrite read_reference_run by done. cbv zeta. case_decide as Hd.
    + cbn [foldM]. specialize (IH (mark_from (start_of r) 32 mutable) (Some (value_at observed r))).
      rewrite length_mark in IH. specialize (IH Hl).
      destruct (foldM _ rs _) as [[m [e|]]|e].
      * destruct IH as [-> [Hall [?|[= <-]]]]; [done|]. split; [done|]. split; [by constructor|done].
      * by destruct IH as [_ [_ ?]].
      * intros (v & Hall & Hv). apply IH. inversion_clear Hall as [|?? E Hrest]. subst v. exists (value_at observed r). auto.
    + intros (v & Hall & Hv). inversion_clear Hall as [|?? E Hrest]. subst v. auto.
Qed.

Lemma read_group_run key mutable values rs :
  refs !! key = Some rs -> length mutable = length observed ->
  match read_group observed refs (mutable, values) key with
  | Ok (m, vs) => m = mark_all rs mutable /\
      exists v, length v = 32%nat /\ Forall (fun r => value_at observed r = v) rs /\
        vs = <[key := ("0x" +:+ hex_encode v)%string]> values
  | Err _ => ~ exists v, Forall (fun r => value_at observed r = v) rs
  end.
Proof.
  intros Hk Hl. destruct (refs_fit _ _ Hk) as [Hne Hfit]. unfold read_group. rewrite Hk. cbn [default]. unfold id.
  pose proof (read_references_run key rs mutable None Hfit Hl) as H.
  destruct (foldM _ rs _) as [[m e]|e]; cbn.
  - destruct H as [-> H]. split; [done|]. destruct e as [v|]; [|by destruct H]. destruct H as [Hall _].
    exists v. split_and!; [|done..]. destruct rs as [|r rs]; [done|].
    inversion_clear Hall as [|?? Hv _]. inversion_clear Hfit as [|?? Hr _]. rewrite <- Hv. by apply length_value.
  - intros (v & Hv). apply H. exists v. auto.
Qed.

(** All groups. *)
Definition group_holds (key : string) (values : gmap string string) : Prop :=
  exists rs v, refs !! key = Some rs /\ length v = 32%nat /\ Forall (fun r => value_at observed r = v) rs /\
    values !! key = Some ("0x" +:+ hex_encode v)%string.

Lemma read_groups_run keys mutable values :
  NoDup keys -> Forall (fun key => is_Some (refs !! key)) keys -> length mutable = length observed ->
  match foldM (read_group observed refs) keys (mutable, values) with
  | Ok (m, vs) =>
      length m = length observed /\
      (forall i, m !! i = Some false <->
         mutable !! i = Some false /\ ~ exists key rs r, key ∈ keys /\ refs !! key = Some rs /\ r ∈ rs /\
           in_range (start_of r) 32 i) /\
      Forall (fun key => group_holds key vs) keys /\ (forall key, key ∉ keys -> vs !! key = values !! key)
  | Err _ => ~ Forall (fun key => exists rs v, refs !! key = Some rs /\ Forall (fun r => value_at observed r = v) rs) keys
  end.
Proof.
  intros Hnd. revert mutable values. induction Hnd as [|key keys Hk Hnd IH]; intros mutable values Hr Hl; cbn [foldM].
  - split_and!; [done| |done|done]. intros i. split; [|by intros [? _]].
    intros H. split; [done|]. by intros (? & ? & ? & ?%elem_of_nil & _).
  - inversion_clear Hr as [|?? [rs Hrs] Hr']. pose proof (read_group_run key mutable values rs Hrs Hl) as H.
    destruct (read_group observed refs (mutable, values) key) as [[m vs]|e] eqn:Eg.
    + destruct H as [-> (v & Hv & Hall & ->)]. cbn [foldM].
      specialize (IH (mark_all rs mutable) (<[key := ("0x" +:+ hex_encode v)%string]> values) Hr').
      rewrite length_mark_all in IH. specialize (IH Hl).
      destruct (foldM _ keys _) as [[m vs]|e].
      * destruct IH as (H1 & H2 & H3 & H4). split_and!; [done| | |].
        -- intros i. rewrite H2, lookup_mark_all. destruct (mutable !! i) as [b|]; cbn; [|naive_solver].
           case_decide as He.
           ++ split; [by intros [? _]|]. intros [_ Hn]. exfalso. apply Hn. apply Exists_exists in He as (r & Hin & Hi).
              exists key, rs, r. split_and!; [by left|done..].
           ++ split; intros [-> Hn]; (split; [done|]); intros (key' & rs' & r & Hin & Hk' & Hrin & Hi).
              ** apply elem_of_cons in Hin as [->|Hin]; [|apply Hn; by exists key', rs', r].
                 apply He, Exists_exists. exists r. rewrite Hk' in Hrs. injection Hrs as ->. done.
              ** apply Hn. exists key', rs', r. split_and!; [by right|done..].
        -- constructor; [|done]. exists rs, v. split_and!; [done..|]. rewrite H4 by done. apply lookup_insert_eq.
        -- intros key' Hn. rewrite H4 by (intros ?; apply Hn; by right). apply lookup_insert_ne. intros ->. apply Hn. by left.
      * intros Hf. apply IH. by inversion_clear Hf.
    + intros Hf. inversion_clear Hf as [|?? (rs' & v & Hrs' & Hv) _]. rewrite Hrs in Hrs'. injection Hrs' as <-. eauto.
Qed.

Lemma first_difference_spec index mutable template code :
  length mutable = length template -> length code = length template ->
  first_difference index mutable template code = None <->
  forall i, mutable !! i = Some false -> code !! i = template !! i.
Proof.
  revert index template code. induction mutable as [|m mutable IH]; intros index [|t template] [|o code]; try done.
  intros [= Hm] [= Hc]. cbn [first_difference]. destruct m; cbn [negb andb].
  - rewrite IH by done. split; intros H i; [destruct i as [|i]; [done|apply H]|apply (H (S i))].
  - destruct (Byte.eqb t o) eqn:E; cbn [negb andb].
    + assert (t = o) as -> by by apply Byte.byte_dec_bl. rewrite IH by done.
      split; intros H i; [destruct i as [|i]; [done|apply H]|apply (H (S i))].
    + split; [done|]. intros H. specialize (H 0%nat eq_refl). injection H as ->.
      by rewrite (Byte.byte_dec_lb eq_refl) in E.
Qed.
End Comparison.

Lemma sorted_keys_spec {A} (m : gmap string A) :
  NoDup (sorted_keys m) /\ forall key, key ∈ sorted_keys m <-> is_Some (m !! key).
Proof.
  unfold sorted_keys. split.
  - rewrite merge_sort_Permutation. apply NoDup_fst_map_to_list.
  - intros key. rewrite merge_sort_Permutation, list_elem_of_fmap. split.
    + intros ([k v] & -> & H%elem_of_map_to_list). by exists v.
    + intros [v H]. exists (key, v). split; [done|]. by apply elem_of_map_to_list.
Qed.

Lemma comparison_exact template observed refs values :
  llen template <= maximumRuntimeBytes -> fitting (llen template) refs ->
  compareRuntimeTemplate template observed refs = Ok values <->
  length observed = length template /\
  (forall i, ~ covered refs i -> observed !! i = template !! i) /\
  (forall key, is_Some (values !! key) <-> is_Some (refs !! key)) /\
  (forall key rs, refs !! key = Some rs ->
     exists v, length v = 32%nat /\ values !! key = Some ("0x" +:+ hex_encode v)%string /\
       forall r, r ∈ rs -> value_at observed r = v).
Proof.
  intros Hsmall Hfit. unfold compareRuntimeTemplate.
  destruct (llen observed =? llen template) eqn:El; cbn [negb].
  2: { split; [done|]. intros [H _]. unfold llen in El. lia. }
  assert (llen observed = llen template) as El' by lia. assert (length observed = length template) as Hl by (unfold llen in *; lia).
  destruct (sorted_keys_spec refs) as [Hnd Hin]. rewrite <- El' in Hsmall, Hfit.
  pose proof (read_groups_run observed refs Hsmall Hfit (sorted_keys refs) (repeat false (length template)) ∅ Hnd) as H.
  rewrite repeat_length in H. specialize (H ltac:(apply list.Forall_forall; intros; by apply Hin) (eq_sym Hl)).
  destruct (foldM _ _ _) as [[m vs]|e].
  - destruct H as (H1 & H2 & H3 & H4). rewrite list.Forall_forall in H3. cbv beta iota.
    assert (forall i, m !! i = Some false <-> (i < length template)%nat /\ ~ covered refs i) as Hm.
    { intros i. rewrite H2. split; intros [Ha Hb]; split.
      - apply lookup_lt_Some in Ha. by rewrite repeat_length in Ha.
      - intros (key & rs & r & Hk & Hr). apply Hb. exists key, rs, r. split; [by apply Hin; eexists|done].
      - by apply lookup_repeat.
      - intros (key & rs & r & _ & Hr). apply Hb. by exists key, rs, r. }
    destruct (first_difference 0 m template observed) as [index|] eqn:Ed.
    + split; [done|]. intros (_ & Hsame & _). exfalso.
      assert (first_difference 0 m template observed = None) as Hn; [|by rewrite Hn in Ed].
      apply first_difference_spec; [by rewrite H1|done|]. intros i [_ Hc]%Hm. by apply Hsame.
    + assert (forall i, ~ covered refs i -> observed !! i = template !! i) as Hsame.
      { intros i Hc. destruct (decide (i < length template)%nat) as [Hi|Hi].
        - apply (proj1 (first_difference_spec 0 m template observed ltac:(by rewrite H1) Hl) Ed). by apply Hm.
        - rewrite !lookup_ge_None_2; [done|lia|lia]. }
      assert (forall key, is_Some (vs !! key) <-> is_Some (refs !! key)) as Hdom.
      { intros key. split.
        - intros Hs. apply Hin. apply dec_stable. intros Hn. rewrite (H4 key Hn), lookup_empty in Hs. by destruct Hs.
        - intros Hs. apply Hin in Hs. destruct (H3 _ Hs) as (? & ? & _ & _ & _ & ->). by eexists. }
      assert (forall key rs, refs !! key = Some rs -> exists v, length v = 32%nat /\
        vs !! key = Some ("0x" +:+ hex_encode v)%string /\ forall r, r ∈ rs -> value_at observed r = v) as Hval.
      { intros key rs Hk. destruct (H3 key ltac:(apply Hin; by eexists)) as (rs' & v & Hk' & Hv & Hall & Hvs).
        rewrite Hk in Hk'. injection Hk' as <-. exists v. split_and!; [done..|]. by apply list.Forall_forall. }
      split; [by intros [= <-]|]. intros (_ & _ & Hdom' & Hval'). f_equal. apply map_eq. intros key.
      destruct (refs !! key) as [rs|] eqn:Ek.
      * destruct (Hval _ _ Ek) as (v & _ & -> & Hv), (Hval' _ _ Ek) as (v' & _ & -> & Hv').
        destruct (Hfit _ _ Ek) as [Hne _]. destruct rs as [|r rs]; [done|].
        rewrite <- (Hv r), <- (Hv' r) by by left. done.
      * assert (vs !! key = None) as ->.
        { apply eq_None_not_Some. rewrite Hdom, Ek. by intros []. }
        symmetry. apply eq_None_not_Some. rewrite Hdom', Ek. by intros [].
  - split; [done|]. intros (_ & _ & _ & Hval). exfalso. apply H, list.Forall_forall. intros key Hk.
    apply Hin in Hk as [rs Hk]. destruct (Hval _ _ Hk) as (v & _ & _ & Hv). exists rs, v. split; [done|].
    by apply list.Forall_forall.
Qed.

(** *** What the checks of an artifact establish *)

Lemma decode_uint64_nonneg v old n : 0 <= old -> decode_uint64 v old = Ok n -> 0 <= n.
Proof.
  intros Ho. destruct v as [| | literal| | |]; try done; cbn; [by intros [= <-]|].
  destruct (ParseUint literal) as [z|] eqn:E; [|done]. intros [= <-]. pose proof (ParseUint_range _ _ E). lia.
Qed.

Lemma field_ind {T} (decode : json -> T -> result T) (P : T -> Prop) name zero ms x :
  (forall v old x, P old -> decode v old = Ok x -> P x) -> P zero -> field decode name zero ms = Ok x -> P x.
Proof.
  intros Hd H0. unfold field. apply (foldM_ind _ (fun _ => P)); [done|].
  intros pre [k v] old y Ho. destruct (key_matches _ _); [by apply Hd|by intros [= <-]].
Qed.

Definition starts_ok (refs : references) : Prop :=
  map_Forall (fun _ rs => Forall (fun r => 0 <= ir_Start r) rs) refs.

Lemma decode_references_ok v old refs : starts_ok old -> decode_references v old = Ok refs -> starts_ok refs.
Proof.
  intros Ho. destruct v as [| | | | |ms]; try done; cbn; [intros [= <-]; apply map_Forall_empty|].
  apply (foldM_ind _ (fun _ => starts_ok)); [done|]. intros pre [key x] st st' Hst H. go_inv H. subst st'.
  apply map_Forall_insert_2; [|done]. unfold decode_slice in Hc. destruct x as [| | | |items|]; try done.
  { by injection Hc as <-. }
  revert Hc. apply (foldM_ind _ (fun _ => Forall (fun r => 0 <= ir_Start r))); [constructor|].
  intros pre' y l l' Hl H'. go_inv H'. subst l'. apply Forall_app. split; [done|]. constructor; [|constructor].
  unfold decode_reference in Hc. go_inv Hc. subst. cbn [ir_Start].
  revert Hc2. apply field_ind; [|lia]. intros v old' n. apply decode_uint64_nonneg.
Qed.

Lemma references_fit runtime refs :
  llen runtime <= maximumRuntimeBytes -> starts_ok refs ->
  validateImmutableReferences runtime refs = Ok tt -> fitting (llen runtime) refs.
Proof.
  intros Hsmall Hs H. unfold validateImmutableReferences in H. go_inv H.
  intros key rs Hk. destruct (sorted_keys_spec refs) as [_ Hin].
  match goal with Hf : foldM (check_group _ _) _ _ = Ok _ |- _ => rename Hf into Hg0 end.
  apply (foldM_Forall _ (fun key => default [] (refs !! key) <> [] /\
    Forall (fun r => ir_Length r = 32 /\ ir_Start r <= llen runtime /\
      u64 (ir_Start r + ir_Length r) <= llen runtime) (default [] (refs !! key)))) in Hg0.
  - rewrite list.Forall_forall in Hg0. destruct (Hg0 key) as [Hne Hall]; [apply Hin; by eexists|].
    rewrite Hk in *. cbn in *. split; [done|]. specialize (Hs _ _ Hk).
    rewrite list.Forall_forall in *. intros r Hr. destruct (Hall r Hr) as (Hl & Hb & Hu). specialize (Hs r Hr).
    cbn in Hs. split_and!; [done..|]. rewrite Hl in Hu. unfold maximumRuntimeBytes in Hsmall.
    assert (2 ^ 15 < 2 ^ 64) by (apply Z.pow_lt_mono_r; lia). rewrite u64_small in Hu by lia. lia.
  - intros occupied key' occupied' Hq. unfold check_group in Hq. go_inv Hq. bool_prop. split.
    { intros E. by rewrite E in *. }
    eapply (foldM_Forall (check_reference (llen runtime) key')); [|eassumption].
    intros st r st' Hr. unfold check_reference in Hr. go_inv Hr. bool_prop. done.
Qed.

Lemma parsed_artifact {AF : AbiFiles} name data a :
  parseCheckedArtifact name data = Ok a ->
  llen (ka_runtime a) <= maximumRuntimeBytes /\ fitting (llen (ka_runtime a)) (ka_ImmutableReferences (ka_text a)) /\
  ka_ContractName (ka_text a) = name.
Proof.
  unfold parseCheckedArtifact. intros H. go_inv H. bool_prop. cbn [ka_runtime ka_text].
  match goal with Hd : wrapf _ _ (decode_artifact _) = Ok _ |- _ => apply wrapf_ok in Hd; unfold decode_artifact in Hd; go_inv Hd end.
  subst. cbn [ka_ImmutableReferences ka_ContractName] in *. split_and!; [done| |done].
  apply references_fit; [done| |].
  - match goal with Hf : field decode_references _ _ _ = Ok _ |- _ => revert Hf end.
    apply field_ind; [intros v old x; apply decode_references_ok|apply map_Forall_empty].
  - match goal with Hv : validateImmutableReferences _ _ = Ok ?u |- _ => by destruct u end.
Qed.

(** C28: for every artifact that is accepted, the comparison of deployed code with
    its template accepts exactly the code that has its length, has its bytes
    everywhere outside the immutable references and one 32-byte value in all
    references of one identifier, and it returns exactly these values; no access
    is out of range. *)
Theorem runtime_comparison_exact {AF : AbiFiles} name data a observed values :
  parseCheckedArtifact name data = Ok a ->
  let refs := ka_ImmutableReferences (ka_text a) in
  compareRuntimeTemplate (ka_runtime a) observed refs = Ok values <->
  length observed = length (ka_runtime a) /\
  (forall i, ~ covered refs i -> observed !! i = ka_runtime a !! i) /\
  (forall key, is_Some (values !! key) <-> is_Some (refs !! key)) /\
  (forall key rs, refs !! key = Some rs ->
     exists v, length v = 32%nat /\ values !! key = Some ("0x" +:+ hex_encode v)%string /\
       forall r, r ∈ rs -> value_at observed r = v).
Proof. intros H. destruct (parsed_artifact _ _ _ H) as (H1 & H2 & _). by apply comparison_exact. Qed.

(** ** Evidence

    [leads P c Q E]: from a state of [P], [c] ends in [Q] when it succeeds and in
    [E] when it fails. *)
Definition leads {S A} (P : S -> Prop) (c : prog S A) (Q : A -> S -> Prop) (E : S -> Prop) : Prop :=
  forall s, P s -> match c s with (s', Ok a) => Q a s' | (s', Err _) => E s' end.

Section Leads.
Context {St : Type} (E : St -> Prop).

Lemma leads_bind {A B} P (c : prog St A) (f : A -> prog St B) Q R :
  leads P c Q E -> (forall a, leads (Q a) (f a) R E) -> leads P (c ≫= f) R E.
Proof.
  intros Hc Hf s Hs. rewrite bind_run. specialize (Hc s Hs). destruct (c s) as [s' [a|e]]; [by apply Hf|done].
Qed.

Lemma leads_ret {A} (P : St -> Prop) (a : A) : leads P (mret a) (fun _ => P) E.
Proof. by intros s. Qed.

Lemma leads_weaken {A} (P P' : St -> Prop) (c : prog St A) (Q Q' : A -> St -> Prop) :
  (forall s, P' s -> P s) -> (forall a s, Q a s -> Q' a s) -> leads P c Q E -> leads P' c Q' E.
Proof. intros HP HQ H s Hs. specialize (H s (HP _ Hs)). destruct (c s) as [s' [a|e]]; auto. Qed.

Lemma leads_keeps {A} (P : St -> Prop) (c : prog St A) :
  (forall s, P s -> E s) -> keeps P c -> leads P c (fun _ => P) E.
Proof. intros HE Hc s Hs. specialize (Hc s Hs). destruct (c s) as [s' [a|e]]; auto. Qed.

Lemma leads_for_each {A} (f : A -> prog St unit) xs (P : nat -> St -> Prop) k n :
  (forall x n, leads (P n) (f x) (fun _ => P (n + k)%nat) E) ->
  leads (P n) (for_each f xs) (fun _ => P (n + length xs * k)%nat) E.
Proof.
  intros Hf. revert n. induction xs as [|x xs IH]; intros n; cbn [for_each length].
  - intros s Hs. cbn. by rewrite Nat.add_0_r.
  - apply leads_bind with (Q := fun _ => P (n + k)%nat); [apply Hf|]. intros []. eapply leads_weaken; [done| |apply IH].
    intros [] s. by replace (n + S (length xs) * k)%nat with (n + k + length xs * k)%nat by lia.
Qed.
End Leads.

(** A transaction that the manifest lists under its number. *)
Definition listed (m : Manifest) (order : Z) (r : request) : Prop :=
  match r with
  | Creation initcode => exists c, c ∈ mf_Contracts m /\ co_TransactionOrder c = order /\
      co_InitcodeSHA256 c = sha256_hex initcode
  | Call target calldata => exists c, c ∈ mf_ConfigurationTransactions m /\ ct_TransactionOrder c = order /\
      ct_Target c = target /\ ct_Calldata c = ("0x" +:+ hex_encode calldata)%string
  end.

(** Changes that keep what is listed. *)
Definition extends (m m' : Manifest) : Prop := forall order r, listed m order r -> listed m' order r.

Lemma extends_same m m' :
  mf_Contracts m' = mf_Contracts m -> mf_ConfigurationTransactions m' = mf_ConfigurationTransactions m ->
  extends m m'.
Proof. intros H1 H2 order [code|target data]; cbn; by rewrite ?H1, ?H2. Qed.

Lemma extends_contracts m l :
  (forall c, c ∈ mf_Contracts m -> exists c', c' ∈ l /\ co_TransactionOrder c' = co_TransactionOrder c /\
     co_InitcodeSHA256 c' = co_InitcodeSHA256 c) -> extends m (set_contracts l m).
Proof.
  intros H order [code|target data]; cbn; [|done]. intros (c & Hc & <- & <-).
  destruct (H c Hc) as (c' & ? & ? & ?). by exists c'.
Qed.

Lemma extends_configuration m l :
  (forall c, c ∈ mf_ConfigurationTransactions m -> exists c', c' ∈ l /\
     ct_TransactionOrder c' = ct_TransactionOrder c /\ ct_Target c' = ct_Target c /\
     ct_Calldata c' = ct_Calldata c) -> extends m (set_configuration l m).
Proof.
  intros H order [code|target data]; cbn; [done|]. intros (c & Hc & <- & <- & Hd).
  destruct (H c Hc) as (c' & ? & ? & ? & Hd'). exists c'. by rewrite Hd'.
Qed.

Lemma change_last_spec {A} (f : A -> A) l x :
  x ∈ l -> exists y, y ∈ change_last f l /\ (y = x \/ y = f x).
Proof.
  intros Hx. unfold change_last. destruct (reverse l) as [|z l'] eqn:E.
  - apply (f_equal reverse) in E. rewrite reverse_involutive in E. subst. by apply elem_of_nil in Hx.
  - apply (f_equal reverse) in E. rewrite reverse_involutive, reverse_cons in E. subst l.
    apply elem_of_app in Hx as [Hx|Hx%list_elem_of_singleton].
    + exists x. split; [apply elem_of_app; by left|by left].
    + subst. exists (f z). split; [apply elem_of_app; right; by left|by right].
Qed.

Section Evidence.
Context {GE : Geth} {UC : UnicodeCase} {SV : Services}.
Variables (options : Options) (artifacts : artifactSet) (operator snapshot : bytes) (writer : file) (d1 : disk).

Let i := fl_inode writer.

(** Nothing but the bytes of files is different from [d1]; [stored]: the evidence
    file holds a text, and it is safe. *)
Definition same_tables (d : disk) : Prop := dk_table d = dk_table d1 /\ dk_earlier d = dk_earlier d1.
Definition stored (text : string) (d : disk) : Prop :=
  same_tables d /\ dk_contents d !! i = Some (mk_contents text "").

Lemma write_evidence_leads m : leads same_tables (write_evidence writer m) (fun _ => stored (MarshalCanonical m)) same_tables.
Proof.
  assert (forall c d, same_tables d -> same_tables (with_contents c d)) as Hc by done.
  assert (forall d f s, same_tables d -> same_tables (with_faults f s d)) as Hf by done.
  intros d Hd. unfold write_evidence.
  assert (keeps same_tables (Truncate writer)) as K1 by (apply keeps_syscall; [done|done|intros d' Hd'; exact Hd']).
  assert (keeps same_tables (Seek writer)) as K2 by (apply keeps_syscall; [done|done|intros d' Hd'; exact Hd']).
  assert (forall s, keeps same_tables (Write writer s)) as K3 by (intros s; apply keeps_syscall; [done|intros n d' Hd'; exact Hd'|intros d' Hd'; exact Hd']).
  assert (keeps same_tables (Sync writer)) as K4 by (apply keeps_syscall; [done|done|intros d' Hd'; exact Hd']).
  rewrite bind_run, wrap_error_run. specialize (K1 d Hd).
  destruct (Truncate writer d) as [da [[]|e]] eqn:E1; cbn [fst snd wrapf] in *; [|done].
  rewrite bind_run, wrap_error_run. specialize (K2 da K1).
  destruct (Seek writer da) as [db [[]|e]] eqn:E2; cbn [fst snd wrapf] in *; [|done].
  rewrite bind_run, wrap_error_run. specialize (K3 (MarshalCanonical m) db K2).
  destruct (Write writer (MarshalCanonical m) db) as [dc [[]|e]] eqn:E3; cbn [fst snd wrapf] in *; [|done].
  rewrite wrap_error_run. specialize (K4 dc K3).
  destruct (Sync writer dc) as [dd [[]|e]] eqn:E4; cbn [fst snd wrapf] in *; [|done].
  split; [done|].
  apply syscall_ok in E1 as [f1 E1], E2 as [f2 E2], E3 as [f3 E3], E4 as [f4 E4].
  injection E1 as <-. injection E2 as <-. injection E3 as <-. injection E4 as <-. cbn.
  unfold append. cbn. rewrite lookup_insert_eq. cbn. rewrite lookup_alter_eq, lookup_insert_eq. cbn.
  by rewrite str_nil_app.
Qed.

(** *** The invariant *)

Definition sent_listed (m : Manifest) (sent : list (request * disk)) : Prop :=
  forall j r d, sent !! j = Some (r, d) -> listed m (Z.of_nat j + 1) r.

(** What was on disk when a transaction was sent. *)
Definition sent_with_evidence (sent : list (request * disk)) : Prop :=
  forall k r d, sent !! k = Some (r, d) -> exists m, stored (MarshalCanonical m) d /\
    forall j r' d', (j <= k)%nat -> sent !! j = Some (r', d') -> listed m (Z.of_nat j + 1) r'.

Record fine (s : deployment) : Prop := {
  fine_disk : same_tables (dp_disk s);
  fine_manifest : sent_listed (dp_manifest s) (dp_sent s);
  fine_sent : sent_with_evidence (dp_sent s) }.

(** The number of transactions so far; [ready]: the next one is listed, on disk
    too when [r] is to be sent. *)
Definition counted (n : nat) (s : deployment) : Prop :=
  fine s /\ dp_nextOrder s = Z.of_nat n /\ length (dp_sent s) = n.

Lemma fine_edit f : (forall m, extends m (f m)) -> forall s, fine s -> fine (with_manifest (f (dp_manifest s)) s).
Proof. intros Hf s [H1 H2 H3]. split; [done| |done]. intros j r d Hj. cbn. eapply Hf, H2, Hj. Qed.

Lemma counted_edit n f : (forall m, extends m (f m)) -> keeps (counted n) (edit f).
Proof. intros Hf s (H1 & H2 & H3). split; [|done]. by apply fine_edit. Qed.

Lemma keeps_asking {A} (P : deployment -> Prop) (c : prog outside A) :
  (forall o s, P s -> P (with_outside o s)) -> keeps P (asking c).
Proof. intros H s Hs. unfold asking. destruct (c (dp_outside s)). by apply H. Qed.

Lemma fine_outside o s : fine s -> fine (with_outside o s).
Proof. by intros []. Qed.

(** The state after the manifest was written. *)
Definition saved (s : deployment) : Prop := stored (MarshalCanonical (dp_manifest s)) (dp_disk s).

Lemma persist_leads (P : deployment -> Prop) :
  (forall d s, P s -> same_tables d -> P (with_dp_disk d s)) -> (forall s, P s -> fine s) ->
  leads P (persist writer) (fun _ s => P s /\ saved s) fine.
Proof.
  intros HP Hf s Hs. unfold persist. pose proof (write_evidence_leads (dp_manifest s) _ (fine_disk _ (Hf _ Hs))) as H.
  destruct (write_evidence writer (dp_manifest s) (dp_disk s)) as [d [[]|e]].
  - split; [|exact H]. apply HP; [done|apply H].
  - by apply Hf, HP.
Qed.

(** [P] looks at neither the time nor the outside. *)
Record untimed (P : deployment -> Prop) : Prop := {
  ut_disk : forall d s, P s -> same_tables d -> P (with_dp_disk d s);
  ut_outside : forall o s, P s -> P (with_outside o s);
  ut_time : forall t s, P s -> P (with_manifest (set_updated t (dp_manifest s)) s);
  ut_fine : forall s, P s -> fine s }.

Lemma persist_now_leads P : untimed P -> leads P (persist_now writer) (fun _ s => P s /\ saved s) fine.
Proof.
  intros [H1 H2 H3 H4]. unfold persist_now. apply leads_bind with (Q := fun _ => P).
  { intros s Hs. unfold now. destruct (clock_now (dp_outside s)). by apply H2. }
  intros t. apply leads_bind with (Q := fun _ => P); [intros s Hs; by apply H3|].
  intros _. by apply persist_leads.
Qed.

Lemma untimed_fine : untimed fine.
Proof.
  split; [intros d s [H1 H2 H3] Hd; by split|by intros o s []| |done].
  intros t s Hs. apply (fine_edit (set_updated t)); [|done]. intros m. by apply extends_same.
Qed.

Lemma untimed_counted n : untimed (counted n).
Proof.
  split.
  - intros d s (H & H') Hd. split; [by apply untimed_fine|done].
  - intros o s (H & H'). split; [by apply untimed_fine|done].
  - intros t s (H & H'). split; [by apply untimed_fine|done].
  - by intros s [].
Qed.

Lemma deploy_fail_leads {A} stage cause : leads fine (deploy_fail (A:=A) writer stage cause) (fun _ _ => False) fine.
Proof.
  unfold deploy_fail. apply leads_bind with (Q := fun _ => fine).
  { intros s Hs. apply (fine_edit (set_failed stage (Error cause))); [|done]. intros m. by apply extends_same. }
  intros _. apply leads_bind with (Q := fun _ => fine).
  - intros s Hs. pose proof (persist_now_leads fine untimed_fine s Hs) as H. unfold attempt.
    destruct (persist_now writer s) as [s' [[]|e]]; [apply H|exact H].
  - intros [[]|e]; by intros s Hs.
Qed.

Lemma or_fail_leads {A} stage (P : deployment -> Prop) (c : prog deployment A) :
  (forall s, P s -> fine s) -> keeps P c -> leads P (or_fail writer stage c) (fun _ => P) fine.
Proof.
  intros HP Hc. unfold or_fail. apply leads_bind with (Q := fun _ => P).
  { intros s Hs. specialize (Hc s Hs). unfold attempt. by destruct (c s). }
  intros [a|e]; [by intros s|]. intros s Hs. pose proof (@deploy_fail_leads A stage e s (HP _ Hs)) as H.
  by destruct (deploy_fail writer stage e s) as [s' [a|e']].
Qed.

Lemma keeps_artifact P name : keeps P (artifact_named artifacts name).
Proof. unfold artifact_named. destruct (_ !! _); by intros s. Qed.

(** *** Sending *)

(** The next transaction is listed. *)
Definition pending (n : nat) (r : request) (s : deployment) : Prop :=
  fine s /\ dp_nextOrder s = Z.of_nat n + 1 /\ length (dp_sent s) = n /\ listed (dp_manifest s) (Z.of_nat n + 1) r.

Lemma untimed_pending n r : untimed (pending n r).
Proof.
  split.
  - intros d s (H & H') Hd. split; [by apply untimed_fine|done].
  - intros o s (H & H'). split; [by apply untimed_fine|done].
  - intros t s (H & H1 & H2 & H3). split; [by apply untimed_fine|]. split_and!; [done..|].
    cbn. eapply extends_same; [..|exact H3]; done.
  - by intros s [].
Qed.

Lemma transact_leads n r c :
  leads (fun s => pending n r s /\ saved s) (transact_with r c) (fun _ => counted (S n)) fine.
Proof.
  intros s (([H1 H2 H3] & Ho & Hl & Hn) & Hsaved). unfold transact_with.
  destruct (c _) as [o answer]. split; [|split; cbn; [lia|rewrite length_app; cbn; lia]].
  split; cbn; [done| |].
  - intros j r' d Hj. apply lookup_app_Some in Hj as [Hj|[Hj Hj']]; [by eapply H2|].
    apply list_lookup_singleton_Some in Hj' as [Hj0 [= <- <-]].
    replace (Z.of_nat j) with (Z.of_nat n) by lia. done.
  - intros k r' d Hk. apply lookup_app_Some in Hk as [Hk|[Hk Hk']].
    + destruct (H3 _ _ _ Hk) as (m & Hm & Hall). exists m. split; [done|]. intros j r2 d2 Hj Hj2.
      apply lookup_lt_Some in Hk. rewrite lookup_app_l in Hj2 by lia. by eapply Hall.
    + apply list_lookup_singleton_Some in Hk' as [Hk0 [= <- <-]]. exists (dp_manifest s). split; [exact Hsaved|].
      intros j r2 d2 Hj Hj2. apply lookup_app_Some in Hj2 as [Hj2|[Hj2 Hj3]]; [by eapply H2|].
      apply list_lookup_singleton_Some in Hj3 as [Hj0 [= <- <-]].
      replace (Z.of_nat j) with (Z.of_nat n) by lia. done.
Qed.

Lemma prepare_transaction n f r :
  Z.of_nat n + 1 < 2 ^ 64 -> (forall order m, extends m (f order m)) ->
  (forall order m, listed (f order m) order r) ->
  leads (counted n)
    (announce writer f) (fun _ s => pending n r s /\ saved s) fine.
Proof.
  intros Hn Hf Hr. unfold announce. apply leads_bind with (Q := fun _ s => fine s /\ dp_nextOrder s = Z.of_nat n + 1 /\ length (dp_sent s) = n).
  { intros s ([H1 H2 H3] & Ho & Hl). cbn. split; [by split|]. split; [|done]. rewrite Ho. apply u64_small. lia. }
  intros _. apply leads_bind with (Q := fun order s =>
    order = Z.of_nat n + 1 /\ fine s /\ dp_nextOrder s = Z.of_nat n + 1 /\ length (dp_sent s) = n).
  { intros s (H & Ho & Hl). cbn. by split_and!. }
  intros order. apply leads_bind with (Q := fun _ => pending n r).
  { intros s (-> & H & Ho & Hl). cbn. split; [by apply fine_edit|]. split_and!; [done..|]. apply Hr. }
  intros _. apply persist_now_leads, untimed_pending.
Qed.

(** What follows the transaction. *)
Lemma record_result_leads n result f :
  (forall hash receipt m, extends m (f hash receipt m)) ->
  leads (counted n) (record_result writer result f) (fun _ => counted n) fine.
Proof.
  intros Hf. destruct result as [r|]; [|by intros s]. cbn [record_result].
  apply leads_bind with (Q := fun _ => counted n); [intros s Hs; by apply counted_edit|].
  intros []. eapply leads_weaken; [done| |apply persist_now_leads, untimed_counted]. by intros [] s [].
Qed.

Lemma extends_last_contract f m :
  (forall c, co_TransactionOrder (f c) = co_TransactionOrder c /\ co_InitcodeSHA256 (f c) = co_InitcodeSHA256 c) ->
  extends m (set_contracts (change_last f (mf_Contracts m)) m).
Proof.
  intros Hf. apply extends_contracts. intros c Hc. destruct (change_last_spec f _ _ Hc) as (y & Hy & [->| ->]).
  - by exists c.
  - exists (f c). by destruct (Hf c).
Qed.

Lemma extends_last_call f m :
  (forall c, ct_TransactionOrder (f c) = ct_TransactionOrder c /\ ct_Target (f c) = ct_Target c /\
     ct_Calldata (f c) = ct_Calldata c) ->
  extends m (set_configuration (change_last f (mf_ConfigurationTransactions m)) m).
Proof.
  intros Hf. apply extends_configuration. intros c Hc. destruct (change_last_spec f _ _ Hc) as (y & Hy & [->| ->]).
  - by exists c.
  - exists (f c). by destruct (Hf c) as (? & ? & ?).
Qed.

Lemma keeps_verifyRuntime n name address receipt : keeps (counted n) (verifyRuntime artifacts name address receipt).
Proof.
  assert (forall A (c : prog outside A), keeps (counted n) (asking c)) as Ha.
  { intros A c. apply keeps_asking, untimed_counted. }
  unfold verifyRuntime. apply keeps_bind; [apply keeps_of_result|]. intros _.
  apply keeps_bind; [apply Ha|]. intros block. destruct (_ || _); [apply keeps_fail|].
  apply keeps_bind; [apply Ha|]. intros code. apply keeps_bind; [apply keeps_artifact|]. intros a.
  apply keeps_bind; [apply keeps_of_result|]. intros v. apply keeps_bind; [apply Ha|]. intros block'.
  destruct (_ || _); [apply keeps_fail|]. apply keeps_ret.
Qed.

Lemma failing_leads {A} n (P : nat -> A -> deployment -> Prop) stage cause :
  leads (counted n) (deploy_fail (A:=A) writer stage cause) (P n) fine.
Proof.
  intros s [Hs _]. pose proof (@deploy_fail_leads A stage cause s Hs) as H.
  by destruct (deploy_fail writer stage cause s) as [s' [a|e]].
Qed.

Lemma counted_fine n s : counted n s -> fine s.
Proof. by intros []. Qed.

Lemma deployContract_leads n spec :
  Z.of_nat n + 1 < 2 ^ 64 ->
  leads (counted n) (deployContract artifacts writer spec) (fun _ => counted (S n)) fine.
Proof.
  intros Hn. unfold deployContract. cbv zeta.
  apply leads_bind with (Q := fun _ => counted n); [apply leads_keeps; [apply counted_fine|apply keeps_artifact]|].
  intros artifact.
  apply leads_bind with (Q := fun _ => counted n); [apply or_fail_leads; [apply counted_fine|apply keeps_of_result]|].
  intros constructor. destruct (_ <? _); [by apply failing_leads with (P := fun _ _ => counted (S n))|].
  eapply leads_bind; [apply (prepare_transaction n _ (Creation (ka_creation artifact ++ constructor)) Hn)|].
  { intros order m. apply extends_contracts. intros c Hc. exists c. split; [|done]. apply elem_of_app. by left. }
  { intros order m. cbn. eexists. split; [apply elem_of_app; right; by apply list_elem_of_singleton|done]. }
  intros []. eapply leads_bind; [apply transact_leads|]. intros [result txErr].
  apply leads_bind with (Q := fun _ => counted (S n)).
  { apply record_result_leads. intros hash receipt m. by apply extends_last_contract. }
  intros []. destruct txErr as [e|]; [by apply failing_leads with (P := fun _ _ => counted (S n))|].
  destruct result as [[hash [receipt|]]|]; try by apply failing_leads with (P := fun _ _ => counted (S n)).
  apply leads_bind with (Q := fun _ => counted (S n)); [apply or_fail_leads; [apply counted_fine|apply keeps_of_result]|].
  intros address. apply leads_bind with (Q := fun _ => counted (S n)).
  { apply leads_keeps; [apply counted_fine|]. apply counted_edit. intros m. by apply extends_last_contract. }
  intros []. apply leads_bind with (Q := fun _ => counted (S n)).
  { apply or_fail_leads; [apply counted_fine|apply keeps_verifyRuntime]. }
  intros [runtime codeHash]. apply leads_bind with (Q := fun _ => counted (S n)).
  { apply leads_keeps; [apply counted_fine|]. apply counted_edit. intros m. by apply extends_last_contract. }
  intros []. apply leads_bind with (Q := fun _ => counted (S n)).
  { intros s ([H1 H2 H3] & H4 & H5). by split_and!. }
  intros []. eapply leads_weaken; [done| |apply persist_now_leads, untimed_counted]. by intros [] s [].
Qed.

Lemma configure_leads n purpose moduleID targetName method args :
  Z.of_nat n + 1 < 2 ^ 64 ->
  leads (counted n) (configure artifacts writer purpose moduleID targetName method args) (fun _ => counted (S n)) fine.
Proof.
  intros Hn. unfold configure.
  apply leads_bind with (Q := fun _ => counted n); [apply leads_keeps; [apply counted_fine|apply keeps_artifact]|].
  intros artifact.
  apply leads_bind with (Q := fun _ => counted n); [apply or_fail_leads; [apply counted_fine|apply keeps_of_result]|].
  intros calldata. apply leads_bind with (Q := fun _ => counted n); [by intros s|]. intros target.
  eapply leads_bind; [apply (prepare_transaction n _ (Call target calldata) Hn)|].
  { intros order m. apply extends_configuration. intros c Hc. exists c. split; [|done]. apply elem_of_app. by left. }
  { intros order m. cbn. eexists. split; [apply elem_of_app; right; by apply list_elem_of_singleton|done]. }
  intros []. eapply leads_bind; [apply transact_leads|]. intros [result txErr].
  apply leads_bind with (Q := fun _ => counted (S n)).
  { apply record_result_leads. intros hash receipt m. by apply extends_last_call. }
  intros []. destruct txErr as [e|]; [by apply failing_leads with (P := fun _ _ => counted (S n))|].
  destruct result as [[hash [receipt|]]|]; try by apply failing_leads with (P := fun _ _ => counted (S n)).
  apply leads_bind with (Q := fun _ => counted (S n)); [apply or_fail_leads; [apply counted_fine|apply keeps_of_result]|].
  intros _. apply leads_bind with (Q := fun _ => counted (S n)).
  { apply or_fail_leads; [apply counted_fine|]. apply keeps_asking, untimed_counted. }
  intros block. destruct (_ || _); [by apply failing_leads with (P := fun _ _ => counted (S n))|]. by intros s.
Qed.

(** *** The whole sequence *)

Section Reads.
Variable P : deployment -> Prop.
Hypothesis P_outside : forall o s, P s -> P (with_outside o s).

Lemma keeps_suite_call name address method args block : keeps P (suite_call artifacts name address method args block).
Proof.
  unfold suite_call. destruct (_ !! _); [|apply keeps_fail]. cbv zeta.
  apply keeps_bind; [apply keeps_of_result|]. intros data.
  apply keeps_bind; [by apply keeps_wrap_error, keeps_asking|]. intros output.
  destruct (suite_method_named _ _); [|apply keeps_fail]. apply keeps_bind; [apply keeps_of_result|].
  intros [|v [|? ?]]; [apply keeps_fail|apply keeps_ret|apply keeps_fail].
Qed.

Lemma keeps_read_as {A} (f : go_any -> option A) want name address method args block :
  keeps P (read_as artifacts f want name address method args block).
Proof.
  unfold read_as. apply keeps_bind; [apply keeps_suite_call|]. intros v. destruct (f v); [apply keeps_ret|apply keeps_fail].
Qed.

Lemma keeps_callUint64 name address method args block : keeps P (callUint64 artifacts name address method args block).
Proof.
  unfold callUint64. apply keeps_bind; [apply keeps_read_as|]. intros v. destruct (_ && _); [apply keeps_ret|apply keeps_fail].
Qed.

Lemma keeps_callUint8 name address method args block : keeps P (callUint8 artifacts name address method args block).
Proof.
  unfold callUint8. apply keeps_bind; [apply keeps_callUint64|]. intros v. destruct (_ <? _); [apply keeps_fail|apply keeps_ret].
Qed.

Lemma keeps_module_binding directory coordinator block modules name :
  keeps P (verify_module_binding artifacts operator directory coordinator block modules name).
Proof.
  unfold verify_module_binding, verifyModuleAuthority. cbv zeta.
  do 7 (apply keeps_bind; [apply keeps_read_as|]; intros ?). apply keeps_bind; [by apply keeps_asking|]. intros code.
  apply keeps_bind; [apply keeps_gets|]. intros ?. apply keeps_bind; [apply keeps_gets|]. intros ?.
  destruct (_ || _); [apply keeps_fail|]. apply keeps_bind; [|intros []; apply keeps_ret].
  destruct (authority_method name) as [[role method]|]; [|apply keeps_ret].
  apply keeps_bind; [apply keeps_read_as|]. intros ?. destruct (negb _); [apply keeps_fail|apply keeps_ret].
Qed.

Lemma keeps_verifyBindings block hash : keeps P (verifyBindings options artifacts operator snapshot block hash).
Proof.
  unfold verifyBindings, read_suite. destruct (parseHexQuantity block); [|apply keeps_fail].
  apply keeps_bind; [by apply keeps_asking|]. intros before. destruct (_ || _); [apply keeps_fail|].
  do 4 (apply keeps_bind; [apply keeps_gets|]; intros ?). cbv zeta. apply keeps_bind.
  { apply keeps_bind; [apply keeps_callUint64|]; intros ?. apply keeps_bind; [apply keeps_callUint8|]; intros ?.
    do 11 (apply keeps_bind; [apply keeps_read_as|]; intros ?). apply keeps_ret. }
  intros r. do 4 (match goal with |- keeps P (if ?b then _ else _) => destruct b; [apply keeps_fail|] end).
  apply keeps_bind; [by apply keeps_asking|]. intros ?. destruct (negb _); [apply keeps_fail|].
  apply keeps_bind; [by apply keeps_asking|]. intros ?. destruct (negb _); [apply keeps_fail|].
  apply keeps_bind; [apply keeps_foldP; intros; apply keeps_module_binding|]. intros modules.
  do 2 (apply keeps_bind; [apply keeps_gets|]; intros ?).
  do 2 (apply keeps_bind; [apply keeps_read_as|]; intros ?). apply keeps_bind; [apply keeps_callUint64|]. intros ?.
  destruct (_ || _); [apply keeps_fail|]. apply keeps_bind; [by apply keeps_asking|]. intros ?.
  destruct (_ || _); [apply keeps_fail|apply keeps_ret].
Qed.
End Reads.

Lemma deploy_module_leads n directory coordinator m :
  Z.of_nat n + 2 < 2 ^ 64 ->
  leads (counted n) (deploy_module options artifacts operator writer directory coordinator m)
    (fun _ => counted (n + 2)) fine.
Proof.
  intros Hn. unfold deploy_module. cbv zeta.
  apply leads_bind with (Q := fun _ => counted (S n)); [apply deployContract_leads; lia|]. intros [].
  apply leads_bind with (Q := fun _ => counted (S n)); [by intros s|]. intros address.
  apply leads_bind with (Q := fun _ => counted (S n)); [by intros s|]. intros codeHash.
  eapply leads_weaken; [done| |apply configure_leads; lia]. intros [] s. by rewrite Nat.add_comm.
Qed.

(** [deploy_suite] sends seventeen transactions when it succeeds. *)
Lemma deploy_suite_leads :
  leads (counted 0) (deploy_suite options artifacts operator snapshot writer)
    (fun _ s => counted 17 s /\ saved s /\ mf_Status (dp_manifest s) = "bootstrapping"%string) fine.
Proof.
  assert (2 ^ 10 < 2 ^ 64) as Hbig by (apply Z.pow_lt_mono_r; lia).
  unfold deploy_suite. apply leads_bind with (Q := fun _ => counted 0).
  { eapply leads_weaken; [done| |apply (persist_leads (counted 0)); [apply untimed_counted|apply counted_fine]]. by intros [] s []. }
  intros []. apply leads_bind with (Q := fun _ => counted 0).
  { apply or_fail_leads; [apply counted_fine|]. apply keeps_asking, untimed_counted. }
  intros chainID. destruct (negb _).
  { apply failing_leads with (P := fun _ _ s => counted 17 s /\ saved s /\ _). }
  apply leads_bind with (Q := fun _ => counted 1); [apply deployContract_leads; lia|]. intros [].
  apply leads_bind with (Q := fun _ => counted 1); [by intros s|]. intros directory.
  apply leads_bind with (Q := fun _ => counted 2); [apply deployContract_leads; lia|]. intros [].
  apply leads_bind with (Q := fun _ => counted 2); [by intros s|]. intros coordinator.
  apply leads_bind with (Q := fun _ => counted 2); [by intros s|]. intros codeHash.
  apply leads_bind with (Q := fun _ => counted 3); [apply configure_leads; lia|]. intros [].
  apply leads_bind with (Q := fun _ => counted 17).
  { unfold module_arguments. cbn [for_each]. cbv zeta.
    do 7 (eapply leads_bind; [apply deploy_module_leads; cbn; lia|intros []; cbn [Nat.add]]). by intros s. }
  intros []. apply leads_bind with (Q := fun _ => counted 17); [by intros s|]. intros m.
  apply leads_bind with (Q := fun _ => counted 17); [apply leads_keeps; [apply counted_fine|apply keeps_of_result]|].
  intros receipt. apply leads_bind with (Q := fun _ => counted 17).
  { apply or_fail_leads; [apply counted_fine|]. apply keeps_verifyBindings, untimed_counted. }
  intros binding. apply leads_bind with (Q := fun _ s => counted 17 s /\ mf_Status (dp_manifest s) = "bootstrapping"%string).
  { intros s Hs. change (counted 17 (with_manifest (set_bound binding (dp_manifest s)) s) /\ "bootstrapping"%string = "bootstrapping"%string).
    split; [|done]. apply (counted_edit 17 (set_bound binding)); [|exact Hs]. intros m2. by apply extends_same. }
  intros []. eapply leads_weaken; [intros s H; exact H| |apply persist_now_leads].
  - intros [] s [[H1 H2] H3]. by split_and!.
  - split.
    + intros d s [H H'] Hd. split; [by apply untimed_counted|done].
    + intros o s [H H']. split; [by apply untimed_counted|done].
    + intros t s [H H']. split; [by apply untimed_counted|done].
    + intros s [H _]. by eapply counted_fine.
Qed.
End Evidence.

(** *** The file is new *)

Section Start.
Context {GE : Geth} {UC : UnicodeCase} {AF : AbiFiles} {SV : Services} {UR : Urls}.

Lemma keeps_on_world_disk {A} (P : disk -> Prop) (c : prog disk A) :
  keeps P c -> keeps (fun w => P (wd_disk w)) (on_world_disk c).
Proof. intros Hc w Hw. unfold on_world_disk. specialize (Hc _ Hw). by destruct (c (wd_disk w)). Qed.

Lemma kept_loadArtifactSet k P directory : keeps (kept k P) (loadArtifactSet directory).
Proof.
  unfold loadArtifactSet. cbv zeta. destruct (_ || _); [apply keeps_fail|].
  apply keeps_bind; [|intros acc; apply keeps_ret]. apply keeps_foldP. intros acc name. unfold load_artifact. cbv zeta.
  apply keeps_bind; [apply keeps_wrap_error, kept_ReadFile|]. intros data.
  apply keeps_bind; [apply keeps_of_result|]. intros artifact.
  apply keeps_bind; [apply keeps_wrap_error, kept_ReadFile|]. intros source.
  destruct (negb _); [apply keeps_fail|apply keeps_ret].
Qed.

Lemma kept_prepare_deployment k P options : keeps (fun w => kept k P (wd_disk w)) (prepare options).
Proof.
  unfold prepare. apply keeps_bind; [apply keeps_on_world_disk, kept_loadArtifactSet|]. intros artifacts.
  apply keeps_bind; [apply keeps_of_result|]. intros [operator snapshot].
  apply keeps_bind. { intros w Hw. by destruct (clock_now _). }
  intros now. apply keeps_bind; [apply keeps_of_result|]. intros i. apply keeps_ret.
Qed.

(** The start of [Deploy]. *)
Definition deployment_start (options : Options) (outputPath : string) : prog world (prepared * file) :=
  p ← prepare options;
  f ← on_world_disk (newEvidenceWriter outputPath);
  mret (p, f).

(** What is found under a name no loss of power can change. *)
Definition fresh_file (k : key) (i : Z) (d : disk) : Prop :=
  tb_names (dk_table d) !! k = Some i /\
  forall t, t ∈ tables d -> tb_names t !! k = Some i -> exists m, tb_inodes t !! i = Some (mk_inode KFile m).

Lemma OpenNew_fresh path mode d d' f :
  disk_ok d -> OpenNew path mode d = (d', Ok f) ->
  fresh_file (path_key path) (fl_inode f) d'.
Proof.
  intros [Hok _] H. unfold OpenNew in H. apply bind_run_ok in H as (d1 & i & Hm & H). injection H as <- <-.
  cbn [fl_inode]. pose proof Hm as Hm'. apply make_ok in Hm as (-> & _ & Hn & [m Hi] & _). split; [done|].
  apply syscall_ok in Hm' as [F Hm']. cbn zeta in Hm'. cbn [dk_table with_faults] in Hm'.
  destruct (tb_names (dk_table d) !! _); [done|].
  destruct (is_directory _ _); [|by unfold missing in Hm'; case_match]. injection Hm' as <-.
  intros t [->|Ht]%elem_of_cons Hk.
  - exists m. exact Hi.
  - exfalso. assert (dk_next d < dk_next d); [|lia]. by eapply (Hok t).
Qed.

(** No directory that [MkdirAll] makes has this name. *)
Definition far_key (path : string) : key := (true, repeat ""%string (S (length (path_key path).2))).

Lemma kept_far_MkdirAll path mode P : keeps (kept (far_key path) P) (MkdirAll path mode).
Proof.
  apply kept_mkdir_all.
  - unfold far_key. cbn [snd]. rewrite repeat_length, length_rev. lia.
  - apply List.Forall_rev; eapply normal_without, path_key_normal.
Qed.

Lemma start_fresh options path w w1 p f :
  disk_ok (wd_disk w) -> deployment_start options path w = (w1, Ok (p, f)) ->
  fresh_file (path_key (Clean (TrimSpace path))) (fl_inode f) (wd_disk w1).
Proof.
  intros Hok H. unfold deployment_start in H. apply bind_run_ok in H as (w2 & p' & Hp & H).
  apply bind_run_ok in H as (w3 & f' & Hf & H). injection H as <- <- <-.
  set (P := Clean (TrimSpace path)) in *.
  pose proof (kept_prepare_deployment (far_key (filepath_Dir P)) (fun _ => True) options w ltac:(by split)) as H2.
  rewrite Hp in H2. cbn [fst] in H2.
  unfold on_world_disk in Hf. destruct (newEvidenceWriter path (wd_disk w2)) as [d3 r] eqn:E. injection Hf as <- ->.
  cbn [wd_disk]. unfold newEvidenceWriter in E. fold P in E. destruct (_ || _); [done|].
  apply bind_run_ok in E as (d4 & [] & Hm & E). apply wrap_error_ok in Hm.
  pose proof (kept_far_MkdirAll (filepath_Dir P) mode_0700 (fun _ => True) _ H2) as H4. rewrite Hm in H4.
  apply bind_run_ok in E as (d5 & r & Ho & E). unfold attempt in Ho.
  destruct (OpenNew P mode_0600 d4) as [d5' r'] eqn:Eo. injection Ho as <- <-.
  destruct r' as [f''|e]; [|by destruct (IsExist e)]. injection E as <- <-. eapply OpenNew_fresh; [|exact Eo]. apply H4.
Qed.

Lemma stored_found f d1 text d found k :
  fresh_file k (fl_inode f) d1 -> stored f d1 text d -> after d found ->
  tb_names (dk_table found) !! k = tb_names (dk_table d) !! k ->
  text_at found k = Some text.
Proof.
  intros [Hn Hf] [[Ht1 Ht2] Hc] [Ht Hca] Hk. rewrite Ht1, Hn in Hk.
  assert (dk_table found ∈ tables d1) as Hin by (unfold tables in *; by rewrite <- Ht1, <- Ht2).
  destruct (Hf _ Hin Hk) as [m Hm]. destruct (Hca _ _ Hc) as (c & Hc' & ->%remains_synced).
  unfold text_at, look, inode_at. rewrite Hk. cbn. rewrite Hm. cbn. rewrite Hc'. cbn.
  unfold ct_text. cbn. by rewrite str_app_nil.
Qed.

(** C26: no transaction is sent before it is on record: whatever fails, at the time
    a transaction is handed to the transactor the evidence file holds a manifest
    that lists it and all earlier ones under their numbers, also after a loss of
    power when the name of the file was not lost; the manifest that is returned
    lists all of them, and a deployment that succeeds sent seventeen and its
    evidence file holds the manifest that is returned. *)
Theorem evidence_precedes_transactions options path w w' sent m e :
  disk_ok (wd_disk w) -> Deploy options path w = (w', sent, m, e) ->
  let k := path_key (Clean (TrimSpace path)) in
  (forall n r d, sent !! n = Some (r, d) -> exists m',
     (forall j r' d', (j <= n)%nat -> sent !! j = Some (r', d') -> listed m' (Z.of_nat j + 1) r') /\
     text_at d k = Some (MarshalCanonical m') /\
     forall found, after d found -> tb_names (dk_table found) !! k = tb_names (dk_table d) !! k ->
       text_at found k = Some (MarshalCanonical m')) /\
  (forall j r d, sent !! j = Some (r, d) -> exists m', m = Some m' /\ listed m' (Z.of_nat j + 1) r) /\
  (e = None -> length sent = 17%nat /\ exists m', m = Some m' /\
     mf_Status m' = "bootstrapping"%string /\ text_at (wd_disk w') k = Some (MarshalCanonical m')).
Proof.
  intros Hok H k. unfold Deploy in H. fold (deployment_start options path) in H.
  destruct (deployment_start options path w) as [w1 [[p f]|e1]] eqn:Es.
  2: { injection H as <- <- <- <-. split_and!; [by intros n|by intros n|done]. }
  pose proof (start_fresh _ _ _ _ _ _ Hok Es) as Hfresh. fold k in Hfresh.
  match type of H with context [deploy_suite _ _ _ _ _ ?s] => set (s0 := s) in * end.
  pose proof (deploy_suite_leads options (pr_artifacts p) (pr_operator p) (pr_snapshot p) f (wd_disk w1) s0) as Hl.
  assert (counted f (wd_disk w1) 0 s0) as H0.
  { split; [|done]. split; [done|by intros j|by intros j]. }
  specialize (Hl H0). destruct (deploy_suite _ _ _ _ _ s0) as [s r].
  assert (fine f (wd_disk w1) s) as [F1 F2 F3] by (destruct r; [apply Hl|exact Hl]).
  unfold close_evidence in H.
  assert (forall d' x, Close f (dp_disk s) = (d', x) -> dk_table d' = dk_table (dp_disk s) /\
    dk_contents d' = dk_contents (dp_disk s)) as Hclose.
  { intros d' x [(F & st & e' & -> & _)|[F E]]%syscall_cases; [done|]. by injection E as <- _. }
  assert (sent = dp_sent s /\ m = Some (dp_manifest s)) as [-> ->].
  { destruct r as [u|e']; destruct (Close f (dp_disk s)) as [d' [u'|e'']]; by injection H. }
  split_and!.
  - intros n r' d Hn. destruct (F3 _ _ _ Hn) as (m' & Hm & Hall). exists m'. split; [done|]. split.
    + eapply stored_found; [done|exact Hm|apply after_refl|done].
    + intros found Hf Hk. by eapply stored_found.
  - intros j r' d Hj. exists (dp_manifest s). split; [done|]. by eapply F2.
  - intros ->. destruct r as [[]|e']; [|by destruct (Close f (dp_disk s))].
    destruct (Close f (dp_disk s)) as [d' [u'|e'']] eqn:Ec; [|by injection H]. injection H as <-.
    destruct Hl as ((_ & _ & Hlen) & Hsaved & Hstatus). split; [done|]. exists (dp_manifest s). split_and!; [done..|].
    cbn [wd_disk]. destruct (Hclose _ _ eq_refl) as [Ht Hc].
    assert (text_at d' k = text_at (dp_disk s) k) as ->.
    { unfold text_at, look. by rewrite Ht, Hc. }
    eapply stored_found; [done|exact Hsaved|apply after_refl|done].
Qed.

(** C27: evidence is never written over: when the output path names a file that a
    loss of power cannot take away, [Deploy] fails, sends nothing and leaves the
    file as it is. *)
Theorem existing_evidence_kept options path w w' sent m e rooted directory name text :
  let P := Clean (TrimSpace path) in
  file_path P rooted directory name -> disk_ok (wd_disk w) ->
  (forall found, after (wd_disk w) found -> text_at found (path_key P) = Some text) ->
  Deploy options path w = (w', sent, m, e) ->
  sent = [] /\ m = None /\ (exists e', e = Some e') /\
  forall found, after (wd_disk w') found -> text_at found (path_key P) = Some text.
Proof.
  intros P Hp Hok Ht H. set (k := path_key P) in *.
  assert (kept k (eq (Some text)) (wd_disk w)) as Hk by (split; [done|]; intros found Hf; by rewrite Ht).
  unfold Deploy in H. fold (deployment_start options path) in H.
  enough (exists w1 e1, deployment_start options path w = (w1, Err e1) /\ kept k (eq (Some text)) (wd_disk w1)) as (w1 & e1 & E & [_ Hk1]).
  { rewrite E in H. injection H as <- <- <- <-. split_and!; [done|done|by eexists|]. intros found Hf. by rewrite <- (Hk1 found Hf). }
  unfold deployment_start. rewrite bind_run. pose proof (kept_prepare_deployment k (eq (Some text)) options w Hk) as H1.
  destruct (prepare options w) as [w1 [p|e1]]; [|by exists w1, e1]. cbn [fst] in H1. rewrite bind_run.
  unfold on_world_disk. unfold newEvidenceWriter. fold P. destruct (_ || _); [by eexists _, _|].
  rewrite bind_run, wrap_error_run.
  assert (keeps (kept k (eq (Some text))) (MkdirAll (filepath_Dir P) mode_0700)) as Hmk.
  { destruct Hp as (Hc & Hkey & Hn). destruct (Clean_file _ _ _ _ Hkey Hn) as [_ Hdir]. rewrite Hc in Hdir.
    apply kept_mkdir_all.
    - unfold k. rewrite Hkey, Hdir. cbn [snd]. rewrite length_rev, length_app. cbn. lia.
    - apply List.Forall_rev; eapply normal_without, path_key_normal. }
  specialize (Hmk _ H1). destruct (MkdirAll (filepath_Dir P) mode_0700 (wd_disk w1)) as [d2 [[]|e2]]; cbn [fst snd wrapf] in *.
  2: by eexists _, _.
  rewrite bind_run. unfold attempt. destruct (OpenNew P mode_0600 d2) as [d3 r] eqn:Eo.
  assert (kept k (eq (Some text)) d3 /\ exists e3, r = Err e3) as [H3 [e3 ->]].
  { unfold OpenNew in Eo. rewrite bind_run in Eo.
    destruct (make "open" KFile P mode_0600 d2) as [d3' [i|e3]] eqn:Em.
    - exfalso. apply make_ok in Em as (_ & Hnone & _). destruct Hmk as [_ Hmk]. specialize (Hmk d2 (after_refl d2)).
      unfold text_at, look, inode_at in Hmk. unfold k in Hmk. by rewrite Hnone in Hmk.
    - injection Eo as <- <-. destruct (make_error _ _ _ _ _ _ _ Em) as (F & st & ->). split; [exact Hmk|by eexists]. }
  destruct (IsExist e3); by eexists _, _.
Qed.
End Start.

(** ** A deployment that succeeds *)

(** The answers about a block, once there are any, are those of the chain. *)
Class FinalBlocks `{!Services} := {
  code_at : string -> string -> bytes;
  call_at : string -> string -> string -> bytes;
  code_final address block o o' code : rpc_CodeAt address block o = (o', Ok code) -> code = code_at address block;
  call_final address data block o o' output :
    rpc_CallContractAt address data block o = (o', Ok output) -> output = call_at address data block }.

Section Bound.
Context {GE : Geth} {UC : UnicodeCase} {SV : Services} {FB : FinalBlocks}.
Variables (options : Options) (artifacts : artifactSet) (operator snapshot : bytes) (writer : file).

(** The code at an address is that of the artifact. *)
Definition verified (name : string) (address codeHash : bytes) : Prop :=
  exists artifact block values, as_byName artifacts !! name = Some artifact /\
    compareRuntimeTemplate (ka_runtime artifact) (code_at (lowerAddress address) block)
      (ka_ImmutableReferences (ka_text artifact)) = Ok values /\
    codeHash = keccak256 (code_at (lowerAddress address) block).

(** What a contract says at a block, read with the ABI of an artifact. *)
Definition says {A} (assertion : go_any -> option A) (contract : string) (address : bytes) (method : string)
    (args : list abi_value) (block : string) (x : A) : Prop :=
  exists artifact calldata definition values value,
    as_byName artifacts !! contract = Some artifact /\
    suite_Pack (ca_Methods (ka_parsedABI artifact)) method args = Ok calldata /\
    suite_method_named (ca_Methods (ka_parsedABI artifact)) method = Some definition /\
    abi_Unpack (sm_outputs definition)
      (call_at (lowerAddress address) ("0x" +:+ hex_encode calldata) block) = Ok values /\
    typed (sm_outputs definition) values = [value] /\ assertion value = Some x.

Section At.
Variables (addresses codeHashes : gmap string bytes) (block : string).

Definition address_in (name : string) : bytes := default (zero_bytes 20) (addresses !! name).
Definition hash_in (name : string) : bytes := default (zero_bytes 32) (codeHashes !! name).
Definition module_id (name : string) : bytes := bytes32_or_zero (moduleIDHex name).

Record module_bound (name : string) : Prop := {
  mo_address : says as_address "SuiteDirectory" (address_in "SuiteDirectory") "moduleAddress"
    [VBytes32 (module_id name)] block (address_in name);
  mo_codeHash : says as_hash "SuiteDirectory" (address_in "SuiteDirectory") "moduleCodeHash"
    [VBytes32 (module_id name)] block (hash_in name);
  mo_verified : says as_bool "SuiteDirectory" (address_in "SuiteDirectory") "verifyModule"
    [VBytes32 (module_id name)] block true;
  mo_code : keccak256 (code_at (lowerAddress (address_in name)) block) = hash_in name;
  mo_directory : says as_address name (address_in name) "suiteDirectory" [] block (address_in "SuiteDirectory");
  mo_coordinator : says as_address name (address_in name) "bootstrapCoordinator" [] block
    (address_in "BootstrapCoordinator");
  mo_id : says as_hash name (address_in name) "moduleId" [] block (module_id name);
  mo_open : says as_bool name (address_in name) "bootstrapFinalized" [] block false;
  mo_authority : forall role method, authority_method name = Some (role, method) ->
    says as_address name (address_in name) method [] block operator }.

Record suite_bound : Prop := {
  bo_version : says as_any_uint "SuiteDirectory" (address_in "SuiteDirectory") "suiteVersion" [] block 3;
  bo_state : says as_any_uint "SuiteDirectory" (address_in "SuiteDirectory") "state" [] block 0;
  bo_chain : says as_any_uint "SuiteDirectory" (address_in "SuiteDirectory") "configuredChainId" [] block (op_ChainID options);
  bo_snapshot : says as_hash "SuiteDirectory" (address_in "SuiteDirectory") "snapshotRoot" [] block snapshot;
  bo_authority : says as_address "SuiteDirectory" (address_in "SuiteDirectory") "bootstrapAuthority" [] block (zero_bytes 20);
  bo_coordinator : says as_address "SuiteDirectory" (address_in "SuiteDirectory") "bootstrapCoordinator" [] block
    (address_in "BootstrapCoordinator");
  bo_coordinatorHash : says as_hash "SuiteDirectory" (address_in "SuiteDirectory") "bootstrapCoordinatorCodeHash" [] block
    (hash_in "BootstrapCoordinator");
  bo_count : says as_any_uint "SuiteDirectory" (address_in "SuiteDirectory") "registeredModuleCount" [] block 7;
  bo_coordinatorCode : keccak256 (code_at (lowerAddress (address_in "BootstrapCoordinator")) block) = hash_in "BootstrapCoordinator";
  bo_directoryCode : keccak256 (code_at (lowerAddress (address_in "SuiteDirectory")) block) = hash_in "SuiteDirectory";
  bo_itsDirectory : says as_address "BootstrapCoordinator" (address_in "BootstrapCoordinator") "suiteDirectory" [] block
    (address_in "SuiteDirectory");
  bo_itsSnapshot : says as_hash "BootstrapCoordinator" (address_in "BootstrapCoordinator") "snapshotRoot" [] block snapshot;
  bo_itsOperator : says as_address "BootstrapCoordinator" (address_in "BootstrapCoordinator") "operator" [] block operator;
  bo_inactive : says as_bool "BootstrapCoordinator" (address_in "BootstrapCoordinator") "activated" [] block false;
  bo_next : says as_any_uint "BootstrapCoordinator" (address_in "BootstrapCoordinator") "nextModuleIndex" [] block 0;
  bo_modules : Forall module_bound (drop 2 contractOrder);
  bo_committee : says as_address "ModerationModule" (address_in "ModerationModule") "committee" [] block operator;
  bo_treasury : says as_address "EconomicModule" (address_in "EconomicModule") "treasury" [] block operator;
  bo_fee : says as_any_uint "EconomicModule" (address_in "EconomicModule") "platformFeeBps" [] block (op_PlatformFeeBPS options) }.

(** Reads that teach [Q] and change nothing but the outside. *)
Definition learns {A} (c : prog deployment A) (Q : A -> Prop) : Prop :=
  forall s s' a, dp_addresses s = addresses -> dp_codeHash s = codeHashes -> c s = (s', Ok a) ->
    Q a /\ exists o, s' = with_outside o s.

Lemma learns_bind {A B} (c : prog deployment A) (f : A -> prog deployment B) Q R :
  learns c Q -> (forall a, Q a -> learns (f a) R) -> learns (c ≫= f) R.
Proof.
  intros Hc Hf s s' b Ha Hh (s1 & a & H1 & H2)%bind_run_ok. destruct (Hc _ _ _ Ha Hh H1) as [HQ [o ->]].
  destruct (Hf a HQ (with_outside o s) s' b Ha Hh H2) as [HR [o' ->]]. split; [done|]. by exists o'.
Qed.

Lemma with_outside_same s : s = with_outside (dp_outside s) s.
Proof. by destruct s. Qed.

Lemma learns_ret {A} (a : A) : learns (mret a) (fun x => x = a).
Proof. intros s s' x _ _ [= <- <-]. split; [done|]. exists (dp_outside s). apply with_outside_same. Qed.

Lemma learns_fail {A} e (Q : A -> Prop) : learns (fail e) Q.
Proof. by intros s s' a _ _. Qed.

Lemma learns_gets {A} (f : deployment -> A) x :
  (forall s, dp_addresses s = addresses -> dp_codeHash s = codeHashes -> f s = x) -> learns (gets f) (fun a => a = x).
Proof.
  intros Hf s s' a Ha Hh [= <- <-]. split; [by apply Hf|]. exists (dp_outside s). apply with_outside_same.
Qed.

Lemma learns_address name : learns (gets (fun s => address_of s name)) (fun a => a = address_in name).
Proof. apply learns_gets. intros s H _. unfold address_of, address_in. by rewrite H. Qed.

Lemma learns_hash name : learns (gets (fun s => codeHash_of s name)) (fun a => a = hash_in name).
Proof. apply learns_gets. intros s _ H. unfold codeHash_of, hash_in. by rewrite H. Qed.

Lemma learns_of_result {A} (r : result A) : learns (of_result r) (fun a => r = Ok a).
Proof. intros s s' a _ _ [= <- ->]. split; [done|]. exists (dp_outside s). apply with_outside_same. Qed.

Lemma learns_asking {A} (c : prog outside A) (Q : A -> Prop) :
  (forall o o' a, c o = (o', Ok a) -> Q a) -> learns (asking c) Q.
Proof.
  intros Hc s s' a _ _. unfold asking. destruct (c (dp_outside s)) as [o r] eqn:E. intros [= <- ->].
  split; [by eapply Hc|by exists o].
Qed.

Lemma learns_weaken {A} (c : prog deployment A) (Q Q' : A -> Prop) :
  (forall a, Q a -> Q' a) -> learns c Q -> learns c Q'.
Proof. intros HQ Hc s s' a Ha Hh H. destruct (Hc _ _ _ Ha Hh H) as [H1 H2]. auto. Qed.

Lemma learns_wrap {A} f args (c : prog deployment A) Q : learns c Q -> learns (wrap_error f args c) Q.
Proof. intros Hc s s' a Ha Hh H%wrap_error_ok. by eapply Hc. Qed.

Lemma learns_code address b : learns (asking (rpc_CodeAt address b)) (fun code => code = code_at address b).
Proof. apply learns_asking. intros o o' a. apply code_final. Qed.

Lemma learns_any {A} (c : prog outside A) : learns (asking c) (fun _ => True).
Proof. by apply learns_asking. Qed.

Definition answers_with (contract : string) (address : bytes) (method : string) (args : list abi_value)
    (value : go_any) : Prop :=
  exists artifact calldata definition values,
    as_byName artifacts !! contract = Some artifact /\
    suite_Pack (ca_Methods (ka_parsedABI artifact)) method args = Ok calldata /\
    suite_method_named (ca_Methods (ka_parsedABI artifact)) method = Some definition /\
    abi_Unpack (sm_outputs definition)
      (call_at (lowerAddress address) ("0x" +:+ hex_encode calldata) block) = Ok values /\
    typed (sm_outputs definition) values = [value].

Lemma learns_suite_call contract address method args :
  learns (suite_call artifacts contract address method args block) (answers_with contract address method args).
Proof.
  unfold suite_call. destruct (as_byName artifacts !! contract) as [artifact|] eqn:Ea; [|apply learns_fail]. cbv zeta.
  eapply learns_bind; [apply learns_of_result|]. intros calldata Hc%wrapf_ok.
  eapply learns_bind; [apply learns_wrap, learns_asking; intros o o' a; apply call_final|]. intros output ->.
  destruct (suite_method_named _ _) as [definition|] eqn:Ed; [|apply learns_fail].
  eapply learns_bind; [apply learns_of_result|]. intros vs Hv%wrapf_ok.
  destruct vs as [|v [|? ?]]; [apply learns_fail| |apply learns_fail].
  eapply learns_weaken; [|apply learns_ret]. intros ? ->. go_inv Hv.
  exists artifact, calldata, definition, a. by split_and!.
Qed.

Lemma learns_read_as {A} (assertion : go_any -> option A) want contract address method args :
  learns (read_as artifacts assertion want contract address method args block)
    (says assertion contract address method args block).
Proof.
  unfold read_as. eapply learns_bind; [apply learns_suite_call|].
  intros v (artifact & calldata & definition & values & H1 & H2 & H3 & H4 & H5).
  destruct (assertion v) as [x|] eqn:Ex; [|apply learns_fail]. eapply learns_weaken; [|apply learns_ret]. intros ? ->.
  exists artifact, calldata, definition, values, v. by split_and!.
Qed.

Lemma learns_callUint64 contract address method args :
  learns (callUint64 artifacts contract address method args block)
    (says as_any_uint contract address method args block).
Proof.
  unfold callUint64. eapply learns_bind; [apply learns_read_as|]. intros v Hv.
  destruct (_ && _); [|apply learns_fail]. eapply learns_weaken; [|apply learns_ret]. by intros ? ->.
Qed.

Lemma learns_callUint8 contract address method args :
  learns (callUint8 artifacts contract address method args block)
    (says as_any_uint contract address method args block).
Proof.
  unfold callUint8. eapply learns_bind; [apply learns_callUint64|]. intros v Hv.
  destruct (_ <? _); [apply learns_fail|]. eapply learns_weaken; [|apply learns_ret]. by intros ? ->.
Qed.

Lemma learns_module modules name :
  learns (verify_module_binding artifacts operator (address_in "SuiteDirectory") (address_in "BootstrapCoordinator")
    block modules name) (fun _ => module_bound name).
Proof.
  unfold verify_module_binding, verifyModuleAuthority. cbv zeta. fold (module_id name).
  eapply learns_bind; [apply learns_read_as|]; intros a1 H1. eapply learns_bind; [apply learns_read_as|]; intros a2 H2.
  eapply learns_bind; [apply learns_read_as|]; intros a3 H3. eapply learns_bind; [apply learns_read_as|]; intros a4 H4.
  eapply learns_bind; [apply learns_read_as|]; intros a5 H5. eapply learns_bind; [apply learns_read_as|]; intros a6 H6.
  eapply learns_bind; [apply learns_read_as|]; intros a7 H7. eapply learns_bind; [apply learns_code|]; intros code ->.
  eapply learns_bind; [apply (learns_address name)|]. intros a8 ->.
  eapply learns_bind; [apply (learns_hash name)|]. intros a9 ->.
  destruct (_ || _) eqn:E; [apply learns_fail|]. bool_prop. subst.
  eapply learns_bind with (Q := fun _ => forall role method, authority_method name = Some (role, method) ->
    says as_address name (address_in name) method [] block operator).
  - destruct (authority_method name) as [[role method]|]; [|by eapply learns_weaken; [|apply learns_ret]].
    eapply learns_bind; [apply learns_read_as|]. intros v Hv. destruct (negb _) eqn:Eo; [apply learns_fail|]. bool_prop. subst.
    eapply learns_weaken; [|apply learns_ret]. by intros ? _ role' method' [= <- <-].
  - intros [role address] Hr. eapply learns_weaken; [|apply learns_ret]. intros ? _. split; try done; congruence.
Qed.

Ltac guarded E :=
  match goal with |- learns (if ?b then _ else _) _ => destruct b eqn:E; [apply learns_fail|] end.

Lemma learns_foldP {A T} (f : A -> T -> prog deployment A) (Q : T -> Prop) xs acc :
  (forall acc x, learns (f acc x) (fun _ => Q x)) -> learns (foldP f xs acc) (fun _ => Forall Q xs).
Proof.
  intros Hf. revert acc. induction xs as [|x xs IH]; intros acc; cbn [foldP].
  - eapply learns_weaken; [|apply learns_ret]. by constructor.
  - eapply learns_bind; [apply Hf|]. intros a Ha. eapply learns_weaken; [|apply IH]. by constructor.
Qed.

Lemma learns_verifyBindings hash :
  learns (verifyBindings options artifacts operator snapshot block hash)
    (fun b => suite_bound /\ db_BlockNumber b = block).
Proof.
  unfold verifyBindings, read_suite. destruct (parseHexQuantity block); [|apply learns_fail].
  eapply learns_bind; [apply learns_any|]. intros before _. destruct (_ || _); [apply learns_fail|].
  eapply learns_bind; [apply (learns_address "SuiteDirectory")|]. intros ? ->.
  eapply learns_bind; [apply (learns_address "BootstrapCoordinator")|]. intros ? ->.
  eapply learns_bind; [apply (learns_hash "SuiteDirectory")|]. intros ? ->.
  eapply learns_bind; [apply (learns_hash "BootstrapCoordinator")|]. intros ? ->.
  cbv zeta.
  apply learns_bind with (Q := fun r =>
    says as_any_uint "SuiteDirectory" (address_in "SuiteDirectory") "suiteVersion" [] block (sr_suiteVersion r) /\
    says as_any_uint "SuiteDirectory" (address_in "SuiteDirectory") "state" [] block (sr_state r) /\
    says as_any_uint "SuiteDirectory" (address_in "SuiteDirectory") "configuredChainId" [] block (sr_configuredChainID r) /\
    says as_hash "SuiteDirectory" (address_in "SuiteDirectory") "snapshotRoot" [] block (sr_snapshotRoot r) /\
    says as_address "SuiteDirectory" (address_in "SuiteDirectory") "bootstrapAuthority" [] block (sr_bootstrapAuthority r) /\
    says as_address "SuiteDirectory" (address_in "SuiteDirectory") "bootstrapCoordinator" [] block (sr_coordinator r) /\
    says as_hash "SuiteDirectory" (address_in "SuiteDirectory") "bootstrapCoordinatorCodeHash" [] block (sr_coordinatorCodeHash r) /\
    says as_any_uint "SuiteDirectory" (address_in "SuiteDirectory") "registeredModuleCount" [] block (sr_moduleCount r) /\
    says as_address "BootstrapCoordinator" (address_in "BootstrapCoordinator") "suiteDirectory" [] block (sr_coordinatorDirectory r) /\
    says as_hash "BootstrapCoordinator" (address_in "BootstrapCoordinator") "snapshotRoot" [] block (sr_coordinatorSnapshot r) /\
    says as_address "BootstrapCoordinator" (address_in "BootstrapCoordinator") "operator" [] block (sr_coordinatorOperator r) /\
    says as_bool "BootstrapCoordinator" (address_in "BootstrapCoordinator") "activated" [] block (sr_activated r) /\
    says as_any_uint "BootstrapCoordinator" (address_in "BootstrapCoordinator") "nextModuleIndex" [] block (sr_nextModule r)).
  { eapply learns_bind; [apply learns_callUint64|]; intros ? ?. eapply learns_bind; [apply learns_callUint8|]; intros ? ?.
    do 11 (eapply learns_bind; [apply learns_read_as|]; intros ? ?). eapply learns_weaken; [|apply learns_ret].
    intros r ->. by split_and!. }
  intros r (R1 & R2 & R3 & R4 & R5 & R6 & R7 & R8 & R9 & R10 & R11 & R12 & R13).
  destruct r as [version state chain root authority coordinator coordinatorHash count its_directory its_snapshot its_operator activated next].
  cbn [sr_suiteVersion sr_state sr_configuredChainID sr_snapshotRoot sr_bootstrapAuthority sr_coordinator
    sr_coordinatorCodeHash sr_moduleCount sr_coordinatorDirectory sr_coordinatorSnapshot sr_coordinatorOperator
    sr_activated sr_nextModule] in *.
  guarded E1. guarded E2. guarded E3. guarded E4. bool_prop. subst.
  eapply learns_bind; [apply learns_code|]. intros ? ->. guarded E5.
  eapply learns_bind; [apply learns_code|]. intros ? ->. guarded E6. bool_prop.
  eapply learns_bind; [apply (learns_foldP _ module_bound); intros; apply learns_module|]. intros modules Hm.
  eapply learns_bind; [apply (learns_address "ModerationModule")|]. intros ? ->.
  eapply learns_bind; [apply (learns_address "EconomicModule")|]. intros ? ->.
  eapply learns_bind; [apply learns_read_as|]; intros committee C1. eapply learns_bind; [apply learns_read_as|]; intros treasury C2.
  eapply learns_bind; [apply learns_callUint64|]; intros fee C3.
  guarded E7. bool_prop. subst.
  eapply learns_bind; [apply learns_any|]. intros ? _. destruct (_ || _); [apply learns_fail|].
  eapply learns_weaken; [|apply learns_ret]. intros ? ->. split; [|done]. by split.
Qed.
End At.

(** *** What is deployed *)

(** The names and addresses that the manifest lists. *)
Definition listing (m : Manifest) : list (string * string) :=
  map (fun c => (co_ContractName c, co_Address c)) (mf_Contracts m).

Record tracked (names : list string) (extra : list (string * string)) (s : deployment) : Prop := {
  tr_listing : listing (dp_manifest s) = map (fun n => (n, lowerAddress (address_of s n))) names ++ extra;
  tr_verified : Forall (fun n => verified n (address_of s n) (codeHash_of s n)) names }.

(** [c] ends in [Q] when it succeeds. *)
Notation brings P c Q := (leads P c Q (fun _ => True)) (only parsing).

Lemma deploy_fail_brings {A} P Q stage cause : brings P (deploy_fail (A:=A) writer stage cause) Q.
Proof.
  intros s _. unfold deploy_fail. rewrite bind_run. unfold edit, modify. cbv beta iota. rewrite bind_run.
  destruct (attempt _ _) as [s' [[[]|e]|e]]; done.
Qed.

Lemma or_fail_brings {A} P Q stage (c : prog deployment A) : brings P c Q -> brings P (or_fail writer stage c) Q.
Proof.
  intros Hc s Hs. specialize (Hc s Hs). unfold or_fail. rewrite bind_run. unfold attempt.
  destruct (c s) as [s' [a|e]]; [done|]. pose proof (@deploy_fail_brings A (fun _ => True) Q stage e s' I) as H.
  by destruct (deploy_fail writer stage e s') as [s'' [a|e']].
Qed.

Lemma keeps_brings {A} P (c : prog deployment A) : keeps P c -> brings P c (fun _ => P).
Proof. by apply leads_keeps. Qed.

(** What concerns the file and the clock is not tracked. *)
Lemma tracked_same names extra s s' :
  dp_addresses s' = dp_addresses s -> dp_codeHash s' = dp_codeHash s ->
  listing (dp_manifest s') = listing (dp_manifest s) -> tracked names extra s -> tracked names extra s'.
Proof. intros H1 H2 H3 [H4 H5]. unfold address_of, codeHash_of in *. split; unfold address_of, codeHash_of; by rewrite ?H3, ?H1, ?H2. Qed.

Lemma tracked_asking {A} names extra (c : prog outside A) : keeps (tracked names extra) (asking c).
Proof. apply keeps_asking. intros o s. by apply tracked_same. Qed.

Lemma tracked_persist names extra : keeps (tracked names extra) (persist writer).
Proof.
  intros s Hs. unfold persist. destruct (write_evidence _ _ _) as [d r]. cbn [fst]. revert Hs. by apply tracked_same.
Qed.

Lemma tracked_edit names extra f :
  (forall m, listing (f m) = listing m) -> keeps (tracked names extra) (edit f).
Proof. intros Hf s. apply tracked_same; [done..|]. apply Hf. Qed.

Lemma tracked_persist_now names extra : keeps (tracked names extra) (persist_now writer).
Proof.
  unfold persist_now. apply keeps_bind.
  { intros s Hs. unfold now. destruct (clock_now _). revert Hs. by apply tracked_same. }
  intros t. apply keeps_bind; [by apply tracked_edit|]. intros _. apply tracked_persist.
Qed.

Lemma tracked_artifact names extra name : keeps (tracked names extra) (artifact_named artifacts name).
Proof. unfold artifact_named. destruct (_ !! _); by intros s. Qed.

Lemma change_last_app {A} (f : A -> A) l x : change_last f (l ++ [x]) = l ++ [f x].
Proof. unfold change_last. by rewrite reverse_snoc, reverse_involutive. Qed.

Lemma listing_last m pairs p :
  listing m = pairs ++ [p] -> exists l c, mf_Contracts m = l ++ [c] /\
    map (fun c => (co_ContractName c, co_Address c)) l = pairs /\ (co_ContractName c, co_Address c) = p.
Proof.
  unfold listing. destruct (mf_Contracts m) as [|c l _] using rev_ind; intros H; [by destruct pairs|].
  rewrite map_app in H. apply app_inj_tail in H as [H1 H2]. by exists l, c.
Qed.

Lemma tracked_last names p q f s :
  (forall c, (co_ContractName c, co_Address c) = p -> (co_ContractName (f c), co_Address (f c)) = q) ->
  tracked names [p] s -> tracked names [q] (with_manifest (last_contract f (dp_manifest s)) s).
Proof.
  intros Hf [H1 H2]. split; [|done]. destruct (listing_last _ _ _ H1) as (l & c & Hl & Hm & Hp).
  unfold listing, last_contract. cbn [dp_manifest with_manifest mf_Contracts set_contracts]. rewrite Hl, change_last_app, map_app, Hm.
  cbn. by rewrite (Hf c Hp).
Qed.

Lemma tracked_record names p result f :
  (forall hash receipt m, listing m = map (fun c => (co_ContractName c, co_Address c)) (mf_Contracts m) ->
     forall s, tracked names p s -> tracked names p (with_manifest (f hash receipt (dp_manifest s)) s)) ->
  keeps (tracked names p) (record_result writer result f).
Proof.
  intros Hf. destruct result as [r|]; cbn [record_result]; [|by intros s].
  apply keeps_bind; [|intros _; apply tracked_persist_now]. intros s Hs. by apply (Hf _ _ (dp_manifest s)).
Qed.

Lemma verifyRuntime_brings names extra name address receipt :
  brings (tracked names extra) (verifyRuntime artifacts name address receipt)
    (fun r s => tracked names extra s /\ verified name address (snd r)).
Proof.
  unfold verifyRuntime.
  eapply leads_bind; [apply keeps_brings, keeps_of_result|]. intros ?. cbv beta.
  eapply leads_bind; [apply keeps_brings, tracked_asking|]. intros block. destruct (_ || _); [by intros s|].
  apply leads_bind with (Q := fun code s => tracked names extra s /\ code = code_at (lowerAddress address) (rc_BlockNumber receipt)).
  { intros s Hs. pose proof (tracked_asking names extra (rpc_CodeAt (lowerAddress address) (rc_BlockNumber receipt)) s Hs) as H.
    unfold asking in *. destruct (rpc_CodeAt _ _ _) as [o [code|e]] eqn:E; [|done]. split; [done|]. by apply code_final in E. }
  intros code. destruct (as_byName artifacts !! name) as [artifact|] eqn:Ea; unfold artifact_named; rewrite Ea; [|by intros s [Hs _]].
  apply leads_bind with (Q := fun a s => a = artifact /\ tracked names extra s /\ code = code_at (lowerAddress address) (rc_BlockNumber receipt)).
  { by intros s []. }
  intros given. apply leads_bind with (Q := fun values s => tracked names extra s /\ exists v, v = values /\
    verified name address (keccak256 code)).
  { intros s (-> & Hs & ->). unfold of_result. destruct (compareRuntimeTemplate _ _ _) as [values|e] eqn:E; [|done].
    split; [done|]. exists values. split; [done|]. by exists artifact, (rc_BlockNumber receipt), values. }
  intros values. apply leads_bind with (Q := fun _ s => tracked names extra s /\ verified name address (keccak256 code)).
  { intros s (Hs & v & _ & Hv). pose proof (tracked_asking names extra (rpc_BlockByNumber (rc_BlockNumber receipt)) s Hs) as H.
    unfold asking in *. by destruct (rpc_BlockByNumber _ _) as [o [b|e]]. }
  intros after. destruct (_ || _); [by intros s|]. by intros s.
Qed.

Lemma deployContract_brings names spec :
  sp_name spec ∉ names ->
  brings (tracked names []) (deployContract artifacts writer spec) (fun _ => tracked (names ++ [sp_name spec]) []).
Proof.
  intros Hnew. unfold deployContract. cbv zeta.
  eapply leads_bind; [apply keeps_brings, tracked_artifact|]. intros artifact. cbv beta.
  eapply leads_bind; [apply or_fail_brings, keeps_brings; by intros s|]. intros constructor. cbv beta.
  destruct (_ <? _); [apply deploy_fail_brings|].
  apply leads_bind with (Q := fun _ => tracked names [(sp_name spec, ""%string)]).
  { unfold announce. apply leads_bind with (Q := fun _ => tracked names []); [intros s; by apply tracked_same|].
    intros _. apply leads_bind with (Q := fun _ => tracked names []); [by intros s|]. intros order.
    apply leads_bind with (Q := fun _ => tracked names [(sp_name spec, ""%string)]).
    - intros s [H1 H2]. split; [|done]. unfold listing, add_contract in *. cbn [dp_manifest with_manifest mf_Contracts set_contracts].
      rewrite map_app, H1, app_nil_r. done.
    - intros []. apply keeps_brings, tracked_persist_now. }
  intros []. apply leads_bind with (Q := fun _ => tracked names [(sp_name spec, ""%string)]).
  { intros s Hs. unfold transact_with. destruct (tx_Deploy _ _ _) as [o x]. revert Hs. by apply tracked_same. }
  intros [result txErr]. apply leads_bind with (Q := fun _ => tracked names [(sp_name spec, ""%string)]).
  { apply keeps_brings, tracked_record. intros hash receipt _ _ s. by apply tracked_last. }
  intros []. destruct txErr as [e|]; [apply deploy_fail_brings|].
  destruct result as [[hash [receipt|]]|]; try apply deploy_fail_brings.
  eapply leads_bind; [apply or_fail_brings, keeps_brings; by intros s|]. intros address. cbv beta.
  apply leads_bind with (Q := fun _ => tracked names [(sp_name spec, lowerAddress address)]).
  { intros s. apply tracked_last. intros c [= Hc _]. cbn. by rewrite Hc. }
  intros []. eapply leads_bind; [apply or_fail_brings, verifyRuntime_brings|]. intros [runtime codeHash]. cbn [snd].
  apply leads_bind with (Q := fun _ s => tracked names [(sp_name spec, lowerAddress address)] s /\ verified (sp_name spec) address codeHash).
  { intros s [Hs Hv]. split; [|done]. revert Hs. by apply tracked_last. }
  intros []. apply leads_bind with (Q := fun _ => tracked (names ++ [sp_name spec]) []); [|intros []; apply keeps_brings, tracked_persist_now].
  intros s [[H1 H2] Hv]. assert (forall n, n ∈ names -> n <> sp_name spec) as Hne by (intros n Hn ->; done).
  assert (forall n, n ∈ names -> address_of (with_contract (sp_name spec) address codeHash s) n = address_of s n /\
    codeHash_of (with_contract (sp_name spec) address codeHash s) n = codeHash_of s n) as Hold.
  { intros n Hn. unfold address_of, codeHash_of. cbn. specialize (Hne n Hn). by rewrite !lookup_insert_ne by done. }
  assert (address_of (with_contract (sp_name spec) address codeHash s) (sp_name spec) = address /\
    codeHash_of (with_contract (sp_name spec) address codeHash s) (sp_name spec) = codeHash) as [Ha Hh].
  { unfold address_of, codeHash_of. cbn. by rewrite !lookup_insert_eq. }
  split.
  - cbn [dp_manifest with_contract]. rewrite H1, map_app, app_nil_r. cbn [map]. rewrite Ha. f_equal.
    apply List.map_ext_in. intros n Hn%list_elem_of_In. by rewrite (proj1 (Hold n Hn)).
  - apply Forall_app. split; [|by constructor; [rewrite Ha, Hh|constructor]].
    rewrite list.Forall_forall in *. intros n Hn. destruct (Hold n Hn) as [-> ->]. by apply H2.
Qed.

Lemma configure_brings names purpose moduleID targetName method args :
  brings (tracked names []) (configure artifacts writer purpose moduleID targetName method args) (fun _ => tracked names []).
Proof.
  unfold configure. eapply leads_bind; [apply keeps_brings, tracked_artifact|]. intros artifact. cbv beta.
  eapply leads_bind; [apply or_fail_brings, keeps_brings; by intros s|]. intros calldata. cbv beta.
  apply leads_bind with (Q := fun _ => tracked names []); [by intros s|]. intros target.
  apply leads_bind with (Q := fun _ => tracked names []).
  { apply keeps_brings. unfold announce. apply keeps_bind; [intros s; by apply tracked_same|]. intros _.
    apply keeps_bind; [by intros s|]. intros order. apply keeps_bind; [by apply tracked_edit|]. intros _. apply tracked_persist_now. }
  intros []. apply leads_bind with (Q := fun _ => tracked names []).
  { intros s Hs. unfold transact_with. destruct (tx_Send _ _ _ _) as [o x]. revert Hs. by apply tracked_same. }
  intros [result txErr]. apply leads_bind with (Q := fun _ => tracked names []).
  { apply keeps_brings, tracked_record. intros hash receipt _ _ s. by apply tracked_same. }
  intros []. destruct txErr as [e|]; [apply deploy_fail_brings|].
  destruct result as [[hash [receipt|]]|]; try apply deploy_fail_brings.
  eapply leads_bind; [apply or_fail_brings, keeps_brings; by intros s|]. intros ?. cbv beta.
  eapply leads_bind; [apply or_fail_brings, keeps_brings, tracked_asking|]. intros block. cbv beta.
  destruct (_ || _); [apply deploy_fail_brings|by intros s].
Qed.

Lemma deploy_module_brings names directory coordinator m :
  fst m ∉ names ->
  brings (tracked names []) (deploy_module options artifacts operator writer directory coordinator m)
    (fun _ => tracked (names ++ [fst m]) []).
Proof.
  intros Hm. unfold deploy_module. cbv zeta. eapply leads_bind; [by apply deployContract_brings|]. intros []. cbv beta.
  apply leads_bind with (Q := fun _ => tracked (names ++ [fst m]) []); [by intros s|]. intros address.
  apply leads_bind with (Q := fun _ => tracked (names ++ [fst m]) []); [by intros s|]. intros codeHash.
  apply configure_brings.
Qed.

Lemma deploy_modules_brings names directory coordinator ms :
  NoDup (names ++ map fst ms) ->
  brings (tracked names []) (for_each (deploy_module options artifacts operator writer directory coordinator) ms)
    (fun _ => tracked (names ++ map fst ms) []).
Proof.
  revert names. induction ms as [|m ms IH]; intros names Hnd; cbn [for_each map]; [by rewrite app_nil_r; intros s|].
  cbn [map] in Hnd. eapply leads_bind; [apply deploy_module_brings|].
  - apply NoDup_app in Hnd as (_ & Hd & _). intros Hin. apply (Hd _ Hin). by left.
  - intros []. cbv beta. remember (names ++ fst m :: map fst ms) as all eqn:E. rewrite cons_middle, app_assoc in E. subst all. by apply IH.
Qed.

Lemma deploy_suite_brings :
  brings (tracked [] []) (deploy_suite options artifacts operator snapshot writer)
    (fun _ s => tracked contractOrder [] s /\ exists b, mf_DirectoryBindingVerification (dp_manifest s) = Some b /\
       suite_bound (dp_addresses s) (dp_codeHash s) (db_BlockNumber b)).
Proof.
  unfold deploy_suite. eapply leads_bind; [apply keeps_brings, tracked_persist|]. intros []. cbv beta.
  eapply leads_bind; [apply or_fail_brings, keeps_brings, tracked_asking|]. intros chainID. cbv beta.
  destruct (negb _); [apply deploy_fail_brings|].
  eapply leads_bind; [apply deployContract_brings, not_elem_of_nil|]. intros []. cbn [app sp_name directory_spec].
  apply leads_bind with (Q := fun _ => tracked ["SuiteDirectory"%string] []); [by intros s|]. intros directory.
  eapply leads_bind; [apply deployContract_brings|]. { cbn. set_solver. }
  intros []. cbn [app sp_name coordinator_spec].
  apply leads_bind with (Q := fun _ => tracked ["SuiteDirectory"; "BootstrapCoordinator"]%string []); [by intros s|]. intros coordinator.
  apply leads_bind with (Q := fun _ => tracked ["SuiteDirectory"; "BootstrapCoordinator"]%string []); [by intros s|]. intros codeHash.
  eapply leads_bind; [apply configure_brings|]. intros []. cbv beta.
  eapply leads_bind; [apply deploy_modules_brings|]. { cbn. apply (bool_decide_unpack _). by vm_compute. }
  intros []. cbn [app module_arguments map fst].
  apply leads_bind with (Q := fun _ => tracked contractOrder []); [by intros s|]. intros m.
  eapply leads_bind; [apply keeps_brings; by intros s|]. intros receipt. cbv beta.
  apply leads_bind with (Q := fun b s => tracked contractOrder [] s /\
    suite_bound (dp_addresses s) (dp_codeHash s) (db_BlockNumber b)).
  { apply or_fail_brings. intros s Hs. destruct (verifyBindings _ _ _ _ _ _ s) as [s' [b|e]] eqn:E; [|done].
    destruct (learns_verifyBindings (dp_addresses s) (dp_codeHash s) _ _ s s' b eq_refl eq_refl E) as [[Hb Eb] [o ->]].
    split; [revert Hs; by apply tracked_same|]. by rewrite Eb. }
  intros b. apply leads_bind with (Q := fun _ s => tracked contractOrder [] s /\
    exists b, mf_DirectoryBindingVerification (dp_manifest s) = Some b /\
       suite_bound (dp_addresses s) (dp_codeHash s) (db_BlockNumber b)).
  { intros s [Hs Hb]. split; [revert Hs; by apply tracked_same|]. by exists b. }
  intros []. apply keeps_brings. intros s [Hs (b' & Hb & Hbound)]. split; [by apply tracked_persist_now|].
  exists b'. unfold persist_now, now, edit, modify, persist. rewrite bind_run. destruct (clock_now _) as [o t].
  cbv beta iota. rewrite bind_run. cbv beta iota. by destruct (write_evidence _ _ _).
Qed.
End Bound.

(** C25: a deployment that succeeds is the one that was asked for: at the block that
    the manifest names, with a node that tells the truth about blocks, each of the
    nine contracts has the code of its artifact, with immutable values only where
    the compiler left room for them; the directory has the version, the chain, the
    snapshot, the coordinator and the seven modules, with their code hashes, and is
    not active; the coordinator has this directory, snapshot and operator and has
    not begun; every module is bound to both and open, and the operator has every
    role and the fee is as requested.  The manifest lists the nine contracts with
    their addresses. *)
Theorem deployed_suite_bound {GE : Geth} {UC : UnicodeCase} {AF : AbiFiles} {SV : Services} {UR : Urls}
    {FB : FinalBlocks} options path w w' sent m :
  Deploy options path w = (w', sent, Some m, None) ->
  exists disk artifacts address snapshot addresses codeHashes binding,
    loadArtifactSet (op_ArtifactDirectory options) (wd_disk w) = (disk, Ok artifacts) /\
    normalizeEVMAddress (op_Operator options) = Ok address /\
    parseBytes32 (op_SnapshotRoot options) = Ok snapshot /\ op_PlatformFeeBPS options <= 500 /\
    mf_DirectoryBindingVerification m = Some binding /\
    Forall (fun name => verified artifacts name (address_in addresses name) (hash_in codeHashes name)) contractOrder /\
    suite_bound options artifacts (HexToAddress address) snapshot addresses codeHashes (db_BlockNumber binding) /\
    listing m = map (fun name => (name, lowerAddress (address_in addresses name))) contractOrder.
Proof.
  intros H. unfold Deploy in H. fold (deployment_start options path) in H.
  destruct (deployment_start options path w) as [w1 [[p f]|e1]] eqn:Es; [|done].
  unfold deployment_start in Es. apply bind_run_ok in Es as (w2 & p' & Hp & Es).
  apply bind_run_ok in Es as (w3 & f' & _ & Es). injection Es as _ -> ->.
  unfold prepare in Hp. apply bind_run_ok in Hp as (w4 & artifacts & Ha & Hp).
  apply bind_run_ok in Hp as (w5 & [operator snapshot] & Hc & Hp).
  apply bind_run_ok in Hp as (w6 & now & _ & Hp). apply bind_run_ok in Hp as (w7 & i & _ & Hp). injection Hp as _ <-.
  unfold of_result in Hc. apply (f_equal snd) in Hc. cbn [snd] in Hc. go_inv Hc. injection Hc as <- <-. bool_prop.
  apply wrapf_ok in Hc1, Hc2. unfold on_world_disk in Ha.
  destruct (loadArtifactSet (op_ArtifactDirectory options) (wd_disk w)) as [d r] eqn:El. injection Ha as _ ->.
  cbn [pr_artifacts pr_operator pr_snapshot pr_manifest] in H.
  match type of H with context [deploy_suite _ _ _ _ _ ?s] => set (s0 := s) in H end.
  pose proof (deploy_suite_brings options artifacts (HexToAddress a0) a1 f s0) as Hl.
  specialize (Hl ltac:(by split)). destruct (deploy_suite options artifacts (HexToAddress a0) a1 f s0) as [s r].
  unfold close_evidence in H. destruct r as [[]|e]; [|by destruct (Close f (dp_disk s))].
  destruct (Close f (dp_disk s)) as [d' [u|e]]; [|done]. injection H as _ _ <-.
  destruct Hl as [[Hlist Hver] (b & Hb & Hbound)].
  exists d, artifacts, a0, a1, (dp_addresses s), (dp_codeHash s), b. split_and!; [done..|].
  by rewrite Hlist, app_nil_r.
Qed.

(** ** A deployment *)

Module Launch.

(** A checksum in the place of the hash, which nothing here relies on. *)
Definition checksum (m : bytes) : bytes :=
  be_bytes 4 (fold_left (fun h b => (h * 257 + Z.of_N (Byte.to_N b) + 1) mod 2 ^ 32) m 0) ++ repeat Byte.x01 28.

#[local] Instance launch_geth : Geth := {
  keccak256 := checksum; IsHexAddress := @IsHexAddress SampleGeth.sample_geth; HexToAddress := @HexToAddress SampleGeth.sample_geth;
  AddressHex := @AddressHex SampleGeth.sample_geth; HashHex := @HashHex SampleGeth.sample_geth; BytesToHash := @BytesToHash SampleGeth.sample_geth;
  abi_Pack := @abi_Pack SampleGeth.sample_geth; abi_Unpack := @abi_Unpack SampleGeth.sample_geth }.
#[local] Instance launch_case : UnicodeCase := { wide_lower s := s }.
#[local] Instance launch_urls : Urls := {
  URL := string; url_Parse := Ok; without_User u := u; without_RawQuery u := u; without_Fragment u := u;
  url_String u := u }.

(** *** The artifacts *)

Definition getter (name : string) (t : abi_type) : suite_method := mk_suite_method name [] [t].
Definition launch_methods : list suite_method := [
  getter "suiteVersion" (TUint 64); getter "state" (TUint 8); getter "configuredChainId" (TUint 256);
  getter "snapshotRoot" TBytes32; getter "bootstrapAuthority" TAddress; getter "bootstrapCoordinator" TAddress;
  getter "bootstrapCoordinatorCodeHash" TBytes32; getter "registeredModuleCount" (TUint 256);
  getter "suiteDirectory" TAddress; getter "operator" TAddress; getter "activated" TBool;
  getter "nextModuleIndex" (TUint 256); mk_suite_method "moduleAddress" [TBytes32] [TAddress];
  mk_suite_method "moduleCodeHash" [TBytes32] [TBytes32]; mk_suite_method "verifyModule" [TBytes32] [TBool];
  getter "moduleId" TBytes32; getter "bootstrapFinalized" TBool; getter "admin" TAddress;
  getter "policyAdmin" TAddress; getter "releaseAuthority" TAddress; getter "committee" TAddress;
  getter "treasury" TAddress; getter "platformFeeBps" (TUint 16);
  mk_suite_method "setBootstrapCoordinator" [TAddress; TBytes32] [];
  mk_suite_method "registerModule" [TBytes32; TAddress; TBytes32] [] ]%string.

Definition launch_constructor (name : string) : list abi_type :=
  default [TAddress; TAddress] (assoc name [
    ("SuiteDirectory", [TAddress; TUint 256; TBytes32]);
    ("ModerationModule", [TAddress; TAddress; TAddress; TAddress]);
    ("EconomicModule", [TAddress; TAddress; TAddress; TAddress; TUint 16]);
    ("UsernameModule", [TAddress; TAddress; TAddress]); ("ReleaseModule", [TAddress; TAddress; TAddress])])%string.

#[local] Instance launch_abis : AbiFiles := { abi_JSON raw :=
  match raw with
  | Some (JString name) => Ok (mk_contract_abi (launch_constructor name) launch_methods)
  | _ => errf "abi: not an ABI" []
  end }.

(** One byte of code and an immutable value. *)
Definition launch_template : bytes := Byte.x60 :: repeat Byte.x00 32.
Definition launch_code : bytes := Byte.x60 :: repeat Byte.x07 32.
Definition launch_source : string := "contract".
Definition source_digest : string := Eval vm_compute in sha256_hex (string_bytes launch_source).
Definition template_digest : string := Eval vm_compute in sha256_hex launch_template.

Definition artifact_file (name : string) : string := Marshal (JObject [
  text_member "schema" artifactSchema; text_member "contract_name" name; text_member "source_name" "a.sol";
  text_member "source_sha256" source_digest;
  ("compiler", JObject [text_member "version" requiredSolcVersion;
    ("settings", JObject [("optimizer", JObject [bool_member "enabled" true; int_member "runs" 1]);
      bool_member "via_ir" true; text_member "evm_version" "default"])]);
  text_member "abi" name;
  text_member "creation_bytecode" ("0x" +:+ hex_encode launch_template);
  text_member "creation_bytecode_sha256" template_digest;
  text_member "runtime_template" ("0x" +:+ hex_encode launch_template);
  text_member "runtime_template_sha256" template_digest;
  ("immutable_references", JObject [("7", JArray [JObject [int_member "length" 32; int_member "start" 1]])])])%string.

(** *** The chain *)

Definition launch_operator : bytes := repeat Byte.x0a 20.
Definition launch_snapshot : bytes := repeat Byte.x22 32.
Definition launch_block : string := "0x10".
Definition launch_hash : string := "0x" +:+ hex_encode (repeat Byte.x33 32).
Definition launch_options : Options :=
  mk_Options "/suite/artifacts" (hex_encode (repeat Byte.x44 20)) "testnet" 31337 "http://node" ""
    (hashHex launch_snapshot) (lowerAddress launch_operator) 250.

(** The contracts are numbered in the order of their creation. *)
Definition address_number (n : Z) : bytes := be_bytes 20 n.
Definition directory_address : bytes := address_number 1.
Definition coordinator_address : bytes := address_number 2.

(** What the contracts say, with the calldata of each question. *)
Definition question (address : bytes) (method : string) (args : list abi_value) (answer : abi_value)
  : string * string * bytes :=
  (lowerAddress address,
   match suite_Pack launch_methods method args with Ok calldata => "0x" +:+ hex_encode calldata | Err _ => "" end,
   match suite_method_named launch_methods method with
   | Some m => match abi_Pack (sm_outputs m) [answer] with Ok output => output | Err _ => [] end
   | None => []
   end).

Definition module_answers (n : Z) (name : string) : list (string * string * bytes) :=
  let address := address_number n in
  let id := module_id name in
  [ question directory_address "moduleAddress" [VBytes32 id] (VAddress address);
    question directory_address "moduleCodeHash" [VBytes32 id] (VBytes32 (checksum launch_code));
    question directory_address "verifyModule" [VBytes32 id] (VBool true);
    question address "suiteDirectory" [] (VAddress directory_address);
    question address "bootstrapCoordinator" [] (VAddress coordinator_address);
    question address "moduleId" [] (VBytes32 id);
    question address "bootstrapFinalized" [] (VBool false);
    question address "admin" [] (VAddress launch_operator);
    question address "policyAdmin" [] (VAddress launch_operator);
    question address "releaseAuthority" [] (VAddress launch_operator);
    question address "committee" [] (VAddress launch_operator);
    question address "treasury" [] (VAddress launch_operator);
    question address "platformFeeBps" [] (VUint 250) ].

Definition answers : list (string * string * bytes) :=
  [ question directory_address "suiteVersion" [] (VUint 3);
    question directory_address "state" [] (VUint 0);
    question directory_address "configuredChainId" [] (VUint 31337);
    question directory_address "snapshotRoot" [] (VBytes32 launch_snapshot);
    question directory_address "bootstrapAuthority" [] (VAddress (zero_bytes 20));
    question directory_address "bootstrapCoordinator" [] (VAddress coordinator_address);
    question directory_address "bootstrapCoordinatorCodeHash" [] (VBytes32 (checksum launch_code));
    question directory_address "registeredModuleCount" [] (VUint 7);
    question coordinator_address "suiteDirectory" [] (VAddress directory_address);
    question coordinator_address "snapshotRoot" [] (VBytes32 launch_snapshot);
    question coordinator_address "operator" [] (VAddress launch_operator);
    question coordinator_address "activated" [] (VBool false);
    question coordinator_address "nextModuleIndex" [] (VUint 0) ] ++
  concat (zip_with module_answers [3; 4; 5; 6; 7; 8; 9] (drop 2 contractOrder)).

Definition answer (address data : string) : bytes :=
  match List.find (fun q => bool_decide (fst q = (address, data))) answers with Some q => snd q | None => [] end.

Definition receipt (hash target contract : string) : EVMTransactionResult :=
  mk_EVMTransactionResult hash
    (Some (mk_EVMReceipt hash launch_block launch_hash target contract "0x1" "0x5208" [])).
Definition hash_number (n : Z) : string := "0x" +:+ hex_encode (be_bytes 32 (n + 1)).

#[local] Instance launch_services : Services := {
  outside := Z * Z;
  rpc_ChainID o := (o, Ok 31337);
  rpc_CodeAt _ _ o := (o, Ok launch_code);
  rpc_BlockByNumber _ o := (o, Ok (mk_EVMBlock launch_block launch_hash));
  rpc_CallContractAt address data _ o := (o, Ok (answer address data));
  tx_Deploy _ _ o :=
    ((fst o + 1, snd o + 1),
     (Some (receipt (hash_number (snd o)) "" (lowerAddress (address_number (fst o + 1)))), None));
  tx_Send target _ _ o := ((fst o, snd o + 1), (Some (receipt (hash_number (snd o)) target ""), None));
  clock_now o := (o, "2024-01-01T00:00:00Z"%string) }.

#[local] Instance launch_final : FinalBlocks.
Proof.
  refine {| code_at _ _ := launch_code; call_at address data _ := answer address data |}.
  - by intros address block o o' code [= _ <-].
  - by intros address data block o o' output [= _ <-].
Defined.

(** *** The disk *)

Definition launch_files : list (key * inode * string) :=
  [ ((true, []), mk_inode KDirectory mode_0700, ""); ((true, ["suite"]), mk_inode KDirectory mode_0700, "");
    ((true, ["suite"; "artifacts"]), mk_inode KDirectory mode_0700, "");
    ((true, ["suite"; "a.sol"]), mk_inode KFile mode_0600, launch_source) ]%string ++
  map (fun name => ((true, ["suite"; "artifacts"; name +:+ ".json"]), mk_inode KFile mode_0600, artifact_file name))%string
    contractOrder.

Definition on_disk (files : list (key * inode * string)) : disk :=
  let numbers := seqZ 0 (llen files) in
  mk_disk (mk_table (list_to_map (zip (map (fun f => fst (fst f)) files) numbers))
             (list_to_map (zip numbers (map (fun f => snd (fst f)) files))))
    [] (list_to_map (zip numbers (map (fun f => mk_contents (snd f) "") files))) (llen files) 0 [] [] false.

Definition launch_world : world := mk_world (on_disk launch_files) (0, 0).
Definition launch_path : string := "/suite/evidence.json".
Definition launch : outcome := Deploy launch_options launch_path launch_world.

(** A file that is there already. *)
Definition earlier_evidence : key * inode * string :=
  ((true, ["suite"; "evidence.json"]), mk_inode KFile mode_0600, "{}")%string.
Definition second_world : world := mk_world (on_disk (launch_files ++ [earlier_evidence])) (0, 0).

Lemma launch_disk_ok files : disk_ok (on_disk files).
Proof.
  assert (forall i : Z, i ∈ seqZ 0 (llen files) -> i < llen files) as Hi by (intros i Hi%elem_of_seqZ; lia).
  split.
  - intros t k i [->|H]%elem_of_cons Hk; [|by apply elem_of_nil in H]. cbn [dk_next on_disk].
    apply elem_of_list_to_map_2, elem_of_zip_r in Hk. by apply Hi.
  - intros i c Hc. apply elem_of_list_to_map_2, elem_of_zip_l in Hc. by apply Hi.
Qed.

Definition succeeded (r : outcome) : bool :=
  match r with (_, _, Some _, None) => true | _ => false end.

(** Evaluated by the kernel. *)
Lemma launched : succeeded launch = true.
Proof. exact_no_check (@eq_refl bool true). Qed.

Lemma launch_result : exists w sent m, launch = (w, sent, Some m, None).
Proof.
  pose proof launched as H. destruct launch as [[[w sent] [m|]] [e|]]; try discriminate H. by exists w, sent, m.
Qed.

Lemma sample_accepted : exists a, parseCheckedArtifact "BadgeModule" (artifact_file "BadgeModule") = Ok a.
Proof.
  assert (is_ok (parseCheckedArtifact "BadgeModule" (artifact_file "BadgeModule")) = true) as H by by vm_compute.
  destruct (parseCheckedArtifact _ _) as [a|]; [by exists a|discriminate H].
Qed.

Definition launch_values : gmap string string := {["7" := "0x" +:+ hex_encode (repeat Byte.x07 32)]}%string.

Lemma runtime_comparison_exact_witness :
  exists a, parseCheckedArtifact "BadgeModule" (artifact_file "BadgeModule") = Ok a /\
    (compareRuntimeTemplate (ka_runtime a) launch_code (ka_ImmutableReferences (ka_text a)) = Ok launch_values <->
     length launch_code = length (ka_runtime a) /\
     (forall i, ~ covered (ka_ImmutableReferences (ka_text a)) i -> launch_code !! i = ka_runtime a !! i) /\
     (forall key, is_Some (launch_values !! key) <-> is_Some (ka_ImmutableReferences (ka_text a) !! key)) /\
     (forall key rs, ka_ImmutableReferences (ka_text a) !! key = Some rs ->
        exists v, length v = 32%nat /\ launch_values !! key = Some ("0x" +:+ hex_encode v)%string /\
          forall r, r ∈ rs -> value_at launch_code r = v)).
Proof.
  destruct sample_accepted as [a E]. exists a. split; [exact E|].
  exact (runtime_comparison_exact "BadgeModule" (artifact_file "BadgeModule") a launch_code launch_values E).
Defined.

Lemma evidence_precedes_transactions_witness :
  exists w sent m, launch = (w, sent, Some m, None) /\ length sent = 17%nat /\
    text_at (wd_disk w) (path_key launch_path) = Some (MarshalCanonical m) /\
    forall n r d, sent !! n = Some (r, d) -> exists m', listed m' (Z.of_nat n + 1) r /\
      text_at d (path_key launch_path) = Some (MarshalCanonical m').
Proof.
  destruct launch_result as (w & sent & m & E). exists w, sent, m. split; [exact E|].
  destruct (evidence_precedes_transactions launch_options launch_path launch_world w sent (Some m) None
    (launch_disk_ok launch_files) E) as (H1 & _ & H3).
  change (path_key (Clean (TrimSpace launch_path))) with (path_key launch_path) in *.
  destruct (H3 eq_refl) as (Hl & m' & [= <-] & _ & Ht). split; [exact Hl|]. split; [exact Ht|].
  intros n r d Hn. destruct (H1 n r d Hn) as (m' & Hlisted & Hm & _). exists m'. split; [|exact Hm].
  exact (Hlisted n r d (le_n n) Hn).
Defined.

Lemma existing_evidence_kept_witness :
  exists w e, Deploy launch_options launch_path second_world = (w, [], None, Some e) /\
    text_at (wd_disk w) (path_key launch_path) = Some "{}"%string.
Proof.
  destruct (Deploy launch_options launch_path second_world) as [[[w sent] m] e] eqn:E.
  destruct (existing_evidence_kept launch_options launch_path second_world w sent m e true ["suite"%string]
    "evidence.json" "{}") as (-> & -> & [e' ->] & H).
  - split; [reflexivity|]. split; reflexivity.
  - apply launch_disk_ok.
  - intros found [Ht Hc]. apply list_elem_of_singleton in Ht.
    destruct (Hc 13 (mk_contents "{}" "")) as (c & Hc' & ->%remains_synced); [reflexivity|].
    unfold text_at, look, inode_at. rewrite Ht.
    change (tb_names (dk_table (wd_disk second_world)) !! path_key (Clean (TrimSpace launch_path))) with (Some 13).
    cbn [mbind option_bind]. change (tb_inodes (dk_table (wd_disk second_world)) !! 13) with (Some (mk_inode KFile mode_0600)).
    cbn [mbind option_bind fmap option_fmap option_map fst snd]. cbv beta iota. cbn [mbind option_bind]. cbv beta iota.
    by rewrite Hc'.
  - exact E.
  - exists w, e'. split; [reflexivity|]. apply H, after_refl.
Defined.

Lemma deployed_suite_bound_witness :
  exists w sent m, launch = (w, sent, Some m, None) /\
    exists artifacts addresses codeHashes binding,
      Forall (fun name => verified artifacts name (address_in addresses name) (hash_in codeHashes name)) contractOrder /\
      suite_bound launch_options artifacts launch_operator launch_snapshot addresses codeHashes (db_BlockNumber binding) /\
      listing m = map (fun name => (name, lowerAddress (address_in addresses name))) contractOrder.
Proof.
  destruct launch_result as (w & sent & m & E). exists w, sent, m. split; [exact E|].
  destruct (deployed_suite_bound launch_options launch_path launch_world w sent m E)
    as (d & artifacts & address & snapshot & addresses & codeHashes & binding & _ & Ha & Hs & _ & _ & Hv & Hb & Hl).
  exists artifacts, addresses, codeHashes, binding.
  assert (normalizeEVMAddress (op_Operator launch_options) = Ok (lowerAddress launch_operator)) as Ha' by (by vm_compute).
  assert (parseBytes32 (op_SnapshotRoot launch_options) = Ok launch_snapshot) as Hs' by (by vm_compute).
  rewrite Ha' in Ha. rewrite Hs' in Hs. injection Ha as <-. injection Hs as <-.
  change (HexToAddress (lowerAddress launch_operator)) with launch_operator in Hb.
  split; [exact Hv|]. split; [exact Hb|exact Hl].
Defined.
End Launch.
